(* ===== verification/_CoqProject ===== *)
-Q . S2P
Prelude.v
Mem.v
StringLib.v
Bitmap.v
Pmm.v
Heap.v
KernelHeap.v
Vmm.v
VmmSpec.v
VmmUser.v
MmInit.v
Path.v
Keyboard.v
Vga.v
Kprintf.v
Console.v
Proc.v
Ramfs.v
Vnode.v
File.v
Vfs.v
VfsRefs.v
VfsSpec.v
FsInit.v
Syscall.v
SyscallSpec.v
UserProc.v
Interrupts.v
Report.v
Boot.v
UserLib.v
Shell.v
Init.v
ShellKernel.v
