(* ===== verification/Prelude.v ===== *)
(** * Chanux OS: a verification development

    Chanux is a small x86_64 kernel in C (src/kernel) with a boot loader in
    assembly (src/boot) and user programs (src/user).  This library models the C
    code of the kernel and of the user programs as executable definitions and
    proves what makes it correct.

    ** The program and its model

    A component's state is a record of the file's static variables, with the
    names of the source; its functions are Rocq functions that pass the state
    along.  Structures that the C code overlays on raw memory (heap headers, the
    RAM disk) are read and written in byte memory at their offsets.

    - Prelude: machine integers with their wrap-around ([+64], [-32], ...),
      C loops ([while_], [for_], [find_first]), alignment macros of kernel.h, and
      the tactics and generic lemmas of the other files.
    - Mem: byte memory with little-endian loads and stores.  Bitmap: the bitmap
      operations of mm/pmm.c and fs/ramfs.c.
    - StringLib: lib/string.c.
    - Pmm: mm/pmm.c, the page-frame allocator.
    - Heap: mm/heap.c, the first-fit kernel heap, over an interface
      ([PageSource]) for the page allocator and the page mapper.  KernelHeap: the
      heap as process.c and file.c use it, a class of operations ([KernelHeap])
      with laws ([KernelHeapLaws]) that the allocator of Heap meets.
    - Vmm: mm/vmm.c, page tables in byte memory over an interface
      ([FrameSource]) for page frames, which Pmm implements.  VmmSpec: the
      translation of addresses by a walk through the tables, the invariant of the
      tables and the operations on the kernel's; VmmUser: address spaces of
      processes and their isolation.
    - MmInit: [mm_init] of kernel.c, the three memory managers put together: Pmm
      gives frames to Vmm, and both implement [PageSource] for Heap.
    - Path: fs/path.c.
    - Keyboard: drivers/keyboard/keyboard.c.
    - Vga: drivers/vga/vga.c, the console and [kprintf].  Kprintf: what a format
      denotes.  Console: messages as lists of console actions.
    - Proc: proc/process.c and proc/sched.c, messages included, over an interface
      ([ProcEnv]) for memory, descriptor tables and the console.
    - Ramfs: fs/ramfs.c, the filesystem on the RAM disk.
    - Vnode, File, Vfs: the tables of fs/vfs.c and fs/file.c, the operations of
      fs/file.c on descriptors and open files, and those of fs/vfs.c.
    - VfsRefs, VfsSpec: the reference counts of open files and vnodes, and the
      invariant and theorems of the filesystem layer.  FsInit: [fs_init] of
      kernel.c, which creates the first files.
    - Syscall: syscall/syscall.c, sys_fs.c, sys_io.c and sys_process.c, and the
      tick handler of drivers/pit/pit.c.  Here the components meet: the state is
      that of Proc over a world of VFS, descriptor tables, console, keyboard, heap
      and the memory of the running program, and the world implements [ProcEnv].
      [w_pages] says which pages of the lower half are mapped to frames of the
      program; the code does not check this, and an access elsewhere, which faults
      or hits the identity-mapped kernel, is the result [None].
    - SyscallSpec: the invariant of the whole kernel over all sequences of system
      calls and interrupts.
    - UserProc: user/user_process.c, loading a program and its stack into an
      address space and creating its process, over Vmm and Proc.
    - Interrupts: arch/x86_64/gdt.c, interrupts/idt.c, isr.c and irq.c,
      drivers/pic/pic.c, the programming and sleeping of drivers/pit/pit.c and the
      SYSCALL registers of syscall/syscall.c.  Ports are a class ([Ports]); what
      the two interrupt controllers do is a class of laws ([Pic8259]) with an
      executable instance.
    - Report: what isr.c prints about exceptions, and the banner, the memory map,
      the panic message and the demonstration processes of kernel.c, as lists of
      console actions.
    - Boot: [interrupts_init] of kernel.c.
    - UserLib: src/user/lib/libc.c over the system call instruction ([UserSys]),
      and what a program relies on to read and print ([Terminal]); the kernel of
      Syscall implements it.
    - Shell: src/user/shell/shell.c over [Terminal].  ShellKernel: the shell's
      commands run by the kernel, from the command down to the disk.
    - Init: src/user/init/init.c over [Terminal] and what it needs besides to live
      and exit ([Process]), which the kernel implements too.

    ** What the theorems show

    - The kernel: from the start with its first files on, over fewer than 2^30
      system calls with any arguments, process creations, timer ticks and key
      presses, the state stays consistent, processes being created while the heap
      has no free block that fits their tables and stacks exactly; a system call
      whose pointers are the program's own returns, and any call that returns
      writes to the buffer it was given only.
    - Memory: no page frame is handed out twice; [kmalloc] and [kfree] implement
      first fit and coalescing on the list of blocks that tile the heap, as long
      as the block taken exceeds the request by a header; after [mm_init] the heap
      is one free block whose pages are mapped to frames of their own, and
      addresses that share no entry with the heap's translate as under the boot
      loader.
    - Address translation: mapping and unmapping change the translation of the
      addresses that reach the page's entry and nothing else, splitting large pages
      where needed; whatever is mapped for user programs, the kernel's tables and
      the other address spaces stay as they were, unless the way to the page holds
      a 1 GB page or a last-level table of the kernel; a new process sees its
      program image and a zeroed stack.
    - Interrupts: descriptors and gates are well formed and fit the system call
      registers; the controllers are set up, masked and acknowledged so that a
      handler runs once per interrupt and spurious interrupts run none; sleeping
      ends in time.
    - Files: the disk stays consistent over all operations; reads and writes are
      those of a byte sequence with holes; directories are finite maps from names
      of up to 55 bytes to inodes; what is written through a descriptor is read back through it;
      reference counts equal the number of references.
    - Processes: the run queue holds exactly the ready processes, and a process
      waits a bounded number of time slices.
    - Input, output and paths: the keyboard buffer is a bounded queue, the screen
      shows the end of an unbounded page, [kprintf] prints the text its format
      denotes, every exception without a handler is reported in full, path
      normalisation is a fold over components, the string routines have their byte-wise meaning.
    - User programs: line editing and word splitting as functions on key and
      character sequences, the shell from keys to screen, [cat] from the command to
      the bytes on disk, the printing of numbers, the first program from its start
      to its exit.
    - Where the code does not do what it means to, a theorem states what it does
      instead: see the theorems named [_writes_past_limit], [_hands_out_live_block],
      [_size_wraps], [_misses_run], [_counts_overlap_twice], [_hides_entry],
      [_keeps_stale_tail], [_freed_while_open], [_leaks_inode], [_accumulate],
      [_never_reused], [_cuts_next_slice], [_refuses_root], [_frees_kernel_table],
      [_never_freed], [_ticks_wraps] and [_as_mode].

    ** Bounds and fuel

    A [for] loop runs over its range.  A [while] loop is [while_], with
    [WHILE_FUEL] = 2^65 steps in binary: every loop here is bounded by a 64-bit
    counter or by a list in a 64-bit address space, so that this is more than any
    of them takes.  Running out is [None], and the theorems prove that a result
    is returned.  [kmalloc] calls itself after growing the heap; its fuel counts
    the calls.  [kernel_invariant] is about at most 2^30 steps after boot, since
    the root vnode's 32-bit reference count only grows.

    ** Not modelled

    - Assembly: the boot loader, the context switch (a change of the current
      process here) and the interrupt and system call entries.
    - Paging and system calls are separate models: Vmm and UserProc have page
      tables, Syscall the pages of the running program as a predicate, which any
      step between two system calls may change.  What happens after a page fault
      in the kernel (a report and a halt, see Report) or after a write over the
      identity-mapped kernel is not followed further.
    - The window through which the kernel reaches page frames shows all of them in
      Vmm; on the machine it shows 64 MB, less the heap's addresses.
    - kernel.c: [kernel_main] as one function.  Its initialisers are definitions
      ([mm_init], [interrupts_init], [fs_init], [process_init], [sched_init],
      [syscall_init], [sched_start]), on the states of their components; the
      messages between them are not modelled.
    - What other processes print while a program sleeps or yields: the interface
      [Terminal] is that of a program that has the console to itself.
    - Messages of the memory managers, the filesystem, the loader of user programs
      and the initialisers of the drivers, whose models have no console; those of
      the processes, the scheduler, the system calls and the exception handlers
      are modelled.  Waiting for devices. *)

From Stdlib Require Import ZArith Lia.
From Stdlib Require Ascii String.
From stdpp Require Import base numbers list gmap.

Open Scope Z_scope.

(** ** Machine integers

    A w-bit C integer is a [Z]; the conversions below are the wrap-around of
    the unsigned types and the two's-complement reading of the signed ones. *)

Definition u8 (z : Z) : Z := z mod 2 ^ 8.
Definition u16 (z : Z) : Z := z mod 2 ^ 16.
Definition u32 (z : Z) : Z := z mod 2 ^ 32.
Definition u64 (z : Z) : Z := z mod 2 ^ 64.
Definition i32 (z : Z) : Z := (z + 2 ^ 31) mod 2 ^ 32 - 2 ^ 31.
Definition i64 (z : Z) : Z := (z + 2 ^ 63) mod 2 ^ 64 - 2 ^ 63.

Declare Scope c_scope.
Delimit Scope c_scope with c.
Notation "a +64 b" := (u64 (a + b)) (at level 50, left associativity) : c_scope.
Notation "a -64 b" := (u64 (a - b)) (at level 50, left associativity) : c_scope.
Notation "a *64 b" := (u64 (a * b)) (at level 40, left associativity) : c_scope.
Notation "a +32 b" := (u32 (a + b)) (at level 50, left associativity) : c_scope.
Notation "a -32 b" := (u32 (a - b)) (at level 50, left associativity) : c_scope.
Open Scope c_scope.

Definition is_u8 (z : Z) : Prop := 0 <= z < 2 ^ 8.
Definition is_u32 (z : Z) : Prop := 0 <= z < 2 ^ 32.
Definition is_u64 (z : Z) : Prop := 0 <= z < 2 ^ 64.

(** kernel.h: the alignment macros, on 64-bit operands.  [~(align - 1)] is a
    negative [int] that sign-extends, which is what [Z.lnot] denotes. *)

Definition PAGE_SIZE : Z := 4096.
Definition KERNEL_VIRT_BASE : Z := 0xFFFFFFFF80000000.
Definition ALIGN_UP (x align : Z) : Z := Z.land (x +64 (align - 1)) (Z.lnot (align - 1)).
Definition ALIGN_DOWN (x align : Z) : Z := Z.land x (Z.lnot (align - 1)).
Definition IS_ALIGNED (x align : Z) : bool := Z.land x (align - 1) =? 0.

(** ** Loops

    [for_ lo hi body s] is the C loop [for (i = lo; i < hi; i++) body]; the
    body either goes on with a new state or leaves the loop with a result
    ([return] or [break]).  The iteration count is a binary number, so a loop
    with a large bound that stops early is cheap to evaluate. *)

Inductive ctl (S R : Type) : Type :=
  | Next (s : S)
  | Stop (r : R).
Arguments Next {S R} s.
Arguments Stop {S R} r.

Section loops.
Context {S R : Type}.

Definition ctl_bind (c : ctl S R) (k : S → ctl S R) : ctl S R :=
  match c with Next s => k s | Stop r => Stop r end.

Fixpoint iter_pos (f : S → ctl S R) (p : positive) (s : S) : ctl S R :=
  match p with
  | xH => f s
  | xO p => ctl_bind (iter_pos f p s) (iter_pos f p)
  | xI p => ctl_bind (f s) (λ s', ctl_bind (iter_pos f p s') (iter_pos f p))
  end.

Definition iterZ (f : S → ctl S R) (n : Z) (s : S) : ctl S R :=
  match n with Zpos p => iter_pos f p s | _ => Next s end.

Fixpoint iter_nat (f : S → ctl S R) (n : nat) (s : S) : ctl S R :=
  match n with
  | O => Next s
  | Datatypes.S n => ctl_bind (f s) (iter_nat f n)
  end.

Lemma iter_nat_add f n m s :
  iter_nat f (n + m) s = ctl_bind (iter_nat f n s) (iter_nat f m).
Proof.
  revert s; induction n as [|n IH]; intros s; simpl; [done|].
  destruct (f s); simpl; auto.
Qed.

Lemma iter_pos_nat f p s : iter_pos f p s = iter_nat f (Pos.to_nat p) s.
Proof.
  assert (Hd : ∀ q s, (∀ s, iter_pos f q s = iter_nat f (Pos.to_nat q) s) →
            ctl_bind (iter_pos f q s) (iter_pos f q)
            = iter_nat f (Pos.to_nat q + Pos.to_nat q) s).
  { intros q s' IH. rewrite iter_nat_add, <- IH.
    destruct (iter_pos f q s'); simpl; auto. }
  revert s; induction p as [p IH|p IH|]; intros s; cbn [iter_pos].
  - replace (Pos.to_nat p~1) with (1 + (Pos.to_nat p + Pos.to_nat p))%nat by lia.
    simpl. destruct (f s); simpl; auto.
  - replace (Pos.to_nat p~0) with (Pos.to_nat p + Pos.to_nat p)%nat by lia. auto.
  - simpl. by destruct (f s).
Qed.

Lemma iterZ_0 f n s : n <= 0 → iterZ f n s = Next s.
Proof. destruct n; simpl; [done|lia|done]. Qed.

Lemma iterZ_succ f n s : 0 <= n → iterZ f (n + 1) s = ctl_bind (f s) (iterZ f n).
Proof.
  intros Hn. destruct n as [|p|]; [| |lia].
  - simpl. by destruct (f s).
  - replace (Z.pos p + 1) with (Z.pos (Pos.succ p)) by lia. cbn [iterZ].
    rewrite iter_pos_nat, Pos2Nat.inj_succ. simpl.
    destruct (f s); simpl; [|done]. by rewrite iter_pos_nat.
Qed.

End loops.

Section for_loops.
Context {S R : Type}.

Definition for_step (body : Z → S → ctl S R) (st : Z * S) : ctl (Z * S) R :=
  match body st.1 st.2 with
  | Next s' => Next (st.1 + 1, s')
  | Stop r => Stop r
  end.

Definition for_ (lo hi : Z) (body : Z → S → ctl S R) (s : S) : ctl S R :=
  match iterZ (for_step body) (hi - lo) (lo, s) with
  | Next st => Next st.2
  | Stop r => Stop r
  end.

Lemma for_nil lo hi body s : hi <= lo → for_ lo hi body s = Next s.
Proof. intros H. unfold for_. rewrite iterZ_0 by lia. done. Qed.

Lemma for_cons lo hi body s :
  lo < hi → for_ lo hi body s = ctl_bind (body lo s) (for_ (lo + 1) hi body).
Proof.
  intros H. unfold for_. replace (hi - lo) with ((hi - (lo + 1)) + 1) by lia.
  rewrite iterZ_succ by lia. unfold for_step at 1; simpl.
  by destruct (body lo s).
Qed.

Lemma for_inv (I : Z → S → Prop) (Q : Z → R → Prop) lo hi body s :
  lo <= hi → I lo s →
  (∀ i s, lo <= i < hi → I i s →
     match body i s with Next s' => I (i + 1) s' | Stop r => Q i r end) →
  match for_ lo hi body s with
  | Next s' => I hi s'
  | Stop r => ∃ i, lo <= i < hi ∧ Q i r
  end.
Proof.
  intros Hle. remember (Z.to_nat (hi - lo)) as n eqn:Hn.
  revert lo s Hle Hn. induction n as [|n IH]; intros lo s Hle Hn HI Hstep.
  - rewrite for_nil by lia. by replace hi with lo by lia.
  - rewrite for_cons by lia. pose proof (Hstep lo s ltac:(lia) HI) as Hb.
    destruct (body lo s) as [s'|r]; simpl; [|exists lo; split; [lia|done]].
    specialize (IH (lo + 1) s' ltac:(lia) ltac:(lia) Hb
      (λ i s Hi, Hstep i s ltac:(lia))).
    destruct (for_ (lo + 1) hi body s'); [done|].
    destruct IH as (i & ? & ?). exists i. split; [lia|done].
Qed.

(** The same with one postcondition for every way out. *)
Lemma for_inv_out (I : Z → S → Prop) (Q : R → Prop) lo hi body s :
  lo <= hi → I lo s →
  (∀ i s, lo <= i < hi → I i s → match body i s with Next s' => I (i + 1) s' | Stop r => Q r end) →
  match for_ lo hi body s with Next s' => I hi s' | Stop r => Q r end.
Proof.
  intros Hle HI Hstep. pose proof (for_inv I (λ _, Q) lo hi body s Hle HI Hstep) as Hl.
  destruct (for_ lo hi body s); [done|]. by destruct Hl as (_ & _ & Hl).
Qed.

End for_loops.

(** [for_each] is a loop that never leaves early. *)

Definition for_each {S : Type} (lo hi : Z) (body : Z → S → S) (s : S) : S :=
  foldl (λ s i, body i s) s (seqZ lo (hi - lo)).

Lemma for_each_nil {S} lo hi (body : Z → S → S) s : hi <= lo → for_each lo hi body s = s.
Proof. intros H. unfold for_each. by rewrite seqZ_nil by lia. Qed.

Lemma for_each_cons {S} lo hi (body : Z → S → S) s :
  lo < hi → for_each lo hi body s = for_each (lo + 1) hi body (body lo s).
Proof.
  intros H. unfold for_each. rewrite seqZ_cons by lia. simpl.
  do 2 f_equal; lia.
Qed.

Lemma for_each_inv {S} (I : Z → S → Prop) lo hi (body : Z → S → S) s :
  lo <= hi → I lo s →
  (∀ i s, lo <= i < hi → I i s → I (i + 1) (body i s)) →
  I hi (for_each lo hi body s).
Proof.
  intros Hle. remember (Z.to_nat (hi - lo)) as n eqn:Hn.
  revert lo s Hle Hn. induction n as [|n IH]; intros lo s Hle Hn HI Hstep.
  - rewrite for_each_nil by lia. by replace hi with lo by lia.
  - rewrite for_each_cons by lia. apply IH; [lia|lia|apply Hstep; [lia|done]|].
    intros; apply Hstep; [lia|done].
Qed.

Lemma for_each_snoc {S} lo hi (body : Z → S → S) s :
  lo <= hi → for_each lo (hi + 1) body s = body hi (for_each lo hi body s).
Proof.
  intros Hle. remember (Z.to_nat (hi - lo)) as n eqn:Hn.
  revert lo s Hle Hn. induction n as [|n IH]; intros lo s Hle Hn.
  - rewrite for_each_cons, !for_each_nil by lia. by replace hi with lo by lia.
  - rewrite for_each_cons, (for_each_cons lo hi) by lia. apply IH; lia.
Qed.

(** [find_first lo hi p] is the linear search
    [for (i = lo; i < hi; i++) if (p(i)) return i;]. *)

Definition find_first (lo hi : Z) (p : Z → bool) : option Z :=
  match for_ lo hi (λ i (_ : unit), if p i then Stop i else Next tt) tt with
  | Stop i => Some i
  | Next _ => None
  end.

Lemma find_first_spec lo hi p :
  match find_first lo hi p with
  | Some i => lo <= i < hi ∧ p i = true ∧ ∀ j, lo <= j < i → p j = false
  | None => ∀ j, lo <= j < hi → p j = false
  end.
Proof.
  unfold find_first. destruct (decide (lo <= hi)).
  - pose proof (for_inv (R := Z) (λ i (_ : unit), ∀ j, lo <= j < i → p j = false)
      (λ i r, r = i ∧ p i = true ∧ ∀ j, lo <= j < i → p j = false)
      lo hi (λ i _, if p i then Stop i else Next tt) tt) as H.
    destruct (for_ _ _ _ _).
    + apply H; [done|lia|]. intros i [] Hi HI. destruct (p i) eqn:E; [done|].
      intros j Hj. destruct (decide (j = i)); [by subst|apply HI; lia].
    + destruct H as (i & Hi & -> & ?); [done|lia| |done].
      intros i [] Hi HI. destruct (p i) eqn:E; [done|].
      intros j Hj. destruct (decide (j = i)); [by subst|apply HI; lia].
  - rewrite for_nil by lia. lia.
Qed.

Lemma find_first_Some lo hi p i :
  find_first lo hi p = Some i ↔
  lo <= i < hi ∧ p i = true ∧ ∀ j, lo <= j < i → p j = false.
Proof.
  pose proof (find_first_spec lo hi p) as H. split.
  - intros E. by rewrite E in H.
  - intros (Hi & Hp & Hlt). destruct (find_first lo hi p) as [k|].
    + destruct H as (Hk & Hpk & Hltk). f_equal.
      destruct (Z.lt_trichotomy i k) as [?|[?|?]]; [|done|].
      * rewrite Hltk in Hp by lia. done.
      * rewrite Hlt in Hpk by lia. done.
    + rewrite H in Hp by lia. done.
Qed.

Lemma find_first_None lo hi p :
  find_first lo hi p = None ↔ ∀ j, lo <= j < hi → p j = false.
Proof.
  pose proof (find_first_spec lo hi p) as H. split.
  - intros E. by rewrite E in H.
  - intros Hall. destruct (find_first lo hi p) as [k|]; [|done].
    destruct H as (Hk & Hpk & _). rewrite Hall in Hpk by lia. done.
Qed.

Lemma find_first_ext lo hi p q :
  (∀ i, lo <= i < hi → p i = q i) → find_first lo hi p = find_first lo hi q.
Proof.
  intros E. pose proof (find_first_spec lo hi p) as H.
  destruct (find_first lo hi p) as [k|]; symmetry.
  - destruct H as (Hk & Hp & Hlt). apply find_first_Some.
    split_and!; [lia|lia|by rewrite <- E|]. intros j Hj. rewrite <- E by lia. auto.
  - apply find_first_None. intros j Hj. rewrite <- E by lia. auto.
Qed.

(** [while_ cond body s] is [while (cond) body].  [None] means the iteration
    budget ran out; the budget exceeds every 64-bit counter, and the theorems
    about a loop prove that it ends with [Some]. *)

Definition WHILE_FUEL : Z := 2 ^ 65.

Definition while_ {S : Type} (cond : S → bool) (body : S → S) (s : S) : option S :=
  match iterZ (λ s, if cond s then Next (body s) else Stop s) WHILE_FUEL s with
  | Stop s' => Some s'
  | Next _ => None
  end.

Lemma iterZ_while {S} (cond : S → bool) (body : S → S) (I : S → Prop) (mu : S → Z) n s :
  I s → 0 <= mu s < n →
  (∀ s, I s → cond s = true → I (body s) ∧ 0 <= mu (body s) < mu s) →
  ∃ s', iterZ (λ s, if cond s then Next (body s) else Stop s) n s = Stop s'
        ∧ I s' ∧ cond s' = false.
Proof.
  intros HI Hmu Hstep. remember (Z.to_nat (mu s)) as k eqn:Hk.
  revert s n HI Hmu Hk. induction (lt_wf k) as [k _ IH]. intros s n HI Hmu Hk.
  replace n with ((n - 1) + 1) by lia. rewrite iterZ_succ by lia.
  destruct (cond s) eqn:E; simpl; [|eauto].
  destruct (Hstep s HI E) as [HI' Hlt].
  eapply (IH (Z.to_nat (mu (body s)))); [lia|done|lia|done].
Qed.

Lemma while_total {S} (cond : S → bool) (body : S → S) (I : S → Prop) (mu : S → Z) s :
  I s → 0 <= mu s < WHILE_FUEL →
  (∀ s, I s → cond s = true → I (body s) ∧ 0 <= mu (body s) < mu s) →
  ∃ s', while_ cond body s = Some s' ∧ I s' ∧ cond s' = false.
Proof.
  intros HI Hmu Hstep. unfold while_.
  destruct (iterZ_while cond body I mu WHILE_FUEL s HI Hmu Hstep) as (s' & -> & ?); eauto.
Qed.

(** [loop body s] is [for (;;) body]: each round goes on or leaves with a
    result, under the same budget. *)

Definition loop {S R : Type} (body : S → ctl S R) (s : S) : option R :=
  match iterZ body WHILE_FUEL s with Stop r => Some r | Next _ => None end.

(** [runs body n s r]: from [s], [body] leaves with [r] in its [n]-th round. *)
Inductive runs {S R : Type} (body : S → ctl S R) : nat → S → R → Prop :=
  | runs_stop s r : body s = Stop r → runs body 1 s r
  | runs_next n s s' r : body s = Next s' → runs body n s' r → runs body (Datatypes.S n) s r.

Lemma runs_iterZ {S R} (body : S → ctl S R) n s r k :
  runs body n s r → Z.of_nat n <= k → iterZ body k s = Stop r.
Proof.
  intros H. revert k. induction H as [s r E|n s s' r E _ IH]; intros k Hk;
    replace k with ((k - 1) + 1) by lia; rewrite iterZ_succ by lia; rewrite E; simpl; [done|].
  apply IH. lia.
Qed.

Lemma loop_runs {S R} (body : S → ctl S R) n s r :
  runs body n s r → Z.of_nat n <= WHILE_FUEL → loop body s = Some r.
Proof. intros H Hn. unfold loop. by rewrite (runs_iterZ body n s r WHILE_FUEL H Hn). Qed.

Lemma loop_total {S R} (body : S → ctl S R) (I : S → Prop) (Q : R → Prop) (mu : S → Z) s :
  I s → 0 <= mu s < WHILE_FUEL →
  (∀ s, I s → match body s with
              | Next s' => I s' ∧ 0 <= mu s' < mu s
              | Stop r => Q r
              end) →
  ∃ r, loop body s = Some r ∧ Q r.
Proof.
  intros HI Hmu Hstep.
  assert (Hruns : ∃ n r, Z.of_nat n <= mu s + 1 ∧ runs body n s r ∧ Q r).
  { destruct Hmu as [Hmu _]. remember (Z.to_nat (mu s)) as k eqn:Hk. revert s HI Hmu Hk.
    induction (lt_wf k) as [k _ IH]. intros s HI Hmu Hk. specialize (Hstep s HI) as Hs.
    destruct (body s) as [s'|r] eqn:E.
    - destruct Hs as [HI' Hlt].
      destruct (IH (Z.to_nat (mu s')) ltac:(lia) s' HI' ltac:(lia) eq_refl) as (n & r & Hn & Hr & HQ).
      exists (Datatypes.S n), r. split_and!; [lia|by eapply runs_next|done].
    - exists 1%nat, r. split_and!; [lia|by apply runs_stop|done]. }
  destruct Hruns as (n & r & Hn & Hr & HQ). exists r. split; [|done].
  eapply loop_runs; [exact Hr|lia].
Qed.

Lemma while_runs {S} (cond : S → bool) (body : S → S) n s r :
  runs (λ s, if cond s then Next (body s) else Stop s) n s r → Z.of_nat n <= WHILE_FUEL →
  while_ cond body s = Some r.
Proof. intros H Hn. unfold while_. by rewrite (runs_iterZ _ n s r WHILE_FUEL H Hn). Qed.

Strategy 1000 [while_ iterZ for_ loop].

Lemma bind_Some_eq {A B} (f : A → option B) (x : A) : (Some x ≫= f) = f x.
Proof. done. Qed.

(** ** Arithmetic shared by the components *)

Lemma u8_range z : is_u8 (u8 z).
Proof. apply Z.mod_pos_bound. lia. Qed.
Lemma u32_range z : is_u32 (u32 z).
Proof. apply Z.mod_pos_bound. lia. Qed.
Lemma u64_range z : is_u64 (u64 z).
Proof. apply Z.mod_pos_bound. lia. Qed.

Lemma u8_id z : 0 <= z < 2 ^ 8 → u8 z = z.
Proof. apply Z.mod_small. Qed.
Lemma u16_id z : 0 <= z < 2 ^ 16 → u16 z = z.
Proof. apply Z.mod_small. Qed.
Lemma u32_id z : 0 <= z < 2 ^ 32 → u32 z = z.
Proof. apply Z.mod_small. Qed.
Lemma u64_id z : 0 <= z < 2 ^ 64 → u64 z = z.
Proof. apply Z.mod_small. Qed.
Lemma i64_id z : - 2 ^ 63 <= z < 2 ^ 63 → i64 z = z.
Proof. intros. unfold i64. rewrite Z.mod_small; lia. Qed.
Lemma i32_id z : - 2 ^ 31 <= z < 2 ^ 31 → i32 z = z.
Proof. intros. unfold i32. rewrite Z.mod_small; lia. Qed.

Lemma u64_neg z : - 2 ^ 64 <= z < 0 → u64 z = z + 2 ^ 64.
Proof.
  intros. unfold u64. rewrite <- (Z_mod_plus_full z 1).
  apply Z.mod_small. lia.
Qed.

Lemma land_lnot_low x k : 0 <= k → Z.land x (Z.lnot (2 ^ k - 1)) = x - x mod 2 ^ k.
Proof.
  intros Hk. rewrite <- Z.ldiff_land.
  replace (2 ^ k - 1) with (Z.ones k) by (by rewrite Z.ones_equiv, Z.sub_1_r).
  rewrite Z.ldiff_ones_r, Z.shiftl_mul_pow2, Z.shiftr_div_pow2 by done.
  pose proof (Z.div_mod x (2 ^ k) (Z.pow_nonzero 2 k ltac:(done) Hk)). lia.
Qed.

(** A statement about a small range, by evaluation. *)
Lemma forallb_range lo n (p : Z → bool) : forallb p (seqZ lo n) = true → ∀ i, lo <= i < lo + n → p i = true.
Proof. rewrite forallb_forall. intros Hall i Hi. apply Hall, list_elem_of_In, elem_of_seqZ. lia. Qed.

Lemma land_ones_mod x k : 0 <= k → Z.land x (2 ^ k - 1) = x mod 2 ^ k.
Proof. intros Hk. rewrite <- Z.land_ones, Z.ones_equiv, Z.sub_1_r by done. done. Qed.

Lemma ALIGN_DOWN_pow2 x k : 0 <= k → ALIGN_DOWN x (2 ^ k) = x - x mod 2 ^ k.
Proof. apply land_lnot_low. Qed.

Lemma ALIGN_UP_pow2 x k :
  0 <= k → 0 <= x → x + 2 ^ k - 1 < 2 ^ 64 →
  ALIGN_UP x (2 ^ k) = (x + 2 ^ k - 1) - (x + 2 ^ k - 1) mod 2 ^ k.
Proof.
  intros Hk Hx Hlt. unfold ALIGN_UP.
  replace (x + (2 ^ k - 1)) with (x + 2 ^ k - 1) by lia.
  rewrite u64_id by lia. by rewrite land_lnot_low.
Qed.

Lemma IS_ALIGNED_pow2 x k : 0 <= k → IS_ALIGNED x (2 ^ k) = (x mod 2 ^ k =? 0).
Proof.
  intros Hk. unfold IS_ALIGNED.
  replace (2 ^ k - 1) with (Z.ones k) by (by rewrite Z.ones_equiv, Z.sub_1_r).
  by rewrite Z.land_ones.
Qed.

(** The three alignment lemmas at the page size. *)

Lemma ALIGN_DOWN_page x : ALIGN_DOWN x PAGE_SIZE = x - x mod PAGE_SIZE.
Proof. apply (ALIGN_DOWN_pow2 x 12). lia. Qed.
Lemma ALIGN_UP_page x :
  0 <= x → x + 4095 < 2 ^ 64 → ALIGN_UP x PAGE_SIZE = (x + 4095) - (x + 4095) mod PAGE_SIZE.
Proof.
  intros. change PAGE_SIZE with (2 ^ 12). rewrite ALIGN_UP_pow2 by lia.
  by replace (x + 2 ^ 12 - 1) with (x + 4095) by lia.
Qed.
Lemma IS_ALIGNED_page x : IS_ALIGNED x PAGE_SIZE = (x mod PAGE_SIZE =? 0).
Proof. apply (IS_ALIGNED_pow2 x 12). lia. Qed.

(** ** Lengths in [Z] *)

(** The bytes of a string literal, and a newline. *)
Definition text (s : String.string) : list Z := (λ c, Z.of_nat (Ascii.nat_of_ascii c)) <$> String.list_ascii_of_string s.
Definition nl : list Z := [10].

Definition zlen (l : list Z) : Z := Z.of_nat (length l).

Lemma zlen_app s t : zlen (s ++ t) = zlen s + zlen t.
Proof. unfold zlen. rewrite length_app. lia. Qed.
Lemma zlen_cons c s : zlen (c :: s) = 1 + zlen s.
Proof. unfold zlen. cbn [length]. lia. Qed.
Lemma zlen_nonneg s : 0 <= zlen s.
Proof. unfold zlen. lia. Qed.
Lemma zlen_pos s : s ≠ [] → 0 < zlen s.
Proof. destruct s; [done|]. unfold zlen. cbn [length]. lia. Qed.

(** ** Automation *)

Create HintDb chanux.
#[export] Hint Resolve u8_range u32_range u64_range : chanux.

(** Turn the boolean tests of the code into propositions [lia] reads. *)
Ltac to_prop :=
  repeat match goal with
  | H : (_ =? _) = true |- _ => apply Z.eqb_eq in H
  | H : (_ =? _) = false |- _ => apply Z.eqb_neq in H
  | H : (_ <? _) = true |- _ => apply Z.ltb_lt in H
  | H : (_ <? _) = false |- _ => apply Z.ltb_ge in H
  | H : (_ <=? _) = true |- _ => apply Z.leb_le in H
  | H : (_ <=? _) = false |- _ => apply Z.leb_gt in H
  | H : (_ && _)%bool = true |- _ => apply andb_true_iff in H as [? ?]
  | H : (_ || _)%bool = false |- _ => apply orb_false_iff in H as [? ?]
  | H : negb _ = true |- _ => apply negb_true_iff in H
  | H : negb _ = false |- _ => apply negb_false_iff in H
  end.

(** Case analysis on every conditional of the goal, with its condition kept. *)
Ltac case_if :=
  match goal with
  | |- context [if ?b then _ else _] =>
      lazymatch b with
      | context [if _ then _ else _] => fail
      | _ => let E := fresh "Hif" in destruct b eqn:E
      end
  end.

Ltac zsolve := to_prop; unfold is_u8, is_u32, is_u64, PAGE_SIZE in *; try lia.
