(* ===== verification/Mem.v ===== *)
(** * Byte-addressed memory

    The kernel's data structures that overlay raw memory (heap block headers,
    the RAM disk with its superblock, inodes and directory entries, page
    tables) are modelled on one byte memory: a function from addresses to
    bytes, with little-endian loads and stores of the field widths the C
    structs have.  [fill] and [copy] are the effects [memset] and [memcpy] have
    on it; StringLib proves that the loops of kernel/lib/string.c have exactly
    those effects. *)

From Stdlib Require Import ZArith Lia.
From stdpp Require Import base numbers list.
From S2P Require Import Prelude.

Abbreviation mem := (Z → Z).

Definition in_range (a n x : Z) : bool := (a <=? x) && (x <? a + n).

(** The value of the little-endian [n]-byte field at [a]. *)
Fixpoint load (n : nat) (m : mem) (a : Z) : Z :=
  match n with
  | O => 0
  | S n => m a + 256 * load n m (a + 1)
  end.

(** Byte [i] of the little-endian representation of [v]. *)
Definition byte_of (v i : Z) : Z := (v / 256 ^ i) mod 256.

Definition store (n : Z) (m : mem) (a v : Z) : mem :=
  λ x, if in_range a n x then byte_of v (x - a) else m x.

Definition fill (m : mem) (a v n : Z) : mem :=
  λ x, if in_range a n x then u8 v else m x.

Definition copy (m : mem) (d s n : Z) : mem :=
  λ x, if in_range d n x then m (s + (x - d)) else m x.

(** Writing a list of bytes, and reading one back. *)
Definition write_bytes (m : mem) (a : Z) (bs : list Z) : mem :=
  λ x, if in_range a (Z.of_nat (length bs)) x then
         nth (Z.to_nat (x - a)) bs 0 else m x.

Definition read_bytes (m : mem) (a n : Z) : list Z :=
  (λ i, m (a + i)) <$> seqZ 0 n.

Abbreviation load8 m a := (load 1 m a).
Abbreviation load16 m a := (load 2 m a).
Abbreviation load32 m a := (load 4 m a).
Abbreviation load64 m a := (load 8 m a).
Abbreviation store8 m a v := (store 1 m a v).
Abbreviation store16 m a v := (store 2 m a v).
Abbreviation store32 m a v := (store 4 m a v).
Abbreviation store64 m a v := (store 8 m a v).

(** Every cell holds a byte. *)
Definition mem_wf (m : mem) : Prop := ∀ a, 0 <= m a < 256.

(** Two memories that agree on an address range. *)
Definition agree_on (m1 m2 : mem) (a n : Z) : Prop := ∀ x, a <= x < a + n → m1 x = m2 x.

Lemma in_range_true a n x : in_range a n x = true ↔ a <= x < a + n.
Proof. unfold in_range. rewrite andb_true_iff, Z.leb_le, Z.ltb_lt. done. Qed.
Lemma in_range_false a n x : in_range a n x = false ↔ x < a ∨ a + n <= x.
Proof. unfold in_range. rewrite andb_false_iff, Z.leb_gt, Z.ltb_ge. done. Qed.

Ltac range_cases :=
  repeat match goal with
  | |- context [in_range ?a ?n ?x] =>
      let E := fresh "Hr" in destruct (in_range a n x) eqn:E;
      [apply in_range_true in E|apply in_range_false in E]
  | H : context [in_range ?a ?n ?x] |- _ =>
      let E := fresh "Hr" in destruct (in_range a n x) eqn:E;
      [apply in_range_true in E|apply in_range_false in E]
  end.

Lemma byte_of_range v i : 0 <= byte_of v i < 256.
Proof. apply Z.mod_pos_bound. lia. Qed.

Lemma load_S n m a : load (S n) m a = m a + 256 * load n m (a + 1).
Proof. done. Qed.

Lemma load_ext n m1 m2 a :
  agree_on m1 m2 a (Z.of_nat n) → load n m1 a = load n m2 a.
Proof.
  revert a; induction n as [|n IH]; intros a H; simpl; [done|].
  rewrite (H a) by lia. rewrite (IH (a + 1)); [done|].
  intros x Hx. apply H. lia.
Qed.

Lemma load_range n m a : mem_wf m → 0 <= load n m a < 256 ^ Z.of_nat n.
Proof.
  intros Hm. revert a. induction n as [|n IH]; intros a; cbn [load]; [lia|].
  specialize (IH (a + 1)). specialize (Hm a).
  rewrite Nat2Z.inj_succ, Z.pow_succ_r by lia. lia.
Qed.

Lemma load_byte_of n m a v :
  (∀ i, 0 <= i < Z.of_nat n → m (a + i) = byte_of v i) →
  load n m a = v mod 256 ^ Z.of_nat n.
Proof.
  revert a v; induction n as [|n IH]; intros a v H; simpl load.
  { by rewrite Z.mod_1_r. }
  rewrite (IH (a + 1) (v / 256)).
  - replace (m a) with (m (a + 0)) by (f_equal; lia). rewrite (H 0) by lia.
    unfold byte_of. rewrite Z.pow_0_r, Z.div_1_r.
    replace (Z.of_nat (S n)) with (1 + Z.of_nat n) by lia.
    rewrite Z.pow_add_r by lia. rewrite Z.pow_1_r.
    rewrite (Z.rem_mul_r v 256 (256 ^ Z.of_nat n)) by lia. done.
  - intros i Hi. replace (a + 1 + i) with (a + (i + 1)) by lia.
    rewrite H by lia. unfold byte_of.
    rewrite Z.pow_add_r, Z.pow_1_r, (Z.mul_comm (256 ^ i)), Z.div_div by lia. done.
Qed.

Lemma load_store_eq n m a v :
  load n (store (Z.of_nat n) m a v) a = v mod 256 ^ Z.of_nat n.
Proof.
  apply load_byte_of. intros i Hi. unfold store.
  rewrite (proj2 (in_range_true _ _ _)) by lia. f_equal. lia.
Qed.

Lemma load_store_ne n k m a b v :
  a + Z.of_nat n <= b ∨ b + k <= a → load n (store k m b v) a = load n m a.
Proof.
  intros H. apply load_ext. intros x Hx. unfold store.
  rewrite (proj2 (in_range_false _ _ _)) by lia. done.
Qed.

Lemma store_ne k m b v x : x < b ∨ b + k <= x → store k m b v x = m x.
Proof. intros H. unfold store. by rewrite (proj2 (in_range_false _ _ _)) by lia. Qed.

(** Loads of a stored field, at the four widths. *)
Lemma load8_store8 m a v : is_u8 v → load8 (store8 m a v) a = v.
Proof. intros H. rewrite (load_store_eq 1). apply Z.mod_small. apply H. Qed.
Lemma load16_store16 m a v : 0 <= v < 2 ^ 16 → load16 (store16 m a v) a = v.
Proof. intros H. rewrite (load_store_eq 2). apply Z.mod_small. apply H. Qed.
Lemma load32_store32 m a v : is_u32 v → load32 (store32 m a v) a = v.
Proof. intros H. rewrite (load_store_eq 4). apply Z.mod_small. apply H. Qed.
Lemma load64_store64 m a v : is_u64 v → load64 (store64 m a v) a = v.
Proof. intros H. rewrite (load_store_eq 8). apply Z.mod_small. apply H. Qed.

Lemma load_fill_ne n m a b v k :
  a + Z.of_nat n <= b ∨ b + k <= a → load n (fill m b v k) a = load n m a.
Proof.
  intros H. apply load_ext. intros x Hx. unfold fill.
  by rewrite (proj2 (in_range_false _ _ _)) by lia.
Qed.

Lemma load_fill_0 n m a b k :
  b <= a → a + Z.of_nat n <= b + k → load n (fill m b 0 k) a = 0.
Proof.
  revert a; induction n as [|n IH]; intros a H1 H2; simpl; [done|].
  rewrite IH by lia. unfold fill. by rewrite (proj2 (in_range_true _ _ _)) by lia.
Qed.

Lemma load_write_bytes_ne n m a b bs :
  a + Z.of_nat n <= b ∨ b + Z.of_nat (length bs) <= a →
  load n (write_bytes m b bs) a = load n m a.
Proof.
  intros H. apply load_ext. intros x Hx. unfold write_bytes.
  by rewrite (proj2 (in_range_false _ _ _)) by lia.
Qed.

Lemma load_copy_ne n m a d s k :
  a + Z.of_nat n <= d ∨ d + k <= a → load n (copy m d s k) a = load n m a.
Proof.
  intros H. apply load_ext. intros x Hx. unfold copy.
  by rewrite (proj2 (in_range_false _ _ _)) by lia.
Qed.

Lemma mem_wf_store k m a v : mem_wf m → mem_wf (store k m a v).
Proof. intros H x. unfold store. case_if; [apply byte_of_range|apply H]. Qed.
Lemma mem_wf_fill m a v k : mem_wf m → mem_wf (fill m a v k).
Proof. intros H x. unfold fill. case_if; [apply u8_range|apply H]. Qed.
Lemma mem_wf_copy m d s k : mem_wf m → mem_wf (copy m d s k).
Proof. intros H x. unfold copy. case_if; apply H. Qed.
Lemma mem_wf_write_bytes m a bs :
  mem_wf m → Forall (λ b, 0 <= b < 256) bs → mem_wf (write_bytes m a bs).
Proof.
  intros H Hbs x. unfold write_bytes. case_if; [|apply H].
  apply in_range_true in Hif.
  destruct (lookup_lt_is_Some_2 bs (Z.to_nat (x - a))) as [b Hb]; [lia|].
  rewrite (nth_lookup_Some _ _ _ _ Hb). by eapply Forall_lookup_1 in Hbs.
Qed.

Lemma length_read_bytes m a n : length (read_bytes m a n) = Z.to_nat n.
Proof. unfold read_bytes. rewrite length_fmap, length_seqZ. done. Qed.

Lemma read_bytes_lookup m a n i :
  0 <= Z.of_nat i < n → read_bytes m a n !! i = Some (m (a + Z.of_nat i)).
Proof.
  intros H. unfold read_bytes. rewrite list_lookup_fmap.
  rewrite lookup_seqZ_lt by lia. done.
Qed.

Lemma read_bytes_ext m1 m2 a n : agree_on m1 m2 a n → read_bytes m1 a n = read_bytes m2 a n.
Proof.
  intros H. unfold read_bytes. apply list_fmap_ext. intros i x Hx.
  apply lookup_seqZ in Hx as [-> ?]. apply H. lia.
Qed.

Lemma read_write_bytes m a bs :
  read_bytes (write_bytes m a bs) a (Z.of_nat (length bs)) = bs.
Proof.
  apply list_eq. intros i. destruct (decide (i < length bs)%nat).
  - rewrite read_bytes_lookup by lia. unfold write_bytes.
    rewrite (proj2 (in_range_true _ _ _)) by lia.
    replace (Z.to_nat (a + Z.of_nat i - a)) with i by lia.
    destruct (lookup_lt_is_Some_2 bs i) as [b Hb]; [lia|].
    by rewrite (nth_lookup_Some _ _ _ _ Hb), Hb.
  - rewrite !lookup_ge_None_2; [done|lia|rewrite length_read_bytes; lia].
Qed.

Create HintDb mem.
#[export] Hint Resolve mem_wf_store mem_wf_fill mem_wf_copy mem_wf_write_bytes : mem.

(** Simplify loads through stores, by range disjointness. *)
Ltac mem_simpl :=
  repeat first
    [ rewrite load64_store64 by (unfold is_u64; lia)
    | rewrite load32_store32 by (unfold is_u32; lia)
    | rewrite load16_store16 by lia
    | rewrite load8_store8 by (unfold is_u8; lia)
    | rewrite load_store_ne by lia
    | rewrite load_fill_ne by lia
    | rewrite load_copy_ne by lia
    | rewrite load_write_bytes_ne by lia ].

#[global] Arguments load : simpl never.
#[global] Arguments store : simpl never.
#[global] Arguments fill : simpl never.
#[global] Arguments copy : simpl never.
#[global] Arguments write_bytes : simpl never.
