(* ===== verification/StringLib.v ===== *)
(** * kernel/lib/string.c

    The memory and string routines, loop for loop, on the byte memory of
    [Mem].  The 64-bit fast paths of [memset] and [memcpy] are modelled as they
    are written and proved equal to the plain byte-wise effects [fill] and
    [copy]. *)

From Stdlib Require Import ZArith Lia.
From stdpp Require Import base numbers list.
From S2P Require Import Prelude.
From S2P Require Import Mem.

(** The local variables of a copying loop: memory, destination, source and
    remaining count. *)
Record cur := Cur { c_mem : mem; c_d : Z; c_s : Z; c_n : Z }.

(** [memset]: byte loop up to an 8-byte boundary, then 64-bit stores of the
    replicated byte, then the remaining bytes. *)

Definition set_byte (byte : Z) (c : cur) : cur :=
  Cur (store8 (c_mem c) (c_d c) byte) (c_d c +64 1) (c_s c) (c_n c -64 1).

Definition set_word (pattern : Z) (c : cur) : cur :=
  Cur (store64 (c_mem c) (c_d c) pattern) (c_d c +64 8) (c_s c) (c_n c -64 8).

Definition memset_pattern (byte : Z) : Z :=
  let p := byte in
  let p := Z.lor p (u64 (Z.shiftl p 8)) in
  let p := Z.lor p (u64 (Z.shiftl p 16)) in
  Z.lor p (u64 (Z.shiftl p 32)).

Definition unaligned (c : cur) : bool := negb (Z.land (c_d c) 7 =? 0) && negb (c_n c =? 0).
Definition ge8 (c : cur) : bool := 8 <=? c_n c.
Definition some_left (c : cur) : bool := negb (c_n c =? 0).

Definition memset (m : mem) (dest val count : Z) : option mem :=
  let byte := u8 val in
  let c := Cur m dest 0 count in
  c ← (if 8 <=? count then
         let pattern := memset_pattern byte in
         c ← while_ unaligned (set_byte byte) c;
         while_ ge8 (set_word pattern) c
       else Some c);
  c ← while_ some_left (set_byte byte) c;
  Some (c_mem c).

(** [memcpy] *)

Definition copy_byte (c : cur) : cur :=
  Cur (store8 (c_mem c) (c_d c) (c_mem c (c_s c))) (c_d c +64 1) (c_s c +64 1) (c_n c -64 1).

Definition copy_word (c : cur) : cur :=
  Cur (store64 (c_mem c) (c_d c) (load64 (c_mem c) (c_s c)))
      (c_d c +64 8) (c_s c +64 8) (c_n c -64 8).

Definition memcpy (m : mem) (dest src count : Z) : option mem :=
  let c := Cur m dest src count in
  c ← (if (8 <=? count) && (Z.land dest 7 =? Z.land src 7) then
         c ← while_ unaligned copy_byte c;
         while_ ge8 copy_word c
       else Some c);
  c ← while_ some_left copy_byte c;
  Some (c_mem c).

(** [memmove] *)

Definition copy_back (c : cur) : cur :=
  let d := c_d c -64 1 in
  let s := c_s c -64 1 in
  Cur (store8 (c_mem c) d (c_mem c s)) d s (c_n c -64 1).

Definition memmove (m : mem) (dest src count : Z) : option mem :=
  if (dest =? src) || (count =? 0) then Some m
  else if (dest <? src) || (src +64 count <=? dest) then memcpy m dest src count
  else
    c ← while_ some_left copy_back (Cur m (dest +64 count) (src +64 count) count);
    Some (c_mem c).

(** [memcmp]: the result is the difference of the first differing bytes. *)

Definition memcmp (m : mem) (s1 s2 count : Z) : Z :=
  match for_ 0 count (λ i (_ : unit),
          if m (s1 +64 i) =? m (s2 +64 i) then Next tt
          else Stop (m (s1 +64 i) - m (s2 +64 i))) tt with
  | Stop r => r
  | Next _ => 0
  end.

(** [strlen] *)

Definition strlen (m : mem) (str : Z) : option Z :=
  while_ (λ len, negb (m (str +64 len) =? 0)) (λ len, len +64 1) 0.

(** [strcpy]: copies up to and including the terminator. *)

Definition strcpy (m : mem) (dest src : Z) : option mem :=
  c ← while_ (λ c, negb (c_mem c (c_s c) =? 0)) copy_byte (Cur m dest src 0);
  Some (c_mem (copy_byte c)).

(** [strncpy]: [while (n && ( *dest++ = *src++ )) n--;] and then
    [while (n--) *dest++ = 0].  When the copy stops at the terminator, [n] has
    not been decremented for it. *)

Definition strncpy (m : mem) (dest src n : Z) : option mem :=
  c ← while_ (λ c, negb (c_n c =? 0) && negb (c_mem c (c_s c) =? 0)) copy_byte
        (Cur m dest src n);
  let c := if c_n c =? 0 then c
           else Cur (store8 (c_mem c) (c_d c) 0) (c_d c +64 1) (c_s c +64 1) (c_n c) in
  c ← while_ some_left (set_byte 0) c;
  Some (c_mem c).

(** [strcmp] and [strncmp]: the difference of the first differing bytes. *)

Definition strcmp (m : mem) (s1 s2 : Z) : option Z :=
  i ← while_ (λ i, negb (m (s1 +64 i) =? 0) && (m (s1 +64 i) =? m (s2 +64 i)))
        (λ i, i +64 1) 0;
  Some (m (s1 +64 i) - m (s2 +64 i)).

Definition strncmp (m : mem) (s1 s2 n : Z) : option Z :=
  i ← while_ (λ i, (i <? n) && negb (m (s1 +64 i) =? 0) && (m (s1 +64 i) =? m (s2 +64 i)))
        (λ i, i +64 1) 0;
  if i =? n then Some 0 else Some (m (s1 +64 i) - m (s2 +64 i)).

(** A NUL-terminated C string [s] stored at [a]. *)

Definition cstr (m : mem) (a : Z) (s : list Z) : Prop :=
  read_bytes m a (Z.of_nat (length s)) = s ∧ Forall (λ b, b ≠ 0) s
  ∧ m (a + Z.of_nat (length s)) = 0.

(** ** Proofs *)

Lemma memset_pattern_byte b i :
  is_u8 b → 0 <= i < 8 → byte_of (memset_pattern b) i = b.
Proof.
  intros Hb Hi.
  assert (Hall : forallb (λ b, forallb (λ i, byte_of (memset_pattern b) i =? b) (seqZ 0 8))
                         (seqZ 0 256) = true) by (vm_compute; reflexivity).
  unfold is_u8 in Hb. apply Z.eqb_eq, (forallb_range _ _ _ (forallb_range _ _ _ Hall b ltac:(lia)) i). lia.
Qed.

(** After [k] bytes of a fill. *)
Definition filled (m : mem) (dest byte count : Z) (c : cur) : Prop :=
  ∃ k, 0 <= k <= count ∧ c_d c = dest + k ∧ c_n c = count - k
       ∧ ∀ x, c_mem c x = fill m dest byte k x.

Section memset_loops.
Context (m : mem) (dest byte count : Z).
Context (Hdest : 0 <= dest) (Hend : dest + count < 2 ^ 64) (Hcount : 0 <= count).

Lemma set_byte_filled c :
  filled m dest byte count c → c_n c ≠ 0 →
  filled m dest byte count (set_byte byte c) ∧ 0 <= c_n (set_byte byte c) < c_n c.
Proof.
  intros (k & Hk & Hd & Hn & Hm) Hne. unfold set_byte; simpl.
  rewrite Hn, Hd, !u64_id by lia. split; [|lia].
  exists (k + 1). split_and!; simpl; [lia|lia|lia|lia|].
  intros x. unfold store, fill in *. range_cases; try lia; rewrite ?Hm; range_cases; try lia.
  replace (x - (dest + k)) with 0 by lia. unfold byte_of, u8.
  by rewrite Z.pow_0_r, Z.div_1_r.
Qed.

Lemma set_word_filled c :
  is_u8 byte → filled m dest byte count c → 8 <= c_n c →
  filled m dest byte count (set_word (memset_pattern byte) c)
  ∧ 0 <= c_n (set_word (memset_pattern byte) c) < c_n c.
Proof.
  intros Hb (k & Hk & Hd & Hn & Hm) Hge. unfold set_word; simpl.
  rewrite Hn, Hd, !u64_id by lia. split; [|lia].
  exists (k + 8). split_and!; simpl; [lia|lia|lia|lia|].
  intros x. unfold store. destruct (in_range (dest + k) 8 x) eqn:E.
  - apply in_range_true in E. rewrite memset_pattern_byte by (done || lia).
    unfold fill. rewrite (proj2 (in_range_true _ _ _)) by lia. by rewrite u8_id.
  - apply in_range_false in E. rewrite Hm. unfold fill. range_cases; done || lia.
Qed.

End memset_loops.

Lemma filled_start m dest byte count s : 0 <= count → filled m dest byte count (Cur m dest s count).
Proof.
  intros. exists 0. split_and!; simpl; [lia|lia|lia|lia|]. intros x. unfold fill.
  range_cases; [lia|done].
Qed.

Lemma filled_fuel m dest byte count c :
  count < 2 ^ 64 → filled m dest byte count c → 0 <= c_n c < WHILE_FUEL.
Proof. intros ? (k & ? & ? & -> & ?). unfold WHILE_FUEL. lia. Qed.

Lemma memset_tail m dest byte count c :
  0 <= dest → 0 <= count → dest + count < 2 ^ 64 → filled m dest byte count c →
  ∃ m', (c' ← while_ some_left (set_byte byte) c; Some (c_mem c')) = Some m'
        ∧ ∀ x, m' x = fill m dest byte count x.
Proof.
  intros Hd Hc Hend Hf.
  destruct (while_total some_left (set_byte byte) (filled m dest byte count) c_n c)
    as (c' & E & (k & Hk & _ & Hn & Hm) & Hz); eauto using filled_fuel with lia.
  { eapply filled_fuel; [|done]. lia. }
  { intros c' Hf' Hl. apply set_byte_filled; auto. unfold some_left in Hl. zsolve. }
  exists (c_mem c'). split; [by rewrite E|]. intros x. rewrite Hm.
  unfold some_left in Hz. to_prop. by replace k with count by lia.
Qed.

Lemma memset_head m dest byte count c :
  is_u8 byte → 0 <= dest → 0 <= count → dest + count < 2 ^ 64 → filled m dest byte count c →
  ∃ c', (c ← while_ unaligned (set_byte byte) c;
         while_ ge8 (set_word (memset_pattern byte)) c) = Some c'
        ∧ filled m dest byte count c'.
Proof.
  intros Hb Hd Hc Hend Hf.
  destruct (while_total unaligned (set_byte byte) (filled m dest byte count) c_n c)
    as (c1 & E1 & Hf1 & _); [done|eapply filled_fuel; [|done]; lia| |].
  { intros c' Hf' Hu. apply set_byte_filled; auto. unfold unaligned in Hu. zsolve. }
  destruct (while_total ge8 (set_word (memset_pattern byte)) (filled m dest byte count) c_n c1)
    as (c2 & E2 & Hf2 & _); [done|eapply filled_fuel; [|done]; lia| |].
  { intros c' Hf' Hu. apply set_word_filled; auto. unfold ge8 in Hu. zsolve. }
  exists c2. by rewrite E1.
Qed.

(** C36. [memset] returns, and its alignment prologue, 64-bit store loop and
    byte tail together write exactly the byte [val] to the [count] bytes at
    [dest] and nothing else. *)
Theorem memset_correct m dest val count :
  0 <= dest → 0 <= count → dest + count < 2 ^ 64 →
  ∃ m', memset m dest val count = Some m' ∧ ∀ x, m' x = fill m dest val count x.
Proof.
  intros Hd Hc Hend. unfold memset.
  assert (Hfill : ∀ x, fill m dest (u8 val) count x = fill m dest val count x).
  { intros x. unfold fill, u8. by rewrite Zmod_mod. }
  assert (Hhead : ∃ c, (if 8 <=? count then
      c ← while_ unaligned (set_byte (u8 val)) (Cur m dest 0 count);
      while_ ge8 (set_word (memset_pattern (u8 val))) c
    else Some (Cur m dest 0 count)) = Some c ∧ filled m dest (u8 val) count c).
  { case_if; [|eauto using filled_start].
    apply memset_head; auto using u8_range, filled_start. }
  destruct Hhead as (c & -> & Hf). rewrite bind_Some_eq.
  destruct (memset_tail m dest (u8 val) count c) as (m' & -> & Hm'); auto.
  exists m'. split; [done|]. intros x. by rewrite Hm', Hfill.
Qed.

(** After [k] bytes of a forward copy. *)
Definition copied (m : mem) (d s count : Z) (c : cur) : Prop :=
  ∃ k, 0 <= k <= count ∧ c_d c = d + k ∧ c_s c = s + k ∧ c_n c = count - k
       ∧ ∀ x, c_mem c x = copy m d s k x.

(** A forward copy reads every source byte before overwriting it. *)
Definition forward_safe (d s count : Z) : Prop := d <= s ∨ s + count <= d.

Lemma byte_of_0 v : byte_of v 0 = v mod 256.
Proof. unfold byte_of. by rewrite Z.pow_0_r, Z.div_1_r. Qed.

Lemma byte_of_load n m a i :
  mem_wf m → 0 <= i < Z.of_nat n → byte_of (load n m a) i = m (a + i).
Proof.
  intros Hm. revert a i. induction n as [|n IH]; intros a i Hi; [lia|].
  rewrite load_S. destruct (decide (i = 0)) as [->|].
  - rewrite byte_of_0, Z.mul_comm, Z_mod_plus_full, Z.add_0_r.
    apply Z.mod_small, Hm.
  - replace (a + i) with (a + 1 + (i - 1)) by lia. rewrite <- IH by lia.
    unfold byte_of. replace i with (1 + (i - 1)) at 1 by lia.
    rewrite Z.pow_add_r, Z.pow_1_r, <- Z.div_div by lia.
    rewrite Z.add_comm, Z.mul_comm, Z.div_add_l by lia.
    rewrite (Z.div_small (m a)) by apply Hm. do 2 f_equal. lia.
Qed.

Section memcpy_loops.
Context (m : mem) (d s count : Z).
Context (Hd : 0 <= d) (Hs : 0 <= s) (Hc : 0 <= count).
Context (Hdend : d + count < 2 ^ 64) (Hsend : s + count < 2 ^ 64).
Context (Hsafe : forward_safe d s count).

Lemma copied_start : copied m d s count (Cur m d s count).
Proof.
  exists 0. split_and!; simpl; [lia..|]. intros x. unfold copy.
  range_cases; [lia|done].
Qed.

Lemma copied_fuel c : copied m d s count c → 0 <= c_n c < WHILE_FUEL.
Proof. intros (k & ? & ? & ? & -> & ?). unfold WHILE_FUEL. lia. Qed.

Lemma copy_source k i : 0 <= k → 0 <= i → k + i < count → copy m d s k (s + k + i) = m (s + k + i).
Proof.
  intros. unfold copy. destruct Hsafe; rewrite (proj2 (in_range_false _ _ _)); done || lia.
Qed.

Lemma copy_byte_copied c :
  mem_wf m → copied m d s count c → c_n c ≠ 0 →
  copied m d s count (copy_byte c) ∧ 0 <= c_n (copy_byte c) < c_n c.
Proof.
  intros Hwf (k & Hk & Ed & Es & En & Hm) Hne. unfold copy_byte; simpl.
  rewrite En, Ed, Es, !u64_id by lia. split; [|lia].
  exists (k + 1). split_and!; simpl; [lia..|]. intros x.
  unfold store. destruct (in_range (d + k) 1 x) eqn:E.
  - apply in_range_true in E. replace (x - (d + k)) with 0 by lia.
    rewrite byte_of_0, Hm.
    replace (s + k) with (s + k + 0) by lia. rewrite copy_source by lia.
    rewrite Z.mod_small by apply Hwf. unfold copy.
    rewrite (proj2 (in_range_true _ _ _)) by lia. f_equal. lia.
  - apply in_range_false in E. rewrite Hm. unfold copy. range_cases; done || lia.
Qed.

Lemma copy_word_copied c :
  mem_wf m → copied m d s count c → 8 <= c_n c →
  copied m d s count (copy_word c) ∧ 0 <= c_n (copy_word c) < c_n c.
Proof.
  intros Hwf (k & Hk & Ed & Es & En & Hm) Hge. unfold copy_word; simpl.
  rewrite En, Ed, Es, !u64_id by lia. split; [|lia].
  exists (k + 8). split_and!; simpl; [lia..|]. intros x.
  unfold store. destruct (in_range (d + k) 8 x) eqn:E.
  - apply in_range_true in E. rewrite byte_of_load; [|intros y; rewrite Hm; apply mem_wf_copy, Hwf|lia].
    rewrite Hm, copy_source by lia. unfold copy.
    rewrite (proj2 (in_range_true _ _ _)) by lia. f_equal. lia.
  - apply in_range_false in E. rewrite Hm. unfold copy. range_cases; done || lia.
Qed.

Lemma memcpy_head :
  mem_wf m →
  ∃ c, (c ← while_ unaligned copy_byte (Cur m d s count); while_ ge8 copy_word c) = Some c
       ∧ copied m d s count c.
Proof.
  intros Hwf.
  destruct (while_total unaligned copy_byte (copied m d s count) c_n (Cur m d s count))
    as (c1 & E1 & Hf1 & _); [apply copied_start|apply copied_fuel, copied_start| |].
  { intros c Hf Hu. apply copy_byte_copied; auto. unfold unaligned in Hu. zsolve. }
  destruct (while_total ge8 copy_word (copied m d s count) c_n c1)
    as (c2 & E2 & Hf2 & _); [done|by apply copied_fuel| |].
  { intros c Hf Hu. apply copy_word_copied; auto. unfold ge8 in Hu. zsolve. }
  exists c2. by rewrite E1.
Qed.

Lemma memcpy_tail c :
  mem_wf m → copied m d s count c →
  ∃ m', (c' ← while_ some_left copy_byte c; Some (c_mem c')) = Some m'
        ∧ ∀ x, m' x = copy m d s count x.
Proof.
  intros Hwf Hf.
  destruct (while_total some_left copy_byte (copied m d s count) c_n c)
    as (c' & E & (k & Hk & _ & _ & Hn & Hm) & Hz); [done|by apply copied_fuel| |].
  { intros c' Hf' Hl. apply copy_byte_copied; auto. unfold some_left in Hl. zsolve. }
  exists (c_mem c'). split; [by rewrite E|]. intros x. rewrite Hm.
  unfold some_left in Hz. to_prop. by replace k with count by lia.
Qed.

Lemma memcpy_correct :
  mem_wf m → ∃ m', memcpy m d s count = Some m' ∧ ∀ x, m' x = copy m d s count x.
Proof.
  intros Hwf. unfold memcpy.
  assert (Hhead : ∃ c, (if (8 <=? count) && (Z.land d 7 =? Z.land s 7) then
      c ← while_ unaligned copy_byte (Cur m d s count); while_ ge8 copy_word c
    else Some (Cur m d s count)) = Some c ∧ copied m d s count c).
  { case_if; [by apply memcpy_head|eauto using copied_start]. }
  destruct Hhead as (c & -> & Hf). rewrite bind_Some_eq. by apply memcpy_tail.
Qed.

End memcpy_loops.

(** ** memmove *)

(** After the last [k] bytes have been copied backwards. *)
Definition copied_back (m : mem) (d s count : Z) (c : cur) : Prop :=
  ∃ k, 0 <= k <= count ∧ c_d c = d + count - k ∧ c_s c = s + count - k ∧ c_n c = count - k
       ∧ ∀ x, c_mem c x = if in_range (d + count - k) k x then m (s + (x - d)) else m x.

Lemma copy_back_copied m d s count c :
  mem_wf m → 0 <= s → s <= d → d + count < 2 ^ 64 →
  copied_back m d s count c → c_n c ≠ 0 →
  copied_back m d s count (copy_back c) ∧ 0 <= c_n (copy_back c) < c_n c.
Proof.
  intros Hwf Hs Hd Hend (k & Hk & Ed & Es & En & Hm) Hne. unfold copy_back; simpl.
  rewrite En, Ed, Es, !u64_id by lia. split; [|lia].
  exists (k + 1). split_and!; simpl; [lia..|]. intros x.
  unfold store. destruct (in_range (d + count - k - 1) 1 x) eqn:E.
  - apply in_range_true in E. replace (x - _) with 0 by lia.
    rewrite byte_of_0, Hm. rewrite (proj2 (in_range_false _ _ _)) by lia.
    rewrite (proj2 (in_range_true _ _ _)) by lia.
    rewrite Z.mod_small by apply Hwf. f_equal. lia.
  - apply in_range_false in E. rewrite Hm. range_cases; done || lia.
Qed.

(** C28. [memmove] moves [count] bytes for every overlap of source and
    destination: it always returns, and the memory it leaves holds at the
    destination the bytes the source held before the call and is unchanged
    elsewhere. *)
Theorem memmove_correct m d s count :
  mem_wf m → 0 <= d → 0 <= s → 0 <= count → d + count < 2 ^ 64 → s + count < 2 ^ 64 →
  ∃ m', memmove m d s count = Some m' ∧ ∀ x, m' x = copy m d s count x.
Proof.
  intros Hwf Hd Hs Hc Hdend Hsend. unfold memmove.
  rewrite !u64_id by lia.
  destruct ((d =? s) || (count =? 0)) eqn:E1.
  { exists m. split; [done|]. intros x. unfold copy. range_cases; [|done].
    apply orb_true_iff in E1 as [?|?]; to_prop; [|lia]. f_equal. lia. }
  destruct ((d <? s) || (s + count <=? d)) eqn:E2.
  { apply memcpy_correct; auto. unfold forward_safe.
    apply orb_true_iff in E2 as [?|?]; to_prop; lia. }
  to_prop.
  destruct (while_total some_left copy_back (copied_back m d s count) c_n
              (Cur m (d + count) (s + count) count)) as (c & E & (k & Hk & _ & _ & En & Hm) & Hz).
  { exists 0. split_and!; simpl; [lia..|]. intros x. range_cases; [lia|done]. }
  { simpl. unfold WHILE_FUEL. lia. }
  { intros c Hf Hl. unfold some_left in Hl. to_prop. apply copy_back_copied; auto; lia. }
  rewrite E. exists (c_mem c). split; [done|]. intros x. rewrite Hm.
  unfold some_left in Hz. to_prop. replace k with count by lia.
  unfold copy. by replace (d + count - count) with d by lia.
Qed.

(** ** Strings *)

Lemma cstr_byte m a s i :
  cstr m a s → 0 <= i < Z.of_nat (length s) →
  ∃ b, s !! Z.to_nat i = Some b ∧ m (a + i) = b ∧ b ≠ 0.
Proof.
  intros (Hr & Hnz & _) Hi.
  destruct (lookup_lt_is_Some_2 s (Z.to_nat i)) as [b Hb]; [lia|].
  exists b. split_and!; [done| |by eapply Forall_lookup_1 in Hnz].
  rewrite <- Hr in Hb. rewrite read_bytes_lookup in Hb by lia.
  injection Hb as <-. f_equal. lia.
Qed.

(** The scanning loops of [strlen], [strcmp] and [strncmp]: counting up from 0
    to the first index where the condition fails. *)
Lemma scan_loop (p : Z → bool) n :
  0 <= n < 2 ^ 64 → p n = false → (∀ i, 0 <= i < n → p i = true) →
  while_ p (λ i, i +64 1) 0 = Some n.
Proof.
  intros Hn Hpn Hp.
  destruct (while_total p (λ i, i +64 1) (λ i, 0 <= i <= n) (λ i, n - i) 0)
    as (i & -> & Hi & Hpi); [lia|unfold WHILE_FUEL; lia| |].
  - intros i Hi E. destruct (decide (i = n)); [congruence|].
    rewrite u64_id by lia. lia.
  - destruct (decide (i = n)); [congruence|]. rewrite Hp in Hpi by lia. done.
Qed.

Lemma strlen_correct m a s :
  0 <= a → a + Z.of_nat (length s) < 2 ^ 64 → cstr m a s →
  strlen m a = Some (Z.of_nat (length s)).
Proof.
  intros Ha Hend Hs. unfold strlen.
  rewrite (scan_loop _ (Z.of_nat (length s))); [done|lia| |].
  - rewrite u64_id by lia. destruct Hs as (_ & _ & ->). done.
  - intros i Hi. rewrite u64_id by lia.
    destruct (cstr_byte m a s i Hs Hi) as (b & _ & -> & ?).
    apply negb_true_iff, Z.eqb_neq. done.
Qed.

(** The terminator of the second string, where the first is a prefix of it, or
    the first difference of two strings. *)
Definition first_diff (s1 s2 : list Z) (i : Z) : Prop :=
  (∀ j, 0 <= j < i → s1 !! Z.to_nat j = s2 !! Z.to_nat j ∧ is_Some (s1 !! Z.to_nat j))
  ∧ (s1 !! Z.to_nat i ≠ s2 !! Z.to_nat i ∨ s1 !! Z.to_nat i = None).

Lemma first_diff_exists s1 s2 : ∃ i, 0 <= i <= Z.of_nat (length s1) ∧ i <= Z.of_nat (length s2) ∧ first_diff s1 s2 i.
Proof.
  revert s2. induction s1 as [|b s1 IH]; intros s2.
  { exists 0. simpl. split_and!; [lia..|]. split; [intros; lia|]. right. done. }
  destruct s2 as [|b' s2].
  { exists 0. simpl. split_and!; [lia..|]. split; [intros; lia|]. by left. }
  destruct (decide (b = b')) as [<-|].
  - destruct (IH s2) as (i & Hi & Hi2 & Hlt & Hd). exists (i + 1).
    simpl length. split_and!; [lia..|]. split.
    + intros j Hj. destruct (decide (j = 0)) as [->|]; [simpl; eauto|].
      replace (Z.to_nat j) with (S (Z.to_nat (j - 1))) by lia. apply Hlt. lia.
    + by replace (Z.to_nat (i + 1)) with (S (Z.to_nat i)) by lia.
  - exists 0. simpl. split_and!; [lia..|]. split; [intros; lia|]. left. by intros [= ?].
Qed.

Lemma cstr_at m a s i :
  cstr m a s → 0 <= i <= Z.of_nat (length s) → m (a + i) = default 0 (s !! Z.to_nat i).
Proof.
  intros Hs Hi. destruct (decide (i = Z.of_nat (length s))) as [->|].
  - rewrite lookup_ge_None_2 by lia. apply Hs.
  - destruct (cstr_byte m a s i Hs) as (b & -> & -> & _); [lia|done].
Qed.

Lemma cstr_nz m a s i b : cstr m a s → s !! i = Some b → b ≠ 0.
Proof. intros (_ & Hnz & _) H. by eapply Forall_lookup_1 in Hnz. Qed.

(** What both comparison loops see at index [j] up to the first difference. *)
Lemma first_diff_bytes m a1 a2 s1 s2 i :
  cstr m a1 s1 → cstr m a2 s2 →
  0 <= i <= Z.of_nat (length s1) → i <= Z.of_nat (length s2) → first_diff s1 s2 i →
  (∀ j, 0 <= j < i → m (a1 + j) ≠ 0 ∧ m (a1 + j) = m (a2 + j))
  ∧ (m (a1 + i) = 0 ∨ m (a1 + i) ≠ m (a2 + i))
  ∧ (m (a1 + i) = m (a2 + i) ↔ s1 = s2).
Proof.
  intros H1 H2 Hi1 Hi2 [Hlt Hd].
  assert (Hn : (Z.to_nat i <= length s1)%nat) by lia.
  split_and!.
  - intros j Hj. destruct (Hlt j Hj) as [E [b Hb]].
    rewrite (cstr_at m a1 s1 j), (cstr_at m a2 s2 j) by (done || lia).
    rewrite <- E, Hb. split; [exact (cstr_nz _ _ _ _ _ H1 Hb)|done].
  - rewrite (cstr_at m a1 s1 i), (cstr_at m a2 s2 i) by (done || lia).
    destruct (s1 !! Z.to_nat i) as [b1|] eqn:E1; [|by left]. right.
    pose proof (cstr_nz _ _ _ _ _ H1 E1).
    destruct Hd as [Hd|]; [|done]. destruct (s2 !! Z.to_nat i); simpl; congruence.
  - rewrite (cstr_at m a1 s1 i), (cstr_at m a2 s2 i) by (done || lia). split.
    + intros E. apply list_eq. intros j.
      assert (E1 : s1 !! Z.to_nat i = None ∧ s2 !! Z.to_nat i = None).
      { destruct (s1 !! Z.to_nat i) eqn:E1, (s2 !! Z.to_nat i) eqn:E2; simpl in *; subst.
        - destruct Hd as [Hd|Hd]; [by destruct Hd|done].
        - by destruct (cstr_nz _ _ _ _ _ H1 E1).
        - by destruct (cstr_nz _ _ _ _ _ H2 E2).
        - done. }
      destruct E1 as [E1 E2]. apply lookup_ge_None_1 in E1, E2.
      destruct (decide (Z.of_nat j < i)).
      * destruct (Hlt (Z.of_nat j)) as [Ej _]; [lia|]. by rewrite Nat2Z.id in Ej.
      * rewrite !lookup_ge_None_2 by lia. done.
    + by intros ->.
Qed.

(** [strcmp] on two C strings returns, and returns 0 exactly when the two
    strings are equal. *)
Theorem strcmp_correct m a1 a2 s1 s2 :
  0 <= a1 → 0 <= a2 → a1 + Z.of_nat (length s1) < 2 ^ 64 → a2 + Z.of_nat (length s2) < 2 ^ 64 →
  cstr m a1 s1 → cstr m a2 s2 →
  ∃ r, strcmp m a1 a2 = Some r ∧ (r = 0 ↔ s1 = s2).
Proof.
  intros Ha1 Ha2 He1 He2 H1 H2.
  destruct (first_diff_exists s1 s2) as (i & Hi1 & Hi2 & Hd).
  destruct (first_diff_bytes m a1 a2 s1 s2 i) as (Hlt & Hstop & Heq); auto.
  unfold strcmp. rewrite (scan_loop _ i); [|lia| |].
  - rewrite bind_Some_eq, !u64_id by lia. eexists. split; [done|]. rewrite <- Heq. lia.
  - rewrite !u64_id by lia. apply andb_false_iff.
    destruct Hstop as [->|?]; [by left|right]. by apply Z.eqb_neq.
  - intros j Hj. rewrite !u64_id by lia. destruct (Hlt j Hj) as [? ->].
    apply andb_true_iff. split; [|apply Z.eqb_refl].
    apply negb_true_iff, Z.eqb_neq. destruct (Hlt j Hj). congruence.
Qed.

Lemma strncmp_eq_iff m a1 a2 n :
  0 <= a1 → 0 <= a2 → 0 <= n → a1 + n < 2 ^ 64 → a2 + n < 2 ^ 64 →
  (∀ j, 0 <= j < n → m (a2 + j) ≠ 0) →
  ∃ r, strncmp m a1 a2 n = Some r ∧ (r = 0 ↔ ∀ j, 0 <= j < n → m (a1 + j) = m (a2 + j)).
Proof.
  intros Ha1 Ha2 Hn He1 He2 Hnz.
  destruct (find_first 0 n (λ j, negb (m (a1 + j) =? m (a2 + j)))) as [i|] eqn:E.
  - apply find_first_Some in E as (Hi & Hd & Hlt). to_prop.
    unfold strncmp. rewrite (scan_loop _ i); [|lia| |].
    + rewrite bind_Some_eq. rewrite (proj2 (Z.eqb_neq i n)) by lia.
      rewrite !u64_id by lia. eexists. split; [done|]. split; [lia|].
      intros Hall. destruct (Hd (Hall i Hi)).
    + rewrite !u64_id by lia. by rewrite (proj2 (Z.eqb_neq _ _) Hd), andb_false_r.
    + intros j Hj. rewrite !u64_id by lia. specialize (Hlt j Hj). to_prop.
      rewrite Hlt, Z.eqb_refl, (proj2 (Z.ltb_lt j n)) by lia.
      rewrite (proj2 (Z.eqb_neq _ _) (Hnz j ltac:(lia))). done.
  - pose proof (proj1 (find_first_None _ _ _) E) as Hall. cbv beta in Hall.
    unfold strncmp. rewrite (scan_loop _ n); [|lia| |].
    + rewrite bind_Some_eq, Z.eqb_refl. exists 0. split; [done|]. split; [|done].
      intros _ j Hj. specialize (Hall j Hj). by to_prop.
    + by rewrite Z.ltb_irrefl.
    + intros j Hj. rewrite !u64_id by lia. specialize (Hall j Hj). to_prop.
      rewrite Hall, Z.eqb_refl, (proj2 (Z.ltb_lt j n)) by lia.
      rewrite (proj2 (Z.eqb_neq _ _) (Hnz j ltac:(lia))). done.
Qed.

(** The first loop of [strncpy] on a source shorter than [n]. *)
Lemma strncpy_copy_loop m d s n str :
  mem_wf m → 0 <= d → 0 <= s → d + n + 1 < 2 ^ 64 → s + n + 1 < 2 ^ 64 →
  forward_safe d s n → cstr m s str → Z.of_nat (length str) < n →
  ∃ c, while_ (λ c, negb (c_n c =? 0) && negb (c_mem c (c_s c) =? 0)) copy_byte (Cur m d s n)
         = Some c
       ∧ c_d c = d + Z.of_nat (length str) ∧ c_n c = n - Z.of_nat (length str)
       ∧ ∀ x, c_mem c x = copy m d s (Z.of_nat (length str)) x.
Proof.
  intros Hwf Hd Hs Hde Hse Hsafe Hstr Hlen.
  destruct (while_total (λ c, negb (c_n c =? 0) && negb (c_mem c (c_s c) =? 0)) copy_byte
    (λ c, copied m d s n c ∧ n - Z.of_nat (length str) <= c_n c) c_n (Cur m d s n))
    as (c & -> & [(k & Hk & Ed & Es & En & Hm) Hge] & Hz).
  { split; [apply copied_start; lia|simpl; lia]. }
  { simpl. unfold WHILE_FUEL. lia. }
  { intros c [Hf Hge] Hcond. to_prop.
    assert (copied m d s n (copy_byte c) ∧ 0 <= c_n (copy_byte c) < c_n c) as [Hf' Hmu]
      by (apply copy_byte_copied; auto; lia).
    split; [split; [done|]|done].
    destruct Hf as (k & Hk & Ed & Es & En & Hm). simpl. rewrite u64_id by lia.
    destruct (decide (k = Z.of_nat (length str))) as [->|]; [|lia].
    exfalso. match goal with H : c_mem c (c_s c) ≠ 0 |- _ => apply H end.
    rewrite Es, Hm. replace (s + _) with (s + Z.of_nat (length str) + 0) by lia.
    rewrite (copy_source m d s n) by (done || lia). rewrite Z.add_0_r. apply Hstr. }
  assert (Hkl : k = Z.of_nat (length str)).
  { destruct (decide (k = Z.of_nat (length str))) as [|Hne]; [done|]. exfalso.
    destruct (cstr_byte m s str k Hstr) as (b & _ & Hb & Hb0); [lia|].
    apply andb_false_iff in Hz as [Hz|Hz]; to_prop; [lia|]. apply Hb0.
    rewrite Es, Hm in Hz. rewrite <- Hz, <- Hb.
    replace (s + k) with (s + k + 0) by lia. by rewrite (copy_source m d s n) by (done || lia). }
  subst k. exists c. split_and!; auto.
Qed.

(** [strncpy] with a source string shorter than [n] writes [n + 1] bytes of
    the destination, one more than its limit: the string, then zeros up to and
    including [dest + n].  Nothing else changes. *)
Theorem strncpy_writes_past_limit m d s n str :
  mem_wf m → 0 <= d → 0 <= s → d + n + 1 < 2 ^ 64 → s + n + 1 < 2 ^ 64 →
  forward_safe d s n → cstr m s str → Z.of_nat (length str) < n →
  ∃ m', strncpy m d s n = Some m'
        ∧ (∀ i, 0 <= i < Z.of_nat (length str) → m' (d + i) = m (s + i))
        ∧ (∀ i, Z.of_nat (length str) <= i <= n → m' (d + i) = 0)
        ∧ (∀ x, x < d ∨ d + n < x → m' x = m x).
Proof.
  intros Hwf Hd Hs Hde Hse Hsafe Hstr Hlen. unfold strncpy.
  destruct (strncpy_copy_loop m d s n str) as (c & -> & Ed & En & Hm); auto.
  rewrite bind_Some_eq, (proj2 (Z.eqb_neq (c_n c) 0)) by lia.
  set (L := Z.of_nat (length str)) in *. rewrite Ed, En, u64_id by lia.
  set (m1 := store8 (c_mem c) (d + L) 0).
  destruct (memset_tail m1 (d + L + 1) 0 (n - L) (Cur m1 (d + L + 1) (c_s c +64 1) (n - L)))
    as (m' & -> & Hm'); [lia|lia|lia|apply filled_start; lia|].
  exists m'. split; [done|].
  assert (Hx : ∀ x, m' x = if in_range (d + L) (n - L + 1) x then 0
                           else copy m d s L x).
  { intros x. rewrite Hm'. unfold fill, m1, store. rewrite Hm.
    range_cases; try lia; try done. }
  split_and!.
  - intros i Hi. rewrite Hx. unfold copy. range_cases; try lia. f_equal. lia.
  - intros i Hi. rewrite Hx. range_cases; [done|lia].
  - intros x Hxr. rewrite Hx. unfold copy. range_cases; done || lia.
Qed.

(** ** Witnesses *)

(** "ab" at 16, "ac" at 32. *)
Definition sample_mem : mem := write_bytes (write_bytes (λ _, 0) 16 [97; 98]) 32 [97; 99].

Lemma sample_mem_wf : mem_wf sample_mem.
Proof.
  unfold sample_mem. apply mem_wf_write_bytes; [apply mem_wf_write_bytes|];
    [intros a; lia|repeat constructor; lia..].
Qed.

Lemma memset_correct_witness :
  ∃ m', memset sample_mem 3 0x141 21 = Some m' ∧ m' 3 = 0x41 ∧ m' 23 = 0x41 ∧ m' 24 = 0.
Proof.
  destruct (memset_correct sample_mem 3 0x141 21) as (m' & E & Hm); [lia..|].
  exists m'. rewrite !Hm. split; [exact E|]. by split_and!.
Defined.

Lemma memmove_correct_witness :
  ∃ m', memmove sample_mem 17 16 2 = Some m' ∧ m' 17 = 97 ∧ m' 18 = 98.
Proof.
  destruct (memmove_correct sample_mem 17 16 2) as (m' & E & Hm);
    [exact sample_mem_wf || lia..|].
  exists m'. rewrite !Hm. split; [exact E|]. by split_and!.
Defined.

Lemma sample_strings m : m = sample_mem ∨ m = store8 sample_mem 104 7 →
  cstr m 16 [97; 98] ∧ cstr m 32 [97; 99].
Proof. intros [->| ->]; split; (split_and!; [reflexivity|repeat constructor; lia|reflexivity]). Qed.

Lemma strcmp_correct_witness : ∃ r, strcmp sample_mem 16 32 = Some r ∧ r ≠ 0.
Proof.
  destruct (strcmp_correct sample_mem 16 32 [97; 98] [97; 99]) as (r & E & Hr);
    [simpl; lia || apply sample_strings; by left..|].
  exists r. split; [exact E|]. rewrite Hr. done.
Defined.

Lemma strncpy_writes_past_limit_witness :
  ∃ m', strncpy (store8 sample_mem 104 7) 100 16 4 = Some m' ∧ m' 104 = 0.
Proof.
  destruct (strncpy_writes_past_limit (store8 sample_mem 104 7) 100 16 4 [97; 98])
    as (m' & E & _ & Hz & _);
    [apply mem_wf_store, sample_mem_wf|lia|lia|lia|lia|right; lia
    |apply sample_strings; by right|simpl; lia|].
  exists m'. split; [exact E|]. apply (Hz 4). simpl. lia.
Defined.
