(* ===== verification/Bitmap.v ===== *)
(** * Allocation bitmaps

    The bit operations that mm/pmm.c (the [BITMAP_*] macros) and fs/ramfs.c
    ([bitmap_set], [bitmap_clear], [bitmap_test], [bitmap_find_free]) share,
    on a bitmap stored in byte memory at [b], and the counting lemmas behind
    the [free_count], [free_blocks] and [free_inodes] statistics. *)

From Stdlib Require Import ZArith Lia.
From stdpp Require Import base numbers list sets.
From S2P Require Import Prelude.
From S2P Require Import Mem.

Definition bitmap_set (m : mem) (b i : Z) : mem :=
  store8 m (b + i / 8) (Z.lor (m (b + i / 8)) (Z.shiftl 1 (i mod 8))).

Definition bitmap_clear (m : mem) (b i : Z) : mem :=
  store8 m (b + i / 8) (Z.land (m (b + i / 8)) (Z.lnot (Z.shiftl 1 (i mod 8)))).

Definition bitmap_test (m : mem) (b i : Z) : bool :=
  negb (Z.land (m (b + i / 8)) (Z.shiftl 1 (i mod 8)) =? 0).

(** Lowest clear bit below [size]; the C function returns -1 for none. *)
Definition bitmap_find_free (m : mem) (b size : Z) : option Z :=
  find_first 0 size (λ i, negb (bitmap_test m b i)).

(** Number of indices below [n] that satisfy [p]. *)
Definition countZ (p : Z → bool) (n : Z) : Z :=
  Z.of_nat (length (filter (λ i, p i = true) (seqZ 0 n))).

Definition count_free (m : mem) (b n : Z) : Z := countZ (λ i, negb (bitmap_test m b i)) n.

(** ** Bits *)

Lemma land_pow2_testbit x k : 0 <= k → negb (Z.land x (Z.shiftl 1 k) =? 0) = Z.testbit x k.
Proof.
  intros Hk. rewrite Z.shiftl_1_l. destruct (Z.testbit x k) eqn:E.
  - apply negb_true_iff, Z.eqb_neq. intros H.
    assert (Z.testbit (Z.land x (2 ^ k)) k = true).
    { rewrite Z.land_spec, E, Z.pow2_bits_true by done. done. }
    rewrite H, Z.bits_0 in *. done.
  - apply negb_false_iff, Z.eqb_eq. apply Z.bits_inj. intros j.
    rewrite Z.land_spec, Z.bits_0, Z.pow2_bits_eqb by done.
    destruct (Z.eqb_spec k j) as [<-|]; [by rewrite E|by rewrite andb_false_r].
Qed.

Lemma bitmap_test_bit m b i : 0 <= i → bitmap_test m b i = Z.testbit (m (b + i / 8)) (i mod 8).
Proof. intros. apply land_pow2_testbit. apply Z.mod_pos_bound. lia. Qed.

Lemma store8_at m a v x : store8 m a v x = if x =? a then v mod 256 else m x.
Proof.
  unfold store. destruct (Z.eqb_spec x a) as [->|].
  - rewrite (proj2 (in_range_true _ _ _)) by lia. unfold byte_of.
    by rewrite Z.sub_diag, Z.pow_0_r, Z.div_1_r.
  - by rewrite (proj2 (in_range_false _ _ _)) by lia.
Qed.

Lemma testbit_byte v k : 0 <= k < 8 → Z.testbit (v mod 256) k = Z.testbit v k.
Proof. intros. change 256 with (2 ^ 8). by rewrite Z.mod_pow2_bits_low by lia. Qed.

Lemma bit_index i j : 0 <= i → 0 <= j → i / 8 = j / 8 → i mod 8 = j mod 8 → i = j.
Proof. intros. rewrite (Z.div_mod i 8), (Z.div_mod j 8) by lia. congruence. Qed.

Lemma bitmap_test_set m b i j :
  0 <= i → 0 <= j → bitmap_test (bitmap_set m b i) b j = (j =? i) || bitmap_test m b j.
Proof.
  intros Hi Hj. rewrite !bitmap_test_bit by done. unfold bitmap_set. rewrite store8_at.
  pose proof (Z.mod_pos_bound i 8 ltac:(lia)). pose proof (Z.mod_pos_bound j 8 ltac:(lia)).
  destruct (Z.eqb_spec (b + j / 8) (b + i / 8)) as [E|E].
  - rewrite testbit_byte, Z.lor_spec, Z.shiftl_1_l, Z.pow2_bits_eqb by lia.
    replace (j / 8) with (i / 8) by lia.
    destruct (Z.eqb_spec (i mod 8) (j mod 8)), (Z.eqb_spec j i); subst; try done;
      rewrite ?orb_true_r, ?orb_false_r; try done.
    destruct n. apply bit_index; lia.
  - destruct (Z.eqb_spec j i); [subst; done|done].
Qed.

Lemma bitmap_test_clear m b i j :
  0 <= i → 0 <= j → bitmap_test (bitmap_clear m b i) b j = negb (j =? i) && bitmap_test m b j.
Proof.
  intros Hi Hj. rewrite !bitmap_test_bit by done. unfold bitmap_clear. rewrite store8_at.
  pose proof (Z.mod_pos_bound i 8 ltac:(lia)). pose proof (Z.mod_pos_bound j 8 ltac:(lia)).
  destruct (Z.eqb_spec (b + j / 8) (b + i / 8)) as [E|E].
  - rewrite testbit_byte, Z.land_spec, Z.lnot_spec, Z.shiftl_1_l, Z.pow2_bits_eqb by lia.
    replace (j / 8) with (i / 8) by lia.
    destruct (Z.eqb_spec (i mod 8) (j mod 8)), (Z.eqb_spec j i); subst; try done;
      rewrite ?andb_true_r, ?andb_false_r; try done.
    destruct n. apply bit_index; lia.
  - destruct (Z.eqb_spec j i); [subst; done|done].
Qed.

(** A bitmap update touches only its own byte. *)
Lemma bitmap_set_other m b i x : x ≠ b + i / 8 → bitmap_set m b i x = m x.
Proof. intros. unfold bitmap_set. rewrite store8_at. by rewrite (proj2 (Z.eqb_neq _ _)). Qed.
Lemma bitmap_clear_other m b i x : x ≠ b + i / 8 → bitmap_clear m b i x = m x.
Proof. intros. unfold bitmap_clear. rewrite store8_at. by rewrite (proj2 (Z.eqb_neq _ _)). Qed.

Lemma bitmap_test_ext m m' b i : m (b + i / 8) = m' (b + i / 8) → bitmap_test m b i = bitmap_test m' b i.
Proof. intros H. unfold bitmap_test. by rewrite H. Qed.

(** ** Counting *)

Lemma countZ_nonneg p n : 0 <= countZ p n.
Proof. unfold countZ. lia. Qed.

Lemma countZ_le p n : 0 <= n → countZ p n <= n.
Proof.
  intros. unfold countZ.
  pose proof (length_filter (λ i, p i = true) (seqZ 0 n)). rewrite length_seqZ in *. lia.
Qed.

Lemma filter_seqZ_ext (p q : Z → bool) lo n :
  (∀ i, lo <= i < lo + n → p i = q i) →
  filter (λ i, p i = true) (seqZ lo n) = filter (λ i, q i = true) (seqZ lo n).
Proof.
  intros H. assert (Hl : ∀ x, x ∈ seqZ lo n → p x = q x).
  { intros x Hx%elem_of_seqZ. auto. }
  clear H. induction (seqZ lo n) as [|x l IH]; [done|].
  rewrite !filter_cons, (Hl x), IH by set_solver. done.
Qed.

Lemma countZ_ext p q n : (∀ i, 0 <= i < n → p i = q i) → countZ p n = countZ q n.
Proof. intros H. unfold countZ. by rewrite (filter_seqZ_ext p q) by (intros; apply H; lia). Qed.

Lemma countZ_remove p q n i :
  0 <= i < n → p i = true → q i = false → (∀ j, 0 <= j < n → j ≠ i → p j = q j) →
  countZ q n = countZ p n - 1.
Proof.
  intros Hi Hp Hq Hext. unfold countZ.
  replace n with (i + (1 + (n - i - 1))) by lia.
  rewrite !seqZ_app by lia. rewrite !filter_app, !length_app.
  rewrite (filter_seqZ_ext p q 0 i) by (intros; apply Hext; lia).
  rewrite (filter_seqZ_ext p q (0 + i + 1)) by (intros; apply Hext; lia).
  replace (seqZ (0 + i) 1) with [i] by (rewrite seqZ_cons, seqZ_nil by lia; f_equal; lia).
  rewrite (filter_cons_True (λ i, p i = true)), (filter_cons_False (λ i, q i = true)) by congruence.
  rewrite !filter_nil. simpl. lia.
Qed.

Lemma countZ_add p q n i :
  0 <= i < n → p i = false → q i = true → (∀ j, 0 <= j < n → j ≠ i → p j = q j) →
  countZ q n = countZ p n + 1.
Proof.
  intros Hi Hp Hq Hext. rewrite (countZ_remove q p n i) by (done || (intros; symmetry; auto)). lia.
Qed.

Lemma countZ_pos p n i : 0 <= i < n → p i = true → 0 < countZ p n.
Proof.
  intros Hi Hp.
  pose proof (countZ_remove p (λ j, p j && negb (j =? i)) n i Hi Hp) as H.
  pose proof (countZ_nonneg (λ j, p j && negb (j =? i)) n).
  rewrite H in *; [lia|by rewrite Z.eqb_refl, andb_false_r|].
  intros j Hj Hne. by rewrite (proj2 (Z.eqb_neq _ _) Hne), andb_true_r.
Qed.

Lemma countZ_0 p n : countZ p n = 0 → ∀ i, 0 <= i < n → p i = false.
Proof.
  intros H i Hi. destruct (p i) eqn:E; [|done].
  pose proof (countZ_pos p n i Hi E). lia.
Qed.

Lemma countZ_all_false p n : (∀ i, 0 <= i < n → p i = false) → countZ p n = 0.
Proof.
  intros H. pose proof (countZ_nonneg p n). destruct (decide (0 < countZ p n)) as [Hc|]; [|lia].
  unfold countZ in Hc. destruct (filter _ _) as [|x l] eqn:E; [simpl in *; lia|].
  assert (Hx : x ∈ filter (λ i, p i = true) (seqZ 0 n)) by (rewrite E; left).
  apply list_elem_of_filter in Hx as [Hp Hx]. apply elem_of_seqZ in Hx.
  rewrite H in Hp by lia. done.
Qed.

(** A run of [k] elements that satisfy [p]. *)
Lemma countZ_run p n lo k : 0 <= lo → lo + k <= n → (∀ i, lo <= i < lo + k → p i = true) → k <= countZ p n.
Proof.
  intros Hlo. destruct (Z.le_gt_cases k 0); [intros; pose proof (countZ_nonneg p n); lia|].
  revert p. pattern k. apply natlike_ind; [intros p ??; apply countZ_nonneg| |lia].
  clear -Hlo. intros k Hk IH p Hn Hp. set (q := λ j, p j && negb (j =? lo + k)).
  rewrite <- (Z.sub_add 1 (countZ p n)), <- (countZ_remove p q n (lo + k)); [|lia|apply Hp; lia| |].
  - specialize (IH q ltac:(lia)). unfold Z.succ. enough (k <= countZ q n) by lia. apply IH. intros i Hi. unfold q.
    rewrite Hp by lia. rewrite (proj2 (Z.eqb_neq _ _)) by lia. done.
  - unfold q. by rewrite Z.eqb_refl, andb_false_r.
  - intros j Hj Hne. unfold q. rewrite (proj2 (Z.eqb_neq _ _)) by done. by rewrite andb_true_r.
Qed.

Lemma count_free_set m b n i :
  0 <= i < n → bitmap_test m b i = false → count_free (bitmap_set m b i) b n = count_free m b n - 1.
Proof.
  intros Hi Ht. apply (countZ_remove _ _ _ i Hi); [by rewrite Ht| |].
  - rewrite bitmap_test_set, Z.eqb_refl by lia. done.
  - intros j Hj Hne. rewrite bitmap_test_set by lia. by rewrite (proj2 (Z.eqb_neq _ _) Hne).
Qed.

Lemma count_free_clear m b n i :
  0 <= i < n → bitmap_test m b i = true → count_free (bitmap_clear m b i) b n = count_free m b n + 1.
Proof.
  intros Hi Ht. apply (countZ_add _ _ _ i Hi); [by rewrite Ht| |].
  - rewrite bitmap_test_clear, Z.eqb_refl by lia. done.
  - intros j Hj Hne. rewrite bitmap_test_clear by lia. by rewrite (proj2 (Z.eqb_neq _ _) Hne).
Qed.
