(* ===== verification/Pmm.v ===== *)
(** * Physical memory manager: kernel/mm/pmm.c

    The bitmap page-frame allocator.  The state is the file's static
    variables; the bitmap at physical 0x200000 is a byte array indexed as in
    the [BITMAP_*] macros.  The theorems show that the allocator hands out free
    frames only, never hands a frame out twice, keeps its free counter equal
    to the number of clear bits, and never gives out the reserved low 4 MB. *)

From Stdlib Require Import ZArith Lia.
From stdpp Require Import base numbers list gmap.
From S2P Require Import Prelude.
From S2P Require Import Mem.
From S2P Require Import Bitmap.

(** mm.h *)
Definition MM_RESERVED_END : Z := 0x100000.
Definition MM_KERNEL_START : Z := 0x100000.
Definition MM_KERNEL_SIZE : Z := 0x100000.
Definition MM_PMM_BITMAP_START : Z := 0x200000.
Definition MM_PMM_BITMAP_SIZE : Z := 0x100000.
Definition MM_PAGE_TABLES_START : Z := 0x300000.
Definition MM_PAGE_TABLES_SIZE : Z := 0x100000.
Definition MM_MAX_PHYS_MEMORY : Z := 32 * 1024 * 1024 * 1024.
Definition MM_MAX_PAGES : Z := MM_MAX_PHYS_MEMORY / PAGE_SIZE.

(** kernel.h: an E820 entry and the boot information. *)
Definition MEMORY_TYPE_USABLE : Z := 1.

Record memory_map_entry_t := MemEntry {
  entry_base : Z;
  entry_length : Z;
  entry_type : Z
}.

(** The static variables of pmm.c. *)
Record pmm := Pmm {
  pmm_bitmap : mem;
  pmm_total_pages : Z;
  pmm_free_count : Z;
  pmm_reserved_pages : Z;
  pmm_first_free_hint : Z;
  pmm_total_memory : Z
}.

(** Static initialisers: everything zero. *)
Definition pmm_zero : pmm := Pmm (λ _, 0) 0 0 0 0 0.

Definition addr_to_pfn (addr : Z) : Z := addr / PAGE_SIZE.
Definition pfn_to_addr (pfn : Z) : Z := pfn *64 PAGE_SIZE.

Definition BITMAP_TEST (s : pmm) (page : Z) : bool := bitmap_test (pmm_bitmap s) 0 page.

Definition with_bitmap (s : pmm) (bm : mem) (free reserved hint : Z) : pmm :=
  Pmm bm (pmm_total_pages s) free reserved hint (pmm_total_memory s).

(** ** Allocation *)

(** [BITMAP_SET(pfn); pmm_free_count--; pmm_first_free_hint = pfn + 1;] *)
Definition take_page (s : pmm) (pfn : Z) : pmm :=
  with_bitmap s (bitmap_set (pmm_bitmap s) 0 pfn) (pmm_free_count s -64 1)
    (pmm_reserved_pages s) (pfn +64 1).

Definition pmm_alloc_page (s : pmm) : Z * pmm :=
  match find_first (pmm_first_free_hint s) MM_MAX_PAGES (λ pfn, negb (BITMAP_TEST s pfn)) with
  | Some pfn => (pfn_to_addr pfn, take_page s pfn)
  | None =>
      match find_first 0 (pmm_first_free_hint s) (λ pfn, negb (BITMAP_TEST s pfn)) with
      | Some pfn => (pfn_to_addr pfn, take_page s pfn)
      | None => (0, s)
      end
  end.

(** One search loop of [pmm_alloc_pages]:
    [for (pfn = lo; pfn < hi && found < count; pfn++)] over (start_pfn, found). *)
Definition find_run (s : pmm) (count lo hi : Z) (st : Z * Z) : Z * Z :=
  match for_ lo hi (λ pfn '(start, found),
          if found <? count then
            if negb (BITMAP_TEST s pfn) then
              Next (if found =? 0 then pfn else start, found +64 1)
            else Next (start, 0)
          else Stop (start, found)) st with
  | Next st' => st'
  | Stop st' => st'
  end.

Definition pmm_alloc_pages (s : pmm) (count : Z) : Z * pmm :=
  if count =? 0 then (0, s)
  else if count =? 1 then pmm_alloc_page s
  else
    let '(start, found) := find_run s count (pmm_first_free_hint s) MM_MAX_PAGES (0, 0) in
    let '(start, found) :=
      if found <? count then find_run s count 0 (pmm_first_free_hint s) (start, 0)
      else (start, found) in
    if found <? count then (0, s)
    else
      let bm := for_each 0 count (λ i bm, bitmap_set bm 0 (start +64 i)) (pmm_bitmap s) in
      (pfn_to_addr start,
       with_bitmap s bm (pmm_free_count s -64 count) (pmm_reserved_pages s) (start +64 count)).

(** ** Deallocation *)

Definition pmm_free_page (s : pmm) (addr : Z) : pmm :=
  if addr =? 0 then s
  else
    let addr := if negb (IS_ALIGNED addr PAGE_SIZE) then ALIGN_DOWN addr PAGE_SIZE else addr in
    let pfn := addr_to_pfn addr in
    if MM_MAX_PAGES <=? pfn then s
    else if negb (BITMAP_TEST s pfn) then s
    else
      with_bitmap s (bitmap_clear (pmm_bitmap s) 0 pfn) (pmm_free_count s +64 1)
        (pmm_reserved_pages s)
        (if pfn <? pmm_first_free_hint s then pfn else pmm_first_free_hint s).

Definition pmm_free_pages (s : pmm) (addr count : Z) : pmm :=
  for_each 0 count (λ i s, pmm_free_page s (addr +64 i * PAGE_SIZE)) s.

(** ** Reservation *)

Definition pmm_reserve_page (s : pmm) (addr : Z) : pmm :=
  let pfn := addr_to_pfn addr in
  if MM_MAX_PAGES <=? pfn then s
  else if negb (BITMAP_TEST s pfn) then
    with_bitmap s (bitmap_set (pmm_bitmap s) 0 pfn) (pmm_free_count s -64 1)
      (pmm_reserved_pages s +64 1) (pmm_first_free_hint s)
  else s.

Definition pmm_reserve_pages (s : pmm) (addr count : Z) : pmm :=
  for_each 0 count (λ i s, pmm_reserve_page s (addr +64 i * PAGE_SIZE)) s.

Definition pmm_unreserve_page (s : pmm) (addr : Z) : pmm :=
  let pfn := addr_to_pfn addr in
  if MM_MAX_PAGES <=? pfn then s
  else if BITMAP_TEST s pfn then
    with_bitmap s (bitmap_clear (pmm_bitmap s) 0 pfn) (pmm_free_count s +64 1)
      (if 0 <? pmm_reserved_pages s then pmm_reserved_pages s - 1 else pmm_reserved_pages s)
      (pmm_first_free_hint s)
  else s.

(** ** Queries *)

Definition pmm_is_page_free (s : pmm) (addr : Z) : bool :=
  let pfn := addr_to_pfn addr in
  if MM_MAX_PAGES <=? pfn then false else negb (BITMAP_TEST s pfn).

Record pmm_stats_t := PmmStats {
  total_pages : Z;
  free_pages : Z;
  used_pages : Z;
  reserved_pages : Z;
  total_memory : Z;
  free_memory : Z
}.

Definition pmm_get_stats (s : pmm) : pmm_stats_t :=
  PmmStats (pmm_total_pages s) (pmm_free_count s) (pmm_total_pages s -64 pmm_free_count s)
    (pmm_reserved_pages s) (pmm_total_memory s) (pmm_free_count s *64 PAGE_SIZE).

(** ** Initialisation *)

(** The body of the page loop: clear one page of a usable region. *)
Definition pmm_release (start : Z) (i : Z) (s : pmm) : pmm :=
  let pfn := addr_to_pfn (start +64 i * PAGE_SIZE) in
  if pfn <? MM_MAX_PAGES then
    with_bitmap s (bitmap_clear (pmm_bitmap s) 0 pfn) (pmm_free_count s +64 1)
      (pmm_reserved_pages s) (pmm_first_free_hint s)
  else s.

(** One iteration of the E820 loop.  The inner loop runs over
    [addr = start, start + PAGE_SIZE, ...] below [end]. *)
Definition pmm_init_entry (s : pmm) (entry : memory_map_entry_t) : pmm :=
  if entry_type entry =? MEMORY_TYPE_USABLE then
    let start := ALIGN_UP (entry_base entry) PAGE_SIZE in
    let end_ := ALIGN_DOWN (entry_base entry +64 entry_length entry) PAGE_SIZE in
    if start <? end_ then
      let s := for_each 0 ((end_ - start) / PAGE_SIZE) (pmm_release start) s in
      Pmm (pmm_bitmap s) (pmm_total_pages s) (pmm_free_count s) (pmm_reserved_pages s)
        (pmm_first_free_hint s) (pmm_total_memory s +64 (end_ - start))
    else s
  else s.

(** [None] is the kernel panic for a missing memory map. *)
Definition pmm_init (boot_info : option (list memory_map_entry_t)) (s : pmm) : option pmm :=
  let s := Pmm (fill (pmm_bitmap s) 0 0xFF MM_PMM_BITMAP_SIZE) (pmm_total_pages s)
             (pmm_free_count s) (pmm_reserved_pages s) (pmm_first_free_hint s)
             (pmm_total_memory s) in
  match boot_info with
  | None | Some [] => None
  | Some entries =>
      let s := foldl pmm_init_entry s entries in
      let s := Pmm (pmm_bitmap s) (pmm_free_count s) (pmm_free_count s) (pmm_reserved_pages s)
                 (pmm_first_free_hint s) (pmm_total_memory s) in
      let s := pmm_reserve_pages s 0 (MM_RESERVED_END / PAGE_SIZE) in
      let s := pmm_reserve_pages s MM_KERNEL_START (MM_KERNEL_SIZE / PAGE_SIZE) in
      let s := pmm_reserve_pages s MM_PMM_BITMAP_START (MM_PMM_BITMAP_SIZE / PAGE_SIZE) in
      let s := pmm_reserve_pages s MM_PAGE_TABLES_START (MM_PAGE_TABLES_SIZE / PAGE_SIZE) in
      let hint := default 0 (find_first 0 MM_MAX_PAGES (λ pfn, negb (BITMAP_TEST s pfn))) in
      Some (with_bitmap s (pmm_bitmap s) (pmm_free_count s) (pmm_reserved_pages s) hint)
  end.

(** ** Invariant *)

Lemma MM_MAX_PAGES_val : MM_MAX_PAGES = 8388608.
Proof. done. Qed.
#[global] Opaque MM_MAX_PAGES.

Definition page_free (s : pmm) (pfn : Z) : Prop := BITMAP_TEST s pfn = false.

Record pmm_inv (s : pmm) : Prop := {
  inv_count : pmm_free_count s = count_free (pmm_bitmap s) 0 MM_MAX_PAGES;
  inv_hint : 0 <= pmm_first_free_hint s <= MM_MAX_PAGES
}.

(** [s'] differs from [s] in the bitmap only on the pages of [P]. *)
Definition same_outside (s s' : pmm) (P : Z → Prop) : Prop :=
  ∀ q, 0 <= q → ¬ P q → BITMAP_TEST s' q = BITMAP_TEST s q.

Ltac pages := unfold page_free in *; pose proof MM_MAX_PAGES_val; to_prop; lia.

Lemma free_count_range s : 0 <= count_free (pmm_bitmap s) 0 MM_MAX_PAGES <= MM_MAX_PAGES.
Proof. split; [apply countZ_nonneg|apply countZ_le; pages]. Qed.

Lemma negb_free s pfn : negb (BITMAP_TEST s pfn) = true ↔ page_free s pfn.
Proof. unfold page_free. apply negb_true_iff. Qed.

Lemma pfn_to_addr_val pfn : 0 <= pfn < MM_MAX_PAGES → pfn_to_addr pfn = pfn * PAGE_SIZE.
Proof. intros. apply u64_id. unfold PAGE_SIZE. pages. Qed.

Lemma addr_to_pfn_to_addr pfn : 0 <= pfn < MM_MAX_PAGES → addr_to_pfn (pfn_to_addr pfn) = pfn.
Proof. intros. rewrite pfn_to_addr_val by done. apply Z.div_mul. done. Qed.

(** ** Single pages *)

Lemma take_page_test s pfn q :
  0 <= pfn → 0 <= q → BITMAP_TEST (take_page s pfn) q = (q =? pfn) || BITMAP_TEST s q.
Proof. apply bitmap_test_set. Qed.

Lemma take_page_inv s pfn :
  pmm_inv s → 0 <= pfn < MM_MAX_PAGES → page_free s pfn →
  pmm_inv (take_page s pfn) ∧ pmm_free_count (take_page s pfn) = pmm_free_count s - 1.
Proof.
  intros [Hc Hh] Hp Hf.
  assert (Hpos : 0 < count_free (pmm_bitmap s) 0 MM_MAX_PAGES).
  { apply (countZ_pos _ _ pfn Hp). by apply negb_free. }
  pose proof (free_count_range s). pose proof MM_MAX_PAGES_val.
  simpl. rewrite u64_id by lia. split; [|done]. split; simpl.
  - rewrite u64_id by lia. rewrite count_free_set by done. lia.
  - rewrite u64_id by lia. lia.
Qed.

(** The page found by the two search loops: [Some pfn] is free, [None] means
    that no page is. *)
Lemma alloc_search s :
  pmm_inv s →
  match find_first (pmm_first_free_hint s) MM_MAX_PAGES (λ pfn, negb (BITMAP_TEST s pfn)) with
  | Some pfn => 0 <= pfn < MM_MAX_PAGES ∧ page_free s pfn
  | None =>
      match find_first 0 (pmm_first_free_hint s) (λ pfn, negb (BITMAP_TEST s pfn)) with
      | Some pfn => 0 <= pfn < MM_MAX_PAGES ∧ page_free s pfn
      | None => ∀ q, 0 <= q < MM_MAX_PAGES → ¬ page_free s q
      end
  end.
Proof.
  intros [_ Hh].
  pose proof (find_first_spec (pmm_first_free_hint s) MM_MAX_PAGES (λ pfn, negb (BITMAP_TEST s pfn))) as H1.
  destruct (find_first _ _ _) as [pfn|].
  { destruct H1 as (? & ?%negb_free & _). split; [lia|done]. }
  pose proof (find_first_spec 0 (pmm_first_free_hint s) (λ pfn, negb (BITMAP_TEST s pfn))) as H2.
  destruct (find_first 0 _ _) as [pfn|].
  { destruct H2 as (? & ?%negb_free & _). split; [lia|done]. }
  intros q Hq Hf%negb_free. destruct (decide (q < pmm_first_free_hint s)).
  - rewrite H2 in Hf by lia. done.
  - rewrite H1 in Hf by lia. done.
Qed.

Lemma alloc_page_outcome s addr s' :
  pmm_inv s → pmm_alloc_page s = (addr, s') →
  pmm_inv s' ∧
  ((∃ pfn, addr = pfn * PAGE_SIZE ∧ 0 <= pfn < MM_MAX_PAGES ∧ page_free s pfn
           ∧ ¬ page_free s' pfn ∧ same_outside s s' (λ q, q = pfn)
           ∧ pmm_free_count s' = pmm_free_count s - 1)
   ∨ (addr = 0 ∧ s' = s ∧ ∀ q, 0 <= q < MM_MAX_PAGES → ¬ page_free s q)).
Proof.
  intros Hinv. pose proof (alloc_search s Hinv) as Hs. unfold pmm_alloc_page.
  assert (Htake : ∀ pfn, 0 <= pfn < MM_MAX_PAGES ∧ page_free s pfn →
    (pfn_to_addr pfn, take_page s pfn) = (addr, s') →
    pmm_inv s' ∧ ∃ pfn, addr = pfn * PAGE_SIZE ∧ 0 <= pfn < MM_MAX_PAGES ∧ page_free s pfn
           ∧ ¬ page_free s' pfn ∧ same_outside s s' (λ q, q = pfn)
           ∧ pmm_free_count s' = pmm_free_count s - 1).
  { intros pfn [Hp Hf] [= <- <-]. destruct (take_page_inv s pfn Hinv Hp Hf) as [? ?].
    split; [done|]. exists pfn. split_and!; [by apply pfn_to_addr_val|lia|lia|done| | |done].
    - unfold page_free. rewrite take_page_test, Z.eqb_refl by lia. done.
    - intros q Hq Hne. rewrite take_page_test by lia. by rewrite (proj2 (Z.eqb_neq _ _) Hne). }
  destruct (find_first _ _ _) as [pfn|]; [intros E; destruct (Htake pfn Hs E); auto|].
  destruct (find_first 0 _ _) as [pfn|]; [intros E; destruct (Htake pfn Hs E); auto|].
  intros [= <- <-]. auto.
Qed.

(** Single-page allocation: it keeps the invariant; it succeeds with a page
    that was free, which becomes used while every other page keeps its state,
    and it fails, changing nothing, only when no page is free. *)
Theorem pmm_alloc_page_spec s addr s' :
  pmm_inv s → pmm_alloc_page s = (addr, s') →
  pmm_inv s' ∧
  ((∃ pfn, addr = pfn * PAGE_SIZE ∧ 0 <= pfn < MM_MAX_PAGES ∧ page_free s pfn
           ∧ ¬ page_free s' pfn ∧ same_outside s s' (λ q, q = pfn)
           ∧ pmm_free_count s' = pmm_free_count s - 1)
   ∨ (addr = 0 ∧ s' = s ∧ ∀ q, 0 <= q < MM_MAX_PAGES → ¬ page_free s q)).
Proof. apply alloc_page_outcome. Qed.

(** ** Contiguous runs *)

Definition run_free (s : pmm) (start count : Z) : Prop :=
  ∀ q, start <= q < start + count → page_free s q.

(** No run of [count] free pages lies inside [lo, hi). *)
Definition no_run (s : pmm) (count lo hi : Z) : Prop :=
  ∀ st, lo <= st → st + count <= hi → ¬ run_free s st count.

(** Loop invariant of [find_run] before page [pfn]: the last [found] pages are
    free, start at [start], extend as far left as possible, and no complete run
    ends earlier. *)
Definition scan_inv (s : pmm) (count lo pfn : Z) (st : Z * Z) : Prop :=
  let '(start, found) := st in
  0 <= found <= count ∧ lo <= pfn - found
  ∧ run_free s (pfn - found) found
  ∧ (found = 0 ∨ start = pfn - found)
  ∧ (pfn - found = lo ∨ ¬ page_free s (pfn - found - 1))
  ∧ (found < count → no_run s count lo pfn).

Lemma no_run_step s count lo pfn found :
  0 < count → 0 <= found < count → run_free s (pfn - found) found →
  (pfn - found = lo ∨ ¬ page_free s (pfn - found - 1)) →
  (found + 1 < count ∨ ¬ page_free s pfn) →
  no_run s count lo pfn → no_run s count lo (pfn + 1).
Proof.
  intros Hc Hf Hrun Hleft Hend Hno st Hlo Hst Hfree.
  destruct (decide (st + count <= pfn)); [by apply (Hno st)|].
  assert (st + count = pfn + 1) by lia.
  destruct Hend as [Hend|Hu]; [|apply Hu, Hfree; lia].
  destruct Hleft as [?|Hl]; [lia|]. apply Hl, Hfree. lia.
Qed.

Definition run_body (s : pmm) (count pfn : Z) (st : Z * Z) : ctl (Z * Z) (Z * Z) :=
  let '(start, found) := st in
  if found <? count then
    if negb (BITMAP_TEST s pfn) then
      Next (if found =? 0 then pfn else start, found +64 1)
    else Next (start, 0)
  else Stop (start, found).

Lemma scan_step s count lo pfn st :
  0 < count < 2 ^ 64 → 0 <= lo <= pfn → scan_inv s count lo pfn st →
  match run_body s count pfn st with
  | Next st' => scan_inv s count lo (pfn + 1) st'
  | Stop r => scan_inv s count lo pfn r ∧ r.2 = count
  end.
Proof.
  intros Hc Hlo. destruct st as [start found].
  intros Hinv. pose proof Hinv as (Hf & Hl & Hrun & Hst & Hleft & Hno). unfold run_body.
  destruct (found <? count) eqn:Efc; to_prop; [|simpl; split; [done|lia]].
  destruct (BITMAP_TEST s pfn) eqn:Et; simpl.
  - split_and!; [lia..|intros q ?; lia|by left| |].
    + right. replace (pfn + 1 - 0 - 1) with pfn by lia. unfold page_free. congruence.
    + intros _. apply no_run_step with found; [lia|lia|done|done| |apply Hno; lia].
      right. unfold page_free. congruence.
  - rewrite u64_id by lia. replace (pfn + 1 - (found + 1)) with (pfn - found) by lia.
    split_and!; [lia..| | |done|].
    + intros q Hq. destruct (decide (q = pfn)) as [->|]; [done|]. apply Hrun. lia.
    + right. destruct (found =? 0) eqn:E0; to_prop; lia.
    + intros Hlt. apply no_run_step with found; [lia|lia|done|done| |apply Hno; lia].
      left. lia.
Qed.

Lemma find_run_spec s count lo hi start0 :
  0 < count < 2 ^ 64 → 0 <= lo <= hi →
  let '(start, found) := find_run s count lo hi (start0, 0) in
  (found = count ∧ lo <= start ∧ start + count <= hi ∧ run_free s start count)
  ∨ (found < count ∧ no_run s count lo hi).
Proof.
  intros Hc Hlo.
  assert (Hdone : ∀ pfn start found, lo <= pfn <= hi → scan_inv s count lo pfn (start, found) →
    found = count ∨ pfn = hi →
    (found = count ∧ lo <= start ∧ start + count <= hi ∧ run_free s start count)
    ∨ (found < count ∧ no_run s count lo hi)).
  { intros pfn start found Hp (Hf & Hl & Hrun & Hst & _ & Hno) Hend.
    destruct (decide (found = count)) as [->|].
    - left. assert (start = pfn - count) as -> by lia. split_and!; [done|lia|lia|done].
    - right. destruct Hend as [?| ->]; [lia|]. split; [lia|]. apply Hno. lia. }
  assert (Hstart : scan_inv s count lo lo (start0, 0)).
  { split_and!; [lia..| |by left| |]; [intros q ?; lia|left; lia|intros _ st ?? _; lia]. }
  pose proof (for_inv (scan_inv s count lo)
    (λ pfn st, scan_inv s count lo pfn st ∧ st.2 = count) lo hi (run_body s count)
    (start0, 0) ltac:(lia) Hstart) as H.
  unfold find_run. change (for_ lo hi _ _) with (for_ lo hi (run_body s count) (start0, 0)).
  specialize (H ltac:(intros i st Hi; apply scan_step; lia)).
  destruct (for_ _ _ _ _) as [[start found] | [start found]].
  - apply (Hdone hi); [lia|done|by right].
  - destruct H as (pfn & Hp & Hi & Heq). apply (Hdone pfn); [lia|done|by left].
Qed.

Lemma mark_run s start count :
  0 <= count → 0 <= start → start + count <= MM_MAX_PAGES → run_free s start count →
  let bm := for_each 0 count (λ i bm, bitmap_set bm 0 (start +64 i)) (pmm_bitmap s) in
  (∀ q, 0 <= q → bitmap_test bm 0 q = in_range start count q || BITMAP_TEST s q)
  ∧ count_free bm 0 MM_MAX_PAGES = count_free (pmm_bitmap s) 0 MM_MAX_PAGES - count.
Proof.
  intros Hc Hst Hend Hrun. pose proof MM_MAX_PAGES_val as HM.
  apply (for_each_inv (λ i bm,
    (∀ q, 0 <= q → bitmap_test bm 0 q = in_range start i q || BITMAP_TEST s q)
    ∧ count_free bm 0 MM_MAX_PAGES = count_free (pmm_bitmap s) 0 MM_MAX_PAGES - i)); [lia| |].
  - split; [|lia]. intros q Hq. by rewrite (proj2 (in_range_false _ _ _)) by lia.
  - intros i bm Hi [Ht Hcnt]. rewrite u64_id by lia. split.
    + intros q Hq. rewrite bitmap_test_set, Ht by lia.
      destruct (Z.eqb_spec q (start + i)) as [->|]; simpl.
      * by rewrite (proj2 (in_range_true start (i + 1) _)) by lia.
      * range_cases; simpl; done || lia.
    + rewrite count_free_set; [lia|lia|]. rewrite Ht by lia.
      rewrite (proj2 (in_range_false _ _ _)) by lia. apply Hrun. lia.
Qed.

(** Outcome of a multi-page allocation: a run of free pages becomes used, or
    nothing changes. *)
Definition run_taken (s s' : pmm) (start count : Z) : Prop :=
  0 <= start ∧ start + count <= MM_MAX_PAGES ∧ run_free s start count
  ∧ (∀ q, 0 <= q → BITMAP_TEST s' q = in_range start count q || BITMAP_TEST s q)
  ∧ pmm_free_count s' = pmm_free_count s - count.

Lemma alloc_pages_outcome s count addr s' :
  pmm_inv s → 2 <= count < 2 ^ 64 → pmm_alloc_pages s count = (addr, s') →
  pmm_inv s' ∧
  ((∃ start, addr = start * PAGE_SIZE ∧ run_taken s s' start count)
   ∨ (addr = 0 ∧ s' = s ∧ no_run s count (pmm_first_free_hint s) MM_MAX_PAGES
      ∧ no_run s count 0 (pmm_first_free_hint s))).
Proof.
  intros Hinv Hc. pose proof Hinv as [Hcnt Hh]. pose proof MM_MAX_PAGES_val as HM.
  unfold pmm_alloc_pages. rewrite (proj2 (Z.eqb_neq count 0)), (proj2 (Z.eqb_neq count 1)) by lia.
  assert (Htake : ∀ start, 0 <= start → start + count <= MM_MAX_PAGES → run_free s start count →
    (pfn_to_addr start,
       with_bitmap s (for_each 0 count (λ i bm, bitmap_set bm 0 (start +64 i)) (pmm_bitmap s))
         (pmm_free_count s -64 count) (pmm_reserved_pages s) (start +64 count)) = (addr, s') →
    pmm_inv s' ∧ ∃ start, addr = start * PAGE_SIZE ∧ run_taken s s' start count).
  { intros start Hst Hend Hrun [= <- <-].
    destruct (mark_run s start count) as [Ht Hn]; [lia..|done|].
    pose proof (free_count_range s).
    set (bm := for_each _ _ _ _) in *.
    assert (0 <= count_free bm 0 MM_MAX_PAGES) by apply countZ_nonneg.
    split; [split; simpl; rewrite u64_id by lia; lia|].
    exists start. split; [apply pfn_to_addr_val; lia|].
    split_and!; [lia|lia|done|exact Ht|simpl; rewrite u64_id by lia; lia]. }
  pose proof (find_run_spec s count (pmm_first_free_hint s) MM_MAX_PAGES 0 ltac:(lia) ltac:(lia)) as H1.
  destruct (find_run s count (pmm_first_free_hint s) MM_MAX_PAGES (0, 0)) as [st1 f1].
  destruct H1 as [(-> & Hl1 & Hr1 & Hrun1) | [Hf1 Hno1]].
  { rewrite (proj2 (Z.ltb_ge count count)) by lia. cbv zeta. rewrite Z.ltb_irrefl.
    intros E. destruct (Htake st1) as [? ?]; [lia|lia|done|done|]. auto. }
  rewrite (proj2 (Z.ltb_lt f1 count)) by lia.
  pose proof (find_run_spec s count 0 (pmm_first_free_hint s) st1 ltac:(lia) ltac:(lia)) as H2.
  destruct (find_run s count 0 (pmm_first_free_hint s) (st1, 0)) as [st2 f2].
  destruct H2 as [(-> & Hl2 & Hr2 & Hrun2) | [Hf2 Hno2]].
  { rewrite Z.ltb_irrefl. intros E. destruct (Htake st2) as [? ?]; [lia|lia|done|done|]. auto. }
  rewrite (proj2 (Z.ltb_lt f2 count)) by lia. intros [= <- <-].
  split; [done|right]. by split_and!.
Qed.

(** Contiguous allocation of two or more pages: on success the returned
    address starts a run of [count] pages that were all free and become used,
    and the counter drops by [count]; on failure nothing changes and there is
    no run of [count] free pages on either side of the allocation hint. *)
Theorem pmm_alloc_pages_spec s count addr s' :
  pmm_inv s → 2 <= count < 2 ^ 64 → pmm_alloc_pages s count = (addr, s') →
  pmm_inv s' ∧
  ((∃ start, addr = start * PAGE_SIZE ∧ run_taken s s' start count)
   ∨ (addr = 0 ∧ s' = s ∧ no_run s count (pmm_first_free_hint s) MM_MAX_PAGES
      ∧ no_run s count 0 (pmm_first_free_hint s))).
Proof. apply alloc_pages_outcome. Qed.

(** ** Freeing and reserving *)

Lemma free_page_pfn addr :
  0 <= addr → addr_to_pfn (if negb (IS_ALIGNED addr PAGE_SIZE) then ALIGN_DOWN addr PAGE_SIZE else addr)
              = addr / PAGE_SIZE.
Proof.
  intros Ha. rewrite IS_ALIGNED_page, ALIGN_DOWN_page. unfold addr_to_pfn.
  destruct (addr mod PAGE_SIZE =? 0) eqn:E; simpl; [done|].
  rewrite (Z.div_mod addr PAGE_SIZE) at 1 by done.
  replace (_ + addr mod PAGE_SIZE - addr mod PAGE_SIZE) with (addr / PAGE_SIZE * PAGE_SIZE) by lia.
  by apply Z.div_mul.
Qed.

(** The page [pfn] goes from used to free in [s'], and nothing else changes. *)
Definition page_released (s s' : pmm) (pfn : Z) : Prop :=
  ¬ page_free s pfn ∧ page_free s' pfn ∧ same_outside s s' (λ q, q = pfn)
  ∧ pmm_free_count s' = pmm_free_count s + 1.

Definition page_claimed (s s' : pmm) (pfn : Z) : Prop :=
  page_free s pfn ∧ ¬ page_free s' pfn ∧ same_outside s s' (λ q, q = pfn)
  ∧ pmm_free_count s' = pmm_free_count s - 1.

Lemma clear_page_inv s pfn res hint :
  pmm_inv s → 0 <= pfn < MM_MAX_PAGES → BITMAP_TEST s pfn = true → 0 <= hint <= MM_MAX_PAGES →
  let s' := with_bitmap s (bitmap_clear (pmm_bitmap s) 0 pfn) (pmm_free_count s +64 1) res hint in
  pmm_inv s' ∧ page_released s s' pfn.
Proof.
  intros [Hc Hh] Hp Ht Hhint. pose proof MM_MAX_PAGES_val. simpl.
  pose proof (count_free_clear (pmm_bitmap s) 0 MM_MAX_PAGES pfn Hp Ht) as Hn.
  pose proof (free_count_range s).
  split; [split; simpl; [rewrite u64_id; lia|done]|].
  unfold page_released, page_free, same_outside, BITMAP_TEST in *. simpl.
  rewrite u64_id, bitmap_test_clear, Z.eqb_refl by lia.
  split_and!; [congruence|done| |done].
  intros q Hq Hne. rewrite bitmap_test_clear by lia. by rewrite (proj2 (Z.eqb_neq _ _) Hne).
Qed.

Lemma free_page_outcome s addr :
  pmm_inv s → 0 <= addr →
  pmm_inv (pmm_free_page s addr) ∧
  (page_released s (pmm_free_page s addr) (addr / PAGE_SIZE)
     ∧ 0 < addr ∧ addr / PAGE_SIZE < MM_MAX_PAGES
   ∨ pmm_free_page s addr = s
     ∧ (addr = 0 ∨ MM_MAX_PAGES <= addr / PAGE_SIZE ∨ page_free s (addr / PAGE_SIZE))).
Proof.
  intros Hinv Ha. unfold pmm_free_page. pose proof (inv_hint s Hinv) as Hh.
  destruct (addr =? 0) eqn:E0; to_prop; [by auto 6|]. cbv zeta. rewrite free_page_pfn by done.
  assert (0 <= addr / PAGE_SIZE) by (apply Z.div_pos; unfold PAGE_SIZE; lia).
  destruct (MM_MAX_PAGES <=? addr / PAGE_SIZE) eqn:E1; to_prop; [by auto 6|].
  destruct (BITMAP_TEST s (addr / PAGE_SIZE)) eqn:Et; simpl.
  - destruct (clear_page_inv s (addr / PAGE_SIZE) (pmm_reserved_pages s)
      (if addr / PAGE_SIZE <? pmm_first_free_hint s then addr / PAGE_SIZE else pmm_first_free_hint s))
      as [? ?]; [done|lia|done|case_if; lia|].
    split; [done|]. left. split_and!; [done|lia|lia].
  - split; [done|]. auto.
Qed.

(** Freeing a page of any address: a used page below the limit becomes free
    and the counter grows by one; address 0, an address beyond the managed
    range and a page that is already free (a double free) change nothing. *)
Theorem pmm_free_page_spec s addr :
  pmm_inv s → 0 <= addr →
  pmm_inv (pmm_free_page s addr) ∧
  (page_released s (pmm_free_page s addr) (addr / PAGE_SIZE)
     ∧ 0 < addr ∧ addr / PAGE_SIZE < MM_MAX_PAGES
   ∨ pmm_free_page s addr = s
     ∧ (addr = 0 ∨ MM_MAX_PAGES <= addr / PAGE_SIZE ∨ page_free s (addr / PAGE_SIZE))).
Proof. apply free_page_outcome. Qed.

Lemma reserve_page_outcome s addr :
  pmm_inv s → 0 <= addr →
  pmm_inv (pmm_reserve_page s addr) ∧
  (page_claimed s (pmm_reserve_page s addr) (addr / PAGE_SIZE)
     ∧ addr / PAGE_SIZE < MM_MAX_PAGES
   ∨ pmm_reserve_page s addr = s
     ∧ (MM_MAX_PAGES <= addr / PAGE_SIZE ∨ ¬ page_free s (addr / PAGE_SIZE))).
Proof.
  intros Hinv Ha. pose proof Hinv as [Hc Hh]. unfold pmm_reserve_page, addr_to_pfn. cbv zeta.
  assert (0 <= addr / PAGE_SIZE) by (apply Z.div_pos; unfold PAGE_SIZE; lia).
  set (pfn := addr / PAGE_SIZE) in *. unfold page_free.
  destruct (MM_MAX_PAGES <=? pfn) eqn:E1; to_prop; [by auto 6|].
  destruct (BITMAP_TEST s pfn) eqn:Et; simpl.
  { split; [done|]. right. split; [done|]. by right. }
  pose proof (count_free_set (pmm_bitmap s) 0 MM_MAX_PAGES pfn ltac:(lia) Et) as Hn.
  pose proof (free_count_range s). pose proof MM_MAX_PAGES_val.
  pose proof (countZ_nonneg (λ i, negb (bitmap_test (bitmap_set (pmm_bitmap s) 0 pfn) 0 i)) MM_MAX_PAGES).
  unfold count_free in *.
  split; [split; simpl; [rewrite u64_id; unfold count_free; lia|done]|]. left. split; [|lia].
  unfold page_claimed, page_free, same_outside, BITMAP_TEST in *. simpl.
  rewrite u64_id, bitmap_test_set, Z.eqb_refl by lia.
  split_and!; [done|done| |done].
  intros q Hq Hne. rewrite bitmap_test_set by lia. by rewrite (proj2 (Z.eqb_neq _ _) Hne).
Qed.

(** ** Initialisation from the E820 map *)

Definition first_page (e : memory_map_entry_t) : Z := ALIGN_UP (entry_base e) PAGE_SIZE / PAGE_SIZE.
Definition end_page (e : memory_map_entry_t) : Z :=
  ALIGN_DOWN (entry_base e +64 entry_length e) PAGE_SIZE / PAGE_SIZE.

(** Page [q] lies entirely inside the usable region [e]. *)
Definition usable_page (e : memory_map_entry_t) (q : Z) : bool :=
  (entry_type e =? MEMORY_TYPE_USABLE) && (first_page e <=? q) && (q <? end_page e).

(** The region does not wrap around the 64-bit address space. *)
Definition entry_ok (e : memory_map_entry_t) : bool :=
  (0 <=? entry_base e) && (0 <=? entry_length e) && (entry_base e + entry_length e + 4095 <? 2 ^ 64).

Definition overlap (e1 e2 : memory_map_entry_t) : bool :=
  (entry_type e1 =? MEMORY_TYPE_USABLE) && (entry_type e2 =? MEMORY_TYPE_USABLE)
  && (first_page e1 <? end_page e2) && (first_page e2 <? end_page e1).

Fixpoint no_overlap (l : list memory_map_entry_t) : bool :=
  match l with
  | [] => true
  | e :: l => forallb (λ e', negb (overlap e e')) l && no_overlap l
  end.

Lemma entry_pages e :
  entry_ok e = true →
  ALIGN_UP (entry_base e) PAGE_SIZE = first_page e * PAGE_SIZE
  ∧ ALIGN_DOWN (entry_base e +64 entry_length e) PAGE_SIZE = end_page e * PAGE_SIZE
  ∧ 0 <= first_page e ∧ end_page e * PAGE_SIZE < 2 ^ 64.
Proof.
  unfold entry_ok. intros Hok. to_prop. unfold first_page, end_page.
  rewrite ALIGN_UP_page, ALIGN_DOWN_page, u64_id by lia. unfold PAGE_SIZE.
  set (b := entry_base e) in *. set (l := entry_length e) in *.
  assert (Hdiv : ∀ x, x - x mod 4096 = x / 4096 * 4096).
  { intros x. pose proof (Z.div_mod x 4096 ltac:(lia)). lia. }
  rewrite !Hdiv, !Z.div_mul by lia.
  pose proof (Z.div_pos (b + 4095) 4096). pose proof (Z.mul_div_le (b + l) 4096).
  split_and!; [done|done|lia|lia].
Qed.

(** The page loop of one region, [n] pages from page [p]. *)
Lemma release_loop s p n :
  0 <= p → 0 <= n → (p + n) * PAGE_SIZE < 2 ^ 64 → 0 <= pmm_free_count s →
  pmm_free_count s + n < 2 ^ 64 →
  let s' := for_each 0 n (pmm_release (p * PAGE_SIZE)) s in
  (∀ q, 0 <= q < MM_MAX_PAGES → BITMAP_TEST s' q = negb (in_range p n q) && BITMAP_TEST s q)
  ∧ pmm_first_free_hint s' = pmm_first_free_hint s
  ∧ pmm_free_count s' = pmm_free_count s + Z.max 0 (Z.min (p + n) MM_MAX_PAGES - Z.min p MM_MAX_PAGES)
  ∧ ((∀ q, p <= q < p + n → q < MM_MAX_PAGES → ¬ page_free s q) →
     pmm_free_count s = count_free (pmm_bitmap s) 0 MM_MAX_PAGES →
     pmm_free_count s' = count_free (pmm_bitmap s') 0 MM_MAX_PAGES).
Proof.
  intros Hp Hn Hend Hf0 Hf. pose proof MM_MAX_PAGES_val as HM.
  apply (for_each_inv (λ i s',
    (∀ q, 0 <= q < MM_MAX_PAGES → BITMAP_TEST s' q = negb (in_range p i q) && BITMAP_TEST s q)
    ∧ pmm_first_free_hint s' = pmm_first_free_hint s
    ∧ pmm_free_count s' = pmm_free_count s + Z.max 0 (Z.min (p + i) MM_MAX_PAGES - Z.min p MM_MAX_PAGES)
    ∧ ((∀ q, p <= q < p + n → q < MM_MAX_PAGES → ¬ page_free s q) →
       pmm_free_count s = count_free (pmm_bitmap s) 0 MM_MAX_PAGES →
       pmm_free_count s' = count_free (pmm_bitmap s') 0 MM_MAX_PAGES))); [lia| |].
  { split_and!; [|done|lia|done]. intros q Hq. rewrite (proj2 (in_range_false _ _ _)) by lia. done. }
  intros i s' Hi (Ht & Hh & Hc & Hcount). unfold pmm_release, addr_to_pfn.
  rewrite u64_id by (unfold PAGE_SIZE in *; lia).
  replace (p * PAGE_SIZE + i * PAGE_SIZE) with ((p + i) * PAGE_SIZE) by lia.
  rewrite Z.div_mul by done. destruct (p + i <? MM_MAX_PAGES) eqn:E; to_prop.
  - simpl. rewrite u64_id by lia. split_and!; [|done|lia|].
    + intros q Hq. unfold BITMAP_TEST in *. simpl. rewrite bitmap_test_clear, Ht by lia.
      destruct (Z.eqb_spec q (p + i)) as [->|]; simpl.
      * by rewrite (proj2 (in_range_true p (i + 1) _)) by lia.
      * range_cases; simpl; done || lia.
    + intros Hu Heq. rewrite count_free_clear; [rewrite Hcount by done; done|lia|].
      unfold BITMAP_TEST in Ht. rewrite Ht by lia. rewrite (proj2 (in_range_false _ _ _)) by lia.
      specialize (Hu (p + i) ltac:(lia) ltac:(lia)). unfold page_free in Hu.
      simpl. by destruct (BITMAP_TEST s (p + i)) eqn:?.
  - split_and!; [|done|lia|done]. intros q Hq. rewrite Ht by done.
    range_cases; simpl; done || lia.
Qed.

(** Number of pages the loop of region [e] counts. *)
Definition region_pages (e : memory_map_entry_t) : Z :=
  if entry_type e =? MEMORY_TYPE_USABLE then
    Z.max 0 (Z.min (end_page e) MM_MAX_PAGES - Z.min (first_page e) MM_MAX_PAGES)
  else 0.

Lemma init_entry_effect s e :
  entry_ok e = true → 0 <= pmm_free_count s < 2 ^ 63 →
  let s' := pmm_init_entry s e in
  (∀ q, 0 <= q < MM_MAX_PAGES → BITMAP_TEST s' q = negb (usable_page e q) && BITMAP_TEST s q)
  ∧ pmm_first_free_hint s' = pmm_first_free_hint s
  ∧ pmm_free_count s' = pmm_free_count s + region_pages e
  ∧ ((∀ q, 0 <= q < MM_MAX_PAGES → usable_page e q = true → ¬ page_free s q) →
     pmm_free_count s = count_free (pmm_bitmap s) 0 MM_MAX_PAGES →
     pmm_free_count s' = count_free (pmm_bitmap s') 0 MM_MAX_PAGES).
Proof.
  intros Hok Hf. destruct (entry_pages e Hok) as (E1 & E2 & Hp & Hend).
  pose proof MM_MAX_PAGES_val as HM.
  unfold pmm_init_entry, region_pages, usable_page. rewrite E1, E2.
  destruct (entry_type e =? MEMORY_TYPE_USABLE) eqn:Et; cbn [andb negb].
  2: { split_and!; [done|done|lia|done]. }
  set (p := first_page e) in *. set (l := end_page e) in *.
  destruct (p * PAGE_SIZE <? l * PAGE_SIZE) eqn:El; unfold PAGE_SIZE in El, Hend; to_prop.
  - replace ((l * PAGE_SIZE - p * PAGE_SIZE) / PAGE_SIZE) with (l - p)
      by (rewrite <- Z.mul_sub_distr_r, Z.div_mul; done).
    destruct (release_loop s p (l - p)) as (Ht & Hh & Hc & Hcount); [lia|lia|unfold PAGE_SIZE; lia|lia|lia|].
    replace (p + (l - p)) with l in * by lia.
    unfold BITMAP_TEST in *. cbn. split_and!; [|done|done|].
    + intros q Hq. rewrite Ht by done. f_equal. f_equal. unfold in_range.
      by replace (p + (l - p)) with l by lia.
    + intros Hu. apply Hcount. intros q Hq1 Hq2. apply Hu; [lia|].
      rewrite (proj2 (Z.leb_le _ _)), (proj2 (Z.ltb_lt _ _)) by lia. done.
  - split_and!; [|done|lia|done]. intros q Hq.
    destruct (p <=? q) eqn:Ea, (q <? l) eqn:Eb; to_prop; done || lia.
Qed.

Lemma no_overlap_disjoint e l e' q :
  forallb (λ e', negb (overlap e e')) l = true → e' ∈ l →
  usable_page e q = true → usable_page e' q = true → False.
Proof.
  intros Hf Hin H1 H2. rewrite forallb_forall in Hf.
  specialize (Hf e' (proj1 (list_elem_of_In _ _) Hin)).
  unfold overlap, usable_page in *. to_prop.
  repeat match goal with H : (_ && _) = false |- _ => apply andb_false_iff in H as [?|?] end; zsolve.
Qed.

Lemma init_entries entries s :
  Forall (λ e, entry_ok e = true) entries → no_overlap entries = true → pmm_inv s →
  (∀ q e, 0 <= q < MM_MAX_PAGES → e ∈ entries → usable_page e q = true → ¬ page_free s q) →
  let s' := foldl pmm_init_entry s entries in
  pmm_inv s' ∧
  ∀ q, 0 <= q < MM_MAX_PAGES →
    (page_free s' q ↔ page_free s q ∨ ∃ e, e ∈ entries ∧ usable_page e q = true).
Proof.
  intros Hok. revert s. induction Hok as [|e l He Hok IH]; intros s Hno Hinv Hu; simpl.
  { split; [done|]. intros q Hq. split; [by left|]. intros [?|(e & He & _)]; [done|].
    by apply not_elem_of_nil in He. }
  simpl in Hno. apply andb_true_iff in Hno as [Hno1 Hno2].
  pose proof (free_count_range s). pose proof MM_MAX_PAGES_val. pose proof Hinv as [Hc Hh].
  destruct (init_entry_effect s e He) as (Ht & Hhint & _ & Hcount); [lia|].
  destruct (IH (pmm_init_entry s e) Hno2) as [Hinv' Hq'].
  { split; [apply Hcount; [|done]|by rewrite Hhint]. intros q Hq Hus. by apply (Hu q e); [|left|]. }
  { intros q e' Hq He' Hus. unfold page_free. rewrite Ht by done.
    destruct (usable_page e q) eqn:Eu; simpl.
    - by destruct (no_overlap_disjoint e l e' q Hno1 He' Eu Hus).
    - apply (Hu q e'); [done|by right|done]. }
  split; [done|]. intros q Hq. rewrite Hq' by done. unfold page_free. rewrite Ht by done.
  setoid_rewrite elem_of_cons. clear -q. rewrite andb_false_iff, negb_false_iff. split.
  - intros [[Hq|Hq] | (e0 & He & Hq)]; eauto 6.
  - intros [Hq | (e0 & [->|He] & Hq)]; eauto 6.
Qed.

Lemma reserve_pages_effect s p n :
  0 <= p → 0 <= n → p + n <= MM_MAX_PAGES → pmm_inv s →
  let s' := pmm_reserve_pages s (p * PAGE_SIZE) n in
  pmm_inv s' ∧
  ∀ q, 0 <= q → BITMAP_TEST s' q = in_range p n q || BITMAP_TEST s q.
Proof.
  intros Hp Hn Hend Hinv. pose proof MM_MAX_PAGES_val as HM.
  apply (for_each_inv (λ i s', pmm_inv s' ∧
    ∀ q, 0 <= q → BITMAP_TEST s' q = in_range p i q || BITMAP_TEST s q)); [lia| |].
  { split; [done|]. intros q Hq. by rewrite (proj2 (in_range_false _ _ _)) by lia. }
  intros i s' Hi [Hinv' Ht]. rewrite u64_id by (unfold PAGE_SIZE in *; lia).
  replace (p * PAGE_SIZE + i * PAGE_SIZE) with ((p + i) * PAGE_SIZE) by lia.
  destruct (reserve_page_outcome s' ((p + i) * PAGE_SIZE)) as [Hi' Ho]; [done|unfold PAGE_SIZE; lia|].
  rewrite Z.div_mul in Ho by done. split; [done|]. intros q Hq.
  destruct (decide (q = p + i)) as [->|Hne].
  - rewrite (proj2 (in_range_true p (i + 1) _)) by lia. simpl. unfold page_claimed, page_free in Ho.
    apply not_false_iff_true. intros E. destruct Ho as [(Ho & _) | [Ho [?|Hf]]].
    + destruct Ho as (_ & Hf & _). congruence.
    + lia.
    + rewrite Ho in E. congruence.
  - transitivity (BITMAP_TEST s' q).
    + destruct Ho as [(Ho & _) | [-> _]]; [|done]. destruct Ho as (_ & _ & Hs & _). by apply Hs.
    + rewrite Ht by done. range_cases; simpl; done || lia.
Qed.

(** Every page starts out used. *)
Lemma all_used_inv s m t h :
  let s0 := Pmm (fill m 0 0xFF MM_PMM_BITMAP_SIZE) t 0 s 0 h in
  pmm_inv s0 ∧ ∀ q, 0 <= q < MM_MAX_PAGES → ¬ page_free s0 q.
Proof.
  simpl. pose proof MM_MAX_PAGES_val as HM.
  assert (Ht : ∀ q, 0 <= q < MM_MAX_PAGES → bitmap_test (fill m 0 255 MM_PMM_BITMAP_SIZE) 0 q = true).
  { intros q Hq. rewrite bitmap_test_bit by lia. unfold fill.
    rewrite (proj2 (in_range_true _ _ _)).
    - pose proof (Z.mod_pos_bound q 8 ltac:(lia)). change (u8 255) with (Z.ones 8).
      apply Z.ones_spec_low. lia.
    - unfold MM_PMM_BITMAP_SIZE. pose proof (Z.div_pos q 8). pose proof (Z.div_lt_upper_bound q 8 0x100000). lia. }
  split; [split; simpl; [|lia]|intros q Hq; unfold page_free, BITMAP_TEST; simpl; rewrite Ht; done].
  symmetry. apply countZ_all_false. intros q Hq. by rewrite Ht.
Qed.

(** The first 4 MB: BIOS area, kernel image, PMM bitmap and page tables. *)
Definition RESERVED_PAGES : Z := (MM_PAGE_TABLES_START + MM_PAGE_TABLES_SIZE) / PAGE_SIZE.

Lemma hint_test s f r h q : BITMAP_TEST (with_bitmap s (pmm_bitmap s) f r h) q = BITMAP_TEST s q.
Proof. done. Qed.

Lemma total_pages_test s t q :
  BITMAP_TEST (Pmm (pmm_bitmap s) t (pmm_free_count s) (pmm_reserved_pages s)
                 (pmm_first_free_hint s) (pmm_total_memory s)) q = BITMAP_TEST s q.
Proof. done. Qed.

Lemma init_outcome entries s :
  Forall (λ e, entry_ok e = true) entries → no_overlap entries = true →
  pmm_init (Some entries) pmm_zero = Some s →
  pmm_inv s ∧
  ∀ q, 0 <= q < MM_MAX_PAGES →
    (page_free s q ↔ RESERVED_PAGES <= q ∧ ∃ e, e ∈ entries ∧ usable_page e q = true).
Proof.
  intros Hok Hno. unfold pmm_init. destruct entries as [|e0 l0] eqn:El; [done|]. rewrite <- El in *.
  clear El e0 l0. pose proof MM_MAX_PAGES_val as HM. cbv zeta.
  destruct (all_used_inv 0 (λ _, 0) 0 0) as [Hi0 Hu0].
  set (s0 := Pmm _ _ _ _ _ _) in Hi0, Hu0.
  change (Pmm (fill (pmm_bitmap pmm_zero) _ _ _) _ _ _ _ _) with s0.
  destruct (init_entries entries s0 Hok Hno Hi0) as [Hi1 Hp1]; [auto|].
  set (s1 := foldl pmm_init_entry s0 entries) in *.
  set (s1' := Pmm (pmm_bitmap s1) (pmm_free_count s1) _ _ _ _).
  assert (Hi1' : pmm_inv s1') by (destruct Hi1; by split).
  destruct (reserve_pages_effect s1' 0 256) as [Hi2 Ht2]; [lia..|done|].
  destruct (reserve_pages_effect (pmm_reserve_pages s1' 0 256) 256 256) as [Hi3 Ht3]; [lia..|done|].
  set (s3 := pmm_reserve_pages (pmm_reserve_pages s1' 0 256) (256 * PAGE_SIZE) 256) in *.
  destruct (reserve_pages_effect s3 512 256) as [Hi4 Ht4]; [lia..|done|].
  destruct (reserve_pages_effect (pmm_reserve_pages s3 (512 * PAGE_SIZE) 256) 768 256) as [Hi5 Ht5]; [lia..|done|].
  set (s5 := pmm_reserve_pages (pmm_reserve_pages s3 (512 * PAGE_SIZE) 256) (768 * PAGE_SIZE) 256) in *.
  intros E. assert (∃ h, 0 <= h <= MM_MAX_PAGES ∧ s = with_bitmap s5 (pmm_bitmap s5) (pmm_free_count s5) (pmm_reserved_pages s5) h)
    as (h & Hh & ->).
  { injection E as <-. eexists. split; [|done].
    match goal with |- context [find_first ?a ?b ?p] => pose proof (find_first_spec a b p) as Hff;
      destruct (find_first a b p) end; simpl; lia. }
  split; [destruct Hi5; by split|]. intros q Hq.
  unfold page_free at 1. rewrite hint_test.
  rewrite Ht5, Ht4, Ht3, Ht2 by lia. unfold s1'. rewrite total_pages_test.
  rewrite !orb_false_iff, !in_range_false. fold (page_free s1 q). rewrite Hp1 by done.
  unfold RESERVED_PAGES. change ((_ + _) / _) with 1024. split.
  - intros (? & ? & ? & ? & [Hf|?]); [by destruct (Hu0 q Hq)|]. split; [lia|done].
  - intros [? ?]. split_and!; [lia..|by right].
Qed.

(** C31. Initialisation from an E820 map whose usable regions neither wrap nor
    overlap: the free counter equals the number of clear bits, and a page is
    free exactly when it lies inside a usable region and above the reserved
    first 4 MB. *)
Theorem pmm_init_spec entries s :
  Forall (λ e, entry_ok e = true) entries → no_overlap entries = true →
  pmm_init (Some entries) pmm_zero = Some s →
  pmm_inv s ∧
  ∀ q, 0 <= q < MM_MAX_PAGES →
    (page_free s q ↔ RESERVED_PAGES <= q ∧ ∃ e, e ∈ entries ∧ usable_page e q = true).
Proof. apply init_outcome. Qed.

(** Overlapping usable regions: processing a usable region a second time
    leaves every page as it was but counts the region's pages again, so the
    free counter no longer is the number of free pages. *)
Theorem pmm_init_counts_overlap_twice s e :
  entry_ok e = true → pmm_inv s → 0 < region_pages e →
  let s1 := pmm_init_entry s e in
  let s2 := pmm_init_entry s1 e in
  (∀ q, 0 <= q < MM_MAX_PAGES → BITMAP_TEST s2 q = BITMAP_TEST s1 q)
  ∧ pmm_free_count s2 = pmm_free_count s1 + region_pages e.
Proof.
  intros Hok Hinv Hpos. destruct Hinv as [Hc _]. pose proof (free_count_range s).
  pose proof MM_MAX_PAGES_val. cbv zeta.
  destruct (init_entry_effect s e Hok) as (Ht1 & _ & Hc1 & _); [lia|].
  assert (region_pages e <= MM_MAX_PAGES).
  { destruct (entry_pages e Hok) as (_ & _ & ? & _). unfold region_pages. case_if; lia. }
  destruct (init_entry_effect (pmm_init_entry s e) e Hok) as (Ht2 & _ & Hc2 & _); [lia|].
  split; [|done]. intros q Hq. rewrite Ht2, Ht1 by done. by destruct (usable_page e q).
Qed.

(** A run that spans the allocation hint is missed: with [h - 1] and [h]
    the only free pages and the hint at [h], a request for two contiguous pages
    reports out of memory although both pages are free. *)
Theorem pmm_alloc_pages_misses_run s h :
  pmm_inv s → pmm_first_free_hint s = h → 0 < h < MM_MAX_PAGES →
  (∀ q, 0 <= q < MM_MAX_PAGES → (page_free s q ↔ q = h - 1 ∨ q = h)) →
  run_free s (h - 1) 2 ∧ pmm_alloc_pages s 2 = (0, s).
Proof.
  intros Hinv Hh Hr Hfree. split; [intros q Hq; apply Hfree; lia|].
  destruct (pmm_alloc_pages s 2) as [addr s'] eqn:E.
  assert (Hn1 : no_run s 2 h MM_MAX_PAGES).
  { intros st Hst Hend Hrun. assert (page_free s (st + 1)) as ?%Hfree by (apply Hrun; lia); lia. }
  assert (Hn2 : no_run s 2 0 h).
  { intros st Hst Hend Hrun. assert (page_free s st) as ?%Hfree by (apply Hrun; lia); lia. }
  unfold pmm_alloc_pages in E. simpl in E. rewrite Hh in E.
  pose proof (find_run_spec s 2 h MM_MAX_PAGES 0 ltac:(lia) ltac:(lia)) as H1.
  destruct (find_run s 2 h MM_MAX_PAGES (0, 0)) as [st1 f1].
  destruct H1 as [(_ & H1 & H2 & H3) | [Hf1 _]]; [by destruct (Hn1 st1 H1 H2)|].
  rewrite (proj2 (Z.ltb_lt f1 2) Hf1) in E.
  pose proof (find_run_spec s 2 0 h st1 ltac:(lia) ltac:(lia)) as H4.
  destruct (find_run s 2 0 h (st1, 0)) as [st2 f2].
  destruct H4 as [(_ & H1 & H2 & H3) | [Hf2 _]]; [by destruct (Hn2 st2 H1 H2)|].
  by rewrite (proj2 (Z.ltb_lt f2 2) Hf2) in E.
Qed.

(** ** Ownership

    Clients allocate pages, free pages they own and reserve pages nobody
    owns; [own] is the set of page numbers currently handed out. *)

Inductive pmm_step : pmm * gset Z → pmm * gset Z → Prop :=
  | step_alloc s own addr s' :
      pmm_alloc_page s = (addr, s') → addr ≠ 0 →
      pmm_step (s, own) (s', {[addr / PAGE_SIZE]} ∪ own)
  | step_alloc_oom s own s' :
      pmm_alloc_page s = (0, s') → pmm_step (s, own) (s', own)
  | step_alloc_run s own count addr s' :
      2 <= count < 2 ^ 64 → pmm_alloc_pages s count = (addr, s') → addr ≠ 0 →
      pmm_step (s, own) (s', list_to_set (seqZ (addr / PAGE_SIZE) count) ∪ own)
  | step_alloc_run_oom s own count s' :
      2 <= count < 2 ^ 64 → pmm_alloc_pages s count = (0, s') → pmm_step (s, own) (s', own)
  | step_free s own pfn :
      pfn ∈ own → pmm_step (s, own) (pmm_free_page s (pfn * PAGE_SIZE), own ∖ {[pfn]})
  | step_reserve s own addr :
      0 <= addr → pmm_step (s, own) (pmm_reserve_page s addr, own).

Definition owned_inv (st : pmm * gset Z) : Prop :=
  pmm_inv st.1
  ∧ (∀ p, p ∈ st.2 → RESERVED_PAGES <= p < MM_MAX_PAGES ∧ ¬ page_free st.1 p)
  ∧ (∀ p, 0 <= p < RESERVED_PAGES → ¬ page_free st.1 p).

Lemma RESERVED_PAGES_val : RESERVED_PAGES = 1024.
Proof. done. Qed.

(** A transition that leaves the used pages used keeps the ownership facts. *)
Lemma owned_inv_grow s s' own own' :
  owned_inv (s, own) → pmm_inv s' →
  (∀ p, 0 <= p → ¬ page_free s p → ¬ page_free s' p) →
  (∀ p, p ∈ own' → p ∈ own ∨ RESERVED_PAGES <= p < MM_MAX_PAGES ∧ ¬ page_free s' p) →
  owned_inv (s', own').
Proof.
  intros (Hi & Ho & Hr) Hi' Hmono Hown. pose proof RESERVED_PAGES_val. split_and!; [done| |].
  - intros p [Hp|Hp]%Hown; [|done]. destruct (Ho p Hp) as [? Hu]. split; [done|].
    simpl. apply Hmono; [lia|done].
  - intros p Hp. simpl. apply Hmono; [lia|]. by apply Hr.
Qed.

(** A page handed out by a state that satisfies the invariant is fresh. *)
Lemma alloc_fresh s own p :
  owned_inv (s, own) → 0 <= p → page_free s p → RESERVED_PAGES <= p ∧ p ∉ own.
Proof.
  intros (Hi & Ho & Hr) Hp Hf. split.
  - destruct (decide (RESERVED_PAGES <= p)); [done|]. destruct (Hr p); [lia|done].
  - intros Hin. by destruct (Ho p Hin).
Qed.

Lemma owned_inv_step st st' : pmm_step st st' → owned_inv st → owned_inv st'.
Proof.
  intros Hstep Hinv. pose proof MM_MAX_PAGES_val as HM. pose proof RESERVED_PAGES_val as HR.
  destruct Hstep as [s own addr s' E Ha|s own s' E|s own count addr s' Hc E Ha
    |s own count s' Hc E|s own pfn Hin|s own addr Ha]; pose proof (proj1 Hinv) as Hi; simpl in Hi.
  - destruct (alloc_page_outcome s addr s' Hi E) as [Hi' [(p & -> & Hp & Hf & Hu & Hs & _)|[? _]]]; [|done].
    rewrite Z.div_mul by done. apply (owned_inv_grow s s' own); auto.
    + intros q Hq Hqu. destruct (decide (q = p)) as [->|]; [done|]. unfold page_free. by rewrite Hs.
    + intros q Hq. apply elem_of_union in Hq as [->%elem_of_singleton|?]; [right|by left].
      destruct (alloc_fresh s own p Hinv) as [? _]; [lia|done|]. split; [lia|done].
  - destruct (alloc_page_outcome s 0 s' Hi E) as [Hi' [(p & E0 & Hp & Hf & _)|(_ & -> & _)]]; [|done].
    destruct (alloc_fresh s own p Hinv) as [? _]; [lia|done|]. unfold PAGE_SIZE in *. lia.
  - destruct (alloc_pages_outcome s count addr s' Hi Hc E) as [Hi' [(st & -> & H1 & H2 & Hf & Hs & _)|[? _]]]; [|done].
    rewrite Z.div_mul by done. apply (owned_inv_grow s s' own); auto.
    + intros q Hq Hqu. unfold page_free in *. rewrite Hs by done.
      destruct (BITMAP_TEST s q); [by rewrite orb_true_r|done].
    + intros q Hq. apply elem_of_union in Hq as [Hq%elem_of_list_to_set%elem_of_seqZ|?]; [right|by left].
      destruct (alloc_fresh s own q Hinv) as [? _]; [lia|apply Hf; lia|]. split; [lia|].
      unfold page_free. rewrite Hs by lia. by rewrite (proj2 (in_range_true _ _ _)) by lia.
  - destruct (alloc_pages_outcome s count 0 s' Hi Hc E) as [Hi' [(st & E0 & H1 & _ & Hf & _)|(_ & -> & _)]]; [|done].
    destruct (alloc_fresh s own st Hinv) as [? _]; [lia|apply Hf; lia|]. unfold PAGE_SIZE in *. lia.
  - destruct Hinv as (_ & Ho & Hr). destruct (Ho pfn Hin) as [Hp Hu]. simpl in *.
    destruct (free_page_outcome s (pfn * PAGE_SIZE) Hi ltac:(unfold PAGE_SIZE; lia)) as [Hi' Hout].
    rewrite Z.div_mul in Hout by done.
    destruct Hout as [((_ & _ & Hs & _) & _)|[-> _]].
    2: { split_and!; [done| |done]. simpl. intros p Hin'. apply Ho. set_solver. }
    split_and!; [done| |]; simpl.
    + intros p [Hin' Hne]%elem_of_difference. destruct (Ho p Hin') as [? Hpu]. split; [done|].
      unfold page_free. rewrite Hs; [done|lia|set_solver].
    + intros p Hpr. unfold page_free. rewrite Hs; [by apply Hr|lia|lia].
  - destruct (reserve_page_outcome s addr Hi Ha) as [Hi' [((_ & Hu & Hs & _) & _)|[-> _]]]; [|done].
    apply (owned_inv_grow s (pmm_reserve_page s addr) own); auto.
    intros q Hq Hqu. destruct (decide (q = addr / PAGE_SIZE)) as [->|]; [done|].
    unfold page_free. by rewrite Hs.
Qed.

Lemma owned_inv_steps st st' : rtc pmm_step st st' → owned_inv st → owned_inv st'.
Proof. induction 1; eauto using owned_inv_step. Qed.

Lemma owned_inv_init entries s :
  Forall (λ e, entry_ok e = true) entries → no_overlap entries = true →
  pmm_init (Some entries) pmm_zero = Some s → owned_inv (s, ∅).
Proof.
  intros Hok Hno E. destruct (init_outcome entries s Hok Hno E) as [Hi Hp].
  pose proof MM_MAX_PAGES_val. pose proof RESERVED_PAGES_val.
  split_and!; [done|set_solver|]. intros p Hpr. simpl. rewrite Hp by lia. intros [? _]. lia.
Qed.

(** C7. No page is handed out twice.  After [pmm_init] and any sequence of
    allocations, frees of owned pages and reservations, a page returned by
    [pmm_alloc_page] and every page of a run returned by [pmm_alloc_pages] is
    page aligned, lies above the reserved 4 MB, and is owned by nobody. *)
Theorem pmm_no_double_allocation entries s0 s own :
  Forall (λ e, entry_ok e = true) entries → no_overlap entries = true →
  pmm_init (Some entries) pmm_zero = Some s0 → rtc pmm_step (s0, ∅) (s, own) →
  (∀ addr s', pmm_alloc_page s = (addr, s') → addr ≠ 0 →
     addr mod PAGE_SIZE = 0 ∧ 0x400000 <= addr ∧ addr / PAGE_SIZE ∉ own)
  ∧ (∀ count addr s' p, 2 <= count < 2 ^ 64 → pmm_alloc_pages s count = (addr, s') → addr ≠ 0 →
     addr / PAGE_SIZE <= p < addr / PAGE_SIZE + count →
     addr mod PAGE_SIZE = 0 ∧ 0x400000 <= addr ∧ p ∉ own).
Proof.
  intros Hok Hno E Hsteps.
  assert (Hinv : owned_inv (s, own)) by eauto using owned_inv_steps, owned_inv_init.
  pose proof (proj1 Hinv) as Hi. simpl in Hi. pose proof RESERVED_PAGES_val. split.
  - intros addr s' Ea Ha.
    destruct (alloc_page_outcome s addr s' Hi Ea) as [_ [(p & -> & Hp & Hf & _)|[? _]]]; [|done].
    destruct (alloc_fresh s own p Hinv) as [? ?]; [lia|done|].
    rewrite Z.div_mul, Z_mod_mult by done. split_and!; [done|unfold PAGE_SIZE; lia|done].
  - intros count addr s' p Hc Ea Ha Hp.
    destruct (alloc_pages_outcome s count addr s' Hi Hc Ea) as [_ [(st & -> & H1 & H2 & Hf & _)|[? _]]]; [|done].
    rewrite Z.div_mul in Hp by done. rewrite Z_mod_mult.
    destruct (alloc_fresh s own st Hinv) as [? _]; [lia|apply Hf; lia|].
    destruct (alloc_fresh s own p Hinv) as [_ ?]; [lia|apply Hf; lia|].
    split_and!; [done|unfold PAGE_SIZE; lia|done].
Qed.

(** ** Witnesses *)

(** Every page used; then pages 1279 and 1280 free with the hint at 1280. *)
Definition full_state : pmm := Pmm (fill (λ _, 0) 0 0xFF MM_PMM_BITMAP_SIZE) 0 0 0 0 0.
Definition one_free : pmm := with_bitmap full_state (bitmap_clear (pmm_bitmap full_state) 0 1280) 1 0 1280.
Definition two_free : pmm := with_bitmap one_free (bitmap_clear (pmm_bitmap one_free) 0 1279) 2 0 1280.

Lemma full_state_inv : pmm_inv full_state.
Proof. apply all_used_inv. Qed.

Lemma one_free_ok : pmm_inv one_free ∧ page_released full_state one_free 1280.
Proof.
  apply (clear_page_inv full_state 1280 0 1280 full_state_inv);
    rewrite ?MM_MAX_PAGES_val; lia || reflexivity.
Qed.

Lemma two_free_ok : pmm_inv two_free ∧ page_released one_free two_free 1279.
Proof.
  apply (clear_page_inv one_free 1279 0 1280 (proj1 one_free_ok));
    rewrite ?MM_MAX_PAGES_val; lia || reflexivity.
Qed.

Lemma two_free_pages q : 0 <= q < MM_MAX_PAGES → (page_free two_free q ↔ q = 1279 ∨ q = 1280).
Proof.
  intros Hq. destruct two_free_ok as (_ & _ & H1 & Hs1 & _), one_free_ok as (_ & _ & H2 & Hs2 & _).
  destruct (decide (q = 1279)) as [->|]; [by split; [left|]|].
  destruct (decide (q = 1280)) as [->|].
  { split; [by right|]. intros _. unfold page_free. by rewrite Hs1 by lia. }
  split; [|lia]. unfold page_free. rewrite Hs1, Hs2 by lia. intros Hf.
  by destruct (proj2 (all_used_inv 0 (λ _, 0) 0 0) q Hq).
Qed.

Lemma pmm_alloc_page_spec_witness :
  pmm_alloc_page one_free = (0x500000, take_page one_free 1280)
  ∧ pmm_inv (take_page one_free 1280).
Proof.
  assert (E : pmm_alloc_page one_free = (0x500000, take_page one_free 1280)) by reflexivity.
  split; [exact E|]. exact (proj1 (pmm_alloc_page_spec _ _ _ (proj1 one_free_ok) E)).
Defined.

Lemma pmm_alloc_pages_spec_witness : pmm_inv (pmm_alloc_pages two_free 3).2.
Proof.
  destruct (pmm_alloc_pages_spec two_free 3 (pmm_alloc_pages two_free 3).1
    (pmm_alloc_pages two_free 3).2 (proj1 two_free_ok)) as [H _]; [lia|apply surjective_pairing|exact H].
Defined.

Lemma pmm_free_page_spec_witness :
  pmm_inv (pmm_free_page full_state 0x500123) ∧ pmm_free_count (pmm_free_page full_state 0x500123) = 1.
Proof.
  split; [|reflexivity].
  exact (proj1 (pmm_free_page_spec full_state 0x500123 full_state_inv ltac:(lia))).
Defined.

Lemma pmm_alloc_pages_misses_run_witness :
  run_free two_free 1279 2 ∧ pmm_alloc_pages two_free 2 = (0, two_free).
Proof.
  apply (pmm_alloc_pages_misses_run two_free 1280 (proj1 two_free_ok) eq_refl).
  - rewrite MM_MAX_PAGES_val. lia.
  - exact two_free_pages.
Defined.

(** A map with a reserved hole and a usable region from 5 MB on. *)
Definition sample_map : list memory_map_entry_t :=
  [MemEntry 0 0x9F000 1; MemEntry 0x9F000 0x61000 2; MemEntry 0x500000 0x10000 1].

Lemma pmm_init_spec_witness :
  ∃ s, pmm_init (Some sample_map) pmm_zero = Some s ∧ pmm_inv s ∧ page_free s 0x500
       ∧ ¬ page_free s 5.
Proof.
  eexists. split; [reflexivity|].
  match goal with |- pmm_inv ?s ∧ _ => destruct (pmm_init_spec sample_map s) as [Hi Hp] end;
    [repeat constructor|reflexivity|reflexivity|].
  split; [exact Hi|]. rewrite !Hp by (rewrite MM_MAX_PAGES_val; lia). split.
  - split; [by rewrite RESERVED_PAGES_val|]. exists (MemEntry 0x500000 0x10000 1).
    split; [by do 2 right; left|reflexivity].
  - rewrite RESERVED_PAGES_val. intros [? _]. lia.
Defined.

Lemma pmm_no_double_allocation_witness :
  ∃ s, pmm_init (Some sample_map) pmm_zero = Some s ∧
  ∀ addr s', pmm_alloc_page s = (addr, s') → addr ≠ 0 → 0x400000 <= addr.
Proof.
  eexists. split; [reflexivity|]. intros addr s' E Ha.
  refine (proj1 (proj2 (proj1 (pmm_no_double_allocation sample_map _ _ ∅ _ _ _ (rtc_refl _ _)) addr s' E Ha)));
    [repeat constructor|reflexivity|reflexivity].
Defined.

Lemma pmm_init_counts_overlap_twice_witness :
  let e := MemEntry 0x500000 0x10000 1 in
  pmm_free_count (pmm_init_entry (pmm_init_entry full_state e) e)
  = pmm_free_count (pmm_init_entry full_state e) + 16.
Proof.
  exact (proj2 (pmm_init_counts_overlap_twice full_state (MemEntry 0x500000 0x10000 1)
    eq_refl full_state_inv eq_refl)).
Defined.
