(* ===== verification/Heap.v ===== *)
(** * Kernel heap: kernel/mm/heap.c

    The first-fit allocator with block coalescing, on byte memory: a block
    header is the 32-byte [heap_block_t] at its address, and the operations
    read and write its fields there.  Pages come from an interface
    ([PageSource]) that stands for [pmm_alloc_page], [pmm_free_page] and
    [vmm_map_page].

    The abstract heap is the list of blocks that tile the heap region.  The
    theorems show that [kmalloc], [kfree] and [heap_expand] implement the
    first-fit, coalescing and growing operations on that list, under the
    condition that the block found is larger than the request by at least a
    header; and what happens without it. *)

From Stdlib Require Import ZArith Lia.
From stdpp Require Import base numbers list.
From S2P Require Import Prelude.
From S2P Require Import Mem.

(** ** Configuration: heap.h *)

Definition HEAP_START : Z := 0xFFFFFFFF81000000.
Definition HEAP_INITIAL_SIZE : Z := 4 * 1024 * 1024.
Definition HEAP_MAX_SIZE : Z := 240 * 1024 * 1024.
Definition HEAP_EXPAND_SIZE : Z := 1 * 1024 * 1024.
Definition HEAP_MIN_BLOCK : Z := 32.
Definition HEAP_ALIGNMENT : Z := 16.
Definition HEAP_BLOCK_MAGIC : Z := 0xDEADBEEF.
Definition HEAP_BLOCK_FREE : Z := 0.
Definition HEAP_BLOCK_USED : Z := 1.
Definition PTE_KERNEL_RW : Z := 3.

(** [sizeof(heap_block_t)]: two 32-bit and three 64-bit fields. *)
Definition sizeof_heap_block_t : Z := 32.
Definition HEAP_HEADER_SIZE : Z := ALIGN_UP sizeof_heap_block_t HEAP_ALIGNMENT.

(** The fields of the header at [b]. *)
Definition blk_magic (m : mem) (b : Z) : Z := load32 m b.
Definition blk_flags (m : mem) (b : Z) : Z := load32 m (b + 4).
Definition blk_size (m : mem) (b : Z) : Z := load64 m (b + 8).
Definition blk_next (m : mem) (b : Z) : Z := load64 m (b + 16).
Definition blk_prev (m : mem) (b : Z) : Z := load64 m (b + 24).

Definition set_magic (m : mem) (b v : Z) : mem := store32 m b v.
Definition set_flags (m : mem) (b v : Z) : mem := store32 m (b + 4) v.
Definition set_size (m : mem) (b v : Z) : mem := store64 m (b + 8) v.
Definition set_next (m : mem) (b v : Z) : mem := store64 m (b + 16) v.
Definition set_prev (m : mem) (b v : Z) : mem := store64 m (b + 24) v.

(** ** Block helpers *)

Definition block_to_ptr (block : Z) : Z := block +64 HEAP_HEADER_SIZE.
Definition ptr_to_block (ptr : Z) : Z := ptr -64 HEAP_HEADER_SIZE.

Definition block_valid (m : mem) (block : Z) : bool :=
  negb (block =? 0) && (blk_magic m block =? HEAP_BLOCK_MAGIC).

Definition block_split (m : mem) (block size : Z) : mem :=
  let remaining := (blk_size m block -64 size) -64 HEAP_HEADER_SIZE in
  if remaining <? HEAP_MIN_BLOCK then m
  else
    let new_block := (block +64 HEAP_HEADER_SIZE) +64 size in
    let m := set_magic m new_block HEAP_BLOCK_MAGIC in
    let m := set_flags m new_block HEAP_BLOCK_FREE in
    let m := set_size m new_block remaining in
    let m := set_prev m new_block block in
    let m := set_next m new_block (blk_next m block) in
    let m := if negb (blk_next m block =? 0) then set_prev m (blk_next m block) new_block else m in
    let m := set_next m block new_block in
    set_size m block size.

Definition block_merge_next (m : mem) (block : Z) : mem :=
  if blk_next m block =? 0 then m
  else if negb (blk_flags m (blk_next m block) =? HEAP_BLOCK_FREE) then m
  else if negb (block_valid m (blk_next m block)) then m
  else
    let next := blk_next m block in
    let m := set_size m block (blk_size m block +64 (HEAP_HEADER_SIZE +64 blk_size m next)) in
    let m := set_next m block (blk_next m next) in
    let m := if negb (blk_next m next =? 0) then set_prev m (blk_next m next) block else m in
    set_magic m next 0.

(** ** Pages *)

(** What the heap uses of the memory managers: the physical allocator and the
    kernel page mapper, on a state [W] of their own. *)
Class PageSource (W : Type) := {
  src_alloc_page : W → Z * W;
  src_free_page : Z → W → W;
  src_map_page : Z → Z → Z → W → bool * W
}.

(** The static variables of heap.c, the memory, and the page source. *)
Record heap (W : Type) := Heap {
  h_mem : mem;
  heap_first : Z;
  heap_size : Z;
  heap_break : Z;
  heap_alloc_count : Z;
  heap_free_count : Z;
  h_world : W
}.
Arguments Heap {W}.
Arguments h_mem {W}.
Arguments heap_first {W}.
Arguments heap_size {W}.
Arguments heap_break {W}.
Arguments heap_alloc_count {W}.
Arguments heap_free_count {W}.
Arguments h_world {W}.

Record heap_stats_t := HeapStats {
  st_total_size : Z;
  st_used_size : Z;
  st_free_size : Z;
  st_largest_free : Z;
  st_block_count : Z;
  st_free_block_count : Z;
  st_alloc_count : Z;
  st_free_count : Z
}.

Section operations.
Context {W : Type} `{PageSource W}.
Implicit Types h : heap W.

Definition with_mem h (m : mem) : heap W :=
  Heap m (heap_first h) (heap_size h) (heap_break h) (heap_alloc_count h) (heap_free_count h)
    (h_world h).
Definition with_world h (w : W) : heap W :=
  Heap (h_mem h) (heap_first h) (heap_size h) (heap_break h) (heap_alloc_count h)
    (heap_free_count h) w.

(** [heap_init]; [None] is a kernel panic. *)
Definition heap_init h : option (heap W) :=
  match for_ 0 (HEAP_INITIAL_SIZE / PAGE_SIZE) (λ i w,
          let '(page, w) := src_alloc_page w in
          if page =? 0 then Stop w
          else
            let '(ok, w) := src_map_page (HEAP_START +64 i * PAGE_SIZE) page PTE_KERNEL_RW w in
            if ok then Next w else Stop w) (h_world h) with
  | Stop _ => None
  | Next w =>
      let m := h_mem h in
      let m := set_magic m HEAP_START HEAP_BLOCK_MAGIC in
      let m := set_flags m HEAP_START HEAP_BLOCK_FREE in
      let m := set_size m HEAP_START (HEAP_INITIAL_SIZE -64 HEAP_HEADER_SIZE) in
      let m := set_next m HEAP_START 0 in
      let m := set_prev m HEAP_START 0 in
      Some (Heap m HEAP_START HEAP_INITIAL_SIZE (HEAP_START +64 HEAP_INITIAL_SIZE)
              (heap_alloc_count h) (heap_free_count h) w)
  end.

(** [while (last->next) last = last->next;] *)
Definition last_block (m : mem) (first : Z) : option Z :=
  while_ (λ last, negb (blk_next m last =? 0)) (blk_next m) first.

(** One page of an expansion: allocate and map it, giving the page back when
    the mapping fails. *)
Definition expand_page (brk i : Z) (w : W) : ctl W W :=
  let '(page, w) := src_alloc_page w in
  if page =? 0 then Stop w
  else
    let '(ok, w) := src_map_page (brk +64 i * PAGE_SIZE) page PTE_KERNEL_RW w in
    if ok then Next w else Stop (src_free_page page w).

Definition heap_expand h (min_size : Z) : option (bool * heap W) :=
  let expand_size := ALIGN_UP min_size PAGE_SIZE in
  if HEAP_MAX_SIZE <? heap_size h +64 expand_size then Some (false, h)
  else
    match for_ 0 (expand_size / PAGE_SIZE) (expand_page (heap_break h)) (h_world h) with
    | Stop w => Some (false, with_world h w)
    | Next w =>
        let m := h_mem h in
        let new_block := heap_break h in
        let m := set_magic m new_block HEAP_BLOCK_MAGIC in
        let m := set_flags m new_block HEAP_BLOCK_FREE in
        let m := set_size m new_block (expand_size -64 HEAP_HEADER_SIZE) in
        let m := set_next m new_block 0 in
        let m := set_prev m new_block 0 in
        last ← last_block m (heap_first h);
        let m := set_next m last new_block in
        let m := set_prev m new_block last in
        let m := if blk_flags m last =? HEAP_BLOCK_FREE then block_merge_next m last else m in
        Some (true, Heap m (heap_first h) (heap_size h +64 expand_size)
                      (heap_break h +64 expand_size) (heap_alloc_count h) (heap_free_count h) w)
    end.

(** Outcome of the first-fit search. *)
Inductive search := Found (block : Z) | Corrupted | Exhausted.

Definition search_step (m : mem) (size : Z) (block : Z) : ctl Z search :=
  if block =? 0 then Stop Exhausted
  else if negb (block_valid m block) then Stop Corrupted
  else if (blk_flags m block =? HEAP_BLOCK_FREE) && (size <=? blk_size m block) then Stop (Found block)
  else Next (blk_next m block).

Definition request_size (size : Z) : Z :=
  let size := ALIGN_UP size HEAP_ALIGNMENT in
  if size <? HEAP_MIN_BLOCK then HEAP_MIN_BLOCK else size.

(** [kmalloc] calls itself after each successful expansion.  Every expansion
    of a well-formed heap adds at least a page below the 240 MB limit, so the
    depth is bounded; [None] stands for a call that does not return. *)
Fixpoint kmalloc_fuel (fuel : nat) h (size : Z) : option (Z * heap W) :=
  match fuel with
  | O => None
  | S fuel =>
      if size =? 0 then Some (0, h)
      else
        let size := request_size size in
        r ← loop (search_step (h_mem h) size) (heap_first h);
        match r with
        | Corrupted => Some (0, h)
        | Found block =>
            let m := block_split (h_mem h) block size in
            let m := set_flags m block HEAP_BLOCK_USED in
            Some (block_to_ptr block,
                  Heap m (heap_first h) (heap_size h) (heap_break h) (heap_alloc_count h +64 1)
                    (heap_free_count h) (h_world h))
        | Exhausted =>
            let expand_size := Z.max (size +64 HEAP_HEADER_SIZE) HEAP_EXPAND_SIZE in
            '(ok, h) ← heap_expand h expand_size;
            if negb ok then Some (0, h) else kmalloc_fuel fuel h size
        end
  end.

Definition KMALLOC_FUEL : nat := 300.
Definition kmalloc h (size : Z) : option (Z * heap W) := kmalloc_fuel KMALLOC_FUEL h size.

Definition kzalloc h (size : Z) : option (Z * heap W) :=
  '(ptr, h) ← kmalloc h size;
  Some (ptr, if negb (ptr =? 0) then with_mem h (fill (h_mem h) ptr 0 size) else h).

Definition kmalloc_aligned h (size alignment : Z) : option (Z * heap W) :=
  if alignment <=? HEAP_ALIGNMENT then kmalloc h size
  else
    let total := (size +64 alignment) +64 8 in
    '(ptr, h) ← kmalloc h total;
    if ptr =? 0 then Some (0, h)
    else
      let addr := ptr +64 8 in
      let aligned := ALIGN_UP addr alignment in
      Some (aligned, with_mem h (store64 (h_mem h) (aligned -64 8) ptr)).

Definition kfree h (ptr : Z) : heap W :=
  if ptr =? 0 then h
  else
    let block := ptr_to_block ptr in
    if negb (block_valid (h_mem h) block) then h
    else if negb (blk_flags (h_mem h) block =? HEAP_BLOCK_USED) then h
    else
      let m := set_flags (h_mem h) block HEAP_BLOCK_FREE in
      let m := block_merge_next m block in
      let m := if negb (blk_prev m block =? 0) && (blk_flags m (blk_prev m block) =? HEAP_BLOCK_FREE)
               then block_merge_next m (blk_prev m block) else m in
      Heap m (heap_first h) (heap_size h) (heap_break h) (heap_alloc_count h)
        (heap_free_count h +64 1) (h_world h).

Definition krealloc h (ptr new_size : Z) : option (Z * heap W) :=
  if ptr =? 0 then kmalloc h new_size
  else if new_size =? 0 then Some (0, kfree h ptr)
  else
    let block := ptr_to_block ptr in
    let m := h_mem h in
    if negb (block_valid m block) then Some (0, h)
    else
      let new_size := ALIGN_UP new_size HEAP_ALIGNMENT in
      if new_size <=? blk_size m block then Some (ptr, h)
      else if negb (blk_next m block =? 0) && (blk_flags m (blk_next m block) =? HEAP_BLOCK_FREE)
              && (new_size <=? (blk_size m block +64 HEAP_HEADER_SIZE) +64 blk_size m (blk_next m block))
      then Some (ptr, with_mem h (block_split (block_merge_next m block) block new_size))
      else
        '(new_ptr, h) ← kmalloc h new_size;
        if new_ptr =? 0 then Some (0, h)
        else
          let h := with_mem h (copy (h_mem h) new_ptr ptr (blk_size (h_mem h) block)) in
          Some (new_ptr, kfree h ptr).

(** ** Statistics and validation *)

Definition stats_step (m : mem) (st : Z * heap_stats_t) : ctl (Z * heap_stats_t) heap_stats_t :=
  let '(block, s) := st in
  if block =? 0 then Stop s
  else if negb (block_valid m block) then Stop s
  else
    let size := blk_size m block in
    let s' :=
      if blk_flags m block =? HEAP_BLOCK_FREE then
        HeapStats (st_total_size s) (st_used_size s) (st_free_size s +64 size)
          (if st_largest_free s <? size then size else st_largest_free s)
          (st_block_count s +64 1) (st_free_block_count s +64 1) (st_alloc_count s) (st_free_count s)
      else
        HeapStats (st_total_size s) (st_used_size s +64 size) (st_free_size s) (st_largest_free s)
          (st_block_count s +64 1) (st_free_block_count s) (st_alloc_count s) (st_free_count s) in
    Next (blk_next m block, s').

Definition heap_get_stats h : option heap_stats_t :=
  loop (stats_step (h_mem h))
    (heap_first h, HeapStats (heap_size h) 0 0 0 0 0 (heap_alloc_count h) (heap_free_count h)).

Definition validate_step (m : mem) (st : Z * Z) : ctl (Z * Z) bool :=
  let '(block, prev) := st in
  if block =? 0 then Stop true
  else if negb (blk_magic m block =? HEAP_BLOCK_MAGIC) then Stop false
  else if negb (blk_prev m block =? prev) then Stop false
  else if negb (blk_flags m block =? HEAP_BLOCK_FREE) && negb (blk_flags m block =? HEAP_BLOCK_USED)
  then Stop false
  else Next (blk_next m block, block).

Definition heap_validate h : option bool :=
  loop (validate_step (h_mem h)) (heap_first h, 0).

End operations.

(** ** The abstract heap *)

(** A block: the size of its data area and whether it is allocated. *)
Record block := Block { b_size : Z; b_used : bool }.

Definition b_flags (b : block) : Z := if b_used b then HEAP_BLOCK_USED else HEAP_BLOCK_FREE.

(** Address after the blocks [bs] that start at [a]. *)
Fixpoint end_of (a : Z) (bs : list block) : Z :=
  match bs with
  | [] => a
  | b :: bs => end_of (a + 32 + b_size b) bs
  end.

(** Address of the last of the blocks, [p] when there is none. *)
Fixpoint last_of (p a : Z) (bs : list block) : Z :=
  match bs with
  | [] => p
  | b :: bs => last_of a (a + 32 + b_size b) bs
  end.

Definition first_of (a : Z) (bs : list block) (nxt : Z) : Z :=
  match bs with [] => nxt | _ => a end.

Definition size_ok (b : block) : Prop := 32 <= b_size b ∧ b_size b mod 16 = 0.

(** The header at [a] describes [b] and links to [prev] and [next]. *)
Record header (m : mem) (a : Z) (b : block) (prev next : Z) : Prop := {
  hd_magic : blk_magic m a = HEAP_BLOCK_MAGIC;
  hd_flags : blk_flags m a = b_flags b;
  hd_size : blk_size m a = b_size b;
  hd_next : blk_next m a = next;
  hd_prev : blk_prev m a = prev
}.

(** The blocks [bs] lie one after the other from [a] on, doubly linked between
    [p] and [nxt]. *)
Fixpoint seg (m : mem) (p a : Z) (bs : list block) (nxt : Z) : Prop :=
  match bs with
  | [] => True
  | b :: bs =>
      header m a b p (first_of (a + 32 + b_size b) bs nxt) ∧ size_ok b
      ∧ seg m a (a + 32 + b_size b) bs nxt
  end.

Record heap_wf {W} (h : heap W) (bs : list block) : Prop := {
  wf_first : heap_first h = HEAP_START;
  wf_nonempty : bs ≠ [];
  wf_seg : seg (h_mem h) 0 HEAP_START bs 0;
  wf_end : end_of HEAP_START bs = heap_break h;
  wf_break : heap_break h = HEAP_START + heap_size h;
  wf_size : 0 <= heap_size h <= HEAP_MAX_SIZE;
  wf_pages : heap_size h mod PAGE_SIZE = 0
}.

(** Addresses of the header bytes, and of the data bytes of allocated blocks. *)
Fixpoint in_headers (a : Z) (bs : list block) (x : Z) : Prop :=
  match bs with
  | [] => False
  | b :: bs => a <= x < a + 32 ∨ in_headers (a + 32 + b_size b) bs x
  end.

Fixpoint in_used (a : Z) (bs : list block) (x : Z) : Prop :=
  match bs with
  | [] => False
  | b :: bs => (b_used b = true ∧ a + 32 <= x < a + 32 + b_size b)
               ∨ in_used (a + 32 + b_size b) bs x
  end.

Lemma header_size_val : HEAP_HEADER_SIZE = 32.
Proof. done. Qed.
#[global] Opaque HEAP_HEADER_SIZE.

(** ** Segments *)

Lemma end_of_app a l1 l2 : end_of a (l1 ++ l2) = end_of (end_of a l1) l2.
Proof. revert a; induction l1; intros; simpl; auto. Qed.

Lemma last_of_app p a l1 l2 :
  last_of p a (l1 ++ l2) = last_of (last_of p a l1) (end_of a l1) l2.
Proof. revert p a; induction l1; intros; simpl; auto. Qed.

Lemma first_of_app a l1 l2 nxt :
  first_of a (l1 ++ l2) nxt = first_of a l1 (first_of (end_of a l1) l2 nxt).
Proof. by destruct l1. Qed.

Lemma seg_app m p a l1 l2 nxt :
  seg m p a (l1 ++ l2) nxt ↔
  seg m p a l1 (first_of (end_of a l1) l2 nxt) ∧ seg m (last_of p a l1) (end_of a l1) l2 nxt.
Proof.
  revert p a; induction l1 as [|b l1 IH]; intros p a; simpl; [tauto|].
  rewrite IH, first_of_app. tauto.
Qed.

Lemma seg_sizes m p a bs nxt : seg m p a bs nxt → Forall size_ok bs.
Proof.
  revert p a; induction bs as [|b bs IH]; intros p a; [done|].
  intros (_ & Hs & Hr). constructor; eauto.
Qed.

Lemma end_of_ge a bs : Forall size_ok bs → a + 64 * Z.of_nat (length bs) <= end_of a bs.
Proof.
  intros H. revert a. induction H as [|b bs [Hb _] _ IH]; intros a; cbn [end_of length]; [lia|].
  specialize (IH (a + 32 + b_size b)). lia.
Qed.

Lemma in_headers_bounds a bs x : Forall size_ok bs → in_headers a bs x → a <= x < end_of a bs.
Proof.
  intros H. revert a. induction H as [|b bs [Hb _] Hbs IH]; intros a; cbn [in_headers end_of]; [done|].
  pose proof (end_of_ge (a + 32 + b_size b) bs Hbs).
  intros [?|Hx]; [lia|]. apply IH in Hx. lia.
Qed.

Lemma header_ext m m' a b p n :
  agree_on m m' a 32 → header m a b p n → header m' a b p n.
Proof.
  intros Hag [H1 H2 H3 H4 H5]. unfold blk_magic, blk_flags, blk_size, blk_next, blk_prev in *.
  split; unfold blk_magic, blk_flags, blk_size, blk_next, blk_prev;
    [rewrite <- H1|rewrite <- H2|rewrite <- H3|rewrite <- H4|rewrite <- H5];
    symmetry; apply load_ext; intros x Hx; apply Hag; lia.
Qed.

(** A segment depends on its header bytes only. *)
Lemma seg_ext m m' p a bs nxt :
  (∀ x, in_headers a bs x → m x = m' x) → seg m p a bs nxt → seg m' p a bs nxt.
Proof.
  revert p a; induction bs as [|b bs IH]; intros p a Hag; [done|].
  intros (Hh & Hs & Hr). split_and!; [|done|].
  - apply (header_ext m); [|done]. intros x Hx. apply Hag. left. lia.
  - apply IH; [|done]. intros x Hx. apply Hag. by right.
Qed.

Lemma seg_agree m m' p a bs nxt :
  agree_on m m' a (end_of a bs - a) → seg m p a bs nxt → seg m' p a bs nxt.
Proof.
  intros Hag Hs. apply (seg_ext m); [|done]. intros x Hx.
  apply in_headers_bounds in Hx; [|by eapply seg_sizes]. apply Hag. lia.
Qed.

(** The first block of a segment gets a new [prev] link. *)
Lemma seg_set_prev m m' p p' a bs nxt :
  bs ≠ [] → seg m p a bs nxt → blk_prev m' a = p' →
  (∀ x, a <= x < end_of a bs → x < a + 24 ∨ a + 32 <= x → m x = m' x) →
  seg m' p' a bs nxt.
Proof.
  destruct bs as [|b bs]; [done|]. intros _ ([H1 H2 H3 H4 H5] & Hs & Hr) Hp Hag.
  pose proof (seg_sizes _ _ _ _ _ Hr) as Hsz. cbn [end_of] in Hag.
  pose proof (end_of_ge (a + 32 + b_size b) bs Hsz). destruct Hs as [Hs Hs'].
  split_and!; [|done|].
  - unfold blk_magic, blk_flags, blk_size, blk_next in *.
    split; [rewrite <- H1|rewrite <- H2|rewrite <- H3|rewrite <- H4|done];
      symmetry; apply load_ext; intros x Hx; apply Hag; lia.
  - apply (seg_agree m); [|done]. intros x Hx. apply Hag; lia.
Qed.

(** ** Splitting and merging *)

Ltac unfold_fields :=
  unfold blk_magic, blk_flags, blk_size, blk_next, blk_prev,
    set_magic, set_flags, set_size, set_next, set_prev,
    HEAP_BLOCK_MAGIC, HEAP_BLOCK_FREE, HEAP_BLOCK_USED in *.

Ltac frame := repeat rewrite store_ne by lia; try done.

(** Memory changes only in the headers of the given blocks. *)
Definition only_headers (m m' : mem) (a : Z) (bs : list block) : Prop :=
  ∀ x, ¬ in_headers a bs x → m' x = m x.

Section split.
Context (m : mem) (p a : Z) (b : block) (l2 : list block) (n : Z).
Context (Hseg : seg m p a (b :: l2) 0) (Ha : 0 < a) (Hend : end_of a (b :: l2) < 2 ^ 64).

Lemma seg_bounds :
  Forall size_ok l2 ∧ size_ok b ∧ a + 32 + b_size b + 64 * Z.of_nat (length l2) < 2 ^ 64.
Proof.
  destruct Hseg as (_ & Hb & Hs). apply seg_sizes in Hs.
  pose proof (end_of_ge (a + 32 + b_size b) l2 Hs). simpl in Hend. split_and!; [done|done|lia].
Qed.

(** Too small a rest: the block is left as it is. *)
Lemma split_none :
  0 <= n → n + 32 <= b_size b < n + 64 → block_split m a n = m.
Proof using Hend Hseg Ha.
  intros Hn Hrest. destruct seg_bounds as (_ & _ & ?). destruct Hseg as ([_ _ Hsz _ _] & _).
  unfold block_split. rewrite header_size_val, Hsz, (u64_id (b_size b - n)), u64_id by lia.
  rewrite (proj2 (Z.ltb_lt _ _)); [done|unfold HEAP_MIN_BLOCK; lia].
Qed.

Lemma split_seg :
  32 <= n → n mod 16 = 0 → n + 64 <= b_size b →
  let bs' := Block n (b_used b) :: Block (b_size b - n - 32) false :: l2 in
  seg (block_split m a n) p a bs' 0 ∧ only_headers m (block_split m a n) a bs'.
Proof using Hend Hseg Ha.
  intros Hn Hn16 Hrest. destruct seg_bounds as (Hl2 & [Hb Hb16] & Hlt).
  destruct Hseg as ([Hmg Hfl Hsz Hnx Hpv] & _ & Hs2).
  pose proof (end_of_ge (a + 32 + b_size b) l2 Hl2).
  assert (Hnew16 : (b_size b - n - 32) mod 16 = 0).
  { rewrite <- Z.sub_add_distr, Zminus_mod, Hb16, Zplus_mod, Hn16. done. }
  unfold block_split. rewrite header_size_val, Hsz, (u64_id (b_size b - n)), (u64_id (_ - 32)) by lia.
  rewrite (proj2 (Z.ltb_ge _ _)) by (unfold HEAP_MIN_BLOCK; lia).
  rewrite (u64_id (a + 32)), (u64_id (a + 32 + n)) by lia. unfold_fields.
  repeat rewrite (load_store_ne 8 _ _ (a + 16)) by lia. rewrite Hnx.
  destruct l2 as [|b2 l3]; simpl first_of.
  - simpl. split.
    + split_and!; try done; try (split; simpl; done || lia).
      * split; unfold_fields; mem_simpl; simpl; done || lia.
      * split; unfold_fields; simpl; mem_simpl; done.
    + intros x Hx. simpl in Hx. frame.
  - rewrite (proj2 (Z.eqb_neq (a + 32 + b_size b) 0)) by lia. cbn [negb]. split.
    + refine (conj _ (conj _ (conj _ (conj _ _)))); try (split; simpl; done || lia).
      * split; unfold_fields; simpl; mem_simpl; done || lia.
      * split; unfold_fields; simpl; mem_simpl; done || lia.
      * simpl b_size. replace (a + 32 + n + 32 + _) with (a + 32 + b_size b) by lia.
        apply (seg_set_prev m _ a _ _ (b2 :: l3)); [done|exact Hs2| |].
        -- unfold_fields. mem_simpl. done.
        -- intros x Hx1 Hx2. frame.
    + intros x Hx. simpl in Hx. frame.
Qed.

End split.

(** Coalescing on the abstract heap: the first block absorbs a free second. *)
Definition absorb (bs : list block) : list block :=
  match bs with
  | b1 :: b2 :: l => if b_used b2 then bs else Block (b_size b1 + 32 + b_size b2) (b_used b1) :: l
  | _ => bs
  end.

Lemma size_ok_merge b1 b2 u : size_ok b1 → size_ok b2 → size_ok (Block (b_size b1 + 32 + b_size b2) u).
Proof.
  intros [? E1] [? E2]. split; simpl; [lia|].
  rewrite Zplus_mod, E2, (Zplus_mod (b_size b1)), E1. done.
Qed.

Lemma header_valid m a b p n : 0 < a → header m a b p n → block_valid m a = true.
Proof.
  intros Ha [Hm _ _ _ _]. unfold block_valid. rewrite Hm, Z.eqb_refl.
  by rewrite (proj2 (Z.eqb_neq a 0)) by lia.
Qed.

Section merge.
Context (m : mem) (p a : Z) (b1 b2 : block) (l : list block).
Context (Hseg : seg m p a (b1 :: b2 :: l) 0) (Ha : 0 < a).
Context (Hend : end_of a (b1 :: b2 :: l) < 2 ^ 64).

Lemma merge_free :
  b_used b2 = false →
  let m' := block_merge_next m a in
  seg m' p a (Block (b_size b1 + 32 + b_size b2) (b_used b1) :: l) 0
  ∧ only_headers m m' a (b1 :: b2 :: l).
Proof using Hend Hseg Ha.
  intros Hfree. destruct Hseg as (Hh1 & Hs1 & Hh2 & Hs2 & Hl).
  pose proof (seg_sizes _ _ _ _ _ Hl) as Hsz.
  pose proof (size_ok_merge b1 b2 (b_used b1) Hs1 Hs2) as Hsm.
  cbn [end_of] in Hend. set (a2 := a + 32 + b_size b1) in *. set (a3 := a2 + 32 + b_size b2) in *.
  pose proof (end_of_ge a3 l Hsz). destruct Hs1 as [Hs1 _], Hs2 as [Hs2 _].
  pose proof (header_valid m a2 b2 _ _ ltac:(lia) Hh2) as Hval.
  destruct Hh1 as [Hm1 Hf1 Hz1 Hn1 Hp1], Hh2 as [Hm2 Hf2 Hz2 Hn2 Hp2]. simpl in Hn1.
  unfold block_merge_next. rewrite Hn1, Hf2, Hval.
  assert (b_flags b2 = HEAP_BLOCK_FREE) as -> by (unfold b_flags; by rewrite Hfree).
  rewrite (proj2 (Z.eqb_neq a2 0)), Z.eqb_refl by lia. cbn [negb].
  rewrite header_size_val, Hz1, Hz2, (u64_id (32 + _)), (u64_id (b_size b1 + _)) by lia.
  unfold_fields. repeat rewrite (load_store_ne 8 _ _ (a2 + 16)) by lia. rewrite Hn2.
  destruct l as [|b3 l3]; cbn [first_of].
  - simpl. split.
    + refine (conj _ (conj _ _)); [|done|done].
      split; unfold_fields; simpl; mem_simpl; done || lia.
    + intros x Hx. simpl in Hx. frame.
  - rewrite (proj2 (Z.eqb_neq a3 0)) by lia. cbn [negb]. split.
    + refine (conj _ (conj _ _)); [|done|].
      * split; unfold_fields; simpl; mem_simpl; done || lia.
      * cbn [b_size]. replace (a + 32 + (_ + 32 + _)) with a3 by lia.
        apply (seg_set_prev m _ a2 _ _ (b3 :: l3)); [done|exact Hl| |].
        -- unfold_fields. mem_simpl. done.
        -- intros x Hx1 Hx2. frame.
    + intros x Hx. simpl in Hx. frame.
Qed.

End merge.

(** [block_merge_next] implements [absorb]. *)
Lemma merge_seg m p a bs :
  seg m p a bs 0 → bs ≠ [] → 0 < a → end_of a bs < 2 ^ 64 →
  seg (block_merge_next m a) p a (absorb bs) 0
  ∧ only_headers m (block_merge_next m a) a bs.
Proof.
  intros Hseg Hne Ha Hend. destruct bs as [|b1 [|b2 l]]; [done| |].
  - assert (Hid : block_merge_next m a = m); [|by rewrite Hid].
    destruct Hseg as ([_ _ _ Hn _] & _). unfold block_merge_next. by rewrite Hn.
  - simpl absorb. destruct (b_used b2) eqn:Eu; [|by apply merge_free].
    assert (Hid : block_merge_next m a = m); [|by rewrite Hid].
    destruct Hseg as ([_ _ _ Hn _] & _ & [_ Hf _ _ _] & _). unfold block_merge_next.
    simpl in Hn. rewrite Hn, Hf. unfold b_flags. rewrite Eu. simpl. by case_if.
Qed.

Lemma absorb_sizes bs : Forall size_ok bs → Forall size_ok (absorb bs).
Proof.
  destruct bs as [|b1 [|b2 l]]; simpl; [done|done|]. destruct (b_used b2); [done|].
  rewrite !Forall_cons. intros (? & ? & ?). split; [by apply size_ok_merge|done].
Qed.

Lemma end_of_absorb a bs : end_of a (absorb bs) = end_of a bs.
Proof.
  destruct bs as [|b1 [|b2 l]]; simpl; [done|done|]. destruct (b_used b2); simpl; [done|].
  f_equal. lia.
Qed.

Lemma absorb_nonempty bs : bs ≠ [] → absorb bs ≠ [].
Proof. destruct bs as [|b1 [|b2 l]]; simpl; [done|done|]. by destruct (b_used b2). Qed.

(** ** The first-fit search *)

Definition fits (size : Z) (b : block) : bool := negb (b_used b) && (size <=? b_size b).

Lemma search_step_block m size p a b bs nxt :
  seg m p a (b :: bs) nxt → 0 < a →
  search_step m size a =
    if fits size b then Stop (Found a) else Next (first_of (a + 32 + b_size b) bs nxt).
Proof.
  intros (Hh & _ & _) Ha. pose proof (header_valid _ _ _ _ _ Ha Hh) as Hv.
  destruct Hh as [_ Hf Hs Hn _]. unfold search_step. rewrite Hv, Hf, Hs, Hn.
  rewrite (proj2 (Z.eqb_neq a 0)) by lia. unfold fits, b_flags. by destruct (b_used b).
Qed.

Lemma search_found m size p a l1 b l2 :
  seg m p a (l1 ++ b :: l2) 0 → 0 < a → Forall (λ b, fits size b = false) l1 → fits size b = true →
  runs (search_step m size) (S (length l1)) a (Found (end_of a l1)).
Proof.
  intros Hseg Ha Hno Hfit. revert p a Hseg Ha. induction Hno as [|c l1 Hc _ IH]; intros p a Hseg Ha.
  - apply runs_stop. erewrite search_step_block by done. by rewrite Hfit.
  - pose proof (seg_sizes _ _ _ _ _ Hseg) as Hsz. inversion_clear Hsz as [|? ? [Hcs _] _].
    eapply runs_next.
    + simpl app in Hseg. erewrite search_step_block by done. by rewrite Hc.
    + destruct Hseg as (_ & _ & Hseg). simpl. destruct l1 as [|c' l1']; simpl first_of.
      * eapply IH; [exact Hseg|lia].
      * eapply IH; [exact Hseg|lia].
Qed.

Lemma search_exhausted m size p a bs :
  seg m p a bs 0 → 0 < a → Forall (λ b, fits size b = false) bs →
  runs (search_step m size) (S (length bs)) (first_of a bs 0) Exhausted.
Proof.
  intros Hseg Ha Hno. revert p a Hseg Ha. induction Hno as [|c bs Hc _ IH]; intros p a Hseg Ha.
  - by apply runs_stop.
  - pose proof (seg_sizes _ _ _ _ _ Hseg) as Hsz. inversion_clear Hsz as [|? ? [Hcs _] _].
    eapply runs_next; [simpl first_of; erewrite search_step_block by done; by rewrite Hc|].
    destruct Hseg as (_ & _ & Hseg). eapply IH; [exact Hseg|lia].
Qed.

(** ** Whole-heap lemmas *)

Lemma seg_replace_tail m m' p a l1 t t' :
  seg m p a (l1 ++ t) 0 → t ≠ [] → t' ≠ [] →
  seg m' (last_of p a l1) (end_of a l1) t' 0 →
  (∀ x, x < end_of a l1 → m' x = m x) → seg m' p a (l1 ++ t') 0.
Proof.
  intros Hseg Ht Ht' Hs' Hlow. apply seg_app in Hseg as [H1 _]. apply seg_app. split; [|done].
  replace (first_of (end_of a l1) t' 0) with (first_of (end_of a l1) t 0) by (by destruct t, t').
  apply (seg_agree m); [|done]. intros x Hx. symmetry. apply Hlow. lia.
Qed.

Lemma only_headers_low m m' a bs x :
  Forall size_ok bs → only_headers m m' a bs → x < a → m' x = m x.
Proof. intros Hs Ho Hx. apply Ho. intros Hin%in_headers_bounds; [lia|done]. Qed.

Lemma in_used_bounds a bs x : Forall size_ok bs → in_used a bs x → a + 32 <= x < end_of a bs.
Proof.
  intros H. revert a. induction H as [|b bs [Hb _] Hbs IH]; intros a; cbn [in_used end_of]; [done|].
  pose proof (end_of_ge (a + 32 + b_size b) bs Hbs).
  intros [?|Hx]; [lia|]. apply IH in Hx. lia.
Qed.

Lemma in_used_app a l1 l2 x : in_used a (l1 ++ l2) x ↔ in_used a l1 x ∨ in_used (end_of a l1) l2 x.
Proof. revert a; induction l1 as [|b l1 IH]; intros a; simpl; [tauto|]. rewrite IH. tauto. Qed.

Lemma in_headers_app a l1 l2 x :
  in_headers a (l1 ++ l2) x ↔ in_headers a l1 x ∨ in_headers (end_of a l1) l2 x.
Proof. revert a; induction l1 as [|b l1 IH]; intros a; simpl; [tauto|]. rewrite IH. tauto. Qed.

(** Data of allocated blocks and headers do not overlap. *)
Lemma used_not_header a bs x : Forall size_ok bs → in_used a bs x → ¬ in_headers a bs x.
Proof.
  intros H. revert a. induction H as [|b bs [Hb _] Hbs IH]; intros a; cbn [in_used in_headers]; [done|].
  intros [[_ Hx]|Hx] [Hh|Hh].
  - lia.
  - apply in_headers_bounds in Hh; [lia|done].
  - apply in_used_bounds in Hx; [lia|done].
  - by apply (IH _ Hx).
Qed.

Lemma end_of_aligned a bs : a mod 16 = 0 → Forall size_ok bs → end_of a bs mod 16 = 0.
Proof.
  intros Ha H. revert a Ha. induction H as [|b bs [_ Hb] _ IH]; intros a Ha; cbn [end_of]; [done|].
  apply IH. rewrite Zplus_mod, Hb, (Zplus_mod a), Ha. done.
Qed.

Section wf.
Context {W : Type} (h : heap W) (bs : list block) (Hwf : heap_wf h bs).

Lemma wf_sizes : Forall size_ok bs.
Proof using Hwf. eapply seg_sizes, wf_seg, Hwf. Qed.

Lemma wf_limit : end_of HEAP_START bs < 2 ^ 64 ∧ Z.of_nat (length bs) < 2 ^ 32.
Proof using Hwf.
  pose proof (end_of_ge HEAP_START bs wf_sizes). destruct Hwf as [_ _ _ He Hb Hs _].
  unfold HEAP_START, HEAP_MAX_SIZE in *. lia.
Qed.

Lemma wf_block l1 b l2 :
  bs = l1 ++ b :: l2 →
  seg (h_mem h) (last_of 0 HEAP_START l1) (end_of HEAP_START l1) (b :: l2) 0
  ∧ Forall size_ok l1 ∧ 0 < end_of HEAP_START l1
  ∧ end_of (end_of HEAP_START l1) (b :: l2) < 2 ^ 64.
Proof using Hwf.
  pose proof (wf_seg _ _ Hwf) as Hs. pose proof wf_sizes as Hz.
  destruct wf_limit as [Hl _]. intros ->. apply Forall_app in Hz as [Hz1 _]. apply seg_app in Hs as [_ Hs].
  pose proof (end_of_ge HEAP_START l1 Hz1). rewrite end_of_app in Hl.
  split_and!; [done|done|unfold HEAP_START in *; lia|done].
Qed.

End wf.

(** ** Allocation *)

(** The blocks a free block turns into when [n] bytes of it are allocated. *)
Definition alloc_block (n : Z) (b : block) : list block :=
  if b_size b - n - 32 <? HEAP_MIN_BLOCK then [Block (b_size b) true]
  else [Block n true; Block (b_size b - n - 32) false].

Lemma set_flags_seg m p a b l nxt u :
  seg m p a (b :: l) nxt →
  let m' := set_flags m a (b_flags (Block 0 u)) in
  seg m' p a (Block (b_size b) u :: l) nxt ∧ ∀ x, x < a + 4 ∨ a + 8 <= x → m' x = m x.
Proof.
  intros ([H1 H2 H3 H4 H5] & Hs & Hr). pose proof (seg_sizes _ _ _ _ _ Hr) as Hsz.
  pose proof (end_of_ge (a + 32 + b_size b) l Hsz). pose proof Hs as [Hs' _]. split.
  - refine (conj _ (conj Hs _)).
    + unfold b_flags. destruct u; split; unfold_fields; simpl; mem_simpl; done || lia.
    + apply (seg_agree m); [|done]. intros x Hx. unfold_fields. simpl in *. frame.
  - intros x Hx. unfold_fields. frame.
Qed.

Lemma alloc_seg m p a b l2 n :
  seg m p a (b :: l2) 0 → 0 < a → end_of a (b :: l2) < 2 ^ 64 →
  32 <= n → n mod 16 = 0 → n + 32 <= b_size b →
  let m' := set_flags (block_split m a n) a HEAP_BLOCK_USED in
  seg m' p a (alloc_block n b ++ l2) 0 ∧ only_headers m m' a (alloc_block n b ++ l2).
Proof.
  intros Hseg Ha Hend Hn Hn16 Hfit. unfold alloc_block, HEAP_MIN_BLOCK.
  destruct (b_size b - n - 32 <? 32) eqn:E; to_prop.
  - rewrite (split_none m p a b l2 n) by (done || lia).
    destruct (set_flags_seg m p a b l2 0 true Hseg) as [Hs Ho]. split; [exact Hs|].
    intros x Hx. apply Ho. simpl in Hx. lia.
  - destruct (split_seg m p a b l2 n) as [Hs Ho]; [done..|lia|done|lia|].
    destruct (set_flags_seg _ p a _ _ 0 true Hs) as [Hs' Ho']. split; [exact Hs'|].
    intros x Hx. etransitivity; [apply Ho'|apply Ho]; simpl in Hx |- *; [lia|tauto].
Qed.

Lemma alloc_block_nonempty n b l : alloc_block n b ++ l ≠ [].
Proof. unfold alloc_block. by case_if. Qed.

Lemma end_of_alloc_block a n b l : end_of a (alloc_block n b ++ l) = end_of a (b :: l).
Proof. unfold alloc_block. case_if; simpl; f_equal; lia. Qed.

Lemma request_size_spec size :
  0 < size <= 2 ^ 63 →
  let n := request_size size in size <= n ∧ 32 <= n ∧ n mod 16 = 0 ∧ n < size + 32.
Proof.
  intros Hs. unfold request_size, HEAP_ALIGNMENT, HEAP_MIN_BLOCK. cbv zeta.
  change 16 with (2 ^ 4). rewrite ALIGN_UP_pow2 by lia. change (2 ^ 4) with 16.
  pose proof (Z.mod_pos_bound (size + 16 - 1) 16 ltac:(lia)).
  assert (((size + 16 - 1) - (size + 16 - 1) mod 16) mod 16 = 0).
  { rewrite Zminus_mod_idemp_r, Z.sub_diag. done. }
  destruct (_ <? 32) eqn:E; to_prop; [|lia]. split_and!; [lia|lia|done|lia].
Qed.

Lemma free_not_used a l1 b l2 x :
  Forall size_ok (l1 ++ b :: l2) → b_used b = false →
  end_of a l1 <= x < end_of a l1 + 32 + b_size b → ¬ in_used a (l1 ++ b :: l2) x.
Proof.
  intros [Hs1 Hs2]%Forall_app Hb Hx. rewrite Forall_cons in Hs2. destruct Hs2 as [[Hbs _] Hs2].
  rewrite in_used_app. simpl. rewrite Hb. intros [H|[[? _]|H]]; [|done|].
  - apply in_used_bounds in H; [lia|done].
  - apply in_used_bounds in H; [lia|done].
Qed.

(** Allocating in a free block leaves the data of allocated blocks alone. *)
Lemma alloc_frame m m' a l1 b l2 n x :
  Forall size_ok (l1 ++ b :: l2) → b_used b = false → 32 <= n → n + 32 <= b_size b →
  only_headers m m' (end_of a l1) (alloc_block n b ++ l2) →
  in_used a (l1 ++ b :: l2) x → m' x = m x.
Proof.
  intros Hs Hb Hn Hfit Ho Hx. apply Ho. pose proof Hs as [Hs1 Hs2]%Forall_app.
  rewrite Forall_cons in Hs2. destruct Hs2 as [[Hbs _] Hs2]. rewrite in_headers_app.
  pose proof (end_of_alloc_block (end_of a l1) n b []) as He. rewrite app_nil_r in He.
  rewrite He. rewrite in_used_app in Hx. simpl in Hx |- *. rewrite Hb in Hx.
  assert (Hin : in_headers (end_of a l1) (alloc_block n b) x →
    end_of a l1 <= x < end_of a l1 + 32 + b_size b).
  { unfold alloc_block. case_if; simpl; [lia|]. lia. }
  intros [H|H]; destruct Hx as [Hx|[[? _]|Hx]]; try done.
  - apply Hin in H. apply in_used_bounds in Hx; [lia|done].
  - apply Hin in H. apply in_used_bounds in Hx; [lia|done].
  - apply in_used_bounds in Hx; [|done]. apply in_headers_bounds in H; [lia|done].
  - by apply (used_not_header _ _ _ Hs2 Hx).
Qed.

Section kmalloc.
Context {W : Type} `{PageSource W}.
Implicit Types h : heap W.

Lemma kmalloc_fuel_S fuel h size :
  kmalloc_fuel (S fuel) h size =
    if size =? 0 then Some (0, h)
    else
      r ← loop (search_step (h_mem h) (request_size size)) (heap_first h);
      match r with
      | Corrupted => Some (0, h)
      | Found block =>
          Some (block_to_ptr block,
                Heap (set_flags (block_split (h_mem h) block (request_size size)) block HEAP_BLOCK_USED)
                  (heap_first h) (heap_size h) (heap_break h) (heap_alloc_count h +64 1)
                  (heap_free_count h) (h_world h))
      | Exhausted =>
          '(ok, h) ← heap_expand h (Z.max (request_size size +64 HEAP_HEADER_SIZE) HEAP_EXPAND_SIZE);
          if negb ok then Some (0, h) else kmalloc_fuel fuel h (request_size size)
      end.
Proof. done. Qed.

(** What a successful allocation in block [b] gives. *)
Record alloc_ok h (bs : list block) (size : Z) (l1 : list block) (b : block) (l2 : list block)
    (ptr : Z) h' : Prop := {
  ao_ptr : ptr = end_of HEAP_START l1 + 32;
  ao_aligned : ptr mod HEAP_ALIGNMENT = 0;
  ao_wf : heap_wf h' (l1 ++ alloc_block (request_size size) b ++ l2);
  ao_fresh : ∀ x, ptr <= x < ptr + size → ¬ in_used HEAP_START bs x;
  ao_frame : ∀ x, in_used HEAP_START bs x → h_mem h' x = h_mem h x
}.

Lemma kmalloc_fuel_found fuel h bs size l1 b l2 :
  heap_wf h bs → 0 < size <= 2 ^ 63 → bs = l1 ++ b :: l2 →
  Forall (λ b, fits (request_size size) b = false) l1 → fits (request_size size) b = true →
  request_size size + 32 <= b_size b →
  ∃ ptr h', kmalloc_fuel (S fuel) h size = Some (ptr, h')
    ∧ alloc_ok h bs size l1 b l2 ptr h' ∧ h_world h' = h_world h.
Proof.
  intros Hwf Hsize E Hno Hfit Hslack. destruct (request_size_spec size Hsize) as (Hn1 & Hn2 & Hn3 & _).
  set (n := request_size size) in *.
  destruct (wf_limit h bs Hwf) as [Hlim Hlen]. pose proof (wf_sizes h bs Hwf) as Hsz.
  destruct (wf_block h bs Hwf l1 b l2 E) as (Hseg & Hs1 & Hpos & Hend).
  destruct (alloc_seg (h_mem h) (last_of 0 HEAP_START l1) (end_of HEAP_START l1) b l2 n)
    as [Hs' Ho]; [done..|].
  rewrite kmalloc_fuel_S, (proj2 (Z.eqb_neq size 0)) by lia. fold n.
  rewrite (wf_first _ _ Hwf), (loop_runs _ (S (length l1)) _ (Found (end_of HEAP_START l1))).
  2: { eapply search_found; [rewrite <- E; apply Hwf|done..]. }
  2: { rewrite E, length_app in Hlen. simpl in Hlen. unfold WHILE_FUEL. lia. }
  rewrite bind_Some_eq. eexists _, _. split; [done|]. split; [|done].
  assert (Hb : b_used b = false).
  { unfold fits in Hfit. apply andb_true_iff in Hfit as [Hb _]. by apply negb_true_iff in Hb. }
  assert (Hsz' := Hsz). rewrite E in Hsz'.
  assert (Hp : block_to_ptr (end_of HEAP_START l1) = end_of HEAP_START l1 + 32).
  { unfold block_to_ptr. rewrite header_size_val. apply u64_id. simpl in Hend.
    apply Forall_app in Hsz' as [_ Hz]. rewrite Forall_cons in Hz. destruct Hz as [_ Hz].
    pose proof (end_of_ge (end_of HEAP_START l1 + 32 + b_size b) l2 Hz). lia. }
  split; rewrite ?Hp; [done| | |rewrite E|rewrite E].
  - unfold HEAP_ALIGNMENT. rewrite Zplus_mod, end_of_aligned by done. done.
  - destruct Hwf as [Hf _ Hwseg He Hbr Hsz2 Hpg]. split; simpl; try done.
    + destruct l1; [apply alloc_block_nonempty|done].
    + rewrite E in Hwseg. apply (seg_replace_tail (h_mem h) _ 0 HEAP_START l1 (b :: l2)); try done.
      * apply alloc_block_nonempty.
      * intros x Hx. apply (only_headers_low _ _ _ _ _ (seg_sizes _ _ _ _ _ Hs') Ho Hx).
    + by rewrite <- He, E, end_of_app, end_of_alloc_block, end_of_app.
  - intros x Hx. apply free_not_used; [done|done|lia].
  - intros x Hx. eapply alloc_frame; [exact Hsz'|done|exact Hn2|exact Hslack|exact Ho|exact Hx].
Qed.

(** C12. [kmalloc] is first fit: on a well-formed heap, when the first free block
    that is large enough exceeds the request by at least a header, the call
    returns its 16-byte aligned data address, the heap stays well formed with
    that block allocated (split when the rest holds another block), the
    returned bytes belonged to no allocated block, and the contents of all
    allocated blocks are unchanged. *)
Theorem kmalloc_first_fit h bs size l1 b l2 :
  heap_wf h bs → 0 < size <= 2 ^ 63 → bs = l1 ++ b :: l2 →
  Forall (λ b, fits (request_size size) b = false) l1 → fits (request_size size) b = true →
  request_size size + 32 <= b_size b →
  ∃ ptr h', kmalloc h size = Some (ptr, h') ∧ alloc_ok h bs size l1 b l2 ptr h'.
Proof.
  intros. destruct (kmalloc_fuel_found 299 h bs size l1 b l2) as (ptr & h' & E & Hok & _); eauto.
Qed.

End kmalloc.

(** ** Deallocation *)

(** Coalescing to the left: a free block before [t] absorbs the head of [t]. *)
Definition coalesce (l1 t : list block) : list block :=
  match reverse l1 with
  | [] => t
  | c :: r => if b_used c then l1 ++ t else reverse r ++ absorb (c :: t)
  end.

Lemma coalesce_nil t : coalesce [] t = t.
Proof. done. Qed.
Lemma coalesce_snoc l0 c t :
  coalesce (l0 ++ [c]) t = if b_used c then (l0 ++ [c]) ++ t else l0 ++ absorb (c :: t).
Proof. unfold coalesce. by rewrite reverse_snoc, reverse_involutive. Qed.

Lemma in_headers_absorb a bs x : in_headers a (absorb bs) x → in_headers a bs x.
Proof.
  destruct bs as [|b1 [|b2 l]]; simpl; [done|done|]. destruct (b_used b2); simpl; [done|].
  intros [?|Hx]; [by left|]. right. right. by replace (a + 32 + b_size b1 + 32 + b_size b2)
    with (a + 32 + (b_size b1 + 32 + b_size b2)) by lia.
Qed.

Lemma only_headers_trans m1 m2 m3 a bs bs' :
  only_headers m1 m2 a bs → only_headers m2 m3 a bs' →
  (∀ x, in_headers a bs' x → in_headers a bs x) → only_headers m1 m3 a bs.
Proof. intros H1 H2 Hsub x Hx. rewrite H2, H1; auto. Qed.

Lemma only_headers_app m m' a l1 t :
  only_headers m m' (end_of a l1) t → only_headers m m' a (l1 ++ t).
Proof. intros Ho x Hx. apply Ho. intros Hin. apply Hx, in_headers_app. by right. Qed.

(** Freeing the block [b] in front of [l2] and merging it to the right. *)
Lemma free_right m p a b l2 :
  seg m p a (b :: l2) 0 → 0 < a → end_of a (b :: l2) < 2 ^ 64 →
  let m' := block_merge_next (set_flags m a HEAP_BLOCK_FREE) a in
  seg m' p a (absorb (Block (b_size b) false :: l2)) 0 ∧ only_headers m m' a (b :: l2).
Proof.
  intros Hseg Ha Hend. destruct (set_flags_seg m p a b l2 0 false Hseg) as [Hs Ho].
  destruct (merge_seg _ p a (Block (b_size b) false :: l2) Hs) as [Hs' Ho']; [done..|].
  split; [exact Hs'|]. intros x Hx. etransitivity; [apply Ho'|apply Ho]; [exact Hx|].
  simpl in Hx. lia.
Qed.

Lemma last_of_snoc p a l0 c : last_of p a (l0 ++ [c]) = end_of a l0.
Proof. by rewrite last_of_app. Qed.

Lemma absorb_head b l : ∃ b' l', absorb (b :: l) = b' :: l'.
Proof. destruct l as [|b2 l]; simpl; [eauto|]. destruct (b_used b2); eauto. Qed.

(** ... and then to the left. *)
Lemma free_left m a0 l1 t :
  seg m 0 a0 (l1 ++ t) 0 → t ≠ [] → 0 < a0 → end_of a0 (l1 ++ t) < 2 ^ 64 →
  let a := end_of a0 l1 in
  let m' := if negb (blk_prev m a =? 0) && (blk_flags m (blk_prev m a) =? HEAP_BLOCK_FREE)
            then block_merge_next m (blk_prev m a) else m in
  seg m' 0 a0 (coalesce l1 t) 0 ∧ only_headers m m' a0 (l1 ++ t)
  ∧ end_of a0 (coalesce l1 t) = end_of a0 (l1 ++ t) ∧ coalesce l1 t ≠ [].
Proof.
  intros Hseg Ht Ha Hend. pose proof (seg_sizes _ _ _ _ _ Hseg) as Hsz.
  pose proof Hseg as [_ Ht2]%seg_app. destruct t as [|b l2]; [done|].
  destruct Ht2 as ([_ _ _ _ Hp] & _). cbv zeta. rewrite Hp. clear Hp.
  destruct l1 as [|c l0 _] using rev_ind; 
    [rewrite coalesce_nil; exact (conj Hseg (conj (λ x _, eq_refl) (conj eq_refl Ht)))|].
  rewrite last_of_snoc, coalesce_snoc, <- !app_assoc. rewrite <- !app_assoc in *.
  change ([c] ++ b :: l2) with (c :: b :: l2) in *.
  pose proof Hsz as [Hz0 _]%Forall_app. pose proof (end_of_ge a0 l0 Hz0).
  pose proof Hseg as [_ Hc]%seg_app. pose proof Hc as ([_ Hf _ _ _] & _).
  rewrite (proj2 (Z.eqb_neq (end_of a0 l0) 0)), Hf by lia. unfold b_flags.
  destruct (b_used c) eqn:Ec; cbn [negb andb Z.eqb HEAP_BLOCK_FREE HEAP_BLOCK_USED].
  - refine (conj Hseg (conj (λ x _, eq_refl) (conj eq_refl _))). by destruct l0.
  - rewrite end_of_app in Hend. destruct (merge_seg m _ _ _ Hc) as [Hs Ho]; [done|lia|done|].
    split_and!.
    + apply (seg_replace_tail m _ 0 a0 l0 (c :: b :: l2)); try done; [by apply absorb_nonempty|].
      intros x Hx. apply (only_headers_low _ _ _ _ _ (seg_sizes _ _ _ _ _ Hc) Ho Hx).
    + by apply only_headers_app.
    + by rewrite end_of_app, end_of_absorb, <- end_of_app.
    + intros [_ Hn]%app_eq_nil. by apply (absorb_nonempty (c :: b :: l2)).
Qed.

Section kfree.
Context {W : Type}.
Implicit Types h : heap W.

(** The block list after freeing [b]. *)
Definition free_block (l1 : list block) (b : block) (l2 : list block) : list block :=
  coalesce l1 (absorb (Block (b_size b) false :: l2)).

Lemma kfree_wf h bs l1 b l2 :
  heap_wf h bs → bs = l1 ++ b :: l2 →
  let h' := kfree h (end_of HEAP_START l1 + 32) in
  if b_used b then
    heap_wf h' (free_block l1 b l2) ∧ only_headers (h_mem h) (h_mem h') HEAP_START bs
  else h' = h.
Proof.
  intros Hwf E. destruct (wf_block h bs Hwf l1 b l2 E) as (Hseg & Hs1 & Hpos & Hend).
  pose proof Hseg as (Hh & [Hb _] & Hl2).
  pose proof (end_of_ge (end_of HEAP_START l1 + 32 + b_size b) l2 (seg_sizes _ _ _ _ _ Hl2)).
  simpl in Hend. set (a := end_of HEAP_START l1) in *. unfold kfree. cbv zeta.
  rewrite (proj2 (Z.eqb_neq (a + 32) 0)) by lia.
  replace (ptr_to_block (a + 32)) with a
    by (unfold ptr_to_block; rewrite header_size_val, u64_id by lia; lia).
  rewrite (header_valid _ _ _ _ _ Hpos Hh). destruct Hh as [_ Hf _ _ _]. rewrite Hf. unfold b_flags.
  destruct (b_used b) eqn:Eb; simpl negb; [|done].
  destruct (free_right (h_mem h) _ a b l2 Hseg Hpos Hend) as [Hr Hor].
  set (m1 := block_merge_next _ a) in *.
  assert (Hlow : ∀ x, x < a → m1 x = h_mem h x).
  { intros x Hx. apply (only_headers_low _ _ _ _ _ (seg_sizes _ _ _ _ _ Hseg) Hor Hx). }
  destruct (absorb_head (Block (b_size b) false) l2) as (b' & l' & Eab).
  assert (Hall : seg m1 0 HEAP_START (l1 ++ absorb (Block (b_size b) false :: l2)) 0).
  { apply (seg_replace_tail (h_mem h) m1 0 HEAP_START l1 (b :: l2)); try done; [|by rewrite Eab].
    rewrite <- E. apply Hwf. }
  assert (Hsame : end_of HEAP_START (l1 ++ absorb (Block (b_size b) false :: l2))
                  = end_of HEAP_START bs).
  { by rewrite end_of_app, end_of_absorb, E, end_of_app. }
  destruct (wf_limit h bs Hwf) as [Hlim _].
  destruct (free_left m1 HEAP_START l1 _ Hall) as (Hs' & Ho' & He' & Hne); [by rewrite Eab|done|by rewrite Hsame|].
  fold a in Hs', Ho'. split.
  - destruct Hwf as [? ? ? Hwe ? ? ?]. split; simpl; try done. unfold free_block. by rewrite He', Hsame.
  - simpl. rewrite E. eapply only_headers_trans; [by apply only_headers_app|exact Ho'|].
    intros x [Hx|Hx]%in_headers_app; apply in_headers_app; [by left|]. right.
    apply (in_headers_absorb _ (Block (b_size b) false :: l2)) in Hx. exact Hx.
Qed.

(** C13. [kfree] of a live pointer on a well-formed heap frees the block and
    merges it with a free right and a free left neighbour; the heap stays well
    formed, and no byte outside the block headers changes.  Freeing a block that
    is already free changes nothing. *)
Theorem kfree_coalesces h bs l1 b l2 :
  heap_wf h bs → bs = l1 ++ b :: l2 →
  let h' := kfree h (end_of HEAP_START l1 + 32) in
  if b_used b then
    heap_wf h' (free_block l1 b l2) ∧ only_headers (h_mem h) (h_mem h') HEAP_START bs
  else h' = h.
Proof. exact (kfree_wf h bs l1 b l2). Qed.

End kfree.

(** ** Expansion *)

Lemma last_block_runs m p a bs :
  seg m p a bs 0 → bs ≠ [] → 0 < a →
  runs (λ last, if negb (blk_next m last =? 0) then Next (blk_next m last) else Stop last)
    (length bs) a (last_of p a bs).
Proof.
  revert p a. induction bs as [|b bs IH]; intros p a Hseg Hne Ha; [done|].
  destruct Hseg as ([_ _ _ Hn _] & [Hb _] & Hr). destruct bs as [|b2 bs]; simpl in Hn.
  - apply runs_stop. by rewrite Hn.
  - simpl length. eapply runs_next; [|apply (IH a); [exact Hr|done|lia]].
    rewrite Hn, (proj2 (Z.eqb_neq _ _)) by lia. done.
Qed.

(** Writing a fresh header and linking it behind the last block. *)
Definition append_block (m : mem) (last new size : Z) : mem :=
  let m := set_magic m new HEAP_BLOCK_MAGIC in
  let m := set_flags m new HEAP_BLOCK_FREE in
  let m := set_size m new size in
  let m := set_next m new 0 in
  let m := set_prev m new 0 in
  let m := set_next m last new in
  set_prev m new last.

Lemma append_seg m p a l0 c size :
  seg m p a (l0 ++ [c]) 0 → 0 < a → let brk := end_of a (l0 ++ [c]) in
  brk + 32 + size < 2 ^ 64 → size_ok (Block size false) →
  let bs' := l0 ++ [c; Block size false] in
  let m' := append_block m (end_of a l0) brk size in
  seg m' p a bs' 0 ∧ only_headers m m' a bs'.
Proof.
  intros Hseg Ha brk Hend Hsz. pose proof (seg_sizes _ _ _ _ _ Hseg) as Hs.
  pose proof Hs as [Hs0 Hsc]%Forall_app. rewrite Forall_singleton in Hsc.
  pose proof (end_of_ge a l0 Hs0). apply seg_app in Hseg as [H0 (Hc & _ & _)].
  simpl in Hc. set (ac := end_of a l0) in *.
  assert (Ebrk : brk = ac + 32 + b_size c) by (unfold brk; by rewrite end_of_app).
  destruct Hc as [Hc1 Hc2 Hc3 Hc4 Hc5]. destruct Hsc as [Hsc Hsc'], Hsz as [Hsz Hsz']. simpl in Hsz, Hsz'.
  unfold append_block. split.
  - apply seg_app. cbn [first_of]. fold ac. split.
    + apply (seg_agree m); [|done]. intros x Hx. fold ac in Hx. unfold_fields. frame.
    + refine (conj _ (conj _ (conj _ (conj _ _)))); try (split; simpl; done || lia); try done.
      * split; unfold_fields; simpl; mem_simpl; done || lia.
      * simpl. rewrite <- Ebrk. split; unfold_fields; simpl; mem_simpl; done || lia.
  - intros x Hx. rewrite in_headers_app in Hx. simpl in Hx. fold ac in Hx. unfold_fields. frame.
Qed.

Lemma coalesce_last_merge m p a l0 c b :
  seg m p a (l0 ++ [c; b]) 0 → 0 < a → end_of a (l0 ++ [c; b]) < 2 ^ 64 → b_used b = false →
  let m' := if blk_flags m (end_of a l0) =? HEAP_BLOCK_FREE
            then block_merge_next m (end_of a l0) else m in
  seg m' p a (coalesce (l0 ++ [c]) [b]) 0 ∧ only_headers m m' a (l0 ++ [c; b])
  ∧ end_of a (coalesce (l0 ++ [c]) [b]) = end_of a (l0 ++ [c; b]).
Proof.
  intros Hseg Ha Hend Hb. pose proof Hseg as [_ Hc]%seg_app. pose proof Hc as ([_ Hf _ _ _] & _).
  pose proof (seg_sizes _ _ _ _ _ Hseg) as [Hs0 _]%Forall_app. pose proof (end_of_ge a l0 Hs0).
  cbv zeta. rewrite Hf, coalesce_snoc, <- app_assoc. unfold b_flags.
  change ([c] ++ [b]) with [c; b].
  destruct (b_used c) eqn:Ec; cbn [Z.eqb HEAP_BLOCK_FREE HEAP_BLOCK_USED]; [done|].
  rewrite end_of_app in Hend.
  destruct (merge_seg m _ _ _ Hc) as [Hs Ho]; [done|lia|done|]. split_and!.
  - apply (seg_replace_tail m _ p a l0 [c; b]); try done; [by apply (absorb_nonempty [c; b])|].
    intros x Hx. apply (only_headers_low _ _ _ _ _ (seg_sizes _ _ _ _ _ Hc) Ho Hx).
  - by apply only_headers_app.
  - by rewrite end_of_app, end_of_absorb, <- end_of_app.
Qed.

Lemma coalesce_nonempty l1 t : t ≠ [] → coalesce l1 t ≠ [].
Proof.
  intros Ht. destruct l1 as [|c l0 _] using rev_ind; [done|]. rewrite coalesce_snoc.
  destruct (b_used c).
  - by intros [_ ?]%app_eq_nil.
  - intros [_ Hn]%app_eq_nil. by apply (absorb_nonempty (c :: t)).
Qed.

Lemma expand_size_ok size :
  0 < size <= HEAP_MAX_SIZE →
  let e := ALIGN_UP size PAGE_SIZE in
  e mod PAGE_SIZE = 0 ∧ PAGE_SIZE <= e ∧ size <= e < size + PAGE_SIZE ∧ size_ok (Block (e - 32) false).
Proof.
  intros Hsize. unfold HEAP_MAX_SIZE in *. cbv zeta. rewrite ALIGN_UP_page by lia.
  set (x := size + 4095). unfold PAGE_SIZE.
  pose proof (Z.mod_pos_bound x 4096 ltac:(lia)). pose proof (Z.div_mod x 4096 ltac:(lia)) as Hx.
  assert (1 <= x / 4096) by (apply Z.div_le_lower_bound; lia).
  replace (x - x mod 4096) with (x / 4096 * 4096) by lia.
  rewrite Z_mod_mult. refine (conj eq_refl (conj _ (conj _ (conj _ _)))); [lia..|simpl; lia|]. simpl.
  replace (x / 4096 * 4096 - 32) with ((256 * (x / 4096) - 2) * 16) by lia. apply Z_mod_mult.
Qed.

Lemma in_used_grown a bs n x : in_used a (coalesce bs [Block n false]) x ↔ in_used a bs x.
Proof.
  destruct bs as [|c l0 _] using rev_ind; [simpl; naive_solver|].
  rewrite coalesce_snoc. destruct (b_used c) eqn:Ec.
  - rewrite in_used_app. simpl. naive_solver.
  - rewrite !in_used_app. simpl. rewrite Ec. naive_solver.
Qed.

Section expand.
Context {W : Type} `{PageSource W}.
Implicit Types h : heap W.

Lemma heap_expand_ok h bs size w :
  heap_wf h bs → 0 < size <= HEAP_MAX_SIZE →
  let e := ALIGN_UP size PAGE_SIZE in
  heap_size h + e <= HEAP_MAX_SIZE →
  for_ 0 (e / PAGE_SIZE) (expand_page (heap_break h)) (h_world h) = Next w →
  ∃ h', heap_expand h size = Some (true, h') ∧ h_world h' = w
    ∧ heap_wf h' (coalesce bs [Block (e - 32) false])
    ∧ (∀ x, in_used HEAP_START bs x → h_mem h' x = h_mem h x).
Proof.
  intros Hwf Hsize e Hmax Hpages. pose proof Hwf as [Hf Hne Hseg He Hb Hs Hpg].
  pose proof (wf_sizes h bs Hwf) as Hsz. destruct (wf_limit h bs Hwf) as [Hlim Hlen].
  destruct (expand_size_ok size Hsize) as (Hmod & Hge & _ & Hsn). fold e in Hmod, Hge, Hsn.
  unfold heap_expand. fold e. rewrite Hpages. unfold HEAP_MAX_SIZE, PAGE_SIZE in *.
  rewrite (u64_id (heap_size h + e)) by lia. rewrite (proj2 (Z.ltb_ge _ _)) by lia.
  rewrite header_size_val, (u64_id (e - 32)), Hf by lia. cbv zeta.
  destruct bs as [|c l0 _] using rev_ind; [done|]. rewrite end_of_app in He. simpl in He.
  set (m0 := set_prev _ _ 0). unfold HEAP_START in Hb.
  assert (Hm0 : seg m0 0 HEAP_START (l0 ++ [c]) 0).
  { apply (seg_agree (h_mem h)); [|done]. rewrite end_of_app. simpl end_of. rewrite He.
    intros x Hx. unfold m0. unfold_fields. frame. }
  unfold last_block. rewrite (while_runs _ _ (length (l0 ++ [c])) _ (end_of HEAP_START l0)).
  2: { rewrite <- (last_of_snoc 0 HEAP_START l0 c). by apply last_block_runs. }
  2: { unfold WHILE_FUEL. lia. }
  rewrite bind_Some_eq. eexists. split; [done|]. split; [done|].
  assert (Ebrk : heap_break h = end_of HEAP_START (l0 ++ [c])) by (rewrite end_of_app; done).
  destruct (append_seg (h_mem h) 0 HEAP_START l0 c (e - 32)) as [Hs1 Ho1]; [done|done|lia|done|].
  rewrite <- Ebrk in Hs1, Ho1.
  destruct (coalesce_last_merge (append_block (h_mem h) (end_of HEAP_START l0) (heap_break h) (e - 32))
    0 HEAP_START l0 c (Block (e - 32) false)) as (Hs2 & Ho2 & He2);
    [done|done|rewrite end_of_app; simpl; lia|done|].
  rewrite end_of_app in He2. simpl end_of in He2 at 2.
  split.
  - rewrite !u64_id by lia. split; simpl h_mem; simpl heap_first; simpl heap_break; simpl heap_size;
      [done|by apply coalesce_nonempty|exact Hs2| | |unfold HEAP_MAX_SIZE; lia|].
    + rewrite He2. lia.
    + unfold HEAP_START. lia.
    + unfold PAGE_SIZE. rewrite Zplus_mod, Hpg, Hmod. done.
  - intros x Hx. simpl h_mem.
    assert (Hnh : ¬ in_headers HEAP_START (l0 ++ [c; Block (e - 32) false]) x).
    { replace (l0 ++ [c; Block (e - 32) false]) with ((l0 ++ [c]) ++ [Block (e - 32) false])
        by (by rewrite <- app_assoc).
      rewrite in_headers_app. intros [Hh|Hh].
      - by apply (used_not_header HEAP_START (l0 ++ [c]) x).
      - apply in_used_bounds in Hx; [|done]. simpl in Hh. lia. }
    etransitivity; [by apply Ho2|by apply Ho1].
Qed.

(** Growing the heap: past the 240 MB limit, or when a page cannot be
    allocated or mapped, [heap_expand] reports failure and the blocks are as
    before; otherwise the heap stays well formed with the new space appended as
    a free block, merged with the last block when that is free, and the
    contents of allocated blocks are unchanged. *)
Theorem heap_expand_spec h bs size :
  heap_wf h bs → 0 < size <= HEAP_MAX_SIZE →
  let e := ALIGN_UP size PAGE_SIZE in
  ∃ ok h', heap_expand h size = Some (ok, h') ∧
  match for_ 0 (e / PAGE_SIZE) (expand_page (heap_break h)) (h_world h) with
  | Next w =>
      if heap_size h + e <=? HEAP_MAX_SIZE then
        ok = true ∧ h_world h' = w ∧ heap_wf h' (coalesce bs [Block (e - 32) false])
        ∧ ∀ x, in_used HEAP_START bs x → h_mem h' x = h_mem h x
      else ok = false ∧ h' = h
  | Stop w =>
      ok = false ∧ heap_wf h' bs ∧ h_mem h' = h_mem h
      ∧ h_world h' = if heap_size h + e <=? HEAP_MAX_SIZE then w else h_world h
  end.
Proof.
  intros Hwf Hsize e. destruct (heap_size h + e <=? HEAP_MAX_SIZE) eqn:Em; to_prop.
  - destruct (for_ _ _ _ _) as [w|w] eqn:Ef.
    + destruct (heap_expand_ok h bs size w Hwf Hsize Em Ef) as (h' & ? & ? & ? & ?). eauto 8.
    + destruct (expand_size_ok size Hsize) as (_ & Hge & _). fold e in Hge.
      exists false, (with_world h w). pose proof (wf_size _ _ Hwf).
      unfold heap_expand. fold e. rewrite Ef, u64_id by (unfold HEAP_MAX_SIZE, PAGE_SIZE in *; lia).
      rewrite (proj2 (Z.ltb_ge _ _)) by lia. split_and!; [done|done| |done|done].
      destruct Hwf. by split.
  - exists false, h. split.
    + destruct (expand_size_ok size Hsize) as (_ & _ & He & _). fold e in He.
      pose proof (wf_size _ _ Hwf). unfold heap_expand. fold e.
      rewrite u64_id by (unfold HEAP_MAX_SIZE, PAGE_SIZE in *; lia).
      by rewrite (proj2 (Z.ltb_lt _ _)) by lia.
    + by destruct (for_ _ _ _ _).
Qed.

Lemma request_size_idem size : 0 < size <= 2 ^ 62 → request_size (request_size size) = request_size size.
Proof.
  intros Hs. destruct (request_size_spec size ltac:(lia)) as (H1 & H2 & H3 & H4).
  set (n := request_size size) in *. unfold request_size, HEAP_ALIGNMENT, HEAP_MIN_BLOCK. cbv zeta.
  change 16 with (2 ^ 4). rewrite ALIGN_UP_pow2 by lia. change (2 ^ 4) with 16.
  replace ((n + 16 - 1) mod 16) with 15; [case_if; to_prop; lia|].
  replace (n + 16 - 1) with (n + 15) by lia. rewrite Zplus_mod, H3. done.
Qed.

(** The size [kmalloc] asks [heap_expand] for. *)
Definition growth (size : Z) : Z :=
  ALIGN_UP (Z.max (request_size size + 32) HEAP_EXPAND_SIZE) PAGE_SIZE.

Lemma kmalloc_grown h bs size w l1 b l2 :
  heap_wf h bs → 0 < size <= HEAP_MAX_SIZE - 64 →
  Forall (λ b, fits (request_size size) b = false) bs →
  heap_size h + growth size <= HEAP_MAX_SIZE →
  for_ 0 (growth size / PAGE_SIZE) (expand_page (heap_break h)) (h_world h) = Next w →
  coalesce bs [Block (growth size - 32) false] = l1 ++ b :: l2 →
  Forall (λ b, fits (request_size size) b = false) l1 → fits (request_size size) b = true →
  request_size size + 32 <= b_size b →
  ∃ ptr h', kmalloc h size = Some (ptr, h')
    ∧ ptr = end_of HEAP_START l1 + 32
    ∧ heap_wf h' (l1 ++ alloc_block (request_size size) b ++ l2)
    ∧ ∀ x, in_used HEAP_START bs x → h_mem h' x = h_mem h x.
Proof.
  intros Hwf Hsize Hnone Hmax Hpages Hco Hno Hfit Hslack.
  unfold HEAP_MAX_SIZE in Hsize. destruct (request_size_spec size ltac:(lia)) as (H1 & H2 & H3 & H4).
  destruct (wf_limit h bs Hwf) as [_ Hlen]. set (n := request_size size) in *.
  unfold kmalloc. change KMALLOC_FUEL with (S (S 298)).
  rewrite kmalloc_fuel_S, (proj2 (Z.eqb_neq size 0)) by lia. fold n.
  rewrite (wf_first _ _ Hwf), (loop_runs _ (S (length bs)) _ Exhausted).
  2: { pose proof (search_exhausted (h_mem h) n 0 HEAP_START bs (wf_seg _ _ Hwf) ltac:(done) Hnone) as Hr.
       pose proof (wf_nonempty _ _ Hwf). by destruct bs. }
  2: { unfold WHILE_FUEL. lia. }
  rewrite bind_Some_eq, header_size_val, u64_id by lia.
  destruct (heap_expand_ok h bs (Z.max (n + 32) HEAP_EXPAND_SIZE) w)
    as (h1 & -> & Hw1 & Hwf1 & Hfr1);
    [done|unfold HEAP_MAX_SIZE, HEAP_EXPAND_SIZE; lia|exact Hmax|exact Hpages|].
  rewrite bind_Some_eq. cbn [negb]. fold n (growth size) in Hwf1.
  change (ALIGN_UP (Z.max (n + 32) HEAP_EXPAND_SIZE) PAGE_SIZE) with (growth size) in Hwf1.
  rewrite Hco in Hwf1.
  destruct (kmalloc_fuel_found 298 h1 (l1 ++ b :: l2) n l1 b l2) as (ptr & h' & E & Hok & _);
    unfold n in *; rewrite ?request_size_idem by lia; try done; try lia.
  destruct Hok as [Hp _ Hwf' _ Hfr']. rewrite request_size_idem in Hwf' by lia.
  exists ptr, h'. split_and!; [done|done|done|].
  intros x Hx. rewrite Hfr'; [by apply Hfr1|]. rewrite <- Hco. by apply in_used_grown.
Qed.

(** C30. When no block fits, the growth stays within the 240 MB limit and its
    pages can be allocated and mapped, [kmalloc] returns after one expansion
    with the first block of the grown heap that fits (its recursive call finds
    it), provided that this block exceeds the request by at least a header; the
    contents of the blocks allocated before are unchanged. *)
Theorem kmalloc_grows h bs size w l1 b l2 :
  heap_wf h bs → 0 < size <= HEAP_MAX_SIZE - 64 →
  Forall (λ b, fits (request_size size) b = false) bs →
  heap_size h + growth size <= HEAP_MAX_SIZE →
  for_ 0 (growth size / PAGE_SIZE) (expand_page (heap_break h)) (h_world h) = Next w →
  coalesce bs [Block (growth size - 32) false] = l1 ++ b :: l2 →
  Forall (λ b, fits (request_size size) b = false) l1 → fits (request_size size) b = true →
  request_size size + 32 <= b_size b →
  ∃ ptr h', kmalloc h size = Some (ptr, h')
    ∧ ptr = end_of HEAP_START l1 + 32
    ∧ heap_wf h' (l1 ++ alloc_block (request_size size) b ++ l2)
    ∧ ∀ x, in_used HEAP_START bs x → h_mem h' x = h_mem h x.
Proof. exact (kmalloc_grown h bs size w l1 b l2). Qed.

End expand.

(** ** Initialisation, validation and statistics *)

Section checks.
Context {W : Type} `{PageSource W}.
Implicit Types h : heap W.

Lemma heap_init_wf h h' :
  heap_init h = Some h' → heap_wf h' [Block (HEAP_INITIAL_SIZE - 32) false].
Proof.
  unfold heap_init. destruct (for_ _ _ _ _) as [w|]; [|done]. intros [= <-].
  rewrite header_size_val. split; simpl; [done|done| |done|done|done|done].
  refine (conj _ (conj _ _)); [|split; done|done].
  split; simpl; unfold_fields; unfold HEAP_START, HEAP_INITIAL_SIZE; mem_simpl; done.
Qed.

Lemma validate_runs m p a bs :
  seg m p a bs 0 → 0 < a → runs (validate_step m) (S (length bs)) (first_of a bs 0, p) true.
Proof.
  revert p a. induction bs as [|b bs IH]; intros p a Hseg Ha; [by apply runs_stop|].
  destruct Hseg as ([H1 H2 H3 H4 H5] & [Hb _] & Hr).
  eapply runs_next; [|apply (IH a); [exact Hr|lia]].
  simpl. rewrite H1, H2, H4, H5, !Z.eqb_refl. rewrite (proj2 (Z.eqb_neq a 0)) by lia.
  unfold b_flags. by destruct (b_used b).
Qed.

(** On every well-formed heap, such as the one [heap_init] leaves,
    [heap_validate] returns and accepts. *)
Theorem heap_validate_wf h bs : heap_wf h bs → heap_validate h = Some true.
Proof.
  intros Hwf. destruct (wf_limit h bs Hwf) as [_ Hl].
  unfold heap_validate. rewrite (wf_first _ _ Hwf).
  pose proof (validate_runs (h_mem h) 0 HEAP_START bs (wf_seg _ _ Hwf) ltac:(done)) as Hr.
  pose proof (wf_nonempty _ _ Hwf). destruct bs; [done|].
  eapply loop_runs; [exact Hr|unfold WHILE_FUEL; lia].
Qed.

(** What the statistics of a block list are. *)
Definition total (used : bool) (bs : list block) : Z :=
  foldr (λ b n, (if eqb (b_used b) used then b_size b else 0) + n) 0 bs.
Definition largest (bs : list block) : Z :=
  foldr (λ b n, Z.max (if b_used b then 0 else b_size b) n) 0 bs.
Definition free_blocks (bs : list block) : Z :=
  foldr (λ b n, (if b_used b then 0 else 1) + n) 0 bs.

Lemma total_end a bs :
  end_of a bs = a + total true bs + total false bs + 32 * Z.of_nat (length bs).
Proof.
  revert a; induction bs as [|b bs IH]; intros a; cbn [end_of length]; [simpl; lia|].
  rewrite IH. simpl. destruct (b_used b); simpl; lia.
Qed.

Lemma total_nonneg u bs : Forall size_ok bs → 0 <= total u bs.
Proof. induction 1 as [|b bs [? _] _ IH]; simpl; [lia|]. destruct (eqb _ _); lia. Qed.

(** One round of [heap_get_stats] on an abstract block. *)
Definition count_block (s : heap_stats_t) (b : block) : heap_stats_t :=
  if b_used b then
    HeapStats (st_total_size s) (st_used_size s +64 b_size b) (st_free_size s) (st_largest_free s)
      (st_block_count s +64 1) (st_free_block_count s) (st_alloc_count s) (st_free_count s)
  else
    HeapStats (st_total_size s) (st_used_size s) (st_free_size s +64 b_size b)
      (if st_largest_free s <? b_size b then b_size b else st_largest_free s)
      (st_block_count s +64 1) (st_free_block_count s +64 1) (st_alloc_count s) (st_free_count s).

Lemma stats_runs m p a bs s :
  seg m p a bs 0 → 0 < a →
  runs (stats_step m) (S (length bs)) (first_of a bs 0, s) (foldl count_block s bs).
Proof.
  revert p a s. induction bs as [|b bs IH]; intros p a s Hseg Ha; [by apply runs_stop|].
  destruct Hseg as (Hh & [Hb _] & Hr). pose proof (header_valid _ _ _ _ _ Ha Hh) as Hv.
  destruct Hh as [_ H2 H3 H4 _].
  eapply runs_next; [|apply (IH a); [exact Hr|lia]].
  simpl. rewrite Hv, H2, H3, H4, (proj2 (Z.eqb_neq a 0)) by lia.
  unfold count_block, b_flags. by destruct (b_used b).
Qed.

Lemma free_blocks_range bs : 0 <= free_blocks bs <= Z.of_nat (length bs).
Proof. induction bs as [|b bs IH]; cbn [length]; [done|]. simpl. destruct (b_used b); lia. Qed.

Lemma count_blocks bs t u f l n k ac fc :
  Forall size_ok bs → 0 <= u → 0 <= f → 0 <= l → 0 <= n → 0 <= k →
  u + total true bs < 2 ^ 64 → f + total false bs < 2 ^ 64 →
  n + Z.of_nat (length bs) < 2 ^ 64 → k + Z.of_nat (length bs) < 2 ^ 64 →
  foldl count_block (HeapStats t u f l n k ac fc) bs =
  HeapStats t (u + total true bs) (f + total false bs) (Z.max l (largest bs))
    (n + Z.of_nat (length bs)) (k + free_blocks bs) ac fc.
Proof.
  intros Hs. revert u f l n k. induction Hs as [|b bs [Hb _] Hs IH]; intros u f l n k Hu Hf Hl Hn Hk.
  { intros _ _ _ _. simpl. f_equal; lia. }
  pose proof (total_nonneg true bs Hs). pose proof (total_nonneg false bs Hs).
  cbn [length]. simpl. unfold count_block at 2.
  destruct (b_used b); simpl; intros; rewrite !u64_id by lia; rewrite IH by (try lia; case_if; lia).
  - f_equal; lia.
  - f_equal; try lia. destruct (l <? b_size b) eqn:E; to_prop; lia.
Qed.

(** [heap_get_stats] on a well-formed heap returns the exact totals of the
    allocated and free blocks, and they add up: used bytes, free bytes and 32
    bytes per block are the whole heap. *)
Theorem heap_get_stats_accounts h bs :
  heap_wf h bs →
  heap_get_stats h =
    Some (HeapStats (heap_size h) (total true bs) (total false bs) (largest bs)
            (Z.of_nat (length bs)) (free_blocks bs) (heap_alloc_count h) (heap_free_count h))
  ∧ total true bs + total false bs + 32 * Z.of_nat (length bs) = heap_size h.
Proof.
  intros Hwf. destruct (wf_limit h bs Hwf) as [Hlim Hl]. pose proof (wf_sizes h bs Hwf) as Hs.
  pose proof (total_end HEAP_START bs) as He. rewrite (wf_end _ _ Hwf), (wf_break _ _ Hwf) in He.
  pose proof (total_nonneg true bs Hs). pose proof (total_nonneg false bs Hs).
  pose proof (wf_size _ _ Hwf). split; [|lia]. unfold HEAP_MAX_SIZE in *.
  unfold heap_get_stats. rewrite (wf_first _ _ Hwf).
  pose proof (stats_runs (h_mem h) 0 HEAP_START bs
    (HeapStats (heap_size h) 0 0 0 0 0 (heap_alloc_count h) (heap_free_count h))
    (wf_seg _ _ Hwf) ltac:(done)) as Hr.
  replace (first_of HEAP_START bs 0) with HEAP_START in Hr
    by (pose proof (wf_nonempty _ _ Hwf); by destruct bs).
  rewrite (loop_runs _ _ _ _ Hr) by (unfold WHILE_FUEL; lia).
  rewrite count_blocks by (done || lia). f_equal. f_equal; try lia.
  pose proof (free_blocks_range bs). assert (0 <= largest bs); [|lia].
  clear. induction bs as [|b bs IH]; simpl; lia.
Qed.

End checks.

(** ** Requests the allocator gets wrong *)

(** A request within 15 bytes of 2^64 wraps to zero when it is rounded up,
    and [kmalloc] answers it with the block it would give for one byte. *)
Theorem kmalloc_size_wraps {W} `{PageSource W} (h : heap W) size :
  2 ^ 64 - 15 <= size < 2 ^ 64 → kmalloc h size = kmalloc h 1.
Proof.
  intros Hs. unfold kmalloc. change KMALLOC_FUEL with (S 299). rewrite !kmalloc_fuel_S.
  rewrite (proj2 (Z.eqb_neq size 0)) by lia. change (1 =? 0) with false.
  assert (request_size size = request_size 1) as ->; [|done].
  unfold request_size, ALIGN_UP, HEAP_ALIGNMENT.
  replace (u64 (size + (16 - 1))) with (size + 15 - 2 ^ 64).
  - change (16 - 1) with (2 ^ 4 - 1). rewrite !land_lnot_low by done.
    rewrite (Z.mod_small (size + 15 - 2 ^ 64)), Z.sub_diag by lia. done.
  - unfold u64. replace (size + (16 - 1)) with (size + 15 - 2 ^ 64 + 1 * 2 ^ 64) by lia.
    rewrite Z_mod_plus_full, Z.mod_small; lia.
Qed.

(** A page source that never runs out, and the heap it boots. *)
#[export] Instance bump_source : PageSource Z := {
  src_alloc_page w := (w, w + PAGE_SIZE);
  src_free_page _ w := w;
  src_map_page _ _ _ w := (true, w)
}.

Definition unbooted : heap Z := Heap (λ _, 0) 0 0 HEAP_START 0 0 0x400000.
Definition boot_heap : heap Z := default unbooted (heap_init unbooted).

(** The search goes past blocks that do not fit. *)
Lemma search_past m size p a bs nxt k r :
  seg m p a bs nxt → 0 < a → Forall (λ b, fits size b = false) bs → runs (search_step m size) k nxt r →
  runs (search_step m size) (length bs + k) (first_of a bs nxt) r.
Proof.
  intros Hseg Ha Hno Hk. revert p a Hseg Ha. induction Hno as [|c bs Hc _ IH]; intros p a Hseg Ha; [done|].
  pose proof (seg_sizes _ _ _ _ _ Hseg) as Hsz. inversion_clear Hsz as [|? ? [Hcs _] _].
  eapply runs_next; [simpl first_of; erewrite search_step_block by done; by rewrite Hc|].
  destruct Hseg as (_ & _ & Hseg). eapply IH; [exact Hseg|lia].
Qed.

(** What allocating an exactly fitting block [b] before [c] leaves: the rest is
    computed as [2 ^ 64 - 32], and its header is written over that of [c]. *)
Lemma exact_split m p a b c l :
  seg m p a (b :: c :: l) 0 → 0 < a → end_of a (b :: c :: l) < 2 ^ 64 →
  let m' := set_flags (block_split m a (b_size b)) a HEAP_BLOCK_USED in
  let d := a + 32 + b_size b in
  header m' a (Block (b_size b) true) p d ∧ header m' d (Block (2 ^ 64 - 32) false) d d ∧ (∀ x, x < a → m' x = m x).
Proof.
  intros ([Hmg Hfl Hsz Hnx Hpv] & [Hb _] & Hs2) Ha Hend. pose proof (seg_sizes _ _ _ _ _ Hs2) as Hl.
  pose proof (end_of_ge (a + 32 + b_size b) (c :: l) Hl). cbn [end_of length] in *.
  unfold block_split. rewrite header_size_val, Hsz, Z.sub_diag. change (u64 0 -64 32) with (2 ^ 64 - 32).
  change (2 ^ 64 - 32 <? HEAP_MIN_BLOCK) with false. cbv iota.
  rewrite (u64_id (a + 32)), (u64_id (a + 32 + b_size b)) by lia. unfold_fields.
  repeat rewrite (load_store_ne 8 _ _ (a + 16)) by lia. rewrite Hnx. simpl first_of.
  rewrite (proj2 (Z.eqb_neq (a + 32 + b_size b) 0)) by lia. cbn [negb]. split_and!.
  - split; unfold_fields; simpl; mem_simpl; done || lia.
  - split; unfold_fields; simpl; mem_simpl; done || lia.
  - intros x Hx. frame.
Qed.

(** C40. An exactly fitting free block before an allocated one breaks the heap:
    [block_split] computes the rest as a wrapped-around size and writes the
    header of a free block over that of the allocated neighbour.  The next
    request that none of the blocks in front can serve is then answered with
    the neighbour's data area, which is still in use. *)
Theorem kmalloc_hands_out_live_block {W} `{PageSource W} (h : heap W) size size' l1 b c l2 :
  heap_wf h (l1 ++ b :: c :: l2) → 0 < size <= 2 ^ 32 → 0 < size' <= 2 ^ 32 →
  Forall (λ b, fits (request_size size) b = false) l1 → Forall (λ b, fits (request_size size') b = false) l1 →
  b_used b = false → b_size b = request_size size → b_used c = true →
  let live := end_of HEAP_START (l1 ++ [b]) + 32 in
  in_used HEAP_START (l1 ++ b :: c :: l2) live
  ∧ ∃ h1 h2, kmalloc h size = Some (end_of HEAP_START l1 + 32, h1) ∧ kmalloc h1 size' = Some (live, h2).
Proof.
  intros Hwf Hs Hs' Hno Hno' Hb Hsz Hc. pose proof (wf_sizes h _ Hwf) as Hz. destruct (wf_limit h _ Hwf) as [_ Hlen].
  destruct (wf_block h _ Hwf l1 b (c :: l2) eq_refl) as (Hseg & _ & Hpos & Hend).
  apply Forall_app in Hz as [_ Hz]. inversion_clear Hz as [|? ? Hbok Hz2]. pose proof Hbok as [Hbs _].
  inversion_clear Hz2 as [|? ? [Hcs _] Hz3].
  pose proof (wf_seg _ _ Hwf) as Hall. pose proof (proj1 (proj1 (seg_app _ _ _ _ _ _) Hall)) as Hl1.
  destruct (exact_split (h_mem h) _ _ b c l2 Hseg Hpos Hend) as (Ha & Hd & Hlow).
  set (a := end_of HEAP_START l1) in *. rewrite end_of_app. fold a. cbn [end_of].
  assert (Hn : ∀ x, 0 < x <= 2 ^ 32 → 32 <= request_size x < 2 ^ 33).
  { intros x Hx. destruct (request_size_spec x ltac:(lia)) as (_ & ? & _ & ?). lia. }
  pose proof (Hn size Hs). pose proof (Hn size' Hs'). cbn [end_of] in Hend.
  pose proof (end_of_ge (a + 32 + b_size b + 32 + b_size c) l2 Hz3). split.
  { rewrite in_used_app. right. fold a. simpl. right. left. split; [done|]. lia. }
  unfold kmalloc. change KMALLOC_FUEL with (S 299). rewrite kmalloc_fuel_S, (proj2 (Z.eqb_neq size 0)) by lia.
  rewrite (wf_first _ _ Hwf), (loop_runs _ (S (length l1)) _ (Found a)).
  2: { eapply search_found; [exact Hall|done|done|]. unfold fits. rewrite Hb, Hsz. simpl. apply Z.leb_refl. }
  2: { rewrite length_app in Hlen. unfold WHILE_FUEL. lia. }
  rewrite bind_Some_eq, <- Hsz. unfold block_to_ptr at 1. rewrite header_size_val, u64_id by lia.
  eexists _, _. split; [done|]. rewrite kmalloc_fuel_S, (proj2 (Z.eqb_neq size' 0)) by lia. cbn [heap_first h_mem].
  rewrite (loop_runs _ (length (l1 ++ [Block (b_size b) true]) + 1) _ (Found (a + 32 + b_size b))).
  - rewrite bind_Some_eq. unfold block_to_ptr. rewrite header_size_val, u64_id by lia. done.
  - refine (eq_rect (first_of HEAP_START (l1 ++ [Block (b_size b) true]) (a + 32 + b_size b)) (λ x, runs _ _ x _) _ HEAP_START _);
      [|by destruct l1].
    apply (search_past _ _ 0 HEAP_START); [|done| |].
    + apply seg_app. split; [|by refine (conj Ha (conj Hbok I))]. apply (seg_agree (h_mem h)); [|exact Hl1].
      intros x Hx. symmetry. apply Hlow. unfold a in *. lia.
    + apply Forall_app. split; [done|]. by constructor.
    + apply runs_stop. assert (Hd0 : 0 < a + 32 + b_size b) by lia. pose proof (header_valid _ _ _ _ _ Hd0 Hd) as Hv. destruct Hd as [_ Hf Hsd _ _].
      unfold search_step. rewrite Hv, Hf, Hsd, (proj2 (Z.eqb_neq (a + 32 + b_size b) 0)) by lia. simpl.
      by rewrite (proj2 (Z.leb_le _ _)) by lia.
  - rewrite length_app in *. simpl in *. unfold WHILE_FUEL. lia.
Qed.

(** ** Witnesses *)

Lemma boot_heap_wf : heap_wf boot_heap [Block (HEAP_INITIAL_SIZE - 32) false].
Proof. apply (heap_init_wf unbooted). reflexivity. Qed.

Definition after_malloc : Z * heap Z := default (0, boot_heap) (kmalloc boot_heap 100).

Lemma after_malloc_wf :
  heap_wf after_malloc.2 [Block 112 true; Block (HEAP_INITIAL_SIZE - 32 - 112 - 32) false].
Proof.
  destruct (kmalloc_fuel_found 299 boot_heap _ 100 [] (Block (HEAP_INITIAL_SIZE - 32) false) []
    boot_heap_wf) as (ptr & h' & E & Hok & _);
    [lia|reflexivity|constructor|reflexivity|by vm_compute|].
  unfold after_malloc, kmalloc. change KMALLOC_FUEL with (S 299). rewrite E.
  exact (ao_wf _ _ _ _ _ _ _ _ Hok).
Qed.

Lemma kmalloc_first_fit_witness :
  ∃ ptr h', kmalloc boot_heap 100 = Some (ptr, h') ∧ ptr = HEAP_START + 32.
Proof.
  destruct (kmalloc_first_fit boot_heap _ 100 [] (Block (HEAP_INITIAL_SIZE - 32) false) []
    boot_heap_wf) as (ptr & h' & E & Hok); [lia|reflexivity|constructor|reflexivity|by vm_compute|].
  exists ptr, h'. split; [exact E|]. exact (ao_ptr _ _ _ _ _ _ _ _ Hok).
Defined.

Lemma kfree_coalesces_witness :
  heap_wf (kfree after_malloc.2 (HEAP_START + 32)) [Block (HEAP_INITIAL_SIZE - 32) false].
Proof.
  exact (proj1 (kfree_coalesces after_malloc.2 _ [] (Block 112 true) _ after_malloc_wf eq_refl)).
Defined.

(** Two blocks of 32 bytes, the first of them free again. *)
Definition malloc32 (h : heap Z) : heap Z := (default (0, h) (kmalloc h 32)).2.
Definition with_hole : heap Z := kfree (malloc32 (malloc32 boot_heap)) (HEAP_START + 32).

Lemma malloc32_wf h l1 b :
  heap_wf h (l1 ++ [b]) → Forall (λ b, fits 32 b = false) l1 → b_used b = false → 128 <= b_size b →
  heap_wf (malloc32 h) (l1 ++ [Block 32 true; Block (b_size b - 64) false]).
Proof.
  intros Hwf Hno Hb Hsz. assert (Er : request_size 32 = 32) by reflexivity.
  destruct (kmalloc_fuel_found 299 h _ 32 l1 b [] Hwf) as (ptr & h' & E & Hok & _); rewrite ?Er; [lia|done|done| |lia|].
  { unfold fits. rewrite Hb. simpl. apply Z.leb_le. lia. }
  unfold malloc32, kmalloc. change KMALLOC_FUEL with (S 299). rewrite E. pose proof (ao_wf _ _ _ _ _ _ _ _ Hok) as Hw.
  rewrite Er in Hw. unfold alloc_block, HEAP_MIN_BLOCK in Hw. rewrite (proj2 (Z.ltb_ge _ _)) in Hw by lia. simpl in Hw.
  by replace (b_size b - 64) with (b_size b - 32 - 32) by lia.
Qed.

Lemma with_hole_wf : ∃ n, heap_wf with_hole [Block 32 false; Block 32 true; Block n false].
Proof.
  assert (H1 := malloc32_wf boot_heap [] _ boot_heap_wf (Forall_nil_2 _) eq_refl ltac:(by vm_compute)).
  assert (H2 := malloc32_wf _ [Block 32 true] _ H1 ltac:(by repeat constructor) eq_refl ltac:(by vm_compute)).
  pose proof (kfree_wf _ _ [] _ _ H2 eq_refl) as [H3 _]. eexists. exact H3.
Qed.

Lemma kmalloc_hands_out_live_block_witness :
  ∃ h1 h2, kmalloc with_hole 32 = Some (HEAP_START + 32, h1) ∧ kmalloc h1 20 = Some (HEAP_START + 96, h2).
Proof.
  destruct with_hole_wf as [n Hwf].
  exact (proj2 (kmalloc_hands_out_live_block with_hole 32 20 [] _ _ _ Hwf ltac:(lia) ltac:(lia)
    (Forall_nil_2 _) (Forall_nil_2 _) eq_refl eq_refl eq_refl)).
Defined.

Lemma heap_expand_spec_witness :
  ∃ h', heap_expand boot_heap 5000 = Some (true, h').
Proof.
  destruct (heap_expand_spec boot_heap _ 5000 boot_heap_wf) as (ok & h' & E & Hr); [by cbv|].
  assert (Ef : for_ 0 (ALIGN_UP 5000 PAGE_SIZE / PAGE_SIZE) (expand_page (heap_break boot_heap))
                 (h_world boot_heap) = Next 0x802000) by (vm_compute; reflexivity).
  assert (Em : (heap_size boot_heap + ALIGN_UP 5000 PAGE_SIZE <=? HEAP_MAX_SIZE) = true)
    by (vm_compute; reflexivity).
  rewrite Ef, Em in Hr. exists h'. rewrite E. destruct Hr as [Hok _]. by rewrite Hok.
Defined.

Lemma kmalloc_grows_witness :
  ∃ ptr h', kmalloc boot_heap 0x400000 = Some (ptr, h') ∧ ptr = HEAP_START + 32.
Proof.
  destruct (kmalloc_grows boot_heap _ 0x400000 (0x400000 + 0x400000 + 0x401000) []
    (Block (HEAP_INITIAL_SIZE + 0x401000 - 32) false) [] boot_heap_wf) as (ptr & h' & E & Hp & _);
    [by cbv|by repeat constructor|by cbv|by vm_compute|by vm_compute|done|by vm_compute|by cbv|].
  exists ptr, h'. split; [exact E|exact Hp].
Defined.

Lemma heap_validate_wf_witness : heap_validate after_malloc.2 = Some true.
Proof. exact (heap_validate_wf after_malloc.2 _ after_malloc_wf). Defined.

Lemma heap_get_stats_accounts_witness :
  112 + (HEAP_INITIAL_SIZE - 32 - 112 - 32) + 32 * 2 = heap_size after_malloc.2.
Proof. exact (proj2 (heap_get_stats_accounts after_malloc.2 _ after_malloc_wf)). Defined.

Lemma kmalloc_size_wraps_witness : kmalloc boot_heap (2 ^ 64 - 1) = kmalloc boot_heap 1.
Proof. apply (kmalloc_size_wraps boot_heap (2 ^ 64 - 1)). lia. Defined.
