(* ===== verification/KernelHeap.v ===== *)
(** * The heap as process.c and file.c use it

    [KernelHeap] is the interface: [kmalloc], [kfree] and storing a word through
    a pointer into a block.  [KernelHeapLaws] is what its clients rely on, for a
    heap that is in order and requests up to 64 KB for which no free block fits
    tightly ([kh_roomy]): a block that is handed out was not live, and the other
    blocks stay.  The allocator of Heap implements the interface and meets the
    laws; without the condition on tight fits it does not. *)

From Stdlib Require Import ZArith Lia.
From stdpp Require Import base numbers list.
From S2P Require Import Prelude.
From S2P Require Import Mem.
From S2P Require Import Heap.

Class KernelHeap (A : Type) := {
  kh_kmalloc : Z → A → Z * A;
  kh_kfree : Z → A → A;
  kh_store64 : Z → Z → A → A;
  kh_process_entry_wrapper : Z
}.

(** The largest request the clients make. *)
Definition KH_MAX : Z := 0x10000.

Class KernelHeapLaws (A : Type) `{KernelHeap A} := {
  (** The heap is in order; [kh_block h a n]: a live block at [a], of at least
      [n] bytes. *)
  kh_ok : A → Prop;
  kh_block : A → Z → Z → Prop;
  kh_roomy : A → Z → Prop;
  kh_block_range : ∀ h a n, kh_block h a n → 0 < a ∧ a + n < 2 ^ 64;
  kh_kmalloc_ok : ∀ n h a h', 0 < n <= KH_MAX → kh_ok h → kh_roomy h n → kh_kmalloc n h = (a, h') →
    kh_ok h' ∧ (∀ b k, kh_block h b k → kh_block h' b k)
    ∧ (a ≠ 0 → kh_block h' a n ∧ a mod 16 = 0 ∧ ∀ k, ¬ kh_block h a k);
  kh_kfree_ok : ∀ a n h, kh_ok h → kh_block h a n →
    kh_ok (kh_kfree a h) ∧ ∀ b k, b ≠ a → kh_block h b k → kh_block (kh_kfree a h) b k;
  kh_store_ok : ∀ a n x v h, kh_ok h → kh_block h a n → a <= x → x + 8 <= a + n →
    kh_ok (kh_store64 x v h) ∧ ∀ b k, kh_block h b k → kh_block (kh_store64 x v h) b k
}.

(** ** Live blocks of the abstract heap *)

Fixpoint live (a : Z) (bs : list block) (p n : Z) : Prop :=
  match bs with
  | [] => False
  | b :: bs => (b_used b = true ∧ p = a + 32 ∧ 0 <= n <= b_size b) ∨ live (a + 32 + b_size b) bs p n
  end.

Lemma live_app a l1 l2 p n : live a (l1 ++ l2) p n ↔ live a l1 p n ∨ live (end_of a l1) l2 p n.
Proof. revert a; induction l1 as [|b l1 IH]; intros a; simpl; [tauto|]. rewrite IH. tauto. Qed.

Lemma live_bounds a bs p n : Forall size_ok bs → live a bs p n → a + 32 <= p ∧ 0 <= n ∧ p + n <= end_of a bs.
Proof.
  intros Hs. revert a. induction Hs as [|b bs [Hb _] Hs IH]; intros a; [done|]. simpl.
  pose proof (end_of_ge (a + 32 + b_size b) bs Hs). intros [?|Hl%IH]; lia.
Qed.

Lemma live_inside a bs p n x : live a bs p n → p <= x < p + n → in_used a bs x.
Proof. revert a. induction bs as [|b bs IH]; intros a; [done|]. simpl. intros [(Hb & -> & Hn)|Hl] Hx; [left; split; [done|lia]|right; auto]. Qed.

Lemma live_split a bs p n :
  live a bs p n → ∃ l1 b l2, bs = l1 ++ b :: l2 ∧ b_used b = true ∧ p = end_of a l1 + 32 ∧ n <= b_size b.
Proof.
  revert a. induction bs as [|b bs IH]; intros a; [done|]. simpl. intros [(Hb & -> & Hn)|Hl].
  - exists [], b, bs. split_and!; [done|done|done|lia].
  - destruct (IH _ Hl) as (l1 & c & l2 & -> & Hc & -> & Hle). by exists (b :: l1), c, l2.
Qed.

(** Allocating in a free block, and merging free blocks, keeps the live ones. *)
Lemma live_alloc a l1 b l2 k p n :
  b_used b = false → live a (l1 ++ b :: l2) p n → live a (l1 ++ alloc_block k b ++ l2) p n.
Proof.
  intros Hb. pose proof (end_of_alloc_block (end_of a l1) k b []) as He. rewrite app_nil_r in He.
  rewrite !live_app, He. simpl. rewrite Hb. naive_solver.
Qed.

Lemma live_absorb a c t p n : b_used c = false → live a (absorb (c :: t)) p n ↔ live a (c :: t) p n.
Proof.
  intros Hc. destruct t as [|d t]; [done|]. unfold absorb. destruct (b_used d) eqn:Ed; [done|]. simpl. rewrite Hc, Ed.
  replace (a + 32 + (b_size c + 32 + b_size d)) with (a + 32 + b_size c + 32 + b_size d) by lia. naive_solver.
Qed.

Lemma live_coalesce a l1 t p n : live a (coalesce l1 t) p n ↔ live a (l1 ++ t) p n.
Proof.
  destruct l1 as [|c l0 _] using rev_ind; [done|]. rewrite coalesce_snoc. destruct (b_used c) eqn:Ec; [done|].
  rewrite <- app_assoc. cbn [app]. rewrite !live_app. by rewrite (live_absorb (end_of a l0) c t p n Ec).
Qed.

(** A heap has one block list. *)
Lemma seg_unique m p p' a bs bs' :
  seg m p a bs 0 → seg m p' a bs' 0 → end_of a bs = end_of a bs' → bs = bs'.
Proof.
  revert p p' a bs'. induction bs as [|b bs IH]; intros p p' a bs' H1 H2 He.
  - destruct bs' as [|b' bs']; [done|]. pose proof (seg_sizes _ _ _ _ _ H2) as Hz.
    pose proof (end_of_ge a _ Hz). simpl in *. lia.
  - destruct bs' as [|b' bs'].
    { pose proof (seg_sizes _ _ _ _ _ H1) as Hz. pose proof (end_of_ge a _ Hz). simpl in *. lia. }
    destruct H1 as ([_ F1 S1 _ _] & _ & R1), H2 as ([_ F2 S2 _ _] & _ & R2).
    assert (b = b') as <-.
    { destruct b as [n u], b' as [n' u']. simpl in *. f_equal; [congruence|].
      rewrite F1 in F2. unfold b_flags in F2. simpl in F2. by destruct u, u'. }
    f_equal. by apply (IH a a (a + 32 + b_size b)).
Qed.

Section real_heap.
Context {W : Type} `{PageSource W}.
Implicit Types h : heap W.

Lemma heap_wf_unique h bs bs' : heap_wf h bs → heap_wf h bs' → bs = bs'.
Proof.
  intros H1 H2. eapply seg_unique; [exact (wf_seg _ _ H1)|exact (wf_seg _ _ H2)|].
  by rewrite (wf_end _ _ H1), (wf_end _ _ H2).
Qed.

(** The first free block that fits leaves room for a header. *)
Definition roomy (bs : list block) (n : Z) : Prop :=
  ∀ l1 b l2, bs = l1 ++ b :: l2 → Forall (λ b, fits (request_size n) b = false) l1 →
    fits (request_size n) b = true → request_size n + 32 <= b_size b.

(** After an expansion by a megabyte the last block fits, with room. *)
Lemma grown_fit bs n e :
  Forall (λ b, fits n b = false) bs → Forall size_ok bs → n + 64 <= e →
  ∃ l1 b l2, coalesce bs [Block (e - 32) false] = l1 ++ b :: l2 ∧ Forall (λ b, fits n b = false) l1
    ∧ fits n b = true ∧ n + 32 <= b_size b.
Proof.
  intros Hno Hs He. destruct bs as [|c l0 _] using rev_ind.
  - exists [], (Block (e - 32) false), []. split_and!; [done|done| |simpl; lia].
    unfold fits. simpl. apply Z.leb_le. lia.
  - apply Forall_app in Hno as [Hno Hc]. apply Forall_app in Hs as [_ Hs]. inversion_clear Hs as [|? ? [Hcs _] _].
    rewrite coalesce_snoc. destruct (b_used c) eqn:Ec.
    + exists (l0 ++ [c]), (Block (e - 32) false), []. split_and!; [done|by apply Forall_app| |simpl; lia].
      unfold fits. simpl. apply Z.leb_le. lia.
    + eexists l0, _, []. split_and!; [done|done| |simpl; lia].
      unfold fits. simpl. rewrite Ec. simpl. apply Z.leb_le. lia.
Qed.

Lemma first_fit_split bs n :
  Forall (λ b, fits n b = false) bs
  ∨ ∃ l1 b l2, bs = l1 ++ b :: l2 ∧ Forall (λ b, fits n b = false) l1 ∧ fits n b = true.
Proof.
  induction bs as [|b bs IH]; [by left|]. destruct (fits n b) eqn:Eb; [right; by exists [], b, bs|].
  destruct IH as [IH|(l1 & c & l2 & -> & Hl & Hc)]; [left; by constructor|].
  right. exists (b :: l1), c, l2. split_and!; [done|by constructor|done].
Qed.

(** What a request does to the live blocks: nothing, and it adds a new one. *)
Definition alloc_live (bs bs' : list block) (ptr n : Z) : Prop :=
  (∀ p k, live HEAP_START bs p k → live HEAP_START bs' p k)
  ∧ (ptr ≠ 0 → live HEAP_START bs' ptr n ∧ ptr mod 16 = 0 ∧ ∀ k, ¬ live HEAP_START bs ptr k).

Lemma alloc_live_ok bs l1 b l2 n :
  Forall size_ok (l1 ++ b :: l2) → 0 < n <= KH_MAX → fits (request_size n) b = true →
  (∀ p k, live HEAP_START bs p k → live HEAP_START (l1 ++ b :: l2) p k) →
  request_size n + 32 <= b_size b →
  alloc_live bs (l1 ++ alloc_block (request_size n) b ++ l2) (end_of HEAP_START l1 + 32) n.
Proof.
  intros Hs Hn [Hb Hle%Z.leb_le]%andb_true_iff Hsub Hroom. apply negb_true_iff in Hb. unfold KH_MAX in Hn.
  destruct (request_size_spec n ltac:(lia)) as (H1 & _). split.
  - intros p k Hl. apply live_alloc; [done|by apply Hsub].
  - intros _. split_and!.
    + rewrite live_app. right. unfold alloc_block. destruct (_ <? _); simpl; left; split_and!; done || lia.
    + rewrite Zplus_mod, end_of_aligned; [done|done|]. by apply Forall_app in Hs as [? _].
    + intros k Hl%Hsub. rewrite live_app in Hl. apply Forall_app in Hs as [Hs1 Hs2].
      inversion_clear Hs2 as [|? ? [Hbs _] Hs3]. simpl in Hl. rewrite Hb in Hl.
      destruct Hl as [Hl|[[? _]|Hl]]; [|done|]; apply live_bounds in Hl; try done; lia.
Qed.

(** A request of at most 64 KB on a heap in order, no free block fitting
    tightly, returns, with a block or with 0 after a failed expansion. *)
Lemma kmalloc_runs h bs n :
  heap_wf h bs → 0 < n <= KH_MAX → roomy bs n →
  ∃ ptr h' bs', kmalloc h n = Some (ptr, h') ∧ heap_wf h' bs' ∧ alloc_live bs bs' ptr n.
Proof.
  intros Hwf Hn Hroom. pose proof (wf_sizes h bs Hwf) as Hs. assert (Hn' : 0 < n <= 0x10000) by exact Hn.
  destruct (first_fit_split bs (request_size n)) as [Hno|(l1 & b & l2 & -> & Hl & Hb)].
  - destruct (request_size_spec n ltac:(lia)) as (_ & H32 & _ & Hlt).
    assert (Hg : growth n = 0x100000).
    { unfold growth, HEAP_EXPAND_SIZE. rewrite Z.max_r by lia. reflexivity. }
    assert (Hfail : alloc_live bs bs 0 n) by (split; [done|by intros []]).
    pose proof (heap_expand_spec h bs (Z.max (request_size n + 32) HEAP_EXPAND_SIZE) Hwf) as Hx.
    cbv zeta in Hx. fold (growth n) in Hx. rewrite Hg in Hx.
    destruct Hx as (ok & h1 & Ex & Hx); [unfold HEAP_EXPAND_SIZE, HEAP_MAX_SIZE; lia|].
    assert (Hf0 : ok = false → heap_wf h1 bs → ∃ ptr h' bs', kmalloc h n = Some (ptr, h') ∧ heap_wf h' bs' ∧ alloc_live bs bs' ptr n).
    { intros -> Hw1. exists 0, h1, bs. split_and!; [|done|done].
      destruct (wf_limit h bs Hwf) as [_ Hlen]. unfold kmalloc. change KMALLOC_FUEL with (S 299).
      rewrite kmalloc_fuel_S, (proj2 (Z.eqb_neq n 0)) by lia.
      rewrite (wf_first _ _ Hwf), (loop_runs _ (S (length bs)) _ Exhausted).
      - by rewrite bind_Some_eq, header_size_val, u64_id, Ex, bind_Some_eq by lia.
      - pose proof (search_exhausted (h_mem h) (request_size n) 0 HEAP_START bs (wf_seg _ _ Hwf) ltac:(done) Hno) as Hr.
        pose proof (wf_nonempty _ _ Hwf). by destruct bs.
      - unfold WHILE_FUEL. lia. }
    destruct (for_ _ _ _ _) as [w|w] eqn:Ef; [|apply Hf0; apply Hx].
    destruct (Z.leb_spec (heap_size h + 0x100000) HEAP_MAX_SIZE) as [Hmax|_]; [|destruct Hx as [? ->]; by apply Hf0].
    destruct (grown_fit bs (request_size n) 0x100000 Hno Hs ltac:(lia)) as (l1 & b & l2 & Eco & Hl & Hb & Hr).
    destruct (kmalloc_grown h bs n w l1 b l2) as (ptr & h' & Ek & -> & Hw' & _); rewrite ?Hg; try done.
    { unfold HEAP_MAX_SIZE. lia. }
    destruct Hx as (_ & _ & Hw1 & _). rewrite Eco in Hw1. pose proof (wf_sizes _ _ Hw1) as Hs1.
    eexists _, h', _. split_and!; [exact Ek|exact Hw'|]. apply alloc_live_ok; try done.
    intros p k Hp. rewrite <- Eco. apply live_coalesce, live_app. by left.
  - destruct (kmalloc_fuel_found 299 h _ n l1 b l2 Hwf) as (ptr & h' & E & Hok & _); try done; [lia|by eapply Hroom|].
    eexists ptr, h', _. split_and!; [exact E|exact (ao_wf _ _ _ _ _ _ _ _ Hok)|].
    rewrite (ao_ptr _ _ _ _ _ _ _ _ Hok). apply alloc_live_ok; try done. by eapply Hroom.
Qed.

(** ** The interface, implemented *)

(** [kmalloc] of the interface; it answers 0 where that of heap.c would not
    return, which by [kmalloc_runs] it does. *)
#[global] Instance real_heap (wrapper : Z) : KernelHeap (heap W) := {
  kh_kmalloc n h := default (0, h) (kmalloc h n);
  kh_kfree a h := kfree h a;
  kh_store64 a v h := with_mem h (store64 (h_mem h) a v);
  kh_process_entry_wrapper := wrapper
}.

Lemma with_mem_wf h bs m : heap_wf h bs → (∀ x, ¬ in_used HEAP_START bs x → m x = h_mem h x) → heap_wf (with_mem h m) bs.
Proof.
  intros Hwf Hm. pose proof (wf_sizes h bs Hwf) as Hs. destruct Hwf as [? ? Hseg ? ? ? ?]. split; try done.
  apply (seg_ext (h_mem h)); [|done]. intros x Hx. symmetry. apply Hm. intros Hu. by apply (used_not_header _ _ _ Hs Hu).
Qed.

#[global] Program Instance real_heap_laws (wrapper : Z) : @KernelHeapLaws (heap W) (real_heap wrapper) := {
  kh_ok h := ∃ bs, heap_wf h bs;
  kh_block h a n := ∃ bs, heap_wf h bs ∧ live HEAP_START bs a n;
  kh_roomy h n := ∀ bs, heap_wf h bs → roomy bs n
}.
Next Obligation.
  intros wrapper h a n (bs & Hwf & Hl). destruct (wf_limit h bs Hwf) as [Hlim _].
  apply live_bounds in Hl; [|exact (wf_sizes h bs Hwf)]. unfold HEAP_START in *. lia.
Qed.
Next Obligation.
  intros wrapper n h a h' Hn (bs & Hwf) Hroom E. simpl in E.
  destruct (kmalloc_runs h bs n Hwf Hn (Hroom bs Hwf)) as (ptr & h1 & bs' & Ek & Hw' & Hkeep & Hnew).
  rewrite Ek in E. simpl in E. injection E as [= <- <-].
  assert (Hone : ∀ b k, (∃ bs0, heap_wf h bs0 ∧ live HEAP_START bs0 b k) → live HEAP_START bs b k).
  { intros b k (bs0 & Hw0 & Hl). by rewrite (heap_wf_unique h bs bs0 Hwf Hw0). }
  split_and!; [eauto|intros b k Hl; eauto|]. intros Hne. destruct (Hnew Hne) as (H1 & H2 & H3).
  split_and!; [eauto|done|]. intros k Hl. exact (H3 k (Hone _ _ Hl)).
Qed.
Next Obligation.
  intros wrapper a n h _ (bs & Hwf & Hl). simpl. destruct (live_split _ _ _ _ Hl) as (l1 & b & l2 & -> & Hb & -> & _).
  pose proof (kfree_wf h _ l1 b l2 Hwf eq_refl) as Hf. cbv zeta in Hf. rewrite Hb in Hf. destruct Hf as [Hf _].
  split; [eauto|]. intros q k Hne (bs0 & Hw0 & Hq). rewrite (heap_wf_unique h _ _ Hw0 Hwf) in Hq.
  eexists. split; [exact Hf|]. unfold free_block. rewrite live_coalesce. rewrite live_app in Hq |- *.
  rewrite (live_absorb _ (Block (b_size b) false)) by done. simpl in *. naive_solver.
Qed.
Next Obligation.
  intros wrapper a n x v h _ (bs & Hwf & Hl) H1 H2. simpl.
  assert (Hw : heap_wf (with_mem h (store64 (h_mem h) x v)) bs).
  { apply with_mem_wf; [done|]. intros y Hy. unfold store64. apply store_ne.
    destruct (decide (y < x ∨ x + 8 <= y)); [done|]. destruct Hy. apply (live_inside _ _ a n); [done|lia]. }
  split; [eauto|]. intros b k (bs0 & Hw0 & Hq). rewrite (heap_wf_unique h _ _ Hw0 Hwf) in Hq. eauto.
Qed.

(** ** Heaps without holes *)

(** All blocks are in use but the last, which has [r] bytes. *)
Definition spare h (r : Z) : Prop :=
  ∃ l b, heap_wf h (l ++ [b]) ∧ Forall (λ b, b_used b = true) l ∧ b_used b = false ∧ r <= b_size b.

Lemma used_unfit n l : Forall (λ b, b_used b = true) l → Forall (λ b, fits n b = false) l.
Proof. intros Hl. eapply Forall_impl; [exact Hl|]. intros b Hb. unfold fits. by rewrite Hb. Qed.

Lemma spare_roomy wrapper h r n :
  spare h r → 0 < n <= KH_MAX → n + 64 <= r → @kh_roomy _ (real_heap wrapper) (real_heap_laws wrapper) h n.
Proof.
  intros (l & b & Hwf & Hl & Hb & Hr) Hn Hnr bs Hw l1 c l2 -> Hno Hc. unfold KH_MAX in Hn.
  destruct (request_size_spec n ltac:(lia)) as (_ & _ & _ & Hlt).
  pose proof (heap_wf_unique h _ _ Hw Hwf) as E. destruct l2 as [|d l2 _] using rev_ind.
  - apply app_inj_tail in E as [_ ->]. lia.
  - rewrite app_comm_cons, app_assoc in E. apply app_inj_tail in E as [<- _].
    apply Forall_app in Hl as [_ Hl]. inversion_clear Hl as [|? ? Hu _]. unfold fits in Hc. by rewrite Hu in Hc.
Qed.

Lemma spare_kmalloc h r n :
  spare h r → 0 < n <= KH_MAX → n + 128 <= r → ∃ ptr h', kmalloc h n = Some (ptr, h') ∧ ptr ≠ 0 ∧ spare h' (r - n - 64).
Proof.
  intros (l & b & Hwf & Hl & Hb & Hr) Hn Hnr. unfold KH_MAX in Hn.
  destruct (request_size_spec n ltac:(lia)) as (_ & H32 & _ & Hlt).
  destruct (kmalloc_fuel_found 299 h _ n l b [] Hwf) as (ptr & h' & E & Hok & _); try done; [lia|by apply used_unfit| |lia|].
  { unfold fits. rewrite Hb. apply Z.leb_le. lia. }
  exists ptr, h'. split_and!; [exact E| |].
  - rewrite (ao_ptr _ _ _ _ _ _ _ _ Hok). pose proof (wf_sizes h _ Hwf) as [Hs _]%Forall_app.
    pose proof (end_of_ge HEAP_START l Hs). unfold HEAP_START in *. lia.
  - pose proof (ao_wf _ _ _ _ _ _ _ _ Hok) as Hw. unfold alloc_block, HEAP_MIN_BLOCK in Hw.
    rewrite (proj2 (Z.ltb_ge _ _)) in Hw by lia.
    exists (l ++ [Block (request_size n) true]), (Block (b_size b - request_size n - 32) false).
    split_and!; [by rewrite <- app_assoc|apply Forall_app; split; [done|by constructor]|done|simpl; lia].
Qed.

Lemma spare_store wrapper h r a n x v :
  spare h r → @kh_block _ (real_heap wrapper) (real_heap_laws wrapper) h a n → a <= x → x + 8 <= a + n →
  spare (@kh_store64 _ (real_heap wrapper) x v h) r.
Proof.
  intros (l & b & Hwf & Hrest) (bs & Hw & Hl) H1 H2. rewrite (heap_wf_unique h _ _ Hw Hwf) in Hl.
  exists l, b. split; [|done]. apply with_mem_wf; [done|]. intros y Hy. apply store_ne.
  destruct (decide (y < x ∨ x + 8 <= y)); [done|]. destruct Hy. apply (live_inside _ _ a n); [done|lia].
Qed.

End real_heap.
