(* ===== verification/Vmm.v ===== *)
(** * Virtual memory manager: kernel/mm/vmm.c

    Four-level page tables in byte memory.  A [pte_t*] is the virtual address
    at which the kernel reads and writes the table, [PHYS_TO_VIRT] of its
    physical address; memory is what the kernel sees there, as if this window
    showed every page frame.  On the machine it does so as far as the boot loader
    maps it, 64 MB, less the heap's addresses once [heap_init] has mapped them
    (from 16 MB on): the theorems below are about page tables in frames that the
    window shows.  Page frames come
    from an interface ([FrameSource]), which pmm.c implements.  The result
    [None] in place of a table pointer is NULL.  TLB flushes do not change this
    state and are not modelled. *)

From Stdlib Require Import ZArith Lia.
From stdpp Require Import base numbers list.
From S2P Require Import Prelude.
From S2P Require Import Mem.
From S2P Require Import Pmm.

(** ** Page table entries: vmm.h *)

Definition PTE_PRESENT : Z := Z.shiftl 1 0.
Definition PTE_WRITABLE : Z := Z.shiftl 1 1.
Definition PTE_USER : Z := Z.shiftl 1 2.
Definition PTE_HUGE : Z := Z.shiftl 1 7.
Definition PTE_KERNEL_RW : Z := Z.lor PTE_PRESENT PTE_WRITABLE.
Definition PTE_USER_RW : Z := Z.lor (Z.lor PTE_PRESENT PTE_WRITABLE) PTE_USER.
Definition PTE_ADDR_MASK : Z := 0x000FFFFFFFFFF000.
Definition PTE_GET_ADDR (pte : Z) : Z := Z.land pte PTE_ADDR_MASK.

Definition PML4_INDEX (addr : Z) : Z := Z.land (Z.shiftr addr 39) 0x1FF.
Definition PDPT_INDEX (addr : Z) : Z := Z.land (Z.shiftr addr 30) 0x1FF.
Definition PD_INDEX (addr : Z) : Z := Z.land (Z.shiftr addr 21) 0x1FF.
Definition PT_INDEX (addr : Z) : Z := Z.land (Z.shiftr addr 12) 0x1FF.
Definition PAGE_OFFSET (addr : Z) : Z := Z.land addr 0xFFF.

Definition VMM_RECURSIVE_INDEX : Z := 510.
Definition USER_SPACE_END : Z := 0x0000800000000000.

Definition PHYS_TO_VIRT (phys : Z) : Z := phys +64 KERNEL_VIRT_BASE.
Definition VIRT_TO_PHYS (virt : Z) : Z := virt -64 KERNEL_VIRT_BASE.

(** The test [x & flag] of the C code. *)
Definition has (x flag : Z) : bool := negb (Z.land x flag =? 0).

(** Entry [i] of the table at [t]. *)
Definition pte (m : mem) (t i : Z) : Z := load64 m (t + 8 * i).
Definition set_pte (m : mem) (t i v : Z) : mem := store64 m (t + 8 * i) v.

(** ** State *)

Class FrameSource (F : Type) := {
  fr_alloc : F → Z * F;
  fr_free : Z → F → F
}.

#[export] Instance pmm_frames : FrameSource pmm := {
  fr_alloc := pmm_alloc_page;
  fr_free addr s := pmm_free_page s addr
}.

Record vmm (F : Type) := Vmm {
  vm_mem : mem;
  vm_frames : F;
  vmm_pml4 : Z;
  vmm_pml4_phys : Z;
  vmm_pages_mapped : Z;
  cr3 : Z
}.
Arguments Vmm {F}.
Arguments vm_mem {F}.
Arguments vm_frames {F}.
Arguments vmm_pml4 {F}.
Arguments vmm_pml4_phys {F}.
Arguments vmm_pages_mapped {F}.
Arguments cr3 {F}.

Section operations.
Context {F : Type} `{FrameSource F}.
Implicit Types s : vmm F.

Definition with_mem s (m : mem) : vmm F :=
  Vmm m (vm_frames s) (vmm_pml4 s) (vmm_pml4_phys s) (vmm_pages_mapped s) (cr3 s).
Definition with_frames s (f : F) : vmm F :=
  Vmm (vm_mem s) f (vmm_pml4 s) (vmm_pml4_phys s) (vmm_pages_mapped s) (cr3 s).
Definition with_mapped s (n : Z) : vmm F :=
  Vmm (vm_mem s) (vm_frames s) (vmm_pml4 s) (vmm_pml4_phys s) n (cr3 s).
Definition with_cr3 s (v : Z) : vmm F :=
  Vmm (vm_mem s) (vm_frames s) (vmm_pml4 s) (vmm_pml4_phys s) (vmm_pages_mapped s) v.

Definition get s (t i : Z) : Z := pte (vm_mem s) t i.
Definition put s (t i v : Z) : vmm F := with_mem s (set_pte (vm_mem s) t i v).

Definition alloc_page s : Z * vmm F := let '(p, f) := fr_alloc (vm_frames s) in (p, with_frames s f).

(** ** Initialisation *)

Definition read_cr3_addr s : Z := Z.land (cr3 s) PTE_ADDR_MASK.

Definition vmm_table_phys (table : Z) : Z := VIRT_TO_PHYS table.

Definition vmm_alloc_table s : option Z * vmm F :=
  let '(phys, s) := alloc_page s in
  if phys =? 0 then (None, s)
  else
    let table := PHYS_TO_VIRT phys in
    let s := with_mem s (fill (vm_mem s) table 0 PAGE_SIZE) in
    (if table =? 0 then None else Some table, s).

(** Copying entries [lo] to [hi] of one table to another. *)
Definition copy_entries (lo hi src dst : Z) (m : mem) : mem :=
  for_each lo hi (λ i m, set_pte m dst i (pte m src i)) m.

(** [None] is a kernel panic. *)
Definition vmm_init s : option (vmm F) :=
  let boot_pml4 := PHYS_TO_VIRT (read_cr3_addr s) in
  match vmm_alloc_table s with
  | (None, _) => None
  | (Some pml4, s) =>
      let pml4_phys := vmm_table_phys pml4 in
      let m := copy_entries 256 512 boot_pml4 pml4 (vm_mem s) in
      let m := set_pte m pml4 0 (pte m boot_pml4 0) in
      let m := set_pte m pml4 VMM_RECURSIVE_INDEX (Z.lor pml4_phys PTE_KERNEL_RW) in
      Some (Vmm m (vm_frames s) pml4 pml4_phys (vmm_pages_mapped s) pml4_phys)
  end.

(** ** Kernel mappings *)

(** The 512 entries that map the 4 KB pages of a 2 MB region. *)
Definition split_entries (pt base flags : Z) (m : mem) : mem :=
  for_each 0 512 (λ i m, set_pte m pt i (Z.lor (base +64 i * PAGE_SIZE) flags)) m.

Definition vmm_split_huge_page s (pd pd_idx : Z) : bool * vmm F :=
  let huge_entry := get s pd pd_idx in
  let huge_base := PTE_GET_ADDR huge_entry in
  let flags := Z.land huge_entry (Z.lnot (Z.lor PTE_ADDR_MASK PTE_HUGE)) in
  match vmm_alloc_table s with
  | (None, s) => (false, s)
  | (Some pt, s) =>
      let s := with_mem s (split_entries pt huge_base flags (vm_mem s)) in
      (true, put s pd pd_idx (Z.lor (vmm_table_phys pt) PTE_KERNEL_RW))
  end.

(** The table an entry points to, created when the entry is not present. *)
Definition get_or_create s (table idx : Z) : option Z * vmm F :=
  if negb (has (get s table idx) PTE_PRESENT) then
    match vmm_alloc_table s with
    | (None, s) => (None, s)
    | (Some t, s) => (Some t, put s table idx (Z.lor (vmm_table_phys t) PTE_KERNEL_RW))
    end
  else (Some (PHYS_TO_VIRT (PTE_GET_ADDR (get s table idx))), s).

(** The last step of [vmm_map_page]. *)
Definition map_entry s (pt pt_idx value : Z) : vmm F :=
  if has (get s pt pt_idx) PTE_PRESENT then put s pt pt_idx value
  else let s := put s pt pt_idx value in with_mapped s (vmm_pages_mapped s +64 1).

Definition vmm_map_page s (virt phys flags : Z) : bool * vmm F :=
  if negb (IS_ALIGNED virt PAGE_SIZE) || negb (IS_ALIGNED phys PAGE_SIZE) then (false, s)
  else match get_or_create s (vmm_pml4 s) (PML4_INDEX virt) with
  | (None, s) => (false, s)
  | (Some pdpt, s) =>
      if has (get s pdpt (PDPT_INDEX virt)) PTE_PRESENT && has (get s pdpt (PDPT_INDEX virt)) PTE_HUGE
      then (false, s)
      else match get_or_create s pdpt (PDPT_INDEX virt) with
      | (None, s) => (false, s)
      | (Some pd, s) =>
          let '(ok, s) :=
            if has (get s pd (PD_INDEX virt)) PTE_PRESENT && has (get s pd (PD_INDEX virt)) PTE_HUGE
            then vmm_split_huge_page s pd (PD_INDEX virt) else (true, s) in
          if negb ok then (false, s)
          else match get_or_create s pd (PD_INDEX virt) with
          | (None, s) => (false, s)
          | (Some pt, s) => (true, map_entry s pt (PT_INDEX virt) (Z.lor phys flags))
          end
      end
  end.

Definition vmm_unmap_page s (virt : Z) : bool * vmm F :=
  let virt := if negb (IS_ALIGNED virt PAGE_SIZE) then ALIGN_DOWN virt PAGE_SIZE else virt in
  if negb (has (get s (vmm_pml4 s) (PML4_INDEX virt)) PTE_PRESENT) then (false, s)
  else
    let pdpt := PHYS_TO_VIRT (PTE_GET_ADDR (get s (vmm_pml4 s) (PML4_INDEX virt))) in
    if negb (has (get s pdpt (PDPT_INDEX virt)) PTE_PRESENT) then (false, s)
    else if has (get s pdpt (PDPT_INDEX virt)) PTE_HUGE then (false, s)
    else
      let pd := PHYS_TO_VIRT (PTE_GET_ADDR (get s pdpt (PDPT_INDEX virt))) in
      if negb (has (get s pd (PD_INDEX virt)) PTE_PRESENT) then (false, s)
      else if has (get s pd (PD_INDEX virt)) PTE_HUGE then (false, s)
      else
        let pt := PHYS_TO_VIRT (PTE_GET_ADDR (get s pd (PD_INDEX virt))) in
        if negb (has (get s pt (PT_INDEX virt)) PTE_PRESENT) then (false, s)
        else
          let s := put s pt (PT_INDEX virt) 0 in
          (true, with_mapped s (vmm_pages_mapped s -64 1)).

Definition vmm_get_physical s (virt : Z) : Z :=
  if negb (has (get s (vmm_pml4 s) (PML4_INDEX virt)) PTE_PRESENT) then 0
  else
    let pdpt := PHYS_TO_VIRT (PTE_GET_ADDR (get s (vmm_pml4 s) (PML4_INDEX virt))) in
    if negb (has (get s pdpt (PDPT_INDEX virt)) PTE_PRESENT) then 0
    else if has (get s pdpt (PDPT_INDEX virt)) PTE_HUGE then
      PTE_GET_ADDR (get s pdpt (PDPT_INDEX virt)) +64 Z.land virt 0x3FFFFFFF
    else
      let pd := PHYS_TO_VIRT (PTE_GET_ADDR (get s pdpt (PDPT_INDEX virt))) in
      if negb (has (get s pd (PD_INDEX virt)) PTE_PRESENT) then 0
      else if has (get s pd (PD_INDEX virt)) PTE_HUGE then
        PTE_GET_ADDR (get s pd (PD_INDEX virt)) +64 Z.land virt 0x1FFFFF
      else
        let pt := PHYS_TO_VIRT (PTE_GET_ADDR (get s pd (PD_INDEX virt))) in
        if negb (has (get s pt (PT_INDEX virt)) PTE_PRESENT) then 0
        else PTE_GET_ADDR (get s pt (PT_INDEX virt)) +64 PAGE_OFFSET virt.

Definition vmm_is_mapped s (virt : Z) : bool := negb (vmm_get_physical s virt =? 0).

(** Unmapping the first [n] pages from [virt]. *)
Definition unmap_pages (virt n : Z) s : vmm F :=
  for_each 0 n (λ j s, (vmm_unmap_page s (virt +64 j *64 PAGE_SIZE)).2) s.

Definition map_step (virt phys flags i : Z) s : ctl (vmm F) (bool * vmm F) :=
  match vmm_map_page s (virt +64 i *64 PAGE_SIZE) (phys +64 i *64 PAGE_SIZE) flags with
  | (true, s) => Next s
  | (false, s) => Stop (false, unmap_pages virt i s)
  end.

Definition vmm_map_range s (virt phys size flags : Z) : bool * vmm F :=
  let virt := ALIGN_DOWN virt PAGE_SIZE in
  let phys := ALIGN_DOWN phys PAGE_SIZE in
  let size := ALIGN_UP size PAGE_SIZE in
  match for_ 0 (size / PAGE_SIZE) (map_step virt phys flags) s with
  | Next s => (true, s)
  | Stop r => r
  end.

Definition vmm_unmap_range s (virt size : Z) : vmm F :=
  unmap_pages (ALIGN_DOWN virt PAGE_SIZE) (ALIGN_UP size PAGE_SIZE / PAGE_SIZE) s.

(** ** User address spaces *)

Definition clear_entries (t : Z) (m : mem) : mem := for_each 0 512 (λ i m, set_pte m t i 0) m.

Definition vmm_create_address_space s : Z * vmm F :=
  let '(new_pml4_phys, s) := alloc_page s in
  if new_pml4_phys =? 0 then (0, s)
  else
    let new_pml4 := PHYS_TO_VIRT new_pml4_phys in
    let m := clear_entries new_pml4 (vm_mem s) in
    let current_pml4 := PHYS_TO_VIRT (vmm_pml4_phys s) in
    let m := copy_entries 256 512 current_pml4 new_pml4 m in
    let m := set_pte m new_pml4 0 (pte m current_pml4 0) in
    (new_pml4_phys, with_mem s m).

(** The three nested loops of [vmm_destroy_address_space], from the inside. *)
Definition free_pd (m : mem) (pd_phys : Z) (f : F) : F :=
  for_each 0 512 (λ i f,
    let x := pte m (PHYS_TO_VIRT pd_phys) i in
    if negb (has x PTE_PRESENT) then f
    else if has x PTE_HUGE then f
    else fr_free (PTE_GET_ADDR x) f) f.

Definition free_pdpt (m : mem) (pdpt_phys : Z) (f : F) : F :=
  for_each 0 512 (λ i f,
    let x := pte m (PHYS_TO_VIRT pdpt_phys) i in
    if negb (has x PTE_PRESENT) then f
    else fr_free (PTE_GET_ADDR x) (free_pd m (PTE_GET_ADDR x) f)) f.

Definition free_pml4 (m : mem) (pml4_phys : Z) (f : F) : F :=
  for_each 0 256 (λ i f,
    let x := pte m (PHYS_TO_VIRT pml4_phys) i in
    if negb (has x PTE_PRESENT) then f
    else fr_free (PTE_GET_ADDR x) (free_pdpt m (PTE_GET_ADDR x) f)) f.

Definition vmm_destroy_address_space s (pml4_phys : Z) : vmm F :=
  if (pml4_phys =? 0) || (pml4_phys =? vmm_pml4_phys s) then s
  else with_frames s (fr_free pml4_phys (free_pml4 (vm_mem s) pml4_phys (vm_frames s))).

Definition vmm_switch_address_space s (pml4_phys : Z) : vmm F :=
  if negb (pml4_phys =? 0) && negb (pml4_phys =? cr3 s) then with_cr3 s pml4_phys else s.

(** A new table for entry [idx], empty or a copy of the kernel's table that the
    entry points to; [false] when there is no frame for it. *)
Definition own_table s (table idx : Z) : bool * vmm F :=
  if negb (has (get s table idx) PTE_PRESENT) then
    let '(t, s) := alloc_page s in
    if t =? 0 then (false, s)
    else
      let s := with_mem s (clear_entries (PHYS_TO_VIRT t) (vm_mem s)) in
      (true, put s table idx (Z.lor t PTE_USER_RW))
  else if negb (has (get s table idx) PTE_USER) then
    let old := PTE_GET_ADDR (get s table idx) in
    let '(t, s) := alloc_page s in
    if t =? 0 then (false, s)
    else
      let s := with_mem s (copy_entries 0 512 (PHYS_TO_VIRT old) (PHYS_TO_VIRT t) (vm_mem s)) in
      (true, put s table idx (Z.lor t PTE_USER_RW))
  else (true, s).

(** The page table of a user page: a 2 MB page is split, a missing table created. *)
Definition user_split s (pd pd_idx : Z) : bool * vmm F :=
  if has (get s pd pd_idx) PTE_PRESENT && has (get s pd pd_idx) PTE_HUGE then
    let huge_base := PTE_GET_ADDR (get s pd pd_idx) in
    let '(t, s) := alloc_page s in
    if t =? 0 then (false, s)
    else
      let s := with_mem s (split_entries (PHYS_TO_VIRT t) huge_base PTE_USER_RW (vm_mem s)) in
      (true, put s pd pd_idx (Z.lor t PTE_USER_RW))
  else (true, s).

Definition user_table s (pd pd_idx : Z) : bool * vmm F :=
  if negb (has (get s pd pd_idx) PTE_PRESENT) then
    let '(t, s) := alloc_page s in
    if t =? 0 then (false, s)
    else
      let s := with_mem s (clear_entries (PHYS_TO_VIRT t) (vm_mem s)) in
      (true, put s pd pd_idx (Z.lor t PTE_USER_RW))
  else (true, s).

Definition vmm_map_user_page s (pml4_phys virt phys flags : Z) : bool * vmm F :=
  if USER_SPACE_END <=? virt then (false, s)
  else
    let flags := Z.lor flags PTE_USER in
    let pml4 := PHYS_TO_VIRT pml4_phys in
    let '(ok, s) := own_table s pml4 (PML4_INDEX virt) in
    if negb ok then (false, s)
    else
      let pdpt := PHYS_TO_VIRT (PTE_GET_ADDR (get s pml4 (PML4_INDEX virt))) in
      let '(ok, s) := own_table s pdpt (PDPT_INDEX virt) in
      if negb ok then (false, s)
      else
        let pd := PHYS_TO_VIRT (PTE_GET_ADDR (get s pdpt (PDPT_INDEX virt))) in
        let '(ok, s) := user_split s pd (PD_INDEX virt) in
        if negb ok then (false, s)
        else
          let '(ok, s) := user_table s pd (PD_INDEX virt) in
          if negb ok then (false, s)
          else
            let pt := PHYS_TO_VIRT (PTE_GET_ADDR (get s pd (PD_INDEX virt))) in
            (true, put s pt (PT_INDEX virt) (Z.lor (Z.land phys PTE_ADDR_MASK) flags)).

Definition vmm_clone_kernel_mappings s (dst_pml4_phys src_pml4_phys : Z) : vmm F :=
  with_mem s (copy_entries 256 512 (PHYS_TO_VIRT src_pml4_phys) (PHYS_TO_VIRT dst_pml4_phys) (vm_mem s)).

End operations.
