(* ===== verification/VmmSpec.v ===== *)
(** * Address translation and the theorems about vmm.c

    The reference is the processor's walk through the four levels of tables,
    [walk], as a function of the tables' entries.  The invariant [tables] says
    of a family of tables, one set per level, that entries lead from a level to
    the next and that the tables are distinct frames in use; the recursive entry
    510 of the top level is left out of it.  Tables may be shared: the boot
    loader reaches the same tables through the identity mapping and the kernel
    mapping.

    Each operation of vmm.c is shown to change the translation of exactly those
    addresses whose walk ends in the entry it writes. *)

From Stdlib Require Import ZArith Lia.
From stdpp Require Import base numbers list relations.
From S2P Require Import Prelude.
From S2P Require Import Mem.
From S2P Require Import Pmm.
From S2P Require Import Vmm.

(** ** Entries *)

Definition is_frame (p : Z) : Prop := p mod PAGE_SIZE = 0 ∧ 0 <= p < 2 ^ 52.

Lemma PTE_GET_ADDR_val x : PTE_GET_ADDR x = (x / 2 ^ 12) mod 2 ^ 40 * 2 ^ 12.
Proof.
  unfold PTE_GET_ADDR. change PTE_ADDR_MASK with (Z.shiftl (Z.ones 40) 12).
  rewrite <- Z.land_ones, <- Z.shiftr_div_pow2, <- Z.shiftl_mul_pow2 by lia.
  apply Z.bits_inj'. intros n Hn. rewrite Z.land_spec, !Z.shiftl_spec by lia.
  destruct (Z.ltb_spec n 12).
  - rewrite (Z.testbit_neg_r _ (n - 12)), (Z.testbit_neg_r _ (n - 12)) by lia. apply andb_false_r.
  - rewrite Z.land_spec, Z.shiftr_spec by lia. f_equal. f_equal. lia.
Qed.

Lemma get_addr_frame x : is_frame (PTE_GET_ADDR x).
Proof.
  rewrite PTE_GET_ADDR_val. split; [by apply Z.mod_mul|].
  pose proof (Z.mod_pos_bound (x / 2 ^ 12) (2 ^ 40) ltac:(lia)). lia.
Qed.

Lemma get_addr_id p : is_frame p → PTE_GET_ADDR p = p.
Proof.
  intros [Hm Hp]. rewrite PTE_GET_ADDR_val. change PAGE_SIZE with (2 ^ 12) in Hm.
  pose proof (Z.div_mod p (2 ^ 12) ltac:(lia)).
  rewrite Z.mod_small; [lia|]. split; [apply Z.div_pos; lia|apply Z.div_lt_upper_bound; lia].
Qed.

Lemma get_addr_lor p f : is_frame p → Z.land f PTE_ADDR_MASK = 0 → PTE_GET_ADDR (Z.lor p f) = p.
Proof.
  intros Hp Hf. unfold PTE_GET_ADDR. rewrite Z.land_lor_distr_l, Hf, Z.lor_0_r.
  by apply get_addr_id.
Qed.

Lemma land_frame p b : is_frame p → 0 <= b < 2 ^ 12 → Z.land p b = 0.
Proof.
  intros [Hm _] Hb. rewrite <- (Z.mod_small b (2 ^ 12)), <- Z.land_ones, (Z.land_comm b), Z.land_assoc by lia.
  rewrite Z.land_ones by lia. change (2 ^ 12) with PAGE_SIZE. by rewrite Hm, Z.land_0_l.
Qed.

Lemma has_lor p f b : is_frame p → 0 <= b < 2 ^ 12 → has (Z.lor p f) b = has f b.
Proof. intros Hp Hb. unfold has. by rewrite Z.land_lor_distr_l, land_frame. Qed.

Lemma lor_u64 a b : is_u64 a → is_u64 b → is_u64 (Z.lor a b).
Proof.
  assert (Hlog : ∀ x, is_u64 x → Z.log2 x < 64).
  { unfold is_u64. intros x Hx. destruct (decide (x = 0)) as [->|]; [done|]. apply Z.log2_lt_pow2; lia. }
  intros Ha Hb. pose proof (Hlog a Ha). pose proof (Hlog b Hb). unfold is_u64 in *.
  assert (0 <= Z.lor a b) by (apply Z.lor_nonneg; lia). split; [done|].
  destruct (decide (Z.lor a b = 0)) as [->|]; [lia|].
  apply Z.log2_lt_pow2; [lia|]. rewrite Z.log2_lor; lia.
Qed.

Lemma frame_u64 p : is_frame p → is_u64 p.
Proof. intros [_ ?]. unfold is_u64. lia. Qed.
#[export] Hint Resolve lor_u64 frame_u64 get_addr_frame : chanux.

Lemma add_small_u64 p off : is_frame p → 0 <= off < 2 ^ 52 → p +64 off = p + off.
Proof. intros [_ ?] ?. apply u64_id. lia. Qed.

(** ** The kernel's window onto a frame *)

Lemma window_val p : is_frame p →
  PHYS_TO_VIRT p = p + KERNEL_VIRT_BASE ∧ p < 2 ^ 31
  ∨ PHYS_TO_VIRT p = p + KERNEL_VIRT_BASE - 2 ^ 64 ∧ 2 ^ 31 <= p.
Proof.
  intros [_ Hp]. unfold PHYS_TO_VIRT, KERNEL_VIRT_BASE, u64. destruct (Z.lt_ge_cases p (2 ^ 31)).
  - left. rewrite Z.mod_small; lia.
  - right. rewrite <- (Z_mod_plus_full _ (-1)), Z.mod_small; lia.
Qed.

Lemma window_phys p : is_frame p → VIRT_TO_PHYS (PHYS_TO_VIRT p) = p.
Proof.
  intros [_ Hp]. unfold PHYS_TO_VIRT, VIRT_TO_PHYS, u64. rewrite Zminus_mod_idemp_l.
  rewrite Z.add_simpl_r. apply Z.mod_small. lia.
Qed.

Lemma frames_apart p q : is_frame p → is_frame q → p ≠ q → p + 4096 <= q ∨ q + 4096 <= p.
Proof.
  unfold is_frame, PAGE_SIZE. intros [Hp _] [Hq _] Hne.
  pose proof (Z.div_mod p 4096 ltac:(lia)). pose proof (Z.div_mod q 4096 ltac:(lia)). lia.
Qed.

Lemma windows_apart p q : is_frame p → is_frame q → p ≠ q →
  PHYS_TO_VIRT p + 4096 <= PHYS_TO_VIRT q ∨ PHYS_TO_VIRT q + 4096 <= PHYS_TO_VIRT p.
Proof.
  intros Hp Hq Hne. pose proof (frames_apart p q Hp Hq Hne). destruct Hp as [Hp Hp'], Hq as [Hq Hq'].
  destruct (window_val p (conj Hp Hp')), (window_val q (conj Hq Hq')); unfold KERNEL_VIRT_BASE, PAGE_SIZE in *; lia.
Qed.

Lemma pte_set_pte m p q i j v :
  is_frame p → is_frame q → 0 <= i < 512 → 0 <= j < 512 → is_u64 v →
  pte (set_pte m (PHYS_TO_VIRT p) i v) (PHYS_TO_VIRT q) j
  = if decide (p = q ∧ i = j) then v else pte m (PHYS_TO_VIRT q) j.
Proof.
  intros Hp Hq Hi Hj Hv. unfold pte, set_pte. case_decide as E.
  - destruct E as [-> ->]. by apply load64_store64.
  - apply load_store_ne. destruct (decide (p = q)) as [->|Hne]; [lia|].
    pose proof (windows_apart p q Hp Hq Hne). lia.
Qed.

Lemma pte_fill m p q j :
  is_frame p → is_frame q → 0 <= j < 512 →
  pte (fill m (PHYS_TO_VIRT p) 0 PAGE_SIZE) (PHYS_TO_VIRT q) j
  = if decide (p = q) then 0 else pte m (PHYS_TO_VIRT q) j.
Proof.
  intros Hp Hq Hj. unfold pte, PAGE_SIZE. case_decide as E.
  - subst q. apply load_fill_0; lia.
  - apply load_fill_ne. pose proof (windows_apart p q Hp Hq E). lia.
Qed.

Lemma pte_u64 m t i : mem_wf m → is_u64 (pte m t i).
Proof. intros Hm. exact (load_range 8 m (t + 8 * i) Hm). Qed.

(** A loop that writes the entries [lo] to [hi] of [p] with values that depend
    on other tables only. *)
Lemma write_entries (g : Z → mem → Z) (w : Z → Z) m p lo hi q j :
  is_frame p → is_frame q → 0 <= lo <= hi → hi <= 512 → 0 <= j < 512 →
  (∀ i, lo <= i < hi → is_u64 (w i)) →
  (∀ i m', lo <= i < hi →
     (∀ q j, is_frame q → q ≠ p → 0 <= j < 512 → pte m' (PHYS_TO_VIRT q) j = pte m (PHYS_TO_VIRT q) j) →
     g i m' = w i) →
  pte (for_each lo hi (λ i m, set_pte m (PHYS_TO_VIRT p) i (g i m)) m) (PHYS_TO_VIRT q) j
  = if decide (p = q ∧ lo <= j < hi) then w j else pte m (PHYS_TO_VIRT q) j.
Proof.
  intros Hp Hq Hlo Hhi Hj Hw Hg. revert q j Hq Hj.
  refine (for_each_inv (λ i m', ∀ q j, is_frame q → 0 <= j < 512 →
    pte m' (PHYS_TO_VIRT q) j = if decide (p = q ∧ lo <= j < i) then w j else pte m (PHYS_TO_VIRT q) j)
    lo hi _ m _ _ _); [lia| |].
  - intros q j Hq Hj. rewrite decide_False; [done|lia].
  - intros i m' Hi Hm q j Hq Hj. rewrite (Hg i m' Hi).
    + rewrite pte_set_pte by (try done; try lia; by apply Hw). rewrite Hm by done.
      repeat case_decide; destruct_and?; subst; try done; exfalso; naive_solver lia.
    + intros q' j' Hq' Hne Hj'. rewrite Hm, decide_False by naive_solver. done.
Qed.

Lemma write_entries_wf (g : Z → mem → Z) t lo hi m :
  lo <= hi → mem_wf m → mem_wf (for_each lo hi (λ i m, set_pte m t i (g i m)) m).
Proof.
  intros Hle Hm. apply (for_each_inv (λ _, mem_wf)); [done|done|]. intros. by apply mem_wf_store.
Qed.

Lemma split_entries_wf t base flags m : mem_wf m → mem_wf (split_entries t base flags m).
Proof. intros. by apply (write_entries_wf (λ i _, Z.lor (base +64 i * PAGE_SIZE) flags)). Qed.
Lemma clear_entries_wf t m : mem_wf m → mem_wf (clear_entries t m).
Proof. intros. by apply (write_entries_wf (λ _ _, 0)). Qed.
Lemma copy_entries_wf lo hi src dst m : lo <= hi → mem_wf m → mem_wf (copy_entries lo hi src dst m).
Proof. intros. by apply (write_entries_wf (λ i m, pte m src i)). Qed.

Lemma pte_copy_entries lo hi src dst m q j :
  is_frame src → is_frame dst → src ≠ dst → is_frame q → 0 <= lo <= hi → hi <= 512 → 0 <= j < 512 → mem_wf m →
  pte (copy_entries lo hi (PHYS_TO_VIRT src) (PHYS_TO_VIRT dst) m) (PHYS_TO_VIRT q) j
  = if decide (dst = q ∧ lo <= j < hi) then pte m (PHYS_TO_VIRT src) j else pte m (PHYS_TO_VIRT q) j.
Proof.
  intros Hs Hd Hne Hq Hlo Hhi Hj Hm. unfold copy_entries.
  apply (write_entries _ (λ i, pte m (PHYS_TO_VIRT src) i)); try done.
  - intros i Hi. by apply pte_u64.
  - intros i m' Hi Heq. apply Heq; [done|done|lia].
Qed.

Lemma pte_clear_entries t m q j :
  is_frame t → is_frame q → 0 <= j < 512 →
  pte (clear_entries (PHYS_TO_VIRT t) m) (PHYS_TO_VIRT q) j
  = if decide (t = q) then 0 else pte m (PHYS_TO_VIRT q) j.
Proof.
  intros Ht Hq Hj. unfold clear_entries.
  rewrite (write_entries (λ _ _, 0) (λ _, 0) m t 0 512 q j) by (done || lia).
  repeat case_decide; naive_solver.
Qed.

Lemma pte_split_entries t base flags m q j :
  is_frame t → is_frame q → is_frame base → base mod 2 ^ 21 = 0 → is_u64 flags → 0 <= j < 512 →
  pte (split_entries (PHYS_TO_VIRT t) base flags m) (PHYS_TO_VIRT q) j
  = if decide (t = q) then Z.lor (base + j * PAGE_SIZE) flags else pte m (PHYS_TO_VIRT q) j.
Proof.
  intros Ht Hq Hb Hal Hf Hj. unfold split_entries.
  assert (Hsum : ∀ i, 0 <= i < 512 → base +64 i * PAGE_SIZE = base + i * PAGE_SIZE)
    by (intros i Hi; apply add_small_u64; [done|unfold PAGE_SIZE; lia]).
  rewrite (write_entries (λ i _, Z.lor (base +64 i * PAGE_SIZE) flags) (λ i, Z.lor (base + i * PAGE_SIZE) flags)
    m t 0 512 q j); try (done || lia).
  - repeat case_decide; naive_solver.
  - intros i Hi. apply lor_u64; [|done]. destruct Hb as [_ ?]. unfold is_u64, PAGE_SIZE. lia.
  - intros i m' Hi _. by rewrite Hsum.
Qed.

(** ** The walk *)

(** The index into a table of level [l], and the offset below it. *)
Definition shift (l : nat) : Z := 12 + 9 * (Z.of_nat l - 1).
Definition idx (l : nat) (va : Z) : Z := (va / 2 ^ shift l) mod 512.

(** Entries of levels 3 and 2 may map a page of 1 GB or 2 MB. *)
Definition leaf (l : nat) (x : Z) : bool := match l with 2%nat | 3%nat => has x PTE_HUGE | _ => false end.

Abbreviation entries := (Z → Z → Z).

Fixpoint walk (e : entries) (l : nat) (p va : Z) : option Z :=
  match l with
  | O => Some (p + va mod PAGE_SIZE)
  | S k =>
      let x := e p (idx l va) in
      if negb (has x PTE_PRESENT) then None
      else if leaf l x then Some (PTE_GET_ADDR x + va mod 2 ^ shift l)
      else walk e k (PTE_GET_ADDR x) va
  end.

(** The entry of a last-level table in which the walk ends. *)
Fixpoint slot (e : entries) (l : nat) (p va : Z) : option (Z * Z) :=
  match l with
  | O => None
  | S O => Some (p, idx 1 va)
  | S k =>
      let x := e p (idx l va) in
      if negb (has x PTE_PRESENT) || leaf l x then None else slot e k (PTE_GET_ADDR x) va
  end.

Lemma idx_range l va : 0 <= idx l va < 512.
Proof. apply Z.mod_pos_bound. lia. Qed.

Lemma idx_bits va k : 0 <= k → Z.land (Z.shiftr va k) 0x1FF = (va / 2 ^ k) mod 512.
Proof. intros Hk. change 0x1FF with (2 ^ 9 - 1). rewrite land_ones_mod, Z.shiftr_div_pow2 by lia. done. Qed.

Lemma PML4_INDEX_val va : PML4_INDEX va = idx 4 va. Proof. by apply idx_bits. Qed.
Lemma PDPT_INDEX_val va : PDPT_INDEX va = idx 3 va. Proof. by apply idx_bits. Qed.
Lemma PD_INDEX_val va : PD_INDEX va = idx 2 va. Proof. by apply idx_bits. Qed.
Lemma PT_INDEX_val va : PT_INDEX va = idx 1 va. Proof. by apply idx_bits. Qed.

(** The page number decides the indices. *)
Lemma idx_page l va vb : (1 <= l)%nat → va / PAGE_SIZE = vb / PAGE_SIZE → idx l va = idx l vb.
Proof.
  intros Hl E. unfold idx, shift. rewrite Z.pow_add_r by lia. change (2 ^ 12) with PAGE_SIZE.
  rewrite <- !Z.div_div by (unfold PAGE_SIZE; lia). by rewrite E.
Qed.

Lemma slot_page e l p va vb : va / PAGE_SIZE = vb / PAGE_SIZE → slot e l p va = slot e l p vb.
Proof.
  intros E. revert p. induction l as [|l IH]; intros p; [done|]. destruct l as [|l].
  - simpl. by rewrite (idx_page 1 va vb).
  - change (slot e (S (S l)) p ?v) with (let x := e p (idx (S (S l)) v) in
      if negb (has x PTE_PRESENT) || leaf (S (S l)) x then None else slot e (S l) (PTE_GET_ADDR x) v).
    cbv zeta. rewrite (idx_page (S (S l)) va vb) by (done || lia). by rewrite IH.
Qed.

Lemma walk_slot e l p va q j :
  slot e l p va = Some (q, j) →
  walk e l p va = if has (e q j) PTE_PRESENT then Some (PTE_GET_ADDR (e q j) + va mod PAGE_SIZE) else None.
Proof.
  revert p. induction l as [|l IH]; intros p E; [done|]. destruct l as [|l].
  - injection E as <- <-. simpl. by destruct (has _ _).
  - revert E. change (slot e (S (S l)) p va) with (let x := e p (idx (S (S l)) va) in
      if negb (has x PTE_PRESENT) || leaf (S (S l)) x then None else slot e (S l) (PTE_GET_ADDR x) va).
    change (walk e (S (S l)) p va) with (let x := e p (idx (S (S l)) va) in
      if negb (has x PTE_PRESENT) then None
      else if leaf (S (S l)) x then Some (PTE_GET_ADDR x + va mod 2 ^ shift (S (S l)))
      else walk e (S l) (PTE_GET_ADDR x) va).
    cbv zeta. destruct (has (e p _) PTE_PRESENT); simpl negb; [|done].
    destruct (leaf _ _); simpl orb; [done|]. apply IH.
Qed.

(** ** Families of tables *)

Definition idx_ok (l : nat) (i : Z) : Prop := 0 <= i < 512 ∧ (l = 4%nat → i ≠ VMM_RECURSIVE_INDEX).
Definition va_ok (va : Z) : Prop := idx 4 va ≠ VMM_RECURSIVE_INDEX.

Lemma va_idx_ok l va : va_ok va → idx_ok l (idx l va).
Proof. intros Hv. split; [apply idx_range|]. by intros ->. Qed.
#[export] Hint Resolve va_idx_ok idx_range : chanux.

Abbreviation family := (nat → Z → Prop).

(** An entry that leads to the next level. *)
Definition link (l : nat) (x : Z) : bool := has x PTE_PRESENT && negb (leaf l x).

Record tables (e : entries) (used : Z → Prop) (T : family) : Prop := {
  t_level l p : T l p → (1 <= l <= 4)%nat;
  t_frame l p : T l p → is_frame p;
  t_used l p : T l p → used p;
  t_one l l' p : T l p → T l' p → l = l';
  t_next l p i : T (S (S l)) p → idx_ok (S (S l)) i → link (S (S l)) (e p i) = true →
                 T (S l) (PTE_GET_ADDR (e p i));
  t_huge p i : T 2%nat p → idx_ok 2 i → has (e p i) PTE_PRESENT = true → leaf 2 (e p i) = true →
               PTE_GET_ADDR (e p i) mod 2 ^ 21 = 0
}.

Lemma walk_S e l p va :
  walk e (S l) p va = let x := e p (idx (S l) va) in
    if has x PTE_PRESENT then
      if leaf (S l) x then Some (PTE_GET_ADDR x + va mod 2 ^ shift (S l)) else walk e l (PTE_GET_ADDR x) va
    else None.
Proof. simpl. by destruct (has _ _). Qed.

Lemma walk_link e l p va :
  link (S l) (e p (idx (S l) va)) = true → walk e (S l) p va = walk e l (PTE_GET_ADDR (e p (idx (S l) va))) va.
Proof.
  unfold link. rewrite andb_true_iff, negb_true_iff. intros [H1 H2]. rewrite walk_S. cbv zeta.
  by rewrite H1, H2.
Qed.

Lemma slot_SS e l p va :
  slot e (S (S l)) p va =
    if link (S (S l)) (e p (idx (S (S l)) va)) then slot e (S l) (PTE_GET_ADDR (e p (idx (S (S l)) va))) va else None.
Proof.
  change (slot e (S (S l)) p va) with (let x := e p (idx (S (S l)) va) in
    if negb (has x PTE_PRESENT) || leaf (S (S l)) x then None else slot e (S l) (PTE_GET_ADDR x) va).
  cbv zeta. unfold link. by destruct (has _ _), (leaf _ _).
Qed.

(** Walks through entries that agree. *)
Lemma walk_ext e e' used T l p va :
  tables e used T → T l p → va_ok va →
  (∀ l' p i, (l' <= l)%nat → T l' p → idx_ok l' i → e' p i = e p i) → walk e' l p va = walk e l p va.
Proof.
  intros Ht Hp Hv. revert p Hp. induction l as [|l IH]; intros p Hp Heq.
  - pose proof (t_level _ _ _ Ht _ _ Hp). lia.
  - rewrite !walk_S. cbv zeta. rewrite (Heq (S l)) by (auto with chanux).
    destruct (has _ _) eqn:Epr; [|done]. destruct (leaf _ _) eqn:El; [done|].
    destruct l as [|l]; [done|]. apply IH; [|intros l' q i Hl'; apply Heq; lia].
    apply (t_next _ _ _ Ht); [done|by apply va_idx_ok|]. unfold link. by rewrite Epr, El.
Qed.

(** Changing one entry of level 2 or higher, at which the walks stay the same. *)
Lemma walk_redirect e e' used T l0 p0 i0 :
  tables e used T → T l0 p0 →
  (∀ l p i, T l p → idx_ok l i → p ≠ p0 ∨ i ≠ i0 → e' p i = e p i) →
  (∀ va, va_ok va → idx l0 va = i0 → walk e' l0 p0 va = walk e l0 p0 va) →
  ∀ l p va, T l p → va_ok va → walk e' l p va = walk e l p va.
Proof.
  intros Ht Hp0 Heq Hloc l p va Hp Hv. revert p Hp. induction l as [|l IH]; intros p Hp.
  { pose proof (t_level _ _ _ Ht _ _ Hp). lia. }
  destruct (decide (p = p0 ∧ idx (S l) va = i0)) as [[-> Hi]|Hne].
  - pose proof (t_one _ _ _ Ht _ _ _ Hp Hp0) as <-. by apply Hloc.
  - rewrite !walk_S. cbv zeta. rewrite (Heq (S l)); [|done|by apply va_idx_ok|].
    2: { destruct (decide (p = p0)) as [->|]; [|by left]. right. intros E. by apply Hne. }
    destruct (has _ _) eqn:Epr; [|done]. destruct (leaf _ _) eqn:El; [done|].
    destruct l as [|l]; [done|]. apply IH. apply (t_next _ _ _ Ht); [done|by apply va_idx_ok|].
    unfold link. by rewrite Epr, El.
Qed.

(** Writing a last-level entry. *)
Lemma write_slot e e' used T q j l p va :
  tables e used T → T 1%nat q → T l p → va_ok va →
  (∀ l p i, T l p → idx_ok l i → p ≠ q ∨ i ≠ j → e' p i = e p i) →
  slot e' l p va = slot e l p va
  ∧ walk e' l p va = if decide (slot e l p va = Some (q, j)) then
      if has (e' q j) PTE_PRESENT then Some (PTE_GET_ADDR (e' q j) + va mod PAGE_SIZE) else None
    else walk e l p va.
Proof.
  intros Ht Hq Hp Hv Heq. revert p Hp. induction l as [|l IH]; intros p Hp.
  { pose proof (t_level _ _ _ Ht _ _ Hp). lia. }
  destruct l as [|l].
  - split; [done|]. rewrite !walk_S. change (slot e 1 p va) with (Some (p, idx 1 va)). cbv zeta.
    case_decide as E; [injection E as <- <-; done|]. rewrite (Heq 1%nat p); [done|done|by apply va_idx_ok|].
    destruct (decide (p = q)) as [->|]; [|by left]. right. by intros <-.
  - rewrite !slot_SS, !walk_S. cbv zeta.
    assert (e' p (idx (S (S l)) va) = e p (idx (S (S l)) va)) as ->.
    { apply (Heq (S (S l))); [done|by apply va_idx_ok|]. left. intros ->.
      by pose proof (t_one _ _ _ Ht _ _ _ Hp Hq). }
    destruct (link (S (S l)) (e p (idx (S (S l)) va))) eqn:El.
    + destruct (IH (PTE_GET_ADDR (e p (idx (S (S l)) va)))) as [-> ->].
      { apply (t_next _ _ _ Ht); [done|by apply va_idx_ok|done]. }
      split; [done|]. revert El. unfold link. by destruct (has (e p _) _), (leaf _ _).
    + split; [done|]. rewrite decide_False by done. revert El. unfold link.
      by destruct (has (e p _) _), (leaf _ _).
Qed.

(** ** Adding a table *)

Definition with_table (T : family) (k : nat) (q : Z) : family := λ l p, T l p ∨ l = k ∧ p = q.

(** The flags of an entry that points to a table. *)
Definition table_flags (fl : Z) : Prop :=
  has fl PTE_PRESENT = true ∧ has fl PTE_HUGE = false ∧ Z.land fl PTE_ADDR_MASK = 0 ∧ is_u64 fl.

Lemma kernel_flags : table_flags PTE_KERNEL_RW. Proof. by repeat split. Qed.
Lemma user_flags : table_flags PTE_USER_RW. Proof. by repeat split. Qed.

Lemma table_entry l q fl : is_frame q → table_flags fl →
  has (Z.lor q fl) PTE_PRESENT = true ∧ leaf l (Z.lor q fl) = false ∧ link l (Z.lor q fl) = true
  ∧ PTE_GET_ADDR (Z.lor q fl) = q ∧ is_u64 (Z.lor q fl).
Proof.
  intros Hq (Hp & Hh & Hm & Hu).
  assert (leaf l (Z.lor q fl) = false) as El.
  { destruct l as [|[|[|[|l]]]]; try done; simpl; by rewrite has_lor. }
  unfold link. rewrite El, get_addr_lor, has_lor, Hp by done. split_and!; try done. by auto with chanux.
Qed.

(** The entries of a new table of level [k + 1] are in order. *)
Definition new_entries (T : family) (k : nat) (g : Z → Z) : Prop :=
  (∀ l i, k = S l → 0 <= i < 512 → link (S k) (g i) = true → T k (PTE_GET_ADDR (g i)))
  ∧ (∀ i, k = 1%nat → 0 <= i < 512 → has (g i) PTE_PRESENT = true → leaf 2 (g i) = true →
       PTE_GET_ADDR (g i) mod 2 ^ 21 = 0).

Section grow.
Context (e e' : entries) (used used' : Z → Prop) (T : family) (k : nat) (p0 i0 q fl : Z).
Context (Ht : tables e used T) (Hp0 : T (S (S k)) p0) (Hi0 : idx_ok (S (S k)) i0).
Context (Hq : is_frame q) (Hfresh : ¬ used q) (Hfl : table_flags fl) (Hnew : e' p0 i0 = Z.lor q fl).
Context (Hkept : ∀ l p i, T l p → idx_ok l i → p ≠ p0 ∨ i ≠ i0 → e' p i = e p i).

Lemma tables_grow :
  (∀ p, used p → used' p) → used' q → new_entries T k (e' q) → tables e' used' (with_table T (S k) q).
Proof using Ht Hp0 Hi0 Hq Hfresh Hfl Hnew Hkept.
  intros Hmono Huq [Hlink Halign]. pose proof (table_entry (S (S k)) q fl Hq Hfl) as (_ & Hlf & _ & Hadr & _).
  assert (Hold : ∀ l p, T l p → p ≠ q) by (intros l p Hp ->; by apply Hfresh, (t_used _ _ _ Ht l)).
  assert (Hlev : ∀ l, T l p0 → l = S (S k)) by (intros l Hl; exact (t_one _ _ _ Ht _ _ _ Hl Hp0)).
  assert (Hother : ∀ l p i, T l p → idx_ok l i → ¬ (p = p0 ∧ i = i0) → e' p i = e p i).
  { intros l p i Hp Hi Hne. apply (Hkept l); [done|done|]. destruct (decide (p = p0)); naive_solver. }
  split.
  - intros l p [Hp|[-> ->]]; [exact (t_level _ _ _ Ht _ _ Hp)|]. pose proof (t_level _ _ _ Ht _ _ Hp0). lia.
  - intros l p [Hp|[-> ->]]; [exact (t_frame _ _ _ Ht _ _ Hp)|done].
  - intros l p [Hp|[-> ->]]; [apply Hmono, (t_used _ _ _ Ht _ _ Hp)|done].
  - intros l l' p [Hp|[-> ->]] [Hp'|[-> Hpq]]; [by eapply (t_one _ _ _ Ht)| |by destruct (Hold l' q)|done].
    subst p. by destruct (Hold l q).
  - intros l p i [Hp|[Hl ->]] Hi Hln.
    + destruct (decide (p = p0 ∧ i = i0)) as [[-> ->]|Hne].
      * pose proof (Hlev _ Hp) as [= ->]. rewrite Hnew, Hadr. by right.
      * rewrite (Hother _ p i Hp Hi Hne) in Hln |- *.
        left. by apply (t_next _ _ _ Ht).
    + injection Hl as <-. left. apply (Hlink l); [done|apply Hi|done].
  - intros p i [Hp|[Hl ->]] Hi Hpr Hh.
    + destruct (decide (p = p0 ∧ i = i0)) as [[-> ->]|Hne].
      * rewrite Hnew in Hh. pose proof (Hlev _ Hp) as [= <-]. congruence.
      * rewrite (Hother _ p i Hp Hi Hne) in Hpr, Hh |- *.
        by apply (t_huge _ _ _ Ht).
    + injection Hl as <-. apply Halign; [done|apply Hi|done|done].
Qed.

(** The walk through the new entry. *)
Lemma walk_new va : idx (S (S k)) va = i0 → walk e' (S (S k)) p0 va = walk e' (S k) q va.
Proof using Hq Hfl Hnew.
  intros Hi. pose proof (table_entry (S (S k)) q fl Hq Hfl) as (_ & _ & Hln & Hadr & _).
  rewrite walk_link; rewrite Hi, Hnew; [by rewrite Hadr|done].
Qed.

Lemma local_empty va :
  has (e p0 i0) PTE_PRESENT = false → (∀ j, 0 <= j < 512 → e' q j = 0) →
  idx (S (S k)) va = i0 → walk e' (S k) q va = walk e (S (S k)) p0 va.
Proof using.
  intros Hpr Hz Hi. rewrite !walk_S, Hi. cbv zeta. rewrite Hpr, Hz by apply idx_range. done.
Qed.

Lemma local_copy va old :
  link (S (S k)) (e p0 i0) = true → old = PTE_GET_ADDR (e p0 i0) → (∀ j, 0 <= j < 512 → e' q j = e old j) →
  va_ok va → idx (S (S k)) va = i0 → walk e' (S k) q va = walk e (S (S k)) p0 va.
Proof using Ht Hp0 Hi0 Hkept.
  intros Hln -> Hcp Hv Hi. rewrite (walk_link e (S k)) by (by rewrite Hi). rewrite Hi, !walk_S. cbv zeta.
  rewrite Hcp by apply idx_range. pose proof (t_next _ _ _ Ht _ _ _ Hp0 Hi0 Hln) as Ho.
  destruct (has (e (PTE_GET_ADDR _) _) _) eqn:Epr; [|done]. destruct (leaf _ _) eqn:El; [done|].
  destruct k as [|k']; [done|]. eapply walk_ext; [exact Ht| |done|].
  - apply (t_next _ _ _ Ht); [done|by apply va_idx_ok|]. unfold link. by rewrite Epr, El.
  - intros l p i Hle Hp Hix. apply (Hkept l); [done|done|]. left. intros ->.
    pose proof (t_one _ _ _ Ht _ _ _ Hp Hp0). lia.
Qed.

Lemma local_split va flags :
  k = 0%nat → has (e p0 i0) PTE_PRESENT = true → leaf 2 (e p0 i0) = true →
  has flags PTE_PRESENT = true → Z.land flags PTE_ADDR_MASK = 0 →
  (∀ j, 0 <= j < 512 → e' q j = Z.lor (PTE_GET_ADDR (e p0 i0) + j * PAGE_SIZE) flags) →
  idx (S (S k)) va = i0 → walk e' (S k) q va = walk e (S (S k)) p0 va.
Proof using Ht Hp0 Hi0.
  intros -> Hpr Hlf Hfp Hfm He' Hi. rewrite !walk_S, Hi. cbv zeta. rewrite Hpr, Hlf.
  set (base := PTE_GET_ADDR (e p0 i0)) in *. set (j := idx 1 va).
  assert (Hj : 0 <= j < 512) by apply idx_range.
  assert (Hb : is_frame base) by apply get_addr_frame.
  assert (Hal : base mod 2 ^ 21 = 0) by exact (t_huge _ _ _ Ht _ _ Hp0 Hi0 Hpr Hlf).
  assert (Hfr : is_frame (base + j * PAGE_SIZE)).
  { destruct Hb as [Hb1 Hb2]. unfold is_frame, PAGE_SIZE in *. split.
    - rewrite Z.add_mod, Hb1, Z.mod_mul by lia. done.
    - pose proof (Z.div_mod base (2 ^ 21) ltac:(lia)). lia. }
  rewrite He', get_addr_lor, has_lor, Hfp by (done || lia). simpl leaf. cbv iota. simpl walk. f_equal.
  unfold j, idx. change (2 ^ shift 1) with PAGE_SIZE. change (2 ^ shift 2) with (PAGE_SIZE * 512).
  rewrite (Z.rem_mul_r va PAGE_SIZE 512) by (unfold PAGE_SIZE; lia). lia.
Qed.

End grow.

(** ** The invariant of the state *)

(** What the virtual memory manager relies on of the frame allocator: a frame
    it hands out was not in use, and frames in use stay in use until freed. *)
Class FrameLaws (F : Type) `{FrameSource F} := {
  fr_ok : F → Prop;
  fr_used : F → Z → Prop;
  fr_limit : Z;
  fr_alloc_law f a f' : fr_ok f → fr_alloc f = (a, f') →
    fr_ok f' ∧ (∀ p, fr_used f p → fr_used f' p) ∧ (a ≠ 0 → is_frame a ∧ ¬ fr_used f a ∧ fr_used f' a);
  fr_free_law f a : fr_ok f → 0 <= a →
    fr_ok (fr_free a f) ∧ (∀ p, 0 <= p → fr_used (fr_free a f) p → fr_used f p)
    ∧ (0 < a < fr_limit → ¬ fr_used (fr_free a f) a)
    ∧ (is_frame a → ∀ p, is_frame p → p ≠ a → fr_used f p → fr_used (fr_free a f) p)
}.

(** pmm.c keeps these promises. *)
#[export] Program Instance pmm_frame_laws : FrameLaws pmm := {
  fr_ok := pmm_inv;
  fr_used s p := 0 <= p ∧ ¬ page_free s (p / PAGE_SIZE);
  fr_limit := MM_MAX_PHYS_MEMORY
}.
Next Obligation.
  intros f a f' Hok E.
  destruct (alloc_page_outcome f a f' Hok E) as [Hok' [(n & -> & Hn & Hfr & Hnf & Hsame & _)|(-> & -> & _)]];
    (split; [done|]); [|done].
  rewrite Z.div_mul by done. pose proof MM_MAX_PAGES_val. unfold PAGE_SIZE in *. split.
  - intros p [Hp Hu]. split; [done|]. destruct (decide (p / 4096 = n)) as [->|Hne]; [done|].
    unfold page_free in *. rewrite Hsame; [done|by apply Z.div_pos|done].
  - intros _. unfold is_frame, PAGE_SIZE. split_and!; [by apply Z.mod_mul|lia|lia|naive_solver|lia|done].
Qed.
Next Obligation.
  intros f a Hok Ha. destruct (free_page_outcome f a Hok Ha) as [Hok' Hcase]. unfold fr_free. simpl.
  split; [done|]. pose proof MM_MAX_PAGES_val as Hmax. split.
  - intros p Hp [_ Hu]. split; [done|]. destruct Hcase as [[(_ & Hfree & Hsame & _) _]|[E _]]; [|by rewrite E in Hu].
    destruct (decide (p / PAGE_SIZE = a / PAGE_SIZE)) as [E|Hne]; [by rewrite E in Hu|].
    unfold page_free in *. by rewrite Hsame in Hu by (done || by apply Z.div_pos).
  - split.
    2: { intros Hfa p Hfp Hne [Hp Hu]. split; [done|]. destruct Hcase as [[(_ & _ & Hsame & _) _]|[E _]]; [|by rewrite E].
         unfold page_free in *. rewrite Hsame; [done|by apply Z.div_pos|].
         pose proof (frames_apart p a Hfp Hfa Hne). unfold PAGE_SIZE. intros E.
         pose proof (Z.div_mod p 4096 ltac:(lia)). pose proof (Z.div_mod a 4096 ltac:(lia)).
         pose proof (Z.mod_pos_bound p 4096 ltac:(lia)). pose proof (Z.mod_pos_bound a 4096 ltac:(lia)). lia. }
    intros Hlim [_ Hu]. destruct Hcase as [[(_ & Hfree & _) _]|[E Hc]]; [done|].
    assert (a / PAGE_SIZE < MM_MAX_PAGES) by (apply Z.div_lt_upper_bound; [done|unfold MM_MAX_PHYS_MEMORY, PAGE_SIZE in *; lia]).
    destruct Hc as [?|[?|Hf]]; [lia|lia|]. apply Hu. by rewrite E.
Qed.

Section vmm.
Context {F : Type} `{FrameLaws F}.
Implicit Types s : vmm F.

Definition ent s : entries := λ p i, get s (PHYS_TO_VIRT p) i.

(** The address a space with top-level table [root] gives to [va]. *)
Definition translate s (root va : Z) : option Z := walk (ent s) 4 root va.

Record vmm_inv s (T : family) : Prop := {
  vi_frames : fr_ok (vm_frames s);
  vi_mem : mem_wf (vm_mem s);
  vi_tables : tables (ent s) (fr_used (vm_frames s)) T;
  vi_root : T 4%nat (vmm_pml4_phys s);
  vi_ptr : vmm_pml4 s = PHYS_TO_VIRT (vmm_pml4_phys s)
}.

(** The allocator after a sequence of requests, none or more. *)
Definition requests : relation F := rtc (λ f f', ∃ a, fr_alloc f = (a, f')).

(** From [s] to [s'] frames were requested, and the answer to the last request
    was [a]. *)
Definition answered s s' (a : Z) : Prop :=
  ∃ f, requests (vm_frames s) f ∧ fr_ok f ∧ fr_alloc f = (a, vm_frames s').

Lemma answered_requests s s' a : answered s s' a → requests (vm_frames s) (vm_frames s').
Proof. intros (f & Hr & _ & E). eapply rtc_r; [exact Hr|by exists a]. Qed.

Lemma answered_after s s1 s' a : requests (vm_frames s) (vm_frames s1) → answered s1 s' a → answered s s' a.
Proof. intros Hr (f & Hr' & Hf & E). exists f. split_and!; [by etrans|done|done]. Qed.

(** Frames in use stay in use, the tables of [T'] beyond [T] are in frames that
    were not, and the allocator has only been asked for frames. *)
Definition fresh_tables s (T : family) s' (T' : family) : Prop :=
  (∀ p, fr_used (vm_frames s) p → fr_used (vm_frames s') p)
  ∧ (∀ l p, T' l p → T l p ∨ ¬ fr_used (vm_frames s) p)
  ∧ requests (vm_frames s) (vm_frames s').

Lemma fresh_tables_trans s T s1 T1 s2 T2 :
  fresh_tables s T s1 T1 → fresh_tables s1 T1 s2 T2 → fresh_tables s T s2 T2.
Proof.
  intros (U1 & N1 & R1) (U2 & N2 & R2). split_and!; [auto| |by etrans]. intros l p Hp.
  destruct (N2 l p Hp) as [?|Hn]; [by apply N1|]. right. intros Hu. by apply Hn, U1.
Qed.

(** [s'] has more tables than [s], entries other than entry [i0] of [p0] are as
    they were, and all addresses translate as before. *)
Record grown s (T : family) s' (T' : family) (p0 i0 : Z) : Prop := {
  g_inv : vmm_inv s' T';
  g_sub l p : T l p → T' l p;
  g_kept l p i : T l p → idx_ok l i → p ≠ p0 ∨ i ≠ i0 → ent s' p i = ent s p i;
  g_walk l p va : T l p → va_ok va → walk (ent s') l p va = walk (ent s) l p va;
  g_root : vmm_pml4_phys s' = vmm_pml4_phys s;
  g_fresh : fresh_tables s T s' T'
}.

Lemma fresh_tables_refl s T : fresh_tables s T s T.
Proof. split_and!; [done| |apply rtc_refl]. intros l p Hp. by left. Qed.

Lemma grown_refl s T p0 i0 : vmm_inv s T → grown s T s T p0 i0.
Proof. split; try done. apply fresh_tables_refl. Qed.

(** A new top-level table [r] joins the family when its entries are those of the
    table [k], as far as they lead anywhere. *)
Lemma join_top s T k r :
  vmm_inv s T → T 4%nat k → is_frame r → (∀ l, ¬ T l r) → fr_used (vm_frames s) r →
  (∀ i, idx_ok 4 i → link 4 (ent s r i) = true → ent s r i = ent s k i) →
  vmm_inv s (with_table T 4 r).
Proof.
  intros [I1 I2 Ht I4 I5] Hk Hr Hn Hu Hlink. split; [done|done| |by left|done].
  destruct Ht as [T1 T2 T3 T4 T5 T6]. split.
  - intros l p [Hp|[-> ->]]; [by eapply T1|lia].
  - intros l p [Hp|[-> ->]]; [by eapply T2|done].
  - intros l p [Hp|[-> ->]]; [by eapply T3|done].
  - intros l l' p [Hp|[-> ->]] [Hp'|[-> Hpq]]; [by eapply T4| |by destruct (Hn l')|done].
    subst p. by destruct (Hn l).
  - intros l p i [Hp|[El ->]] Hi Hln; [left; by apply T5|]. left. injection El as ->.
    rewrite (Hlink i Hi Hln) in Hln |- *. by apply T5.
  - intros p i [Hp|[El _]]; [by apply T6|done].
Qed.

(** The last request for a frame made from [s] to [s'] was refused, or answered
    with the frame at 2 GB, whose window is the NULL pointer. *)
Definition NULL_FRAME : Z := 2 ^ 31.
Definition no_frame s s' : Prop := answered s s' 0 ∨ answered s s' NULL_FRAME.

Lemma no_frame_after s T s1 T1 p i s' : grown s T s1 T1 p i → no_frame s1 s' → no_frame s s'.
Proof.
  intros Hg. destruct (g_fresh _ _ _ _ _ _ Hg) as (_ & _ & Hr).
  intros [Ha|Ha]; [left|right]; by eapply answered_after.
Qed.

Lemma alloc_page_cases s T q s1 :
  vmm_inv s T → alloc_page s = (q, s1) →
  vmm_inv s1 T ∧ vm_mem s1 = vm_mem s ∧ vmm_pml4 s1 = vmm_pml4 s ∧ vmm_pml4_phys s1 = vmm_pml4_phys s
  ∧ (∀ p, fr_used (vm_frames s) p → fr_used (vm_frames s1) p)
  ∧ answered s s1 q
  ∧ (q ≠ 0 → is_frame q ∧ ¬ fr_used (vm_frames s) q ∧ fr_used (vm_frames s1) q).
Proof.
  intros [Hf Hm Ht Hr Hp]. unfold alloc_page. destruct (fr_alloc (vm_frames s)) as [a f'] eqn:E. intros [= <- <-].
  destruct (fr_alloc_law _ _ _ Hf E) as (Hf' & Hmono & Hfresh). simpl. split_and!; try done.
  - split; simpl; try done. destruct Ht. split; try done. intros l p Hl. by apply Hmono, (t_used0 l).
  - exists (vm_frames s). split_and!; [apply rtc_refl|done|done].
Qed.

(** A state that differs from [s] in the frame [q] only. *)
Lemma other_frame_inv s T s1 m q :
  vmm_inv s T → vmm_inv s1 T → vm_mem s1 = vm_mem s → ¬ fr_used (vm_frames s) q → mem_wf m →
  (∀ p i, is_frame p → p ≠ q → 0 <= i < 512 → pte m (PHYS_TO_VIRT p) i = pte (vm_mem s) (PHYS_TO_VIRT p) i) →
  vmm_inv (with_mem s1 m) T ∧ ∀ l p i, T l p → 0 <= i < 512 → ent (with_mem s1 m) p i = ent s p i.
Proof.
  intros Hinv [Hf Hm Ht Hr Hp] Hms Hq Hwf Heq.
  assert (Hsame : ∀ l p i, T l p → 0 <= i < 512 → ent (with_mem s1 m) p i = ent s p i).
  { intros l p i Hl Hi. apply Heq; [by apply (t_frame _ _ _ (vi_tables _ _ Hinv) l)| |done].
    intros ->. by apply Hq, (t_used _ _ _ (vi_tables _ _ Hinv) l). }
  split; [|done]. split; try done. pose proof (vi_tables _ _ Hinv) as Ht0. destruct Ht. split; try done.
  - intros l p i Hl Hi. rewrite (Hsame (S (S l))) by (done || apply Hi). by apply (t_next _ _ _ Ht0).
  - intros p i Hl Hi. rewrite (Hsame 2%nat) by (done || apply Hi). by apply (t_huge _ _ _ Ht0).
Qed.

Lemma ent_put s p q i j v :
  is_frame p → is_frame q → 0 <= i < 512 → 0 <= j < 512 → is_u64 v →
  ent (put s (PHYS_TO_VIRT p) i v) q j = if decide (p = q ∧ i = j) then v else ent s q j.
Proof. intros. by apply pte_set_pte. Qed.

(** A new table [q] is filled and entry [i0] of [p0] is made to point to it. *)
Lemma grow_state s T s1 m k p0 i0 q fl :
  vmm_inv s T → alloc_page s = (q, s1) → q ≠ 0 → T (S (S k)) p0 → idx_ok (S (S k)) i0 → table_flags fl →
  mem_wf m →
  (∀ p i, is_frame p → p ≠ q → 0 <= i < 512 → pte m (PHYS_TO_VIRT p) i = pte (vm_mem s) (PHYS_TO_VIRT p) i) →
  new_entries T k (pte m (PHYS_TO_VIRT q)) →
  let s' := put (with_mem s1 m) (PHYS_TO_VIRT p0) i0 (Z.lor q fl) in
  (∀ va, va_ok va → idx (S (S k)) va = i0 →
     (∀ j, 0 <= j < 512 → ent s' q j = pte m (PHYS_TO_VIRT q) j) →
     (∀ l p i, T l p → idx_ok l i → p ≠ p0 ∨ i ≠ i0 → ent s' p i = ent s p i) →
     walk (ent s') (S k) q va = walk (ent s) (S (S k)) p0 va) →
  grown s T s' (with_table T (S k) q) p0 i0 ∧ is_frame q ∧ ent s' p0 i0 = Z.lor q fl.
Proof.
  intros Hinv Ea Hq0 Hp0 Hi0 Hfl Hm Heq Hnew s' Hloc.
  destruct (alloc_page_cases s T q s1 Hinv Ea) as (Hinv1 & Hm1 & Hp1 & Hr1 & Hmono & Hans & Hfresh).
  destruct (Hfresh Hq0) as (Hq & Hnu & Hu). pose proof (vi_tables _ _ Hinv) as Ht.
  assert (Hfp : is_frame p0) by exact (t_frame _ _ _ Ht _ _ Hp0).
  assert (Hne : p0 ≠ q) by (intros ->; by apply Hnu, (t_used _ _ _ Ht (S (S k)))).
  pose proof (table_entry (S (S k)) q fl Hq Hfl) as (_ & _ & _ & _ & Hv).
  destruct (other_frame_inv s T s1 m q Hinv Hinv1 Hm1 Hnu Hm Heq) as [_ Hsame].
  assert (Hput : ∀ p i, is_frame p → 0 <= i < 512 →
    ent s' p i = if decide (p0 = p ∧ i0 = i) then Z.lor q fl else ent (with_mem s1 m) p i).
  { intros p i Hp Hi. apply ent_put; [done|done|apply Hi0|done|done]. }
  assert (Hkept : ∀ l p i, T l p → idx_ok l i → p ≠ p0 ∨ i ≠ i0 → ent s' p i = ent s p i).
  { intros l p i Hl [Hi _] Hor. rewrite Hput by (try done; by apply (t_frame _ _ _ Ht l)).
    rewrite decide_False by naive_solver. by apply (Hsame l). }
  assert (Hqe : ∀ j, 0 <= j < 512 → ent s' q j = pte m (PHYS_TO_VIRT q) j).
  { intros j Hj. rewrite Hput, decide_False by naive_solver. done. }
  assert (He : ent s' p0 i0 = Z.lor q fl) by (rewrite Hput, decide_True by (done || apply Hi0); done).
  assert (Hnew' : new_entries T k (ent s' q)).
  { destruct Hnew as [Hn1 Hn2]. split.
    - intros l i -> Hi. rewrite Hqe by done. by apply (Hn1 l).
    - intros i Hk Hi. rewrite Hqe by done. by apply Hn2. }
  split; [|done]. split.
  - split; simpl; [exact (vi_frames _ _ Hinv1)|by apply mem_wf_store| | |].
    + by apply (tables_grow (ent s) (ent s') (fr_used (vm_frames s)) _ T k p0 i0 q fl).
    + left. rewrite Hr1. exact (vi_root _ _ Hinv).
    + rewrite Hp1, Hr1. exact (vi_ptr _ _ Hinv).
  - intros l p Hl. by left.
  - exact Hkept.
  - apply (walk_redirect _ _ _ _ (S (S k)) p0 i0 Ht Hp0 Hkept). intros va Hv' Hi.
    rewrite (walk_new (ent s') k p0 i0 q fl Hq Hfl He va Hi). by apply Hloc.
  - exact Hr1.
  - split_and!; [exact Hmono| |exact (answered_requests _ _ _ Hans)]. intros l p [Hl|[_ ->]]; [by left|by right].
Qed.

Lemma other_frame_grown s T s1 m q p0 i0 :
  vmm_inv s T → vmm_inv s1 T → vm_mem s1 = vm_mem s → vmm_pml4_phys s1 = vmm_pml4_phys s →
  (∀ p, fr_used (vm_frames s) p → fr_used (vm_frames s1) p) → requests (vm_frames s) (vm_frames s1) →
  ¬ fr_used (vm_frames s) q → mem_wf m →
  (∀ p i, is_frame p → p ≠ q → 0 <= i < 512 → pte m (PHYS_TO_VIRT p) i = pte (vm_mem s) (PHYS_TO_VIRT p) i) →
  grown s T (with_mem s1 m) T p0 i0.
Proof.
  intros Hinv Hinv1 Hm1 Hr Hmono Hreq Hq Hm Heq.
  destruct (other_frame_inv s T s1 m q Hinv Hinv1 Hm1 Hq Hm Heq) as [Hi Hsame].
  split; [done|done| | |done|split_and!; [done|intros l p ?; by left|done]].
  - intros l p i Hl [Hix _] _. by apply (Hsame l).
  - intros l p va Hl Hv. eapply walk_ext; [exact (vi_tables _ _ Hinv)|done|done|].
    intros l' p' i _ Hl' [Hix _]. by apply (Hsame l').
Qed.

Lemma alloc_grown s T q s1 p0 i0 : vmm_inv s T → alloc_page s = (q, s1) → grown s T s1 T p0 i0.
Proof.
  intros Hinv Ea. destruct (alloc_page_cases s T q s1 Hinv Ea) as (Hinv1 & Hm1 & _ & Hr1 & Hmono & Hans & _).
  assert (He : ent s1 = ent s) by (unfold ent, get; by rewrite Hm1).
  split; try done; [by rewrite He|by rewrite He|].
  split_and!; [done|intros l p ?; by left|exact (answered_requests _ _ _ Hans)].
Qed.

Lemma window_null q : is_frame q → PHYS_TO_VIRT q = 0 → q = NULL_FRAME.
Proof. intros Hq Ez. pose proof (window_phys q Hq) as E. rewrite Ez in E. by rewrite <- E. Qed.

Lemma fill_other m p q i :
  is_frame p → is_frame q → p ≠ q → 0 <= i < 512 →
  pte (fill m (PHYS_TO_VIRT q) 0 PAGE_SIZE) (PHYS_TO_VIRT p) i = pte m (PHYS_TO_VIRT p) i.
Proof. intros. rewrite pte_fill, decide_False by naive_solver. done. Qed.

Lemma vmm_alloc_table_cases s T r s1 p0 i0 :
  vmm_inv s T → vmm_alloc_table s = (r, s1) →
  match r with
  | None => grown s T s1 T p0 i0 ∧ no_frame s s1
  | Some t => ∃ q sa, alloc_page s = (q, sa) ∧ q ≠ 0 ∧ is_frame q ∧ t = PHYS_TO_VIRT q
                ∧ s1 = with_mem sa (fill (vm_mem s) t 0 PAGE_SIZE)
  end.
Proof.
  intros Hinv. unfold vmm_alloc_table. destruct (alloc_page s) as [q sa] eqn:Ea.
  destruct (alloc_page_cases s T q sa Hinv Ea) as (Hinv1 & Hm1 & _ & Hr1 & Hmono & Hans & Hfresh).
  destruct (Z.eqb_spec q 0) as [E|Hne].
  { intros [= <- <-]. split; [by eapply alloc_grown|left; by rewrite <- E]. }
  destruct (Hfresh Hne) as (Hq & Hnu & Hu). intros [= <- <-]. rewrite Hm1.
  destruct (Z.eqb_spec (PHYS_TO_VIRT q) 0) as [Ez|_]; [|by exists q, sa].
  split; [|right; by rewrite <- (window_null q Hq Ez)].
  apply (other_frame_grown s T sa _ q); try done.
  - exact (answered_requests _ _ _ Hans).
  - apply mem_wf_fill, (vi_mem _ _ Hinv).
  - intros p i Hp Hpq Hi. by apply fill_other.
Qed.

(** An entry that leads to table [t] of the next level. *)
Definition leads s (l : nat) (p i t : Z) : Prop := link l (ent s p i) = true ∧ PTE_GET_ADDR (ent s p i) = t.

Lemma leads_entry s l p i q fl : is_frame q → table_flags fl → ent s p i = Z.lor q fl → leads s l p i q.
Proof. intros Hq Hfl E. unfold leads. rewrite E. by destruct (table_entry l q fl Hq Hfl) as (_ & _ & ? & ? & _). Qed.

Lemma new_entries_zero T k : new_entries T k (λ _, 0).
Proof. by split. Qed.

Lemma new_entries_ext T k g g' : (∀ i, 0 <= i < 512 → g i = g' i) → new_entries T k g' → new_entries T k g.
Proof.
  intros E [H1 H2]. split; [intros l i Hk Hi; rewrite E by done; by apply (H1 l)|].
  intros i Hk Hi. rewrite E by done. by apply H2.
Qed.

Lemma alloc_not_table s T q sa : vmm_inv s T → alloc_page s = (q, sa) → q ≠ 0 → ∀ l, ¬ T l q.
Proof.
  intros Hinv Ea Hq0 l Hq. destruct (alloc_page_cases s T q sa Hinv Ea) as (_ & _ & _ & _ & _ & _ & Hfresh).
  destruct (Hfresh Hq0) as (_ & Hnu & _). exact (Hnu (t_used _ _ _ (vi_tables _ _ Hinv) _ _ Hq)).
Qed.

Lemma vmm_get_or_create_ok s T k p i r s' :
  vmm_inv s T → T (S (S k)) p → idx_ok (S (S k)) i → has (ent s p i) PTE_PRESENT && leaf (S (S k)) (ent s p i) = false →
  get_or_create s (PHYS_TO_VIRT p) i = (r, s') →
  ∃ T', grown s T s' T' p i ∧
    match r with
    | Some t => ∃ q, t = PHYS_TO_VIRT q ∧ T' (S k) q ∧ leads s' (S (S k)) p i q ∧ (T (S k) q → leads s (S (S k)) p i q)
    | None => no_frame s s'
    end.
Proof.
  intros Hinv Hp Hi Hlf. unfold get_or_create. change (get s (PHYS_TO_VIRT p) i) with (ent s p i).
  destruct (has (ent s p i) PTE_PRESENT) eqn:Epr; cbn [negb andb] in Hlf |- *.
  - intros [= <- <-]. exists T. split; [by apply grown_refl|].
    assert (Hln : link (S (S k)) (ent s p i) = true) by (unfold link; by rewrite Epr, Hlf).
    exists (PTE_GET_ADDR (ent s p i)). split_and!; [done| |done|done].
    by apply (t_next _ _ _ (vi_tables _ _ Hinv)).
  - destruct (vmm_alloc_table s) as [[t|] s1] eqn:Ea; intros [= <- <-];
      pose proof (vmm_alloc_table_cases s T _ s1 p i Hinv Ea) as Hc; cbv beta iota in Hc.
    2: { destruct Hc as [Hg Hno]. by exists T. }
    destruct Hc as (q & sa & Eq & Hq0 & Hq & -> & ->). unfold vmm_table_phys. rewrite window_phys by done.
    destruct (grow_state s T sa (fill (vm_mem s) (PHYS_TO_VIRT q) 0 PAGE_SIZE) k p i q PTE_KERNEL_RW) as (Hg & _ & He);
      try done; [apply mem_wf_fill, (vi_mem _ _ Hinv)|..].
    + intros p' i' Hp' Hne Hi'. by apply fill_other.
    + eapply new_entries_ext; [|apply new_entries_zero]. intros j Hj. by rewrite pte_fill, decide_True.
    + intros va Hv Hix Hz _. apply (local_empty _ _ k p i q va Epr); [|done].
      intros j Hj. rewrite Hz by done. by rewrite pte_fill, decide_True.
    + exists (with_table T (S k) q). split; [done|]. exists q. split_and!; [done|by right| |].
      * by eapply leads_entry; [|exact kernel_flags|].
      * intros Hold. by destruct (alloc_not_table s T q sa Hinv Eq Hq0 (S k)).
Qed.

Lemma land_u64 x y : is_u64 x → is_u64 (Z.land x y).
Proof.
  unfold is_u64. intros Hx. assert (Z.land x y = Z.land x y mod 2 ^ 64) as ->; [|apply Z.mod_pos_bound; lia].
  rewrite <- Z.land_ones by lia. rewrite <- (Z.mod_small x (2 ^ 64)), <- Z.land_ones by lia.
  rewrite <- !Z.land_assoc. f_equal. rewrite (Z.land_comm y), Z.land_assoc, Z.land_diag. done.
Qed.

(** The flags of a split page: those of the large page, without its address. *)
Lemma split_flags x :
  is_u64 x → has x PTE_PRESENT = true →
  let flags := Z.land x (Z.lnot (Z.lor PTE_ADDR_MASK PTE_HUGE)) in
  has flags PTE_PRESENT = true ∧ Z.land flags PTE_ADDR_MASK = 0 ∧ is_u64 flags.
Proof.
  intros Hu Hp flags. unfold flags. split_and!; [|by rewrite <- Z.land_assoc, Z.land_0_r|by apply land_u64].
  unfold has in *. rewrite <- Z.land_assoc. exact Hp.
Qed.

Lemma new_entries_last T g : new_entries T 0 g.
Proof. by split. Qed.

Lemma split_other m p q base flags i :
  is_frame p → is_frame q → p ≠ q → is_frame base → base mod 2 ^ 21 = 0 → is_u64 flags → 0 <= i < 512 →
  pte (split_entries (PHYS_TO_VIRT q) base flags m) (PHYS_TO_VIRT p) i = pte m (PHYS_TO_VIRT p) i.
Proof. intros. rewrite pte_split_entries, decide_False by naive_solver. done. Qed.

Lemma vmm_split_huge_page_ok s T p i ok s' :
  vmm_inv s T → T 2%nat p → idx_ok 2 i → has (ent s p i) PTE_PRESENT = true → leaf 2 (ent s p i) = true →
  vmm_split_huge_page s (PHYS_TO_VIRT p) i = (ok, s') →
  ∃ T', grown s T s' T' p i ∧ if ok then ∃ q, T' 1%nat q ∧ leads s' 2 p i q ∧ ¬ T 1%nat q else no_frame s s'.
Proof.
  intros Hinv Hp Hi Hpr Hlf. unfold vmm_split_huge_page. change (get s (PHYS_TO_VIRT p) i) with (ent s p i).
  assert (Hu : is_u64 (ent s p i)) by apply pte_u64, (vi_mem _ _ Hinv).
  pose proof (t_huge _ _ _ (vi_tables _ _ Hinv) _ _ Hp Hi Hpr Hlf) as Hal.
  destruct (split_flags _ Hu Hpr) as (Hf1 & Hf2 & Hf3). set (fl := Z.land _ _) in *.
  set (base := PTE_GET_ADDR (ent s p i)) in *. assert (Hb : is_frame base) by apply get_addr_frame.
  destruct (vmm_alloc_table s) as [[t|] s1] eqn:Ea; intros [= <- <-];
    pose proof (vmm_alloc_table_cases s T _ s1 p i Hinv Ea) as Hc; cbv beta iota in Hc.
  2: { destruct Hc as [Hg Hno]. by exists T. }
  destruct Hc as (q & sa & Eq & Hq0 & Hq & -> & ->). unfold vmm_table_phys. rewrite window_phys by done.
  set (m0 := fill (vm_mem s) (PHYS_TO_VIRT q) 0 PAGE_SIZE).
  assert (Hm0 : mem_wf m0) by apply mem_wf_fill, (vi_mem _ _ Hinv).
  destruct (grow_state s T sa (split_entries (PHYS_TO_VIRT q) base fl m0) 0 p i q PTE_KERNEL_RW) as (Hg & _ & He);
    try done; [by apply split_entries_wf|..].
  - intros p' i' Hp' Hne Hi'. rewrite split_other by done. by apply fill_other.
  - intros va Hv Hix Hz _. eapply (local_split _ _ _ T 0 p i q (vi_tables _ _ Hinv) Hp Hi va fl); try done.
    intros j Hj. rewrite Hz by done. by rewrite pte_split_entries, decide_True.
  - exists (with_table T 1 q). split; [exact Hg|]. exists q. split_and!; [by right| |].
    + by eapply leads_entry; [|exact kernel_flags|].
    + exact (alloc_not_table s T q sa Hinv Eq Hq0 1%nat).
Qed.

(** Writing entry [j] of the last-level table [q]. *)
Lemma write_leaf s T q j v :
  vmm_inv s T → T 1%nat q → idx_ok 1 j → is_u64 v →
  let s' := put s (PHYS_TO_VIRT q) j v in
  vmm_inv s' T ∧ (∀ l p i, T l p → idx_ok l i → p ≠ q ∨ i ≠ j → ent s' p i = ent s p i) ∧ ent s' q j = v
  ∧ ∀ l p va, T l p → va_ok va →
      slot (ent s') l p va = slot (ent s) l p va
      ∧ walk (ent s') l p va = if decide (slot (ent s) l p va = Some (q, j)) then
          if has v PTE_PRESENT then Some (PTE_GET_ADDR v + va mod PAGE_SIZE) else None
        else walk (ent s) l p va.
Proof.
  intros Hinv Hq Hj Hv s'. pose proof (vi_tables _ _ Hinv) as Ht.
  assert (Hfq : is_frame q) by exact (t_frame _ _ _ Ht _ _ Hq).
  assert (Hkept : ∀ l p i, T l p → idx_ok l i → p ≠ q ∨ i ≠ j → ent s' p i = ent s p i).
  { intros l p i Hp [Hi _] Hor. unfold s'. rewrite ent_put by (done || apply Hj || exact (t_frame _ _ _ Ht _ _ Hp)).
    by rewrite decide_False by naive_solver. }
  assert (He : ent s' q j = v) by (unfold s'; rewrite ent_put, decide_True by (done || apply Hj); done).
  split_and!; [|done|done|].
  - destruct Hinv as [Hf Hm _ Hr Hp]. split; try done; [by apply mem_wf_store|].
    assert (Hup : ∀ l p i, T (S (S l)) p → idx_ok (S (S l)) i → ent s' p i = ent s p i).
    { intros l p i Hl Hi. apply (Hkept (S (S l))); [done|done|]. left. intros ->.
      by pose proof (t_one _ _ _ Ht _ _ _ Hl Hq). }
    destruct Ht. split; try done.
    + intros l p i Hl Hi. rewrite (Hup l) by done. by apply t_next0.
    + intros p i Hl Hi. rewrite (Hup 0%nat) by done. by apply t_huge0.
  - intros l p va Hp Hva. pose proof (write_slot _ (ent s') _ T q j l p va Ht Hq Hp Hva Hkept) as Hw.
    by rewrite He in Hw.
Qed.

(** ** Mapping a page *)

(** [s'] translates every address as [s] does. *)
Record extended s (T : family) s' (T' : family) : Prop := {
  x_inv : vmm_inv s' T';
  x_sub l p : T l p → T' l p;
  x_walk l p va : T l p → va_ok va → walk (ent s') l p va = walk (ent s) l p va;
  x_root : vmm_pml4_phys s' = vmm_pml4_phys s;
  x_fresh : fresh_tables s T s' T'
}.

Lemma extended_refl s T : vmm_inv s T → extended s T s T.
Proof. split; try done. apply fresh_tables_refl. Qed.

Lemma extended_grown s T s1 T1 s2 T2 p i : extended s T s1 T1 → grown s1 T1 s2 T2 p i → extended s T s2 T2.
Proof.
  intros [H1 H2 H3 H4 H5] [G1 G2 _ G4 G5 G6]. split; [done|auto| |congruence|by eapply fresh_tables_trans].
  intros l q va Hq Hv. rewrite G4 by auto. by apply H3.
Qed.

Lemma leads_kept s T s' T' p0 i0 l p i t :
  grown s T s' T' p0 i0 → T l p → idx_ok l i → p ≠ p0 → leads s l p i t → leads s' l p i t.
Proof. intros Hg Hp Hi Hne Hl. unfold leads. rewrite (g_kept _ _ _ _ _ _ Hg l) by auto. exact Hl. Qed.

Lemma levels_apart s T l l' p q : vmm_inv s T → T l p → T l' q → l ≠ l' → p ≠ q.
Proof. intros Hinv Hp Hq Hne ->. by apply Hne, (t_one _ _ _ (vi_tables _ _ Hinv) _ _ q). Qed.

Lemma slot_leads s l p va t :
  leads s (S (S l)) p (idx (S (S l)) va) t → slot (ent s) (S (S l)) p va = slot (ent s) (S l) t va.
Proof. intros [Hl <-]. by rewrite slot_SS, Hl. Qed.

Lemma leads_not_leaf s l p i t : leads s l p i t → has (ent s p i) PTE_PRESENT && leaf l (ent s p i) = false.
Proof. intros [Hl _]. revert Hl. unfold link. by destruct (has _ _), (leaf _ _). Qed.

(** The tables on the way to [virt]: after [vmm_map_page] has made sure of them,
    the walk of [virt] ends in an entry of a last-level table. *)
Definition page_slot s (T : family) (virt q : Z) : Prop :=
  T 1%nat q ∧ slot (ent s) 4 (vmm_pml4_phys s) virt = Some (q, idx 1 virt).

(** A page of 1 GB maps [virt] in the space of [root]. *)
Definition in_1gb_page s (root virt : Z) : Prop :=
  ∃ p, leads s 4 root (idx 4 virt) p ∧ has (ent s p (idx 3 virt)) PTE_PRESENT = true
       ∧ has (ent s p (idx 3 virt)) PTE_HUGE = true.

Lemma page_tables_ok s T virt :
  vmm_inv s T → va_ok virt →
  let i4 := idx 4 virt in let i3 := idx 3 virt in let i2 := idx 2 virt in
  match get_or_create s (vmm_pml4 s) i4 with
  | (None, s') => ∃ T', extended s T s' T' ∧ no_frame s s'
  | (Some pdpt, s1) =>
      if has (get s1 pdpt i3) PTE_PRESENT && has (get s1 pdpt i3) PTE_HUGE
      then ∃ T', extended s T s1 T' ∧ in_1gb_page s1 (vmm_pml4_phys s) virt
      else match get_or_create s1 pdpt i3 with
      | (None, s') => ∃ T', extended s T s' T' ∧ no_frame s s'
      | (Some pd, s2) =>
          let '(ok, s3) :=
            if has (get s2 pd i2) PTE_PRESENT && has (get s2 pd i2) PTE_HUGE
            then vmm_split_huge_page s2 pd i2 else (true, s2) in
          if negb ok then ∃ T', extended s T s3 T' ∧ no_frame s s3
          else match get_or_create s3 pd i2 with
          | (None, s') => ∃ T', extended s T s' T' ∧ no_frame s s'
          | (Some pt, s4) => ∃ T' q, extended s T s4 T' ∧ pt = PHYS_TO_VIRT q ∧ page_slot s4 T' virt q
          end
      end
  end.
Proof.
  intros Hinv Hv i4 i3 i2. rewrite (vi_ptr _ _ Hinv). set (p4 := vmm_pml4_phys s).
  assert (Hi4 : idx_ok 4 i4) by (by apply va_idx_ok). assert (Hi3 : idx_ok 3 i3) by (by apply va_idx_ok).
  assert (Hi2 : idx_ok 2 i2) by (by apply va_idx_ok). pose proof (vi_root _ _ Hinv) as H4. fold p4 in H4.
  destruct (get_or_create s (PHYS_TO_VIRT p4) i4) as [r1 s1] eqn:E1.
  destruct (vmm_get_or_create_ok s T 2 p4 i4 r1 s1 Hinv H4 Hi4 (andb_false_r _) E1) as (T1 & Hg1 & Hr1).
  pose proof (extended_grown _ _ _ _ _ _ _ _ (extended_refl s T Hinv) Hg1) as Hx1.
  destruct r1 as [pdpt|]; [|by exists T1]. destruct Hr1 as (p3 & -> & H3 & L4 & _).
  change (get s1 (PHYS_TO_VIRT p3) i3) with (ent s1 p3 i3).
  destruct (has (ent s1 p3 i3) PTE_PRESENT && has (ent s1 p3 i3) PTE_HUGE) eqn:Eh3.
  { exists T1. split; [done|]. exists p3. apply andb_true_iff in Eh3. done. }
  pose proof (g_inv _ _ _ _ _ _ Hg1) as Hinv1. pose proof (g_sub _ _ _ _ _ _ Hg1 _ _ H4) as H4'.
  destruct (get_or_create s1 (PHYS_TO_VIRT p3) i3) as [r2 s2] eqn:E2.
  destruct (vmm_get_or_create_ok s1 T1 1 p3 i3 r2 s2 Hinv1 H3 Hi3 Eh3 E2) as (T2 & Hg2 & Hr2).
  pose proof (extended_grown _ _ _ _ _ _ _ _ Hx1 Hg2) as Hx2.
  destruct r2 as [pd|]; [|exists T2; split; [done|by eapply no_frame_after]]. destruct Hr2 as (p2 & -> & H2 & L3 & _).
  apply (leads_kept _ _ _ _ _ _ _ _ _ _ Hg2 H4' Hi4) in L4; [|by apply (levels_apart s1 T1 4 3)].
  pose proof (g_inv _ _ _ _ _ _ Hg2) as Hinv2. apply (g_sub _ _ _ _ _ _ Hg2) in H3, H4'.
  change (get s2 (PHYS_TO_VIRT p2) i2) with (ent s2 p2 i2).
  (* a large page is split *)
  assert (Hs : ∀ ok s3, (if has (ent s2 p2 i2) PTE_PRESENT && has (ent s2 p2 i2) PTE_HUGE
      then vmm_split_huge_page s2 (PHYS_TO_VIRT p2) i2 else (true, s2)) = (ok, s3) →
    ∃ T3, grown s2 T2 s3 T3 p2 i2 ∧
      if ok then has (ent s3 p2 i2) PTE_PRESENT && leaf 2 (ent s3 p2 i2) = false else no_frame s2 s3).
  { intros ok s3. destruct (has (ent s2 p2 i2) PTE_PRESENT && has (ent s2 p2 i2) PTE_HUGE) eqn:Eh2.
    - intros E3. apply andb_true_iff in Eh2 as [Ep2 Eh2].
      destruct (vmm_split_huge_page_ok s2 T2 p2 i2 ok s3 Hinv2 H2 Hi2 Ep2 Eh2 E3) as (T3 & Hg3 & Hok).
      exists T3. split; [done|]. destruct ok; [|done]. destruct Hok as (q & _ & L & _). by eapply leads_not_leaf.
    - intros [= <- <-]. exists T2. split; [by apply grown_refl|done]. }
  destruct (if has (ent s2 p2 i2) PTE_PRESENT && _ then _ else _) as [ok s3] eqn:E3.
  destruct (Hs ok s3 eq_refl) as (T3 & Hg3 & Hok). clear Hs.
  pose proof (extended_grown _ _ _ _ _ _ _ _ Hx2 Hg3) as Hx3. destruct ok; cbn [negb].
  2: { exists T3. split; [done|]. eapply no_frame_after; [exact Hg1|]. by eapply no_frame_after. }
  apply (leads_kept _ _ _ _ _ _ _ _ _ _ Hg3 H4' Hi4) in L4; [|by apply (levels_apart s2 T2 4 2)].
  apply (leads_kept _ _ _ _ _ _ _ _ _ _ Hg3 H3 Hi3) in L3; [|by apply (levels_apart s2 T2 3 2)].
  pose proof (g_inv _ _ _ _ _ _ Hg3) as Hinv3. apply (g_sub _ _ _ _ _ _ Hg3) in H2, H3, H4'.
  destruct (get_or_create s3 (PHYS_TO_VIRT p2) i2) as [r4 s4] eqn:E4.
  destruct (vmm_get_or_create_ok s3 T3 0 p2 i2 r4 s4 Hinv3 H2 Hi2 Hok E4) as (T4 & Hg4 & Hr4).
  pose proof (extended_grown _ _ _ _ _ _ _ _ Hx3 Hg4) as Hx4.
  destruct r4 as [pt|].
  2: { exists T4. split; [done|]. eapply no_frame_after; [exact Hg1|]. eapply no_frame_after; [exact Hg2|].
       by eapply no_frame_after. }
  destruct Hr4 as (p1 & -> & H1 & L2 & _).
  apply (leads_kept _ _ _ _ _ _ _ _ _ _ Hg4 H4' Hi4) in L4; [|by apply (levels_apart s3 T3 4 2)].
  apply (leads_kept _ _ _ _ _ _ _ _ _ _ Hg4 H3 Hi3) in L3; [|by apply (levels_apart s3 T3 3 2)].
  exists T4, p1. split_and!; [done|done|]. split; [done|]. rewrite (x_root _ _ _ _ Hx4). fold p4.
  by rewrite (slot_leads s4 2 p4 virt p3 L4), (slot_leads s4 1 p3 virt p2 L3), (slot_leads s4 0 p2 virt p1 L2).
Qed.

(** [vmm_get_physical] is the walk. *)
Lemma vmm_get_physical_walk s va :
  vmm_pml4 s = PHYS_TO_VIRT (vmm_pml4_phys s) → vmm_get_physical s va = default 0 (translate s (vmm_pml4_phys s) va).
Proof.
  intros Hp. unfold vmm_get_physical, translate.
  rewrite Hp, PML4_INDEX_val, PDPT_INDEX_val, PD_INDEX_val, PT_INDEX_val.
  repeat progress change (get s (PHYS_TO_VIRT ?p) ?i) with (ent s p i).
  assert (Hsum : ∀ x k, 0 <= k <= 30 → PTE_GET_ADDR x +64 va mod 2 ^ k = PTE_GET_ADDR x + va mod 2 ^ k).
  { intros x k Hk. apply add_small_u64; [apply get_addr_frame|].
    pose proof (Z.mod_pos_bound va (2 ^ k) ltac:(lia)). pose proof (Z.pow_le_mono_r 2 k 30 ltac:(lia) ltac:(lia)). lia. }
  change 0x3FFFFFFF with (2 ^ 30 - 1). change 0x1FFFFF with (2 ^ 21 - 1).
  unfold PAGE_OFFSET. change 0xFFF with (2 ^ 12 - 1). rewrite !land_ones_mod, !Hsum by lia.
  rewrite !walk_S. cbv zeta. change (leaf 4 _) with false. change (leaf 1 _) with false. cbn [leaf walk].
  change (shift 3) with 30. change (shift 2) with 21. change PAGE_SIZE with (2 ^ 12).
  generalize (ent s (vmm_pml4_phys s) (idx 4 va)) as x4. intros x4.
  destruct (has x4 PTE_PRESENT); cbn [negb]; [|done].
  generalize (ent s (PTE_GET_ADDR x4) (idx 3 va)) as x3. intros x3.
  destruct (has x3 PTE_PRESENT); cbn [negb]; [|done]. destruct (has x3 PTE_HUGE); [done|].
  generalize (ent s (PTE_GET_ADDR x3) (idx 2 va)) as x2. intros x2.
  destruct (has x2 PTE_PRESENT); cbn [negb]; [|done]. destruct (has x2 PTE_HUGE); [done|].
  by destruct (has (ent s (PTE_GET_ADDR x2) (idx 1 va)) PTE_PRESENT).
Qed.

(** The effect of writing entry [c] of a last-level table: exactly the
    addresses whose walk ends there change, and now lead to [target]. *)
Record remaps s (T : family) s' (T' : family) (c : Z * Z) (target : option Z) : Prop := {
  r_inv : vmm_inv s' T';
  r_sub l p : T l p → T' l p;
  r_root : vmm_pml4_phys s' = vmm_pml4_phys s;
  r_walk root va : T 4%nat root → va_ok va →
    translate s' root va = if decide (slot (ent s') 4 root va = Some c)
                           then (λ a, a + va mod PAGE_SIZE) <$> target else translate s root va;
  r_fresh : fresh_tables s T s' T'
}.

Lemma remaps_put s T s1 T1 s' q j v :
  extended s T s1 T1 → T1 1%nat q → idx_ok 1 j → is_u64 v →
  vm_mem s' = vm_mem (put s1 (PHYS_TO_VIRT q) j v) → vm_frames s' = vm_frames s1 →
  vmm_pml4 s' = vmm_pml4 s1 → vmm_pml4_phys s' = vmm_pml4_phys s1 →
  remaps s T s' T1 (q, j) (if has v PTE_PRESENT then Some (PTE_GET_ADDR v) else None)
  ∧ ∀ root va, T1 4%nat root → va_ok va → slot (ent s') 4 root va = slot (ent s1) 4 root va.
Proof.
  intros [X1 X2 X3 X4 X5] Hq Hj Hv Em Ef Ep Er.
  assert (Ee : ent s' = ent (put s1 (PHYS_TO_VIRT q) j v)) by (unfold ent, get; by rewrite Em).
  destruct (write_leaf s1 T1 q j v X1 Hq Hj Hv) as (Hi & _ & _ & Hw). split.
  - split; [|done|congruence| |unfold fresh_tables; by rewrite Ef].
    + destruct Hi as [I1 I2 I3 I4 I5]. split; [by rewrite Ef|by rewrite Em|by rewrite Ee, Ef|by rewrite Er|by rewrite Ep, Er].
    + intros root va Hr Hva. unfold translate. rewrite Ee.
      destruct (Hw 4%nat root va (X2 _ _ Hr) Hva) as [-> ->]. rewrite (X3 4%nat root va Hr Hva).
      case_decide; [|done]. by destruct (has v PTE_PRESENT).
  - intros root va Hr Hva. rewrite Ee. exact (proj1 (Hw 4%nat root va Hr Hva)).
Qed.

Lemma map_entry_fields s t i v :
  vm_mem (map_entry s t i v) = vm_mem (put s t i v) ∧ vm_frames (map_entry s t i v) = vm_frames s
  ∧ vmm_pml4 (map_entry s t i v) = vmm_pml4 s ∧ vmm_pml4_phys (map_entry s t i v) = vmm_pml4_phys s.
Proof. unfold map_entry. by destruct (has (get s t i) PTE_PRESENT). Qed.

(** Flags of a present page. *)
Definition page_flags (fl : Z) : Prop := has fl PTE_PRESENT = true ∧ Z.land fl PTE_ADDR_MASK = 0 ∧ is_u64 fl.

(** Why [vmm_map_page] can fail in [s], leaving [s']. *)
Definition map_failure s s' (virt phys : Z) : Prop :=
  virt mod PAGE_SIZE ≠ 0 ∨ phys mod PAGE_SIZE ≠ 0 ∨ in_1gb_page s' (vmm_pml4_phys s') virt ∨ no_frame s s'.

Lemma vmm_map_page_cases s T virt phys flags ok s' :
  vmm_inv s T → va_ok virt → 0 <= phys < 2 ^ 52 → page_flags flags →
  vmm_map_page s virt phys flags = (ok, s') →
  if ok then ∃ T' q, page_slot s' T' virt q ∧ remaps s T s' T' (q, idx 1 virt) (Some phys) ∧ virt mod PAGE_SIZE = 0
  else ∃ T', extended s T s' T' ∧ map_failure s s' virt phys.
Proof.
  intros Hinv Hv Hph (Hf1 & Hf2 & Hf3). unfold vmm_map_page. rewrite !IS_ALIGNED_page.
  destruct (Z.eqb_spec (virt mod PAGE_SIZE) 0) as [Hva|Hva]; cbn [negb orb].
  2: { intros [= <- <-]. exists T. split; [by apply extended_refl|by left]. }
  destruct (Z.eqb_spec (phys mod PAGE_SIZE) 0) as [Hpa|Hpa]; cbn [negb orb].
  2: { intros [= <- <-]. exists T. split; [by apply extended_refl|by right; left]. }
  rewrite PML4_INDEX_val, PDPT_INDEX_val, PD_INDEX_val, PT_INDEX_val.
  pose proof (page_tables_ok s T virt Hinv Hv) as Hc. cbv zeta in Hc. revert Hc.
  destruct (get_or_create s _ _) as [[pdpt|] s1].
  2: { intros (T' & ? & ?) [= <- <-]. exists T'. split; [done|by right; right; right]. }
  destruct (has (get s1 pdpt _) _ && _).
  { intros (T' & Hx & ?) [= <- <-]. exists T'. split; [done|]. right; right; left.
    by rewrite (x_root _ _ _ _ Hx). }
  destruct (get_or_create s1 _ _) as [[pd|] s2].
  2: { intros (T' & ? & ?) [= <- <-]. exists T'. split; [done|by right; right; right]. }
  destruct (if has (get s2 pd _) _ && _ then _ else _) as [[] s3]; cbn [negb].
  2: { intros (T' & ? & ?) [= <- <-]. exists T'. split; [done|by right; right; right]. }
  destruct (get_or_create s3 _ _) as [[pt|] s4].
  2: { intros (T' & ? & ?) [= <- <-]. exists T'. split; [done|by right; right; right]. }
  intros (T' & q & Hx & -> & Hq & Hslot) [= <- <-]. exists T', q.
  assert (Hfr : is_frame phys) by done.
  destruct (map_entry_fields s4 (PHYS_TO_VIRT q) (idx 1 virt) (Z.lor phys flags)) as (M1 & M2 & M3 & M4).
  destruct (remaps_put s T s4 T' _ q (idx 1 virt) (Z.lor phys flags) Hx Hq (va_idx_ok 1 virt Hv)
    (lor_u64 _ _ (frame_u64 _ Hfr) Hf3) M1 M2 M3 M4) as [Hr Hs].
  rewrite has_lor, Hf1, get_addr_lor in Hr by done. split; [|done].
  split; [done|]. rewrite (r_root _ _ _ _ _ _ Hr), <- (x_root _ _ _ _ Hx), <- Hslot.
  apply Hs; [exact (vi_root _ _ (x_inv _ _ _ _ Hx))|done].
Qed.

(** ** Unmapping a page *)

Lemma slot_table e used T l p va q j :
  tables e used T → T l p → va_ok va → slot e l p va = Some (q, j) → T 1%nat q ∧ j = idx 1 va.
Proof.
  intros Ht Hp Hv. revert p Hp. induction l as [|l IH]; intros p Hp; [done|]. destruct l as [|l].
  - intros [= <- <-]. done.
  - rewrite slot_SS. destruct (link _ _) eqn:El; [|done]. apply IH.
    apply (t_next _ _ _ Ht); [done|by apply va_idx_ok|done].
Qed.

Lemma page_base va : 0 <= va → (va - va mod PAGE_SIZE) / PAGE_SIZE = va / PAGE_SIZE.
Proof.
  intros Hva. rewrite (Z.div_mod va PAGE_SIZE) at 1 by done.
  replace (_ + va mod PAGE_SIZE - va mod PAGE_SIZE) with (va / PAGE_SIZE * PAGE_SIZE) by lia. by apply Z.div_mul.
Qed.

(** The code's walk to the entry it clears. *)
Lemma vmm_unmap_page_slot s virt :
  0 <= virt → vmm_pml4 s = PHYS_TO_VIRT (vmm_pml4_phys s) →
  vmm_unmap_page s virt =
    match slot (ent s) 4 (vmm_pml4_phys s) virt with
    | Some (q, j) =>
        if has (ent s q j) PTE_PRESENT
        then (true, with_mapped (put s (PHYS_TO_VIRT q) j 0) (vmm_pages_mapped s -64 1)) else (false, s)
    | None => (false, s)
    end.
Proof.
  intros Hv Hp. unfold vmm_unmap_page. set (v := if negb (IS_ALIGNED virt PAGE_SIZE) then ALIGN_DOWN virt PAGE_SIZE else virt).
  assert (Ev : v / PAGE_SIZE = virt / PAGE_SIZE).
  { unfold v. destruct (IS_ALIGNED virt PAGE_SIZE); [done|]. cbn [negb]. rewrite ALIGN_DOWN_page. by apply page_base. }
  rewrite Hp, PML4_INDEX_val, PDPT_INDEX_val, PD_INDEX_val, PT_INDEX_val.
  rewrite (idx_page 4 v virt), (idx_page 3 v virt), (idx_page 2 v virt), (idx_page 1 v virt) by (done || lia).
  clear Ev. clearbody v. clear v. repeat progress change (get s (PHYS_TO_VIRT ?p) ?i) with (ent s p i).
  rewrite !slot_SS. unfold link. cbn [leaf slot]. change (leaf 4 _) with false.
  generalize (ent s (vmm_pml4_phys s) (idx 4 virt)) as x4. intros x4.
  destruct (has x4 PTE_PRESENT); cbn [negb andb]; [|done].
  generalize (ent s (PTE_GET_ADDR x4) (idx 3 virt)) as x3. intros x3.
  destruct (has x3 PTE_PRESENT); cbn [negb andb]; [|done]. destruct (has x3 PTE_HUGE); cbn [negb]; [done|].
  generalize (ent s (PTE_GET_ADDR x3) (idx 2 virt)) as x2. intros x2.
  destruct (has x2 PTE_PRESENT); cbn [negb andb]; [|done]. destruct (has x2 PTE_HUGE); cbn [negb]; [done|].
  by destruct (has (ent s (PTE_GET_ADDR x2) (idx 1 virt)) PTE_PRESENT).
Qed.

Lemma vmm_unmap_page_cases s T virt ok s' :
  vmm_inv s T → va_ok virt → 0 <= virt → vmm_unmap_page s virt = (ok, s') →
  if ok then ∃ q, slot (ent s) 4 (vmm_pml4_phys s) virt = Some (q, idx 1 virt)
      ∧ has (ent s q (idx 1 virt)) PTE_PRESENT = true ∧ remaps s T s' T (q, idx 1 virt) None
  else s' = s ∧ ∀ q, slot (ent s) 4 (vmm_pml4_phys s) virt = Some (q, idx 1 virt) →
      has (ent s q (idx 1 virt)) PTE_PRESENT = false.
Proof.
  intros Hinv Hva Hv. rewrite vmm_unmap_page_slot by (done || exact (vi_ptr _ _ Hinv)).
  pose proof (vi_root _ _ Hinv) as H4.
  destruct (slot _ _ _ _) as [[q j]|] eqn:Es; [|by intros [= <- <-]].
  destruct (slot_table _ _ _ _ _ _ _ _ (vi_tables _ _ Hinv) H4 Hva Es) as [Hq ->].
  destruct (has (ent s q _) PTE_PRESENT) eqn:Epr; intros [= <- <-].
  - exists q. split_and!; [done|done|].
    set (s' := with_mapped _ _). assert (Hz : is_u64 0) by done.
    exact (proj1 (remaps_put s T s T s' q (idx 1 virt) 0 (extended_refl s T Hinv) Hq (va_idx_ok 1 virt Hva)
      Hz eq_refl eq_refl eq_refl eq_refl)).
  - split; [done|]. by intros q' [= <-].
Qed.

(** ** Theorems *)


(** Unmapping succeeds exactly for an address mapped by a 4 KB page of the
    kernel's space, and then removes the translation of exactly the addresses
    that share its page-table entry; otherwise the state does not change. *)
Theorem vmm_unmap_page_spec s T virt ok s' :
  vmm_inv s T → va_ok virt → 0 <= virt → vmm_unmap_page s virt = (ok, s') →
  let c := slot (ent s) 4 (vmm_pml4_phys s) virt in
  ok = bool_decide (is_Some c ∧ is_Some (translate s (vmm_pml4_phys s) virt))
  ∧ if ok then vmm_inv s' T ∧ ∀ root va, T 4%nat root → va_ok va →
        translate s' root va = if decide (slot (ent s') 4 root va = c) then None else translate s root va
    else s' = s.
Proof.
  intros Hinv Hv H0v E c. pose proof (vmm_unmap_page_cases s T virt ok s' Hinv Hv H0v E) as Hc.
  destruct ok.
  - destruct Hc as (q & Es & Hpr & [R1 R2 R3 R4]). unfold c. rewrite Es. split; [|split; [done|]].
    + symmetry. apply bool_decide_eq_true. unfold translate. rewrite (walk_slot _ _ _ _ _ _ Es), Hpr. by split.
    + intros root va Hr Hva. rewrite (R4 root va Hr Hva). by case_decide.
  - destruct Hc as [-> Hno]. split; [|done]. symmetry. apply bool_decide_eq_false. intros [[[q j] Es] Hs].
    destruct (slot_table _ _ _ _ _ _ _ _ (vi_tables _ _ Hinv) (vi_root _ _ Hinv) Hv Es) as [_ ->].
    revert Hs. unfold translate. rewrite (walk_slot _ _ _ _ _ _ Es), (Hno q Es). by intros [? ?].
Qed.

End vmm.

(** ** A first state

    Frames are handed out in order, and the top-level table is empty. *)
Module BumpFrames.

#[export] Instance bump_frames : FrameSource Z := {
  fr_alloc f := if f <? 2 ^ 40 then (f, f + PAGE_SIZE) else (0, f);
  fr_free _ f := f
}.

#[export] Program Instance bump_frame_laws : FrameLaws Z := {
  fr_ok f := f mod PAGE_SIZE = 0 ∧ 0 < f;
  fr_used f p := p < f;
  fr_limit := 0
}.
Next Obligation.
  simpl. intros f a f' [Hm Hf]. unfold is_frame, PAGE_SIZE in *. destruct (Z.ltb_spec f (2 ^ 40)); intros [= <- <-].
  - split_and!; [|lia|lia|]. { by rewrite <- Z.add_mod_idemp_r, Z.mod_same, Z.add_0_r by lia. }
    intros _. split_and!; lia.
  - split_and!; [lia|lia|by intros|lia].
Qed.
Next Obligation. simpl. intros f a Hf Ha. split; [done|]. split_and!; [done|lia|done]. Qed.

Definition first_state : vmm Z := Vmm (λ _, 0) 0x2000 (PHYS_TO_VIRT 0x1000) 0x1000 0 0x1000.
Definition first_tables : family := λ l p, l = 4%nat ∧ p = 0x1000.

Lemma first_entry p i : ent first_state p i = 0.
Proof. reflexivity. Qed.

Lemma first_inv : vmm_inv first_state first_tables.
Proof.
  split; [done|intros a; simpl; lia| |done|done]. split; try (by intros ? ? [-> ->]; try lia).
  - intros l l' p [-> _] [-> _]. done.
  - intros l p i _ _. by rewrite first_entry.
Qed.

End BumpFrames.

Import BumpFrames.


Lemma vmm_unmap_page_spec_witness :
  ∃ ok s', vmm_unmap_page first_state 0x400000 = (ok, s') ∧ ok = false.
Proof.
  assert (Hv : va_ok 0x400000) by done. assert (H0 : 0 <= 0x400000) by lia.
  destruct (vmm_unmap_page first_state 0x400000) as [ok s'] eqn:E.
  destruct (vmm_unmap_page_spec first_state first_tables 0x400000 ok s' first_inv Hv H0 E) as [Hok _].
  exists ok, s'. split; [reflexivity|]. rewrite Hok. apply bool_decide_eq_false. intros [_ [x Hx]]. discriminate Hx.
Defined.
