(* ===== verification/VmmUser.v ===== *)
(** * User address spaces: the second half of vmm.c

    [vmm_create_address_space] gives a process a top-level table that shares the
    kernel's tables, and [vmm_map_user_page] replaces the shared tables on the
    way to a user page by copies.  The invariant [private] says what keeps the
    kernel's tables apart: entries with the user flag lead from a table of the
    process to a table of the process. *)

From Stdlib Require Import ZArith Lia.
From stdpp Require Import base numbers list relations.
From S2P Require Import Prelude.
From S2P Require Import Mem.
From S2P Require Import Pmm.
From S2P Require Import Vmm.
From S2P Require Import VmmSpec.

Section vmm.
Context {F : Type} `{FrameLaws F}.
Implicit Types s : vmm F.

(** ** What the manager leaves alone *)

(** The byte at [a] does not belong to a free frame or to a page table, as far
    as the kernel's windows onto the frames go. *)
Definition untouched s (T : family) (a : Z) : Prop :=
  ∀ p, is_frame p → PHYS_TO_VIRT p <= a < PHYS_TO_VIRT p + PAGE_SIZE →
    fr_used (vm_frames s) p ∧ ∀ l, ¬ T l p.

(** Such bytes stay as they are. *)
Definition keeps s (T : family) s' (T' : family) : Prop :=
  ∀ a, untouched s T a → vm_mem s' a = vm_mem s a ∧ untouched s' T' a.

Lemma keeps_refl s T : keeps s T s T. Proof. by intros a Ha. Qed.
Lemma keeps_trans s T s1 T1 s2 T2 : keeps s T s1 T1 → keeps s1 T1 s2 T2 → keeps s T s2 T2.
Proof. intros K1 K2 a Ha. destruct (K1 a Ha) as [E1 U1]. destruct (K2 a U1) as [E2 U2]. split; [congruence|done]. Qed.

(** Memory changes in the frame [q] only, which is free or a table. *)
Lemma keeps_frame s T s' T' q :
  is_frame q → (fr_used (vm_frames s) q → ∃ l, T l q) →
  (∀ p, fr_used (vm_frames s) p → fr_used (vm_frames s') p) →
  (∀ l p, T' l p → T l p ∨ p = q) →
  (∀ a, a < PHYS_TO_VIRT q ∨ PHYS_TO_VIRT q + PAGE_SIZE <= a → vm_mem s' a = vm_mem s a) → keeps s T s' T'.
Proof.
  intros Hq Hqu Hmono HT Hm a Ha.
  assert (Hout : a < PHYS_TO_VIRT q ∨ PHYS_TO_VIRT q + PAGE_SIZE <= a).
  { destruct (Z.lt_ge_cases a (PHYS_TO_VIRT q)); [by left|]. right.
    destruct (Z.lt_ge_cases a (PHYS_TO_VIRT q + PAGE_SIZE)); [|done].
    destruct (Ha q Hq) as [Hu Hn]; [done|]. destruct (Hqu Hu) as [l Hl]. by destruct (Hn l). }
  split; [by apply Hm|]. intros p Hp Hap. destruct (Ha p Hp Hap) as [Hu Hn]. split; [by apply Hmono|].
  intros l [Hl| ->]%HT; [by apply (Hn l)|lia].
Qed.

Lemma entry_out m q i v a :
  0 <= i < 512 → a < PHYS_TO_VIRT q ∨ PHYS_TO_VIRT q + PAGE_SIZE <= a → set_pte m (PHYS_TO_VIRT q) i v a = m a.
Proof. intros Hi Ha. apply store_ne. unfold PAGE_SIZE in Ha. lia. Qed.

Lemma entries_out (g : Z → mem → Z) lo hi q m a :
  0 <= lo <= hi → hi <= 512 → a < PHYS_TO_VIRT q ∨ PHYS_TO_VIRT q + PAGE_SIZE <= a →
  for_each lo hi (λ i m, set_pte m (PHYS_TO_VIRT q) i (g i m)) m a = m a.
Proof.
  intros Hlo Hhi Ha. refine (for_each_inv (λ _ m', m' a = m a) lo hi _ m _ _ _); [lia|done|].
  intros i m' Hi E. rewrite entry_out by (done || lia). done.
Qed.

(** ** User address spaces *)

(** The table [q] under entry [i] of [p] after a step of [vmm_map_user_page]:
    the one that was there, or a new one with entries that are zero or those of
    the old table. *)
Record user_step s (T : family) s' (T' : family) (k : nat) (p i q : Z) : Prop := {
  u_grown : grown s T s' T' p i;
  u_table : T' (S k) q;
  u_leads : leads s' (S (S k)) p i q;
  u_user : has (ent s' p i) PTE_USER = true;
  u_family : T' = T ∧ s' = s ∨ T' = with_table T (S k) q ∧ (∀ l, ¬ T l q)
               ∧ ((k ≠ 0)%nat → link (S (S k)) (ent s p i) = true → has (ent s p i) PTE_USER = false);
  u_keeps : keeps s T s' T';
  u_origin j : (k ≠ 0)%nat → 0 <= j < 512 →
    ent s' q j = 0 ∨ ∃ old, leads s (S (S k)) p i old ∧ T (S k) old ∧ ent s' q j = ent s old j
}.

Lemma user_entry q : is_frame q → has (Z.lor q PTE_USER_RW) PTE_USER = true.
Proof. intros Hq. by rewrite has_lor. Qed.

Lemma fresh_not_table s T q : vmm_inv s T → ¬ fr_used (vm_frames s) q → ∀ l, ¬ T l q.
Proof. intros Hinv Hq l Hl. by apply Hq, (t_used _ _ _ (vi_tables _ _ Hinv) l). Qed.

(** A new table for entry [i] of [p], with contents [m]. *)
Lemma user_grow s T s1 m k p i q :
  vmm_inv s T → alloc_page s = (q, s1) → q ≠ 0 → T (S (S k)) p → idx_ok (S (S k)) i → mem_wf m →
  (∀ p i, is_frame p → p ≠ q → 0 <= i < 512 → pte m (PHYS_TO_VIRT p) i = pte (vm_mem s) (PHYS_TO_VIRT p) i) →
  new_entries T k (pte m (PHYS_TO_VIRT q)) →
  let s' := put (with_mem s1 m) (PHYS_TO_VIRT p) i (Z.lor q PTE_USER_RW) in
  (∀ va, va_ok va → idx (S (S k)) va = i →
     (∀ j, 0 <= j < 512 → ent s' q j = pte m (PHYS_TO_VIRT q) j) →
     (∀ l p' i', T l p' → idx_ok l i' → p' ≠ p ∨ i' ≠ i → ent s' p' i' = ent s p' i') →
     walk (ent s') (S k) q va = walk (ent s) (S (S k)) p va) →
  (∀ j, (k ≠ 0)%nat → 0 <= j < 512 → pte m (PHYS_TO_VIRT q) j = 0 ∨
     ∃ old, leads s (S (S k)) p i old ∧ T (S k) old ∧ pte m (PHYS_TO_VIRT q) j = ent s old j) →
  ((k ≠ 0)%nat → link (S (S k)) (ent s p i) = true → has (ent s p i) PTE_USER = false) →
  (∀ a, a < PHYS_TO_VIRT q ∨ PHYS_TO_VIRT q + PAGE_SIZE <= a → m a = vm_mem s a) →
  user_step s T s' (with_table T (S k) q) k p i q.
Proof.
  intros Hinv Ea Hq0 Hp Hi Hm Heq Hnew s' Hloc Horig Hus Hout.
  destruct (alloc_page_cases s T q s1 Hinv Ea) as (_ & _ & _ & _ & Hmono & _ & Hfresh).
  destruct (Hfresh Hq0) as (Hq & Hnu & _).
  destruct (grow_state s T s1 m k p i q PTE_USER_RW Hinv Ea Hq0 Hp Hi user_flags Hm Heq Hnew Hloc) as (Hg & _ & He).
  fold s' in Hg, He. pose proof (t_frame _ _ _ (vi_tables _ _ Hinv) _ _ Hp) as Hfp.
  split; [done|by right|by eapply leads_entry; [|exact user_flags|]| | | |].
  - rewrite He. by apply user_entry.
  - right. split_and!; [done|by apply (fresh_not_table s)|done].
  - assert (Hmid : keeps s T (with_mem s1 m) (with_table T (S k) q)).
    { apply (keeps_frame _ _ _ _ q Hq); [done|done|intros l r [?|[_ ->]]; auto|done]. }
    eapply keeps_trans; [exact Hmid|]. apply (keeps_frame _ _ _ _ p Hfp); [|done|intros l r ?; by left|].
    + intros _. exists (S (S k)). by left.
    + intros a Ha. apply entry_out; [apply Hi|done].
  - intros j Hk Hj. assert (Hqj : ent s' q j = pte m (PHYS_TO_VIRT q) j).
    { unfold s'. pose proof (table_entry 1 q PTE_USER_RW Hq user_flags) as (_ & _ & _ & _ & Hu).
      rewrite ent_put by (done || apply Hi). rewrite decide_False; [done|].
      intros [-> _]. by apply (fresh_not_table s T q Hinv Hnu (S (S k))). }
    rewrite Hqj. by apply Horig.
Qed.

Lemma clear_other m p q i :
  is_frame p → is_frame q → p ≠ q → 0 <= i < 512 →
  pte (clear_entries (PHYS_TO_VIRT q) m) (PHYS_TO_VIRT p) i = pte m (PHYS_TO_VIRT p) i.
Proof. intros. rewrite pte_clear_entries, decide_False by naive_solver. done. Qed.

(** An empty table under an entry that is not present. *)
Lemma user_grow_empty s T s1 k p i q :
  vmm_inv s T → alloc_page s = (q, s1) → q ≠ 0 → T (S (S k)) p → idx_ok (S (S k)) i →
  has (ent s p i) PTE_PRESENT = false →
  user_step s T (put (with_mem s1 (clear_entries (PHYS_TO_VIRT q) (vm_mem s1))) (PHYS_TO_VIRT p) i (Z.lor q PTE_USER_RW))
    (with_table T (S k) q) k p i q.
Proof.
  intros Hinv Ea Hq0 Hp Hi Epr.
  destruct (alloc_page_cases s T q s1 Hinv Ea) as (_ & Hm1 & _ & _ & _ & _ & Hfresh).
  destruct (Hfresh Hq0) as (Hq & _ & _). rewrite Hm1.
  assert (Hz : ∀ j, 0 <= j < 512 → pte (clear_entries (PHYS_TO_VIRT q) (vm_mem s)) (PHYS_TO_VIRT q) j = 0).
  { intros j Hj. by rewrite pte_clear_entries, decide_True. }
  apply user_grow; try done; [apply clear_entries_wf, (vi_mem _ _ Hinv)|..].
  - intros p' i' Hp' Hne Hi'. by apply clear_other.
  - eapply new_entries_ext; [exact Hz|apply new_entries_zero].
  - intros va Hv Hix Hent _. apply (local_empty _ _ k p i q va Epr); [|done]. intros j Hj. by rewrite Hent, Hz.
  - intros j _ Hj. left. by apply Hz.
  - intros _. unfold link. by rewrite Epr.
  - intros a Ha. by apply (entries_out (λ _ _, 0)).
Qed.

Lemma copy_other m p q old i :
  is_frame p → is_frame q → is_frame old → p ≠ q → old ≠ q → 0 <= i < 512 → mem_wf m →
  pte (copy_entries 0 512 (PHYS_TO_VIRT old) (PHYS_TO_VIRT q) m) (PHYS_TO_VIRT p) i = pte m (PHYS_TO_VIRT p) i.
Proof. intros. rewrite pte_copy_entries, decide_False by naive_solver lia. done. Qed.

(** A copy of the table under an entry without the user flag. *)
Lemma user_grow_copy s T s1 k p i q :
  vmm_inv s T → alloc_page s = (q, s1) → q ≠ 0 → T (S (S k)) p → idx_ok (S (S k)) i →
  link (S (S k)) (ent s p i) = true → has (ent s p i) PTE_USER = false →
  user_step s T (put (with_mem s1 (copy_entries 0 512 (PHYS_TO_VIRT (PTE_GET_ADDR (ent s p i))) (PHYS_TO_VIRT q)
      (vm_mem s1))) (PHYS_TO_VIRT p) i (Z.lor q PTE_USER_RW))
    (with_table T (S k) q) k p i q.
Proof.
  intros Hinv Ea Hq0 Hp Hi Hln Hus. pose proof (vi_tables _ _ Hinv) as Ht. pose proof (vi_mem _ _ Hinv) as Hm.
  destruct (alloc_page_cases s T q s1 Hinv Ea) as (_ & Hm1 & _ & _ & _ & _ & Hfresh).
  destruct (Hfresh Hq0) as (Hq & Hnu & _). rewrite Hm1. set (old := PTE_GET_ADDR (ent s p i)).
  assert (Ho : T (S k) old) by (by apply (t_next _ _ _ Ht)).
  assert (Hof : is_frame old) by apply get_addr_frame.
  assert (Hoq : old ≠ q) by (intros E; apply (fresh_not_table s T q Hinv Hnu (S k)); by rewrite <- E).
  set (m' := copy_entries 0 512 (PHYS_TO_VIRT old) (PHYS_TO_VIRT q) (vm_mem s)).
  assert (Hc : ∀ j, 0 <= j < 512 → pte m' (PHYS_TO_VIRT q) j = ent s old j).
  { intros j Hj. unfold m'. by rewrite pte_copy_entries, decide_True by (done || lia). }
  apply user_grow; try done; [by apply copy_entries_wf|..].
  - intros p' i' Hp' Hne Hi'. by apply copy_other.
  - apply (new_entries_ext T k _ (ent s old)); [exact Hc|]. split.
    + intros l j -> Hj. apply (t_next _ _ _ Ht); [done|]. split; [done|].
      pose proof (t_level _ _ _ Ht _ _ Hp). lia.
    + intros j -> Hj. apply (t_huge _ _ _ Ht); [done|]. by split.
  - intros va Hv Hix Hent Hkept. eapply (local_copy (ent s) _ _ T k p i q Ht Hp Hi Hkept va old); try done.
    intros j Hj. by rewrite Hent, Hc.
  - intros j _ Hj. right. exists old. split_and!; [done|done|by apply Hc].
  - intros a Ha. by apply (entries_out (λ i m, pte m (PHYS_TO_VIRT old) i)).
Qed.

Lemma user_step_same s T k p i q :
  vmm_inv s T → T (S (S k)) p → idx_ok (S (S k)) i → leads s (S (S k)) p i q → has (ent s p i) PTE_USER = true →
  user_step s T s T k p i q.
Proof.
  intros Hinv Hp Hi L Hu. assert (Hq : T (S k) q).
  { destruct L as [L <-]. by apply (t_next _ _ _ (vi_tables _ _ Hinv)). }
  split; [by apply grown_refl|done|done|done|by left|apply keeps_refl|]. intros j _ Hj. right. by exists q.
Qed.

(** A request for a frame was refused. *)
Definition starved : Prop := ∃ f, fr_ok f ∧ (fr_alloc f).1 = 0.

(** No frame was left for a table: the tables are as they were. *)
Definition refused s (T : family) s' : Prop := extended s T s' T ∧ ent s' = ent s ∧ keeps s T s' T ∧ answered s s' 0.

Lemma answered_starved s s' : answered s s' 0 → starved.
Proof. intros (f & _ & Hf & E). exists f. by rewrite E. Qed.

Lemma alloc_starved s T s1 : vmm_inv s T → alloc_page s = (0, s1) → starved.
Proof.
  intros Hinv. unfold alloc_page. destruct (fr_alloc (vm_frames s)) as [q f] eqn:E. intros [= -> _].
  exists (vm_frames s). rewrite E. split; [exact (vi_frames _ _ Hinv)|done].
Qed.

Lemma alloc_refused s T q s1 : vmm_inv s T → alloc_page s = (q, s1) → q = 0 → refused s T s1.
Proof.
  intros Hinv Ea Eq. destruct (alloc_page_cases s T q s1 Hinv Ea) as (_ & Hm1 & _ & _ & Hmono & Hans & _).
  split_and!; [|unfold ent, get; by rewrite Hm1| |by rewrite <- Eq].
  2: { intros a Ha. rewrite Hm1. split; [done|]. intros p Hp Hap. destruct (Ha p Hp Hap) as [Hu Hn]. auto. }
  exact (extended_grown _ _ _ _ _ _ _ _ (extended_refl s T Hinv) (alloc_grown s T q s1 0 0 Hinv Ea)).
Qed.

Lemma own_table_ok s T k p i ok s' :
  vmm_inv s T → T (S (S k)) p → idx_ok (S (S k)) i → has (ent s p i) PTE_PRESENT && leaf (S (S k)) (ent s p i) = false →
  own_table s (PHYS_TO_VIRT p) i = (ok, s') →
  if ok then ∃ T' q, user_step s T s' T' k p i q else refused s T s'.
Proof.
  intros Hinv Hp Hi Hlf. unfold own_table. change (get s (PHYS_TO_VIRT p) i) with (ent s p i).
  destruct (alloc_page s) as [q s1] eqn:Ea.
  pose proof (alloc_refused s T q s1 Hinv Ea) as Hx.
  destruct (has (ent s p i) PTE_PRESENT) eqn:Epr; cbn [negb andb] in Hlf |- *.
  - assert (Hln : link (S (S k)) (ent s p i) = true) by (unfold link; by rewrite Epr, Hlf).
    destruct (has (ent s p i) PTE_USER) eqn:Eu; cbn [negb].
    { intros [= <- <-]. exists T, (PTE_GET_ADDR (ent s p i)). by apply user_step_same. }
    destruct (Z.eqb_spec q 0) as [E|Hq0]; intros [= <- <-]; [by apply Hx|].
    exists (with_table T (S k) q), q. by apply user_grow_copy.
  - destruct (Z.eqb_spec q 0) as [E|Hq0]; intros [= <- <-]; [by apply Hx|].
    exists (with_table T (S k) q), q. by apply user_grow_empty.
Qed.

(** The page table: a 2 MB page is split ... *)
Lemma user_split_ok s T p i ok s' :
  vmm_inv s T → T 2%nat p → idx_ok 2 i → user_split s (PHYS_TO_VIRT p) i = (ok, s') →
  if ok then s' = s ∧ has (ent s p i) PTE_PRESENT && leaf 2 (ent s p i) = false
             ∨ leaf 2 (ent s p i) = true ∧ ∃ T' q, user_step s T s' T' 0 p i q
  else refused s T s'.
Proof.
  intros Hinv Hp Hi. unfold user_split. change (get s (PHYS_TO_VIRT p) i) with (ent s p i).
  destruct (has (ent s p i) PTE_PRESENT && has (ent s p i) PTE_HUGE) eqn:Eh; [|intros [= <- <-]; by left].
  apply andb_true_iff in Eh as [Hpr Hlf]. change (leaf 2 (ent s p i) = true) in Hlf.
  pose proof (t_huge _ _ _ (vi_tables _ _ Hinv) _ _ Hp Hi Hpr Hlf) as Hal.
  destruct (alloc_page s) as [q s1] eqn:Ea.
  destruct (alloc_page_cases s T q s1 Hinv Ea) as (Hinv1 & Hm1 & _ & _ & _ & _ & Hfresh).
  destruct (Z.eqb_spec q 0) as [E|Hq0]; intros [= <- <-].
  { by apply (alloc_refused s T q). }
  right. split; [done|]. exists (with_table T 1 q), q. destruct (Hfresh Hq0) as (Hq & _ & _).
  set (base := PTE_GET_ADDR (ent s p i)) in *. assert (Hb : is_frame base) by apply get_addr_frame.
  assert (Hu : is_u64 PTE_USER_RW) by done. rewrite Hm1.
  apply user_grow; try done; [apply split_entries_wf, (vi_mem _ _ Hinv)|..].
  - intros p' i' Hp' Hne Hi'. by apply split_other.
  - intros va Hv Hix Hz _.
    eapply (local_split _ _ _ T 0 p i q (vi_tables _ _ Hinv) Hp Hi va PTE_USER_RW); try done.
    intros j Hj. rewrite Hz by done. by rewrite pte_split_entries, decide_True.
  - intros a Ha. by apply (entries_out (λ i _, Z.lor (base +64 i * PAGE_SIZE) PTE_USER_RW)).
Qed.

(** ... and a missing one created. *)
Lemma user_table_ok s T p i ok s' :
  vmm_inv s T → T 2%nat p → idx_ok 2 i → has (ent s p i) PTE_PRESENT && leaf 2 (ent s p i) = false →
  user_table s (PHYS_TO_VIRT p) i = (ok, s') →
  if ok then s' = s ∧ link 2 (ent s p i) = true
             ∨ has (ent s p i) PTE_PRESENT = false ∧ ∃ T' q, user_step s T s' T' 0 p i q
  else refused s T s' ∧ has (ent s p i) PTE_PRESENT = false.
Proof.
  intros Hinv Hp Hi Hlf. unfold user_table. change (get s (PHYS_TO_VIRT p) i) with (ent s p i).
  destruct (has (ent s p i) PTE_PRESENT) eqn:Epr; cbn [negb andb] in Hlf |- *.
  { intros [= <- <-]. left. split; [done|]. unfold link. by rewrite Epr, Hlf. }
  destruct (alloc_page s) as [q s1] eqn:Ea. destruct (Z.eqb_spec q 0) as [E|Hq0]; intros [= <- <-].
  { split; [by apply (alloc_refused s T q)|done]. }
  right. split; [done|]. exists (with_table T 1 q), q. by apply user_grow_empty.
Qed.

(** ** The kernel's tables *)

(** [K] is a family of tables, closed under the entries, none of which carries
    the user flag.  In the tables outside, an entry without the user flag leads
    into [K], and an entry with it leads to a table outside to which no other
    entry leads. *)
Record private s (T K : family) : Prop := {
  k_sub l p : K l p → T l p;
  k_next l p i : K (S (S l)) p → idx_ok (S (S l)) i → link (S (S l)) (ent s p i) = true →
                 K (S l) (PTE_GET_ADDR (ent s p i));
  k_nouser l p i : K (S (S l)) p → idx_ok (S (S l)) i → link (S (S l)) (ent s p i) = true →
                   has (ent s p i) PTE_USER = false;
  k_user l p i : T (S (S l)) p → ¬ K (S (S l)) p → idx_ok (S (S l)) i → link (S (S l)) (ent s p i) = true →
                 has (ent s p i) PTE_USER = true → ¬ K (S l) (PTE_GET_ADDR (ent s p i));
  k_shared l p i : T (S (S l)) p → idx_ok (S (S l)) i → link (S (S l)) (ent s p i) = true →
                   has (ent s p i) PTE_USER = false → K (S l) (PTE_GET_ADDR (ent s p i));
  k_tree l p i p' i' : T (S (S l)) p → T (S (S l)) p' → idx_ok (S (S l)) i → idx_ok (S (S l)) i' →
                       link (S (S l)) (ent s p i) = true → link (S (S l)) (ent s p' i') = true →
                       has (ent s p i) PTE_USER = true → has (ent s p' i') PTE_USER = true →
                       PTE_GET_ADDR (ent s p i) = PTE_GET_ADDR (ent s p' i') → p = p' ∧ i = i'
}.

(** It is a property of the entries of the tables above the last level. *)
Lemma private_ext s s' T K :
  (∀ l p i, T (S (S l)) p → idx_ok (S (S l)) i → ent s' p i = ent s p i) → private s T K → private s' T K.
Proof.
  intros E [K1 K2 K3 K4 K5 K6]. split; [done|..].
  - intros l p i Hp Hi. rewrite (E l) by auto. by apply K2.
  - intros l p i Hp Hi. rewrite (E l) by auto. by apply K3.
  - intros l p i Hp Hn Hi. rewrite (E l) by done. by apply K4.
  - intros l p i Hp Hi. rewrite (E l) by done. by apply K5.
  - intros l p i p' i' Hp Hp' Hi Hi'. rewrite (E l p), (E l p') by done. by apply K6.
Qed.

(** A new table whose links are the kernel's joins the family. *)
Lemma private_join s T K l q :
  private s T K → (∀ l', ¬ T l' q) →
  (∀ i, idx_ok (S (S l)) i → link (S (S l)) (ent s q i) = true →
     has (ent s q i) PTE_USER = false ∧ K (S l) (PTE_GET_ADDR (ent s q i))) →
  private s (with_table T (S (S l)) q) K.
Proof.
  intros [K1 K2 K3 K4 K5 K6] Hnew Hlink. split; [intros l' p Hp; left; by apply K1|done|done|..].
  - intros l' p i [Hp|[[= ->] ->]] Hn Hi Hln Hus; [by apply K4|].
    destruct (Hlink i Hi Hln) as [E _]. by rewrite E in Hus.
  - intros l' p i [Hp|[[= ->] ->]] Hi Hln Hus; [by apply K5|]. by apply Hlink.
  - intros l' p i p' i' [Hp|[[= ->] ->]] Hp' Hi Hi' L L' Hu Hu' E.
    + destruct Hp' as [Hp'|[[= ->] ->]]; [by apply (K6 l')|]. destruct (Hlink i' Hi' L') as [E' _]. by rewrite E' in Hu'.
    + destruct (Hlink i Hi L) as [E' _]. by rewrite E' in Hu.
Qed.

Lemma private_join_last s T K q : private s T K → (∀ l', ¬ T l' q) → private s (with_table T 1 q) K.
Proof.
  intros [K1 K2 K3 K4 K5 K6] Hnew. split; [intros l' p Hp; left; by apply K1|done|done|..].
  - intros l p i [Hp|[? _]]; [by apply K4|done].
  - intros l p i [Hp|[? _]]; [by apply K5|done].
  - intros l p i p' i' [Hp|[? _]] [Hp'|[? _]]; [by apply (K6 l)|done..].
Qed.

(** Entry [i] of [p] is made to lead to a new table [q]. *)
Lemma private_link s s' T K k p i q :
  tables (ent s) (fr_used (vm_frames s)) T → private s T K → T (S (S k)) p → ¬ K (S (S k)) p → idx_ok (S (S k)) i →
  (∀ l, ¬ T l q) →
  leads s' (S (S k)) p i q → has (ent s' p i) PTE_USER = true →
  (∀ l r j, T l r → idx_ok l j → r ≠ p ∨ j ≠ i → ent s' r j = ent s r j) → private s' T K.
Proof.
  intros Ht [K1 K2 K3 K4 K5 K6] Hp Hnk Hi Hnew [L A] Hu Hkept.
  assert (HKp : ∀ l, ¬ K l p).
  { intros l Hl. apply Hnk. by rewrite <- (t_one _ _ _ Ht _ _ _ (K1 _ _ Hl) Hp). }
  assert (Hk : ∀ l r j, K l r → idx_ok l j → ent s' r j = ent s r j).
  { intros l r j Hr Hj. apply (Hkept l); [by apply K1|done|]. left. intros ->. by apply (HKp l). }
  assert (Hcase : ∀ l r j, T (S (S l)) r → idx_ok (S (S l)) j → r = p ∧ j = i ∧ l = k ∨ ent s' r j = ent s r j).
  { intros l r j Hr Hj. destruct (decide (r = p ∧ j = i)) as [[-> ->]|Hne].
    - left. pose proof (t_one _ _ _ Ht _ _ _ Hr Hp) as E. by injection E as ->.
    - right. apply (Hkept (S (S l))); [done|done|]. destruct (decide (r = p)) as [->|]; [right; by intros ->; apply Hne|by left]. }
  assert (Hold : ∀ l r j, T (S (S l)) r → idx_ok (S (S l)) j → link (S (S l)) (ent s r j) = true → PTE_GET_ADDR (ent s r j) ≠ q).
  { intros l r j Hr Hj Hln E. apply (Hnew (S l)). rewrite <- E. by apply (t_next _ _ _ Ht). }
  split; [done|..].
  - intros l r j Hr Hj. rewrite (Hk (S (S l))) by done. by apply K2.
  - intros l r j Hr Hj. rewrite (Hk (S (S l))) by done. by apply K3.
  - intros l r j Hr Hn Hj. destruct (Hcase l r j Hr Hj) as [(-> & -> & ->)|E]; [|rewrite E; by apply K4].
    intros _ _. rewrite A. intros Hq. by apply (Hnew (S k)), K1.
  - intros l r j Hr Hj. destruct (Hcase l r j Hr Hj) as [(-> & -> & ->)|E]; [by rewrite Hu|rewrite E; by apply K5].
  - intros l r j r' j' Hr Hr' Hj Hj'.
    destruct (Hcase l r j Hr Hj) as [(-> & -> & El)|E], (Hcase l r' j' Hr' Hj') as [(-> & -> & El')|E']; [done|..].
    + rewrite A, E'. intros _ L2 _ _ EA. by destruct (Hold l r' j' Hr' Hj' L2).
    + rewrite E, A. intros L1 _ _ _ EA. by destruct (Hold l r j Hr Hj L1).
    + rewrite E, E'. by apply K6.
Qed.

(** The entries of the kernel's tables. *)
Definition kernel_same s s' (K : family) : Prop := ∀ l p i, K l p → idx_ok l i → ent s' p i = ent s p i.

Lemma kernel_same_trans s s1 s2 K : kernel_same s s1 K → kernel_same s1 s2 K → kernel_same s s2 K.
Proof. intros H1 H2 l p i Hp Hi. rewrite (H2 l) by done. by apply (H1 l). Qed.

Lemma link_zero l : link l 0 = false. Proof. done. Qed.

Lemma user_step_private s T s' T' K k p i q :
  vmm_inv s T → private s T K → T (S (S k)) p → ¬ K (S (S k)) p → idx_ok (S (S k)) i →
  user_step s T s' T' k p i q → private s' T' K ∧ kernel_same s s' K ∧ ¬ K (S k) q.
Proof.
  intros Hinv HK Hp Hnk Hi [Hg Hq L Hu Hf _ Ho]. pose proof HK as [K1 K2 K3 K4 K5 _]. pose proof (vi_tables _ _ Hinv) as Ht.
  destruct Hf as [[-> ->]|(-> & Hnew & Hsh)].
  { destruct L as [Hln <-]. split_and!; [done|done|]. by apply K4. }
  assert (HKq : ∀ l, ¬ K l q) by (intros l Hl; by apply (Hnew l), K1).
  pose proof (private_link s s' T K k p i q Ht HK Hp Hnk Hi Hnew L Hu (g_kept _ _ _ _ _ _ Hg)) as HK'.
  split_and!; [| |apply HKq].
  - destruct k as [|k]; [by apply private_join_last|]. apply private_join; [done|done|].
    intros j Hj Hln. destruct (Ho j) as [E|(old & [Lo Lo'] & Hold & E)]; [lia|apply Hj|by rewrite E, link_zero in Hln|].
    rewrite E in Hln |- *. assert (Hko : K (S (S k)) old) by (rewrite <- Lo'; apply K5; auto).
    split; [by apply (K3 k old j)|by apply K2].
  - intros l r j Hr Hj. apply (g_kept _ _ _ _ _ _ Hg l); [by apply K1|done|]. left. intros ->. apply Hnk.
    by rewrite <- (t_one _ _ _ Ht _ _ _ (K1 _ _ Hr) Hp).
Qed.

(** ** Mapping a user page *)

(** A last-level table on the way to [virt] that the space shares with the kernel. *)
Definition shared_pt s (root virt : Z) : Prop :=
  ∃ p3 p2, leads s 4 root (idx 4 virt) p3 ∧ leads s 3 p3 (idx 3 virt) p2
    ∧ link 2 (ent s p2 (idx 2 virt)) = true ∧ has (ent s p2 (idx 2 virt)) PTE_USER = false.

Lemma leads_addr s l p i q : leads s l p i q → PTE_GET_ADDR (get s (PHYS_TO_VIRT p) i) = q.
Proof. by intros [_ <-]. Qed.

(** The same, as a condition on the way from table [p] of level [l]. *)
Fixpoint way (e : entries) (l : nat) (p va : Z) : Prop :=
  match l with
  | S k =>
      let x := e p (idx l va) in
      match k with
      | 1%nat => link l x = true → has x PTE_USER = true
      | 2%nat => has x PTE_PRESENT && leaf l x = false ∧ (link l x = true → way e k (PTE_GET_ADDR x) va)
      | 3%nat => link l x = true → way e k (PTE_GET_ADDR x) va
      | _ => True
      end
  | O => True
  end.

Lemma way_2 e p va :
  way e 2 p va = (link 2 (e p (idx 2 va)) = true → has (e p (idx 2 va)) PTE_USER = true).
Proof. done. Qed.
Lemma way_3 e p va :
  way e 3 p va = (has (e p (idx 3 va)) PTE_PRESENT && leaf 3 (e p (idx 3 va)) = false
    ∧ (link 3 (e p (idx 3 va)) = true → way e 2 (PTE_GET_ADDR (e p (idx 3 va))) va)).
Proof. done. Qed.
Lemma way_4 e p va :
  way e 4 p va = (link 4 (e p (idx 4 va)) = true → way e 3 (PTE_GET_ADDR (e p (idx 4 va))) va).
Proof. done. Qed.

(** Unfold one level. *)
Ltac way_open := first [rewrite !way_4 | rewrite !way_3 | rewrite !way_2].

Lemma way_iff s root va : way (ent s) 4 root va ↔ ¬ in_1gb_page s root va ∧ ¬ shared_pt s root va.
Proof.
  rewrite way_4, way_3, way_2. split.
  - intros Hw. split.
    + intros (p3 & [L <-] & Hpr & Hh). destruct (Hw L) as [E _]. cbn [leaf] in E. by rewrite Hpr, Hh in E.
    + intros (p3 & p2 & [L <-] & [L3 <-] & L2 & Hu). destruct (Hw L) as [_ E]. by rewrite (E L3 L2) in Hu.
  - intros [H1 H2] L. split.
    + destruct (_ && _) eqn:E; [|done]. destruct H1. apply andb_true_iff in E. by eexists.
    + intros L3 L2. apply not_false_iff_true. intros Hu. apply H2. by eexists _, _.
Qed.

(** What a step leaves of the ways of all addresses. *)
Definition ways s (T : family) s' : Prop :=
  ∀ l p va, T l p → va_ok va → way (ent s) l p va → way (ent s') l p va.

Lemma ways_trans s T s1 T1 s2 : (∀ l p, T l p → T1 l p) → ways s T s1 → ways s1 T1 s2 → ways s T s2.
Proof. intros Hs W1 W2 l p va Hp Hv Hw. apply W2; [by apply Hs|done|]. by apply W1. Qed.

(** Entries that stay carry the ways on. *)
Lemma way_same s s' l p va :
  ent s' p (idx l va) = ent s p (idx l va) →
  (∀ q, link l (ent s p (idx l va)) = true → q = PTE_GET_ADDR (ent s p (idx l va)) →
     way (ent s) (pred l) q va → way (ent s') (pred l) q va) →
  way (ent s) l p va → way (ent s') l p va.
Proof.
  intros E Hnext. destruct l as [|[|[|[|[|]]]]]; cbn [pred] in Hnext; try done;
    way_open; rewrite ?E; try done.
  - intros [Hw Hw']. split; [done|]. intros L. by apply (Hnext _ L eq_refl), Hw'.
  - intros Hw L. by apply (Hnext _ L eq_refl), Hw.
Qed.

Lemma ways_ext s T s' :
  vmm_inv s T → (∀ l p i, T (S (S l)) p → idx_ok (S (S l)) i → ent s' p i = ent s p i) → ways s T s'.
Proof.
  intros Hinv E l. induction l as [|l IH]; intros p va Hp Hv; [done|]. destruct l as [|l]; [done|].
  pose proof (va_idx_ok (S (S l)) va Hv) as I. apply way_same; [by apply (E l)|]. intros q L -> Hw. apply IH; [|done|done].
  by apply (t_next _ _ _ (vi_tables _ _ Hinv)).
Qed.

(** A table whose entries are empty or those of a table on the way before. *)
Lemma way_copied s s' (T : family) l p i q va :
  (∀ j, 0 <= j < 512 → ent s' q j = 0 ∨ ∃ old, leads s (S l) p i old ∧ T l old ∧ ent s' q j = ent s old j) →
  (∀ r, T l r → idx_ok l (idx l va) → link l (ent s r (idx l va)) = true →
     way (ent s) (pred l) (PTE_GET_ADDR (ent s r (idx l va))) va →
     way (ent s') (pred l) (PTE_GET_ADDR (ent s r (idx l va))) va) →
  va_ok va → (link (S l) (ent s p i) = true → way (ent s) l (PTE_GET_ADDR (ent s p i)) va) → way (ent s') l q va.
Proof.
  intros Ho Hnext Hv Hw. pose proof (va_idx_ok l va Hv) as I. destruct (Ho (idx l va)) as [E|(old & [L <-] & Ht & E)]; [apply idx_range|..].
  - destruct l as [|[|[|[|[|]]]]]; try done; way_open; rewrite E; done.
  - specialize (Hw L). specialize (Hnext _ Ht I). destruct l as [|[|[|[|[|]]]]]; cbn [pred] in Hnext; try done;
      revert Hw; way_open; rewrite E; try done.
    + intros [W1 W2]. split; [done|]. auto.
    + auto.
Qed.

Lemma user_step_ways s T s' T' k p i q :
  vmm_inv s T → T (S (S k)) p → idx_ok (S (S k)) i → user_step s T s' T' k p i q → ways s T s'.
Proof.
  intros Hinv Hp Hi [Hg Hq [L A] Hu Hf _ Ho]. destruct Hf as [[-> ->]|(-> & Hnew & _)]; [by intros l r va|].
  pose proof (vi_tables _ _ Hinv) as Ht. intros l. induction l as [l IH] using lt_wf_ind. intros r va Hr Hv.
  destruct l as [|[|l]]; [done|done|]. pose proof (va_idx_ok (S (S l)) va Hv) as I.
  destruct (decide (r = p ∧ idx (S (S l)) va = i)) as [[-> Ei]|Hne].
  2: { apply way_same; [apply (g_kept _ _ _ _ _ _ Hg (S (S l))); [done|done|]|intros t L' -> Hw; apply IH; [lia| |done|done]].
       - destruct (decide (r = p)) as [->|]; [right; by intros E; apply Hne|by left].
       - by apply (t_next _ _ _ Ht). }
  pose proof (t_one _ _ _ Ht _ _ _ Hr Hp) as El. injection El as ->.
  assert (Hl : (k <= 2)%nat) by (pose proof (t_level _ _ _ Ht _ _ Hp); lia).
  assert (Hq' : (k ≠ 0)%nat → (link (S (S k)) (ent s p i) = true → way (ent s) (S k) (PTE_GET_ADDR (ent s p i)) va) →
    way (ent s') (S k) q va).
  { intros Hk Hw. apply (way_copied s s' T (S k) p i); [by intros j; apply Ho| |done|done].
    intros r Hr' I' L' Hw'. destruct k as [|k]; [done|]. apply IH; [cbn [pred]; lia| |done|done].
    by apply (t_next _ _ _ Ht). }
  clear IH Ho. rewrite <- Ei in *. destruct k as [|[|[|]]]; [|..|lia]; way_open; rewrite ?A.
  - done.
  - intros [_ Hw]. split; [|auto]. revert L. unfold link. by destruct (has _ PTE_PRESENT), (leaf _ _).
  - auto.
Qed.

(** The last step of the way. *)
Lemma user_pt_ok s T p i :
  vmm_inv s T → T 2%nat p → idx_ok 2 i → (link 2 (ent s p i) = true → has (ent s p i) PTE_USER = true) →
  let '(ok1, s1) := user_split s (PHYS_TO_VIRT p) i in
  if negb ok1 then refused s T s1
  else let '(ok2, s2) := user_table s1 (PHYS_TO_VIRT p) i in
    if ok2 then ∃ T' q, user_step s T s2 T' 0 p i q else refused s T s2.
Proof.
  intros Hinv Hp Hi Hus. destruct (user_split s (PHYS_TO_VIRT p) i) as [ok1 s1] eqn:E1.
  pose proof (user_split_ok s T p i ok1 s1 Hinv Hp Hi E1) as H1. destruct ok1; cbn [negb]; [|done].
  destruct (user_table s1 (PHYS_TO_VIRT p) i) as [ok2 s2] eqn:E2. destruct H1 as [[-> Hlf]|(_ & T1 & q & Hst)].
  - pose proof (user_table_ok s T p i ok2 s2 Hinv Hp Hi Hlf E2) as H2. destruct ok2; [|by destruct H2].
    destruct H2 as [[-> Hln]|[_ Hnew]]; [|done]. exists T, (PTE_GET_ADDR (ent s p i)). apply user_step_same; try done.
    by apply Hus.
  - pose proof (u_grown _ _ _ _ _ _ _ _ Hst) as Hg. pose proof (u_leads _ _ _ _ _ _ _ _ Hst) as L.
    pose proof (user_table_ok s1 T1 p i ok2 s2 (g_inv _ _ _ _ _ _ Hg) (g_sub _ _ _ _ _ _ Hg _ _ Hp) Hi
      (leads_not_leaf _ _ _ _ _ L) E2) as H2.
    destruct L as [L _]. unfold link in L.
    destruct ok2; [|destruct H2 as [_ Hnp]; by rewrite Hnp in L].
    destruct H2 as [[-> _]|[Hnp _]]; [by exists T1, q|by rewrite Hnp in L].
Qed.

Lemma extended_step s T s1 T1 s2 T2 : extended s T s1 T1 → extended s1 T1 s2 T2 → extended s T s2 T2.
Proof.
  intros [H1 H2 H3 H4 H5] [G1 G2 G3 G4 G5]. split; [done|auto| |congruence|by eapply fresh_tables_trans].
  intros l q va Hq Hv. rewrite G3 by auto. by apply H3.
Qed.

(** The tables of the kernel are a family of their own. *)
Lemma private_tables s T K : vmm_inv s T → private s T K → tables (ent s) (fr_used (vm_frames s)) K.
Proof.
  intros Hinv [K1 K2 _ _ _ _]. destruct (vi_tables _ _ Hinv) as [T1 T2 T3 T4 T5 T6].
  split; eauto.
Qed.

Lemma kernel_translate s T s' K root va :
  vmm_inv s T → private s T K → kernel_same s s' K → K 4%nat root → va_ok va →
  translate s' root va = translate s root va.
Proof.
  intros Hinv HK Hs Hr Hv. eapply walk_ext; [by eapply private_tables|done|done|].
  intros l p i _ Hp Hi. by apply (Hs l).
Qed.

Lemma private_refused s T K s' : private s T K → refused s T s' → private s' T K ∧ kernel_same s s' K.
Proof.
  intros HK (_ & E & _ & _). split; [|intros l p i _ _; by rewrite E]. eapply private_ext; [|done]. intros. by rewrite E.
Qed.

Lemma private_put s T K q j v :
  vmm_inv s T → private s T K → T 1%nat q → ¬ K 1%nat q → idx_ok 1 j → is_u64 v →
  private (put s (PHYS_TO_VIRT q) j v) T K ∧ kernel_same s (put s (PHYS_TO_VIRT q) j v) K.
Proof.
  intros Hinv HK Hq Hnk Hj Hv. destruct (write_leaf s T q j v Hinv Hq Hj Hv) as (_ & Hkept & _ & _).
  assert (Hup : ∀ l p i, T (S (S l)) p → idx_ok (S (S l)) i → ent (put s (PHYS_TO_VIRT q) j v) p i = ent s p i).
  { intros l p i Hp Hi. apply (Hkept (S (S l))); [done|done|]. left. by apply (levels_apart s T (S (S l)) 1). }
  split; [by apply (private_ext s)|].
  intros l p i Hp Hi. pose proof (k_sub _ _ _ HK _ _ Hp) as Hp'. apply (Hkept l); [done|done|]. left. intros ->. apply Hnk.
  by rewrite <- (t_one _ _ _ (vi_tables _ _ Hinv) _ _ _ Hp' Hq).
Qed.

(** What the steps up to the last-level table achieve. *)
Record user_path s (T K : family) s' (T' : family) (root virt q : Z) : Prop := {
  up_ext : extended s T s' T';
  up_table : T' 1%nat q;
  up_slot : slot (ent s') 4 root virt = Some (q, idx 1 virt);
  up_private : private s' T' K;
  up_same : kernel_same s s' K;
  up_kernel : ¬ K 1%nat q;
  up_keeps : keeps s T s' T';
  up_ways : ways s T s'
}.

(** Entry [i3] of the second table comes from the space as it was. *)
Lemma user_origin3 s T s1 T1 root i4 i3 p3 :
  user_step s T s1 T1 2 root i4 p3 → 0 <= i3 < 512 →
  (∀ old, leads s 4 root i4 old → has (ent s old i3) PTE_PRESENT && leaf 3 (ent s old i3) = false) →
  has (ent s1 p3 i3) PTE_PRESENT && leaf 3 (ent s1 p3 i3) = false.
Proof.
  intros Hst Hi3 Hno. destruct (u_origin _ _ _ _ _ _ _ _ Hst i3) as [->|(old & L & _ & ->)]; [lia|done|done|].
  by apply Hno.
Qed.

(** Entry [i2] of the third table, likewise. *)
Lemma user_origin2 s T s1 T1 s2 T2 root virt p3 p2 :
  vmm_inv s T → T 4%nat root → va_ok virt →
  user_step s T s1 T1 2 root (idx 4 virt) p3 → user_step s1 T1 s2 T2 1 p3 (idx 3 virt) p2 →
  ¬ shared_pt s root virt → link 2 (ent s2 p2 (idx 2 virt)) = true → has (ent s2 p2 (idx 2 virt)) PTE_USER = true.
Proof.
  intros Hinv Hr Hv Hst1 Hst2 Hsh Hln. destruct (has _ PTE_USER) eqn:Eu; [done|]. exfalso. apply Hsh.
  destruct (u_origin _ _ _ _ _ _ _ _ Hst2 (idx 2 virt)) as [E|(o2 & [L2 A2] & Ho2 & E)];
    [lia|apply idx_range|by rewrite E in Hln|]. rewrite E in Hln, Eu.
  destruct (u_origin _ _ _ _ _ _ _ _ Hst1 (idx 3 virt)) as [E'|(o3 & L3 & Ho3 & E')];
    [lia|apply idx_range|by rewrite E' in L2|]. rewrite E' in L2, A2.
  assert (Ho2' : T 2%nat o2).
  { rewrite <- A2. apply (t_next _ _ _ (vi_tables _ _ Hinv)); [done|by apply va_idx_ok|done]. }
  rewrite (g_kept _ _ _ _ _ _ (u_grown _ _ _ _ _ _ _ _ Hst1) 2%nat o2 _ Ho2' (va_idx_ok 2 virt Hv)) in Hln, Eu
    by (left; by apply (levels_apart s T 2 4)).
  by exists o3, o2.
Qed.

Lemma user_path_ok s T K s1 T1 s2 T2 s3 T3 root virt p3 p2 p1 :
  vmm_inv s T → private s T K → T 4%nat root → ¬ K 4%nat root → va_ok virt →
  user_step s T s1 T1 2 root (idx 4 virt) p3 → user_step s1 T1 s2 T2 1 p3 (idx 3 virt) p2 →
  user_step s2 T2 s3 T3 0 p2 (idx 2 virt) p1 → user_path s T K s3 T3 root virt p1.
Proof.
  intros Hinv HK Hr Hnr Hv U1 U2 U3.
  pose proof (va_idx_ok 4 virt Hv) as I4. pose proof (va_idx_ok 3 virt Hv) as I3. pose proof (va_idx_ok 2 virt Hv) as I2.
  destruct (user_step_private _ _ _ _ K _ _ _ _ Hinv HK Hr Hnr I4 U1) as (HK1 & S1 & N1).
  pose proof U1 as [G1 H3 L4 _ _ P1 _]. pose proof (g_inv _ _ _ _ _ _ G1) as V1.
  destruct (user_step_private _ _ _ _ K _ _ _ _ V1 HK1 H3 N1 I3 U2) as (HK2 & S2 & N2).
  pose proof U2 as [G2 H2 L3 _ _ P2 _]. pose proof (g_inv _ _ _ _ _ _ G2) as V2.
  destruct (user_step_private _ _ _ _ K _ _ _ _ V2 HK2 H2 N2 I2 U3) as (HK3 & S3 & N3).
  pose proof U3 as [G3 H1 L2 _ _ P3 _].
  pose proof (g_sub _ _ _ _ _ _ G1 _ _ Hr) as Hr1. pose proof (g_sub _ _ _ _ _ _ G2 _ _ Hr1) as Hr2.
  pose proof (g_sub _ _ _ _ _ _ G2 _ _ H3) as H3'.
  apply (leads_kept _ _ _ _ _ _ _ _ _ _ G2 Hr1 I4) in L4; [|by apply (levels_apart s1 T1 4 3)].
  apply (leads_kept _ _ _ _ _ _ _ _ _ _ G3 Hr2 I4) in L4; [|by apply (levels_apart s2 T2 4 2)].
  apply (leads_kept _ _ _ _ _ _ _ _ _ _ G3 H3' I3) in L3; [|by apply (levels_apart s2 T2 3 2)].
  pose proof (user_step_ways _ _ _ _ _ _ _ _ Hinv Hr I4 U1) as W1. pose proof (user_step_ways _ _ _ _ _ _ _ _ V1 H3 I3 U2) as W2.
  pose proof (user_step_ways _ _ _ _ _ _ _ _ V2 H2 I2 U3) as W3.
  split; [|done| |done| |done| |].
  - eapply extended_grown; [|exact G3]. eapply extended_grown; [|exact G2].
    eapply extended_grown; [by apply extended_refl|exact G1].
  - by rewrite (slot_leads s3 2 root virt p3 L4), (slot_leads s3 1 p3 virt p2 L3), (slot_leads s3 0 p2 virt p1 L2).
  - eapply kernel_same_trans; [exact S1|]. by eapply kernel_same_trans.
  - eapply keeps_trans; [exact P1|]. by eapply keeps_trans.
  - eapply ways_trans; [exact (g_sub _ _ _ _ _ _ G1)|exact W1|].
    eapply ways_trans; [exact (g_sub _ _ _ _ _ _ G2)|exact W2|exact W3].
Qed.

Lemma user_va_ok virt : 0 <= virt < USER_SPACE_END → va_ok virt.
Proof.
  unfold USER_SPACE_END, va_ok, idx, VMM_RECURSIVE_INDEX. intros Hv. change (shift 4) with 39.
  assert (0 <= virt / 2 ^ 39 < 256) by (split; [apply Z.div_pos; lia|apply Z.div_lt_upper_bound; lia]).
  rewrite Z.mod_small; lia.
Qed.

Lemma user_page_flags fl : page_flags fl → page_flags (Z.lor fl PTE_USER).
Proof.
  intros (H1 & H2 & H3). split_and!; [|by rewrite Z.land_lor_distr_l, H2|by apply lor_u64].
  unfold has in *. rewrite Z.land_lor_distr_l. by rewrite Z.lor_0_r.
Qed.

(** The entry of the page is written. *)
Lemma user_path_put s T K s4 T4 root virt phys flags p1 :
  T 4%nat root → 0 <= virt < USER_SPACE_END → page_flags flags → user_path s T K s4 T4 root virt p1 →
  let s' := put s4 (PHYS_TO_VIRT p1) (idx 1 virt) (Z.lor (Z.land phys PTE_ADDR_MASK) (Z.lor flags PTE_USER)) in
  slot (ent s') 4 root virt = Some (p1, idx 1 virt) ∧ virt < USER_SPACE_END
  ∧ remaps s T s' T4 (p1, idx 1 virt) (Some (PTE_GET_ADDR phys)) ∧ private s' T4 K ∧ kernel_same s s' K
  ∧ keeps s T s' T4 ∧ ways s T s' ∧ T4 1%nat p1 ∧ ¬ K 1%nat p1.
Proof.
  intros Hr Hv0 Hfl [X4 Hq1 Es Q5 Q6 Q7 Q8 Q9]. cbv zeta. pose proof (user_va_ok virt Hv0) as Hv.
  set (v := Z.lor _ _). destruct (user_page_flags flags Hfl) as (F1 & F2 & F3). pose proof (x_inv _ _ _ _ X4) as V4.
  assert (Hvu : is_u64 v) by (apply lor_u64; [apply frame_u64, get_addr_frame|done]).
  destruct (private_put s4 T4 K p1 (idx 1 virt) v V4 Q5 Hq1 Q7 (va_idx_ok 1 virt Hv) Hvu) as [Q1 Q2].
  destruct (remaps_put s T s4 T4 _ p1 (idx 1 virt) v X4 Hq1 (va_idx_ok 1 virt Hv) Hvu eq_refl eq_refl eq_refl eq_refl)
    as [R1 R2].
  assert (Ev : (if has v PTE_PRESENT then Some (PTE_GET_ADDR v) else None) = Some (PTE_GET_ADDR phys)).
  { unfold v. by rewrite has_lor, F1, get_addr_lor by (done || apply get_addr_frame). }
  rewrite Ev in R1. split_and!; [|lia|done|done|by eapply kernel_same_trans| | |done|done].
  - rewrite <- Es. apply R2; [by apply (x_sub _ _ _ _ X4)|done].
  - eapply keeps_trans; [exact Q8|].
    apply (keeps_frame _ _ _ _ p1 (t_frame _ _ _ (vi_tables _ _ V4) _ _ Hq1));
      [by exists 1%nat|done|by left|]. intros a Ha. apply entry_out; [apply idx_range|done].
  - eapply ways_trans; [exact (x_sub _ _ _ _ X4)|exact Q9|]. apply ways_ext; [done|]. intros l p i Hp Hi.
    destruct (write_leaf s4 T4 p1 (idx 1 virt) v V4 Hq1 (va_idx_ok 1 virt Hv) Hvu) as (_ & Hkept & _).
    apply (Hkept (S (S l))); [done|done|]. left. by apply (levels_apart s4 T4 (S (S l)) 1).
Qed.

(** A failure after the steps that led to [s1]. *)
Lemma refused_after s T K s1 T1 s2 virt :
  extended s T s1 T1 → private s1 T1 K → kernel_same s s1 K → keeps s T s1 T1 → ways s T s1 → refused s1 T1 s2 →
  ∃ T', extended s T s2 T' ∧ private s2 T' K ∧ kernel_same s s2 K ∧ keeps s T s2 T' ∧ ways s T s2
    ∧ (virt < USER_SPACE_END → answered s s2 0).
Proof.
  intros X HK HS Hk Hw Hr. destruct (private_refused _ _ _ _ HK Hr) as [HK' HS']. exists T1.
  split_and!; [eapply extended_step; [exact X|apply Hr]|done|by eapply kernel_same_trans| | |].
  - eapply keeps_trans; [exact Hk|apply Hr].
  - destruct Hr as (_ & E & _). intros l p va Hp Hv. rewrite E. by apply Hw.
  - intros _. eapply answered_after; [|apply Hr]. by apply (x_fresh _ _ _ _ X).
Qed.

Lemma vmm_map_user_page_cases s T K root virt phys flags ok s' :
  vmm_inv s T → private s T K → T 4%nat root → ¬ K 4%nat root → 0 <= virt → page_flags flags →
  ¬ in_1gb_page s root virt → ¬ shared_pt s root virt →
  vmm_map_user_page s root virt phys flags = (ok, s') →
  if ok then ∃ T' q, slot (ent s') 4 root virt = Some (q, idx 1 virt) ∧ virt < USER_SPACE_END
      ∧ remaps s T s' T' (q, idx 1 virt) (Some (PTE_GET_ADDR phys)) ∧ private s' T' K ∧ kernel_same s s' K
      ∧ keeps s T s' T' ∧ ways s T s' ∧ T' 1%nat q ∧ ¬ K 1%nat q
  else ∃ T', extended s T s' T' ∧ private s' T' K ∧ kernel_same s s' K ∧ keeps s T s' T' ∧ ways s T s'
      ∧ (virt < USER_SPACE_END → answered s s' 0).
Proof.
  intros Hinv HK Hr Hnr Hv0 Hfl H1g Hsh. unfold vmm_map_user_page.
  destruct (Z.leb_spec USER_SPACE_END virt) as [Hend|Hend].
  { intros [= <- <-]. exists T. split_and!; [by apply extended_refl|done|done|apply keeps_refl|by intros l p va|lia]. }
  assert (Hv : va_ok virt) by (by apply user_va_ok). cbv zeta.
  rewrite PML4_INDEX_val, PDPT_INDEX_val, PD_INDEX_val, PT_INDEX_val.
  pose proof (va_idx_ok 4 virt Hv) as I4. pose proof (va_idx_ok 3 virt Hv) as I3. pose proof (va_idx_ok 2 virt Hv) as I2.
  destruct (own_table s (PHYS_TO_VIRT root) (idx 4 virt)) as [ok1 s1] eqn:E1.
  pose proof (own_table_ok s T 2 root (idx 4 virt) ok1 s1 Hinv Hr I4 (andb_false_r _) E1) as U1.
  destruct ok1; cbn [negb]; [|intros [= <- <-]; by eapply refused_after; [apply extended_refl| | |apply keeps_refl|by intros l p va|]].
  destruct U1 as (T1 & p3 & U1). destruct (user_step_private _ _ _ _ K _ _ _ _ Hinv HK Hr Hnr I4 U1) as (HK1 & S1 & N1).
  pose proof U1 as [G1 H3 L4 _ _ P1 _]. rewrite (leads_addr _ _ _ _ _ L4). pose proof (g_inv _ _ _ _ _ _ G1) as V1.
  pose proof (extended_grown _ _ _ _ _ _ _ _ (extended_refl s T Hinv) G1) as X1.
  pose proof (user_step_ways _ _ _ _ _ _ _ _ Hinv Hr I4 U1) as W1.
  assert (Hlf : has (ent s1 p3 (idx 3 virt)) PTE_PRESENT && leaf 3 (ent s1 p3 (idx 3 virt)) = false).
  { apply (user_origin3 _ _ _ _ _ _ _ _ U1); [apply idx_range|]. intros old L. apply not_true_iff_false.
    intros Eh. apply H1g. exists old. split; [done|]. by apply andb_true_iff in Eh. }
  destruct (own_table s1 (PHYS_TO_VIRT p3) (idx 3 virt)) as [ok2 s2] eqn:E2.
  pose proof (own_table_ok s1 T1 1 p3 (idx 3 virt) ok2 s2 V1 H3 I3 Hlf E2) as U2.
  destruct ok2; cbn [negb]; [|intros [= <- <-]; by eapply refused_after].
  destruct U2 as (T2 & p2 & U2). pose proof U2 as [G2 H2 L3 _ _ P2 _]. rewrite (leads_addr _ _ _ _ _ L3).
  pose proof (g_inv _ _ _ _ _ _ G2) as V2. pose proof (extended_grown _ _ _ _ _ _ _ _ X1 G2) as X2.
  destruct (user_step_private _ _ _ _ K _ _ _ _ V1 HK1 H3 N1 I3 U2) as (HK2 & S2 & _).
  pose proof (kernel_same_trans _ _ _ _ S1 S2) as S12. pose proof (keeps_trans _ _ _ _ _ _ P1 P2) as P12.
  pose proof (user_step_ways _ _ _ _ _ _ _ _ V1 H3 I3 U2) as W2.
  pose proof (ways_trans _ _ _ _ _ (g_sub _ _ _ _ _ _ G1) W1 W2) as W12.
  pose proof (user_pt_ok s2 T2 p2 (idx 2 virt) V2 H2 I2
    (user_origin2 _ _ _ _ _ _ _ _ _ _ Hinv Hr Hv U1 U2 Hsh)) as U3.
  destruct (user_split s2 (PHYS_TO_VIRT p2) (idx 2 virt)) as [ok3 s3]. destruct ok3; cbn [negb] in U3 |- *.
  2: { intros [= <- <-]. by eapply refused_after. }
  destruct (user_table s3 (PHYS_TO_VIRT p2) (idx 2 virt)) as [ok4 s4]. destruct ok4; cbn [negb].
  2: { intros [= <- <-]. by eapply refused_after. }
  destruct U3 as (T4 & p1 & U3). intros [= <- <-].
  rewrite (leads_addr _ _ _ _ _ (u_leads _ _ _ _ _ _ _ _ U3)). exists T4, p1.
  apply user_path_put; [done|done|done|]. by apply (user_path_ok _ _ K _ _ _ _ _ _ _ _ _ p2 p1 Hinv HK Hr Hnr Hv U1 U2 U3).
Qed.

(** ** Which addresses share an entry *)

(** The walk uses 48 bits of the address. *)
Definition same_page (va va' : Z) : Prop := (va / PAGE_SIZE) mod 2 ^ 36 = (va' / PAGE_SIZE) mod 2 ^ 36.
#[global] Instance same_page_dec va va' : Decision (same_page va va').
Proof. unfold same_page. apply _. Defined.

Lemma page_number_idx va :
  (va / PAGE_SIZE) mod 2 ^ 36 = idx 1 va + 512 * (idx 2 va + 512 * (idx 3 va + 512 * idx 4 va)).
Proof.
  unfold idx. change (2 ^ shift 1) with PAGE_SIZE. change (2 ^ shift 2) with (PAGE_SIZE * 512).
  change (2 ^ shift 3) with (PAGE_SIZE * 512 * 512). change (2 ^ shift 4) with (PAGE_SIZE * 512 * 512 * 512).
  rewrite <- !Z.div_div by (unfold PAGE_SIZE; lia). generalize (va / PAGE_SIZE) as x. intros x.
  change (2 ^ 36) with (512 * (512 * (512 * 512))). by rewrite !Z.rem_mul_r by lia.
Qed.

Lemma same_page_idx va va' : same_page va va' ↔ ∀ l, (1 <= l <= 4)%nat → idx l va = idx l va'.
Proof.
  unfold same_page. rewrite !page_number_idx. split.
  - intros E l Hl. pose proof (idx_range 1 va). pose proof (idx_range 2 va). pose proof (idx_range 3 va).
    pose proof (idx_range 4 va). pose proof (idx_range 1 va'). pose proof (idx_range 2 va').
    pose proof (idx_range 3 va'). pose proof (idx_range 4 va').
    destruct l as [|[|[|[|[|]]]]]; lia.
  - intros E. by rewrite !E by lia.
Qed.

Lemma slot_kernel s T K l p va q j :
  private s T K → K l p → va_ok va → slot (ent s) l p va = Some (q, j) → K 1%nat q.
Proof.
  intros HK Hp Hv. revert p Hp. induction l as [|l IH]; intros p Hp; [done|]. destruct l as [|l].
  - by intros [= <- _].
  - rewrite slot_SS. destruct (link _ _) eqn:El; [|done]. apply IH. apply (k_next _ _ _ HK); [done|by apply va_idx_ok|done].
Qed.

(** A last-level table outside the kernel's has one way from above. *)
Lemma slot_unique s T K l p p' va va' q j j' :
  vmm_inv s T → private s T K → T l p → T l p' → va_ok va → va_ok va' → ¬ K 1%nat q →
  slot (ent s) l p va = Some (q, j) → slot (ent s) l p' va' = Some (q, j') →
  p = p' ∧ ∀ l', (2 <= l' <= l)%nat → idx l' va = idx l' va'.
Proof.
  intros Hinv HK Hp Hp' Hv Hv' Hq. revert p p' Hp Hp'. induction l as [|l IH]; intros p p' Hp Hp'; [done|].
  destruct l as [|l].
  { intros [= -> _] [= -> _]. split; [done|lia]. }
  rewrite !slot_SS. destruct (link _ (ent s p _)) eqn:L; [|done]. destruct (link _ (ent s p' _)) eqn:L'; [|done].
  pose proof (va_idx_ok (S (S l)) va Hv) as I. pose proof (va_idx_ok (S (S l)) va' Hv') as I'.
  pose proof (t_next _ _ _ (vi_tables _ _ Hinv) _ _ _ Hp I L) as Ht.
  pose proof (t_next _ _ _ (vi_tables _ _ Hinv) _ _ _ Hp' I' L') as Ht'.
  intros E E'. destruct (IH _ _ Ht Ht' E E') as [Et Hix].
  assert (Hn : ¬ K (S l) (PTE_GET_ADDR (ent s p (idx (S (S l)) va)))) by (intros Hk; exact (Hq (slot_kernel s T K (S l) _ va q j HK Hk Hv E))).
  assert (Hu : has (ent s p (idx (S (S l)) va)) PTE_USER = true).
  { apply not_false_iff_true. intros Eu. apply Hn. by apply (k_shared _ _ _ HK). }
  assert (Hu' : has (ent s p' (idx (S (S l)) va')) PTE_USER = true).
  { apply not_false_iff_true. intros Eu. apply Hn. rewrite Et. by apply (k_shared _ _ _ HK). }
  destruct (k_tree _ _ _ HK _ _ _ _ _ Hp Hp' I I' L L' Hu Hu' Et) as [-> Hi]. split; [done|].
  intros l' Hl'. destruct (decide (l' = S (S l))) as [->|]; [done|]. apply Hix. lia.
Qed.

(** The entry of a user page belongs to that page of that space alone. *)
Lemma user_slot_iff s T K root rt virt va q :
  vmm_inv s T → private s T K → T 4%nat root → T 4%nat rt → va_ok virt → va_ok va → ¬ K 1%nat q →
  slot (ent s) 4 root virt = Some (q, idx 1 virt) →
  slot (ent s) 4 rt va = Some (q, idx 1 virt) ↔ rt = root ∧ same_page va virt.
Proof.
  intros Hinv HK Hr Hrt Hv Hva Hq E. split.
  - intros E'. destruct (slot_unique s T K 4 rt root va virt q _ _ Hinv HK Hrt Hr Hva Hv Hq E' E) as [-> Hix].
    split; [done|]. apply same_page_idx. intros l Hl. destruct (decide (l = 1%nat)) as [->|]; [|apply Hix; lia].
    by destruct (slot_table _ _ _ _ _ _ _ _ (vi_tables _ _ Hinv) Hr Hva E') as [_ <-].
  - intros [-> Hs]. rewrite same_page_idx in Hs. rewrite <- E, !slot_SS. cbn [slot].
    by rewrite (Hs 4%nat), (Hs 3%nat), (Hs 2%nat), (Hs 1%nat) by lia.
Qed.

(** ** Creating an address space *)

(** The entries of a new top-level table. *)
Definition space_entry s (i : Z) : Z := if (i =? 0) || (256 <=? i) then ent s (vmm_pml4_phys s) i else 0.

Lemma pte_new_space m k r q j :
  is_frame k → is_frame r → k ≠ r → is_frame q → 0 <= j < 512 → mem_wf m →
  let m1 := copy_entries 256 512 (PHYS_TO_VIRT k) (PHYS_TO_VIRT r) (clear_entries (PHYS_TO_VIRT r) m) in
  pte (set_pte m1 (PHYS_TO_VIRT r) 0 (pte m1 (PHYS_TO_VIRT k) 0)) (PHYS_TO_VIRT q) j
  = if decide (r = q) then if (j =? 0) || (256 <=? j) then pte m (PHYS_TO_VIRT k) j else 0
    else pte m (PHYS_TO_VIRT q) j.
Proof.
  intros Hk Hr Hne Hq Hj Hm. cbv zeta. pose proof (clear_entries_wf (PHYS_TO_VIRT r) m Hm) as Hm0.
  assert (Hi0 : 0 <= 0 < 512) by lia. assert (Hlo : 0 <= 256 <= 512) by lia. assert (Hhi : 512 <= 512) by lia.
  rewrite (pte_copy_entries 256 512 k r _ k 0 Hk Hr Hne Hk Hlo Hhi Hi0 Hm0), decide_False by lia.
  rewrite (pte_clear_entries r m k 0 Hr Hk Hi0), decide_False by congruence.
  rewrite (pte_set_pte _ r q 0 j _ Hr Hq Hi0 Hj (pte_u64 _ _ _ Hm)).
  rewrite (pte_copy_entries 256 512 k r _ q j Hk Hr Hne Hq Hlo Hhi Hj Hm0).
  rewrite (pte_clear_entries r m k j Hr Hk Hj), (decide_False (P := r = k)) by congruence.
  rewrite (pte_clear_entries r m q j Hr Hq Hj). clear Hm Hm0. destruct (decide (r = q)) as [->|Hrq].
  - destruct (Z.eqb_spec j 0) as [->|Hj0]; [by rewrite decide_True|]. rewrite decide_False by lia.
    destruct (Z.leb_spec 256 j); [rewrite decide_True by lia|rewrite decide_False by lia]; done.
  - rewrite !decide_False by (intros [? ?]; congruence). done.
Qed.

Lemma vmm_create_address_space_cases s T root s' :
  vmm_inv s T → vmm_create_address_space s = (root, s') →
  extended s T s' T ∧ kernel_same s s' T ∧ keeps s T s' (if decide (root = 0) then T else with_table T 4 root) ∧
  (root ≠ 0 → is_frame root ∧ (∀ l, ¬ T l root) ∧ fr_used (vm_frames s') root
     ∧ ∀ i, 0 <= i < 512 → ent s' root i = space_entry s i).
Proof.
  intros Hinv. unfold vmm_create_address_space. destruct (alloc_page s) as [q s1] eqn:Ea.
  destruct (alloc_page_cases s T q s1 Hinv Ea) as (Hinv1 & Hm1 & Hp1 & Hr1 & Hmono & Hans & Hfresh).
  destruct (Z.eqb_spec q 0) as [E|Hq0]; intros [= <- <-].
  { split; [exact (extended_grown _ _ _ _ _ _ _ _ (extended_refl s T Hinv) (alloc_grown s T q s1 0 0 Hinv Ea))|].
    split; [intros l p i _ _; unfold ent, get; by rewrite Hm1|]. rewrite decide_True by done. split; [|done].
    by apply (alloc_refused s T q s1 Hinv Ea E). }
  destruct (Hfresh Hq0) as (Hq & Hnu & Hu). rewrite Hm1, Hr1. set (k := vmm_pml4_phys s).
  assert (Hk : is_frame k) by exact (t_frame _ _ _ (vi_tables _ _ Hinv) _ _ (vi_root _ _ Hinv)).
  assert (Hkq : k ≠ q) by (intros E; apply (fresh_not_table s T q Hinv Hnu 4); rewrite <- E; apply (vi_root _ _ Hinv)).
  pose proof (vi_mem _ _ Hinv) as Hm. set (m1 := copy_entries _ _ _ _ _). set (m2 := set_pte _ _ _ _).
  assert (Hent : ∀ p i, is_frame p → 0 <= i < 512 → pte m2 (PHYS_TO_VIRT p) i =
    if decide (q = p) then space_entry s i else pte (vm_mem s) (PHYS_TO_VIRT p) i).
  { intros p i Hp Hi. exact (pte_new_space (vm_mem s) k q p i Hk Hq Hkq Hp Hi Hm). }
  assert (Hwf : mem_wf m2) by (apply mem_wf_store, copy_entries_wf, clear_entries_wf, Hm; lia).
  assert (Heq : ∀ p i, is_frame p → p ≠ q → 0 <= i < 512 →
    pte m2 (PHYS_TO_VIRT p) i = pte (vm_mem s) (PHYS_TO_VIRT p) i).
  { intros p i Hp Hne Hi. by rewrite Hent, decide_False by naive_solver. }
  split_and!.
  - exact (extended_grown _ _ _ _ _ _ _ _ (extended_refl s T Hinv)
      (other_frame_grown s T s1 m2 q 0 0 Hinv Hinv1 Hm1 Hr1 Hmono (answered_requests _ _ _ Hans) Hnu Hwf Heq)).
  - intros l p i Hp [Hi _]. by apply (proj2 (other_frame_inv s T s1 m2 q Hinv Hinv1 Hm1 Hnu Hwf Heq) l).
  - rewrite decide_False by done. apply (keeps_frame _ _ _ _ q Hq); [done|done|intros l p [?|[_ ->]]; auto|].
    intros a Ha. simpl vm_mem. unfold m2, m1. rewrite entry_out by (done || lia).
    etransitivity; [by apply (entries_out (λ i m, pte m (PHYS_TO_VIRT k) i))|by apply (entries_out (λ _ _, 0))].
  - intros _. split_and!; [done|by apply (fresh_not_table s)|done|].
    intros i Hi. change (ent (with_mem s1 m2) q i) with (pte m2 (PHYS_TO_VIRT q) i). by rewrite Hent, decide_True.
Qed.

(** A space entry is the kernel's or empty. *)
Lemma space_entry_link s l i : link l (space_entry s i) = true → space_entry s i = ent s (vmm_pml4_phys s) i.
Proof. unfold space_entry. by destruct (_ || _). Qed.

(** The new table joins the family. *)
Lemma space_joins s T K root s' :
  vmm_inv s T → private s T K → K 4%nat (vmm_pml4_phys s) → vmm_create_address_space s = (root, s') → root ≠ 0 →
  vmm_inv s' (with_table T 4 root) ∧ private s' (with_table T 4 root) K ∧ ¬ K 4%nat root.
Proof.
  intros Hinv HK Hk0 E Hr0. pose proof HK as [K1 K2 K3 _ _ _].
  destruct (vmm_create_address_space_cases s T root s' Hinv E) as ([[X1 X2 X3 X4 X5] _ _ Xr] & Hs & _ & Hnew).
  destruct (Hnew Hr0) as (Hrf & Hrn & Hru & Hre). pose proof (vi_tables _ _ Hinv) as Ht.
  assert (Hnk : ¬ K 4%nat root) by (intros Hk; by apply (Hrn 4%nat), K1).
  assert (Hlink : ∀ l i, idx_ok (S (S l)) i → S (S l) = 4%nat → link (S (S l)) (ent s' root i) = true →
    ent s' root i = ent s (vmm_pml4_phys s) i).
  { intros l i [Hi _] _. rewrite Hre by done. apply space_entry_link. }
  split_and!; [| |done].
  - apply (join_top s' T (vmm_pml4_phys s)); [done|exact (vi_root _ _ Hinv)|done|done|done|]. intros i Hi Hln.
    rewrite (Hlink 2%nat i Hi eq_refl Hln). symmetry. exact (Hs 4%nat _ i (vi_root _ _ Hinv) Hi).
  - apply private_join; [|done|].
    + apply (private_ext s); [|done]. intros l p i Hp Hi. by apply (Hs (S (S l))).
    + intros i Hi Hln. pose proof (Hlink 2%nat i Hi eq_refl Hln) as Ee. rewrite Ee in Hln |- *.
      split; [by apply (K3 2%nat (vmm_pml4_phys s))|by apply K2].
Qed.

(** What the new space translates. *)
Lemma space_translate s T root s' va :
  vmm_inv s T → vmm_create_address_space s = (root, s') → root ≠ 0 → va_ok va →
  translate s' root va = if (idx 4 va =? 0) || (256 <=? idx 4 va) then translate s (vmm_pml4_phys s) va else None.
Proof.
  intros Hinv E Hr0 Hv.
  destruct (vmm_create_address_space_cases s T root s' Hinv E) as (Hx & Hs & _ & Hnew).
  destruct (Hnew Hr0) as (_ & _ & _ & Hre). unfold translate. rewrite !walk_S. cbv zeta.
  rewrite Hre by apply idx_range. unfold space_entry. destruct (_ || _); [|done].
  destruct (has (ent s _ _) PTE_PRESENT) eqn:Epr; [|done]. change (leaf 4 _) with false. cbv iota.
  apply (x_walk _ _ _ _ Hx 3%nat); [|done].
  apply (t_next _ _ _ (vi_tables _ _ Hinv) 2%nat); [exact (vi_root _ _ Hinv)|by apply va_idx_ok|].
  unfold link. by rewrite Epr.
Qed.

(** ** Destroying an address space *)

Definition only_frees (f f' : F) : Prop := fr_ok f' ∧ ∀ a, 0 <= a → fr_used f' a → fr_used f a.

Lemma only_frees_loop f lo hi (body : Z → F → F) :
  lo <= hi → fr_ok f → (∀ i f, fr_ok f → only_frees f (body i f)) → only_frees f (for_each lo hi body f).
Proof.
  intros Hle Hf Hb. refine (for_each_inv (λ _ f', only_frees f f') lo hi body f Hle _ _); [by split|].
  intros i f' _ [Hok Hu]. destruct (Hb i f' Hok) as [Hok' Hu']. split; [done|]. intros a Ha Hua. by apply Hu, Hu'.
Qed.

Lemma only_frees_trans f f1 f2 : only_frees f f1 → only_frees f1 f2 → only_frees f f2.
Proof. intros [_ H1] [Hok H2]. split; [done|]. intros a Ha Hu. by apply H1, H2. Qed.

Lemma free_only_frees f a : fr_ok f → 0 <= a → only_frees f (fr_free a f).
Proof. intros Hf Ha. by destruct (fr_free_law f a Hf Ha) as (? & ? & _ & _). Qed.

Lemma get_addr_nonneg x : 0 <= PTE_GET_ADDR x.
Proof. pose proof (get_addr_frame x) as [_ ?]. lia. Qed.

Lemma free_pd_only_frees m p f : fr_ok f → only_frees f (free_pd m p f).
Proof.
  intros Hf. apply only_frees_loop; [lia|done|]. intros i f' Hf'. cbv beta zeta. destruct (negb _); [by split|].
  destruct (has _ _); [by split|]. apply free_only_frees; [done|apply get_addr_nonneg].
Qed.

Lemma free_pdpt_only_frees m p f : fr_ok f → only_frees f (free_pdpt m p f).
Proof.
  intros Hf. apply only_frees_loop; [lia|done|]. intros i f' Hf'. cbv beta zeta. destruct (negb _); [by split|].
  eapply only_frees_trans; [by apply (free_pd_only_frees m)|].
  apply free_only_frees; [|apply get_addr_nonneg]. by apply free_pd_only_frees.
Qed.

Definition free_pml4_step (m : mem) (pml4_phys i : Z) (f : F) : F :=
  let x := pte m (PHYS_TO_VIRT pml4_phys) i in
  if negb (has x PTE_PRESENT) then f else fr_free (PTE_GET_ADDR x) (free_pdpt m (PTE_GET_ADDR x) f).

Lemma free_pml4_step_frees m p i f : fr_ok f → only_frees f (free_pml4_step m p i f).
Proof.
  intros Hf. unfold free_pml4_step. cbv zeta. destruct (negb _); [by split|].
  eapply only_frees_trans; [by apply (free_pdpt_only_frees m)|].
  apply free_only_frees; [|apply get_addr_nonneg]. by apply free_pdpt_only_frees.
Qed.

(** Every table under a present entry of the lower half is given back. *)
Lemma free_pml4_frees m p f i :
  fr_ok f → 0 <= i < 256 → has (pte m (PHYS_TO_VIRT p) i) PTE_PRESENT = true →
  let a := PTE_GET_ADDR (pte m (PHYS_TO_VIRT p) i) in
  0 < a < fr_limit → fr_ok (free_pml4 m p f) ∧ ¬ fr_used (free_pml4 m p f) a.
Proof.
  intros Hf Hi Hpr a Ha. change (free_pml4 m p f) with (for_each 0 256 (free_pml4_step m p) f).
  assert (Hinv : fr_ok (for_each 0 256 (free_pml4_step m p) f)
    ∧ (i < 256 → ¬ fr_used (for_each 0 256 (free_pml4_step m p) f) a)); [|naive_solver lia].
  refine (for_each_inv (λ j f', fr_ok f' ∧ (i < j → ¬ fr_used f' a)) 0 256 _ f _ _ _); [lia|by split; [|lia]|].
  intros j f' Hj [Hok Hnu]. destruct (free_pml4_step_frees m p j f' Hok) as [Hok' Hu]. split; [done|]. intros Hij Hua.
  destruct (decide (j = i)) as [->|Hne]; [|apply Hnu, Hu; [lia|lia|done]].
  revert Hua. unfold free_pml4_step. cbv zeta. rewrite Hpr. cbn [negb]. fold a.
  apply (fr_free_law (free_pdpt m a f') a); [by apply free_pdpt_only_frees|lia|done].
Qed.

(** ** Theorems *)

(** The kernel's space translates as before, whatever is mapped in others. *)
Definition kernel_kept s s' (K : family) : Prop :=
  ∀ root va, K 4%nat root → va_ok va → translate s' root va = translate s root va.

(** What mapping [phys] at [virt] in the space [root] does to all spaces. *)
Lemma user_remaps s T K root virt phys s' T' q :
  vmm_inv s' T' → private s' T' K → T 4%nat root → 0 <= virt < USER_SPACE_END → ¬ K 1%nat q →
  slot (ent s') 4 root virt = Some (q, idx 1 virt) → remaps s T s' T' (q, idx 1 virt) (Some phys) →
  ∀ rt va, T 4%nat rt → va_ok va →
    translate s' rt va = if decide (rt = root ∧ same_page va virt) then Some (phys + va mod PAGE_SIZE) else translate s rt va.
Proof.
  intros Hinv HK Hr Hv Hq E [R1 R2 R3 R4] rt va Hrt Hva. rewrite (R4 rt va Hrt Hva).
  pose proof (user_slot_iff s' T' K root rt virt va q Hinv HK (R2 _ _ Hr) (R2 _ _ Hrt) (user_va_ok virt Hv) Hva Hq E) as Hiff.
  destruct (decide (slot _ _ _ _ = _)) as [Es|Es]; destruct (decide (rt = root ∧ _)) as [Er|Er]; [done| | |done].
  - by destruct Er; apply Hiff.
  - by destruct Es; apply Hiff.
Qed.

(** C32. Mapping a page in a user address space whose tables are private.  On
    success the page of [virt] translates to the frame of [phys] in that space,
    and every other address, and every address of every other space, the
    kernel's included, translates as before: tables shared with the kernel on the
    way have been copied and 2 MB pages split.  The call fails only for an address
    of the kernel's half or when the last frame it asked for was refused, and then
    nothing is translated differently.  Two cases are excluded: a 1 GB page on the
    way, which the code would follow as if it were a table, and a last-level table
    on the way that is shared with the kernel, which the code does not copy. *)
Theorem vmm_map_user_page_spec s T K root virt phys flags ok s' :
  vmm_inv s T → private s T K → T 4%nat root → ¬ K 4%nat root → 0 <= virt → page_flags flags →
  ¬ in_1gb_page s root virt → ¬ shared_pt s root virt →
  vmm_map_user_page s root virt phys flags = (ok, s') →
  (if ok then virt < USER_SPACE_END else USER_SPACE_END <= virt ∨ answered s s' 0) ∧
  ∃ T', vmm_inv s' T' ∧ private s' T' K ∧ (∀ l p, T l p → T' l p) ∧ kernel_kept s s' K ∧
    ∀ rt va, T 4%nat rt → va_ok va →
      translate s' rt va =
        if decide (ok = true ∧ rt = root ∧ same_page va virt)
        then Some (PTE_GET_ADDR phys + va mod PAGE_SIZE) else translate s rt va.
Proof.
  intros Hinv HK Hr Hnr Hv Hf H1 H2 E.
  pose proof (vmm_map_user_page_cases s T K root virt phys flags ok s' Hinv HK Hr Hnr Hv Hf H1 H2 E) as Hc.
  destruct ok.
  - destruct Hc as (T' & q & Es & Hend & HR & HK' & Hs & _ & _ & _ & Hq). pose proof HR as [R1 R2 _ _]. split; [done|]. exists T'.
    split_and!; [done|done|done|intros rt va; by apply (kernel_translate s T)|].
    intros rt va Hrt Hva. rewrite (user_remaps s T K root virt _ s' T' q R1 HK' Hr (conj Hv Hend) Hq Es HR rt va Hrt Hva).
    destruct (decide (rt = root ∧ _)) as [Er|Er]; [by rewrite decide_True|by rewrite decide_False by tauto].
  - destruct Hc as (T' & [X1 X2 X3 X4] & HK' & Hs & _ & _ & Hans).
    split; [destruct (Z.le_gt_cases USER_SPACE_END virt); [by left|right; by apply Hans]|]. exists T'.
    split_and!; [done|done|done|intros rt va; by apply (kernel_translate s T)|]. intros rt va Hrt Hva.
    rewrite decide_False by (by intros [? _]). by apply X3.
Qed.

(** Creating spaces and mapping pages in them; [rs] are the spaces created. *)
Inductive space_step : vmm F * list Z → vmm F * list Z → Prop :=
  | step_create s rs root s' :
      vmm_create_address_space s = (root, s') → root ≠ 0 → space_step (s, rs) (s', root :: rs)
  | step_no_space s rs s' : vmm_create_address_space s = (0, s') → space_step (s, rs) (s', rs)
  | step_map s rs root virt phys flags ok s' :
      root ∈ rs → 0 <= virt → page_flags flags → ¬ in_1gb_page s root virt → ¬ shared_pt s root virt →
      vmm_map_user_page s root virt phys flags = (ok, s') → space_step (s, rs) (s', rs).

Definition spaces_ok (K : family) (st : vmm F * list Z) : Prop :=
  ∃ T, vmm_inv st.1 T ∧ private st.1 T K ∧ K 4%nat (vmm_pml4_phys st.1)
       ∧ ∀ root, root ∈ st.2 → T 4%nat root ∧ ¬ K 4%nat root.

Lemma space_step_ok K st st' : space_step st st' → spaces_ok K st → spaces_ok K st' ∧ kernel_same st.1 st'.1 K.
Proof.
  intros Hst (T & Hinv & HK & Hk & Hrs). destruct Hst as [s rs root s' E Hr0|s rs s' E|s rs root virt phys fl ok s' Hin Hv Hf H1 H2 E];
    simpl in *.
  - destruct (space_joins s T K root s' Hinv HK Hk E Hr0) as (J1 & J2 & J3).
    destruct (vmm_create_address_space_cases s T root s' Hinv E) as ([_ _ _ Xr] & Hs & _ & _). split.
    + exists (with_table T 4 root). split_and!; [done|done|simpl; by rewrite Xr|]. simpl.
      intros rt [->|Hrt]%elem_of_cons; [split; [by right|done]|]. destruct (Hrs rt Hrt). split; [by left|done].
    + intros l p i Hp. by apply (Hs l), (k_sub _ _ _ HK).
  - destruct (vmm_create_address_space_cases s T 0 s' Hinv E) as ([X1 X2 X3 Xr] & Hs & _).
    split.
    + exists T. split_and!; [done| |simpl; by rewrite Xr|done]. eapply private_ext; [|done].
      intros l p i. by apply (Hs (S (S l))).
    + intros l p i Hp. by apply (Hs l), (k_sub _ _ _ HK).
  - destruct (Hrs root Hin) as [Hr Hnr].
    pose proof (vmm_map_user_page_cases s T K root virt phys fl ok s' Hinv HK Hr Hnr Hv Hf H1 H2 E) as Hc.
    assert (Hall : ∃ T', vmm_inv s' T' ∧ private s' T' K ∧ (∀ l p, T l p → T' l p)
      ∧ vmm_pml4_phys s' = vmm_pml4_phys s ∧ kernel_same s s' K).
    { destruct ok; [destruct Hc as (T' & q & _ & _ & [] & ? & ? & _)|destruct Hc as (T' & [] & ? & ? & _)]; by exists T'. }
    destruct Hall as (T' & V1 & V2 & V3 & V4 & V5). split.
    + exists T'. split_and!; [done|done|simpl; by rewrite V4|]. intros rt Hrt. destruct (Hrs rt Hrt). by split; [apply V3|].
    + done.
Qed.

Lemma space_steps_ok K st st' : rtc space_step st st' → spaces_ok K st → spaces_ok K st' ∧ kernel_same st.1 st'.1 K.
Proof.
  induction 1 as [st|st st1 st' H1 _ IH]; intros Hok; [by split|].
  destruct (space_step_ok K st st1 H1 Hok) as [Hok1 Hk1]. destruct (IH Hok1) as [Hok' Hk']. split; [done|].
  by eapply kernel_same_trans.
Qed.

(** C4. Isolation.  However many address spaces are created and whatever pages
    are mapped in them, no entry of a kernel page table changes, at any level, and
    the kernel's space translates every address as it did.  Each mapping is one
    for which the way to the page holds no 1 GB page and no last-level table
    shared with the kernel: there [vmm_map_user_page] would write into a table of
    the kernel. *)
Theorem user_spaces_spare_kernel s T K s' rs :
  vmm_inv s T → private s T K → K 4%nat (vmm_pml4_phys s) → rtc space_step (s, []) (s', rs) →
  (∀ l p i, K l p → idx_ok l i → ent s' p i = ent s p i)
  ∧ ∀ va, va_ok va → translate s' (vmm_pml4_phys s) va = translate s (vmm_pml4_phys s) va.
Proof.
  intros Hinv HK Hk Hst. assert (Hok : spaces_ok K (s, [])) by (exists T; split_and!; [done..|]; by intros ? ?%elem_of_nil).
  destruct (space_steps_ok K _ _ Hst Hok) as [_ Hkept]. split; [exact Hkept|].
  intros va Hva. by apply (kernel_translate s T s' K).
Qed.

(** A new address space translates the kernel's half and the first 512 GB as
    the kernel does and nothing else, and leaves the kernel's own space alone. *)
Theorem vmm_create_address_space_spec s T root s' :
  vmm_inv s T → vmm_create_address_space s = (root, s') →
  (∀ va, va_ok va → translate s' (vmm_pml4_phys s) va = translate s (vmm_pml4_phys s) va)
  ∧ (root ≠ 0 → ∀ va, va_ok va →
       translate s' root va =
         if (idx 4 va =? 0) || (256 <=? idx 4 va) then translate s (vmm_pml4_phys s) va else None).
Proof.
  intros Hinv E. split; [|intros Hr va Hv; by apply (space_translate s T)].
  destruct (vmm_create_address_space_cases s T root s' Hinv E) as ([_ _ X3 _] & _ & _).
  intros va Hv. apply X3; [exact (vi_root _ _ Hinv)|done].
Qed.

(** C37. Destroying a fresh address space frees tables of the kernel: the space
    shares the kernel's table for the lowest 512 GB, which
    [vmm_destroy_address_space] takes for the space's own.  Afterwards the kernel
    still translates through that table, while its frame is free to be handed
    out again. *)
Theorem destroyed_space_frees_kernel_table s T root s1 :
  vmm_inv s T → vmm_create_address_space s = (root, s1) → root ≠ 0 → root ≠ vmm_pml4_phys s →
  let shared := PTE_GET_ADDR (ent s (vmm_pml4_phys s) 0) in
  has (ent s (vmm_pml4_phys s) 0) PTE_PRESENT = true → 0 < shared < fr_limit →
  let s' := vmm_destroy_address_space s1 root in
  ent s' (vmm_pml4_phys s) 0 = ent s (vmm_pml4_phys s) 0 ∧ T 3%nat shared ∧ ¬ fr_used (vm_frames s') shared.
Proof.
  intros Hinv E Hr0 Hrk shared Hpr Hlim s'.
  destruct (vmm_create_address_space_cases s T root s1 Hinv E) as ([X1 X2 X3 X4] & Hs & _ & Hnew).
  destruct (Hnew Hr0) as (Hrf & Hrn & Hru & Hre).
  assert (I0 : idx_ok 4 0) by (split; [lia|done]). pose proof (vi_root _ _ Hinv) as Hk.
  assert (Ed : s' = with_frames s1 (fr_free root (free_pml4 (vm_mem s1) root (vm_frames s1)))).
  { unfold s', vmm_destroy_address_space. rewrite X4, (proj2 (Z.eqb_neq _ _) Hr0), (proj2 (Z.eqb_neq _ _) Hrk). done. }
  rewrite Ed. split_and!.
  - exact (Hs 4%nat _ 0 Hk I0).
  - apply (t_next _ _ _ (vi_tables _ _ Hinv) 2%nat); [done|done|]. unfold link. by rewrite Hpr.
  - assert (E0 : pte (vm_mem s1) (PHYS_TO_VIRT root) 0 = ent s (vmm_pml4_phys s) 0) by exact (Hre 0 ltac:(lia)).
    destruct (free_pml4_frees (vm_mem s1) root (vm_frames s1) 0 (vi_frames _ _ X1)) as [Hok Hnu]; rewrite ?E0; [lia|done|done|].
    rewrite E0 in Hnu. simpl. intros Hu. apply Hnu. destruct Hrf as [_ ?].
    apply (fr_free_law _ root Hok); [lia| |done]. fold shared. lia.
Qed.

End vmm.

(** ** Concrete spaces *)

Import BumpFrames.

Definition first_space : Z * vmm Z := vmm_create_address_space first_state.

Lemma first_space_root : first_space.1 = 0x2000.
Proof. reflexivity. Qed.

Lemma first_private : private first_state first_tables first_tables.
Proof. split; try done; intros l p i ? ?; intros; by rewrite first_entry in *. Qed.

Lemma first_space_eq : vmm_create_address_space first_state = (0x2000, first_space.2).
Proof. rewrite <- first_space_root. unfold first_space. by destruct (vmm_create_address_space _). Qed.

Lemma first_space_entry i : 0 <= i < 512 → ent first_space.2 0x2000 i = 0.
Proof.
  destruct (vmm_create_address_space_cases _ _ _ _ first_inv first_space_eq) as (_ & _ & _ & Hn).
  destruct (Hn ltac:(done)) as (_ & _ & _ & He). intros Hi. rewrite He by done. unfold space_entry.
  by destruct (_ || _).
Qed.

Lemma first_space_empty virt p : ¬ leads first_space.2 4 0x2000 (idx 4 virt) p.
Proof. intros [Hl _]. by rewrite first_space_entry in Hl by apply idx_range. Qed.

(** A page of the first space. *)
Definition first_page : bool * vmm Z := vmm_map_user_page first_space.2 0x2000 0x400000 0x5000 PTE_USER_RW.

Lemma first_page_mapped : (vmm_map_user_page first_space.2 0x2000 0x400000 0x5000 PTE_USER_RW).1 = true.
Proof. vm_compute. reflexivity. Qed.

Lemma pair_true {A} (x : bool * A) : x.1 = true → x = (true, x.2).
Proof. destruct x as [ok y]. by intros [= ->]. Qed.

Lemma first_page_eq : vmm_map_user_page first_space.2 0x2000 0x400000 0x5000 PTE_USER_RW = (true, first_page.2).
Proof. unfold first_page. exact (pair_true _ first_page_mapped). Qed.

Lemma first_page_way virt : ¬ in_1gb_page first_space.2 0x2000 virt ∧ ¬ shared_pt first_space.2 0x2000 virt.
Proof.
  split; [intros (p & L & _)|intros (p & p' & L & _)]; exact (first_space_empty _ _ L).
Qed.

Lemma vmm_map_user_page_spec_witness :
  vmm_map_user_page first_space.2 0x2000 0x400000 0x5000 PTE_USER_RW = (true, first_page.2)
  ∧ kernel_kept first_space.2 first_page.2 first_tables
  ∧ translate first_page.2 0x2000 0x400123 = Some 0x5123.
Proof.
  assert (Hr : 0x2000 ≠ 0) by done.
  destruct (space_joins _ _ _ _ _ first_inv first_private (conj eq_refl eq_refl) first_space_eq Hr) as (J1 & J2 & J3).
  assert (Ht : with_table first_tables 4 0x2000 4%nat 0x2000) by (right; done).
  assert (Hv : 0 <= 0x400000) by lia. assert (Hf : page_flags PTE_USER_RW) by done.
  destruct (first_page_way 0x400000) as [H1 H2]. assert (Hva : va_ok 0x400123) by done.
  destruct (vmm_map_user_page_spec first_space.2 _ first_tables 0x2000 0x400000 0x5000 PTE_USER_RW true first_page.2
    J1 J2 Ht J3 Hv Hf H1 H2 first_page_eq) as (_ & T' & _ & _ & _ & Hk & Htr).
  split; [exact first_page_eq|]. split; [exact Hk|]. rewrite (Htr 0x2000 0x400123 Ht Hva). reflexivity.
Defined.

(** A space is created and a page mapped in it. *)
Lemma user_spaces_spare_kernel_witness :
  rtc space_step (first_state, []) (first_page.2, [0x2000])
  ∧ (∀ i, 0 <= i < 510 → ent first_page.2 0x1000 i = ent first_state 0x1000 i)
  ∧ translate first_page.2 0x1000 0x400000 = translate first_state 0x1000 0x400000.
Proof.
  assert (Hs : rtc space_step (first_state, []) (first_page.2, [0x2000])).
  { apply (rtc_l _ _ (first_space.2, [0x2000])); [apply step_create; [exact first_space_eq|done]|].
    apply rtc_once. destruct (first_page_way 0x400000) as [H1 H2].
    apply (step_map _ _ 0x2000 0x400000 0x5000 PTE_USER_RW true); [by left|lia|done|exact H1|exact H2|exact first_page_eq]. }
  assert (Hv : va_ok 0x400000) by done.
  destruct (user_spaces_spare_kernel first_state first_tables first_tables first_page.2 [0x2000]
    first_inv first_private (conj eq_refl eq_refl) Hs) as [Hent Htr].
  split; [exact Hs|]. split; [|exact (Htr 0x400000 Hv)]. intros i Hi.
  apply (Hent 4%nat); [done|]. split; [lia|]. intros _. unfold VMM_RECURSIVE_INDEX. lia.
Defined.

Lemma vmm_create_address_space_spec_witness :
  translate first_space.2 0x1000 0x400000 = translate first_state 0x1000 0x400000.
Proof.
  assert (Hv : va_ok 0x400000) by done.
  exact (proj1 (vmm_create_address_space_spec first_state first_tables 0x2000 first_space.2 first_inv first_space_eq)
    0x400000 Hv).
Defined.

(** The kernel's first entry in use, and frames from pmm.c. *)
Definition low_mem : mem := set_pte (λ _, 0) (PHYS_TO_VIRT 0x1000) 0 (Z.lor 0x2000 PTE_KERNEL_RW).
Definition low_state : vmm pmm := Vmm low_mem two_free (PHYS_TO_VIRT 0x1000) 0x1000 0 0x1000.
Definition low_tables : family := λ l p, l = 4%nat ∧ p = 0x1000 ∨ l = 3%nat ∧ p = 0x2000.

Lemma low_frame : is_frame 0x1000 ∧ is_frame 0x2000. Proof. by unfold is_frame. Qed.

Lemma low_entry p i : is_frame p → 0 <= i < 512 →
  ent low_state p i = if decide (0x1000 = p ∧ 0 = i) then Z.lor 0x2000 PTE_KERNEL_RW else 0.
Proof. intros Hp Hi. exact (pte_set_pte (λ _, 0) 0x1000 p 0 i (Z.lor 0x2000 PTE_KERNEL_RW) (proj1 low_frame) Hp ltac:(lia) Hi ltac:(done)). Qed.

Lemma low_used q : q = 1 ∨ q = 2 → ¬ page_free two_free q.
Proof.
  intros Hq Hf. pose proof MM_MAX_PAGES_val. apply two_free_pages in Hf; lia.
Qed.

Lemma low_inv : vmm_inv low_state low_tables.
Proof.
  destruct low_frame as [F1 F2]. split; [apply two_free_ok|apply mem_wf_store; intros a; lia| |by left|done].
  assert (Hfr : ∀ l p, low_tables l p → is_frame p) by (by intros l p [[-> ->]|[-> ->]]). split.
  - intros l p [[-> ->]|[-> ->]]; lia.
  - exact Hfr.
  - intros l p [[-> ->]|[-> ->]]; (split; [lia|apply low_used]); [by left|by right].
  - intros l l' p [[-> ->]|[-> ->]] [[-> ?]|[-> ?]]; done.
  - intros l p i Hp [Hi _]. rewrite low_entry by (done || by eapply Hfr). case_decide as E; [|done].
    destruct E as [<- <-]. destruct Hp as [[[= ->] _]|[_ ?]]; [|done]. intros _. by right.
  - intros p i [[? _]|[? _]]; done.
Qed.

Definition low_space : Z * vmm pmm := vmm_create_address_space low_state.

Lemma low_space_root : low_space.1 = 1280 * PAGE_SIZE.
Proof. vm_compute. reflexivity. Qed.

Lemma low_space_eq : vmm_create_address_space low_state = (1280 * PAGE_SIZE, low_space.2).
Proof. rewrite <- low_space_root. apply surjective_pairing. Qed.

Lemma low_entry_0 : ent low_state (vmm_pml4_phys low_state) 0 = Z.lor 0x2000 PTE_KERNEL_RW.
Proof. exact (low_entry 0x1000 0 (proj1 low_frame) ltac:(lia)). Qed.

Lemma destroyed_space_frees_kernel_table_witness :
  ¬ fr_used (vm_frames (vmm_destroy_address_space low_space.2 (1280 * PAGE_SIZE))) 0x2000.
Proof.
  assert (Hr : 1280 * PAGE_SIZE ≠ 0) by done.
  assert (Hr' : 1280 * PAGE_SIZE ≠ vmm_pml4_phys low_state) by done.
  assert (Hp : has (ent low_state (vmm_pml4_phys low_state) 0) PTE_PRESENT = true) by (rewrite low_entry_0; reflexivity).
  assert (Hl : 0 < PTE_GET_ADDR (ent low_state (vmm_pml4_phys low_state) 0) < fr_limit (F := pmm))
    by (rewrite low_entry_0; split; vm_compute; reflexivity).
  pose proof (destroyed_space_frees_kernel_table low_state low_tables (1280 * PAGE_SIZE) low_space.2
    low_inv low_space_eq Hr Hr' Hp Hl) as (_ & _ & Hn).
  rewrite low_entry_0 in Hn. exact Hn.
Defined.
