(* ===== verification/MmInit.v ===== *)
(** * Memory start-up: [mm_init] of kernel/kernel.c

    The three memory managers together: pmm.c gives page frames to vmm.c, and
    both implement the page source of heap.c.  [vmm_init] builds the kernel's own
    top-level table from that of the boot loader; [heap_init] then maps the first
    4 MB of the heap.  The messages are not modelled. *)

From Stdlib Require Import ZArith Lia.
From stdpp Require Import base numbers list.
From S2P Require Import Prelude.
From S2P Require Import Mem.
From S2P Require Import Bitmap.
From S2P Require Import Pmm.
From S2P Require Import Heap.
From S2P Require Import Vmm.
From S2P Require Import VmmSpec.

(** The page source of the heap: the physical allocator and the kernel's page
    mapper. *)
#[export] Instance vmm_pages {F : Type} `{FrameSource F} : PageSource (vmm F) := {
  src_alloc_page := alloc_page;
  src_free_page addr v := with_frames v (fr_free addr (vm_frames v));
  src_map_page virt phys flags v := vmm_map_page v virt phys flags
}.

(** The static variables of the three managers are the heap's state, with the
    others inside; [None] is a kernel panic. *)
Definition mm_init (boot_info : option (list memory_map_entry_t)) (h : heap (vmm pmm)) : option (heap (vmm pmm)) :=
  let v := h_world h in
  p ← pmm_init boot_info (vm_frames v);
  v ← vmm_init (with_frames v p);
  heap_init (with_world h v).

(** ** Frames to spare *)

(** At least [n] requests for a frame will be met, none of them with the frame
    at 2 GB, whose window is the NULL pointer. *)
Class FrameRoom (F : Type) `{FrameLaws F} := {
  fr_room : F → Z → Prop;
  fr_room_alloc f n a f' : fr_ok f → 0 <= n → fr_room f (n + 1) → fr_alloc f = (a, f') →
    a ≠ 0 ∧ a ≠ NULL_FRAME ∧ fr_room f' n
}.

(** pmm.c meets as many requests as it counts free pages. *)
#[export] Program Instance pmm_frame_room : FrameRoom pmm := {
  fr_room s n := n <= pmm_free_count s ∧ ¬ page_free s 0 ∧ ¬ page_free s (NULL_FRAME / PAGE_SIZE)
}.
Next Obligation.
  intros f n a f' Hok Hn (Hc & H0 & Hnull) E.
  destruct (alloc_page_outcome f a f' Hok E) as [Hok' [(q & -> & Hq & Hfr & _ & Hsame & Hc')|(_ & _ & Hall)]].
  - assert (Hq0 : q ≠ 0) by (intros ->; done).
    assert (Hqn : q ≠ NULL_FRAME / PAGE_SIZE) by (intros ->; done).
    unfold page_free in *. rewrite !Hsame by (done || lia). change (NULL_FRAME / PAGE_SIZE) with 524288 in *.
    change NULL_FRAME with (524288 * 4096). unfold PAGE_SIZE. split_and!; [lia|lia|lia|done|done].
  - exfalso. rewrite (inv_count _ Hok) in Hc. unfold count_free in Hc.
    rewrite countZ_all_false in Hc; [lia|]. intros i Hi. destruct (negb _) eqn:Ei; [|done].
    apply negb_free in Ei. by destruct (Hall i Hi).
Qed.

Section start.
Context {F : Type} `{FrameRoom F}.
Implicit Types s v : vmm F.

Lemma alloc_table_room s n :
  fr_ok (vm_frames s) → 0 <= n → fr_room (vm_frames s) (n + 1) →
  ∃ t s1, vmm_alloc_table s = (Some t, s1) ∧ fr_room (vm_frames s1) n.
Proof.
  intros Hok Hn Hr. unfold vmm_alloc_table, alloc_page. destruct (fr_alloc (vm_frames s)) as [q f] eqn:E.
  destruct (fr_room_alloc _ n q f Hok Hn Hr E) as (Hq0 & Hnull & Hr').
  destruct (fr_alloc_law _ _ _ Hok E) as (_ & _ & Hq). destruct (Hq Hq0) as (Hfr & _).
  rewrite (proj2 (Z.eqb_neq q 0) Hq0). destruct (Z.eqb_spec (PHYS_TO_VIRT q) 0) as [Ez|_].
  - by destruct (Hnull (window_null q Hfr Ez)).
  - eexists _, _. by split.
Qed.

(** ** The kernel's top-level table *)

(** The boot loader's tables, as the state of a manager that uses them. *)
Definition boot_view s : vmm F :=
  Vmm (vm_mem s) (vm_frames s) (PHYS_TO_VIRT (read_cr3_addr s)) (read_cr3_addr s) (vmm_pages_mapped s) (cr3 s).

(** Entries of the kernel's table: those of the boot loader's for the kernel
    half and the first 512 GB, and the table itself. *)
Definition kernel_entry s (k i : Z) : Z :=
  if i =? VMM_RECURSIVE_INDEX then Z.lor k PTE_KERNEL_RW
  else if (i =? 0) || (256 <=? i) then ent s (read_cr3_addr s) i else 0.

Lemma pte_kernel_table s k m q j :
  is_frame k → is_frame (read_cr3_addr s) → read_cr3_addr s ≠ k → is_frame q → 0 <= j < 512 → mem_wf (vm_mem s) →
  m = fill (vm_mem s) (PHYS_TO_VIRT k) 0 PAGE_SIZE →
  let b := PHYS_TO_VIRT (read_cr3_addr s) in let t := PHYS_TO_VIRT k in
  let m1 := copy_entries 256 512 b t m in
  let m2 := set_pte m1 t 0 (pte m1 b 0) in
  pte (set_pte m2 t VMM_RECURSIVE_INDEX (Z.lor k PTE_KERNEL_RW)) (PHYS_TO_VIRT q) j
  = if decide (k = q) then kernel_entry s k j else ent s q j.
Proof.
  intros Hk Hb Hne Hq Hj Hm Em b t m1 m2. assert (Hm0 : mem_wf m) by (rewrite Em; by apply mem_wf_fill).
  assert (Hm1 : mem_wf m1) by (apply copy_entries_wf; [lia|done]).
  assert (Hf : ∀ p i, is_frame p → 0 <= i < 512 → pte m (PHYS_TO_VIRT p) i = if decide (k = p) then 0 else ent s p i).
  { intros p i Hp Hi. rewrite Em, pte_fill by done. unfold ent, get. by repeat case_decide. }
  assert (Hc : ∀ p i, is_frame p → 0 <= i < 512 → pte m1 (PHYS_TO_VIRT p) i
    = if decide (k = p ∧ 256 <= i < 512) then ent s (read_cr3_addr s) i else pte m (PHYS_TO_VIRT p) i).
  { intros p i Hp Hi. unfold m1, b, t. rewrite pte_copy_entries by (done || lia).
    rewrite Hf by done. by rewrite (decide_False (P := k = read_cr3_addr s)) by congruence. }
  rewrite (pte_set_pte _ k q VMM_RECURSIVE_INDEX j);
    [|done|done|done|done|apply lor_u64; [by apply frame_u64|done]].
  unfold m2, t. rewrite (pte_set_pte _ k q 0 j); [|done|done|done|done|by apply pte_u64].
  unfold b. rewrite !Hc, !Hf by done. unfold kernel_entry, VMM_RECURSIVE_INDEX.
  destruct (decide (k = q)) as [->|Hkq].
  2: { rewrite !decide_False by (intros [? ?]; congruence). done. }
  destruct (Z.eqb_spec j 510) as [->|?]; [by rewrite decide_True by done|]. rewrite decide_False by lia.
  destruct (Z.eqb_spec j 0) as [->|?].
  { rewrite decide_True by done. by rewrite decide_False, decide_False by (lia || congruence). }
  rewrite decide_False by lia. destruct (Z.leb_spec 256 j); [rewrite decide_True by lia|rewrite decide_False by lia]; done.
Qed.

(** The kernel's table [k] after [vmm_init], built over the boot loader's. *)
Record kernel_table s (T : family) s' (k : Z) : Prop := {
  kt_inv : vmm_inv s' (with_table T 4 k);
  kt_new l : ¬ T l k;
  kt_root : vmm_pml4_phys s' = k;
  kt_cr3 : cr3 s' = k;
  kt_alloc : fr_alloc (vm_frames s) = (k, vm_frames s');
  kt_kept l p i : T l p → 0 <= i < 512 → ent s' p i = ent s p i;
  kt_entry i : 0 <= i < 512 → ent s' k i = kernel_entry s k i
}.

Lemma vmm_init_table s T s' :
  vmm_inv (boot_view s) T → vmm_init s = Some s' → kernel_table s T s' (vmm_pml4_phys s').
Proof.
  intros Hinv. pose proof (vi_root _ _ Hinv : T 4%nat (read_cr3_addr s)) as Hb. pose proof (vi_tables _ _ Hinv) as Ht.
  pose proof (vi_mem _ _ Hinv) as Hm. unfold vmm_init, vmm_alloc_table, alloc_page.
  destruct (fr_alloc (vm_frames s)) as [k f] eqn:Ea. destruct (fr_alloc_law _ _ _ (vi_frames _ _ Hinv) Ea) as (Hf & Hmono & Hfr).
  destruct (Z.eqb_spec k 0) as [_|Hk0]; [done|]. destruct (Hfr Hk0) as (Hk & Hnu & Hu).
  cbn [vm_mem with_mem]. destruct (Z.eqb_spec (PHYS_TO_VIRT k) 0) as [_|_]; [done|].
  unfold vmm_table_phys. rewrite window_phys by done. intros [= <-]. cbn [vmm_pml4_phys].
  assert (Hbf : is_frame (read_cr3_addr s)) by exact (t_frame _ _ _ Ht _ _ Hb).
  assert (Hnew : ∀ l, ¬ T l k) by (intros l Hl; exact (Hnu (t_used _ _ _ Ht _ _ Hl))).
  assert (Hbk : read_cr3_addr s ≠ k) by (intros E; apply (Hnew 4%nat); by rewrite <- E).
  set (m0 := fill _ _ _ _). set (m1 := copy_entries _ _ _ _ _). set (m2 := set_pte m1 _ _ _). set (m3 := set_pte m2 _ _ _).
  assert (Hent : ∀ q j, is_frame q → 0 <= j < 512 → pte m3 (PHYS_TO_VIRT q) j =
    if decide (k = q) then kernel_entry s k j else ent s q j).
  { intros q j Hq Hj. exact (pte_kernel_table s k m0 q j Hk Hbf Hbk Hq Hj Hm eq_refl). }
  assert (Hwf : mem_wf m3).
  { apply mem_wf_store, mem_wf_store, copy_entries_wf; [lia|]. by apply mem_wf_fill. }
  pose (b1 := with_frames (boot_view s) f).
  assert (Hb1 : vmm_inv b1 T).
  { split; try done. destruct Ht. split; try done. intros l p Hl. by apply Hmono, (t_used l). }
  destruct (other_frame_inv (boot_view s) T b1 m3 k Hinv Hb1 eq_refl Hnu Hwf) as [Hi3 Hsame].
  { intros p i Hp Hne Hi. by rewrite Hent, decide_False by naive_solver. }
  assert (Hke : ∀ i, 0 <= i < 512 → pte m3 (PHYS_TO_VIRT k) i = kernel_entry s k i).
  { intros i Hi. by rewrite Hent, decide_True. }
  pose proof (join_top _ T (read_cr3_addr s) k Hi3 Hb Hk Hnew Hu) as Hj.
  destruct Hj as [J1 J2 J3 _ _].
  { intros i Hi Hln. change (ent (with_mem b1 m3) k i) with (pte m3 (PHYS_TO_VIRT k) i) in Hln |- *.
    destruct Hi as [Hi Hne]. rewrite (Hsame 4%nat _ i Hb Hi). rewrite Hke in Hln |- * by done.
    unfold kernel_entry in *. rewrite (proj2 (Z.eqb_neq i _) (Hne eq_refl)) in *. by destruct (_ || _). }
  split; try done. split; [done|done|exact J3|by right|done].
Qed.

(** The kernel's table translates as the boot loader's, the user half above
    512 GB excepted, which is empty. *)
Lemma vmm_init_translate s T s' k va :
  vmm_inv (boot_view s) T → kernel_table s T s' k → va_ok va →
  translate s' k va = if (idx 4 va =? 0) || (256 <=? idx 4 va) then translate s (read_cr3_addr s) va else None.
Proof.
  intros Hinv Hk Hva. unfold translate. rewrite !walk_S. cbv zeta. rewrite (kt_entry _ _ _ _ Hk) by apply idx_range.
  unfold kernel_entry. rewrite (proj2 (Z.eqb_neq _ VMM_RECURSIVE_INDEX) Hva).
  destruct (_ || _); [|done]. change (leaf 4 _) with false. cbv iota.
  destruct (has (ent s _ _) PTE_PRESENT) eqn:Epr; [|done].
  apply (walk_ext _ _ _ T _ _ _ (vi_tables _ _ Hinv)); [|done|].
  - apply (t_next _ _ _ (vi_tables _ _ Hinv) 2%nat); [exact (vi_root _ _ Hinv)|by apply va_idx_ok|].
    unfold link. by rewrite andb_true_r.
  - intros l p i _ Hp [Hi _]. exact (kt_kept _ _ _ _ Hk l p i Hp Hi).
Qed.

(** [vmm_init] panics only without a frame. *)
Lemma vmm_init_room s n :
  fr_ok (vm_frames s) → 0 <= n → fr_room (vm_frames s) (n + 1) → ∃ s', vmm_init s = Some s' ∧ fr_room (vm_frames s') n.
Proof.
  intros Hok Hn Hr. destruct (alloc_table_room s n Hok Hn Hr) as (t & s1 & E & Hr'). unfold vmm_init. rewrite E.
  eexists. by split.
Qed.

(** ** Mapping below a page directory *)

Lemma get_or_create_found s l p i t :
  leads s l p i t → get_or_create s (PHYS_TO_VIRT p) i = (Some (PHYS_TO_VIRT t), s).
Proof.
  intros [Hl <-]. unfold get_or_create. change (get s (PHYS_TO_VIRT p) i) with (ent s p i).
  apply andb_true_iff in Hl as [-> _]. done.
Qed.

Lemma leads_unique s l p i q q' : leads s l p i q → leads s l p i q' → q = q'.
Proof. intros [_ <-] [_ <-]. done. Qed.

(** The last-level table for entry [i] of the directory [p]: found, made from a
    2 MB page, or new. *)
Lemma last_table_room s T p i n :
  vmm_inv s T → T 2%nat p → idx_ok 2 i → 0 <= n → fr_room (vm_frames s) (n + 1) ∨ link 2 (ent s p i) = true →
  ∃ s2 s3 T' q,
    (if has (get s (PHYS_TO_VIRT p) i) PTE_PRESENT && has (get s (PHYS_TO_VIRT p) i) PTE_HUGE
     then vmm_split_huge_page s (PHYS_TO_VIRT p) i else (true, s)) = (true, s2)
    ∧ get_or_create s2 (PHYS_TO_VIRT p) i = (Some (PHYS_TO_VIRT q), s3)
    ∧ grown s T s3 T' p i ∧ T' 1%nat q ∧ leads s3 2 p i q
    ∧ (if link 2 (ent s p i) then s3 = s else ¬ T 1%nat q ∧ fr_room (vm_frames s3) n).
Proof.
  intros Hinv Hp Hi Hn Hr. change (get s (PHYS_TO_VIRT p) i) with (ent s p i). pose proof (vi_frames _ _ Hinv) as Hok.
  assert (Hlk : link 2 (ent s p i) = has (ent s p i) PTE_PRESENT && negb (has (ent s p i) PTE_HUGE)) by done.
  destruct (has (ent s p i) PTE_PRESENT) eqn:Epr; [destruct (has (ent s p i) PTE_HUGE) eqn:Eh|]; cbn [andb negb] in Hlk |- *; rewrite Hlk.
  - destruct Hr as [Hr|Hr]; [|congruence]. destruct (alloc_table_room s n Hok Hn Hr) as (t & s1 & Ea & Hr').
    destruct (vmm_split_huge_page s (PHYS_TO_VIRT p) i) as [ok s2] eqn:Es.
    destruct (vmm_split_huge_page_ok s T p i ok s2 Hinv Hp Hi Epr Eh Es) as (T' & Hg & Hq).
    assert (E : ok = true ∧ vm_frames s2 = vm_frames s1).
    { revert Es. unfold vmm_split_huge_page. rewrite Ea. by intros [= <- <-]. }
    destruct E as [-> Ef]. destruct Hq as (q & Hq & L & Hnt). exists s2, s2, T', q. rewrite Ef.
    by rewrite (get_or_create_found s2 2 p i q L).
  - assert (L : leads s 2 p i (PTE_GET_ADDR (ent s p i))) by done.
    exists s, s, T, (PTE_GET_ADDR (ent s p i)). rewrite (get_or_create_found s 2 p i _ L).
    split_and!; try done; [by apply grown_refl|]. by apply (t_next _ _ _ (vi_tables _ _ Hinv)).
  - destruct Hr as [Hr|Hr]; [|congruence]. destruct (alloc_table_room s n Hok Hn Hr) as (t & s1 & Ea & Hr').
    destruct (get_or_create s (PHYS_TO_VIRT p) i) as [r s3] eqn:Es.
    destruct (vmm_get_or_create_ok s T 0 p i r s3 Hinv Hp Hi ltac:(by rewrite Epr) Es) as (T' & Hg & Hq).
    assert (E : r = Some t ∧ vm_frames s3 = vm_frames s1).
    { revert Es. unfold get_or_create. change (get s (PHYS_TO_VIRT p) i) with (ent s p i). rewrite Epr, Ea.
      by intros [= <- <-]. }
    destruct E as [-> Ef]. destruct Hq as (q & -> & Hq & L & Hold). exists s, s3, T', q. rewrite Ef, Es.
    split_and!; try done. intros Ht. destruct (Hold Ht) as [Hl _]. congruence.
Qed.

(** The directory [p2] of [va] in the kernel's space. *)
Definition directory s (va p3 p2 : Z) : Prop :=
  leads s 4 (vmm_pml4_phys s) (idx 4 va) p3 ∧ leads s 3 p3 (idx 3 va) p2.

Lemma directory_table s T va p3 p2 : vmm_inv s T → va_ok va → directory s va p3 p2 → T 3%nat p3 ∧ T 2%nat p2.
Proof.
  intros Hinv Hv [[L4 <-] [L3 <-]]. pose proof (t_next _ _ _ (vi_tables _ _ Hinv)) as Hn.
  assert (H3 : T 3%nat (PTE_GET_ADDR (ent s (vmm_pml4_phys s) (idx 4 va)))).
  { apply (Hn 2%nat); [exact (vi_root _ _ Hinv)|by apply va_idx_ok|done]. }
  split; [done|]. apply (Hn 1%nat); [done|by apply va_idx_ok|done].
Qed.

(** Mapping a page below a directory: it succeeds, and of the upper tables at
    most the directory's entry for the page changes, and that only when it led to
    no table. *)
Lemma map_in_directory s T p3 p2 virt phys n :
  vmm_inv s T → va_ok virt → virt mod PAGE_SIZE = 0 → is_frame phys → directory s virt p3 p2 → 0 <= n →
  fr_room (vm_frames s) (n + 1) ∨ link 2 (ent s p2 (idx 2 virt)) = true →
  ∃ s' T' q, vmm_map_page s virt phys PTE_KERNEL_RW = (true, s')
    ∧ remaps s T s' T' (q, idx 1 virt) (Some phys) ∧ T' 1%nat q ∧ leads s' 2 p2 (idx 2 virt) q
    ∧ (∀ l p i, T (S (S l)) p → idx_ok (S (S l)) i →
         p ≠ p2 ∨ i ≠ idx 2 virt ∨ link 2 (ent s p2 (idx 2 virt)) = true → ent s' p i = ent s p i)
    ∧ if link 2 (ent s p2 (idx 2 virt)) then vm_frames s' = vm_frames s ∧ leads s 2 p2 (idx 2 virt) q
      else ¬ T 1%nat q ∧ fr_room (vm_frames s') n.
Proof.
  intros Hinv Hv Hal Hph Hd Hn Hr. destruct (directory_table s T virt p3 p2 Hinv Hv Hd) as [H3 H2]. destruct Hd as [L4 L3].
  assert (Hi2 : idx_ok 2 (idx 2 virt)) by (by apply va_idx_ok).
  destruct (last_table_room s T p2 _ n Hinv H2 Hi2 Hn Hr) as (s2 & s3 & T' & q & E2 & E3 & Hg & Hq & L2 & Hcase).
  unfold vmm_map_page. rewrite !IS_ALIGNED_page. rewrite Hal, (proj1 Hph). cbn [Z.eqb negb orb].
  rewrite PML4_INDEX_val, PDPT_INDEX_val, PD_INDEX_val, PT_INDEX_val, (vi_ptr _ _ Hinv), (get_or_create_found s 4 _ _ p3 L4).
  change (get s (PHYS_TO_VIRT p3) (idx 3 virt)) with (ent s p3 (idx 3 virt)).
  pose proof (leads_not_leaf s 3 p3 _ p2 L3) as Hnl. change (leaf 3 ?x) with (has x PTE_HUGE) in Hnl. rewrite Hnl.
  rewrite (get_or_create_found s 3 _ _ p2 L3), E2. cbn [negb]. rewrite E3.
  destruct (map_entry_fields s3 (PHYS_TO_VIRT q) (idx 1 virt) (Z.lor phys PTE_KERNEL_RW)) as (M1 & M2 & M3 & M4).
  set (v := Z.lor phys PTE_KERNEL_RW) in *. set (s' := map_entry _ _ _ _) in *.
  assert (Hu : is_u64 v) by (apply lor_u64; [by apply frame_u64|done]).
  pose proof (extended_grown _ _ _ _ _ _ _ _ (extended_refl s T Hinv) Hg) as Hx.
  destruct (remaps_put s T s3 T' s' q (idx 1 virt) v Hx Hq (va_idx_ok 1 virt Hv) Hu M1 M2 M3 M4) as [HR _].
  unfold v in HR. rewrite has_lor, get_addr_lor in HR by done. change (has PTE_KERNEL_RW PTE_PRESENT) with true in HR.
  assert (Ee : ent s' = ent (put s3 (PHYS_TO_VIRT q) (idx 1 virt) v)) by (unfold ent, get; by rewrite M1).
  destruct (write_leaf s3 T' q (idx 1 virt) v (g_inv _ _ _ _ _ _ Hg) Hq (va_idx_ok 1 virt Hv) Hu) as (_ & Hk & _ & _).
  assert (Hup : ∀ l p i, T' (S (S l)) p → idx_ok (S (S l)) i → ent s' p i = ent s3 p i).
  { intros l p i Hp Hi. rewrite Ee. apply (Hk (S (S l))); [done|done|]. left. intros ->.
    by pose proof (t_one _ _ _ (vi_tables _ _ (g_inv _ _ _ _ _ _ Hg)) _ _ _ Hp Hq). }
  exists s', T', q. split_and!; [done|done|done| | |].
  - unfold leads. rewrite (Hup 0%nat) by (done || by apply (g_sub _ _ _ _ _ _ Hg)). exact L2.
  - intros l p i Hp Hi Hne. rewrite (Hup l) by (done || by apply (g_sub _ _ _ _ _ _ Hg)).
    destruct (link 2 _); [by subst s3|]. apply (g_kept _ _ _ _ _ _ Hg (S (S l))); [done|done|]. naive_solver.
  - destruct (link 2 _); [|by rewrite M2]. subst s3. by rewrite M2.
Qed.

(** A walk that ends in a last-level table still ends there when no entry on
    the way changes. *)
Lemma slot_kept e e' used (T : family) l p va c :
  tables e used T → T l p → va_ok va →
  (∀ l p i, T (S (S l)) p → idx_ok (S (S l)) i → link (S (S l)) (e p i) = true → e' p i = e p i) →
  slot e l p va = Some c → slot e' l p va = Some c.
Proof.
  intros Ht Hp Hv Hkept. revert p Hp. induction l as [|l IH]; intros p Hp; [done|]. destruct l as [|l]; [done|].
  rewrite !slot_SS. destruct (link _ (e p _)) eqn:El; [|done].
  assert (Hi : idx_ok (S (S l)) (idx (S (S l)) va)) by (by apply va_idx_ok).
  rewrite (Hkept l p _ Hp Hi El), El. apply IH. by apply (t_next _ _ _ Ht).
Qed.

(** ** The first pages of the heap *)

Definition heap_page (j : Z) : Z := HEAP_START + j * PAGE_SIZE.

Lemma heap_idx j off :
  0 <= j < 1024 → 0 <= off < PAGE_SIZE →
  let a := heap_page j + off in
  idx 4 a = 511 ∧ idx 3 a = 510 ∧ idx 2 a = 8 + j / 512 ∧ idx 1 a = j mod 512 ∧ a mod PAGE_SIZE = off ∧ va_ok a.
Proof.
  intros Hj Ho a. unfold va_ok, idx, shift. change VMM_RECURSIVE_INDEX with 510.
  change (2 ^ (12 + 9 * (Z.of_nat 4 - 1))) with 0x8000000000. change (2 ^ (12 + 9 * (Z.of_nat 3 - 1))) with 0x40000000.
  change (2 ^ (12 + 9 * (Z.of_nat 2 - 1))) with 0x200000. change (2 ^ (12 + 9 * (Z.of_nat 1 - 1))) with 0x1000.
  unfold a, heap_page, HEAP_START, PAGE_SIZE in *. split_and!; Z.to_euclidean_division_equations; lia.
Qed.

Lemma heap_slot s p3 p2 q j off :
  directory s HEAP_START p3 p2 → leads s 2 p2 (8 + j / 512) q → 0 <= j < 1024 → 0 <= off < PAGE_SIZE →
  slot (ent s) 4 (vmm_pml4_phys s) (heap_page j + off) = Some (q, j mod 512).
Proof.
  intros [L4 L3] L2 Hj Ho. destruct (heap_idx j off Hj Ho) as (I4 & I3 & I2 & I1 & _).
  destruct (heap_idx 0 0 ltac:(lia) ltac:(done)) as (J4 & J3 & _). change (heap_page 0 + 0) with HEAP_START in J4, J3.
  rewrite (slot_leads s 2 _ _ p3), (slot_leads s 1 _ _ p2), (slot_leads s 0 _ _ q) by (by rewrite ?I4, ?I3, ?I2, <- ?J4, <- ?J3).
  simpl. by rewrite I1.
Qed.

(** The first [i] pages of the heap are mapped to frames [g] through the tables
    [tab]; [v0] is the state before, with the directory [p2] of the heap. *)
Record heap_mapped v0 (T0 : family) (p3 p2 i : Z) v (T : family) (tab g : Z → Z) : Prop := {
  hm_inv : vmm_inv v T;
  hm_sub l p : T0 l p → T l p;
  hm_root : vmm_pml4_phys v = vmm_pml4_phys v0;
  hm_dir : directory v HEAP_START p3 p2;
  hm_tab r : 0 <= r < 2 → r * 512 < i → T 1%nat (tab r) ∧ leads v 2 p2 (8 + r) (tab r);
  hm_none r : 0 <= r < 2 → i <= r * 512 → link 2 (ent v p2 (8 + r)) = false;
  hm_two : 512 < i → tab 0 ≠ tab 1;
  hm_room : fr_room (vm_frames v) (1024 - i + (2 - (i + 511) / 512));
  hm_page j off : 0 <= j < i → 0 <= off < PAGE_SIZE →
    translate v (vmm_pml4_phys v) (heap_page j + off) = Some (g j + off);
  hm_frame j : 0 <= j < i → is_frame (g j) ∧ ¬ fr_used (vm_frames v0) (g j) ∧ fr_used (vm_frames v) (g j) ∧ ∀ l, ¬ T l (g j);
  hm_inj j k : 0 <= j < i → 0 <= k < i → g j = g k → j = k;
  hm_used p : fr_used (vm_frames v0) p → fr_used (vm_frames v) p;
  hm_rest rt a : T0 4%nat rt → va_ok a →
    (∀ j, 0 <= j < i → slot (ent v) 4 rt a ≠ Some (tab (j / 512), j mod 512)) → translate v rt a = translate v0 rt a
}.

(** One more page: [q] is the table found or made for it, [page] its frame. *)
Section heap_step.
Context v0 (T0 : family) (p3 p2 i : Z) v (T : family) (tab g : Z → Z).
Context (Hm : heap_mapped v0 T0 p3 p2 i v T tab g) (Hi : 0 <= i < 1024).
Context (page : Z) v1 (Ea : alloc_page v = (page, v1)) (Hpage : page ≠ 0).
Context v2 (T2 : family) (q : Z).
Context (HR : remaps v1 T v2 T2 (q, i mod 512) (Some page)) (Hq : T2 1%nat q) (L2 : leads v2 2 p2 (8 + i / 512) q).
Context (Hkept : ∀ l p k, T (S (S l)) p → idx_ok (S (S l)) k →
  p ≠ p2 ∨ k ≠ 8 + i / 512 ∨ i / 512 * 512 < i → ent v2 p k = ent v p k).
Context (Hold : i / 512 * 512 < i → q = tab (i / 512)) (Hnew : i <= i / 512 * 512 → ¬ T 1%nat q).

Let tab' (r : Z) : Z := if r =? i / 512 then q else tab r.
Let g' (j : Z) : Z := if j =? i then page else g j.

Lemma step_ent : ent v1 = ent v.
Proof using Type*. destruct (alloc_page_cases v T page v1 (hm_inv _ _ _ _ _ _ _ _ _ Hm) Ea) as (_ & E & _). unfold ent, get. by rewrite E. Qed.

Lemma step_root : vmm_pml4_phys v2 = vmm_pml4_phys v.
Proof using Type*.
  destruct (alloc_page_cases v T page v1 (hm_inv _ _ _ _ _ _ _ _ _ Hm) Ea) as (_ & _ & _ & E & _).
  by rewrite (r_root _ _ _ _ _ _ HR).
Qed.

Lemma step_tables : va_ok HEAP_START ∧ T 4%nat (vmm_pml4_phys v) ∧ T 3%nat p3 ∧ T 2%nat p2 ∧ vmm_pml4_phys v ≠ p2 ∧ p3 ≠ p2.
Proof using Type*.
  pose proof (hm_inv _ _ _ _ _ _ _ _ _ Hm) as Hv. assert (Hs : va_ok HEAP_START) by done.
  destruct (directory_table v T _ _ _ Hv Hs (hm_dir _ _ _ _ _ _ _ _ _ Hm)) as [H3 H2]. pose proof (vi_root _ _ Hv) as H4.
  split_and!; try done; [by apply (levels_apart v T 4 2)|by apply (levels_apart v T 3 2)].
Qed.

Lemma step_dir : directory v2 HEAP_START p3 p2.
Proof using Type*.
  destruct step_tables as (Hs & H4 & H3 & H2 & N4 & N3). destruct (hm_dir _ _ _ _ _ _ _ _ _ Hm) as [L4 L3].
  unfold directory, leads in *. rewrite step_root, (Hkept 2%nat), (Hkept 1%nat) by (by apply va_idx_ok || (try left; done)).
  done.
Qed.

Lemma step_tab_old r : r * 512 < i → 0 <= r → tab' r = tab r.
Proof using Type*. intros Hr H0r. unfold tab'. destruct (Z.eqb_spec r (i / 512)) as [->|]; [by apply Hold|done]. Qed.

Lemma step_tab r : 0 <= r < 2 → r * 512 < i + 1 → T2 1%nat (tab' r) ∧ leads v2 2 p2 (8 + r) (tab' r).
Proof using Type*.
  intros Hr Hri. unfold tab'. destruct (Z.eqb_spec r (i / 512)) as [->|Hne]; [done|].
  destruct (hm_tab _ _ _ _ _ _ _ _ _ Hm r Hr) as [Ht L]; [Z.to_euclidean_division_equations; lia|].
  split; [by apply (r_sub _ _ _ _ _ _ HR)|]. destruct step_tables as (_ & _ & _ & H2 & _).
  unfold leads. rewrite (Hkept 0%nat) by (done || (split; [lia|done]) || (right; left; lia)). exact L.
Qed.

Lemma step_two : 512 < i + 1 → tab' 0 ≠ tab' 1.
Proof using Type*.
  intros H5. assert (E1 : i / 512 = 1) by (Z.to_euclidean_division_equations; lia). unfold tab'. rewrite E1. simpl.
  destruct (Z.eq_dec i 512) as [->|Hne].
  - intros E. apply Hnew; [done|]. rewrite <- E. by apply (hm_tab _ _ _ _ _ _ _ _ _ Hm 0).
  - rewrite Hold, E1 by lia. apply (hm_two _ _ _ _ _ _ _ _ _ Hm). lia.
Qed.

Lemma step_slot j off : 0 <= j < i + 1 → 0 <= off < PAGE_SIZE →
  slot (ent v2) 4 (vmm_pml4_phys v2) (heap_page j + off) = Some (tab' (j / 512), j mod 512).
Proof using Type*.
  intros Hj Ho. apply (heap_slot v2 p3 p2); [exact step_dir| |lia|done].
  apply step_tab; Z.to_euclidean_division_equations; lia.
Qed.

Lemma step_page j off : 0 <= j < i + 1 → 0 <= off < PAGE_SIZE →
  translate v2 (vmm_pml4_phys v2) (heap_page j + off) = Some (g' j + off).
Proof using Type*.
  intros Hj Ho. destruct (heap_idx j off ltac:(lia) Ho) as (_ & _ & _ & _ & Hmod & Hva).
  destruct step_tables as (_ & H4 & _). rewrite (r_walk _ _ _ _ _ _ HR); [|by rewrite step_root|done].
  rewrite step_slot, Hmod by done. unfold g'. destruct (Z.eqb_spec j i) as [->|Hne].
  - unfold tab'. by rewrite Z.eqb_refl, decide_True.
  - rewrite decide_False.
    + unfold translate. rewrite step_ent, step_root. apply (hm_page _ _ _ _ _ _ _ _ _ Hm); [lia|done].
    + intros [= Et Em]. destruct (Z.eq_dec (j / 512) (i / 512)) as [E|E]; [Z.to_euclidean_division_equations; lia|].
      assert (Ej : j / 512 = 0 ∧ i / 512 = 1 ∧ 512 < i + 1) by (split_and!; Z.to_euclidean_division_equations; lia).
      destruct Ej as (Ej & Ei & Hlt). apply (step_two Hlt). rewrite <- Ej, Et. unfold tab'. by rewrite Ei.
Qed.

Lemma step_rest rt a : T0 4%nat rt → va_ok a →
  (∀ j, 0 <= j < i + 1 → slot (ent v2) 4 rt a ≠ Some (tab' (j / 512), j mod 512)) → translate v2 rt a = translate v0 rt a.
Proof using Type*.
  intros Hrt Hva Hno. pose proof (hm_sub _ _ _ _ _ _ _ _ _ Hm 4%nat rt Hrt) as Hrt'.
  rewrite (r_walk _ _ _ _ _ _ HR) by done. rewrite decide_False.
  2: { intros E. apply (Hno i); [lia|]. unfold tab'. by rewrite Z.eqb_refl. }
  unfold translate. rewrite step_ent. apply (hm_rest _ _ _ _ _ _ _ _ _ Hm); [done|done|]. intros j Hj Es. apply (Hno j); [lia|].
  rewrite step_tab_old by (Z.to_euclidean_division_equations; lia).
  apply (slot_kept (ent v) _ _ T _ _ _ _ (vi_tables _ _ (hm_inv _ _ _ _ _ _ _ _ _ Hm)) Hrt' Hva); [|done].
  intros l p k Hp Hk Hl. apply (Hkept l); [done|done|]. destruct (Z.lt_ge_cases (i / 512 * 512) i) as [Hlt|Hge]; [by right; right|].
  destruct (Z.eq_dec p p2) as [->|?]; [|by left]. right; left. intros ->.
  destruct step_tables as (_ & _ & _ & H2 & _). pose proof (hm_inv _ _ _ _ _ _ _ _ _ Hm) as Hinv.
  pose proof (t_one _ _ _ (vi_tables _ _ Hinv) _ _ _ Hp H2) as [= ->].
  rewrite (hm_none _ _ _ _ _ _ _ _ _ Hm (i / 512)) in Hl by (Z.to_euclidean_division_equations; lia). done.
Qed.

Lemma step_frames j : 0 <= j < i + 1 →
  is_frame (g' j) ∧ ¬ fr_used (vm_frames v0) (g' j) ∧ fr_used (vm_frames v2) (g' j) ∧ ∀ l, ¬ T2 l (g' j).
Proof using Type*.
  intros Hj. pose proof (hm_inv _ _ _ _ _ _ _ _ _ Hm) as Hinv.
  destruct (alloc_page_cases v T page v1 Hinv Ea) as (_ & _ & _ & _ & Hmono & _ & Hfr). destruct (Hfr Hpage) as (F1 & F2 & F3).
  destruct (r_fresh _ _ _ _ _ _ HR) as (Hu & Hf & _).
  assert (Hnt : ∀ p, fr_used (vm_frames v1) p → (∀ l, ¬ T l p) → ∀ l, ¬ T2 l p) by (intros p Hup Hnp l Hl; destruct (Hf l p Hl); [by apply (Hnp l)|done]).
  unfold g'. destruct (Z.eqb_spec j i) as [->|Hne].
  - split_and!; [done| |by apply Hu|apply Hnt; [done|exact (alloc_not_table v T page v1 Hinv Ea Hpage)]].
    intros Hp. by apply F2, (hm_used _ _ _ _ _ _ _ _ _ Hm).
  - destruct (hm_frame _ _ _ _ _ _ _ _ _ Hm j ltac:(lia)) as (G1 & G2 & G3 & G4).
    split_and!; [done|done|by apply Hu, Hmono|apply Hnt; [by apply Hmono|done]].
Qed.

Lemma step_inj j k : 0 <= j < i + 1 → 0 <= k < i + 1 → g' j = g' k → j = k.
Proof using Type*.
  intros Hj Hk. destruct (alloc_page_cases v T page v1 (hm_inv _ _ _ _ _ _ _ _ _ Hm) Ea) as (_ & _ & _ & _ & _ & _ & Hfr).
  destruct (Hfr Hpage) as (_ & F2 & _). pose proof (λ j Hj, proj1 (proj2 (proj2 (hm_frame _ _ _ _ _ _ _ _ _ Hm j Hj)))) as Hu.
  unfold g'. destruct (Z.eqb_spec j i) as [->|], (Z.eqb_spec k i) as [->|]; [done| | |].
  - intros ->. destruct F2. apply Hu. lia.
  - intros <-. destruct F2. apply Hu. lia.
  - apply (hm_inj _ _ _ _ _ _ _ _ _ Hm); lia.
Qed.

Lemma heap_step :
  fr_room (vm_frames v2) (1024 - (i + 1) + (2 - (i + 1 + 511) / 512)) → heap_mapped v0 T0 p3 p2 (i + 1) v2 T2 tab' g'.
Proof using Type*.
  intros Hroom. pose proof (hm_inv _ _ _ _ _ _ _ _ _ Hm) as Hinv.
  destruct (alloc_page_cases v T page v1 Hinv Ea) as (_ & _ & _ & _ & Hmono & _). split.
  - exact (r_inv _ _ _ _ _ _ HR).
  - intros l p Hp. by apply (r_sub _ _ _ _ _ _ HR), (hm_sub _ _ _ _ _ _ _ _ _ Hm).
  - rewrite step_root. apply (hm_root _ _ _ _ _ _ _ _ _ Hm).
  - exact step_dir.
  - exact step_tab.
  - intros r Hr Hri. destruct step_tables as (_ & _ & _ & H2 & _).
    rewrite (Hkept 0%nat) by (done || (split; [lia|done]) || (right; left; Z.to_euclidean_division_equations; lia)).
    apply (hm_none _ _ _ _ _ _ _ _ _ Hm); lia.
  - exact step_two.
  - exact Hroom.
  - exact step_page.
  - exact step_frames.
  - exact step_inj.
  - intros p Hp. by apply (r_fresh _ _ _ _ _ _ HR), Hmono, (hm_used _ _ _ _ _ _ _ _ _ Hm).
  - exact step_rest.
Qed.

End heap_step.

(** A page can always be added. *)
Lemma heap_grows v0 (T0 : family) p3 p2 i v T tab g :
  heap_mapped v0 T0 p3 p2 i v T tab g → 0 <= i < 1024 →
  ∃ page v1 v2 T2 tab' g', alloc_page v = (page, v1) ∧ page ≠ 0 ∧ vmm_map_page v1 (heap_page i) page PTE_KERNEL_RW = (true, v2)
    ∧ heap_mapped v0 T0 p3 p2 (i + 1) v2 T2 tab' g'.
Proof.
  intros Hm Hi. pose proof (hm_inv _ _ _ _ _ _ _ _ _ Hm) as Hinv. destruct (alloc_page v) as [page v1] eqn:Ea.
  destruct (alloc_page_cases v T page v1 Hinv Ea) as (Hinv1 & Em & _ & Er & _ & _ & Hfr).
  set (R := 1024 - i + (2 - (i + 511) / 512)). pose proof (hm_room _ _ _ _ _ _ _ _ _ Hm : fr_room (vm_frames v) R) as Hroom.
  assert (HR0 : 1 <= R) by (unfold R; Z.to_euclidean_division_equations; lia).
  assert (Hal : page ≠ 0 ∧ fr_room (vm_frames v1) (R - 1)).
  { revert Ea. unfold alloc_page. destruct (fr_alloc (vm_frames v)) as [a f] eqn:E. intros [= -> <-].
    destruct (fr_room_alloc _ (R - 1) page f (vi_frames _ _ Hinv)) with (3 := E) as (? & _ & ?);
      [lia|by replace (R - 1 + 1) with R by lia|done]. }
  destruct Hal as [Hp0 Hr1]. destruct (Hfr Hp0) as (Fp & _).
  destruct (heap_idx i 0 Hi ltac:(done)) as (I4 & I3 & I2 & I1 & Ial & Iva). rewrite Z.add_0_r in *.
  assert (Ee : ent v1 = ent v) by (unfold ent, get; by rewrite Em).
  assert (Hd : directory v1 (heap_page i) p3 p2).
  { destruct (hm_dir _ _ _ _ _ _ _ _ _ Hm) as [D4 D3]. unfold directory, leads. rewrite Er, Ee, I4, I3. done. }
  assert (Hlk : link 2 (ent v1 p2 (idx 2 (heap_page i))) = negb (i mod 512 =? 0)).
  { rewrite Ee, I2. destruct (Z.eqb_spec (i mod 512) 0) as [Ei|Ei].
    - apply (hm_none _ _ _ _ _ _ _ _ _ Hm); Z.to_euclidean_division_equations; lia.
    - apply (hm_tab _ _ _ _ _ _ _ _ _ Hm); Z.to_euclidean_division_equations; lia. }
  set (n := if i mod 512 =? 0 then R - 2 else 0).
  destruct (map_in_directory v1 T p3 p2 (heap_page i) page n Hinv1 Iva Ial Fp Hd) as (v2 & T2 & q & E & HR & Hq & L2 & Hk & Hc).
  { unfold n, R. destruct (Z.eqb_spec (i mod 512) 0); [Z.to_euclidean_division_equations; lia|lia]. }
  { rewrite Hlk. unfold n. destruct (Z.eqb_spec (i mod 512) 0); [left|by right]. by replace (R - 2 + 1) with (R - 1) by lia. }
  rewrite Hlk in Hc, Hk. rewrite I2 in L2, Hk, Hc. rewrite I1 in HR. rewrite Ee in Hk.
  exists page, v1, v2, T2. eexists _, _. split_and!; [done|done|done|].
  eapply (heap_step v0 T0 p3 p2 i v T tab g Hm Hi page v1 Ea Hp0 v2 T2 q HR Hq L2).
  - intros l p k Hp Hix Hor. apply (Hk l p k Hp Hix). destruct Hor as [?|[?|?]]; [by left|by right; left|right; right].
    destruct (Z.eqb_spec (i mod 512) 0); [Z.to_euclidean_division_equations; lia|done].
  - intros Hlt. destruct (Z.eqb_spec (i mod 512) 0); [Z.to_euclidean_division_equations; lia|]. destruct Hc as [_ L].
    apply (leads_unique v 2 p2 (8 + i / 512)); [by unfold leads in *; rewrite Ee in L|].
    apply (hm_tab _ _ _ _ _ _ _ _ _ Hm); Z.to_euclidean_division_equations; lia.
  - intros Hge. destruct (Z.eqb_spec (i mod 512) 0); [by destruct Hc|Z.to_euclidean_division_equations; lia].
  - destruct (Z.eqb_spec (i mod 512) 0) as [Ei|Ei]; cbn [negb] in Hc; destruct Hc as [Hc1 Hc2].
    + replace (1024 - (i + 1) + _) with n; [done|]. unfold n, R. Z.to_euclidean_division_equations; lia.
    + rewrite Hc1. replace (1024 - (i + 1) + _) with (R - 1); [done|]. unfold R. Z.to_euclidean_division_equations; lia.
Qed.

Lemma heap_init_maps (h : heap (vmm F)) v0 (T0 : family) p3 p2 T tab g :
  heap_mapped v0 T0 p3 p2 0 (h_world h) T tab g →
  ∃ h' T' tab' g', heap_init h = Some h' ∧ heap_mapped v0 T0 p3 p2 1024 (h_world h') T' tab' g'.
Proof.
  intros Hm. unfold heap_init. change (HEAP_INITIAL_SIZE / PAGE_SIZE) with 1024. set (body := λ i w, _).
  assert (Hstep : ∀ i w, 0 <= i < 1024 → (∃ T tab g, heap_mapped v0 T0 p3 p2 i w T tab g) →
    match body i w with Next w' => ∃ T tab g, heap_mapped v0 T0 p3 p2 (i + 1) w' T tab g | Stop _ => False end).
  { intros i w Hi (T1 & tab1 & g1 & Hm1).
    destruct (heap_grows _ _ _ _ _ _ _ _ _ Hm1 Hi) as (page & v1 & v2 & T2 & tab2 & g2 & Ea & Hp & E & Hm2). unfold body.
    change (src_alloc_page w) with (alloc_page w). rewrite Ea, (proj2 (Z.eqb_neq _ _) Hp).
    rewrite u64_id by (unfold is_u64, HEAP_START, PAGE_SIZE; lia).
    change (src_map_page _ page _ v1) with (vmm_map_page v1 (heap_page i) page PTE_KERNEL_RW). rewrite E. eauto. }
  pose proof (for_inv_out _ (λ _, False) 0 1024 body (h_world h) ltac:(lia) (ex_intro _ T (ex_intro _ tab (ex_intro _ g Hm))) Hstep) as Hl.
  destruct (for_ 0 1024 body (h_world h)) as [w|w]; [|done]. destruct Hl as (T' & tab' & g' & Hm'). by eexists _, T', tab', g'.
Qed.

End start.

(** ** The memory managers together *)

(** The state in which the boot loader leaves the machine: page tables [T] in
    the reserved first 4 MB with a directory [p2] for the kernel's window, which
    uses no 4 KB pages where the heap will be, and the static variables zero. *)
Record boot_state (h : heap (vmm pmm)) (T : family) (p3 p2 : Z) : Prop := {
  bs_frames : vm_frames (h_world h) = pmm_zero;
  bs_mem : mem_wf (vm_mem (h_world h));
  bs_tables : tables (ent (h_world h)) (λ p, 0 <= p < RESERVED_PAGES * PAGE_SIZE) T;
  bs_root : T 4%nat (read_cr3_addr (h_world h));
  bs_dir : directory (boot_view (h_world h)) HEAP_START p3 p2;
  bs_none : link 2 (ent (h_world h) p2 8) = false ∧ link 2 (ent (h_world h) p2 9) = false
}.

Lemma boot_directory (v : vmm pmm) va p3 p2 :
  leads v 4 (read_cr3_addr v) (idx 4 va) p3 → leads v 3 p3 (idx 3 va) p2 → directory (boot_view v) va p3 p2.
Proof. intros H4 H3. split; [exact H4|exact H3]. Qed.

(** The memory map has [n] usable pages above the first 4 MB, and none at 2 GB. *)
Record usable_map (entries : list memory_map_entry_t) (n : Z) : Prop := {
  um_ok : Forall (λ e, entry_ok e = true) entries;
  um_disjoint : no_overlap entries = true;
  um_some : entries ≠ [];
  um_null : ∀ e, e ∈ entries → usable_page e (NULL_FRAME / PAGE_SIZE) = false;
  um_count p : pmm_init (Some entries) pmm_zero = Some p → n <= pmm_free_count p
}.

Lemma pmm_init_room entries n :
  usable_map entries n →
  ∃ p, pmm_init (Some entries) pmm_zero = Some p ∧ fr_ok p ∧ fr_room p n
    ∧ ∀ a, 0 <= a < RESERVED_PAGES * PAGE_SIZE → fr_used p a.
Proof.
  intros [U1 U2 U3 U4 U5]. assert (E : ∃ p, pmm_init (Some entries) pmm_zero = Some p) by (destruct entries; [done|by eexists]).
  destruct E as [p E]. destruct (init_outcome entries p U1 U2 E) as [Hinv Hfree]. exists p.
  assert (Hlow : ∀ q, 0 <= q < RESERVED_PAGES → ¬ page_free p q).
  { intros q Hq Hf. apply Hfree in Hf; [lia|]. rewrite MM_MAX_PAGES_val. rewrite RESERVED_PAGES_val in Hq. lia. }
  split_and!; [done|done| |].
  - refine (conj (U5 p E) (conj _ _)); [by apply Hlow; rewrite RESERVED_PAGES_val|]. intros Hf. apply Hfree in Hf; [|done]. destruct Hf as (_ & e & He & Hu). by rewrite (U4 e He) in Hu.
  - intros a Ha. split; [lia|]. apply Hlow. split; [apply Z.div_pos; [lia|done]|]. apply Z.div_lt_upper_bound; [done|lia].
Qed.

Lemma translate_frames {F} `{FrameSource F} (v : vmm F) f root va : translate (Vmm.with_frames v f) root va = translate v root va.
Proof. unfold translate. assert (E : ent (Vmm.with_frames v f) = ent v) by reflexivity. by rewrite E. Qed.
Lemma read_cr3_frames {F} `{FrameSource F} (v : vmm F) f : read_cr3_addr (Vmm.with_frames v f) = read_cr3_addr v.
Proof. reflexivity. Qed.


(** ** A machine with 64 MB *)

Module Machine.

(** The tables of the boot loader: the top-level table at 0x1000, one table of
    each lower level, and 64 MB in 2 MB pages, seen at 0 and in the kernel's
    window. *)
Definition top_entry (i : Z) : Z := if (i =? 0) || (i =? 511) then 0x2003 else 0.
Definition middle_entry (i : Z) : Z := if (i =? 0) || (i =? 510) then 0x3003 else 0.
Definition directory_entry (i : Z) : Z := if i <? 32 then Z.lor (i * 0x200000) 0x83 else 0.

Definition write_table (p : Z) (e : Z → Z) (m : mem) : mem :=
  for_each 0 512 (λ i m, set_pte m (PHYS_TO_VIRT p) i (e i)) m.
Definition memory : mem :=
  write_table 0x3000 directory_entry (write_table 0x2000 middle_entry (write_table 0x1000 top_entry (λ _, 0))).

Definition machine : heap (vmm pmm) := Heap (λ _, 0) 0 0 0 0 0 (Vmm memory pmm_zero 0 0 0 0x1000).
Definition map64 : list memory_map_entry_t :=
  [MemEntry 0 0x9F000 1; MemEntry 0x9F000 0x61000 2; MemEntry 0x100000 0x3F00000 1].
Definition boot_tables : family := λ l p, l = 4%nat ∧ p = 0x1000 ∨ l = 3%nat ∧ p = 0x2000 ∨ l = 2%nat ∧ p = 0x3000.

Lemma entries_u64 i : 0 <= i < 512 → is_u64 (top_entry i) ∧ is_u64 (middle_entry i) ∧ is_u64 (directory_entry i).
Proof.
  intros Hi. unfold top_entry, middle_entry, directory_entry. split_and!; [by destruct (_ || _)..|].
  destruct (Z.ltb_spec i 32); [|done]. apply lor_u64; [unfold is_u64; lia|done].
Qed.

Lemma write_table_entry p e m q j :
  is_frame p → is_frame q → 0 <= j < 512 → (∀ i, 0 <= i < 512 → is_u64 (e i)) →
  pte (write_table p e m) (PHYS_TO_VIRT q) j = if decide (p = q) then e j else pte m (PHYS_TO_VIRT q) j.
Proof.
  intros Hp Hq Hj He. unfold write_table. rewrite (write_entries (λ i _, e i) e m p 0 512 q j) by (done || lia).
  repeat case_decide; try done; naive_solver.
Qed.

Lemma frames3 : is_frame 0x1000 ∧ is_frame 0x2000 ∧ is_frame 0x3000.
Proof. by unfold is_frame. Qed.

Lemma memory_entry q j : is_frame q → 0 <= j < 512 →
  ent (h_world machine) q j = if decide (0x3000 = q) then directory_entry j else if decide (0x2000 = q) then middle_entry j
    else if decide (0x1000 = q) then top_entry j else 0.
Proof.
  intros Hq Hj. destruct frames3 as (F1 & F2 & F3). change (ent _ q j) with (pte memory (PHYS_TO_VIRT q) j). unfold memory.
  rewrite !write_table_entry; try done; intros i Hi; apply (entries_u64 i Hi).
Qed.

Lemma ent1 j : 0 <= j < 512 → ent (h_world machine) 0x1000 j = top_entry j.
Proof. intros Hj. by rewrite memory_entry by (apply frames3 || done). Qed.
Lemma ent2 j : 0 <= j < 512 → ent (h_world machine) 0x2000 j = middle_entry j.
Proof. intros Hj. by rewrite memory_entry by (apply frames3 || done). Qed.
Lemma ent3 j : 0 <= j < 512 → ent (h_world machine) 0x3000 j = directory_entry j.
Proof. intros Hj. by rewrite memory_entry by (apply frames3 || done). Qed.

Lemma directory_leaf i : 0 <= i < 512 → has (directory_entry i) PTE_PRESENT = true →
  leaf 2 (directory_entry i) = true ∧ PTE_GET_ADDR (directory_entry i) mod 2 ^ 21 = 0.
Proof.
  intros Hi. unfold directory_entry. destruct (Z.ltb_spec i 32) as [Hl|]; [|done]. intros _.
  pose proof (forallb_range 0 32 (λ i, has (Z.lor (i * 0x200000) 0x83) PTE_HUGE && (PTE_GET_ADDR (Z.lor (i * 0x200000) 0x83) mod 2 ^ 21 =? 0))
    eq_refl i ltac:(lia)) as Hb. apply andb_true_iff in Hb as [H1 H2]. by apply Z.eqb_eq in H2.
Qed.

Lemma machine_boots : boot_state machine boot_tables 0x2000 0x3000.
Proof.
  destruct frames3 as (F1 & F2 & F3).
  split; [done| | |by left| |by rewrite !ent3 by lia].
  - unfold machine, memory, write_table. cbn [h_world vm_mem].
    do 3 (apply (write_entries_wf (λ i _, _ i)); [lia|]). intros a. lia.
  - split.
    + intros l p [[-> ->]|[[-> ->]|[-> ->]]]; lia.
    + by intros l p [[-> ->]|[[-> ->]|[-> ->]]].
    + rewrite RESERVED_PAGES_val. unfold PAGE_SIZE. intros l p [[-> ->]|[[-> ->]|[-> ->]]]; lia.
    + intros l l' p [[-> ->]|[[-> ->]|[-> ->]]] [[-> ?]|[[-> ?]|[-> ?]]]; done.
    + intros l p i [[[= ->] ->]|[[[= ->] ->]|[[= ->] ->]]] [Hi _].
      * rewrite ent1 by done. unfold top_entry. destruct (_ || _); [|done]. intros _. right. left. done.
      * rewrite ent2 by done. unfold middle_entry. destruct (_ || _); [|done]. intros _. right. right. done.
      * rewrite ent3 by done. unfold link. rewrite andb_true_iff, negb_true_iff. intros [Hp Hl].
        destruct (directory_leaf i Hi Hp). congruence.
    + intros p i [[[=] _]|[[[=] _]|[_ ->]]] [Hi _]. rewrite ent3 by done. intros Hp _. by apply directory_leaf.
  - destruct (heap_idx 0 0 ltac:(lia) ltac:(done)) as (I4 & I3 & _). change (heap_page 0 + 0) with HEAP_START in I4, I3.
    assert (Hc : read_cr3_addr (h_world machine) = 0x1000) by reflexivity.
    apply boot_directory; rewrite ?Hc, ?I4, ?I3; unfold leads; [rewrite ent1 by lia|rewrite ent2 by lia]; split; reflexivity.
Qed.

Lemma map64_usable : usable_map map64 1027.
Proof.
  split; [by repeat constructor|done|done| |].
  - apply Forall_forall. by repeat constructor.
  - intros p E. destruct (init_outcome map64 p) as [Hinv Hf]; [by repeat constructor|done|done|].
    rewrite (inv_count _ Hinv). apply (countZ_run _ _ 1024); [lia|by rewrite MM_MAX_PAGES_val|].
    intros q Hq. apply negb_free, Hf; [rewrite MM_MAX_PAGES_val; lia|]. split; [rewrite RESERVED_PAGES_val; lia|].
    exists (MemEntry 0x100000 0x3F00000 1). split; [by do 2 right; left|]. unfold usable_page.
    change (first_page _) with 256. change (end_page _) with 16384. simpl. apply andb_true_iff. split; [apply Z.leb_le|apply Z.ltb_lt]; lia.
Qed.

End Machine.

