(* ===== verification/Path.v ===== *)
(** * Path utilities: kernel/fs/path.c

    C strings are lists of non-zero bytes; [None] as a string argument is the
    NULL pointer and [None] as a result is the error return -1, which leaves
    the caller's buffer alone.

    The reference is a stack of path components: [path_normalize] is proved
    equal to the fold that pushes names, skips ["."] and pops on [".."], with
    the 256-byte limit; its results are canonical and it is idempotent; and
    [path_join], [path_dirname] and [path_basename] are inverse to each other
    on canonical paths. *)

From Stdlib Require Import ZArith Lia.
From stdpp Require Import base numbers list sets.
From S2P Require Import Prelude.

Abbreviation cstring := (list Z).

Definition SLASH : Z := 47.
Definition DOT : Z := 46.
Definition VFS_MAX_PATH : Z := 256.

(** [s[i]], the terminator included. *)
Definition char_at (s : cstring) (i : nat) : Z := default 0 (s !! i).

Definition path_is_absolute (path : option cstring) : bool :=
  match path with Some s => char_at s 0 =? SLASH | None => false end.

(** ** path_basename, path_dirname, path_join *)

(** [for (p = path; *p; p++) if ( *p == '/') last_slash = p;] *)
Fixpoint last_slash (i : nat) (found : option nat) (s : cstring) : option nat :=
  match s with
  | [] => found
  | c :: s => last_slash (S i) (if c =? SLASH then Some i else found) s
  end.

(** [while (end > path && *end == '/') end--;] *)
Fixpoint skip_back (path : cstring) (e : nat) : nat :=
  match e with
  | O => O
  | S e' => if char_at path e =? SLASH then skip_back path e' else e
  end.

(** [while (start > path && *(start - 1) != '/') start--;] *)
Fixpoint name_back (path : cstring) (st : nat) : nat :=
  match st with
  | O => O
  | S st' => if char_at path st' =? SLASH then st else name_back path st'
  end.

(** The result is a pointer into [path], so the string it denotes runs to the
    end of [path]. *)
Definition path_basename (path : option cstring) : cstring :=
  match path with
  | None | Some [] => [DOT]
  | Some path =>
      match last_slash 0 None path with
      | None => path
      | Some ls =>
          if char_at path (S ls) =? 0 then
            let e := skip_back path ls in
            if (e =? 0)%nat && (char_at path e =? SLASH) then [SLASH]
            else drop (name_back path e) path
          else drop (S ls) path
      end
  end.

Definition path_dirname (path : option cstring) (size : Z) : option cstring :=
  match path with
  | None => None
  | Some path =>
      if size =? 0 then None
      else match path with
      | [] => if size <? 2 then None else Some [DOT]
      | _ =>
          match last_slash 0 None path with
          | None => if size <? 2 then None else Some [DOT]
          | Some O => if size <? 2 then None else Some [SLASH]
          | Some ls => if size <=? Z.of_nat ls then None else Some (take ls path)
          end
      end
  end.

Definition path_join (dir name : option cstring) (size : Z) : option cstring :=
  match dir, name with
  | Some dir, Some name =>
      if size =? 0 then None
      else
        let need_sep := (0 <? zlen dir) && negb (char_at dir (length dir - 1) =? SLASH)
                        && negb (char_at name 0 =? SLASH) in
        let total_len := zlen dir + (if need_sep then 1 else 0) + zlen name in
        if size <=? total_len then None
        else Some (if need_sep then dir ++ SLASH :: name else dir ++ name)
  | _, _ => None
  end.

(** ** path_normalize *)

Fixpoint skip_slashes (p : cstring) : cstring :=
  match p with
  | c :: p' => if c =? SLASH then skip_slashes p' else p
  | [] => []
  end.

(** The component at [p] and what follows it. *)
Fixpoint component (p : cstring) : cstring * cstring :=
  match p with
  | [] => ([], [])
  | c :: p' => if c =? SLASH then ([], p)
               else let '(comp, rest) := component p' in (c :: comp, rest)
  end.

(** The buffer [work] is its first [work_len] bytes; dropping the last byte is
    [work_len--]. *)
Definition last_char (work : cstring) : Z := char_at work (length work - 1).

(** [while (work_len > 1 && work[work_len - 1] != '/') work_len--;] and
    [while (work_len > 1 && work[work_len - 1] == '/') work_len--;] *)
Fixpoint trim (fuel : nat) (cut : Z → bool) (work : cstring) : cstring :=
  match fuel with
  | O => work
  | S fuel =>
      if (1 <? zlen work) && cut (last_char work)
      then trim fuel cut (take (length work - 1) work) else work
  end.

Definition go_up (work : cstring) : cstring :=
  if 1 <? zlen work then
    let work := if last_char work =? SLASH then take (length work - 1) work else work in
    trim (length work) (λ c, negb (c =? SLASH)) work
  else work.

(** Appending the separator, and a component. *)
Definition add_slash (work : cstring) : option cstring :=
  if (0 <? zlen work) && negb (last_char work =? SLASH) then
    if VFS_MAX_PATH - 1 <=? zlen work then None else Some (work ++ [SLASH])
  else Some work.

Definition append_component (comp work : cstring) : option cstring :=
  work ← add_slash work;
  if VFS_MAX_PATH <=? zlen work + zlen comp then None else Some (work ++ comp).

Definition add_component (comp work : cstring) : option cstring :=
  if bool_decide (comp = [DOT]) then Some work
  else if bool_decide (comp = [DOT; DOT]) then Some (go_up work)
  else append_component comp work.

(** The component loop; every round consumes at least one byte, so the length
    of the path bounds the rounds. *)
Fixpoint process (fuel : nat) (p work : cstring) : option cstring :=
  match fuel with
  | O => None
  | S fuel =>
      match skip_slashes p with
      | [] => Some work
      | p =>
          let '(comp, rest) := component p in
          work ← add_component comp work;
          process fuel rest work
      end
  end.

(** The working path before the first component. *)
Definition start_path (path : cstring) (cwd : option cstring) : option cstring :=
  if char_at path 0 =? SLASH then Some [SLASH]
  else match cwd with
  | Some cwd =>
      if char_at cwd 0 =? SLASH then
        if VFS_MAX_PATH <=? zlen cwd then None else add_slash cwd
      else Some [SLASH]
  | None => Some [SLASH]
  end.

Definition path_normalize (path cwd : option cstring) (size : Z) : option cstring :=
  match path with
  | None => None
  | Some path =>
      if size =? 0 then None
      else
        work ← start_path path cwd;
        let p := if char_at path 0 =? SLASH then drop 1 path else path in
        work ← process (S (length p)) p work;
        let work := if zlen work =? 0 then [SLASH] else work in
        let work := trim (length work) (λ c, c =? SLASH) work in
        if size <=? zlen work then None else Some work
  end.

(** ** The reference: stacks of components *)

Definition valid_name (c : cstring) : Prop :=
  c ≠ [] ∧ SLASH ∉ c ∧ 0 ∉ c ∧ c ≠ [DOT] ∧ c ≠ [DOT; DOT].

(** The absolute path of a stack of names. *)
Definition render (cs : list cstring) : cstring :=
  match cs with
  | [] => [SLASH]
  | _ => concat ((λ c, SLASH :: c) <$> cs)
  end.

Definition canonical (s : cstring) : Prop := ∃ cs, s = render cs ∧ Forall valid_name cs.

(** Effect of one component on the stack; [None] when the path gets too long. *)
Definition push (cs : list cstring) (c : cstring) : option (list cstring) :=
  if bool_decide (c = [DOT]) then Some cs
  else if bool_decide (c = [DOT; DOT]) then Some (take (length cs - 1) cs)
  else if VFS_MAX_PATH <=? zlen (render (cs ++ [c])) then None
  else Some (cs ++ [c]).

Fixpoint push_all (cs : list cstring) (l : list cstring) : option (list cstring) :=
  match l with
  | [] => Some cs
  | c :: l => cs ← push cs c; push_all cs l
  end.

(** The non-empty components of a path, in order. *)
Fixpoint split_at (acc : cstring) (p : cstring) : list cstring :=
  match p with
  | [] => match acc with [] => [] | _ => [acc] end
  | c :: p =>
      if c =? SLASH then match acc with [] => split_at [] p | _ => acc :: split_at [] p end
      else split_at (acc ++ [c]) p
  end.

Definition components (p : cstring) : list cstring := split_at [] p.

(** ** Scanning *)

(** Non-empty and free of separators. *)
Definition name_ok (c : cstring) : Prop := c ≠ [] ∧ SLASH ∉ c.

Lemma skip_slashes_components p acc : acc = [] → split_at acc (skip_slashes p) = split_at acc p.
Proof.
  intros ->. induction p as [|c p IH]; simpl; [done|].
  destruct (c =? SLASH) eqn:E; [done|]. simpl. by rewrite E.
Qed.

Lemma skip_slashes_head p c q : skip_slashes p = c :: q → c ≠ SLASH.
Proof.
  induction p as [|d p IH]; simpl; [done|].
  destruct (d =? SLASH) eqn:E; [done|]. intros [= -> ->]. by to_prop.
Qed.

Lemma skip_slashes_length p : (length (skip_slashes p) <= length p)%nat.
Proof. induction p as [|c p IH]; simpl; [done|]. destruct (c =? SLASH); simpl; lia. Qed.

Lemma component_spec p comp rest :
  component p = (comp, rest) →
  p = comp ++ rest ∧ SLASH ∉ comp ∧ (rest = [] ∨ ∃ q, rest = SLASH :: q).
Proof.
  revert comp rest. induction p as [|c p IH]; intros comp rest; simpl.
  { intros [= <- <-]. split_and!; [done|set_solver|by left]. }
  destruct (c =? SLASH) eqn:E; to_prop.
  - intros [= <- <-]. subst. split_and!; [done|set_solver|eauto].
  - destruct (component p) as [comp' rest'] eqn:Ec. intros [= <- <-].
    destruct (IH comp' rest' eq_refl) as (-> & Hs & Hr). split_and!; [done|set_solver|done].
Qed.

Lemma split_at_component acc comp rest :
  SLASH ∉ comp → split_at acc (comp ++ rest) = split_at (acc ++ comp) rest.
Proof.
  revert acc. induction comp as [|c comp IH]; intros acc Hs; simpl; [by rewrite app_nil_r|].
  rewrite (proj2 (Z.eqb_neq c SLASH)) by set_solver. rewrite IH by set_solver.
  by rewrite <- app_assoc.
Qed.

(** One round of the component loop takes the first component off. *)
Lemma components_step p comp rest :
  p ≠ [] → (∀ c q, p = c :: q → c ≠ SLASH) → component p = (comp, rest) →
  name_ok comp ∧ components p = comp :: components rest ∧ (length rest < length p)%nat.
Proof.
  intros Hne Hhd Ec. destruct (component_spec p comp rest Ec) as (-> & Hs & Hr).
  assert (comp ≠ []).
  { intros ->. destruct Hr as [->|[q ->]]; [done|]. by apply (Hhd SLASH q). }
  split; [done|]. split.
  - unfold components. rewrite split_at_component by done. simpl.
    destruct Hr as [->|[q ->]]; simpl; by destruct comp.
  - rewrite length_app. destruct comp; [done|]. simpl. lia.
Qed.

Lemma components_ok p : Forall name_ok (components p).
Proof.
  unfold components. assert (Hg : ∀ acc, SLASH ∉ acc → Forall name_ok (split_at acc p)); [|apply Hg; set_solver].
  induction p as [|c p IH]; intros acc Ha; simpl.
  - destruct acc; [done|]. by repeat constructor.
  - destruct (c =? SLASH) eqn:E; to_prop.
    + destruct acc; [apply IH; set_solver|]. constructor; [done|apply IH; set_solver].
    + apply IH. set_solver.
Qed.

(** ** Rendering *)

Definition body (cs : list cstring) : cstring := concat ((λ c, SLASH :: c) <$> cs).

Lemma body_snoc cs c : body (cs ++ [c]) = body cs ++ SLASH :: c.
Proof. unfold body. rewrite fmap_app, concat_app. simpl. by rewrite app_nil_r. Qed.

Lemma render_snoc cs c : render (cs ++ [c]) = body cs ++ SLASH :: c.
Proof. rewrite <- body_snoc. by destruct cs. Qed.

Lemma render_body cs : cs ≠ [] → render cs = body cs.
Proof. by destruct cs. Qed.

Lemma last_char_snoc s c : last_char (s ++ [c]) = c.
Proof.
  unfold last_char, char_at. rewrite length_app. simpl.
  replace (length s + 1 - 1)%nat with (length s) by lia.
  rewrite lookup_app_r by lia. by rewrite Nat.sub_diag.
Qed.

Lemma take_snoc (s : cstring) c : take (length (s ++ [c]) - 1) (s ++ [c]) = s.
Proof.
  rewrite length_app. simpl. replace (length s + 1 - 1)%nat with (length s) by lia.
  by rewrite take_app_length.
Qed.

(** The last byte of a rendered name is no separator. *)
Lemma last_char_name s c : name_ok c → last_char (s ++ SLASH :: c) ≠ SLASH.
Proof.
  intros [Hne Hs]. destruct c as [|x c' _] using rev_ind; [done|].
  replace (s ++ SLASH :: c' ++ [x]) with ((s ++ SLASH :: c') ++ [x]) by (by rewrite <- app_assoc).
  rewrite last_char_snoc. set_solver.
Qed.

(** Trimming removes a whole suffix of bytes to cut. *)
Lemma trim_suffix fuel (cut : Z → bool) s t :
  (length t <= fuel)%nat → Forall (λ c, cut c = true) t → s ≠ [] →
  (length s = 1%nat ∨ cut (last_char s) = false) → trim fuel cut (s ++ t) = s.
Proof.
  revert fuel. induction t as [|x t IH] using rev_ind; intros fuel Hf Ht Hs Hstop.
  - rewrite app_nil_r. destruct fuel; simpl; [done|]. unfold zlen.
    destruct Hstop as [Hl|Hl]; [by rewrite Hl|]. by rewrite Hl, andb_false_r.
  - rewrite length_app in Hf. simpl in Hf. apply Forall_app in Ht as [Ht Hx].
    rewrite Forall_singleton in Hx. destruct fuel as [|fuel]; [lia|]. simpl.
    rewrite app_assoc, last_char_snoc, Hx, take_snoc.
    rewrite (proj2 (Z.ltb_lt 1 (zlen ((s ++ t) ++ [x])))).
    + simpl. apply IH; [lia|done|done|done].
    + pose proof (zlen_pos s Hs). pose proof (zlen_nonneg t). rewrite !zlen_app. unfold zlen at 3. simpl. lia.
Qed.

(** ** The working path *)

(** [work] denotes the stack [cs], possibly with a trailing separator. *)
Definition work_ok (cs : list cstring) (work : cstring) : Prop :=
  work = render cs ∨ work = body cs ++ [SLASH].

Lemma root_work : render [] = body [] ++ [SLASH].
Proof. done. Qed.

(** With the trailing separator in place, whether it had to be added or not. *)
Lemma add_slash_work cs work :
  Forall name_ok cs → work_ok cs work →
  if VFS_MAX_PATH <=? zlen (body cs) + 1 then
    add_slash work = None ∨ add_slash work = Some (body cs ++ [SLASH])
  else add_slash work = Some (body cs ++ [SLASH]).
Proof.
  intros Hcs Hw.
  assert (Hsl : work = body cs ++ [SLASH] → add_slash work = Some (body cs ++ [SLASH])).
  { intros ->. unfold add_slash. by rewrite last_char_snoc, Z.eqb_refl, andb_false_r. }
  destruct Hw as [->|Hw]; [|rewrite (Hsl Hw); case_if; auto].
  destruct cs as [|c cs0 _] using rev_ind; [rewrite (Hsl root_work); case_if; auto|].
  apply Forall_app in Hcs as [_ Hc]. rewrite Forall_singleton in Hc.
  rewrite render_snoc, body_snoc. unfold add_slash.
  rewrite (proj2 (Z.eqb_neq _ _) (last_char_name (body cs0) c Hc)).
  pose proof (zlen_nonneg (body cs0)). pose proof (zlen_nonneg c).
  rewrite (proj2 (Z.ltb_lt _ _)) by (rewrite zlen_app, zlen_cons; lia). cbn [andb negb].
  destruct (VFS_MAX_PATH <=? _ + 1) eqn:E1, (VFS_MAX_PATH - 1 <=? _) eqn:E2; to_prop; auto; lia.
Qed.

Lemma append_work cs work c :
  Forall name_ok cs → work_ok cs work → name_ok c →
  append_component c work =
    if VFS_MAX_PATH <=? zlen (render (cs ++ [c])) then None else Some (render (cs ++ [c])).
Proof.
  intros Hcs Hw [Hne _]. pose proof (add_slash_work cs work Hcs Hw) as Ha.
  pose proof (zlen_pos c Hne). unfold append_component. rewrite render_snoc, zlen_app, zlen_cons.
  assert (Hrest : zlen (body cs ++ [SLASH]) + zlen c = zlen (body cs) + (1 + zlen c)).
  { rewrite zlen_app. unfold zlen at 2. simpl. lia. }
  destruct (VFS_MAX_PATH <=? zlen (body cs) + 1) eqn:E; to_prop.
  - rewrite (proj2 (Z.leb_le _ (zlen (body cs) + _))) by lia.
    destruct Ha as [-> | ->]; simpl; [done|]. rewrite Hrest.
    by rewrite (proj2 (Z.leb_le _ _)) by lia.
  - rewrite Ha. simpl. rewrite Hrest. case_if; [done|]. by rewrite <- app_assoc.
Qed.

Lemma go_up_work cs work :
  Forall name_ok cs → work_ok cs work → work_ok (take (length cs - 1) cs) (go_up work).
Proof.
  intros Hcs Hw. destruct cs as [|c cs0 _] using rev_ind.
  { assert (work = [SLASH]) as -> by (by destruct Hw). by left. }
  apply Forall_app in Hcs as [_ Hc]. rewrite Forall_singleton in Hc. pose proof Hc as [Hne Hs].
  rewrite length_app. simpl length. replace (length cs0 + 1 - 1)%nat with (length cs0) by lia.
  rewrite take_app_length. right. unfold go_up.
  pose proof (zlen_nonneg (body cs0)). pose proof (zlen_pos c Hne).
  assert (Hlong : 1 <? zlen work = true).
  { apply Z.ltb_lt. destruct Hw as [-> | ->]; rewrite ?render_snoc, ?body_snoc, !zlen_app, zlen_cons;
      [lia|]. pose proof (zlen_nonneg [SLASH]). lia. }
  rewrite Hlong.
  replace (if last_char work =? SLASH then take (length work - 1) work else work)
    with ((body cs0 ++ [SLASH]) ++ c).
  - apply trim_suffix.
    + rewrite !length_app. lia.
    + apply Forall_forall. intros x Hx. apply negb_true_iff, Z.eqb_neq. intros ->. done.
    + by destruct (body cs0).
    + right. by rewrite last_char_snoc.
  - rewrite <- app_assoc. destruct Hw as [-> | ->]; rewrite ?render_snoc.
    + by rewrite (proj2 (Z.eqb_neq _ _) (last_char_name (body cs0) c Hc)).
    + by rewrite last_char_snoc, take_snoc, body_snoc.
Qed.

(** The code on [work] does what [push] does on the stack. *)
Lemma add_component_push cs work c :
  Forall name_ok cs → work_ok cs work → name_ok c →
  match push cs c with
  | None => add_component c work = None
  | Some cs' => ∃ work', add_component c work = Some work' ∧ work_ok cs' work' ∧ Forall name_ok cs'
  end.
Proof.
  intros Hcs Hw Hc. unfold push, add_component.
  repeat case_bool_decide; [eauto| |].
  - eexists. split; [done|]. split; [by apply go_up_work|by apply Forall_take].
  - rewrite (append_work cs work c Hcs Hw Hc). case_if; [done|].
    eexists. split; [done|]. split; [by left|]. apply Forall_app. split; [done|]. by apply Forall_singleton.
Qed.

Lemma process_push fuel p cs work :
  (length p < fuel)%nat → Forall name_ok cs → work_ok cs work →
  match push_all cs (components p) with
  | None => process fuel p work = None
  | Some cs' => ∃ work', process fuel p work = Some work' ∧ work_ok cs' work' ∧ Forall name_ok cs'
  end.
Proof.
  revert p cs work. induction fuel as [|fuel IH]; intros p cs work Hf Hcs Hw; [lia|].
  cbn [process]. unfold components. rewrite <- (skip_slashes_components p []) by done.
  pose proof (skip_slashes_length p) as Hlen.
  destruct (skip_slashes p) as [|x q] eqn:Eq; [simpl; eauto|].
  destruct (component (x :: q)) as [comp rest] eqn:Ec.
  destruct (components_step (x :: q) comp rest) as (Hok & Hcomp & Hlt); [done| |done|].
  { intros c q' [= <- <-]. by eapply skip_slashes_head. }
  fold (components (x :: q)). rewrite Hcomp. simpl push_all.
  pose proof (add_component_push cs work comp Hcs Hw Hok) as Hp.
  destruct (push cs comp) as [cs'|]; simpl; [|by rewrite Hp].
  destruct Hp as (work' & -> & Hw' & Hcs'). simpl. apply IH; [lia|done|done].
Qed.

Lemma trim_work cs work :
  Forall name_ok cs → work_ok cs work →
  trim (length work) (λ c, c =? SLASH) work = render cs ∧ (zlen work =? 0) = false.
Proof.
  intros Hcs Hw. destruct cs as [|c cs0 _] using rev_ind.
  { assert (work = [SLASH]) as -> by (by destruct Hw). done. }
  apply Forall_app in Hcs as [_ Hc]. rewrite Forall_singleton in Hc.
  assert (Hlast : (last_char (render (cs0 ++ [c])) =? SLASH) = false).
  { rewrite render_snoc. by apply Z.eqb_neq, last_char_name. }
  assert (Hne : render (cs0 ++ [c]) ≠ []) by (rewrite render_snoc; by destruct (body cs0)).
  pose proof (zlen_pos _ Hne).
  destruct Hw as [-> | ->]; [|rewrite <- render_body by (by destruct cs0)]; split.
  - rewrite <- (app_nil_r (render _)) at 2. apply trim_suffix; auto. simpl. lia.
  - apply Z.eqb_neq. lia.
  - apply trim_suffix; auto. rewrite length_app. simpl. lia.
  - apply Z.eqb_neq. rewrite zlen_app. pose proof (zlen_nonneg [SLASH]). lia.
Qed.

(** ** Normalisation *)

#[global] Arguments path_normalize : simpl never.

Definition normalize_ref (path : cstring) (cs0 : list cstring) (size : Z) : option cstring :=
  cs ← push_all (if char_at path 0 =? SLASH then [] else cs0) (components path);
  if size <=? zlen (render cs) then None else Some (render cs).

Lemma render_head cs : char_at (render cs) 0 = SLASH.
Proof. by destruct cs. Qed.

Lemma valid_name_ok c : valid_name c → name_ok c.
Proof. by intros (? & ? & _). Qed.
Lemma valid_names_ok cs : Forall valid_name cs → Forall name_ok cs.
Proof. intros H. eapply Forall_impl; [exact H|]. apply valid_name_ok. Qed.

Lemma start_path_work path cs0 :
  Forall name_ok cs0 → zlen (render cs0) < 255 →
  ∃ work, start_path path (Some (render cs0)) = Some work
          ∧ work_ok (if char_at path 0 =? SLASH then [] else cs0) work.
Proof.
  intros Hcs Hlen. unfold start_path. rewrite render_head, Z.eqb_refl.
  destruct (char_at path 0 =? SLASH); [exists [SLASH]; split; [done|by left]|].
  rewrite (proj2 (Z.leb_gt _ _)) by (unfold VFS_MAX_PATH; lia).
  pose proof (add_slash_work cs0 (render cs0) Hcs (or_introl eq_refl)) as Ha.
  rewrite (proj2 (Z.leb_gt _ _)) in Ha.
  - rewrite Ha. eexists. split; [done|]. by right.
  - destruct cs0; [done|]. rewrite render_body in Hlen by done. unfold VFS_MAX_PATH. lia.
Qed.

Lemma normalize_eq path cs0 size :
  Forall name_ok cs0 → zlen (render cs0) < 255 → 0 < size →
  path_normalize (Some path) (Some (render cs0)) size = normalize_ref path cs0 size.
Proof.
  intros Hcs Hlen Hsize. unfold path_normalize, normalize_ref.
  rewrite (proj2 (Z.eqb_neq size 0)) by lia.
  destruct (start_path_work path cs0 Hcs Hlen) as (work & -> & Hw). rewrite bind_Some_eq.
  set (cs1 := if char_at path 0 =? SLASH then [] else cs0) in *.
  set (p := if char_at path 0 =? SLASH then drop 1 path else path).
  assert (Hp : components p = components path).
  { unfold p. destruct (char_at path 0 =? SLASH) eqn:E; [|done].
    destruct path as [|c path]; [done|]. unfold components. simpl.
    unfold char_at in E. simpl in E. rewrite E. by rewrite drop_0. }
  assert (Hcs1 : Forall name_ok cs1) by (unfold cs1; by destruct (_ =? _)).
  pose proof (process_push (S (length p)) p cs1 work ltac:(lia) Hcs1 Hw) as Hproc.
  rewrite Hp in Hproc. cbv zeta. fold p. destruct (push_all cs1 (components path)) as [cs|].
  - destruct Hproc as (work' & -> & Hw' & Hok). rewrite !bind_Some_eq.
    destruct (trim_work cs work' Hok Hw') as [Ht ->]. by rewrite Ht.
  - by rewrite Hproc.
Qed.

(** C23. [path_normalize] equals the reference on a stack of components: from the
    root for an absolute path and from the current directory otherwise, it
    pushes names, skips ["."] and pops on [".."] (never above the root), and
    fails exactly when a prefix reaches 256 bytes or the result does not fit
    the buffer. *)
Theorem path_normalize_spec path cs0 size :
  Forall valid_name cs0 → zlen (render cs0) < 255 → 0 < size →
  path_normalize (Some path) (Some (render cs0)) size = normalize_ref path cs0 size.
Proof. intros ?%valid_names_ok. by apply normalize_eq. Qed.

Lemma push_valid cs c cs' :
  Forall valid_name cs → name_ok c → 0 ∉ c → push cs c = Some cs' → Forall valid_name cs'.
Proof.
  intros Hcs [Hne Hs] H0. unfold push. repeat case_bool_decide.
  - by intros [= <-].
  - intros [= <-]. by apply Forall_take.
  - case_if; [done|]. intros [= <-]. apply Forall_app. split; [done|]. by apply Forall_singleton.
Qed.

Lemma push_all_valid l cs cs' :
  Forall valid_name cs → Forall name_ok l → Forall (λ c, 0 ∉ c) l →
  push_all cs l = Some cs' → Forall valid_name cs'.
Proof.
  intros Hcs Hl. revert cs Hcs. induction Hl as [|c l Hc Hl IH]; intros cs Hcs H0; simpl.
  { by intros [= <-]. }
  inversion_clear H0 as [|? ? Hc0 Hl0]. destruct (push cs c) as [cs1|] eqn:E; [|done]. simpl.
  apply IH; [|done]. by eapply push_valid.
Qed.

Lemma components_no_nul p : 0 ∉ p → Forall (λ c, 0 ∉ c) (components p).
Proof.
  unfold components. intros Hp.
  assert (Hg : ∀ acc, 0 ∉ acc → Forall (λ c, 0 ∉ c) (split_at acc p)); [|apply Hg; set_solver].
  induction p as [|c p IH]; intros acc Ha; simpl.
  - destruct acc; [done|]. by repeat constructor.
  - destruct (c =? SLASH).
    + destruct acc; [apply IH; set_solver|]. constructor; [done|apply IH; set_solver].
    + apply IH; set_solver.
Qed.

Lemma components_body cs : Forall name_ok cs → components (body cs) = cs.
Proof.
  intros H. assert (Hg : ∀ c cs, name_ok c → Forall name_ok cs →
    split_at [] (c ++ body cs) = c :: cs).
  { clear. intros c cs. revert c. induction cs as [|d cs IH]; intros c [Hne Hc] Hcs.
    - rewrite split_at_component by done. simpl. by destruct c.
    - rewrite split_at_component by done. simpl. inversion_clear Hcs.
      destruct c; [done|]. f_equal. by apply IH. }
  destruct H as [|c cs Hc Hcs]; [done|]. unfold components, body. simpl. by apply Hg.
Qed.

Lemma components_render cs : Forall name_ok cs → components (render cs) = cs.
Proof.
  intros H. destruct cs as [|c cs]; [done|]. rewrite render_body by done. by apply components_body.
Qed.

Lemma zlen_render_prefix cs c l :
  Forall name_ok (c :: l) → zlen (render (cs ++ [c])) <= zlen (render (cs ++ c :: l)).
Proof.
  intros _. replace (cs ++ c :: l) with ((cs ++ [c]) ++ l) by (by rewrite <- app_assoc).
  rewrite !render_body by (by destruct cs). unfold body. rewrite (fmap_app _ (cs ++ [c])), concat_app, zlen_app.
  pose proof (zlen_nonneg (concat ((λ c, SLASH :: c) <$> l))). lia.
Qed.

Lemma push_all_names cs l :
  Forall valid_name l → zlen (render (cs ++ l)) < VFS_MAX_PATH → push_all cs l = Some (cs ++ l).
Proof.
  revert cs. induction l as [|c l IH]; intros cs Hl Hlen; simpl; [by rewrite app_nil_r|].
  inversion_clear Hl as [|? ? Hc Hl']. pose proof Hc as (_ & _ & _ & Hd & Hdd).
  pose proof (zlen_render_prefix cs c l (valid_names_ok _ (Forall_cons_2 _ _ _ Hc Hl'))).
  unfold push. rewrite !bool_decide_false by done. rewrite (proj2 (Z.leb_gt _ _)) by lia.
  simpl. rewrite IH by (try done; by rewrite <- app_assoc). by rewrite <- app_assoc.
Qed.

(** What [path_normalize] returns is canonical (absolute, no empty, ["."] or
    [".."] component, no trailing separator), shorter than the buffer, and
    normalising it again, from any directory, returns it unchanged. *)
Theorem path_normalize_idempotent path cs0 cs1 size s :
  0 ∉ path → Forall valid_name cs0 → Forall valid_name cs1 →
  zlen (render cs0) < 255 → zlen (render cs1) < 255 → 0 < size <= VFS_MAX_PATH →
  path_normalize (Some path) (Some (render cs0)) size = Some s →
  canonical s ∧ zlen s < size
  ∧ path_normalize (Some s) (Some (render cs1)) size = Some s.
Proof.
  intros H0 Hcs0 Hcs1 Hl0 Hl1 Hsize.
  rewrite normalize_eq by (try apply valid_names_ok; done || lia). unfold normalize_ref.
  destruct (push_all _ (components path)) as [cs|] eqn:E; simpl; [|done].
  assert (Hcs : Forall valid_name cs).
  { eapply push_all_valid; [|apply components_ok|by apply components_no_nul|exact E]. by case_if. }
  destruct (size <=? zlen (render cs)) eqn:Es; [done|]. intros [= <-]. to_prop.
  split_and!; [by exists cs|done|].
  rewrite normalize_eq by (try apply valid_names_ok; done || lia). unfold normalize_ref.
  rewrite render_head, Z.eqb_refl, components_render by (by apply valid_names_ok).
  rewrite (push_all_names [] cs Hcs) by (simpl; lia). simpl.
  by rewrite (proj2 (Z.leb_gt _ _)) by lia.
Qed.

(** ** Splitting and joining *)

Lemma last_slash_app i found s t :
  SLASH ∉ t → last_slash i found (s ++ t) = last_slash i found s.
Proof.
  revert i found. induction s as [|c s IH]; intros i found Ht; simpl; [|by apply IH].
  revert i. induction t as [|x t IHt]; intros i; simpl; [done|].
  rewrite (proj2 (Z.eqb_neq x SLASH)) by set_solver. apply IHt. set_solver.
Qed.

Lemma last_slash_snoc i found s : last_slash i found (s ++ [SLASH]) = Some (i + length s)%nat.
Proof.
  revert i found. induction s as [|c s IH]; intros i found; simpl; [by rewrite Nat.add_0_r|].
  rewrite IH. f_equal. lia.
Qed.

Lemma last_slash_name s c : SLASH ∉ c → last_slash 0 None (s ++ SLASH :: c) = Some (length s).
Proof.
  intros Hc. replace (s ++ SLASH :: c) with ((s ++ [SLASH]) ++ c) by (by rewrite <- app_assoc).
  rewrite last_slash_app by done. apply last_slash_snoc.
Qed.

(** Joining a canonical directory and a valid name gives the canonical path
    of the name in that directory, and [path_dirname] and [path_basename] take
    that path apart into the directory and the name again. *)
Theorem path_join_split ds n size :
  Forall valid_name ds → valid_name n → zlen (render (ds ++ [n])) < size →
  let p := render (ds ++ [n]) in
  path_join (Some (render ds)) (Some n) size = Some p
  ∧ path_dirname (Some p) size = Some (render ds)
  ∧ path_basename (Some p) = n.
Proof.
  intros Hds Hn Hlen. pose proof Hn as (Hne & Hs & H0 & _). cbv zeta.
  pose proof (zlen_nonneg (body ds)). pose proof (zlen_pos n Hne).
  rewrite render_snoc in *. rewrite zlen_app, zlen_cons in Hlen.
  assert (Hhead : char_at n 0 ≠ SLASH ∧ char_at n 0 ≠ 0).
  { destruct n as [|x n]; [done|]. unfold char_at. simpl. set_solver. }
  assert (Hsz : (size =? 0) = false) by (apply Z.eqb_neq; lia).
  split_and!.
  - unfold path_join. rewrite Hsz, (proj2 (Z.eqb_neq _ _) (proj1 Hhead)). cbn [negb].
    rewrite andb_true_r. destruct ds as [|d ds0 _] using rev_ind.
    + simpl. rewrite (proj2 (Z.leb_gt _ _)); [done|]. unfold zlen in *. simpl in *. lia.
    + apply Forall_app in Hds as [_ Hd]. rewrite Forall_singleton in Hd.
      rewrite render_body in * by (by destruct ds0). rewrite (proj2 (Z.ltb_lt 0 _)).
      2: { rewrite body_snoc, zlen_app, zlen_cons. pose proof (zlen_nonneg (body ds0)).
           pose proof (zlen_nonneg d). lia. }
      fold (last_char (body (ds0 ++ [d]))). rewrite body_snoc.
      rewrite (proj2 (Z.eqb_neq _ _) (last_char_name (body ds0) d (valid_name_ok _ Hd))).
      cbn [negb andb]. rewrite <- body_snoc. by rewrite (proj2 (Z.leb_gt _ _)) by lia.
  - unfold path_dirname. rewrite Hsz, last_slash_name by done.
    destruct (body ds ++ SLASH :: n) as [|x q] eqn:Eq; [by destruct (body ds)|]. rewrite <- Eq. clear Eq x q.
    destruct ds as [|d ds0].
    + simpl. by rewrite (proj2 (Z.ltb_ge _ _)) by lia.
    + rewrite render_body by done. destruct (length (body (d :: ds0))) as [|k] eqn:Ek; [done|].
      rewrite <- Ek. unfold zlen in *. rewrite (proj2 (Z.leb_gt _ _)) by lia. by rewrite take_app_length.
  - unfold path_basename. rewrite last_slash_name by done.
    destruct (body ds ++ SLASH :: n) as [|x q] eqn:Eq; [by destruct (body ds)|]. rewrite <- Eq. clear Eq x q.
    assert (Hat : char_at (body ds ++ SLASH :: n) (S (length (body ds))) = char_at n 0).
    { unfold char_at. rewrite lookup_app_r by lia.
      by replace (S (length (body ds)) - length (body ds))%nat with 1%nat by lia. }
    rewrite Hat, (proj2 (Z.eqb_neq _ _) (proj2 Hhead)).
    replace (body ds ++ SLASH :: n) with ((body ds ++ [SLASH]) ++ n) by (by rewrite <- app_assoc).
    replace (S (length (body ds))) with (length (body ds ++ [SLASH])) by (rewrite length_app; simpl; lia).
    by rewrite drop_app_length.
Qed.

(** ** Witnesses *)

(** "a", "bc" and the path "x/./..//bc/" *)
Definition name_a : cstring := [97].
Definition name_bc : cstring := [98; 99].
Definition sample_path : cstring := [120; 47; 46; 47; 46; 46; 47; 47; 98; 99; 47].

Lemma sample_names : Forall valid_name [name_a; name_bc].
Proof. repeat constructor; unfold name_a, name_bc, SLASH, DOT; try done; set_solver. Qed.

Lemma sample_dir : Forall valid_name [name_a].
Proof. apply Forall_singleton. by eapply Forall_inv, sample_names. Qed.

Lemma path_normalize_spec_witness :
  path_normalize (Some sample_path) (Some (render [name_a])) 256 = Some (render [name_a; name_bc]).
Proof.
  rewrite (path_normalize_spec sample_path [name_a] 256); 
    [reflexivity|exact sample_dir|reflexivity|reflexivity].
Defined.

Lemma path_normalize_idempotent_witness :
  path_normalize (Some (render [name_a; name_bc])) (Some (render [])) 256 = Some (render [name_a; name_bc]).
Proof.
  refine (proj2 (proj2 (path_normalize_idempotent sample_path [name_a] [] 256
    (render [name_a; name_bc]) _ _ _ _ _ _ _))); try reflexivity; try done.
  - unfold sample_path. set_solver.
  - exact sample_dir.
Defined.

Lemma path_join_split_witness :
  path_basename (Some (render [name_a; name_bc])) = name_bc.
Proof.
  refine (proj2 (proj2 (path_join_split [name_a] name_bc 256 sample_dir _ eq_refl))).
  exact (Forall_inv (Forall_inv_tail sample_names)).
Defined.
