(* ===== verification/Keyboard.v ===== *)
(** * PS/2 keyboard driver: drivers/keyboard/keyboard.c

    The state is the driver's static variables.  The interrupt handler is a
    function of the scancode read from the data port; a blocking read is a
    function of the scancodes that arrive while it waits.

    The ring buffer refines a queue of at most 255 characters: characters come
    out in the order in which their keys were pressed, and one is lost only
    when 255 are waiting.  Caps Lock and Shift together determine the case of
    letters and nothing else. *)

From Stdlib Require Import ZArith Lia.
From stdpp Require Import base numbers list.
From S2P Require Import Prelude.

Definition KB_BUFFER_SIZE : Z := 256.
Definition KB_RELEASE_BIT : Z := 0x80.
Definition KB_SC_LSHIFT : Z := 0x2A.
Definition KB_SC_RSHIFT : Z := 0x36.
Definition KB_SC_CTRL : Z := 0x1D.
Definition KB_SC_ALT : Z := 0x38.
Definition KB_SC_CAPS : Z := 0x3A.

Definition scancode_ascii : list Z :=
  [0; 27; 49; 50; 51; 52; 53; 54;
   55; 56; 57; 48; 45; 61; 8; 9;
   113; 119; 101; 114; 116; 121; 117; 105;
   111; 112; 91; 93; 10; 0; 97; 115;
   100; 102; 103; 104; 106; 107; 108; 59;
   39; 96; 0; 92; 122; 120; 99; 118;
   98; 110; 109; 44; 46; 47; 0; 42;
   0; 32; 0; 0; 0; 0; 0; 0;
   0; 0; 0; 0; 0; 0; 0; 55;
   56; 57; 45; 52; 53; 54; 43; 49;
   50; 51; 48; 46; 0; 0; 0; 0;
   0; 0; 0; 0; 0; 0; 0; 0;
   0; 0; 0; 0; 0; 0; 0; 0;
   0; 0; 0; 0; 0; 0; 0; 0;
   0; 0; 0; 0; 0; 0; 0; 0;
   0; 0; 0; 0; 0; 0; 0; 0].

Definition scancode_ascii_shift : list Z :=
  [0; 27; 33; 64; 35; 36; 37; 94;
   38; 42; 40; 41; 95; 43; 8; 9;
   81; 87; 69; 82; 84; 89; 85; 73;
   79; 80; 123; 125; 10; 0; 65; 83;
   68; 70; 71; 72; 74; 75; 76; 58;
   34; 126; 0; 124; 90; 88; 67; 86;
   66; 78; 77; 60; 62; 63; 0; 42;
   0; 32; 0; 0; 0; 0; 0; 0;
   0; 0; 0; 0; 0; 0; 0; 55;
   56; 57; 45; 52; 53; 54; 43; 49;
   50; 51; 48; 46; 0; 0; 0; 0;
   0; 0; 0; 0; 0; 0; 0; 0;
   0; 0; 0; 0; 0; 0; 0; 0;
   0; 0; 0; 0; 0; 0; 0; 0;
   0; 0; 0; 0; 0; 0; 0; 0;
   0; 0; 0; 0; 0; 0; 0; 0].

Record keyboard := Keyboard {
  key_buffer : list Z;
  buffer_head : Z;
  buffer_tail : Z;
  shift_pressed : bool;
  ctrl_pressed : bool;
  alt_pressed : bool;
  caps_lock : bool
}.

Definition with_buffer (k : keyboard) (buf : list Z) (head tail : Z) : keyboard :=
  Keyboard buf head tail (shift_pressed k) (ctrl_pressed k) (alt_pressed k) (caps_lock k).

(** ** The ring buffer *)

Definition buffer_empty (k : keyboard) : bool := buffer_head k =? buffer_tail k.

Definition buffer_full (k : keyboard) : bool :=
  ((buffer_head k +64 1) mod KB_BUFFER_SIZE) =? buffer_tail k.

Definition buffer_put (k : keyboard) (c : Z) : keyboard :=
  if negb (buffer_full k) then
    with_buffer k (<[Z.to_nat (buffer_head k) := c]> (key_buffer k))
      ((buffer_head k +64 1) mod KB_BUFFER_SIZE) (buffer_tail k)
  else k.

Definition buffer_get (k : keyboard) : Z * keyboard :=
  if buffer_empty k then (0, k)
  else
    let c := default 0 (key_buffer k !! Z.to_nat (buffer_tail k)) in
    (c, with_buffer k (key_buffer k) (buffer_head k) ((buffer_tail k +64 1) mod KB_BUFFER_SIZE)).

(** ** The interrupt handler *)

(** The character of a pressed key, 0 for none. *)
Definition key_ascii (shift caps : bool) (key : Z) : Z :=
  let use_shift :=
    if caps && (0x10 <=? key) && (key <=? 0x19) then negb shift
    else if caps && (0x1E <=? key) && (key <=? 0x26) then negb shift
    else if caps && (0x2C <=? key) && (key <=? 0x32) then negb shift
    else shift in
  if use_shift then default 0 (scancode_ascii_shift !! Z.to_nat key)
  else default 0 (scancode_ascii !! Z.to_nat key).

Definition keyboard_irq_handler (k : keyboard) (scancode : Z) : keyboard :=
  let released := negb (Z.land scancode KB_RELEASE_BIT =? 0) in
  let key := Z.land scancode 0x7F in
  if (key =? KB_SC_LSHIFT) || (key =? KB_SC_RSHIFT) then
    Keyboard (key_buffer k) (buffer_head k) (buffer_tail k) (negb released) (ctrl_pressed k)
      (alt_pressed k) (caps_lock k)
  else if key =? KB_SC_CTRL then
    Keyboard (key_buffer k) (buffer_head k) (buffer_tail k) (shift_pressed k) (negb released)
      (alt_pressed k) (caps_lock k)
  else if key =? KB_SC_ALT then
    Keyboard (key_buffer k) (buffer_head k) (buffer_tail k) (shift_pressed k) (ctrl_pressed k)
      (negb released) (caps_lock k)
  else if key =? KB_SC_CAPS then
    Keyboard (key_buffer k) (buffer_head k) (buffer_tail k) (shift_pressed k) (ctrl_pressed k)
      (alt_pressed k) (if negb released then negb (caps_lock k) else caps_lock k)
  else if released then k
  else
    let ascii := key_ascii (shift_pressed k) (caps_lock k) key in
    if negb (ascii =? 0) then buffer_put k ascii else k.

(** [keyboard_init]; the drain loop reads the controller's pending bytes and
    leaves none. *)
Definition keyboard_init (k : keyboard) (pending : list Z) : keyboard * list Z :=
  (Keyboard (key_buffer k) 0 0 false false false false, []).

Definition keyboard_has_key (k : keyboard) : bool := negb (buffer_empty k).
Definition keyboard_getchar_nonblock (k : keyboard) : Z * keyboard := buffer_get k.

(** [keyboard_getchar] halts until an interrupt has filled the buffer.  The
    result has the scancodes not yet delivered; [None] is a read that still
    waits after the last of them. *)
Fixpoint keyboard_getchar (k : keyboard) (irqs : list Z) : option (Z * keyboard * list Z) :=
  if buffer_empty k then
    match irqs with
    | [] => None
    | sc :: irqs => keyboard_getchar (keyboard_irq_handler k sc) irqs
    end
  else Some (buffer_get k, irqs).

(** ** The queue the buffer stands for *)

Record kb_wf (k : keyboard) : Prop := {
  kb_len : length (key_buffer k) = 256%nat;
  kb_head : 0 <= buffer_head k < 256;
  kb_tail : 0 <= buffer_tail k < 256
}.

Definition queue_length (k : keyboard) : Z := (buffer_head k - buffer_tail k) mod 256.

Definition slot (k : keyboard) (i : Z) : Z :=
  default 0 (key_buffer k !! Z.to_nat ((buffer_tail k + i) mod 256)).

Definition contents (k : keyboard) : list Z := slot k <$> seqZ 0 (queue_length k).

(** The specification: a queue that drops what does not fit. *)
Definition enqueue (q : list Z) (c : Z) : list Z := if (length q <? 255)%nat then q ++ [c] else q.

Lemma queue_length_range k : 0 <= queue_length k < 256.
Proof. apply Z.mod_pos_bound. lia. Qed.

Lemma length_contents k : length (contents k) = Z.to_nat (queue_length k).
Proof. unfold contents. by rewrite length_fmap, length_seqZ. Qed.

(** Modular arithmetic on buffer positions. *)
Lemma wrap_cases a : 0 <= a < 512 → a mod 256 = if a <? 256 then a else a - 256.
Proof.
  intros Ha. destruct (a <? 256) eqn:E; to_prop; [apply Z.mod_small; lia|].
  symmetry. apply (Z.mod_unique_pos a 256 1); lia.
Qed.

Lemma sub_wrap_cases a b :
  0 <= a < 256 → 0 <= b < 256 → (a - b) mod 256 = if b <=? a then a - b else a - b + 256.
Proof.
  intros Ha Hb. destruct (b <=? a) eqn:E; to_prop; [apply Z.mod_small; lia|].
  symmetry. apply (Z.mod_unique_pos (a - b) 256 (-1)); lia.
Qed.

Ltac wrap :=
  repeat (first [rewrite wrap_cases by lia | rewrite sub_wrap_cases by lia]);
  repeat case_if; to_prop.

Section buffer.
Context (k : keyboard) (Hwf : kb_wf k).

Lemma empty_contents : buffer_empty k = true ↔ contents k = [].
Proof using Hwf.
  destruct Hwf as [_ Hh Ht]. rewrite <- length_zero_iff_nil, length_contents.
  unfold buffer_empty, queue_length. rewrite Z.eqb_eq. rewrite sub_wrap_cases by lia. case_if; zsolve.
Qed.

Lemma full_contents : buffer_full k = true ↔ length (contents k) = 255%nat.
Proof using Hwf.
  destruct Hwf as [_ Hh Ht]. rewrite length_contents. unfold buffer_full, queue_length, KB_BUFFER_SIZE.
  rewrite Z.eqb_eq, u64_id by lia. rewrite wrap_cases, sub_wrap_cases by lia. repeat case_if; zsolve.
Qed.

Lemma put_wf c : kb_wf (buffer_put k c).
Proof using Hwf.
  destruct Hwf as [Hl Hh Ht]. unfold buffer_put. destruct (negb (buffer_full k)); [|by split].
  split; simpl; [by rewrite length_insert| |done]. unfold KB_BUFFER_SIZE. apply Z.mod_pos_bound. lia.
Qed.

Lemma put_contents c : contents (buffer_put k c) = enqueue (contents k) c.
Proof using Hwf.
  pose proof full_contents as Hfull. pose proof (queue_length_range k) as Hq.
  unfold enqueue, buffer_put. rewrite length_contents in *.
  destruct (buffer_full k) eqn:Ef; simpl.
  { rewrite (proj1 Hfull eq_refl). done. }
  assert (Hlt : queue_length k < 255).
  { destruct (decide (queue_length k = 255)) as [E|]; [|lia].
    rewrite E in Hfull. discriminate (proj2 Hfull eq_refl). }
  rewrite (proj2 (Nat.ltb_lt _ _)) by lia.
  destruct Hwf as [Hl Hh Ht]. unfold contents at 1.
  assert (Hn : queue_length (with_buffer k (<[Z.to_nat (buffer_head k):=c]> (key_buffer k))
      ((buffer_head k +64 1) mod KB_BUFFER_SIZE) (buffer_tail k)) = queue_length k + 1).
  { unfold queue_length in *. simpl. unfold KB_BUFFER_SIZE. rewrite u64_id by lia.
    rewrite sub_wrap_cases in Hlt |- * by (lia || apply Z.mod_pos_bound; lia).
    rewrite (sub_wrap_cases _ (buffer_tail k)) by lia.
    rewrite wrap_cases in * by lia. repeat case_if; zsolve. }
  rewrite Hn, seqZ_app, fmap_app by lia. f_equal.
  - unfold contents. apply list_fmap_ext. intros i x Hx. apply lookup_seqZ in Hx as [-> Hi].
    unfold slot. simpl. rewrite list_lookup_insert_ne; [done|]. intros E.
    apply Z2Nat.inj in E; [|lia|apply Z.mod_pos_bound; lia].
    unfold queue_length in *. rewrite sub_wrap_cases in Hi, Hlt by lia.
    destruct (buffer_tail k <=? buffer_head k) eqn:Ele; rewrite wrap_cases in E by zsolve;
      destruct (_ <? 256) eqn:E2; zsolve.
  - rewrite seqZ_cons, seqZ_nil by lia. simpl. f_equal. unfold slot. simpl.
    replace ((buffer_tail k + (0 + queue_length k)) mod 256) with (buffer_head k).
    + rewrite list_lookup_insert_eq by lia. done.
    + unfold queue_length in *. rewrite sub_wrap_cases in Hlt |- * by lia.
      destruct (buffer_tail k <=? buffer_head k) eqn:E; to_prop.
      * rewrite Z.mod_small; lia.
      * rewrite wrap_cases by lia. case_if; zsolve.
Qed.

Lemma get_wf : kb_wf (buffer_get k).2.
Proof using Hwf.
  destruct Hwf as [Hl Hh Ht]. unfold buffer_get. destruct (buffer_empty k); [by split|].
  split; simpl; [done|done|]. apply Z.mod_pos_bound. done.
Qed.

Lemma get_contents :
  match contents k with
  | [] => buffer_get k = (0, k)
  | c :: q => (buffer_get k).1 = c ∧ contents (buffer_get k).2 = q
  end.
Proof using Hwf.
  pose proof empty_contents as He. unfold buffer_get.
  destruct (buffer_empty k) eqn:Ee; [by rewrite (proj1 He eq_refl)|].
  destruct (contents k) as [|c q] eqn:Ec; [discriminate (proj2 He eq_refl)|]. clear He. simpl.
  pose proof (queue_length_range k) as Hq.
  assert (Hpos : 0 < queue_length k).
  { pose proof (length_contents k) as Hl. rewrite Ec in Hl. simpl in Hl. lia. }
  destruct Hwf as [Hl Hh Ht]. unfold contents in Ec. rewrite seqZ_cons in Ec by lia. simpl in Ec.
  injection Ec as <- <-. split.
  - unfold slot. rewrite Z.add_0_r, Z.mod_small by lia. done.
  - unfold contents. set (k' := with_buffer _ _ _ _).
    assert (Htail : buffer_tail k' = (buffer_tail k + 1) mod 256).
    { simpl. unfold KB_BUFFER_SIZE. by rewrite u64_id by lia. }
    replace (queue_length k') with (queue_length k - 1).
    + replace (seqZ 1 _) with (seqZ (1 + 0) (Z.pred (queue_length k))) by done.
      rewrite <- fmap_add_seqZ, <- list_fmap_compose.
      replace (Z.pred (queue_length k)) with (queue_length k - 1) by lia.
      apply list_fmap_ext. intros i x Hx. unfold slot. rewrite Htail. simpl.
      do 2 f_equal. rewrite Zplus_mod_idemp_l. do 2 f_equal. lia.
    + unfold queue_length in *. rewrite Htail. simpl. rewrite Zminus_mod_idemp_r.
      rewrite sub_wrap_cases in * by lia.
      destruct (buffer_tail k <=? buffer_head k) eqn:E; to_prop.
      * rewrite Z.mod_small; lia.
      * replace (buffer_head k - (buffer_tail k + 1)) with (buffer_head k - buffer_tail k + 256 - 1 + (-1) * 256) by lia.
        rewrite Z_mod_plus_full, Z.mod_small; lia.
Qed.

End buffer.

(** ** The driver as a queue *)

Definition is_modifier (key : Z) : bool :=
  (key =? KB_SC_LSHIFT) || (key =? KB_SC_RSHIFT) || (key =? KB_SC_CTRL) || (key =? KB_SC_ALT)
  || (key =? KB_SC_CAPS).

(** The character a scancode types, given the modifier state. *)
Definition typed (k : keyboard) (scancode : Z) : option Z :=
  let key := Z.land scancode 0x7F in
  let c := key_ascii (shift_pressed k) (caps_lock k) key in
  if is_modifier key || negb (Z.land scancode KB_RELEASE_BIT =? 0) || (c =? 0) then None else Some c.

Lemma handler_contents k sc :
  kb_wf k →
  kb_wf (keyboard_irq_handler k sc)
  ∧ contents (keyboard_irq_handler k sc)
    = match typed k sc with Some c => enqueue (contents k) c | None => contents k end.
Proof.
  intros Hwf. pose proof Hwf as [Hl Hh Ht]. unfold keyboard_irq_handler, typed, is_modifier. cbv zeta.
  set (key := Z.land sc 0x7F).
  destruct (key =? KB_SC_LSHIFT); [split; [by split|done]|]. destruct (key =? KB_SC_RSHIFT); [split; [by split|done]|].
  destruct (key =? KB_SC_CTRL); [split; [by split|done]|]. destruct (key =? KB_SC_ALT); [split; [by split|done]|].
  destruct (key =? KB_SC_CAPS); [split; [by split|done]|]. simpl.
  destruct (Z.land sc KB_RELEASE_BIT =? 0); simpl; [|done].
  destruct (key_ascii _ _ _ =? 0); simpl; [done|].
  split; [by apply put_wf|by apply put_contents].
Qed.

(** What happens to the driver: an interrupt, or a read. *)
Inductive kb_event := Irq (scancode : Z) | Read.

(** The characters an event adds to the buffer; a full buffer takes none. *)
Definition accepted (k : keyboard) (ev : kb_event) : list Z :=
  match ev with
  | Irq sc => match typed k sc with
              | Some c => if (length (contents k) <? 255)%nat then [c] else []
              | None => []
              end
  | Read => []
  end.

Definition kb_step (k : keyboard) (ev : kb_event) : keyboard * list Z :=
  match ev with
  | Irq sc => (keyboard_irq_handler k sc, [])
  | Read => if keyboard_has_key k then
              let '(c, k) := keyboard_getchar_nonblock k in (k, [c])
            else (k, [])
  end.

(** Final state, characters read and characters accepted of a run. *)
Fixpoint kb_run (k : keyboard) (evs : list kb_event) : keyboard * list Z * list Z :=
  match evs with
  | [] => (k, [], [])
  | ev :: evs =>
      let '(k1, r1) := kb_step k ev in
      let '(k2, r2, a2) := kb_run k1 evs in
      (k2, r1 ++ r2, accepted k ev ++ a2)
  end.

Lemma kb_step_spec k ev k' r :
  kb_wf k → kb_step k ev = (k', r) →
  kb_wf k' ∧ r ++ contents k' = contents k ++ accepted k ev.
Proof.
  intros Hwf. destruct ev as [sc|]; simpl.
  - intros [= <- <-]. destruct (handler_contents k sc Hwf) as [? ->]. split; [done|].
    unfold enqueue. destruct (typed k sc); simpl; [|by rewrite app_nil_r].
    case_if; simpl; [done|by rewrite app_nil_r].
  - unfold keyboard_has_key, keyboard_getchar_nonblock.
    pose proof (get_contents k Hwf) as Hg. pose proof (get_wf k Hwf) as Hw.
    pose proof (empty_contents k Hwf) as He. rewrite app_nil_r.
    destruct (contents k) as [|c q] eqn:Ec.
    + rewrite (proj2 He eq_refl). simpl. intros [= <- <-]. by rewrite Ec.
    + destruct (buffer_empty k); [discriminate (proj1 He eq_refl)|]. simpl.
      destruct (buffer_get k) as [c' k1]. intros [= <- <-]. destruct Hg as [<- <-]. done.
Qed.

(** C26. The driver is a first-in first-out queue over any interleaving of
    interrupts and reads: the characters read, followed by those still in the
    buffer, are the characters that were in the buffer at the start followed by
    those accepted since, in order; and at most 255 wait. *)
Theorem keyboard_fifo k evs k' reads acc :
  kb_wf k → kb_run k evs = (k', reads, acc) →
  kb_wf k' ∧ reads ++ contents k' = contents k ++ acc ∧ (length (contents k') <= 255)%nat.
Proof.
  intros Hwf E. assert (kb_wf k' ∧ reads ++ contents k' = contents k ++ acc) as [? ?].
  2: { split_and!; [done..|]. rewrite length_contents. pose proof (queue_length_range k'). lia. }
  revert k k' reads acc Hwf E. induction evs as [|ev evs IH]; intros k k' reads acc Hwf; simpl.
  { intros [= <- <- <-]. by rewrite app_nil_r. }
  destruct (kb_step k ev) as [k1 r1] eqn:Es. destruct (kb_run k1 evs) as [[k2 r2] a2] eqn:Er.
  intros [= <- <- <-]. destruct (kb_step_spec k ev k1 r1 Hwf Es) as [Hwf1 H1].
  destruct (IH k1 k2 r2 a2 Hwf1 Er) as [Hwf2 H2]. split; [done|].
  by rewrite <- app_assoc, H2, app_assoc, H1, <- app_assoc.
Qed.

(** ** Letters *)

Definition is_letter (c : Z) : bool := (97 <=? c) && (c <=? 122).

Definition letter_case_ok (shift caps : bool) (key : Z) : bool :=
  let base := default 0 (scancode_ascii !! Z.to_nat key) in
  if is_letter base
  then key_ascii shift caps key =? (if xorb shift caps then base - 32 else base)
  else key_ascii shift caps key =? key_ascii shift false key.

(** For every key, a letter comes out in upper case exactly when one of
    Shift and Caps Lock is active, and Caps Lock does not affect any key that
    is not a letter. *)
Theorem keyboard_letter_case shift caps key :
  0 <= key < 128 →
  let base := default 0 (scancode_ascii !! Z.to_nat key) in
  if is_letter base
  then key_ascii shift caps key = (if xorb shift caps then base - 32 else base)
  else key_ascii shift caps key = key_ascii shift false key.
Proof.
  intros Hk.
  assert (Hall : forallb (letter_case_ok shift caps) (seqZ 0 128) = true)
    by (destruct shift, caps; vm_compute; reflexivity).
  rewrite forallb_forall in Hall. specialize (Hall key). unfold letter_case_ok in Hall. cbv zeta in *.
  destruct (is_letter _); apply Z.eqb_eq, Hall, list_elem_of_In, elem_of_seqZ; lia.
Qed.

(** ** Witnesses *)

Definition idle_keyboard : keyboard := (keyboard_init (Keyboard (repeat 0 256) 7 9 true true true true) []).1.

(** Shift, h, release Shift, i, then three reads. *)
Definition sample_events : list kb_event := [Irq 0x2A; Irq 0x23; Irq 0xAA; Irq 0x17; Read; Read; Read].

Lemma keyboard_fifo_witness :
  (kb_run idle_keyboard sample_events).1.2 = [72; 105]
  ∧ kb_wf (kb_run idle_keyboard sample_events).1.1.
Proof.
  split; [reflexivity|].
  refine (proj1 (keyboard_fifo idle_keyboard sample_events _ _ _ _
    (eq_trans (surjective_pairing _) (f_equal2 pair (surjective_pairing _) eq_refl)))).
  by split.
Defined.

Lemma keyboard_letter_case_witness : key_ascii true true 0x1E = 97.
Proof. exact (keyboard_letter_case true true 0x1E ltac:(lia)). Defined.
