(* ===== verification/Vga.v ===== *)
(** * VGA text console: kernel/drivers/vga/vga.c

    The text buffer is a map from cell numbers to 16-bit cells; the bytes sent
    to I/O ports (the serial mirror and the cursor registers) are recorded in
    order, and the values read from ports are arguments.  Characters are bytes;
    [char] is signed, so that a byte above 127 is below [' '].  Waiting for the
    serial transmitter is not modelled.

    The reference is a page that only grows downwards, of which the screen
    shows 25 rows: the console with its copying scroll is proved to show that
    window for every output.  Number printing is proved to produce the digits
    of its argument within its stack buffer. *)

From Stdlib Require Import ZArith Lia.
From stdpp Require Import base numbers list.
From S2P Require Import Prelude.

Definition VGA_WIDTH : Z := 80.
Definition VGA_HEIGHT : Z := 25.
Definition VGA_CTRL_REGISTER : Z := 0x3D4.
Definition VGA_DATA_REGISTER : Z := 0x3D5.
Definition SERIAL_PORT : Z := 0x3F8.

Definition VGA_COLOR_BLACK : Z := 0.
Definition VGA_COLOR_LIGHT_GREY : Z := 7.

Record console := Console {
  vga_buffer : Z → Z;
  cursor_x : Z;
  cursor_y : Z;
  current_color : Z;
  serial_initialized : bool;
  outs : list (Z * Z)
}.

Definition set_buffer (c : console) (b : Z → Z) : console :=
  Console b (cursor_x c) (cursor_y c) (current_color c) (serial_initialized c) (outs c).
Definition set_xy (c : console) (x y : Z) : console :=
  Console (vga_buffer c) x y (current_color c) (serial_initialized c) (outs c).
Definition set_color (c : console) (v : Z) : console :=
  Console (vga_buffer c) (cursor_x c) (cursor_y c) v (serial_initialized c) (outs c).
Definition outb (port value : Z) (c : console) : console :=
  Console (vga_buffer c) (cursor_x c) (cursor_y c) (current_color c) (serial_initialized c)
    (outs c ++ [(port, u8 value)]).

Definition vga_make_color (fg bg : Z) : Z := u8 (Z.lor fg (Z.shiftl bg 4)).

(** [(uint16_t)c] of a signed character extends its sign. *)
Definition i8 (c : Z) : Z := (c + 128) mod 256 - 128.
Definition vga_make_entry (c color : Z) : Z := u16 (Z.lor (u16 (i8 c)) (Z.shiftl color 8)).
Definition vga_index (x y : Z) : Z := y * VGA_WIDTH + x.

Definition put_cell (c : console) (x y v : Z) : console :=
  set_buffer c (λ i, if i =? vga_index x y then v else vga_buffer c i).

(** ** Serial port *)

Definition serial_init (c : console) : console :=
  let c := outb (SERIAL_PORT + 1) 0x00 c in
  let c := outb (SERIAL_PORT + 3) 0x80 c in
  let c := outb (SERIAL_PORT + 0) 0x03 c in
  let c := outb (SERIAL_PORT + 1) 0x00 c in
  let c := outb (SERIAL_PORT + 3) 0x03 c in
  let c := outb (SERIAL_PORT + 2) 0xC7 c in
  let c := outb (SERIAL_PORT + 4) 0x0B c in
  Console (vga_buffer c) (cursor_x c) (cursor_y c) (current_color c) true (outs c).

Definition serial_putchar (c : console) (ch : Z) : console :=
  let c := if serial_initialized c then c else serial_init c in
  outb SERIAL_PORT ch c.

(** ** Screen *)

Definition vga_update_cursor (c : console) : console :=
  let pos := u16 (cursor_y c * VGA_WIDTH + cursor_x c) in
  let c := outb VGA_CTRL_REGISTER 0x0F c in
  let c := outb VGA_DATA_REGISTER (Z.land pos 0xFF) c in
  let c := outb VGA_CTRL_REGISTER 0x0E c in
  outb VGA_DATA_REGISTER (Z.land (Z.shiftr pos 8) 0xFF) c.

Definition clear_cells (c : console) (blank : Z) : console :=
  for_each 0 (VGA_WIDTH * VGA_HEIGHT) (λ i c, set_buffer c (λ j, if j =? i then blank else vga_buffer c j)) c.

Definition vga_clear (c : console) : console :=
  let blank := vga_make_entry 32 (current_color c) in
  let c := clear_cells c blank in
  vga_update_cursor (set_xy c 0 0).

(** [in1], [in2]: the values read from the data register. *)
Definition vga_enable_cursor (c : console) (enabled : bool) (in1 in2 : Z) : console :=
  if enabled then
    let c := outb VGA_CTRL_REGISTER 0x0A c in
    let c := outb VGA_DATA_REGISTER (Z.lor (Z.land in1 0xC0) 14) c in
    let c := outb VGA_CTRL_REGISTER 0x0B c in
    outb VGA_DATA_REGISTER (Z.lor (Z.land in2 0xE0) 15) c
  else outb VGA_DATA_REGISTER 0x20 (outb VGA_CTRL_REGISTER 0x0A c).

Definition vga_init (c : console) (in1 in2 : Z) : console :=
  let c := set_color c (vga_make_color VGA_COLOR_LIGHT_GREY VGA_COLOR_BLACK) in
  vga_enable_cursor (vga_clear c) true in1 in2.

Definition vga_set_color (c : console) (fg bg : Z) : console := set_color c (vga_make_color fg bg).

Definition vga_set_cursor (c : console) (x y : Z) : console :=
  let c := if (0 <=? x) && (x <? VGA_WIDTH) then set_xy c x (cursor_y c) else c in
  let c := if (0 <=? y) && (y <? VGA_HEIGHT) then set_xy c (cursor_x c) y else c in
  vga_update_cursor c.

(** The two loops of [vga_scroll]. *)
Definition scroll_rows (c : console) : console :=
  for_each 0 (VGA_HEIGHT - 1) (λ y c,
    for_each 0 VGA_WIDTH (λ x c, put_cell c x y (vga_buffer c (vga_index x (y + 1)))) c) c.
Definition clear_last_row (c : console) : console :=
  let blank := vga_make_entry 32 (current_color c) in
  for_each 0 VGA_WIDTH (λ x c, put_cell c x (VGA_HEIGHT - 1) blank) c.

Definition vga_scroll (c : console) : console :=
  let c := clear_last_row (scroll_rows c) in
  set_xy c (cursor_x c) (VGA_HEIGHT - 1).

(** The [switch] of [vga_putchar]. *)
Definition putchar_char (c : console) (ch : Z) : console :=
  if ch =? 10 then set_xy c 0 (cursor_y c + 1)
  else if ch =? 13 then set_xy c 0 (cursor_y c)
  else if ch =? 9 then set_xy c (Z.land (cursor_x c + 8) (Z.lnot 7)) (cursor_y c)
  else if ch =? 8 then
    if 0 <? cursor_x c then
      let c := set_xy c (cursor_x c - 1) (cursor_y c) in
      put_cell c (cursor_x c) (cursor_y c) (vga_make_entry 32 (current_color c))
    else c
  else if 32 <=? i8 ch then
    let c := put_cell c (cursor_x c) (cursor_y c) (vga_make_entry ch (current_color c)) in
    set_xy c (cursor_x c + 1) (cursor_y c)
  else c.

Definition vga_putchar (c : console) (ch : Z) : console :=
  let c := serial_putchar c ch in
  let c := putchar_char c ch in
  let c := if VGA_WIDTH <=? cursor_x c then set_xy c 0 (cursor_y c + 1) else c in
  let c := if VGA_HEIGHT <=? cursor_y c then vga_scroll c else c in
  vga_update_cursor c.

Definition vga_puts (c : console) (str : list Z) : console := foldl vga_putchar c str.
Definition vga_println (c : console) (str : list Z) : console := vga_putchar (vga_puts c str) 10.

(** ** Numbers *)

(** The digits in the order they are produced, least significant first. *)
Definition dec_step (st : Z * list Z) : ctl (Z * list Z) (list Z) :=
  let '(value, buf) := st in
  if 0 <? value then Next (value / 10, buf ++ [48 + value mod 10]) else Stop buf.

Definition vga_print_dec (c : console) (value : Z) : option console :=
  if value =? 0 then Some (vga_putchar c 48)
  else buf ← loop dec_step (value, []); Some (vga_puts c (rev buf)).

Definition hex_chars : list Z := [48;49;50;51;52;53;54;55;56;57;65;66;67;68;69;70].

Definition hex_step (st : Z * list Z) : ctl (Z * list Z) (list Z) :=
  let '(value, buf) := st in
  if 0 <? value then Next (Z.shiftr value 4, buf ++ [nth (Z.to_nat (Z.land value 0xF)) hex_chars 0])
  else Stop buf.

Definition hex_prefix : list Z := [48; 120].

Definition vga_print_hex (c : console) (value : Z) : option console :=
  if value =? 0 then Some (vga_puts c (hex_prefix ++ [48]))
  else buf ← loop hex_step (value, []); Some (vga_puts (vga_puts c hex_prefix) (rev buf)).

(** ** kprintf

    Arguments as [va_arg] takes them: a string pointer or a 64-bit word.
    [None]: an argument is missing or of the wrong kind, or the format string
    ends in a lone percent sign, after which the code reads past its end, or a
    signed argument is the smallest 64-bit integer, whose negation overflows and
    is undefined in C. *)

Inductive vararg := AStr (s : option (list Z)) | AWord (w : Z).

Definition null_text : list Z := [40; 110; 117; 108; 108; 41].

Definition INT64_MIN : Z := - 2 ^ 63.

Definition print_signed (c : console) (v : Z) : option console :=
  if v <? 0 then
    if v =? INT64_MIN then None
    else vga_print_dec (vga_putchar c 45) (u64 (- v))
  else vga_print_dec c (u64 v).

Fixpoint kprintf (c : console) (format : list Z) (args : list vararg) : option console :=
  match format with
  | [] => Some c
  | f :: rest =>
      if f =? 37 then
        match rest with
        | [] => None
        | k :: rest =>
            if k =? 115 then
              match args with
              | AStr s :: args => kprintf (vga_puts c (default null_text s)) rest args
              | _ => None
              end
            else if k =? 99 then
              match args with
              | AWord w :: args => kprintf (vga_putchar c (u8 w)) rest args
              | _ => None
              end
            else if (k =? 100) || (k =? 105) then
              match args with
              | AWord w :: args => c ← print_signed c (i64 w); kprintf c rest args
              | _ => None
              end
            else if k =? 117 then
              match args with
              | AWord w :: args => c ← vga_print_dec c (u64 w); kprintf c rest args
              | _ => None
              end
            else if (k =? 120) || (k =? 88) || (k =? 112) then
              match args with
              | AWord w :: args => c ← vga_print_hex c (u64 w); kprintf c rest args
              | _ => None
              end
            else if k =? 37 then kprintf (vga_putchar c 37) rest args
            else kprintf (vga_putchar (vga_putchar c 37) k) rest args
        end
      else kprintf (vga_putchar c f) rest args
  end.

#[global] Strategy 1000 [for_each].
#[global] Arguments vga_scroll : simpl never.
#[global] Arguments vga_update_cursor : simpl never.
#[global] Arguments serial_putchar : simpl never.
#[global] Arguments vga_make_entry : simpl never.

(** ** The reference: a page growing downwards *)

Record page := Page {
  p_cell : Z → Z → Z;
  p_top : Z;
  p_row : Z;
  p_col : Z;
  p_color : Z
}.

Definition p_blank (p : page) : Z := vga_make_entry 32 (p_color p).

(** Writing row [r], column [x] of the page. *)
Definition page_write (p : page) (r x v : Z) : page :=
  Page (λ r' x', if (r' =? r) && (x' =? x) then v else p_cell p r' x') (p_top p) (p_row p) (p_col p) (p_color p).
Definition page_at (p : page) (x : Z) : page := Page (p_cell p) (p_top p) (p_row p) x (p_color p).

(** Going to the start of the next row; the window moves down by one when it
    leaves the screen, over a fresh blank row. *)
Definition page_next (p : page) : page :=
  let r := p_row p + 1 in
  if r <? p_top p + VGA_HEIGHT then Page (p_cell p) (p_top p) r 0 (p_color p)
  else Page (λ r' x', if r' =? r then p_blank p else p_cell p r' x') (p_top p + 1) r 0 (p_color p).

Definition page_put (p : page) (ch : Z) : page :=
  if ch =? 10 then page_next p
  else if ch =? 13 then page_at p 0
  else if ch =? 9 then
    let x := 8 * (p_col p / 8 + 1) in if x <? VGA_WIDTH then page_at p x else page_next p
  else if ch =? 8 then
    if p_col p =? 0 then p
    else page_at (page_write p (p_row p) (p_col p - 1) (p_blank p)) (p_col p - 1)
  else if (32 <=? ch) && (ch <? 128) then
    let p' := page_write p (p_row p) (p_col p) (ch + 256 * p_color p) in
    if p_col p + 1 <? VGA_WIDTH then page_at p' (p_col p + 1) else page_next p'
  else p.

Definition page_puts (p : page) (str : list Z) : page := foldl page_put p str.

Definition cell_in (x y : Z) : Prop := 0 <= x < VGA_WIDTH ∧ 0 <= y < VGA_HEIGHT.

(** The console shows the page's window. *)
Record shows (c : console) (p : page) : Prop := {
  sh_cells : ∀ x y, cell_in x y → vga_buffer c (vga_index x y) = p_cell p (p_top p + y) x;
  sh_x : cursor_x c = p_col p;
  sh_y : cursor_y c = p_row p - p_top p;
  sh_in : cell_in (p_col p) (p_row p - p_top p);
  sh_color : current_color c = p_color p ∧ is_u8 (p_color p)
}.

(** The cells beyond the screen, which belong to nobody here. *)
Definition beyond_kept (c c' : console) : Prop :=
  ∀ i, i < 0 ∨ VGA_WIDTH * VGA_HEIGHT <= i → vga_buffer c' i = vga_buffer c i.

Lemma vga_index_eq x y x' y' :
  cell_in x y → cell_in x' y' → vga_index x y = vga_index x' y' ↔ x = x' ∧ y = y'.
Proof. unfold cell_in, vga_index, VGA_WIDTH, VGA_HEIGHT. lia. Qed.

Lemma vga_index_range x y : cell_in x y → 0 <= vga_index x y < VGA_WIDTH * VGA_HEIGHT.
Proof. unfold cell_in, vga_index, VGA_WIDTH, VGA_HEIGHT. lia. Qed.

Lemma put_cell_at c x y v x' y' :
  cell_in x y → cell_in x' y' →
  vga_buffer (put_cell c x y v) (vga_index x' y')
  = if (y' =? y) && (x' =? x) then v else vga_buffer c (vga_index x' y').
Proof.
  intros H H'. unfold put_cell. simpl. destruct (Z.eqb_spec (vga_index x' y') (vga_index x y)) as [E|E].
  - apply vga_index_eq in E as [-> ->]; try done. by rewrite !Z.eqb_refl.
  - destruct (Z.eqb_spec y' y) as [->|]; [|done]. destruct (Z.eqb_spec x' x) as [->|]; [|done]. done.
Qed.

Lemma put_cell_beyond c x y v : cell_in x y → beyond_kept c (put_cell c x y v).
Proof.
  intros H i Hi. unfold put_cell. simpl. pose proof (vga_index_range x y H).
  rewrite (proj2 (Z.eqb_neq _ _)) by lia. done.
Qed.

Lemma beyond_trans c1 c2 c3 : beyond_kept c1 c2 → beyond_kept c2 c3 → beyond_kept c1 c3.
Proof. intros A B i Hi. rewrite B by done. by apply A. Qed.

(** Two consoles that differ in the text buffer only. *)
Definition same_controls (c c' : console) : Prop :=
  cursor_x c' = cursor_x c ∧ cursor_y c' = cursor_y c ∧ current_color c' = current_color c.

(** ** Scrolling *)

(** Copying row [y + 1] into row [y]. *)
Lemma scroll_row c y :
  0 <= y < VGA_HEIGHT - 1 →
  let c' := for_each 0 VGA_WIDTH (λ x c, put_cell c x y (vga_buffer c (vga_index x (y + 1)))) c in
  same_controls c c' ∧ beyond_kept c c' ∧ ∀ x' y', cell_in x' y' →
    vga_buffer c' (vga_index x' y')
    = if y' =? y then vga_buffer c (vga_index x' (y + 1)) else vga_buffer c (vga_index x' y').
Proof.
  intros Hy c'. unfold VGA_HEIGHT in Hy.
  assert (H : same_controls c c' ∧ beyond_kept c c' ∧ ∀ x' y', cell_in x' y' →
    vga_buffer c' (vga_index x' y')
    = if (y' =? y) && (x' <? VGA_WIDTH) then vga_buffer c (vga_index x' (y + 1))
      else vga_buffer c (vga_index x' y')).
  { apply (for_each_inv (λ k c', same_controls c c' ∧ beyond_kept c c' ∧ ∀ x' y', cell_in x' y' →
      vga_buffer c' (vga_index x' y')
      = if (y' =? y) && (x' <? k) then vga_buffer c (vga_index x' (y + 1))
        else vga_buffer c (vga_index x' y'))); [done| |].
    - split_and!; try done. intros x' y' [Hx' _]. rewrite (proj2 (Z.ltb_ge x' 0)) by lia. by rewrite andb_false_r.
    - intros x c1 Hx (Hs & Hb & Hc).
      assert (Hin : cell_in x y) by (unfold cell_in, VGA_HEIGHT; lia).
      assert (Hin1 : cell_in x (y + 1)) by (unfold cell_in, VGA_HEIGHT; lia).
      split_and!; [done|eapply beyond_trans; [done|by apply put_cell_beyond]|].
      intros x' y' Hxy. rewrite put_cell_at by done. rewrite !Hc by done.
      rewrite (proj2 (Z.eqb_neq (y + 1) y)) by lia. simpl.
      destruct (Z.eqb_spec y' y) as [->|]; simpl; [|done].
      destruct (Z.eqb_spec x' x) as [->|]; [by rewrite (proj2 (Z.ltb_lt _ _)) by lia|].
      destruct (Z.ltb_spec x' x), (Z.ltb_spec x' (x + 1)); done || lia. }
  destruct H as (Hs & Hb & Hc). split_and!; [done|done|]. intros x' y' Hxy. rewrite Hc by done.
  destruct Hxy as [Hx _]. by rewrite (proj2 (Z.ltb_lt x' VGA_WIDTH)), andb_true_r by lia.
Qed.

(** Blanking one row. *)
Lemma blank_row c y v :
  0 <= y < VGA_HEIGHT →
  let c' := for_each 0 VGA_WIDTH (λ x c, put_cell c x y v) c in
  same_controls c c' ∧ beyond_kept c c' ∧ ∀ x' y', cell_in x' y' →
    vga_buffer c' (vga_index x' y') = if y' =? y then v else vga_buffer c (vga_index x' y').
Proof.
  intros Hy c'.
  assert (H : same_controls c c' ∧ beyond_kept c c' ∧ ∀ x' y', cell_in x' y' →
    vga_buffer c' (vga_index x' y')
    = if (y' =? y) && (x' <? VGA_WIDTH) then v else vga_buffer c (vga_index x' y')).
  { apply (for_each_inv (λ k c', same_controls c c' ∧ beyond_kept c c' ∧ ∀ x' y', cell_in x' y' →
      vga_buffer c' (vga_index x' y')
      = if (y' =? y) && (x' <? k) then v else vga_buffer c (vga_index x' y'))); [done| |].
    - split_and!; try done. intros x' y' [Hx' _]. rewrite (proj2 (Z.ltb_ge x' 0)) by lia. by rewrite andb_false_r.
    - intros x c1 Hx (Hs & Hb & Hc). assert (Hin : cell_in x y) by (unfold cell_in; lia).
      split_and!; [done|eapply beyond_trans; [done|by apply put_cell_beyond]|].
      intros x' y' Hxy. rewrite put_cell_at by done. rewrite !Hc by done.
      destruct (Z.eqb_spec y' y) as [->|]; simpl; [|done].
      destruct (Z.eqb_spec x' x) as [->|]; [by rewrite (proj2 (Z.ltb_lt _ _)) by lia|].
      destruct (Z.ltb_spec x' x), (Z.ltb_spec x' (x + 1)); done || lia. }
  destruct H as (Hs & Hb & Hc). split_and!; [done|done|]. intros x' y' Hxy. rewrite Hc by done.
  destruct Hxy as [Hx _]. by rewrite (proj2 (Z.ltb_lt x' VGA_WIDTH)), andb_true_r by lia.
Qed.

Lemma scroll_rows_spec c :
  same_controls c (scroll_rows c) ∧ beyond_kept c (scroll_rows c) ∧ ∀ x y, cell_in x y →
    vga_buffer (scroll_rows c) (vga_index x y)
    = if y <? VGA_HEIGHT - 1 then vga_buffer c (vga_index x (y + 1)) else vga_buffer c (vga_index x y).
Proof.
  unfold scroll_rows.
  apply (for_each_inv (λ k c', same_controls c c' ∧ beyond_kept c c' ∧ ∀ x y, cell_in x y →
    vga_buffer c' (vga_index x y)
    = if y <? k then vga_buffer c (vga_index x (y + 1)) else vga_buffer c (vga_index x y))); [done| |].
  - split_and!; try done. intros x y [_ Hy]. by rewrite (proj2 (Z.ltb_ge y 0)) by lia.
  - intros y c2 Hy (Hs & Hb & Hc). destruct (scroll_row c2 y Hy) as (Hs3 & Hb3 & Hc3).
    set (c3 := for_each _ _ _ c2) in *. clearbody c3.
    destruct Hs as (? & ? & ?), Hs3 as (? & ? & ?). split_and!; [split_and!; congruence|by eapply beyond_trans|].
    intros x y' Hxy. rewrite Hc3 by done. destruct (Z.eqb_spec y' y) as [->|].
    + rewrite (proj2 (Z.ltb_lt y (y + 1))) by lia. rewrite Hc; [|unfold cell_in in *; lia].
      by rewrite (proj2 (Z.ltb_ge (y + 1) y)) by lia.
    + rewrite Hc by done. destruct (Z.ltb_spec y' y), (Z.ltb_spec y' (y + 1)); done || lia.
Qed.

Lemma clear_last_row_spec c :
  same_controls c (clear_last_row c) ∧ beyond_kept c (clear_last_row c) ∧ ∀ x y, cell_in x y →
    vga_buffer (clear_last_row c) (vga_index x y)
    = if y =? VGA_HEIGHT - 1 then vga_make_entry 32 (current_color c) else vga_buffer c (vga_index x y).
Proof. exact (blank_row c (VGA_HEIGHT - 1) _ ltac:(done)). Qed.

#[global] Opaque scroll_rows clear_last_row.

(** The screen after a scroll, from the effects of the two loops. *)
Definition scrolled (c c' : console) : Prop :=
  cursor_x c' = cursor_x c ∧ cursor_y c' = VGA_HEIGHT - 1
  ∧ current_color c' = current_color c ∧ beyond_kept c c'
  ∧ ∀ x y, cell_in x y →
      vga_buffer c' (vga_index x y)
      = if y =? VGA_HEIGHT - 1 then vga_make_entry 32 (current_color c) else vga_buffer c (vga_index x (y + 1)).

Lemma scrolled_intro c c1 c2 :
  same_controls c c1 ∧ beyond_kept c c1 ∧ (∀ x y, cell_in x y →
    vga_buffer c1 (vga_index x y)
    = if y <? VGA_HEIGHT - 1 then vga_buffer c (vga_index x (y + 1)) else vga_buffer c (vga_index x y)) →
  same_controls c1 c2 ∧ beyond_kept c1 c2 ∧ (∀ x y, cell_in x y →
    vga_buffer c2 (vga_index x y)
    = if y =? VGA_HEIGHT - 1 then vga_make_entry 32 (current_color c1) else vga_buffer c1 (vga_index x y)) →
  scrolled c (set_xy c2 (cursor_x c2) (VGA_HEIGHT - 1)).
Proof.
  intros ((Hx & Hy & Hcol) & Hb & Hc) ((Hx2 & Hy2 & Hcol2) & Hb2 & Hc2).
  split_and!; [simpl; congruence|done|simpl; congruence| |].
  - intros i Hi. simpl. rewrite Hb2 by done. by apply Hb.
  - intros x y Hxy. simpl. rewrite Hc2, Hcol by done. destruct (Z.eqb_spec y (VGA_HEIGHT - 1)); [done|].
    rewrite Hc by done. rewrite (proj2 (Z.ltb_lt _ _)); [done|]. unfold cell_in in Hxy. lia.
Qed.

Lemma vga_scroll_spec c : scrolled c (vga_scroll c).
Proof. exact (scrolled_intro c _ _ (scroll_rows_spec c) (clear_last_row_spec (scroll_rows c))). Qed.

#[global] Opaque vga_scroll.

(** ** The console shows the page *)

(** The cells of the window, whatever the cursor. *)
Definition window (c : console) (p : page) : Prop :=
  (∀ x y, cell_in x y → vga_buffer c (vga_index x y) = p_cell p (p_top p + y) x)
  ∧ current_color c = p_color p ∧ is_u8 (p_color p).

Lemma shows_window c p : shows c p → window c p.
Proof. by intros [? ? ? ? [? ?]]. Qed.

Lemma window_shows c p :
  window c p → cursor_x c = p_col p → cursor_y c = p_row p - p_top p →
  cell_in (p_col p) (p_row p - p_top p) → shows c p.
Proof. by intros (? & ? & ?). Qed.

Lemma window_write c p x y v :
  window c p → cell_in x y → window (put_cell c x y v) (page_write p (p_top p + y) x v).
Proof.
  intros (Hc & Hcol & Hu) Hxy. split_and!; [|done|done]. intros x' y' Hxy'.
  rewrite put_cell_at by done. simpl. rewrite Hc by done.
  replace (p_top p + y' =? p_top p + y) with (y' =? y); [done|].
  destruct (Z.eqb_spec y' y), (Z.eqb_spec (p_top p + y') (p_top p + y)); done || lia.
Qed.

(** A console with the same screen and cursor. *)
Definition same_screen (c c' : console) : Prop :=
  vga_buffer c' = vga_buffer c ∧ cursor_x c' = cursor_x c ∧ cursor_y c' = cursor_y c
  ∧ current_color c' = current_color c.

Lemma same_screen_shows c c' p : same_screen c c' → shows c p → shows c' p.
Proof. intros (Eb & Ex & Ey & Ec) [A B C D E]. constructor; rewrite ?Eb, ?Ex, ?Ey, ?Ec; done. Qed.

Lemma serial_putchar_screen c ch : same_screen c (serial_putchar c ch).
Proof. unfold serial_putchar. by destruct (serial_initialized c). Qed.

Lemma update_cursor_screen c : same_screen c (vga_update_cursor c).
Proof. done. Qed.

(** The end of [vga_putchar]: wrap and scroll. *)
Definition finish (c : console) : console :=
  let c := if VGA_WIDTH <=? cursor_x c then set_xy c 0 (cursor_y c + 1) else c in
  if VGA_HEIGHT <=? cursor_y c then vga_scroll c else c.

Lemma vga_putchar_eq c ch :
  vga_putchar c ch = vga_update_cursor (finish (putchar_char (serial_putchar c ch) ch)).
Proof. done. Qed.

Lemma finish_stay c p : shows c p → finish c = c.
Proof.
  intros [_ Hx Hy [Hix Hiy] _]. unfold finish. rewrite Hx, (proj2 (Z.leb_gt VGA_WIDTH (p_col p))) by lia.
  cbv zeta. by rewrite Hy, (proj2 (Z.leb_gt _ _)) by lia.
Qed.

(** Moving to the next row, from a row of the screen. *)
Lemma next_shows c p :
  window c p → cursor_x c = 0 → cursor_y c = p_row p - p_top p + 1 → 0 <= p_row p - p_top p < VGA_HEIGHT →
  shows (if VGA_HEIGHT <=? cursor_y c then vga_scroll c else c) (page_next p)
  ∧ beyond_kept c (if VGA_HEIGHT <=? cursor_y c then vga_scroll c else c).
Proof.
  intros (Hc & Hcol & Hu) Hx Hy Hr. unfold page_next.
  destruct (Z.leb_spec VGA_HEIGHT (cursor_y c)) as [Hle|Hlt].
  - rewrite (proj2 (Z.ltb_ge _ _)) by lia. pose proof (vga_scroll_spec c) as (Sx & Sy & Scol & Sb & Sc).
    set (c' := vga_scroll c) in *. clearbody c'. split; [|done]. constructor; simpl.
    + intros x y Hxy. rewrite Sc by done. destruct (Z.eqb_spec y (VGA_HEIGHT - 1)) as [->|Hne].
      * rewrite (proj2 (Z.eqb_eq _ _)) by lia. unfold p_blank. by rewrite Hcol.
      * rewrite (proj2 (Z.eqb_neq _ _)) by lia. rewrite Hc; [f_equal; lia|]. unfold cell_in in *. lia.
    + congruence.
    + rewrite Sy. lia.
    + unfold cell_in, VGA_WIDTH. lia.
    + split; [congruence|done].
  - rewrite (proj2 (Z.ltb_lt _ _)) by lia. split; [|done]. constructor; simpl; try done.
    + lia.
    + unfold cell_in, VGA_WIDTH. lia.
Qed.

(** Wrapping at the right edge. *)
Lemma finish_wrap c p :
  window c p → VGA_WIDTH <= cursor_x c → cursor_y c = p_row p - p_top p → 0 <= p_row p - p_top p < VGA_HEIGHT →
  shows (finish c) (page_next p) ∧ beyond_kept c (finish c).
Proof.
  intros Hw Hx Hy Hr. unfold finish. rewrite (proj2 (Z.leb_le VGA_WIDTH (cursor_x c))) by done. cbv zeta.
  apply (next_shows (set_xy c 0 (cursor_y c + 1)) p); simpl; try done. by rewrite Hy.
Qed.

Lemma tab_stop x : 0 <= x → Z.land (x + 8) (Z.lnot 7) = 8 * (x / 8 + 1).
Proof.
  intros Hx. change (Z.lnot 7) with (Z.lnot (2 ^ 3 - 1)). rewrite land_lnot_low by lia.
  change (2 ^ 3) with 8. pose proof (Z.div_mod (x + 8) 8 ltac:(lia)).
  replace ((x + 8) / 8) with (x / 8 + 1) in *; [lia|].
  replace (x + 8) with (x + 1 * 8) by lia. by rewrite Z.div_add by lia.
Qed.

Lemma make_entry_printable ch color : 32 <= ch < 128 → is_u8 color → vga_make_entry ch color = ch + 256 * color.
Proof.
  intros Hch Hc. unfold vga_make_entry, i8, is_u8 in *. rewrite (Z.mod_small (ch + 128)) by lia.
  rewrite (u16_id (ch + 128 - 128)) by lia. replace (ch + 128 - 128) with ch by lia.
  rewrite Z.shiftl_mul_pow2 by lia. pose proof (Z.add_lor_land ch (color * 2 ^ 8)) as Hlor.
  assert (Z.land ch (color * 2 ^ 8) = 0) as Hl.
  { rewrite <- (Z.mod_small ch (2 ^ 8)) by lia. rewrite <- Z.land_ones by lia.
    rewrite <- Z.land_assoc, (Z.land_comm (Z.ones 8)), Z.land_ones, Z.mod_mul, Z.land_0_r by lia. done. }
  rewrite u16_id by lia. lia.
Qed.

(** Erasing the character left of the cursor. *)
Lemma backspace_shows c p :
  shows c p → p_col p ≠ 0 →
  let c1 := set_xy c (cursor_x c - 1) (cursor_y c) in
  let c2 := put_cell c1 (cursor_x c1) (cursor_y c1) (vga_make_entry 32 (current_color c1)) in
  shows c2 (page_at (page_write p (p_row p) (p_col p - 1) (p_blank p)) (p_col p - 1)) ∧ beyond_kept c c2.
Proof.
  intros Hs E0 c1 c2. pose proof (shows_window c p Hs) as Hw. destruct Hs as [_ Hx Hy [Hix Hiy] [Hcol Hu]].
  assert (Hci : cell_in (p_col p - 1) (p_row p - p_top p)) by (unfold cell_in in *; lia).
  assert (Hc2 : c2 = put_cell (set_xy c (p_col p - 1) (cursor_y c)) (p_col p - 1) (p_row p - p_top p) (p_blank p)).
  { unfold c2, c1, p_blank. simpl. by rewrite Hx, Hy, Hcol. }
  rewrite Hc2. split; [|by apply (put_cell_beyond (set_xy c _ _))]. apply window_shows; simpl; try done.
  pose proof (window_write (set_xy c (p_col p - 1) (cursor_y c)) p _ _ (p_blank p) Hw Hci) as H.
  by replace (p_top p + (p_row p - p_top p)) with (p_row p) in H by lia.
Qed.

(** A printable character, with the wrap after column 79. *)
Lemma printable_shows c p ch :
  shows c p → 32 <= ch < 128 →
  let c1 := put_cell c (cursor_x c) (cursor_y c) (vga_make_entry ch (current_color c)) in
  let c2 := finish (set_xy c1 (cursor_x c1 + 1) (cursor_y c1)) in
  let p' := page_write p (p_row p) (p_col p) (ch + 256 * p_color p) in
  shows c2 (if p_col p + 1 <? VGA_WIDTH then page_at p' (p_col p + 1) else page_next p') ∧ beyond_kept c c2.
Proof.
  intros Hs Hch. pose proof (shows_window c p Hs) as Hw. destruct Hs as [_ Hx Hy [Hix Hiy] [Hcol Hu]].
  rewrite Hcol, make_entry_printable by done. cbv zeta.
  set (v := ch + 256 * p_color p). set (p' := page_write p (p_row p) (p_col p) v).
  assert (Hci : cell_in (p_col p) (p_row p - p_top p)) by (unfold cell_in in *; lia).
  set (c1 := put_cell c (cursor_x c) (cursor_y c) v).
  assert (Hc1 : c1 = put_cell c (p_col p) (p_row p - p_top p) v) by (unfold c1; by rewrite Hx, Hy).
  assert (Hw1 : window c1 p').
  { rewrite Hc1. unfold p'. pose proof (window_write c p _ _ v Hw Hci) as H.
    by replace (p_top p + (p_row p - p_top p)) with (p_row p) in H by lia. }
  assert (Hb1 : beyond_kept c c1) by (rewrite Hc1; by apply put_cell_beyond).
  change (cursor_x c1) with (cursor_x c). change (cursor_y c1) with (cursor_y c). rewrite Hx. clearbody c1.
  destruct (Z.ltb_spec (p_col p + 1) VGA_WIDTH) as [Hlt|Hge].
  - assert (H : shows (set_xy c1 (p_col p + 1) (cursor_y c)) (page_at p' (p_col p + 1)))
      by (apply window_shows; try done; unfold cell_in; simpl; lia).
    rewrite (finish_stay _ _ H). by split.
  - destruct (finish_wrap (set_xy c1 (p_col p + 1) (cursor_y c)) p') as [H1 H2]; try done.
    split; [done|]. eapply beyond_trans; [exact Hb1|exact H2].
Qed.

Lemma printable_i8 ch : is_u8 ch → (32 <=? i8 ch) = (32 <=? ch) && (ch <? 128).
Proof.
  intros Hch. unfold i8, is_u8 in *. destruct (Z.ltb_spec ch 128) as [Hlt|Hge].
  - rewrite andb_true_r. rewrite (Z.mod_small (ch + 128)) by lia. by replace (ch + 128 - 128) with ch by lia.
  - rewrite andb_false_r. apply Z.leb_gt.
    replace (ch + 128) with (ch - 128 + 1 * 256) by lia. rewrite Z_mod_plus_full, Z.mod_small by lia. lia.
Qed.

(** The [switch] and what follows it. *)
Lemma putchar_char_shows c p ch :
  shows c p → is_u8 ch →
  shows (finish (putchar_char c ch)) (page_put p ch) ∧ beyond_kept c (finish (putchar_char c ch)).
Proof.
  intros Hs Hch. pose proof (shows_window c p Hs) as Hw. pose proof Hs as [_ Hx Hy [Hix Hiy] _].
  unfold putchar_char, page_put. destruct (ch =? 10).
  { unfold finish. simpl. apply (next_shows (set_xy c 0 (cursor_y c + 1)) p); simpl; try done. by rewrite Hy. }
  destruct (ch =? 13).
  { assert (H : shows (set_xy c 0 (cursor_y c)) (page_at p 0))
      by (apply window_shows; try done; unfold cell_in, VGA_WIDTH; simpl; lia).
    rewrite (finish_stay _ _ H). by split. }
  destruct (ch =? 9).
  { cbv zeta. rewrite Hx, (tab_stop (p_col p)) by lia. set (t := 8 * (p_col p / 8 + 1)).
    assert (Ht0 : 0 <= t) by (pose proof (Z.div_pos (p_col p) 8); lia).
    destruct (Z.ltb_spec t VGA_WIDTH) as [Hlt|Hge].
    - assert (H : shows (set_xy c t (cursor_y c)) (page_at p t)) by (apply window_shows; try done; unfold cell_in; simpl; lia).
      rewrite (finish_stay _ _ H). by split.
    - by apply (finish_wrap (set_xy c t (cursor_y c)) p). }
  destruct (ch =? 8).
  { destruct (Z.eqb_spec (p_col p) 0) as [E0|E0].
    - rewrite (proj2 (Z.ltb_ge _ _)) by lia. by rewrite (finish_stay c p).
    - rewrite (proj2 (Z.ltb_lt _ _)) by lia. destruct (backspace_shows c p Hs E0) as [H Hb]. cbv zeta in *.
      rewrite (finish_stay _ _ H). by split. }
  rewrite printable_i8 by done. destruct ((32 <=? ch) && (ch <? 128)) eqn:Epr; [|by rewrite (finish_stay c p)].
  apply andb_true_iff in Epr as [E1%Z.leb_le E2%Z.ltb_lt]. by apply printable_shows.
Qed.

(** One character: the console and the page make the same step. *)
Lemma putchar_shows c p ch :
  shows c p → is_u8 ch →
  shows (vga_putchar c ch) (page_put p ch) ∧ beyond_kept c (vga_putchar c ch).
Proof.
  intros Hsh Hch. rewrite vga_putchar_eq.
  pose proof (serial_putchar_screen c ch) as Hss. set (c0 := serial_putchar c ch) in *.
  assert (Hb0 : beyond_kept c c0) by (intros i _; by rewrite (proj1 Hss)).
  pose proof (same_screen_shows c c0 p Hss Hsh) as Hs0. clearbody c0.
  destruct (putchar_char_shows c0 p ch Hs0 Hch) as [H1 H2].
  split; [eapply same_screen_shows; [apply update_cursor_screen|done]|].
  eapply beyond_trans; [done|exact H2].
Qed.

Lemma puts_shows c p str :
  shows c p → Forall is_u8 str → shows (vga_puts c str) (page_puts p str) ∧ beyond_kept c (vga_puts c str).
Proof.
  intros Hs Hstr. revert c p Hs. induction Hstr as [|ch str Hch _ IH]; intros c p Hs; [by split|].
  destruct (putchar_shows c p ch Hs Hch) as [H1 H2]. destruct (IH _ _ H1) as [H3 H4].
  split; [exact H3|]. eapply beyond_trans; [exact H2|exact H4].
Qed.

(** ** Initialisation *)

Definition blank_page (color : Z) : page := Page (λ _ _, vga_make_entry 32 color) 0 0 0 color.

Lemma clear_cells_spec c blank :
  current_color (clear_cells c blank) = current_color c ∧ beyond_kept c (clear_cells c blank)
  ∧ ∀ i, 0 <= i < VGA_WIDTH * VGA_HEIGHT → vga_buffer (clear_cells c blank) i = blank.
Proof.
  unfold clear_cells. apply (for_each_inv (λ k c', current_color c' = current_color c ∧ beyond_kept c c'
    ∧ ∀ i, 0 <= i < k → vga_buffer c' i = blank)); [done|split_and!; [done|done|lia]|].
  intros i c1 Hi (Hc & Hb & Hz). split_and!; [done| |].
  - intros j Hj. simpl. rewrite (proj2 (Z.eqb_neq _ _)) by lia. by apply Hb.
  - intros j Hj. simpl. destruct (Z.eqb_spec j i); [done|]. apply Hz. lia.
Qed.

#[global] Opaque clear_cells.

Lemma cleared_shows c c1 :
  is_u8 (current_color c) →
  current_color c1 = current_color c ∧ beyond_kept c c1
  ∧ (∀ i, 0 <= i < VGA_WIDTH * VGA_HEIGHT → vga_buffer c1 i = vga_make_entry 32 (current_color c)) →
  let c' := vga_update_cursor (set_xy c1 0 0) in
  shows c' (blank_page (current_color c)) ∧ beyond_kept c c'.
Proof.
  intros Hu (Hc & Hb & Hz). split; [|exact Hb]. apply window_shows; [split_and!|..]; try done.
  intros x y Hxy. simpl. by apply Hz, vga_index_range.
Qed.

Lemma vga_clear_shows c :
  is_u8 (current_color c) → shows (vga_clear c) (blank_page (current_color c)) ∧ beyond_kept c (vga_clear c).
Proof. intros Hu. exact (cleared_shows c _ Hu (clear_cells_spec c (vga_make_entry 32 (current_color c)))). Qed.

#[global] Opaque vga_clear.

Lemma enable_cursor_screen c b in1 in2 : same_screen c (vga_enable_cursor c b in1 in2).
Proof. by destruct b. Qed.

Lemma enabled_shows c c1 p in1 in2 :
  shows c1 p ∧ beyond_kept c c1 →
  let c' := vga_enable_cursor c1 true in1 in2 in shows c' p ∧ beyond_kept c c'.
Proof. intros [H1 H2]. split; [|exact H2]. eapply same_screen_shows; [apply enable_cursor_screen|exact H1]. Qed.

Lemma vga_init_shows c in1 in2 :
  shows (vga_init c in1 in2) (blank_page VGA_COLOR_LIGHT_GREY) ∧ beyond_kept c (vga_init c in1 in2).
Proof.
  refine (enabled_shows c _ _ in1 in2
    (vga_clear_shows (set_color c (vga_make_color VGA_COLOR_LIGHT_GREY VGA_COLOR_BLACK)) _)). done.
Qed.

#[global] Opaque vga_init.

(** ** Digits *)

Definition undigits (b : Z) (ds : list Z) : Z := foldr (λ d n, d + b * n) 0 ds.

Lemma digits_runs (b : Z) (f : Z → Z) (step : Z * list Z → ctl (Z * list Z) (list Z)) :
  1 < b → (∀ v buf, step (v, buf) = if 0 <? v then Next (v / b, buf ++ [f (v mod b)]) else Stop buf) →
  ∀ n v buf, 0 <= v < b ^ Z.of_nat n →
    ∃ ds, runs step (S (length ds)) (v, buf) (buf ++ (f <$> ds)) ∧ (length ds <= n)%nat
      ∧ Forall (λ d, 0 <= d < b) ds ∧ undigits b ds = v ∧ (0 < v → ds ≠ []) ∧ last ds ≠ Some 0.
Proof.
  intros Hb Hstep. induction n as [|n IH]; intros v buf Hv.
  { assert (v = 0) as -> by (simpl in Hv; lia). exists []. split_and!; try done; try lia.
    rewrite app_nil_r. apply runs_stop. by rewrite Hstep. }
  destruct (decide (v = 0)) as [->|Hne].
  { exists []. split_and!; try done; try (simpl; lia). rewrite app_nil_r. apply runs_stop. by rewrite Hstep. }
  rewrite Nat2Z.inj_succ, Z.pow_succ_r in Hv by lia.
  pose proof (Z.mod_pos_bound v b ltac:(lia)) as Hm. pose proof (Z.div_mod v b ltac:(lia)) as Hdm.
  pose proof (Z.div_pos v b ltac:(lia) ltac:(lia)) as Hd0.
  destruct (IH (v / b) (buf ++ [f (v mod b)])) as (ds & Hr & Hl & Hf & Hu & Hn & Hz).
  { split; [done|]. apply Z.div_lt_upper_bound; lia. }
  exists (v mod b :: ds). split_and!; try done; simpl.
  - eapply runs_next; [rewrite Hstep; by rewrite (proj2 (Z.ltb_lt _ _)) by lia|].
    by rewrite <- app_assoc in Hr.
  - lia.
  - by apply Forall_cons.
  - change (undigits b (v mod b :: ds)) with (v mod b + b * undigits b ds). rewrite Hu. lia.
  - destruct ds as [|d ds]; [|done]. simpl in *. intros [= E]. lia.
Qed.

(** The number a string of digits denotes, most significant first. *)
Definition number (b : Z) (val : Z → Z) (s : list Z) : Z := foldl (λ n ch, b * n + val ch) 0 s.

Lemma number_rev b val f ds :
  Forall (λ d, val (f d) = d) ds → number b val (rev (f <$> ds)) = undigits b ds.
Proof.
  induction 1 as [|d ds Hd _ IH]; [done|]. unfold number in *. rewrite fmap_cons. cbn [rev].
  rewrite foldl_app, IH. simpl. rewrite Hd. lia.
Qed.

Definition dec_val (ch : Z) : Z := ch - 48.
Definition hex_val (ch : Z) : Z := if ch <? 65 then ch - 48 else ch - 55.
Definition hex_digit (d : Z) : Z := nth (Z.to_nat d) hex_chars 0.

Lemma rev_head {A} (l : list A) : head (rev l) = last l.
Proof. induction l as [|x l IH] using rev_ind; [done|]. by rewrite rev_app_distr, last_snoc. Qed.

(** The digit loop of base [b] within [n] characters. *)
Lemma digits_loop b f val step n v :
  1 < b → (∀ v buf, step (v, buf) = if 0 <? v then Next (v / b, buf ++ [f (v mod b)]) else Stop buf) →
  (∀ d, 0 <= d < b → val (f d) = d) → 0 < v < b ^ Z.of_nat n → Z.of_nat n < 2 ^ 32 →
  ∃ ds, loop step (v, []) = Some (f <$> ds) ∧ (1 <= length ds <= n)%nat ∧ Forall (λ d, 0 <= d < b) ds
    ∧ number b val (rev (f <$> ds)) = v ∧ head (rev (f <$> ds)) ≠ Some (f 0).
Proof.
  intros Hb Hstep Hf Hv Hn. destruct (digits_runs b f step Hb Hstep n v []) as (ds & Hr & Hl & Hds & Hu & Hne & Hz); [lia|].
  exists ds. split_and!; try done.
  - eapply loop_runs; [exact Hr|]. unfold WHILE_FUEL. lia.
  - destruct ds; [exfalso; apply Hne; [lia|done]|simpl; lia].
  - rewrite number_rev; [done|]. eapply Forall_impl; [exact Hds|]. intros d Hd. by apply Hf.
  - rewrite rev_head, fmap_last. destruct (last ds) as [d|] eqn:El; [|done]. simpl. intros [= E]. apply Hz. f_equal.
    assert (Hd : 0 <= d < b).
    { rewrite Forall_forall in Hds. apply Hds. apply last_Some in El as [l' ->]. apply elem_of_app. right. by left. }
    rewrite <- (Hf d Hd), E. apply Hf. lia.
Qed.

(** ** Theorems *)

(** C18. What is on the screen.  From initialisation on, whatever bytes are
    printed, the 25 rows of the text buffer are the window of a page that only
    grows downwards, and the cursor is where the page's is: newlines, carriage
    returns, tabs, backspaces, wrapping and the copying scroll included.  No
    memory beyond the 2000 cells is written. *)
Theorem vga_shows_page (c : console) (in1 in2 : Z) (str : list Z) :
  Forall is_u8 str →
  let c' := vga_puts (vga_init c in1 in2) str in
  let p := page_puts (blank_page VGA_COLOR_LIGHT_GREY) str in
  (∀ x y, cell_in x y → vga_buffer c' (vga_index x y) = p_cell p (p_top p + y) x)
  ∧ cursor_x c' = p_col p ∧ cursor_y c' = p_row p - p_top p ∧ cell_in (cursor_x c') (cursor_y c')
  ∧ (∀ i, i < 0 ∨ VGA_WIDTH * VGA_HEIGHT <= i → vga_buffer c' i = vga_buffer c i).
Proof.
  intros Hstr c' p. destruct (vga_init_shows c in1 in2) as [H1 H2].
  destruct (puts_shows _ _ str H1 Hstr) as [H3 H4]. fold c' p in H3, H4.
  pose proof (beyond_trans _ _ _ H2 H4) as Hb. destruct H3 as [A B C D _].
  rewrite B, C. by refine (conj A (conj eq_refl (conj eq_refl (conj D Hb)))).
Qed.

(** Printing numbers.  [vga_print_dec] always returns; it prints the decimal
    digits of its argument, most significant first and without leading zeros,
    at most twenty of them: its 21-byte buffer is not overrun. *)
Theorem vga_print_dec_spec (value : Z) :
  is_u64 value →
  ∃ s, (∀ c, vga_print_dec c value = Some (vga_puts c s))
    ∧ (1 <= length s <= 20)%nat ∧ Forall (λ ch, 48 <= ch <= 57) s
    ∧ number 10 dec_val s = value ∧ (head s = Some 48 → s = [48]).
Proof.
  intros Hv. unfold vga_print_dec. destruct (Z.eqb_spec value 0) as [->|Hne].
  { exists [48]. split_and!; simpl; try done; try lia. by repeat constructor. }
  destruct (digits_loop 10 (λ d, 48 + d) dec_val dec_step 20 value) as (ds & El & Hl & Hds & Hn & Hh); try done.
  - intros d _. unfold dec_val. lia.
  - unfold is_u64 in Hv. lia.
  - eexists. split; [intros c; by rewrite El, bind_Some_eq|]. rewrite length_rev, length_fmap.
    split_and!; try lia; [|by intros ?].
    apply Forall_rev, Forall_fmap. eapply Forall_impl; [exact Hds|]. simpl. lia.
Qed.

(** The hexadecimal counterpart: the prefix and at most sixteen digits. *)
Theorem vga_print_hex_spec (value : Z) :
  is_u64 value →
  ∃ s, (∀ c, vga_print_hex c value = Some (vga_puts c (hex_prefix ++ s)))
    ∧ (1 <= length s <= 16)%nat ∧ Forall (λ ch, ch ∈ hex_chars) s
    ∧ number 16 hex_val s = value ∧ (head s = Some 48 → s = [48]).
Proof.
  intros Hv. unfold vga_print_hex. destruct (Z.eqb_spec value 0) as [->|Hne].
  { exists [48]. split_and!; simpl; try done; try lia. repeat constructor. }
  destruct (digits_loop 16 hex_digit hex_val hex_step 16 value) as (ds & El & Hl & Hds & Hn & Hh); try done.
  - intros v buf. unfold hex_step, hex_digit. rewrite Z.shiftr_div_pow2 by lia. change 15 with (Z.ones 4).
    by rewrite Z.land_ones by lia.
  - intros d Hd. assert (H : Forall (λ d, hex_val (hex_digit d) = d) (seqZ 0 16)) by (by repeat constructor).
    rewrite Forall_forall in H. apply H, elem_of_seqZ. lia.
  - unfold is_u64 in Hv. lia.
  - eexists. split; [intros c; rewrite El, bind_Some_eq; unfold vga_puts; by rewrite foldl_app|].
    rewrite length_rev, length_fmap. split_and!; try lia; [|by intros ?].
    apply Forall_rev, Forall_fmap. eapply Forall_impl; [exact Hds|]. intros d Hd. cbv beta in Hd. apply list_elem_of_In, nth_In. simpl length. lia.
Qed.

(** ** Witnesses *)

Definition wit_console : console := Console (λ _, 0) 0 0 0 false [].

Lemma vga_shows_page_witness :
  vga_buffer (vga_puts (vga_init wit_console 0 0) [104; 105; 10]) (vga_index 1 0) = 105 + 256 * 7
  ∧ cursor_y (vga_puts (vga_init wit_console 0 0) [104; 105; 10]) = 1.
Proof.
  assert (Hin : cell_in 1 0) by done.
  destruct (vga_shows_page wit_console 0 0 [104; 105; 10]) as (Hc & _ & Hy & _).
  { by repeat constructor. }
  split; [exact (eq_trans (Hc 1 0 Hin) eq_refl)|exact (eq_trans Hy eq_refl)].
Defined.

Lemma vga_print_dec_spec_witness :
  ∃ s, vga_print_dec wit_console 18446744073709551615 = Some (vga_puts wit_console s)
    ∧ number 10 dec_val s = 18446744073709551615.
Proof.
  destruct (vga_print_dec_spec 18446744073709551615) as (s & E & _ & _ & Hn & _).
  { done. }
  exists s. exact (conj (E wit_console) Hn).
Defined.

Lemma vga_print_hex_spec_witness :
  ∃ s, vga_print_hex wit_console 3735928559 = Some (vga_puts wit_console (hex_prefix ++ s))
    ∧ number 16 hex_val s = 3735928559.
Proof.
  destruct (vga_print_hex_spec 3735928559) as (s & E & _ & _ & Hn & _).
  { done. }
  exists s. exact (conj (E wit_console) Hn).
Defined.
