(* ===== verification/Kprintf.v ===== *)
(** * Formatted output: [kprintf] of drivers/vga/vga.c

    What a format denotes, as a relation between format, arguments and text, and
    the proof that [kprintf] prints it. *)

From Stdlib Require Import ZArith Lia.
From stdpp Require Import base numbers list.
From S2P Require Import Prelude.
From S2P Require Import Vga.

(** ** Numerals *)

(** [s] is the decimal numeral of [v], without leading zeros. *)
Definition dec_numeral (v : Z) (s : list Z) : Prop :=
  (1 <= length s <= 20)%nat ∧ Forall (λ ch, 48 <= ch <= 57) s ∧ number 10 dec_val s = v ∧ (head s = Some 48 → s = [48]).

(** The hexadecimal numeral in capitals. *)
Definition hex_numeral (v : Z) (s : list Z) : Prop :=
  (1 <= length s <= 16)%nat ∧ Forall (λ ch, ch ∈ hex_chars) s ∧ number 16 hex_val s = v ∧ (head s = Some 48 → s = [48]).

(** *** Numerals are unique *)

Section unique.
Context (b zero : Z) (val : Z → Z) (digit : Z → Prop).
Context (Hb : 1 < b) (Hval : ∀ ch, digit ch → 0 <= val ch < b) (Hzero : ∀ ch, digit ch → val ch = 0 → ch = zero).
Context (Hinj : ∀ ch ch', digit ch → digit ch' → val ch = val ch' → ch = ch').

Lemma number_snoc s ch : number b val (s ++ [ch]) = b * number b val s + val ch.
Proof using. unfold number. by rewrite foldl_app. Qed.

Lemma number_nonneg s : Forall digit s → 0 <= number b val s.
Proof using Hb Hval.
  induction s as [|ch s IH] using rev_ind; [done|]. rewrite Forall_app, Forall_singleton. intros [Hs Hc].
  rewrite number_snoc. specialize (IH Hs). specialize (Hval ch Hc). nia.
Qed.

Lemma number_pos s : Forall digit s → s ≠ [] → head s ≠ Some zero → 0 < number b val s.
Proof using Hb Hval Hzero.
  induction s as [|ch s IH] using rev_ind; [done|]. rewrite Forall_app, Forall_singleton. intros [Hs Hc] _ Hh.
  rewrite number_snoc. pose proof (Hval ch Hc). destruct s as [|c s].
  - simpl in Hh. assert (val ch ≠ 0) by (intros E; apply Hh; f_equal; by apply Hzero). unfold number. simpl. lia.
  - specialize (IH Hs ltac:(done) Hh). nia.
Qed.

Lemma number_inj s s' :
  Forall digit s → Forall digit s' → head s ≠ Some zero → head s' ≠ Some zero → number b val s = number b val s' → s = s'.
Proof using Hb Hval Hzero Hinj.
  revert s'. induction s as [|ch s IH] using rev_ind; intros s' Hd Hd' Hh Hh' E.
  - destruct s' as [|c s']; [done|]. pose proof (number_pos _ Hd' ltac:(done) Hh'). unfold number in *. simpl in *. lia.
  - destruct s' as [|ch' s' _] using rev_ind.
    + pose proof (number_pos _ Hd ltac:(by destruct s) Hh). unfold number in *. simpl in *. lia.
    + rewrite !number_snoc in E. rewrite !Forall_app, !Forall_singleton in *. destruct Hd as [Hd Hc], Hd' as [Hd' Hc'].
      destruct (Z.div_mod_unique b _ _ _ _ (or_introl (Hval ch Hc)) (or_introl (Hval ch' Hc')) E) as [E2 E1].
      rewrite (Hinj ch ch') by done. f_equal. apply IH; try done; [by destruct s|by destruct s'].
Qed.

Lemma numeral_unique s s' :
  Forall digit s → Forall digit s' → s ≠ [] → s' ≠ [] → val zero = 0 → digit zero → (head s = Some zero → s = [zero]) →
  (head s' = Some zero → s' = [zero]) → number b val s = number b val s' → s = s'.
Proof using Hb Hval Hzero Hinj.
  intros Hd Hd' Hn Hn' Hz Hdz Hh Hh' E. assert (H0 : number b val [zero] = 0) by (unfold number; simpl; lia).
  destruct (decide (head s = Some zero)) as [e|e], (decide (head s' = Some zero)) as [e'|e'].
  - by rewrite (Hh e), (Hh' e').
  - pose proof (number_pos s' Hd' Hn' e'). rewrite (Hh e) in E. lia.
  - pose proof (number_pos s Hd Hn e). rewrite (Hh' e') in E. lia.
  - by apply number_inj.
Qed.

End unique.

Lemma dec_numeral_unique v s s' : dec_numeral v s → dec_numeral v s' → s = s'.
Proof.
  intros (L & D & N & Hz) (L' & D' & N' & Hz').
  apply (numeral_unique 10 48 dec_val (λ ch, 48 <= ch <= 57)); try done; try (unfold dec_val; lia);
    try (by intros ->; simpl in *; lia). by rewrite N.
Qed.

Lemma hex_numeral_unique v s s' : hex_numeral v s → hex_numeral v s' → s = s'.
Proof.
  intros (L & D & N & Hz) (L' & D' & N' & Hz').
  assert (H16 : ∀ P : Z → Prop, Forall P hex_chars → ∀ ch, ch ∈ hex_chars → P ch) by (intros P; apply Forall_forall).
  apply (numeral_unique 16 48 hex_val (λ ch, ch ∈ hex_chars)); try done; try lia; try (by intros ->; simpl in *; lia).
  - apply H16. by repeat constructor.
  - apply (H16 (λ ch, hex_val ch = 0 → ch = 48)). by repeat constructor.
  - intros ch ch' H H'. revert ch' H'. apply (H16 (λ ch', hex_val ch = hex_val ch' → ch = ch')). revert ch H.
    apply H16. by repeat (constructor; [by repeat constructor|]).
  - by left.
Qed.

(** ** The meaning of a format *)

(** The conversions: what an argument of each kind is printed as. *)
Inductive converts : Z → vararg → list Z → Prop :=
  | conv_str s : converts 115 (AStr (Some s)) s
  | conv_null : converts 115 (AStr None) null_text
  | conv_char w : converts 99 (AWord w) [u8 w]
  | conv_signed k w d : k = 100 ∨ k = 105 → dec_numeral (Z.abs (i64 w)) d →
      converts k (AWord w) ((if i64 w <? 0 then [45] else []) ++ d)
  | conv_unsigned w d : dec_numeral (u64 w) d → converts 117 (AWord w) d
  | conv_hex k w d : k = 120 ∨ k = 88 ∨ k = 112 → hex_numeral (u64 w) d → converts k (AWord w) (hex_prefix ++ d).

Definition conversion (k : Z) : bool := bool_decide (k ∈ [115; 99; 100; 105; 117; 120; 88; 112]).

Inductive formatted : list Z → list vararg → list Z → Prop :=
  | fmt_end args : formatted [] args []
  | fmt_plain f rest args t : f ≠ 37 → formatted rest args t → formatted (f :: rest) args (f :: t)
  | fmt_conv k rest a args s t : converts k a s → formatted rest args t → formatted (37 :: k :: rest) (a :: args) (s ++ t)
  | fmt_percent rest args t : formatted rest args t → formatted (37 :: 37 :: rest) args (37 :: t)
  | fmt_unknown k rest args t : conversion k = false → k ≠ 37 → formatted rest args t →
      formatted (37 :: k :: rest) args (37 :: k :: t).

(** The word is not the smallest signed integer, which has no negation. *)
Definition negatable (w : Z) : bool := negb (i64 w =? INT64_MIN).

Lemma negatable_u32 x : negatable (u32 x) = true.
Proof.
  unfold negatable, INT64_MIN, i64, u32. pose proof (Z.mod_pos_bound x (2 ^ 32) ltac:(lia)).
  rewrite Z.mod_small by lia. apply negb_true_iff, Z.eqb_neq. lia.
Qed.

(** The arguments fit the format: one of the right kind for each conversion, and
    one that can be negated for a signed one. *)
Definition arg_fits (k : Z) (a : vararg) : bool :=
  match a with
  | AStr _ => k =? 115
  | AWord w => conversion k && negb (k =? 115) && (if (k =? 100) || (k =? 105) then negatable w else true)
  end.

Fixpoint fits_format (fmt : list Z) (args : list vararg) : bool :=
  match fmt with
  | [] => true
  | f :: rest =>
      if f =? 37 then
        match rest with
        | [] => false
        | k :: rest =>
            if conversion k then match args with a :: args => arg_fits k a && fits_format rest args | [] => false end
            else fits_format rest args
        end
      else fits_format rest args
  end.

(** A format denotes one text. *)
Lemma converts_unique k a s s' : converts k a s → converts k a s' → s = s'.
Proof.
  intros H H'. destruct H; inversion H'; subst; try done; try (naive_solver lia).
  - f_equal. by eapply dec_numeral_unique.
  - by eapply dec_numeral_unique.
  - f_equal. by eapply hex_numeral_unique.
Qed.

Lemma converts_conversion k a s : converts k a s → conversion k = true ∧ k ≠ 37.
Proof. intros H. destruct H; destruct_or?; subst; done. Qed.

Lemma formatted_unique fmt args t t' : formatted fmt args t → formatted fmt args t' → t = t'.
Proof.
  intros H. revert t'. induction H; intros t' H'; inversion H'; subst; try done; try (by f_equal; auto);
    try (match goal with H : converts _ _ _ |- _ => destruct (converts_conversion _ _ _ H); congruence end).
  - f_equal; [by eapply converts_unique|auto].
  - do 2 f_equal. auto.
Qed.

(** ** Printing *)

Lemma vga_puts_app c s t : vga_puts c (s ++ t) = vga_puts (vga_puts c s) t.
Proof. apply foldl_app. Qed.

Lemma print_dec_numeral v : is_u64 v → ∃ s, dec_numeral v s ∧ ∀ c, vga_print_dec c v = Some (vga_puts c s).
Proof. intros Hv. destruct (vga_print_dec_spec v Hv) as (s & E & H1 & H2 & H3 & H4). by exists s. Qed.

Lemma print_hex_numeral v : is_u64 v → ∃ s, hex_numeral v s ∧ ∀ c, vga_print_hex c v = Some (vga_puts c (hex_prefix ++ s)).
Proof. intros Hv. destruct (vga_print_hex_spec v Hv) as (s & E & H1 & H2 & H3 & H4). by exists s. Qed.

Lemma i64_range w : - 2 ^ 63 <= i64 w < 2 ^ 63.
Proof. unfold i64. pose proof (Z.mod_pos_bound (w + 2 ^ 63) (2 ^ 64) ltac:(lia)). lia. Qed.

Lemma print_signed_numeral w :
  negatable w = true →
  ∃ d, dec_numeral (Z.abs (i64 w)) d ∧ ∀ c, print_signed c (i64 w) = Some (vga_puts c ((if i64 w <? 0 then [45] else []) ++ d)).
Proof.
  intros Hn%negb_true_iff. pose proof (i64_range w) as Hw. destruct (print_dec_numeral (Z.abs (i64 w))) as (d & Hd & E); [unfold is_u64; lia|].
  exists d. split; [done|]. intros c. unfold print_signed. rewrite Hn. destruct (Z.ltb_spec (i64 w) 0).
  - rewrite u64_id by (unfold is_u64; lia). replace (- i64 w) with (Z.abs (i64 w)) by lia. by rewrite E.
  - rewrite u64_id by (unfold is_u64; lia). replace (i64 w) with (Z.abs (i64 w)) by lia. by rewrite E.
Qed.

(** A conversion and the rest of the format. *)
Lemma kprintf_conv k rest a args :
  conversion k = true → arg_fits k a = true →
  ∃ s, converts k a s ∧ ∀ c, kprintf c (37 :: k :: rest) (a :: args) = kprintf (vga_puts c s) rest args.
Proof.
  intros Hk%bool_decide_eq_true. rewrite !elem_of_cons, elem_of_nil in Hk. destruct a as [s|w]; simpl arg_fits.
  - intros ->%Z.eqb_eq. exists (default null_text s). split; [destruct s; constructor|done].
  - rewrite !andb_true_iff, negb_true_iff, Z.eqb_neq. intros [[_ Hs] Hmin].
    assert (Hc : k = 99 ∨ (k = 100 ∨ k = 105) ∨ k = 117 ∨ (k = 120 ∨ k = 88 ∨ k = 112)) by naive_solver.
    destruct Hc as [->|[Hd|[->|Hx]]].
    + exists [u8 w]. by split; [constructor|].
    + destruct (print_signed_numeral w) as (d & Hn & E); [by destruct Hd as [->| ->]|]. eexists. split; [by apply conv_signed|]. intros c.
      destruct Hd as [->| ->]; cbn [kprintf Z.eqb Pos.eqb orb]; by rewrite E.
    + destruct (print_dec_numeral (u64 w) (u64_range w)) as (d & Hn & E). eexists. split; [by apply conv_unsigned|].
      intros c. cbn [kprintf Z.eqb Pos.eqb orb]. by rewrite E.
    + destruct (print_hex_numeral (u64 w) (u64_range w)) as (d & Hn & E). eexists. split; [by apply conv_hex|].
      intros c. destruct Hx as [->|[->| ->]]; cbn [kprintf Z.eqb Pos.eqb orb]; by rewrite E.
Qed.

Lemma kprintf_unknown k rest args c :
  conversion k = false → k ≠ 37 → kprintf c (37 :: k :: rest) args = kprintf (vga_puts c [37; k]) rest args.
Proof.
  intros Hk%bool_decide_eq_false Hp. rewrite !elem_of_cons, elem_of_nil in Hk. cbn [kprintf Z.eqb Pos.eqb].
  rewrite !(proj2 (Z.eqb_neq k _)) by naive_solver. done.
Qed.

Lemma kprintf_denotes n fmt args :
  (length fmt <= n)%nat → fits_format fmt args = true →
  ∃ t, formatted fmt args t ∧ ∀ c, kprintf c fmt args = Some (vga_puts c t).
Proof.
  revert fmt args. induction n as [|n IH]; intros [|f rest] args Hl Hfit; simpl in Hl; try lia;
    [by exists []; split; [constructor|]..|].
  simpl in Hfit. destruct (Z.eqb_spec f 37) as [->|Hf].
  - destruct rest as [|k rest]; [done|]. simpl in Hl. destruct (conversion k) eqn:Hk.
    + destruct args as [|a args]; [done|]. apply andb_true_iff in Hfit as [Ha Hfit].
      destruct (IH rest args ltac:(lia) Hfit) as (t & Ht & E). destruct (kprintf_conv k rest a args Hk Ha) as (s & Hs & E').
      exists (s ++ t). split; [by constructor|]. intros c. by rewrite E', E, vga_puts_app.
    + destruct (IH rest args ltac:(lia) Hfit) as (t & Ht & E). destruct (Z.eq_dec k 37) as [->|Hp].
      * exists (37 :: t). split; [by constructor|]. intros c. exact (E (vga_putchar c 37)).
      * exists (37 :: k :: t). split; [by constructor|]. intros c. by rewrite kprintf_unknown, E.
  - destruct (IH rest args ltac:(lia) Hfit) as (t & Ht & E). exists (f :: t). split; [by constructor|].
    intros c. cbn [kprintf]. rewrite (proj2 (Z.eqb_neq f 37) Hf). apply E.
Qed.

(** C19. Formatted output.  When the arguments fit the format, [kprintf] returns
    and prints exactly the one text the format denotes, on any console: strings as
    they are, signed and unsigned decimals without leading zeros, hexadecimals
    after 0x, percent signs, and unknown conversions literally.  The smallest
    signed integer does not fit a signed conversion: negating it is undefined. *)
Theorem kprintf_formats fmt args :
  fits_format fmt args = true →
  ∃ t, formatted fmt args t ∧ (∀ t', formatted fmt args t' → t' = t) ∧ ∀ c, kprintf c fmt args = Some (vga_puts c t).
Proof.
  intros Hf. destruct (kprintf_denotes (length fmt) fmt args) as (t & Ht & E); [done|done|]. exists t. split_and!; [done| |done].
  intros t' Ht'. by eapply formatted_unique.
Qed.

(** ** Witnesses *)

Lemma kprintf_formats_witness :
  ∃ t, formatted [120; 61; 37; 100; 33] [AWord 42] t ∧ kprintf wit_console [120; 61; 37; 100; 33] [AWord 42] = Some (vga_puts wit_console t).
Proof.
  destruct (kprintf_formats [120; 61; 37; 100; 33] [AWord 42]) as (t & Ht & _ & E).
  { reflexivity. }
  exists t. exact (conj Ht (E wit_console)).
Defined.
