(* ===== verification/Console.v ===== *)
(** * Messages on the console

    What the kernel says is a list of console actions: colour changes and calls
    of [kprintf], in order.  An [int] or [uint32_t] argument is passed as the
    64-bit word with its upper half zero, which [kprintf] then reads as a whole. *)

From Stdlib Require Import ZArith Lia String.
From stdpp Require Import base numbers list.
From S2P Require Import Prelude.
From S2P Require Import Vga.
From S2P Require Import Kprintf.

Definition VGA_COLOR_RED : Z := 4.
Definition VGA_COLOR_LIGHT_GREEN : Z := 10.
Definition VGA_COLOR_LIGHT_CYAN : Z := 11.
Definition VGA_COLOR_LIGHT_RED : Z := 12.
Definition VGA_COLOR_LIGHT_MAGENTA : Z := 13.
Definition VGA_COLOR_LIGHT_BROWN : Z := 14.
Definition VGA_COLOR_WHITE : Z := 15.

(** ** Console actions *)

Inductive action :=
  | Color (fg bg : Z)
  | Say (format : list Z) (args : list vararg).

Definition perform (a : action) (c : console) : option console :=
  match a with
  | Color fg bg => Some (vga_set_color c fg bg)
  | Say format args => kprintf c format args
  end.

Fixpoint show (l : list action) (c : console) : option console :=
  match l with
  | [] => Some c
  | a :: l => c ← perform a c; show l c
  end.

Definition say (s : string) : action := Say (text s ++ nl) [].
Definition arg32 (x : Z) : vararg := AWord (u32 x).

(** The console after the messages; [show] succeeds for every list below. *)
Definition tell (l : list action) (c : console) : console := default c (show l c).

(** A tag in a colour of its own, then a line. *)
Definition tagged_line (color : Z) (tag : string) (msg : list Z) (args : list vararg) : list action :=
  [Color color VGA_COLOR_BLACK; Say (text tag) []; Color VGA_COLOR_LIGHT_GREY VGA_COLOR_BLACK; Say (msg ++ nl) args].

(** ** What is printed *)

Definition fits (a : action) : bool :=
  match a with Color _ _ => true | Say format args => fits_format format args end.

(** Shows that messages fit: numbers passed as 32-bit arguments can be negated. *)
Ltac fits_messages :=
  repeat match goal with |- context [arg32 ?x] => tryif is_var x then fail else (generalize x; intros ?) end;
  lazy -[negatable u32]; rewrite ?negatable_u32; reflexivity.

(** The text of an action, and the console after printing it. *)
Definition action_text (a : action) (t : list Z) : Prop :=
  match a with Color _ _ => t = [] | Say format args => formatted format args t end.

Definition paint (a : action) (t : list Z) (c : console) : console :=
  match a with Color fg bg => vga_set_color c fg bg | Say _ _ => vga_puts c t end.

Fixpoint paint_all (l : list action) (ts : list (list Z)) (c : console) : console :=
  match l, ts with
  | a :: l, t :: ts => paint_all l ts (paint a t c)
  | _, _ => c
  end.

(** [l] is printed in full: each call of [kprintf] returns and prints the text
    of its format. *)
Definition printed (l : list action) : Prop :=
  ∃ ts, Forall2 action_text l ts ∧ ∀ c, show l c = Some (paint_all l ts c).

Lemma fits_printed l : forallb fits l = true → printed l.
Proof.
  induction l as [|a l IH]; [by exists []|]. simpl. rewrite andb_true_iff. intros [Ha Hl].
  destruct (IH Hl) as (ts & Hts & E). destruct a as [fg bg|format args].
  - exists ([] :: ts). split; [by constructor|]. intros c. apply E.
  - destruct (kprintf_denotes (length format) format args) as (t & Ht & Ek); [done|done|].
    exists (t :: ts). split; [by constructor|]. intros c. simpl. rewrite Ek, bind_Some_eq. apply E.
Qed.

Lemma fits_tell l c : forallb fits l = true → show l c = Some (tell l c).
Proof. intros Hf. destruct (fits_printed l Hf) as (ts & _ & E). unfold tell. by rewrite E. Qed.

Lemma show_app l1 l2 c : show (l1 ++ l2) c = (c ← show l1 c; show l2 c).
Proof. revert c. induction l1 as [|a l1 IH]; intros c; [done|]. simpl. destruct (perform a c); [apply IH|done]. Qed.

Lemma tell_app l1 l2 c : forallb fits l1 = true → forallb fits l2 = true → tell (l1 ++ l2) c = tell l2 (tell l1 c).
Proof. intros H1 H2. unfold tell at 1. by rewrite show_app, (fits_tell l1 c H1), bind_Some_eq, (fits_tell l2 _ H2). Qed.
