(* ===== verification/Proc.v ===== *)
(** * Processes and the scheduler: kernel/proc/process.c, kernel/proc/sched.c

    The process table is a map from slots 0..63 to process control blocks, a
    [process_t*] is a slot number and NULL is [None].  The run queue is the
    doubly linked list threaded through the blocks' [next] and [prev] fields.
    Stacks and descriptor tables come from an interface ([ProcEnv]).
    [schedule] is modelled up to the context switch: the state after it is the
    one the next process runs in.

    The theorems show that the linked queue refines a list of slots, that over
    every sequence of operations exactly the ready processes are queued, once,
    and exactly one process runs, and that a queued process runs after a
    bounded number of timer ticks. *)

From Stdlib Require Import ZArith Lia String.
From stdpp Require Import base numbers list sets relations.
From S2P Require Import Prelude.
From S2P Require Import Vga.
From S2P Require Import Console.

Definition MAX_PROCESSES : Z := 64.
Definition PROCESS_NAME_MAX : Z := 32.
Definition KERNEL_STACK_SIZE : Z := 8192.
Definition DEFAULT_TIME_SLICE : Z := 10.
Definition CWD_MAX : Z := 256.

Inductive process_state_t :=
  | PROCESS_STATE_UNUSED
  | PROCESS_STATE_READY
  | PROCESS_STATE_RUNNING
  | PROCESS_STATE_BLOCKED
  | PROCESS_STATE_TERMINATED.

#[export] Instance process_state_t_eq_dec : EqDecision process_state_t.
Proof. solve_decision. Defined.

Definition PROCESS_FLAG_KERNEL : Z := 0x01.
Definition PROCESS_FLAG_IDLE : Z := 0x02.
Definition PROCESS_FLAG_USER : Z := 0x04.

Record process_t := Process {
  pid : Z;
  p_name : list Z;
  p_state : process_state_t;
  flags : Z;
  kernel_stack : Z;
  kernel_stack_top : Z;
  rsp : Z;
  entry : Z;
  entry_arg : Z;
  time_slice : Z;
  priority : Z;
  total_ticks : Z;
  next : option Z;
  prev : option Z;
  exit_code : Z;
  parent_pid : Z;
  wake_tick : Z;
  pml4_phys : Z;
  user_stack : Z;
  user_stack_top : Z;
  user_rsp : Z;
  user_code : Z;
  user_code_size : Z;
  fd_table : Z;
  cwd : list Z
}.

(** Assignments to single fields. *)
Definition set_state (v : process_state_t) (p : process_t) : process_t :=
  Process (pid p) (p_name p) v (flags p) (kernel_stack p) (kernel_stack_top p) (rsp p) (entry p)
    (entry_arg p) (time_slice p) (priority p) (total_ticks p) (next p) (prev p) (exit_code p)
    (parent_pid p) (wake_tick p) (pml4_phys p) (user_stack p) (user_stack_top p) (user_rsp p)
    (user_code p) (user_code_size p) (fd_table p) (cwd p).
Definition set_time_slice (v : Z) (p : process_t) : process_t :=
  Process (pid p) (p_name p) (p_state p) (flags p) (kernel_stack p) (kernel_stack_top p) (rsp p) (entry p)
    (entry_arg p) v (priority p) (total_ticks p) (next p) (prev p) (exit_code p)
    (parent_pid p) (wake_tick p) (pml4_phys p) (user_stack p) (user_stack_top p) (user_rsp p)
    (user_code p) (user_code_size p) (fd_table p) (cwd p).
Definition set_total_ticks (v : Z) (p : process_t) : process_t :=
  Process (pid p) (p_name p) (p_state p) (flags p) (kernel_stack p) (kernel_stack_top p) (rsp p) (entry p)
    (entry_arg p) (time_slice p) (priority p) v (next p) (prev p) (exit_code p)
    (parent_pid p) (wake_tick p) (pml4_phys p) (user_stack p) (user_stack_top p) (user_rsp p)
    (user_code p) (user_code_size p) (fd_table p) (cwd p).
Definition set_next (v : option Z) (p : process_t) : process_t :=
  Process (pid p) (p_name p) (p_state p) (flags p) (kernel_stack p) (kernel_stack_top p) (rsp p) (entry p)
    (entry_arg p) (time_slice p) (priority p) (total_ticks p) v (prev p) (exit_code p)
    (parent_pid p) (wake_tick p) (pml4_phys p) (user_stack p) (user_stack_top p) (user_rsp p)
    (user_code p) (user_code_size p) (fd_table p) (cwd p).
Definition set_prev (v : option Z) (p : process_t) : process_t :=
  Process (pid p) (p_name p) (p_state p) (flags p) (kernel_stack p) (kernel_stack_top p) (rsp p) (entry p)
    (entry_arg p) (time_slice p) (priority p) (total_ticks p) (next p) v (exit_code p)
    (parent_pid p) (wake_tick p) (pml4_phys p) (user_stack p) (user_stack_top p) (user_rsp p)
    (user_code p) (user_code_size p) (fd_table p) (cwd p).
Definition set_exit_code (v : Z) (p : process_t) : process_t :=
  Process (pid p) (p_name p) (p_state p) (flags p) (kernel_stack p) (kernel_stack_top p) (rsp p) (entry p)
    (entry_arg p) (time_slice p) (priority p) (total_ticks p) (next p) (prev p) v
    (parent_pid p) (wake_tick p) (pml4_phys p) (user_stack p) (user_stack_top p) (user_rsp p)
    (user_code p) (user_code_size p) (fd_table p) (cwd p).
Definition set_wake_tick (v : Z) (p : process_t) : process_t :=
  Process (pid p) (p_name p) (p_state p) (flags p) (kernel_stack p) (kernel_stack_top p) (rsp p) (entry p)
    (entry_arg p) (time_slice p) (priority p) (total_ticks p) (next p) (prev p) (exit_code p)
    (parent_pid p) v (pml4_phys p) (user_stack p) (user_stack_top p) (user_rsp p)
    (user_code p) (user_code_size p) (fd_table p) (cwd p).
Definition set_fd_table (v : Z) (p : process_t) : process_t :=
  Process (pid p) (p_name p) (p_state p) (flags p) (kernel_stack p) (kernel_stack_top p) (rsp p) (entry p)
    (entry_arg p) (time_slice p) (priority p) (total_ticks p) (next p) (prev p) (exit_code p)
    (parent_pid p) (wake_tick p) (pml4_phys p) (user_stack p) (user_stack_top p) (user_rsp p)
    (user_code p) (user_code_size p) v (cwd p).
Definition set_kernel_stack (v : Z) (p : process_t) : process_t :=
  Process (pid p) (p_name p) (p_state p) (flags p) v (kernel_stack_top p) (rsp p) (entry p)
    (entry_arg p) (time_slice p) (priority p) (total_ticks p) (next p) (prev p) (exit_code p)
    (parent_pid p) (wake_tick p) (pml4_phys p) (user_stack p) (user_stack_top p) (user_rsp p)
    (user_code p) (user_code_size p) (fd_table p) (cwd p).
Definition set_cwd (v : list Z) (p : process_t) : process_t :=
  Process (pid p) (p_name p) (p_state p) (flags p) (kernel_stack p) (kernel_stack_top p) (rsp p) (entry p)
    (entry_arg p) (time_slice p) (priority p) (total_ticks p) (next p) (prev p) (exit_code p)
    (parent_pid p) (wake_tick p) (pml4_phys p) (user_stack p) (user_stack_top p) (user_rsp p)
    (user_code p) (user_code_size p) (fd_table p) v.

(** What process.c uses of the rest of the kernel: kmalloc and kfree, a 64-bit
    store to a stack, the descriptor tables of fs/file.c, the console, and the
    linked address of [process_entry_wrapper]. *)
Class ProcEnv (W : Type) := {
  env_process_entry_wrapper : Z;
  env_kmalloc : Z → W → Z * W;
  env_kfree : Z → W → W;
  env_store64 : Z → Z → W → W;
  env_fd_table_create : W → Z * W;
  env_fd_init_stdio : Z → W → W;
  env_fd_table_destroy : Z → W → W;
  env_tell : list action → W → W
}.

(** The static variables of process.c and sched.c. *)
Record sys (W : Type) := Sys {
  process_table : Z → process_t;
  next_pid : Z;
  current_process : option Z;
  run_queue_head : option Z;
  run_queue_tail : option Z;
  scheduler_running : bool;
  need_reschedule : bool;
  idle_process : option Z;
  s_world : W
}.
Arguments Sys {W}.
Arguments process_table {W}.
Arguments next_pid {W}.
Arguments current_process {W}.
Arguments run_queue_head {W}.
Arguments run_queue_tail {W}.
Arguments scheduler_running {W}.
Arguments need_reschedule {W}.
Arguments idle_process {W}.
Arguments s_world {W}.

Definition update (t : Z → process_t) (i : Z) (f : process_t → process_t) : Z → process_t :=
  λ j, if j =? i then f (t i) else t j.

Section operations.
Context {W : Type} `{ProcEnv W}.
Implicit Types s : sys W.

(** [proc->field = v] for the process in slot [i]. *)
Definition on s (i : Z) (f : process_t → process_t) : sys W :=
  Sys (update (process_table s) i f) (next_pid s) (current_process s) (run_queue_head s)
    (run_queue_tail s) (scheduler_running s) (need_reschedule s) (idle_process s) (s_world s).
Definition set_queue s (hd tl : option Z) : sys W :=
  Sys (process_table s) (next_pid s) (current_process s) hd tl (scheduler_running s)
    (need_reschedule s) (idle_process s) (s_world s).
Definition set_current s (c : option Z) : sys W :=
  Sys (process_table s) (next_pid s) c (run_queue_head s) (run_queue_tail s) (scheduler_running s)
    (need_reschedule s) (idle_process s) (s_world s).
Definition set_need s (b : bool) : sys W :=
  Sys (process_table s) (next_pid s) (current_process s) (run_queue_head s) (run_queue_tail s)
    (scheduler_running s) b (idle_process s) (s_world s).
Definition set_running s (b : bool) : sys W :=
  Sys (process_table s) (next_pid s) (current_process s) (run_queue_head s) (run_queue_tail s)
    b (need_reschedule s) (idle_process s) (s_world s).
Definition set_idle s (i : option Z) : sys W :=
  Sys (process_table s) (next_pid s) (current_process s) (run_queue_head s) (run_queue_tail s)
    (scheduler_running s) (need_reschedule s) i (s_world s).
Definition set_world s (w : W) : sys W :=
  Sys (process_table s) (next_pid s) (current_process s) (run_queue_head s) (run_queue_tail s)
    (scheduler_running s) (need_reschedule s) (idle_process s) w.
Definition set_next_pid s (n : Z) : sys W :=
  Sys (process_table s) n (current_process s) (run_queue_head s) (run_queue_tail s)
    (scheduler_running s) (need_reschedule s) (idle_process s) (s_world s).

(** Messages. *)
Definition says s (l : list action) : sys W := set_world s (env_tell l (s_world s)).

Definition is_idle (p : process_t) : bool := negb (Z.land (flags p) PROCESS_FLAG_IDLE =? 0).

(** ** Run queue: sched.c *)

Definition sched_add s (proc : option Z) : sys W :=
  match proc with
  | None => s
  | Some i =>
      let p := process_table s i in
      if is_idle p then s
      else if bool_decide (next p ≠ None) || bool_decide (prev p ≠ None)
              || bool_decide (run_queue_head s = Some i) then s
      else
        let s := if bool_decide (p_state p = PROCESS_STATE_READY) then s
                 else on s i (set_state PROCESS_STATE_READY) in
        let s := on s i (set_prev (run_queue_tail s)) in
        let s := on s i (set_next None) in
        match run_queue_tail s with
        | Some t => set_queue (on s t (set_next (Some i))) (run_queue_head s) (Some i)
        | None => set_queue s (Some i) (Some i)
        end
  end.

Definition sched_remove s (proc : option Z) : sys W :=
  match proc with
  | None => s
  | Some i =>
      let p := process_table s i in
      let s := match prev p with
               | Some q => on s q (set_next (next p))
               | None => set_queue s (next p) (run_queue_tail s)
               end in
      let s := match next p with
               | Some n => on s n (set_prev (prev p))
               | None => set_queue s (run_queue_head s) (prev p)
               end in
      on (on s i (set_next None)) i (set_prev None)
  end.

Definition sched_pick_next s : option Z * sys W :=
  match run_queue_head s with
  | Some i =>
      let hd := next (process_table s i) in
      let s := match hd with
               | Some j => on (set_queue s hd (run_queue_tail s)) j (set_prev None)
               | None => set_queue s None None
               end in
      (Some i, on (on s i (set_next None)) i (set_prev None))
  | None => (idle_process s, s)
  end.

(** [sched_ready_count]: walks the [next] links. *)
Definition sched_ready_count s : option Z :=
  loop (λ '(p, count), match p with
                       | Some i => Next (next (process_table s i), count +32 1)
                       | None => Stop count
                       end) (run_queue_head s, 0).

(** [schedule], up to the context switch. *)
Definition schedule s : sys W :=
  if negb (scheduler_running s) then s
  else match current_process s with
  | None => s
  | Some c =>
      let '(nxt, s) := sched_pick_next s in
      let nxt := match nxt with Some n => Some n | None => idle_process s end in
      match nxt with
      | None => s
      | Some n =>
          if n =? c then on s n (set_time_slice DEFAULT_TIME_SLICE)
          else
            let s := if bool_decide (p_state (process_table s c) = PROCESS_STATE_RUNNING) then
                       let s := on s c (set_state PROCESS_STATE_READY) in
                       let s := on s c (set_time_slice DEFAULT_TIME_SLICE) in
                       sched_add s (Some c)
                     else s in
            let s := on s n (set_state PROCESS_STATE_RUNNING) in
            let s := on s n (set_time_slice DEFAULT_TIME_SLICE) in
            set_current s (Some n)
      end
  end.

Definition sched_reschedule s : sys W := set_need s true.

(** ** Sleeping processes: process.c *)

Definition wake_one (tick : Z) (i : Z) s : sys W :=
  let p := process_table s i in
  if bool_decide (p_state p = PROCESS_STATE_BLOCKED) && (0 <? wake_tick p) && (wake_tick p <=? tick) then
    let s := on s i (set_state PROCESS_STATE_READY) in
    let s := on s i (set_wake_tick 0) in
    let s := on s i (set_time_slice DEFAULT_TIME_SLICE) in
    sched_add s (Some i)
  else s.

Definition process_wake_sleeping s (current_tick : Z) : sys W :=
  for_each 0 MAX_PROCESSES (wake_one current_tick) s.

(** [sched_tick]; [ticks] is the value of [pit_get_ticks()]. *)
Definition sched_tick s (ticks : Z) : sys W :=
  if negb (scheduler_running s) then s
  else
    let s := process_wake_sleeping s ticks in
    match current_process s with
    | None => s
    | Some c =>
        let s := on s c (λ p, set_total_ticks (total_ticks p +64 1) p) in
        let s := if 0 <? time_slice (process_table s c)
                 then on s c (λ p, set_time_slice (time_slice p - 1) p) else s in
        let s := if time_slice (process_table s c) =? 0 then
                   if negb (is_idle (process_table s c)) || bool_decide (run_queue_head s ≠ None)
                   then set_need s true
                   else on s c (set_time_slice DEFAULT_TIME_SLICE)
                 else s in
        if need_reschedule s then schedule (set_need s false) else s
    end.

(** ** Process table: process.c *)

Definition find_free_slot s : option Z :=
  find_first 0 MAX_PROCESSES (λ i, bool_decide (p_state (process_table s i) = PROCESS_STATE_UNUSED)).

Definition process_get s (id : Z) : option Z :=
  find_first 0 MAX_PROCESSES (λ i,
    bool_decide (p_state (process_table s i) ≠ PROCESS_STATE_UNUSED) && (pid (process_table s i) =? id)).

(** [str_copy]: at most [max - 1] characters and the terminator. *)
Definition str_copy (src : list Z) (max : Z) : list Z := take (Z.to_nat (max - 1)) src.

(** Seven words below the stack top: the return address of the first context
    switch and six zero registers. *)
Definition setup_initial_stack (top : Z) (w : W) : Z * W :=
  let w := env_store64 (top -64 8) env_process_entry_wrapper w in
  let w := for_each 2 8 (λ k w, env_store64 (top -64 8 * k) 0 w) w in
  (top -64 56, w).

Definition stack_top (stack : Z) : Z := Z.land (stack +64 KERNEL_STACK_SIZE) (Z.lnot 0xF).

Definition unnamed : list Z := [117; 110; 110; 97; 109; 101; 100].
Definition idle_name : list Z := [105; 100; 108; 101].
Definition root_dir : list Z := [47].

(** [fd_table_create] and, when it succeeds, [fd_init_stdio]. *)
Definition new_fd_table (w : W) : Z * W :=
  let '(t, w) := env_fd_table_create w in
  (t, if negb (t =? 0) then env_fd_init_stdio t w else w).

(** [process_init]; [None] is a kernel panic. *)
Definition process_init s (idle_entry : Z) : option (sys W) :=
  let t := for_each 0 MAX_PROCESSES (λ i t,
             update t i (λ p,
               Process 0 (p_name p) PROCESS_STATE_UNUSED (flags p) 0 (kernel_stack_top p) (rsp p)
                 (entry p) (entry_arg p) (time_slice p) (priority p) (total_ticks p) (next p) (prev p)
                 (exit_code p) (parent_pid p) (wake_tick p) (pml4_phys p) (user_stack p) (user_stack_top p) (user_rsp p)
    (user_code p) (user_code_size p) 0 root_dir))
             (process_table s) in
  let '(stack, w) := env_kmalloc KERNEL_STACK_SIZE (s_world s) in
  if stack =? 0 then None
  else
    let top := stack_top stack in
    let '(sp, w) := setup_initial_stack top w in
    let '(fds, w) := new_fd_table w in
    let idle p :=
      Process 0 (str_copy idle_name PROCESS_NAME_MAX) PROCESS_STATE_READY
        (Z.lor PROCESS_FLAG_KERNEL PROCESS_FLAG_IDLE) stack top sp idle_entry 0 DEFAULT_TIME_SLICE 0 0
        None None 0 0 (wake_tick p) (pml4_phys p) (user_stack p) (user_stack_top p) (user_rsp p)
    (user_code p) (user_code_size p) fds root_dir in
    let s := Sys (update t 0 idle) 1 (Some 0) (run_queue_head s) (run_queue_tail s) (scheduler_running s)
               (need_reschedule s) (idle_process s) w in
    Some (says s (tagged_line VGA_COLOR_LIGHT_GREEN "[PROC] " (text "Idle process created (PID 0)") [])).

(** [process_create]; [None] is the error return [(pid_t)-1]. *)
Definition process_create s (name : option (list Z)) (ent arg : Z) : option Z * sys W :=
  match find_free_slot s with
  | None => (None, says s [say "[PROC] Error: No free process slots"])
  | Some i =>
      let s := if negb (kernel_stack (process_table s i) =? 0) then
                 on (set_world s (env_kfree (kernel_stack (process_table s i)) (s_world s))) i
                   (set_kernel_stack 0)
               else s in
      let s := if negb (fd_table (process_table s i) =? 0) then
                 on (set_world s (env_fd_table_destroy (fd_table (process_table s i)) (s_world s))) i
                   (set_fd_table 0)
               else s in
      let '(stack, w) := env_kmalloc KERNEL_STACK_SIZE (s_world s) in
      if stack =? 0 then
        (None, says (set_world s w) [Say (text "[PROC] Error: Failed to allocate stack for '%s'" ++ nl) [AStr name]])
      else
        let top := stack_top stack in
        let '(sp, w) := setup_initial_stack top w in
        let '(fds, w) := new_fd_table w in
        let id := next_pid s in
        let parent := match current_process s with
                      | Some c => pid (process_table s c) | None => 0 end in
        let dir := match current_process s with
                   | Some c => match cwd (process_table s c) with
                               | [] => root_dir
                               | d => str_copy d CWD_MAX
                               end
                   | None => root_dir
                   end in
        let s := on (set_next_pid (set_world s w) (id +64 1)) i (λ p,
                   Process id (str_copy (default unnamed name) PROCESS_NAME_MAX) PROCESS_STATE_READY
                     PROCESS_FLAG_KERNEL stack top sp ent arg DEFAULT_TIME_SLICE 1 0 None None 0 parent
                     (wake_tick p) (pml4_phys p) (user_stack p) (user_stack_top p) (user_rsp p)
    (user_code p) (user_code_size p) fds dir) in
        let s := sched_add s (Some i) in
        (Some id, says s (tagged_line VGA_COLOR_LIGHT_GREEN "[PROC] " (text "Created process '%s' (PID %d)")
                            [AStr (Some (p_name (process_table s i))); arg32 (pid (process_table s i))]))
  end.

(** [process_exit]; [None] is a kernel panic: no current process, the idle
    process, or a return from [schedule]. *)
Definition process_exit s (code : Z) : option (sys W) :=
  match current_process s with
  | None => None
  | Some c =>
      if is_idle (process_table s c) then None
      else
        let s := says s (tagged_line VGA_COLOR_LIGHT_BROWN "[PROC] " (text "Process '%s' (PID %d) exiting with code %d")
                           [AStr (Some (p_name (process_table s c))); arg32 (pid (process_table s c)); arg32 code]) in
        let s := if negb (fd_table (process_table s c) =? 0) then
                   on (set_world s (env_fd_table_destroy (fd_table (process_table s c)) (s_world s))) c
                     (set_fd_table 0)
                 else s in
        let s := on (on s c (set_state PROCESS_STATE_TERMINATED)) c (set_exit_code code) in
        let s' := schedule s in
        if bool_decide (current_process s' = Some c) then None else Some s'
  end.

Definition process_yield s : sys W :=
  match current_process s with
  | None => s
  | Some c =>
      let s := on s c (set_time_slice DEFAULT_TIME_SLICE) in
      schedule (sched_reschedule s)
  end.

Definition process_block s : sys W :=
  match current_process s with
  | None => s
  | Some c =>
      if is_idle (process_table s c) then s
      else schedule (on s c (set_state PROCESS_STATE_BLOCKED))
  end.

Definition process_unblock s (id : Z) : sys W :=
  match process_get s id with
  | Some i =>
      if bool_decide (p_state (process_table s i) = PROCESS_STATE_BLOCKED) then
        let s := on s i (set_state PROCESS_STATE_READY) in
        let s := on s i (set_time_slice DEFAULT_TIME_SLICE) in
        sched_add s (Some i)
      else s
  | None => s
  end.

(** [process_count(state)]; [None] is a negative argument: all but unused. *)
Definition process_count s (st : option process_state_t) : Z :=
  for_each 0 MAX_PROCESSES (λ i count,
    let hit := match st with
               | None => bool_decide (p_state (process_table s i) ≠ PROCESS_STATE_UNUSED)
               | Some st => bool_decide (p_state (process_table s i) = st)
               end in
    if hit then count +32 1 else count) 0.

(** ** Starting up: sched.c *)

Definition sched_init s : option (sys W) :=
  match process_get s 0 with
  | None => None
  | Some i =>
      let s := set_need (set_running (set_queue (set_idle s (Some i)) None None) false) false in
      Some (says s (tagged_line VGA_COLOR_LIGHT_GREEN "[SCHED] " (text "Scheduler initialized (round-robin, %d ms quantum)")
                      [arg32 (DEFAULT_TIME_SLICE * 10)]))
  end.

Definition sched_start s : option (sys W) :=
  count ← sched_ready_count s;
  let s := says s (tagged_line VGA_COLOR_LIGHT_GREEN "[SCHED] " (text "Starting scheduler with %d ready processes") [arg32 count]) in
  let '(first, s) := sched_pick_next s in
  match first with
  | None => None
  | Some i =>
      let s := set_running s true in
      let s := on s i (set_state PROCESS_STATE_RUNNING) in
      let s := on s i (set_time_slice DEFAULT_TIME_SLICE) in
      let s := set_current s (Some i) in
      Some (says s (tagged_line VGA_COLOR_LIGHT_CYAN "[SCHED] " (text "Switching to first process: '%s' (PID %d)")
                      [AStr (Some (p_name (process_table s i))); arg32 (pid (process_table s i))]))
  end.

End operations.

#[global] Arguments sched_add : simpl never.
#[global] Arguments sched_pick_next : simpl never.
#[global] Arguments schedule : simpl never.
#[global] Arguments process_wake_sleeping : simpl never.

(** ** The queue as a list *)

(** A control block without its queue links. *)
Definition core (p : process_t) : process_t := set_next None (set_prev None p).

(** The doubly linked list from [hd] to [tl] visits exactly the slots [q]; the
    blocks of all other slots are unlinked. *)
Record links (t : Z → process_t) (hd tl : option Z) (q : list Z) : Prop := {
  lk_head : hd = head q;
  lk_tail : tl = last q;
  lk_nodup : NoDup q;
  lk_in : ∀ k i, q !! k = Some i →
    next (t i) = q !! S k ∧ prev (t i) = match k with O => None | S k' => q !! k' end;
  lk_out : ∀ i, i ∉ q → next (t i) = None ∧ prev (t i) = None
}.

Lemma update_at t i f j : update t i f j = if j =? i then f (t i) else t j.
Proof. done. Qed.

Lemma update_eq t i f : update t i f i = f (t i).
Proof. unfold update. by rewrite Z.eqb_refl. Qed.
Lemma update_ne t i f j : j ≠ i → update t i f j = t j.
Proof. intros Hne. unfold update. by rewrite (proj2 (Z.eqb_neq j i) Hne). Qed.

(** Read updated slots, splitting on whether the slots are the same. *)
Ltac slots :=
  repeat match goal with
  | |- context [update _ ?i _ ?i] => rewrite update_eq
  | |- context [update _ ?i _ ?j] =>
      first [ rewrite (update_ne _ i _ j) by (done || congruence || lia)
            | let E := fresh "Es" in
              destruct (decide (j = i)) as [E|E]; [try subst|rewrite (update_ne _ i _ j) by done] ]
  end.

Lemma links_head_lookup t hd tl q : links t hd tl q → hd = q !! 0%nat.
Proof. intros [-> _ _ _ _]. by destruct q. Qed.

(** ** Appending and popping *)

Lemma links_append t hd tl q i :
  links t hd tl q → i ∉ q →
  let t1 := update (update t i (set_prev tl)) i (set_next None) in
  let t2 := match tl with Some l => update t1 l (set_next (Some i)) | None => t1 end in
  links t2 (match tl with Some _ => hd | None => Some i end) (Some i) (q ++ [i]).
Proof.
  intros [Hh Ht Hn Hin Hout] Hi. simpl. destruct q as [|l q0 _] using rev_ind.
  - simpl in *. subst. split; simpl; [done|done|by apply NoDup_singleton| |].
    + intros [|k] j; simpl; [|done]. intros [= ->]. slots. done.
    + intros j Hj. rewrite list_elem_of_singleton in Hj. slots; try done; apply Hout; set_solver.
  - rewrite last_snoc in Ht. subst tl. apply not_elem_of_app in Hi as [Hi0 Hil].
    assert (i ≠ l) by set_solver. apply NoDup_app in Hn as (Hn0 & Hd & _).
    assert (Hnd : NoDup ((q0 ++ [l]) ++ [i])).
    { apply NoDup_app. split_and!; [|set_solver|apply NoDup_singleton].
      apply NoDup_app. split_and!; [done|set_solver|apply NoDup_singleton]. }
    split; [| |done| |].
    + rewrite Hh. by destruct q0.
    + by rewrite last_snoc.
    + intros k j Hk. pose proof Hk as Hk0.
      apply lookup_app_Some in Hk as [Hk|[Hlen Hk]].
      * assert (j ≠ i) by (intros ->; apply list_elem_of_lookup_2 in Hk; set_solver).
        pose proof (lookup_lt_Some _ _ _ Hk) as Hlt. destruct (Hin k j Hk) as [Hnx Hpv].
        assert (Hpv' : match k with O => None | S k' => ((q0 ++ [l]) ++ [i]) !! k' end
                       = match k with O => None | S k' => (q0 ++ [l]) !! k' end).
        { destruct k; [done|]. by rewrite lookup_app_l by lia. }
        rewrite Hpv'. destruct (decide (j = l)) as [->|Hjl].
        -- assert (k = length q0) as ->.
           { eapply (NoDup_lookup _ _ _ _ Hnd Hk0). rewrite lookup_app_l by (rewrite length_app; simpl; lia).
             by rewrite list_lookup_middle. }
           slots; try done. simpl. split; [|done].
           rewrite lookup_app_r by (rewrite length_app; simpl; lia). rewrite length_app. simpl.
           by replace (S (length q0) - (length q0 + 1))%nat with 0%nat by lia.
        -- slots; try done. split; [|done]. rewrite Hnx.
           rewrite length_app in Hlt. simpl in Hlt.
           assert (S k < length (q0 ++ [l]))%nat.
           { rewrite length_app. simpl. destruct (decide (k = length q0)) as [->|]; [|lia].
             rewrite list_lookup_middle in Hk by done. congruence. }
           by rewrite (lookup_app_l (q0 ++ [l])).
      * apply list_lookup_singleton_Some in Hk as [Hk <-].
        assert (k = length (q0 ++ [l])) as -> by lia. slots; try done. simpl. split.
        -- rewrite lookup_ge_None_2; [done|]. rewrite (length_app (q0 ++ [l])). simpl. lia.
        -- rewrite length_app. simpl. replace (length q0 + 1)%nat with (S (length q0)) by lia.
           rewrite lookup_app_l by (rewrite length_app; simpl; lia). by rewrite list_lookup_middle.
    + intros j Hj. apply not_elem_of_app in Hj as [Hj1 Hj2].
      assert (j ≠ l) by set_solver. assert (j ≠ i) by set_solver. slots; try done. by apply Hout.
Qed.

Lemma links_pop t tl i q :
  links t (Some i) tl (i :: q) →
  let t1 := match next (t i) with Some j => update t j (set_prev None) | None => t end in
  links (update (update t1 i (set_next None)) i (set_prev None)) (next (t i))
    (match next (t i) with Some _ => tl | None => None end) q.
Proof.
  intros [_ Ht Hn Hin Hout]. apply NoDup_cons in Hn as [Hi Hn].
  destruct (Hin 0%nat i eq_refl) as [Hnx _]. simpl in Hnx. rewrite Hnx.
  assert (Hq : ∀ k j, q !! k = Some j → next (t j) = q !! S k
    ∧ prev (t j) = match k with O => Some i | S k' => q !! k' end ∧ j ≠ i).
  { intros k j Hk. destruct (Hin (S k) j Hk) as [H1 H2]. split_and!; [done|by destruct k|].
    intros ->. by apply list_elem_of_lookup_2 in Hk. }
  destruct q as [|j0 q0]; simpl.
  - split; [done|done|done|done|]. intros j _. slots; [done|]. apply Hout. set_solver.
  - split; [done|by rewrite Ht|done| |].
    + intros k j Hk. destruct (Hq k j Hk) as (H1 & H2 & H3). slots; try done.
      * simpl. split; [done|]. assert (k = 0%nat) as ->; [|done].
        by apply (NoDup_lookup _ _ _ _ Hn Hk).
      * split; [done|]. destruct k; [|done]. simpl in Hk. congruence.
    + intros j Hj. slots; try done; try set_solver; apply Hout; set_solver.
Qed.

(** A change of fields other than the links. *)
Lemma links_core t t' hd tl q :
  links t hd tl q → (∀ i, next (t' i) = next (t i) ∧ prev (t' i) = prev (t i)) → links t' hd tl q.
Proof.
  intros [H1 H2 H3 H4 H5] Hc. split; auto.
  - intros k i Hk. destruct (Hc i) as [-> ->]. by apply H4.
  - intros i Hi. destruct (Hc i) as [-> ->]. by apply H5.
Qed.

Section queue.
Context {W : Type}.
Implicit Types s : sys W.

Definition queue_of s (q : list Z) : Prop := links (process_table s) (run_queue_head s) (run_queue_tail s) q.

(** The parts of the state that queue operations leave alone. *)
Definition same_rest s s' : Prop :=
  next_pid s' = next_pid s ∧ current_process s' = current_process s
  ∧ scheduler_running s' = scheduler_running s ∧ need_reschedule s' = need_reschedule s
  ∧ idle_process s' = idle_process s ∧ s_world s' = s_world s.

Lemma same_rest_refl s : same_rest s s.
Proof. by unfold same_rest. Qed.

Lemma sched_add_spec s q i :
  queue_of s q → i ∉ q → is_idle (process_table s i) = false →
  let s' := sched_add s (Some i) in
  queue_of s' (q ++ [i]) ∧ same_rest s s'
  ∧ ∀ j, core (process_table s' j)
         = core (update (process_table s) i (set_state PROCESS_STATE_READY) j).
Proof.
  intros Hq Hi Hidle. destruct (lk_out _ _ _ _ Hq i Hi) as [Hn Hp].
  unfold sched_add. rewrite Hidle, Hn, Hp.
  rewrite (bool_decide_false (run_queue_head s = Some i)).
  2: { rewrite (links_head_lookup _ _ _ _ Hq). intros ?%list_elem_of_lookup_2. done. }
  simpl orb. cbv iota.
  set (s0 := if bool_decide _ then s else _).
  assert (Hs0 : queue_of s0 q ∧ same_rest s s0 ∧ run_queue_tail s0 = run_queue_tail s
    ∧ run_queue_head s0 = run_queue_head s
    ∧ ∀ j, process_table s0 j = update (process_table s) i (set_state PROCESS_STATE_READY) j).
  { unfold s0. case_bool_decide as Hst.
    - split_and!; try done. intros j. slots; [|done]. rewrite <- Hst. by destruct (process_table s i).
    - split_and!; try done.
      + apply (links_core (process_table s)); [done|]. intros j. simpl. slots; done.
}
  destruct Hs0 as (Hq0 & (? & ? & ? & ? & ? & ?) & Ht0 & Hh0 & Htab).
  pose proof (links_append _ _ _ _ _ Hq0 Hi) as Happ. simpl in Happ |- *.
  rewrite Ht0, Hh0 in *.
  destruct (run_queue_tail s) as [l|]; simpl; (split; [exact Happ|]; split; [done|]);
    intros j; simpl; slots; rewrite ?Htab; slots; done.
Qed.

Lemma sched_pick_next_cons s i q :
  queue_of s (i :: q) →
  ∃ s', sched_pick_next s = (Some i, s') ∧ queue_of s' q ∧ same_rest s s'
    ∧ ∀ j, core (process_table s' j) = core (process_table s j).
Proof.
  intros Hq. pose proof (lk_head _ _ _ _ Hq) as Hh. simpl in Hh. unfold sched_pick_next. rewrite Hh.
  eexists. split; [done|]. unfold queue_of in *. rewrite Hh in Hq.
  pose proof (links_pop _ _ _ _ Hq) as Hpop.
  destruct (next (process_table s i)) as [j0|]; simpl in *; (split; [exact Hpop|]; split; [done|]);
    intros j; simpl; slots; done.
Qed.

Lemma sched_pick_next_nil s : queue_of s [] → sched_pick_next s = (idle_process s, s).
Proof. intros Hq. unfold sched_pick_next. by rewrite (lk_head _ _ _ _ Hq). Qed.

End queue.

(** ** The scheduler invariant *)

Definition slot_ok (i : Z) : Prop := 0 <= i < MAX_PROCESSES.

Section invariant.
Context {W : Type}.
Implicit Types s : sys W.

(** Field accesses through the table. *)
Definition st s (i : Z) : process_state_t := p_state (process_table s i).
Definition slice s (i : Z) : Z := time_slice (process_table s i).

(** Facts about queue and table that hold also before the scheduler runs: the
    queue holds exactly the ready processes other than the idle process in
    slot 0. *)
Record base_wf s (q : list Z) : Prop := {
  bw_queue : queue_of s q;
  bw_ready : ∀ i, i ∈ q ↔ slot_ok i ∧ st s i = PROCESS_STATE_READY ∧ i ≠ 0;
  bw_flag : ∀ i, slot_ok i → is_idle (process_table s i) = bool_decide (i = 0);
  bw_idle : idle_process s = Some 0
}.

(** In the middle of an operation of the current process [c]: it alone may be
    running, and the idle process is. *)
Record mid_wf s (q : list Z) (c : Z) : Prop := {
  mw_base : base_wf s q;
  mw_run : scheduler_running s = true;
  mw_current : current_process s = Some c;
  mw_slot : slot_ok c;
  mw_others : ∀ i, slot_ok i → i ≠ c → st s i ≠ PROCESS_STATE_RUNNING;
  mw_self : st s c ≠ PROCESS_STATE_READY;
  mw_idle_runs : c = 0 → st s c = PROCESS_STATE_RUNNING;
  mw_idle_waits : c ≠ 0 → st s 0 = PROCESS_STATE_READY
}.

(** Between operations: the current process runs, with ticks left. *)
Record run_wf s (q : list Z) (c : Z) : Prop := {
  rw_mid : mid_wf s q c;
  rw_running : st s c = PROCESS_STATE_RUNNING;
  rw_slice : 1 <= slice s c <= DEFAULT_TIME_SLICE
}.

(** The fields of a block are those of its core. *)
Lemma core_state p p' : core p = core p' → p_state p = p_state p'.
Proof. intros E. by apply (f_equal p_state) in E. Qed.
Lemma core_flags p p' : core p = core p' → flags p = flags p'.
Proof. intros E. by apply (f_equal flags) in E. Qed.
Lemma core_slice p p' : core p = core p' → time_slice p = time_slice p'.
Proof. intros E. by apply (f_equal time_slice) in E. Qed.
Lemma core_wake p p' : core p = core p' → wake_tick p = wake_tick p'.
Proof. intros E. by apply (f_equal wake_tick) in E. Qed.
Lemma core_idle p p' : core p = core p' → is_idle p = is_idle p'.
Proof. intros E. unfold is_idle. by rewrite (core_flags p p' E). Qed.

(** Assignments to fields other than links and flags keep the queue and the
    idle flags. *)
Definition keeps_links (f : process_t → process_t) : Prop :=
  ∀ p, next (f p) = next p ∧ prev (f p) = prev p ∧ flags (f p) = flags p.

Lemma on_queue s i f q : keeps_links f → queue_of s q → queue_of (on s i f) q.
Proof.
  intros Hf Hq. apply (links_core (process_table s)); [done|]. intros j. simpl. slots; [|done].
  by destruct (Hf (process_table s i)) as (? & ? & _).
Qed.

Lemma on_idle s i f j :
  keeps_links f → is_idle (process_table (on s i f) j) = is_idle (process_table s j).
Proof.
  intros Hf. unfold is_idle. simpl. slots; [|done].
  by destruct (Hf (process_table s i)) as (_ & _ & ->).
Qed.

Lemma on_base s i f q :
  keeps_links f → (∀ p, p_state (f p) = p_state p) → base_wf s q → base_wf (on s i f) q.
Proof.
  intros Hf Hst [H1 H2 H3 H4]. split.
  - by apply on_queue.
  - intros j. rewrite H2. unfold st. simpl. slots; [|done]. by rewrite Hst.
  - intros j Hj. rewrite on_idle by done. auto.
  - done.
Qed.
End invariant.

#[export] Hint Extern 1 (keeps_links _) => (intros p; done) : chanux.

Section scheduling.
Context {W : Type}.
Implicit Types s : sys W.

(** What is queued behind the others when [c] gives up the processor. *)
Definition requeued s (c : Z) : list Z :=
  if bool_decide (st s c = PROCESS_STATE_RUNNING) && negb (c =? 0) then [c] else [].

(** [prev->state = READY; prev->time_slice = DEFAULT_TIME_SLICE; sched_add(prev)] *)
Definition put_back s (c : Z) : sys W :=
  if bool_decide (st s c = PROCESS_STATE_RUNNING) then
    sched_add (on (on s c (set_state PROCESS_STATE_READY)) c (set_time_slice DEFAULT_TIME_SLICE)) (Some c)
  else s.

Lemma put_back_spec s q c :
  queue_of s q → c ∉ q → slot_ok c → (∀ i, slot_ok i → is_idle (process_table s i) = bool_decide (i = 0)) →
  let s' := put_back s c in
  queue_of s' (q ++ requeued s c) ∧ same_rest s s'
  ∧ (∀ j, j ≠ c → core (process_table s' j) = core (process_table s j))
  ∧ is_idle (process_table s' c) = is_idle (process_table s c)
  ∧ st s' c = if bool_decide (st s c = PROCESS_STATE_RUNNING) then PROCESS_STATE_READY else st s c.
Proof.
  intros Hq Hc Hslot Hflag. unfold put_back, requeued.
  case_bool_decide as Hr; simpl; [|rewrite app_nil_r; by auto 10 using same_rest_refl].
  set (s1 := on (on s c _) c _).
  assert (Hq1 : queue_of s1 q) by (unfold s1; auto using on_queue with chanux).
  assert (Hi1 : is_idle (process_table s1 c) = bool_decide (c = 0)).
  { unfold s1. rewrite !on_idle by auto with chanux. auto. }
  assert (Ht1 : ∀ j, j ≠ c → process_table s1 j = process_table s j).
  { intros j Hj. unfold s1. simpl. by slots. }
  destruct (Z.eqb_spec c 0) as [->|Hne]; simpl.
  - rewrite app_nil_r. unfold sched_add. rewrite Hi1. rewrite bool_decide_true by done.
    split_and!; try done. intros j Hj. by rewrite Ht1.
  - destruct (sched_add_spec s1 q c) as (Hq2 & Hrest & Hcore); [done|done|by rewrite Hi1, bool_decide_false|].
    split_and!; [done|exact Hrest| | |].
    + intros j Hj. rewrite Hcore. slots. by rewrite Ht1.
    + specialize (Hcore c). rewrite update_eq in Hcore. rewrite (core_idle _ _ Hcore).
      transitivity (is_idle (process_table s1 c)); [done|]. by rewrite Hi1, Hflag.
    + specialize (Hcore c). rewrite update_eq in Hcore. unfold st. by rewrite (core_state _ _ Hcore).
Qed.

(** [next->state = RUNNING; next->time_slice = DEFAULT_TIME_SLICE;
    process_set_current(next)] *)
Definition dispatch s (n : Z) : sys W :=
  set_current (on (on s n (set_state PROCESS_STATE_RUNNING)) n (set_time_slice DEFAULT_TIME_SLICE)) (Some n).

Lemma schedule_eq s c :
  scheduler_running s = true → current_process s = Some c →
  schedule s =
    let '(nxt, s1) := sched_pick_next s in
    match match nxt with Some n => Some n | None => idle_process s1 end with
    | None => s1
    | Some n => if n =? c then on s1 n (set_time_slice DEFAULT_TIME_SLICE)
                else dispatch (put_back s1 c) n
    end.
Proof. intros E1 E2. unfold schedule. by rewrite E1, E2. Qed.

(** The successor and the queue it leaves. *)
Definition successor (q : list Z) : Z * list Z :=
  match q with [] => (0, []) | n :: q => (n, q) end.

Lemma dispatch_idle s n j : is_idle (process_table (dispatch s n) j) = is_idle (process_table s j).
Proof. unfold is_idle. simpl. slots; done. Qed.

(** Handing the processor from [c] to [n], which has left the queue [q]. *)
Lemma dispatch_wf s q c n :
  queue_of s q → scheduler_running s = true → idle_process s = Some 0 →
  slot_ok c → slot_ok n → n ≠ c → st s c ≠ PROCESS_STATE_READY →
  (∀ i, i ∈ q ↔ slot_ok i ∧ st s i = PROCESS_STATE_READY ∧ i ≠ 0 ∧ i ≠ n) →
  (∀ i, slot_ok i → is_idle (process_table s i) = bool_decide (i = 0)) →
  (∀ i, slot_ok i → i ≠ c → st s i ≠ PROCESS_STATE_RUNNING) →
  (c = 0 → st s c = PROCESS_STATE_RUNNING) → (c ≠ 0 → st s 0 = PROCESS_STATE_READY) →
  let s' := dispatch (put_back s c) n in
  run_wf s' (q ++ requeued s c) n ∧ slice s' n = DEFAULT_TIME_SLICE
  ∧ need_reschedule s' = need_reschedule s
  ∧ ∀ j, j ≠ n → st s' j = if bool_decide (j = c ∧ st s c = PROCESS_STATE_RUNNING)
                           then PROCESS_STATE_READY else st s j.
Proof.
  intros Hq Hrun Hidle Hc Hn Hnc Hcr Hin Hflag Hoth Hc0 Hw. cbv zeta.
  assert (Hcq : c ∉ q) by (rewrite Hin; naive_solver).
  destruct (put_back_spec s q c Hq Hcq Hc Hflag) as (Hq1 & (? & ? & Er & En & Ei & ?) & Hcore & Hci & Hcs).
  set (s1 := put_back s c) in *.
  assert (Hst : ∀ j, st s1 j = if bool_decide (j = c ∧ st s c = PROCESS_STATE_RUNNING)
                               then PROCESS_STATE_READY else st s j).
  { intros j. destruct (decide (j = c)) as [->|Hj].
    - rewrite Hcs. repeat case_bool_decide; naive_solver.
    - rewrite bool_decide_false by naive_solver. unfold st. by rewrite (core_state _ _ (Hcore j Hj)). }
  clear Hcs.
  assert (Hst' : ∀ j, st (dispatch s1 n) j = if decide (j = n) then PROCESS_STATE_RUNNING else st s1 j).
  { intros j. unfold st. simpl. case_decide; [subst; by slots|by slots]. }
  assert (Hfl : ∀ j, slot_ok j → is_idle (process_table (dispatch s1 n) j) = bool_decide (j = 0)).
  { intros j Hj. rewrite dispatch_idle.
    destruct (decide (j = c)) as [->|Hj']; [by rewrite Hci, Hflag|].
    by rewrite (core_idle _ _ (Hcore j Hj')), Hflag. }
  split; [split; [split|..]|].
  - split; [|..]; try done.
    + apply (on_queue (on s1 n (set_state PROCESS_STATE_RUNNING))); auto using on_queue with chanux.
    + intros i. rewrite elem_of_app, Hin, Hst', Hst. unfold requeued.
      destruct (decide (i = n)) as [->|Hin'].
      * split; [|naive_solver]. intros [?|Hx]; [naive_solver|].
        destruct (bool_decide _ && _); set_solver.
      * destruct (decide (i = c)) as [->|Hic].
        -- destruct (decide (st s c = PROCESS_STATE_RUNNING)) as [Hs|Hs].
           ++ rewrite !bool_decide_true by done. simpl. destruct (Z.eqb_spec c 0); simpl; set_solver.
           ++ rewrite !bool_decide_false by naive_solver. simpl. set_solver.
        -- rewrite (bool_decide_false (i = c ∧ _)) by naive_solver.
           destruct (bool_decide _ && _); set_solver.
    + exact (eq_trans Ei Hidle).
  - simpl. by rewrite Er.
  - done.
  - done.
  - intros i Hi Hne. rewrite Hst'. rewrite decide_False by done. rewrite Hst.
    case_bool_decide as Hb; [done|].
    destruct (decide (i = c)) as [->|]; [by intros ?; apply Hb|by apply Hoth].
  - rewrite Hst'. by rewrite decide_True by done.
  - intros _. rewrite Hst'. by rewrite decide_True by done.
  - intros Hne. rewrite Hst', decide_False by done. rewrite Hst. case_bool_decide as Hb; [done|].
    apply Hw. naive_solver.
  - rewrite Hst'. by rewrite decide_True by done.
  - unfold slice. simpl. slots. done.
  - split_and!; [unfold slice; simpl; by slots|done|].
    intros j Hj. rewrite Hst', decide_False by done. apply Hst.
Qed.

Lemma schedule_wf s q c :
  mid_wf s q c →
  let n := (successor q).1 in
  run_wf (schedule s) (if n =? c then [] else (successor q).2 ++ requeued s c) n
  ∧ slice (schedule s) n = DEFAULT_TIME_SLICE
  ∧ need_reschedule (schedule s) = need_reschedule s
  ∧ ∀ j, j ≠ n → st (schedule s) j = if bool_decide (j = c ∧ st s c = PROCESS_STATE_RUNNING)
                           then PROCESS_STATE_READY else st s j.
Proof.
  intros Hm. pose proof Hm as [[Hq Hready Hflag Hidle] Hrun Hcur Hslot Hoth Hself Hc0 Hw].
  rewrite (schedule_eq s c Hrun Hcur). destruct q as [|n q0]; simpl successor; cbn [fst snd].
  - rewrite (sched_pick_next_nil s Hq), Hidle. destruct (Z.eqb_spec 0 c) as [<-|Hne].
    + specialize (Hc0 eq_refl).
      assert (Hst : ∀ j, st (on s 0 (set_time_slice DEFAULT_TIME_SLICE)) j = st s j).
      { intros j. unfold st. simpl. slots; done. }
      split_and!; [|unfold slice; simpl; by slots|done|].
      * split; [split|..]; rewrite ?Hst; try done.
        -- apply on_base; auto with chanux. by split.
        -- intros i Hi Hne. rewrite Hst. by apply Hoth.
      * intros j Hj. rewrite Hst, bool_decide_false by naive_solver. done.
    + apply dispatch_wf; try done.
      * intros i. rewrite Hready. naive_solver.
  - assert (Hnq : slot_ok n ∧ st s n = PROCESS_STATE_READY ∧ n ≠ 0) by (apply Hready; left).
    destruct Hnq as (Hn1 & Hn2 & Hn3). assert (n ≠ c) by congruence.
    destruct (sched_pick_next_cons s n q0 Hq) as (s1 & -> & Hq1 & (? & ? & Er & En & Ei & ?) & Hcore).
    rewrite (proj2 (Z.eqb_neq n c)) by done.
    assert (Hst : ∀ j, st s1 j = st s j) by (intros j; apply core_state, Hcore).
    assert (Hreq : requeued s c = requeued s1 c) by (unfold requeued; by rewrite Hst).
    pose proof (lk_nodup _ _ _ _ Hq) as [Hnq _]%NoDup_cons.
    destruct (dispatch_wf s1 q0 c n) as (HA & HB & HC & HD); rewrite ?Hst; try done; try congruence.
    + intros i. rewrite Hst. specialize (Hready i). rewrite elem_of_cons in Hready. split.
      * intros Hi. destruct (proj1 Hready (or_intror Hi)) as (? & ? & ?).
        split_and!; [done..|]. by intros ->.
      * intros (? & ? & ? & ?). by destruct (proj2 Hready) as [->|].
    + intros i Hi. rewrite (core_idle _ _ (Hcore i)). auto.
    + intros i Hi Hne. rewrite Hst. auto.
    + rewrite Hreq. split_and!; [done|done|congruence|]. intros j Hj. rewrite (HD j Hj), !Hst. done.
Qed.

End scheduling.

Section enqueue.
Context {W : Type}.
Implicit Types s : sys W.

(** [s1] is [s] with the block of slot [i] rewritten, not idle and unlinked. *)
Record rewritten s s1 (i : Z) : Prop := {
  rt_others : ∀ j, j ≠ i → process_table s1 j = process_table s j;
  rt_flag : is_idle (process_table s1 i) = false;
  rt_links : next (process_table s1 i) = None ∧ prev (process_table s1 i) = None;
  rt_head : run_queue_head s1 = run_queue_head s;
  rt_tail : run_queue_tail s1 = run_queue_tail s;
  rt_current : current_process s1 = current_process s;
  rt_running : scheduler_running s1 = scheduler_running s;
  rt_idle : idle_process s1 = idle_process s
}.

Lemma rewritten_on s i f :
  is_idle (f (process_table s i)) = false →
  next (f (process_table s i)) = None → prev (f (process_table s i)) = None →
  rewritten s (on s i f) i.
Proof. intros. split; simpl; try done; [intros j Hj| |split]; slots; done. Qed.

Lemma enqueue_base s s1 q i :
  base_wf s q → slot_ok i → i ≠ 0 → i ∉ q → rewritten s s1 i →
  let s' := sched_add s1 (Some i) in
  base_wf s' (q ++ [i]) ∧ same_rest s1 s' ∧ st s' i = PROCESS_STATE_READY
  ∧ ∀ j, j ≠ i → core (process_table s' j) = core (process_table s j).
Proof.
  intros [Hq Hready Hflag Hidle] Hi Hi0 Hiq [Ho Hf [Hn Hp] Hh Ht Hc Hr Hid]. cbv zeta.
  assert (Hq1 : queue_of s1 q).
  { unfold queue_of in *. rewrite Hh, Ht. apply (links_core (process_table s)); [done|].
    intros j. destruct (decide (j = i)) as [->|Hj]; [|by rewrite Ho].
    destruct (lk_out _ _ _ _ Hq i Hiq) as [-> ->]. done. }
  destruct (sched_add_spec s1 q i Hq1 Hiq Hf) as (Hq' & Hrest & Hcore).
  assert (Hc' : ∀ j, j ≠ i → core (process_table (sched_add s1 (Some i)) j) = core (process_table s j)).
  { intros j Hj. rewrite Hcore, update_ne by done. by rewrite Ho. }
  pose proof (Hcore i) as Hci. rewrite update_eq in Hci.
  split_and!; [|done|unfold st; by rewrite (core_state _ _ Hci)|done].
  split; [done| | |].
  - intros j. rewrite elem_of_app, list_elem_of_singleton, Hready. unfold st.
    destruct (decide (j = i)) as [->|Hj].
    + rewrite (core_state _ _ Hci). simpl. tauto.
    + rewrite (core_state _ _ (Hc' j Hj)). tauto.
  - intros j Hj. destruct (decide (j = i)) as [->|Hji].
    + rewrite (core_idle _ _ Hci), bool_decide_false by done. exact Hf.
    + rewrite (core_idle _ _ (Hc' j Hji)). auto.
  - destruct Hrest as (_ & _ & _ & _ & Hid' & _). by rewrite Hid', Hid.
Qed.

Lemma enqueue_run s s1 q c i :
  run_wf s q c → slot_ok i → i ≠ 0 → i ≠ c → i ∉ q → rewritten s s1 i →
  let s' := sched_add s1 (Some i) in
  run_wf s' (q ++ [i]) c ∧ need_reschedule s' = need_reschedule s1
  ∧ slice s' c = slice s c ∧ st s' i = PROCESS_STATE_READY ∧ ∀ j, j ≠ i → st s' j = st s j.
Proof.
  intros [[Hb Hr Hc Hsl Ho Hs H0 Hw] Hrun Hsli] Hi Hi0 Hic Hiq Hrt. cbv zeta.
  destruct (enqueue_base s s1 q i Hb Hi Hi0 Hiq Hrt) as (Hb' & (Hn1 & Hc1 & Hr1 & Hn & _) & Hsti & Hcore).
  destruct Hrt as [_ _ _ _ _ Hc2 Hr2 _].
  assert (Hst : ∀ j, j ≠ i → st (sched_add s1 (Some i)) j = st s j) by (intros; by apply core_state, Hcore).
  assert (Hslc : slice (sched_add s1 (Some i)) c = slice s c) by (by apply core_slice, Hcore).
  split_and!; try done. split; [split|..]; rewrite ?Hslc, ?Hst; try done; try congruence.
  intros j Hj Hjc. destruct (decide (j = i)) as [->|]; [by rewrite Hsti|]. rewrite Hst by done. auto.
Qed.

End enqueue.

Section steps.
Context {W : Type} `{ProcEnv W}.
Implicit Types s : sys W.

Lemma not_queued s q i :
  base_wf s q → slot_ok i → st s i ≠ PROCESS_STATE_READY → i ∉ q.
Proof. intros Hb Hi Hs Hin. by apply (bw_ready _ _ Hb) in Hin as (_ & ? & _). Qed.

Lemma idle_state s q c : run_wf s q c → st s 0 = PROCESS_STATE_READY ∨ st s 0 = PROCESS_STATE_RUNNING.
Proof.
  intros [[_ _ _ _ _ _ _ Hw] Hr _]. destruct (decide (c = 0)) as [->|]; [by right|left; by apply Hw].
Qed.

(** A slot that is neither ready nor running can be rewritten and queued. *)
Lemma parked_slot s q c i :
  run_wf s q c → slot_ok i → st s i ≠ PROCESS_STATE_READY → st s i ≠ PROCESS_STATE_RUNNING →
  i ≠ 0 ∧ i ≠ c ∧ i ∉ q ∧ is_idle (process_table s i) = false
  ∧ next (process_table s i) = None ∧ prev (process_table s i) = None.
Proof.
  intros Hw Hi Hs1 Hs2. pose proof Hw as [[Hb _ _ _ _ _ _ _] Hr _].
  assert (i ≠ 0) by (intros ->; destruct (idle_state s q c Hw); congruence).
  assert (i ≠ c) by congruence. pose proof (not_queued s q i Hb Hi Hs1) as Hq.
  split_and!; try done.
  - by rewrite (bw_flag _ _ Hb), bool_decide_false.
  - by apply (lk_out _ _ _ _ (bw_queue _ _ Hb)).
  - by apply (lk_out _ _ _ _ (bw_queue _ _ Hb)).
Qed.

Lemma wake_one_wf tick i s q c :
  run_wf s q c → slot_ok i →
  ∃ q', run_wf (wake_one tick i s) (q ++ q') c
    ∧ need_reschedule (wake_one tick i s) = need_reschedule s ∧ slice (wake_one tick i s) c = slice s c
    ∧ ∀ j, st s j = PROCESS_STATE_TERMINATED → st (wake_one tick i s) j = PROCESS_STATE_TERMINATED.
Proof.
  intros Hw Hi. unfold wake_one. case_bool_decide as Hb; simpl; [|exists []; by rewrite app_nil_r].
  destruct ((0 <? _) && _); [|exists []; by rewrite app_nil_r].
  destruct (parked_slot s q c i Hw Hi) as (H1 & H2 & H3 & H4 & H5 & H6); [unfold st; congruence..|].
  set (s1 := on (on (on s i _) i _) i _).
  assert (Hrt : rewritten s s1 i).
  { split; simpl; try done; [intros j Hj| |]; slots; done. }
  destruct (enqueue_run s s1 q c i Hw Hi H1 H2 H3 Hrt) as (Hw' & Hn & Hs & Hr & Hst).
  exists [i]. split_and!; [done|done|done|].
  intros j Hj. rewrite Hst; [done|]. intros ->. unfold st in Hj. congruence.
Qed.

Lemma wake_sleeping_wf tick s q c :
  run_wf s q c →
  ∃ q', run_wf (process_wake_sleeping s tick) (q ++ q') c
    ∧ need_reschedule (process_wake_sleeping s tick) = need_reschedule s
    ∧ slice (process_wake_sleeping s tick) c = slice s c
    ∧ ∀ j, st s j = PROCESS_STATE_TERMINATED → st (process_wake_sleeping s tick) j = PROCESS_STATE_TERMINATED.
Proof.
  intros Hw. unfold process_wake_sleeping.
  apply (for_each_inv (λ _ s', ∃ q', run_wf s' (q ++ q') c ∧ need_reschedule s' = need_reschedule s
    ∧ slice s' c = slice s c
    ∧ ∀ j, st s j = PROCESS_STATE_TERMINATED → st s' j = PROCESS_STATE_TERMINATED)); [done| |].
  - exists []. by rewrite app_nil_r.
  - intros i s' Hi (q1 & Hw1 & Hn1 & Hs1 & Ht1).
    destruct (wake_one_wf tick i s' _ c Hw1) as (q2 & Hw2 & Hn2 & Hs2 & Ht2); [exact Hi|].
    exists (q1 ++ q2). rewrite app_assoc. split_and!; [done|congruence|congruence|auto].
Qed.


(** Assignments that touch neither links, flags nor the state. *)
Lemma on_mid s q c i f :
  keeps_links f → (∀ p, p_state (f p) = p_state p) → mid_wf s q c → mid_wf (on s i f) q c.
Proof.
  intros Hf Hst [Hb Hr Hc Hs Ho Hse H0 Hw].
  assert (Hst' : ∀ j, st (on s i f) j = st s j).
  { intros j. unfold st. simpl. slots; [apply Hst|done]. }
  split; try done; rewrite ?Hst'; auto using on_base.
  intros j Hj Hjc. rewrite Hst'. auto.
Qed.

Lemma on_run s q c i f :
  keeps_links f → (∀ p, p_state (f p) = p_state p) → (∀ p, time_slice (f p) = time_slice p) →
  run_wf s q c → run_wf (on s i f) q c.
Proof.
  intros Hf Hst Hts [Hm Hr Hs]. split; [by apply on_mid| |].
  - unfold st in *. simpl. slots; [by rewrite Hst|done].
  - unfold slice in *. simpl. slots; [by rewrite Hts|done].
Qed.

(** Fields outside table and queue. *)
Lemma base_wf_ext s s' q :
  process_table s' = process_table s → run_queue_head s' = run_queue_head s →
  run_queue_tail s' = run_queue_tail s → idle_process s' = idle_process s → base_wf s q → base_wf s' q.
Proof.
  intros E1 E2 E3 E4 [H1 H2 H3 H4]. unfold queue_of, st in *.
  split; unfold queue_of, st; rewrite ?E1, ?E2, ?E3, ?E4; done.
Qed.

Lemma mid_wf_ext s s' q c :
  process_table s' = process_table s → run_queue_head s' = run_queue_head s →
  run_queue_tail s' = run_queue_tail s → idle_process s' = idle_process s →
  scheduler_running s' = scheduler_running s → current_process s' = current_process s →
  mid_wf s q c → mid_wf s' q c.
Proof.
  intros E1 E2 E3 E4 E5 E6 [H1 H2 H3 H4 H5 H6 H7 H8]. unfold st in *.
  split; unfold st; rewrite ?E1, ?E5, ?E6; try done. by apply (base_wf_ext s).
Qed.

Lemma run_wf_ext s s' q c :
  process_table s' = process_table s → run_queue_head s' = run_queue_head s →
  run_queue_tail s' = run_queue_tail s → idle_process s' = idle_process s →
  scheduler_running s' = scheduler_running s → current_process s' = current_process s →
  run_wf s q c → run_wf s' q c.
Proof.
  intros E1 E2 E3 E4 E5 E6 [H1 H2 H3]. split; [by apply (mid_wf_ext s)| |];
    unfold st, slice in *; by rewrite E1.
Qed.

(** Outcome of a scheduling step from queue [q]. *)
Definition switched s' (q : list Z) (c : Z) : Prop :=
  let n := (successor q).1 in
  slice s' n = DEFAULT_TIME_SLICE
  ∧ (run_wf s' (if n =? c then [] else (successor q).2) n
     ∨ run_wf s' (if n =? c then [] else (successor q).2 ++ [c]) n).

Lemma schedule_switched s q c :
  mid_wf s q c → switched (schedule s) q c ∧ need_reschedule (schedule s) = need_reschedule s.
Proof.
  intros Hm. destruct (schedule_wf s q c Hm) as (Hw & Hs & Hn & _). split; [|done]. split; [done|].
  unfold requeued in Hw. destruct (bool_decide _ && _); [by right|left]. by rewrite app_nil_r in Hw.
Qed.

Lemma schedule_terminated s q c j :
  mid_wf s q c → st s j = PROCESS_STATE_TERMINATED → j ≠ c ∨ st s c = PROCESS_STATE_TERMINATED →
  st (schedule s) j = PROCESS_STATE_TERMINATED.
Proof.
  intros Hm Hj Hjc. destruct (schedule_wf s q c Hm) as (Hw & _ & _ & Hst).
  rewrite Hst.
  { rewrite bool_decide_false; [done|]. intros [-> Hr]. destruct Hjc; congruence. }
  intros ->. destruct q as [|n q]; simpl in *.
  - pose proof (mw_idle_runs _ _ _ Hm) as H1. pose proof (mw_idle_waits _ _ _ Hm) as H2.
    destruct (decide (c = 0)) as [->|Hne]; [rewrite H1 in Hj by done|rewrite H2 in Hj by done]; done.
  - destruct (proj1 (bw_ready _ _ (mw_base _ _ _ Hm) n) ltac:(left)) as (_ & ? & _). congruence.
Qed.

(** Slots whose process has terminated stay so. *)
Definition keeps_terminated s s' : Prop :=
  ∀ j, st s j = PROCESS_STATE_TERMINATED → st s' j = PROCESS_STATE_TERMINATED.

(** [if (need_reschedule) { need_reschedule = false; schedule(); }] *)
Definition resched s : sys W := if need_reschedule s then schedule (set_need s false) else s.

Lemma resched_wf s q c :
  mid_wf s q c → st s c = PROCESS_STATE_RUNNING →
  need_reschedule (resched s) = false
  ∧ (need_reschedule s = false ∧ resched s = s ∨ switched (resched s) q c)
  ∧ keeps_terminated s (resched s).
Proof.
  intros Hm Hc. unfold resched. destruct (need_reschedule s) eqn:En; [|split_and!; [done|by left|by intros j]].
  assert (Hm' : mid_wf (set_need s false) q c) by (by apply (mid_wf_ext s)).
  destruct (schedule_switched _ _ _ Hm') as [Hsw ->]. split_and!; [done|by right|].
  intros j Hj. apply (schedule_terminated _ q c); [done|done|]. left. intros ->. congruence.
Qed.

(** The time-slice check of [sched_tick]. *)
Definition expire s (c : Z) : sys W :=
  if time_slice (process_table s c) =? 0 then
    if negb (is_idle (process_table s c)) || bool_decide (run_queue_head s ≠ None)
    then set_need s true
    else on s c (set_time_slice DEFAULT_TIME_SLICE)
  else s.

Lemma expire_wf s q c :
  mid_wf s q c → st s c = PROCESS_STATE_RUNNING → 0 <= slice s c < DEFAULT_TIME_SLICE →
  mid_wf (expire s c) q c ∧ (∀ j, st (expire s c) j = st s j)
  ∧ (need_reschedule s = true → need_reschedule (expire s c) = true)
  ∧ (need_reschedule (expire s c) = true
     ∨ run_wf (expire s c) q c ∧ slice (expire s c) c = slice s c
     ∨ q = [] ∧ c = 0 ∧ run_wf (expire s c) [] 0).
Proof.
  intros Hm Hc Hs. unfold expire. fold (slice s c). destruct (slice s c =? 0) eqn:E0; to_prop.
  2: { split_and!; [done|done|done|]. right. left. split; [|done]. split; [done|done|lia]. }
  destruct (_ || _) eqn:Eb.
  { split_and!; [by apply (mid_wf_ext s)|done|done|by left]. }
  apply orb_false_iff in Eb as [Eb1%negb_false_iff Eb2%bool_decide_eq_false].
  rewrite (bw_flag _ _ (mw_base _ _ _ Hm)) in Eb1 by exact (mw_slot _ _ _ Hm). apply bool_decide_eq_true in Eb1 as ->.
  assert (q = []) as ->.
  { pose proof (lk_head _ _ _ _ (bw_queue _ _ (mw_base _ _ _ Hm))) as Hh.
    destruct q; [done|]. exfalso. apply Eb2. by rewrite Hh. }
  assert (Hm' : mid_wf (on s 0 (set_time_slice DEFAULT_TIME_SLICE)) [] 0)
    by (apply on_mid; [intros p; done|done|done]).
  assert (Hst : ∀ j, st (on s 0 (set_time_slice DEFAULT_TIME_SLICE)) j = st s j)
    by (intros j; unfold st; simpl; slots; done).
  split_and!; [done|done|done|]. right. right. split_and!; [done|done|].
  split; [done|by rewrite Hst|]. unfold slice. simpl. by slots.
Qed.

(** Charging a tick to the current process. *)
Definition charge s (c : Z) : sys W :=
  let s := on s c (λ p, set_total_ticks (total_ticks p +64 1) p) in
  if 0 <? time_slice (process_table s c)
  then on s c (λ p, set_time_slice (time_slice p - 1) p) else s.

Lemma charge_wf s q c :
  run_wf s q c →
  mid_wf (charge s c) q c ∧ (∀ j, st (charge s c) j = st s j)
  ∧ slice (charge s c) c = slice s c - 1 ∧ need_reschedule (charge s c) = need_reschedule s.
Proof.
  intros [Hm Hr Hs]. unfold charge. simpl. rewrite update_eq. simpl.
  unfold slice in *. rewrite (proj2 (Z.ltb_lt _ _)) by lia. split_and!; [| | |done].
  - apply on_mid; [intros p; done|done|]. apply on_mid; [intros p; done|done|done].
  - intros j. unfold st. simpl. slots; done.
  - simpl. slots. done.
Qed.

Lemma sched_tick_eq s ticks c :
  scheduler_running s = true → current_process (process_wake_sleeping s ticks) = Some c →
  sched_tick s ticks = resched (expire (charge (process_wake_sleeping s ticks) c) c).
Proof.
  intros E1 E2. unfold sched_tick, resched, expire, charge. rewrite E1. cbn [negb]. cbv zeta.
  destruct (process_wake_sleeping s ticks) as [t np cur hd tl run need idl w]. simpl in E2. subst cur.
  reflexivity.
Qed.

Lemma sched_tick_wf s q c ticks :
  run_wf s q c →
  let s' := sched_tick s ticks in
  (∃ qw, (need_reschedule s = true → switched s' (q ++ qw) c) ∧
         (run_wf s' (q ++ qw) c ∧ slice s' c = slice s c - 1
          ∨ q ++ qw = [] ∧ c = 0 ∧ run_wf s' [] 0
          ∨ switched s' (q ++ qw) c))
  ∧ keeps_terminated s s' ∧ need_reschedule s' = false.
Proof.
  intros Hw. cbv zeta. destruct (wake_sleeping_wf ticks s q c Hw) as (qw & Hw1 & Hn1 & Hs1 & Ht1).
  pose proof (rw_slice _ _ _ Hw) as Hsl. pose proof (mw_run _ _ _ (rw_mid _ _ _ Hw)) as Hrun.
  rewrite (sched_tick_eq s ticks c Hrun) by exact (mw_current _ _ _ (rw_mid _ _ _ Hw1)).
  set (s1 := process_wake_sleeping s ticks) in *.
  destruct (charge_wf s1 _ c Hw1) as (Hm2 & Hst2 & Hs2 & Hn2). set (s2 := charge s1 c) in *.
  assert (Hc2 : st s2 c = PROCESS_STATE_RUNNING) by (rewrite Hst2; exact (rw_running _ _ _ Hw1)).
  destruct (expire_wf s2 _ c Hm2 Hc2) as (Hm3 & Hst3 & Hn3 & Hcase); [lia|]. set (s3 := expire s2 c) in *.
  destruct (resched_wf s3 _ c Hm3) as (Hn4 & Hr4 & Ht4); [by rewrite Hst3|].
  split; [|split; [|done]].
  - exists qw. destruct Hr4 as [[Hnf Hr4]|Hr4]; [|by auto]. rewrite Hr4 in Hn4 |- *.
    split; [intros Hnt; rewrite Hn3 in Hnf by congruence; done|].
    destruct Hcase as [Hn|[[Hw3 Hs3]|(Hq & -> & Hw3)]]; [congruence| |by auto].
    left. split; [done|]. rewrite Hs3, Hs2, Hs1. done.
  - intros j Hj. apply Ht4. rewrite Hst3, Hst2. by apply Ht1.
Qed.


(** The current process leaves the state [v] behind and gives up the processor. *)
Lemma leave_mid s q c v :
  run_wf s q c → c ≠ 0 → v ≠ PROCESS_STATE_READY → mid_wf (on s c (set_state v)) q c.
Proof.
  intros [[Hb Hr Hc Hs Ho Hse H0 Hw] Hrun _] Hc0 Hv.
  assert (Hst : ∀ j, st (on s c (set_state v)) j = if decide (j = c) then v else st s j).
  { intros j. unfold st. simpl. case_decide; [subst|]; slots; done. }
  split; try done; rewrite ?Hst.
  - destruct Hb as [H1 H2 H3 H4]. split; [apply on_queue; [intros p; done|done]| | |done].
    + intros i. rewrite H2, Hst. case_decide as E; [subst; intuition congruence|done].
    + intros i Hi. rewrite on_idle by (intros p; done). auto.
  - intros i Hi Hne. rewrite Hst, decide_False by done. auto.
  - by rewrite decide_True.
  - intros _. rewrite decide_False by done. auto.
Qed.

Lemma process_block_wf s q c :
  run_wf s q c →
  (c = 0 ∧ process_block s = s ∨ c ≠ 0 ∧ switched (process_block s) q c)
  ∧ keeps_terminated s (process_block s).
Proof.
  intros Hw. pose proof (rw_mid _ _ _ Hw) as Hm. unfold process_block. rewrite (mw_current _ _ _ Hm).
  rewrite (bw_flag _ _ (mw_base _ _ _ Hm)) by exact (mw_slot _ _ _ Hm).
  case_bool_decide as E; [split; [by left|by intros j]|].
  pose proof (leave_mid s q c PROCESS_STATE_BLOCKED Hw E ltac:(done)) as Hm'.
  split; [right; split; [done|by apply schedule_switched]|].
  assert (Hcr : st s c = PROCESS_STATE_RUNNING) by exact (rw_running _ _ _ Hw).
  intros j Hj. assert (j ≠ c) by congruence. apply (schedule_terminated _ q c); [done| |by left].
  unfold st in *. simpl. by slots.
Qed.

Lemma process_yield_wf s q c :
  run_wf s q c → switched (process_yield s) q c ∧ need_reschedule (process_yield s) = true
  ∧ keeps_terminated s (process_yield s).
Proof.
  intros Hw. pose proof (rw_mid _ _ _ Hw) as Hm. unfold process_yield. rewrite (mw_current _ _ _ Hm).
  assert (Hm' : mid_wf (sched_reschedule (on s c (set_time_slice DEFAULT_TIME_SLICE))) q c).
  { apply (mid_wf_ext (on s c (set_time_slice DEFAULT_TIME_SLICE))); try done.
    apply on_mid; [intros p; done|done|done]. }
  destruct (schedule_switched _ _ _ Hm') as [Hsw Hn]. split_and!; [done|done|].
  assert (Hcr : st s c = PROCESS_STATE_RUNNING) by exact (rw_running _ _ _ Hw).
  intros j Hj. assert (j ≠ c) by congruence. apply (schedule_terminated _ q c); [done| |by left].
  unfold st in *. simpl. by slots.
Qed.

Lemma process_unblock_wf s q c id :
  run_wf s q c → ∃ q', run_wf (process_unblock s id) (q ++ q') c ∧ keeps_terminated s (process_unblock s id).
Proof.
  intros Hw. unfold process_unblock. destruct (process_get s id) as [i|] eqn:Eg.
  2: { exists []. rewrite app_nil_r. split; [done|by intros j]. }
  apply find_first_Some in Eg as (Hi & _ & _). change (slot_ok i) in Hi.
  case_bool_decide as Hb; [|exists []; rewrite app_nil_r; split; [done|by intros j]].
  destruct (parked_slot s q c i Hw Hi) as (H1 & H2 & H3 & H4 & H5 & H6); [unfold st; congruence..|].
  cbv zeta. set (s1 := on (on s i _) i _).
  assert (Hrt : rewritten s s1 i).
  { split; simpl; try done; [intros j Hj| |]; slots; done. }
  destruct (enqueue_run s s1 q c i Hw Hi H1 H2 H3 Hrt) as (Hw' & _ & _ & _ & Hst).
  exists [i]. split; [done|]. intros j Hj. rewrite Hst; [done|]. intros ->. unfold st in Hj. congruence.
Qed.

(** The same queue, states, flags and slices; other fields may differ. *)
Record similar s s1 : Prop := {
  sm_block : ∀ j, next (process_table s1 j) = next (process_table s j)
    ∧ prev (process_table s1 j) = prev (process_table s j)
    ∧ flags (process_table s1 j) = flags (process_table s j)
    ∧ st s1 j = st s j ∧ slice s1 j = slice s j;
  sm_head : run_queue_head s1 = run_queue_head s;
  sm_tail : run_queue_tail s1 = run_queue_tail s;
  sm_current : current_process s1 = current_process s;
  sm_running : scheduler_running s1 = scheduler_running s;
  sm_idle : idle_process s1 = idle_process s
}.

Lemma similar_refl s : similar s s.
Proof. split; [intros j; by split_and!|done..]. Qed.

Lemma similar_base s s1 q : similar s s1 → base_wf s q → base_wf s1 q.
Proof.
  intros [Hb Hh Ht Hc Hr Hi] [H1 H2 H3 H4]. split.
  - unfold queue_of in *. rewrite Hh, Ht. apply (links_core (process_table s)); [done|].
    intros j. by destruct (Hb j) as (-> & -> & _).
  - intros i. destruct (Hb i) as (_ & _ & _ & -> & _). auto.
  - intros i Hs. unfold is_idle in *. destruct (Hb i) as (_ & _ & -> & _). auto.
  - congruence.
Qed.

Lemma similar_run s s1 q c : similar s s1 → run_wf s q c → run_wf s1 q c.
Proof.
  intros Hsim [[Hb Hr Hc Hs Ho Hse H0 Hw] Hrun Hsl]. pose proof Hsim as [Hbl _ _ Hcu Hru _].
  assert (Hst : ∀ j, st s1 j = st s j) by (intros j; by destruct (Hbl j) as (_ & _ & _ & ? & _)).
  split; [split|..]; rewrite ?Hst, ?Hcu, ?Hru; try done; [by apply (similar_base s)| |].
  - intros i Hi Hne. rewrite Hst. auto.
  - by destruct (Hbl c) as (_ & _ & _ & _ & ->).
Qed.

Lemma says_run s q c l : run_wf s q c → run_wf (says s l) q c.
Proof. by apply run_wf_ext. Qed.

(** Outcome of [process_create]: no free slot and nothing changes; no memory
    and only the old resources of the slot are released; or a block written to
    a free slot, which is queued. *)
Lemma process_create_cases s name ent arg :
  match process_create s name ent arg with
  | (None, s') => similar s s'
  | (Some id, s') => ∃ i s1, find_free_slot s = Some i ∧ id = next_pid s ∧ rewritten s s1 i
        ∧ ∃ l, s' = says (sched_add s1 (Some i)) l
  end.
Proof.
  unfold process_create. destruct (find_free_slot s) as [i|] eqn:Ef; [|by destruct (similar_refl s)].
  set (s1 := if negb (kernel_stack _ =? 0) then _ else s).
  assert (H1 : similar s s1 ∧ next_pid s1 = next_pid s ∧ ∀ j, j ≠ i → process_table s1 j = process_table s j).
  { unfold s1. destruct (negb _); [|auto using similar_refl]. split_and!; [|done|intros j Hj; simpl; by slots].
    split; try done. intros j. unfold st, slice. simpl. slots; done. }
  clearbody s1. set (s2 := if negb (fd_table _ =? 0) then _ else s1).
  assert (H2 : similar s1 s2 ∧ next_pid s2 = next_pid s1 ∧ ∀ j, j ≠ i → process_table s2 j = process_table s1 j).
  { unfold s2. destruct (negb _); [|auto using similar_refl]. split_and!; [|done|intros j Hj; simpl; by slots].
    split; try done. intros j. unfold st, slice. simpl. slots; done. }
  clearbody s2. destruct H1 as ([B1 ? ? ? ? ?] & N1 & O1), H2 as ([B2 ? ? ? ? ?] & N2 & O2).
  destruct (env_kmalloc _ _) as [stack w]. destruct (stack =? 0).
  - split; simpl; try congruence. intros j. destruct (B1 j) as (? & ? & ? & ? & ?), (B2 j) as (? & ? & ? & ? & ?).
    unfold st, slice in *. simpl. split_and!; congruence.
  - destruct (setup_initial_stack _ _) as [sp w1]. destruct (new_fd_table w1) as [fds w2].
    eexists i, _. split; [done|]. split; [congruence|]. split; [|by eexists].
    split; simpl; try congruence; [|by rewrite update_eq|by rewrite update_eq].
    intros j Hj. rewrite update_ne by done. rewrite O2, O1 by done. done.
Qed.

Lemma process_create_wf s q c name ent arg :
  run_wf s q c →
  ∃ q', run_wf (process_create s name ent arg).2 (q ++ q') c
    ∧ keeps_terminated s (process_create s name ent arg).2.
Proof.
  intros Hw. pose proof (process_create_cases s name ent arg) as Hc.
  destruct (process_create s name ent arg) as [[id|] s']; simpl.
  - destruct Hc as (i & s1 & Ef & _ & Hrt & l & ->). apply find_first_Some in Ef as (Hi & Hu & _).
    change (slot_ok i) in Hi. apply bool_decide_eq_true in Hu.
    destruct (parked_slot s q c i Hw Hi) as (H1 & H2 & H3 & _); [unfold st; congruence..|].
    destruct (enqueue_run s s1 q c i Hw Hi H1 H2 H3 Hrt) as (Hw' & _ & _ & _ & Hst).
    exists [i]. split; [by apply says_run|]. intros j Hj. change (st (sched_add s1 (Some i)) j = PROCESS_STATE_TERMINATED). rewrite Hst; [done|]. intros ->. unfold st in Hj. congruence.
  - exists []. rewrite app_nil_r. split; [by apply (similar_run s)|].
    intros j Hj. by destruct (sm_block _ _ Hc j) as (_ & _ & _ & -> & _).
Qed.

Lemma process_exit_wf s q c code :
  run_wf s q c →
  match process_exit s code with
  | None => c = 0
  | Some s' => c ≠ 0 ∧ switched s' q c ∧ st s' c = PROCESS_STATE_TERMINATED ∧ keeps_terminated s s'
  end.
Proof.
  intros Hw. pose proof (rw_mid _ _ _ Hw) as Hm. unfold process_exit. rewrite (mw_current _ _ _ Hm).
  rewrite (bw_flag _ _ (mw_base _ _ _ Hm)) by exact (mw_slot _ _ _ Hm).
  case_bool_decide as E; [done|]. cbv zeta. set (s0 := says s _). apply (says_run s q c _ : _ → run_wf s0 q c) in Hw as Hw0.
  assert (Hst0 : ∀ j, st s0 j = st s j) by done. clearbody s0. clear Hm Hw. rename Hw0 into Hw.
  set (s1 := if negb (fd_table _ =? 0) then _ else s0).
  assert (Hw1 : run_wf s1 q c ∧ ∀ j, st s1 j = st s j).
  { unfold s1. destruct (negb _); [|done]. split.
    - apply on_run; [intros p; done|done|done|]. by apply (run_wf_ext s0).
    - intros j. rewrite <- Hst0. unfold st. simpl. slots; done. }
  destruct Hw1 as [Hw1 Hst1]. clearbody s1.
  pose proof (leave_mid s1 q c PROCESS_STATE_TERMINATED Hw1 E ltac:(done)) as Hm1.
  set (s2 := on (on s1 c _) c _).
  assert (Hm2 : mid_wf s2 q c) by (apply on_mid; [intros p; done|done|done]).
  assert (Hc2 : st s2 c = PROCESS_STATE_TERMINATED) by (unfold st, s2; simpl; by slots).
  pose proof (schedule_switched s2 q c Hm2) as [Hsw _].
  assert (Hne : (successor q).1 ≠ c).
  { destruct q as [|n q]; simpl; [done|]. pose proof (bw_ready _ _ (mw_base _ _ _ Hm2) n) as Hr.
    intros <-. destruct (proj1 Hr ltac:(left)) as (_ & ? & _). congruence. }
  assert (Hcur : current_process (schedule s2) = Some (successor q).1).
  { by destruct Hsw as [_ [Hs|Hs]]; destruct Hs as [[] _ _]. }
  rewrite Hcur, bool_decide_false by congruence. split_and!; [done|done| |].
  - apply (schedule_terminated s2 q c); [done|done|by right].
  - intros j Hj. apply (schedule_terminated s2 q c); [done| |by right].
    destruct (decide (j = c)) as [->|]; [done|]. unfold st, s2 in *. simpl. slots. by rewrite Hst1.
Qed.

End steps.

(** ** Boot and reachability *)

Section reachability.
Context {W : Type} `{ProcEnv W}.
Implicit Types s : sys W.

(** The zero-initialised static data. *)
Definition static_process : process_t :=
  Process 0 [] PROCESS_STATE_UNUSED 0 0 0 0 0 0 0 0 0 None None 0 0 0 0 0 0 0 0 0 0 [].
Definition static_sys (w : W) : sys W := Sys (λ _, static_process) 0 None None None false false None w.

(** Before [sched_start]: nobody runs, and the idle process is the current one. *)
Definition boot_wf s (q : list Z) : Prop :=
  base_wf s q ∧ current_process s = Some 0 ∧ st s 0 = PROCESS_STATE_READY
  ∧ ∀ i, slot_ok i → st s i ≠ PROCESS_STATE_RUNNING.

Lemma init_table (t : Z → process_t) (f : process_t → process_t) i :
  for_each 0 MAX_PROCESSES (λ i t, update t i f) t i
  = if (0 <=? i) && (i <? MAX_PROCESSES) then f (t i) else t i.
Proof.
  assert (Hg : ∀ n, 0 <= n → ∀ i, for_each 0 n (λ i t, update t i f) t i
    = if (0 <=? i) && (i <? n) then f (t i) else t i); [|by apply Hg].
  intros n Hn.
  apply (for_each_inv (λ n t', ∀ i, t' i = if (0 <=? i) && (i <? n) then f (t i) else t i)); [lia| |].
  - intros j. destruct (0 <=? j) eqn:E1, (j <? 0) eqn:E2; zsolve; done.
  - intros k t' Hk Ht j. destruct (decide (j = k)) as [->|Hj].
    + rewrite update_eq, Ht. rewrite Z.ltb_irrefl, andb_false_r.
      rewrite (proj2 (Z.leb_le 0 k)), (proj2 (Z.ltb_lt k (k + 1))) by lia. done.
    + rewrite update_ne, Ht by done. destruct (0 <=? j), (j <? k) eqn:E1, (j <? k + 1) eqn:E2; zsolve; done.
Qed.

Lemma boot_init w e s1 s2 :
  process_init (static_sys w) e = Some s1 → sched_init s1 = Some s2 → boot_wf s2 [].
Proof.
  unfold process_init. destruct (env_kmalloc _ _) as [stack w1]. destruct (stack =? 0); [done|].
  destruct (setup_initial_stack _ _) as [sp w2]. destruct (new_fd_table w2) as [fds w3].
  set (f := λ p : process_t, Process 0 _ PROCESS_STATE_UNUSED _ _ _ _ _ _ _ _ _ _ _ _ _ _ _ _ _ _ _ _ _ _).
  set (idle := λ p : process_t, Process 0 _ PROCESS_STATE_READY _ _ _ _ _ _ _ _ _ _ _ _ _ _ _ _ _ _ _ _ _ _).
  intros [= <-].
  set (t := update (for_each 0 MAX_PROCESSES (λ i t, update t i f) (λ _, static_process)) 0 idle).
  assert (Ht0 : t 0 = idle (f static_process)).
  { unfold t. by rewrite update_eq, init_table. }
  assert (Ht : ∀ i, i ≠ 0 → t i = f static_process ∨ t i = static_process).
  { intros i Hi. unfold t. rewrite update_ne, init_table by done. case_if; auto. }
  unfold sched_init, says at 1 2, set_world.
  cbn [process_table next_pid current_process run_queue_head run_queue_tail scheduler_running need_reschedule idle_process s_world static_sys].
  fold t. set (w4 := env_tell _ w3). clearbody w4.
  assert (Hg : process_get (Sys t 1 (Some 0) None None false false None w4) 0 = Some 0).
  { apply find_first_Some. split_and!; [by cbv|by cbv|cbn [process_table]; by rewrite Ht0|lia]. }
  rewrite Hg. intros [= <-]. split_and!; [split| | |].
  - split; simpl; [done|done|by apply NoDup_nil|done|]. intros i _.
    destruct (decide (i = 0)) as [->|Hi]; [by rewrite Ht0|]. by destruct (Ht i Hi) as [-> | ->].
  - intros i. unfold st. simpl. split; [by intros ?%not_elem_of_nil|]. intros (Hs & Hr & Hi).
    by destruct (Ht i Hi) as [E|E]; rewrite E in Hr.
  - intros i Hi. unfold is_idle. simpl. destruct (decide (i = 0)) as [->|Hne].
    + by rewrite Ht0.
    + rewrite bool_decide_false by done. by destruct (Ht i Hne) as [-> | ->].
  - done.
  - done.
  - change (p_state (t 0) = PROCESS_STATE_READY). by rewrite Ht0.
  - intros i Hi. unfold st. simpl. destruct (decide (i = 0)) as [->|Hne]; [by rewrite Ht0|].
    by destruct (Ht i Hne) as [-> | ->].
Qed.

Lemma says_boot s q l : boot_wf s q → boot_wf (says s l) q.
Proof. intros ([H1 H2 H3 H4] & H5 & H6 & H7). by split_and!; [split|..]. Qed.

Lemma boot_create s q name ent arg :
  boot_wf s q → ∃ q', boot_wf (process_create s name ent arg).2 (q ++ q').
Proof.
  intros (Hb & Hc & H0 & Hr). pose proof (process_create_cases s name ent arg) as Hcases.
  destruct (process_create s name ent arg) as [[id|] s']; simpl.
  - destruct Hcases as (i & s1 & Ef & _ & Hrt & l & ->). apply find_first_Some in Ef as (Hi & Hu & _).
    change (slot_ok i) in Hi. apply bool_decide_eq_true in Hu.
    assert (i ≠ 0) by (intros ->; unfold st in H0; congruence).
    assert (Hiq : i ∉ q) by (apply (not_queued s); [done|done|unfold st; congruence]).
    destruct (enqueue_base s s1 q i Hb Hi) as (Hb' & (_ & Hcur & _) & Hst & Hcore); [done..|].
    exists [i]. apply says_boot. split_and!; [done| | |].
    + rewrite Hcur. destruct Hrt. congruence.
    + unfold st. by rewrite (core_state _ _ (Hcore 0 ltac:(done))).
    + intros j Hj. destruct (decide (j = i)) as [->|Hji]; [by rewrite Hst|].
      unfold st. rewrite (core_state _ _ (Hcore j Hji)). by apply Hr.
  - exists []. rewrite app_nil_r. pose proof Hcases as [Hbl _ _ Hcu _ _].
    assert (Hst : ∀ j, st s' j = st s j) by (intros j; by destruct (Hbl j) as (_ & _ & _ & ? & _)).
    split_and!; [by apply (similar_base s)|congruence|by rewrite Hst|]. intros j Hj. rewrite Hst. auto.
Qed.

(** Dispatching when nobody runs. *)
Lemma dispatch_first s q n :
  queue_of s q → idle_process s = Some 0 → scheduler_running s = true → slot_ok n →
  (∀ i, i ∈ q ↔ slot_ok i ∧ st s i = PROCESS_STATE_READY ∧ i ≠ 0 ∧ i ≠ n) →
  (∀ i, slot_ok i → is_idle (process_table s i) = bool_decide (i = 0)) →
  (∀ i, slot_ok i → st s i ≠ PROCESS_STATE_RUNNING) → st s 0 = PROCESS_STATE_READY →
  run_wf (dispatch s n) q n.
Proof.
  intros Hq Hidle Hrun Hn Hin Hflag Hno H0.
  assert (Hst : ∀ j, st (dispatch s n) j = if decide (j = n) then PROCESS_STATE_RUNNING else st s j).
  { intros j. unfold st. simpl. case_decide; [subst|]; slots; done. }
  split; [split; [split|..]|..]; rewrite ?Hst, ?decide_True by done; try done.
  - apply (on_queue (on s n (set_state PROCESS_STATE_RUNNING))); [by intros p|].
    apply on_queue; [by intros p|done].
  - intros i. rewrite Hin, Hst. case_decide as E; [|tauto]. split; [intros (_ & _ & _ & ?); done|].
    by intros (_ & ? & _).
  - intros i Hi. rewrite dispatch_idle. auto.
  - intros i Hi Hne. rewrite Hst, decide_False by done. auto.
  - intros Hne. by rewrite decide_False.
  - unfold slice. simpl. by slots.
Qed.

Lemma start_wf s q s' : boot_wf s q → sched_start s = Some s' → ∃ q' c, run_wf s' q' c.
Proof.
  intros Hbw Hs. unfold sched_start in Hs. destruct (sched_ready_count s) as [count|]; [|done]. rewrite bind_Some_eq in Hs.
  set (s0 := says s _) in Hs. assert (Hbw0 : boot_wf s0 q) by (by apply says_boot). clearbody s0. clear Hbw s. rename s0 into s.
  destruct Hbw0 as (Hb & Hc & H0 & Hr). pose proof Hb as [Hq Hin Hflag Hidle].
  destruct q as [|n q].
  - rewrite (sched_pick_next_nil s Hq), Hidle in Hs. injection Hs as <-.
    exists [], 0. apply says_run, (dispatch_first (set_running s true)); try done.
    intros i. rewrite Hin. simpl. naive_solver.
  - destruct (sched_pick_next_cons s n q Hq) as (s1 & E & Hq1 & (_ & _ & _ & _ & Ei & _) & Hcore).
    rewrite E in Hs. injection Hs as <-.
    destruct (proj1 (Hin n) ltac:(left)) as (Hn & Hnr & Hn0).
    pose proof (lk_nodup _ _ _ _ Hq) as [Hnq _]%NoDup_cons.
    assert (Hst : ∀ j, st s1 j = st s j) by (intros j; apply core_state, Hcore).
    exists q, n. apply says_run, (dispatch_first (set_running s1 true)); try done.
    + simpl. congruence.
    + intros i. change (st (set_running s1 true) i) with (st s1 i). rewrite Hst.
      specialize (Hin i). rewrite elem_of_cons in Hin. split.
      * intros Hi. destruct (proj1 Hin (or_intror Hi)) as (? & ? & ?). split_and!; [done..|]. by intros ->.
      * intros (? & ? & ? & ?). by destruct (proj2 Hin) as [->|].
    + intros i Hi. simpl. rewrite (core_idle _ _ (Hcore i)). auto.
    + intros i Hi. change (st (set_running s1 true) i) with (st s1 i). rewrite Hst. auto.
    + change (st (set_running s1 true) 0) with (st s1 0). by rewrite Hst.
Qed.

(** What happens to the running system. *)
Inductive sched_step : sys W → sys W → Prop :=
  | step_tick s ticks : sched_step s (sched_tick s ticks)
  | step_create s name ent arg : sched_step s (process_create s name ent arg).2
  | step_exit s code s' : process_exit s code = Some s' → sched_step s s'
  | step_yield s : sched_step s (process_yield s)
  | step_block s : sched_step s (process_block s)
  | step_unblock s id : sched_step s (process_unblock s id).

(** Processes created before the scheduler starts. *)
Inductive boot_step : sys W → sys W → Prop :=
  | boot_step_create s name ent arg : boot_step s (process_create s name ent arg).2.

Lemma switched_run s' q c : switched s' q c → ∃ q' n, run_wf s' q' n.
Proof. intros [_ [Hw|Hw]]; eauto. Qed.

Lemma sched_step_wf s s' q c :
  sched_step s s' → run_wf s q c → (∃ q' c', run_wf s' q' c') ∧ keeps_terminated s s'.
Proof.
  intros Hstep Hw. destruct Hstep as [s ticks|s name ent arg|s code s' E|s|s|s id].
  - destruct (sched_tick_wf s q c ticks Hw) as ((qw & _ & Hcase) & Ht & _). split; [|done].
    destruct Hcase as [[? _]|[(_ & _ & ?)|?]]; eauto using switched_run.
  - destruct (process_create_wf s q c name ent arg Hw) as (q' & ? & ?). eauto.
  - pose proof (process_exit_wf s q c code Hw) as He. rewrite E in He.
    destruct He as (_ & Hs & _ & Ht). eauto using switched_run.
  - destruct (process_yield_wf s q c Hw) as (Hs & _ & Ht). eauto using switched_run.
  - destruct (process_block_wf s q c Hw) as [[[_ ->]|[_ Hs]] Ht]; eauto using switched_run.
  - destruct (process_unblock_wf s q c id Hw) as (q' & ? & ?). eauto.
Qed.

Lemma sched_steps_wf s s' :
  rtc sched_step s s' → (∃ q c, run_wf s q c) → (∃ q c, run_wf s' q c) ∧ keeps_terminated s s'.
Proof.
  induction 1 as [s|s1 s2 s3 Hs _ IH]; intros (q & c & Hw); [split; [eauto|by intros j]|].
  destruct (sched_step_wf s1 s2 q c Hs Hw) as [Hw2 Ht2]. destruct (IH Hw2) as [Hw3 Ht3].
  split; [done|]. intros j Hj. by apply Ht3, Ht2.
Qed.

Lemma boot_reaches w e s1 s2 s3 s4 :
  process_init (static_sys w) e = Some s1 → sched_init s1 = Some s2 →
  rtc boot_step s2 s3 → sched_start s3 = Some s4 → ∃ q c, run_wf s4 q c.
Proof.
  intros E1 E2 Hs E4. assert (Hb : ∃ q, boot_wf s2 q) by (eauto using boot_init). clear E1 E2.
  induction Hs as [s|s s' s'' Hstep _ IH]; [destruct Hb as [q Hb]; by eapply start_wf|].
  apply IH; [done|]. destruct Hb as [q Hb], Hstep as [s name ent arg].
  destruct (boot_create s q name ent arg Hb) as [q' ?]. eauto.
Qed.

(** C6. The scheduler invariant.  After boot (process_init, sched_init, any
    process creations, sched_start) and any sequence of timer ticks, creations,
    exits, yields, blocks and unblocks: the run queue is a well-formed doubly
    linked list without duplicates that holds exactly the ready processes other
    than the idle process; exactly the current process is in the running state;
    and it has between 1 and 10 ticks left. *)
Theorem scheduler_invariant w e s1 s2 s3 s4 s :
  process_init (static_sys w) e = Some s1 → sched_init s1 = Some s2 →
  rtc boot_step s2 s3 → sched_start s3 = Some s4 → rtc sched_step s4 s →
  ∃ q c, queue_of s q ∧ current_process s = Some c
    ∧ (∀ i, i ∈ q ↔ slot_ok i ∧ st s i = PROCESS_STATE_READY ∧ i ≠ 0)
    ∧ (∀ i, slot_ok i → (st s i = PROCESS_STATE_RUNNING ↔ i = c))
    ∧ 1 <= slice s c <= DEFAULT_TIME_SLICE.
Proof.
  intros E1 E2 Hb E4 Hs. pose proof (boot_reaches w e s1 s2 s3 s4 E1 E2 Hb E4) as Hw4.
  destruct (sched_steps_wf s4 s Hs Hw4) as [(q & c & [[[Hq Hin _ _] _ Hc Hsl Ho _ _ _] Hr Hslice]) _].
  refine (ex_intro _ q (ex_intro _ c (conj Hq (conj Hc (conj Hin (conj _ Hslice)))))).
  intros i Hi. split; [|by intros ->].
  intros Hri. destruct (decide (i = c)) as [|Hne]; [done|]. by destruct (Ho i Hi Hne).
Qed.

(** A process slot is used once: when its process has terminated, the slot
    stays terminated over every later sequence of operations, so neither it nor
    its kernel stack is ever reused. *)
Theorem terminated_slot_never_reused s s' q c i :
  run_wf s q c → rtc sched_step s s' → st s i = PROCESS_STATE_TERMINATED →
  st s' i = PROCESS_STATE_TERMINATED.
Proof. intros Hw Hs. destruct (sched_steps_wf s s' Hs) as [_ Ht]; [eauto|]. apply Ht. Qed.

(** ** Waiting *)

Definition run_ticks s (ts : list Z) : sys W := foldl sched_tick s ts.

Lemma tick_progress s q c k p t :
  run_wf s q c → q !! k = Some p →
  let s' := sched_tick s t in
  current_process s' = Some p ∨
  ∃ q' c' k', run_wf s' q' c' ∧ q' !! k' = Some p
    ∧ 10 * Z.of_nat k' + slice s' c' < 10 * Z.of_nat k + slice s c.
Proof.
  intros Hw Hk. cbv zeta. destruct (sched_tick_wf s q c t Hw) as ((qw & _ & Hcase) & _ & _).
  pose proof (rw_slice _ _ _ Hw). pose proof (lookup_lt_Some _ _ _ Hk) as Hlt.
  destruct Hcase as [[Hw' Hs]|[(Hq & _)|[Hs Hsw]]].
  - right. exists (q ++ qw), c, k. split_and!; [done|by apply lookup_app_l_Some|lia].
  - apply app_eq_nil in Hq as [-> _]. done.
  - destruct q as [|n q0]; [done|]. simpl in Hs, Hsw.
    assert (Hnc : n ≠ c).
    { destruct (proj1 (bw_ready _ _ (mw_base _ _ _ (rw_mid _ _ _ Hw)) n) ltac:(left)) as (_ & Hr & _).
      intros ->. pose proof (rw_running _ _ _ Hw). congruence. }
    rewrite (proj2 (Z.eqb_neq n c)) in Hsw by done.
    destruct k as [|k]; simpl in Hk.
    + left. injection Hk as ->. by destruct Hsw as [Hw'|Hw']; destruct Hw' as [[] _ _].
    + right. destruct Hsw as [Hw'|Hw'].
      * exists (q0 ++ qw), n, k. split_and!; [done|by apply lookup_app_l_Some|].
        rewrite Hs. unfold DEFAULT_TIME_SLICE. lia.
      * exists ((q0 ++ qw) ++ [c]), n, k. split_and!; [done|by do 2 apply lookup_app_l_Some|].
        rewrite Hs. unfold DEFAULT_TIME_SLICE. lia.
Qed.

(** C14. Bounded waiting: the process at position [k] of the run queue becomes
    the current process within [10 * (k + 1)] timer ticks, whatever the tick
    counter and whichever processes wake up in between. *)
Theorem round_robin_bounded_wait s q c k p ts :
  run_wf s q c → q !! k = Some p → 10 * (Z.of_nat k + 1) <= Z.of_nat (length ts) →
  ∃ m, (m <= length ts)%nat ∧ current_process (run_ticks s (take m ts)) = Some p.
Proof.
  intros Hw Hk Hlen.
  assert (Hgen : ∀ ts s q c k, run_wf s q c → q !! k = Some p →
    10 * Z.of_nat k + slice s c <= Z.of_nat (length ts) →
    ∃ m, (m <= length ts)%nat ∧ current_process (run_ticks s (take m ts)) = Some p).
  { clear. intros ts. induction ts as [|t ts IH]; intros s q c k Hw Hk Hl.
    - pose proof (rw_slice _ _ _ Hw). simpl in Hl. lia.
    - destruct (tick_progress s q c k p t Hw Hk) as [Hc|(q' & c' & k' & Hw' & Hk' & Hd)].
      + exists 1%nat. split; [simpl; lia|]. by rewrite firstn_cons, take_0.
      + destruct (IH (sched_tick s t) q' c' k' Hw' Hk') as (m & Hm & Hc); [cbn [length] in Hl; lia|].
        exists (S m). split; [simpl; lia|]. by rewrite firstn_cons. }
  pose proof (rw_slice _ _ _ Hw) as Hsl. unfold DEFAULT_TIME_SLICE in Hsl. eapply Hgen; [done..|lia].
Qed.

(** The queue behind a yield. *)
Lemma process_yield_requeues s n q c :
  run_wf s (n :: q) c → c ≠ 0 →
  run_wf (process_yield s) (q ++ [c]) n ∧ slice (process_yield s) n = DEFAULT_TIME_SLICE
  ∧ need_reschedule (process_yield s) = true.
Proof.
  intros Hw Hc0. pose proof (rw_mid _ _ _ Hw) as Hm. unfold process_yield. rewrite (mw_current _ _ _ Hm).
  set (s1 := sched_reschedule (on s c (set_time_slice DEFAULT_TIME_SLICE))).
  assert (Hm1 : mid_wf s1 (n :: q) c).
  { apply (mid_wf_ext (on s c (set_time_slice DEFAULT_TIME_SLICE))); try done.
    apply on_mid; [by intros p|done|done]. }
  destruct (schedule_wf s1 (n :: q) c Hm1) as (Hw1 & Hs1 & Hn1 & _). simpl in Hw1, Hs1.
  assert (Hcr : st s1 c = PROCESS_STATE_RUNNING).
  { pose proof (rw_running _ _ _ Hw) as Hr. unfold st, s1 in *. simpl. by slots. }
  assert (Hnc : n ≠ c).
  { destruct (proj1 (bw_ready _ _ (mw_base _ _ _ Hm1) n) ltac:(left)) as (_ & Hr & _). congruence. }
  rewrite (proj2 (Z.eqb_neq n c)) in Hw1 by done. unfold requeued in Hw1.
  rewrite Hcr, bool_decide_true, (proj2 (Z.eqb_neq c 0)) in Hw1 by done. done.
Qed.

(** [process_yield] leaves the reschedule request pending: the process that
    takes over starts with a full time slice of 10 ticks but is preempted by
    the very next timer tick. *)
Theorem process_yield_cuts_next_slice s n q c t :
  run_wf s (n :: q) c → c ≠ 0 →
  let s1 := process_yield s in
  current_process s1 = Some n ∧ slice s1 n = DEFAULT_TIME_SLICE
  ∧ current_process (sched_tick s1 t) ≠ Some n.
Proof.
  intros Hw Hc0. cbv zeta. destruct (process_yield_requeues s n q c Hw Hc0) as (Hw1 & Hs1 & Hn1).
  split_and!; [exact (mw_current _ _ _ (rw_mid _ _ _ Hw1))|done|].
  destruct (sched_tick_wf _ _ _ t Hw1) as ((qw & Hsw & _) & _ & _).
  destruct (Hsw Hn1) as [_ Hrun]. rewrite <- app_assoc in Hrun.
  assert (Hne : ∀ m, m ∈ q ++ [c] → m ≠ n).
  { intros m Hin ->. apply (bw_ready _ _ (mw_base _ _ _ (rw_mid _ _ _ Hw1))) in Hin as (_ & Hr & _).
    pose proof (rw_running _ _ _ Hw1). congruence. }
  assert (Hcur : current_process (sched_tick (process_yield s) t) = Some (successor (q ++ [c] ++ qw)).1)
    by (destruct Hrun as [Hr|Hr]; exact (mw_current _ _ _ (rw_mid _ _ _ Hr))).
  rewrite Hcur. intros [= E]. destruct q as [|m q]; simpl in E; (eapply Hne; [|exact E]); set_solver.
Qed.

End reachability.

(** ** Witnesses *)

(** An environment whose allocator hands out successive addresses. *)
#[export] Instance bump_env : ProcEnv Z := {
  env_process_entry_wrapper := 0x1000;
  env_kmalloc n w := (w, w + n);
  env_kfree _ w := w;
  env_store64 _ _ w := w;
  env_fd_table_create w := (w, w + 64);
  env_fd_init_stdio _ w := w;
  env_fd_table_destroy _ w := w;
  env_tell _ w := w
}.

Definition or_static (s : option (sys Z)) : sys Z := default (static_sys 0) s.
Definition boot1 : sys Z := or_static (process_init (static_sys 0x10000) 0x2000).
Definition boot2 : sys Z := or_static (sched_init boot1).
Definition boot3 : sys Z := (process_create boot2 None 0x3000 0).2.
Definition boot4 : sys Z := (process_create boot3 None 0x3100 0).2.
Definition started : sys Z := or_static (sched_start boot4).

Lemma boot1_eq : process_init (static_sys 0x10000) 0x2000 = Some boot1.
Proof. reflexivity. Qed.
Lemma boot2_eq : sched_init boot1 = Some boot2.
Proof. reflexivity. Qed.
Lemma started_eq : sched_start boot4 = Some started.
Proof. reflexivity. Qed.

Lemma started_reaches : ∃ q c, run_wf started q c.
Proof.
  apply (boot_reaches 0x10000 0x2000 boot1 boot2 boot4 started boot1_eq boot2_eq); [|exact started_eq].
  eapply rtc_l; [exact (boot_step_create boot2 None 0x3000 0)|].
  apply rtc_once. exact (boot_step_create boot3 None 0x3100 0).
Qed.

Lemma started_wf : ∃ q, run_wf started (2 :: q) 1.
Proof.
  destruct started_reaches as (q & c & Hw). pose proof (rw_mid _ _ _ Hw) as Hm.
  pose proof (lk_head _ _ _ _ (bw_queue _ _ (mw_base _ _ _ Hm))) as Hh.
  pose proof (mw_current _ _ _ Hm) as Hc.
  assert (Eh : run_queue_head started = Some 2) by (vm_compute; reflexivity).
  assert (Ec : current_process started = Some 1) by (vm_compute; reflexivity).
  rewrite Ec in Hc. injection Hc as <-. rewrite Eh in Hh. destruct q as [|x q]; [done|].
  injection Hh as <-. eauto.
Qed.

Definition exited : sys Z := or_static (process_exit started 7).

Lemma scheduler_invariant_witness : ∃ q c, queue_of exited q ∧ current_process exited = Some c.
Proof.
  destruct (scheduler_invariant 0x10000 0x2000 boot1 boot2 boot4 started exited boot1_eq boot2_eq)
    as (q & c & Hq & Hc & _).
  - eapply rtc_l; [exact (boot_step_create boot2 None 0x3000 0)|].
    apply rtc_once. exact (boot_step_create boot3 None 0x3100 0).
  - exact started_eq.
  - apply rtc_once. apply (step_exit started 7). vm_compute. reflexivity.
  - exists q, c. split; [exact Hq|exact Hc].
Defined.

Lemma exited_wf : ∃ q c, run_wf exited q c.
Proof.
  destruct started_wf as [q Hw]. apply (sched_steps_wf started exited); [|eauto].
  apply rtc_once. apply (step_exit started 7). vm_compute. reflexivity.
Qed.

Lemma terminated_slot_never_reused_witness : st (sched_tick exited 3) 1 = PROCESS_STATE_TERMINATED.
Proof.
  destruct exited_wf as (q & c & Hw).
  apply (terminated_slot_never_reused exited (sched_tick exited 3) q c 1 Hw).
  - apply rtc_once. constructor.
  - vm_compute. reflexivity.
Defined.

Lemma round_robin_bounded_wait_witness :
  ∃ m, (m <= 10)%nat ∧ current_process (run_ticks started (take m (repeat 0 10))) = Some 2.
Proof.
  destruct started_wf as [q Hw].
  destruct (round_robin_bounded_wait started (2 :: q) 1 0 2 (repeat 0 10) Hw eq_refl) as (m & Hm & Hc);
    [simpl; lia|]. exists m. split; [exact Hm|exact Hc].
Defined.

Lemma process_yield_cuts_next_slice_witness :
  current_process (process_yield started) = Some 2
  ∧ current_process (sched_tick (process_yield started) 0) ≠ Some 2.
Proof.
  destruct started_wf as [q Hw].
  destruct (process_yield_cuts_next_slice started 2 q 1 0 Hw) as (H1 & _ & H3); [lia|].
  split; [exact H1|exact H3].
Defined.
