(* ===== verification/Ramfs.v ===== *)
(** * RAM filesystem: kernel/fs/ramfs.c

    The RAM disk is byte memory starting at [g_ramdisk.data]; superblock,
    inodes and directory entries are read and written at their packed struct
    offsets in it.  An inode pointer is the disk offset of the inode, a block
    pointer the disk offset of the block.  Names and paths are lists of
    non-zero bytes; the caller's read and write buffers are lists of bytes.
    The disk's address and [pit_get_ticks()] are part of the state.

    The theorems show that reads and writes of a file are reads and writes of
    its byte sequence, with holes reading as zero, that no file's data reaches
    another file, and that blocks and inodes are accounted for. *)

From Stdlib Require Import ZArith Lia.
From stdpp Require Import base numbers list relations.
From S2P Require Import Prelude.
From S2P Require Import Mem.
From S2P Require Import Bitmap.

(** ** Layout: ramfs.h *)

Definition RAMFS_MAGIC : Z := 0x52414D46.
Definition RAMFS_VERSION : Z := 1.
Definition RAMFS_MAX_FILES : Z := 256.
Definition RAMFS_MAX_FILENAME : Z := 60.
Definition RAMFS_MAX_PATH : Z := 256.
Definition RAMFS_BLOCK_SIZE : Z := 4096.
Definition RAMFS_MAX_BLOCKS : Z := 1024.
Definition RAMFS_ROOT_INODE : Z := 0.
Definition INODE_TYPE_FREE : Z := 0.
Definition INODE_TYPE_FILE : Z := 1.
Definition INODE_TYPE_DIR : Z := 2.
Definition INODE_PERM_DEFAULT_FILE : Z := Z.lor 4 2.
Definition INODE_PERM_DEFAULT_DIR : Z := Z.lor (Z.lor 4 2) 1.
Definition RAMFS_DIRECT_BLOCKS : Z := 12.
Definition RAMFS_INODE_START_BLOCK : Z := 1.
Definition RAMFS_DATA_START_BLOCK : Z := 9.

(** Packed struct sizes: 10 header fields, two bitmaps and 3896 reserved bytes;
    an inode; a directory entry. *)
Definition sizeof_superblock : Z := 4104.
Definition sizeof_inode : Z := 116.
Definition sizeof_dirent : Z := 64.

(** Superblock fields (the superblock is block 0). *)
Definition SB_magic : Z := 0.
Definition SB_version : Z := 4.
Definition SB_block_size : Z := 8.
Definition SB_total_blocks : Z := 12.
Definition SB_free_blocks : Z := 16.
Definition SB_total_inodes : Z := 20.
Definition SB_free_inodes : Z := 24.
Definition SB_root_inode : Z := 28.
Definition SB_created_time : Z := 32.
Definition SB_mount_time : Z := 40.
Definition SB_block_bitmap : Z := 48.
Definition SB_inode_bitmap : Z := 176.

(** Inode fields. *)
Definition IN_type : Z := 0.
Definition IN_permissions : Z := 4.
Definition IN_size : Z := 16.
Definition IN_created : Z := 24.
Definition IN_modified : Z := 32.
Definition IN_accessed : Z := 40.
Definition IN_link_count : Z := 48.
Definition IN_block_count : Z := 52.
Definition IN_blocks : Z := 56.
Definition IN_parent : Z := 108.

Definition inode_type (d : mem) (ip : Z) : Z := load32 d (ip + IN_type).
Definition inode_size (d : mem) (ip : Z) : Z := load64 d (ip + IN_size).
Definition inode_link_count (d : mem) (ip : Z) : Z := load32 d (ip + IN_link_count).
Definition inode_block_count (d : mem) (ip : Z) : Z := load32 d (ip + IN_block_count).
Definition inode_block (d : mem) (ip i : Z) : Z := load32 d (ip + IN_blocks + 4 * i).
Definition inode_parent (d : mem) (ip : Z) : Z := load32 d (ip + IN_parent).

(** Directory entry fields. *)
Definition de_inode (d : mem) (e : Z) : Z := load32 d e.
Definition de_name_len (d : mem) (e : Z) : Z := load8 d (e + 6).
Definition de_name (e : Z) : Z := e + 8.

(** The global state: [g_ramdisk] and [g_superblock]. *)
Record ramfs := Ramfs {
  rd_data : mem;
  rd_size : Z;
  rd_block_count : Z;
  rd_initialized : bool;
  sb_mounted : bool;
  fs_ticks : Z
}.

Definition with_data (s : ramfs) (d : mem) : ramfs :=
  Ramfs d (rd_size s) (rd_block_count s) (rd_initialized s) (sb_mounted s) (fs_ticks s).

(** ** RAM disk *)

(** [ramdisk_init]; [memory] is what kmalloc returned, [None] its failure. *)
Definition ramdisk_init (s : ramfs) (size_bytes : Z) (memory : option mem) : bool * ramfs :=
  if rd_initialized s then (true, s)
  else
    let size_bytes := Z.land (size_bytes +64 (RAMFS_BLOCK_SIZE - 1)) (Z.lnot (RAMFS_BLOCK_SIZE - 1)) in
    match memory with
    | None => (false, s)
    | Some m =>
        (true, Ramfs (fill m 0 0 size_bytes) size_bytes (u32 (size_bytes / RAMFS_BLOCK_SIZE)) true
                 (sb_mounted s) (fs_ticks s))
    end.

Definition ramdisk_get_block_ptr (s : ramfs) (block_num : Z) : option Z :=
  if negb (rd_initialized s) || (rd_block_count s <=? block_num) then None
  else Some (u32 (block_num * RAMFS_BLOCK_SIZE)).

Definition ramdisk_read_block (s : ramfs) (block_num : Z) : option (list Z) :=
  if negb (rd_initialized s) || (rd_block_count s <=? block_num) then None
  else Some (read_bytes (rd_data s) (u32 (block_num * RAMFS_BLOCK_SIZE)) RAMFS_BLOCK_SIZE).

Definition ramdisk_write_block (s : ramfs) (block_num : Z) (buffer : list Z) : bool * ramfs :=
  if negb (rd_initialized s) || (rd_block_count s <=? block_num) then (false, s)
  else (true, with_data s (write_bytes (rd_data s) (u32 (block_num * RAMFS_BLOCK_SIZE))
                             (take (Z.to_nat RAMFS_BLOCK_SIZE) buffer))).

Definition ramfs_get_block (s : ramfs) (block_num : Z) : option Z := ramdisk_get_block_ptr s block_num.

(** ** Inodes *)

Definition INODES_PER_BLOCK : Z := RAMFS_BLOCK_SIZE / sizeof_inode.

Definition ramfs_get_inode (s : ramfs) (inode_num : Z) : option Z :=
  if RAMFS_MAX_FILES <=? inode_num then None
  else
    block ← ramdisk_get_block_ptr s (RAMFS_INODE_START_BLOCK + inode_num / INODES_PER_BLOCK);
    Some (block + sizeof_inode * (inode_num mod INODES_PER_BLOCK)).

(** [ramfs_format] *)
Definition ramfs_format (s : ramfs) : bool * ramfs :=
  if negb (rd_initialized s) then (false, s)
  else match ramdisk_get_block_ptr s 0 with
  | None => (false, s)
  | Some sb =>
      let d := fill (rd_data s) sb 0 sizeof_superblock in
      let d := store32 d (sb + SB_magic) RAMFS_MAGIC in
      let d := store32 d (sb + SB_version) RAMFS_VERSION in
      let d := store32 d (sb + SB_block_size) RAMFS_BLOCK_SIZE in
      let d := store32 d (sb + SB_total_blocks) (rd_block_count s) in
      let d := store32 d (sb + SB_free_blocks) (rd_block_count s -32 RAMFS_DATA_START_BLOCK) in
      let d := store32 d (sb + SB_total_inodes) RAMFS_MAX_FILES in
      let d := store32 d (sb + SB_free_inodes) (RAMFS_MAX_FILES - 1) in
      let d := store32 d (sb + SB_root_inode) RAMFS_ROOT_INODE in
      let d := store64 d (sb + SB_created_time) (fs_ticks s) in
      let d := store64 d (sb + SB_mount_time) (fs_ticks s) in
      let d := for_each 0 RAMFS_DATA_START_BLOCK (λ i d, bitmap_set d (sb + SB_block_bitmap) i) d in
      let s := Ramfs d (rd_size s) (rd_block_count s) (rd_initialized s) true (fs_ticks s) in
      match ramfs_get_inode s RAMFS_ROOT_INODE with
      | None => (false, s)
      | Some root =>
          let d := fill d root 0 sizeof_inode in
          let d := store32 d (root + IN_type) INODE_TYPE_DIR in
          let d := store32 d (root + IN_permissions) INODE_PERM_DEFAULT_DIR in
          let d := store64 d (root + IN_size) 0 in
          let d := store64 d (root + IN_created) (fs_ticks s) in
          let d := store64 d (root + IN_modified) (fs_ticks s) in
          let d := store64 d (root + IN_accessed) (fs_ticks s) in
          let d := store32 d (root + IN_link_count) 2 in
          let d := store32 d (root + IN_parent) RAMFS_ROOT_INODE in
          let d := bitmap_set d (sb + SB_inode_bitmap) RAMFS_ROOT_INODE in
          (true, with_data s d)
      end
  end.

Definition ramfs_init (s : ramfs) (memory : option mem) : bool * ramfs :=
  let '(ok, s) := ramdisk_init s (RAMFS_MAX_BLOCKS * RAMFS_BLOCK_SIZE) memory in
  if ok then ramfs_format s else (false, s).

Definition free_inodes (d : mem) : Z := load32 d SB_free_inodes.
Definition free_blocks (d : mem) : Z := load32 d SB_free_blocks.

(** [ramfs_alloc_inode]: the inode number, [None] for -1. *)
Definition ramfs_alloc_inode (s : ramfs) (type : Z) : option Z * ramfs :=
  if negb (sb_mounted s) then (None, s)
  else
    let d := rd_data s in
    if free_inodes d =? 0 then (None, s)
    else match bitmap_find_free d SB_inode_bitmap RAMFS_MAX_FILES with
    | None => (None, s)
    | Some n =>
        let d := bitmap_set d SB_inode_bitmap n in
        let d := store32 d SB_free_inodes (free_inodes d -32 1) in
        match ramfs_get_inode s n with
        | None =>
            let d := bitmap_clear d SB_inode_bitmap n in
            (None, with_data s (store32 d SB_free_inodes (free_inodes d +32 1)))
        | Some ip =>
            let d := fill d ip 0 sizeof_inode in
            let d := store32 d (ip + IN_type) type in
            let d := store32 d (ip + IN_permissions)
                       (if type =? INODE_TYPE_DIR then INODE_PERM_DEFAULT_DIR
                        else INODE_PERM_DEFAULT_FILE) in
            let d := store64 d (ip + IN_created) (fs_ticks s) in
            let d := store64 d (ip + IN_modified) (fs_ticks s) in
            let d := store64 d (ip + IN_accessed) (fs_ticks s) in
            let d := store32 d (ip + IN_link_count) 1 in
            (Some n, with_data s d)
        end
    end.

(** ** Blocks *)

Definition ramfs_alloc_block (s : ramfs) : option Z * ramfs :=
  if negb (sb_mounted s) then (None, s)
  else if free_blocks (rd_data s) =? 0 then (None, s)
  else match find_first RAMFS_DATA_START_BLOCK (rd_block_count s)
               (λ i, negb (bitmap_test (rd_data s) SB_block_bitmap i)) with
  | None => (None, s)
  | Some i =>
      let d := bitmap_set (rd_data s) SB_block_bitmap i in
      let d := store32 d SB_free_blocks (free_blocks d -32 1) in
      let d := match ramdisk_get_block_ptr s i with
               | Some p => fill d p 0 RAMFS_BLOCK_SIZE
               | None => d
               end in
      (Some i, with_data s d)
  end.

Definition ramfs_free_block (s : ramfs) (block_num : Z) : ramfs :=
  if negb (sb_mounted s) || (block_num <? RAMFS_DATA_START_BLOCK) || (rd_block_count s <=? block_num)
  then s
  else if negb (bitmap_test (rd_data s) SB_block_bitmap block_num) then s
  else
    let d := bitmap_clear (rd_data s) SB_block_bitmap block_num in
    with_data s (store32 d SB_free_blocks (free_blocks d +32 1)).

Definition ramfs_free_inode (s : ramfs) (inode_num : Z) : ramfs :=
  if negb (sb_mounted s) || (RAMFS_MAX_FILES <=? inode_num) then s
  else if inode_num =? RAMFS_ROOT_INODE then s
  else match ramfs_get_inode s inode_num with
  | None => s
  | Some ip =>
      if inode_type (rd_data s) ip =? INODE_TYPE_FREE then s
      else
        let s := for_each 0 RAMFS_DIRECT_BLOCKS (λ i s,
                   let b := inode_block (rd_data s) ip i in
                   if negb (b =? 0) then ramfs_free_block s b else s) s in
        let d := fill (rd_data s) ip 0 sizeof_inode in
        let d := bitmap_clear d SB_inode_bitmap inode_num in
        with_data s (store32 d SB_free_inodes (free_inodes d +32 1))
  end.

(** ** File contents *)

(** One round of the read loop; the state is what has been read. *)
Definition read_step (s : ramfs) (ip count offset : Z) (acc : list Z) : ctl (list Z) (list Z) :=
  let bytes_read := zlen acc in
  if bytes_read <? count then
    let block_index := u32 ((offset +64 bytes_read) / RAMFS_BLOCK_SIZE) in
    let block_offset := u32 ((offset +64 bytes_read) mod RAMFS_BLOCK_SIZE) in
    if RAMFS_DIRECT_BLOCKS <=? block_index then Stop acc
    else
      let block_num := inode_block (rd_data s) ip block_index in
      let to_read := Z.min (count -64 bytes_read) (RAMFS_BLOCK_SIZE - block_offset) in
      if block_num =? 0 then Next (acc ++ replicate (Z.to_nat to_read) 0)
      else match ramfs_get_block s block_num with
      | None => Stop acc
      | Some p => Next (acc ++ read_bytes (rd_data s) (p + block_offset) to_read)
      end
  else Stop acc.

(** [ramfs_read]: the bytes read, [None] for -1. *)
Definition ramfs_read (s : ramfs) (inode : option Z) (count offset : Z)
    : option (option (list Z) * ramfs) :=
  match inode with
  | None => Some (None, s)
  | Some ip =>
      let d := rd_data s in
      if negb (inode_type d ip =? INODE_TYPE_FILE) then Some (None, s)
      else if inode_size d ip <=? offset then Some (Some [], s)
      else
        let count := if inode_size d ip <? offset +64 count then inode_size d ip -64 offset else count in
        bytes ← loop (read_step s ip count offset) [];
        Some (Some bytes, with_data s (store64 d (ip + IN_accessed) (fs_ticks s)))
  end.

(** The allocation of a missing block [i], the same in the write loop and in the
    search for a free directory slot; [false] when no block is left. *)
Definition ensure_block (s : ramfs) (ip i : Z) : bool * ramfs :=
  if inode_block (rd_data s) ip i =? 0 then
    match ramfs_alloc_block s with
    | (None, s) => (false, s)
    | (Some new_block, s) =>
        let d := store32 (rd_data s) (ip + IN_blocks + 4 * i) new_block in
        let d := store32 d (ip + IN_block_count) (inode_block_count d ip +32 1) in
        (true, with_data s d)
    end
  else (true, s).

(** One round of the write loop; the state is the filesystem and the number of
    bytes written. *)
Definition write_step (ip : Z) (buf : list Z) (count offset : Z) (st : ramfs * Z)
    : ctl (ramfs * Z) (ramfs * Z) :=
  let '(s, bytes_written) := st in
  if bytes_written <? count then
    let block_index := u32 ((offset +64 bytes_written) / RAMFS_BLOCK_SIZE) in
    let block_offset := u32 ((offset +64 bytes_written) mod RAMFS_BLOCK_SIZE) in
    if RAMFS_DIRECT_BLOCKS <=? block_index then Stop (s, bytes_written)
    else
      let '(ok, s) := ensure_block s ip block_index in
      if negb ok then Stop (s, bytes_written)
      else match ramfs_get_block s (inode_block (rd_data s) ip block_index) with
      | None => Stop (s, bytes_written)
      | Some p =>
          let to_write := Z.min (count -64 bytes_written) (RAMFS_BLOCK_SIZE - block_offset) in
          let chunk := take (Z.to_nat to_write) (drop (Z.to_nat bytes_written) buf) in
          Next (with_data s (write_bytes (rd_data s) (p + block_offset) chunk),
                bytes_written +64 to_write)
      end
  else Stop (s, bytes_written).

(** [ramfs_write]: the number of bytes written, [None] for -1. *)
Definition ramfs_write (s : ramfs) (inode : option Z) (buf : list Z) (offset : Z)
    : option (option Z * ramfs) :=
  match inode with
  | None => Some (None, s)
  | Some ip =>
      if negb (inode_type (rd_data s) ip =? INODE_TYPE_FILE) then Some (None, s)
      else
        let max_size := RAMFS_DIRECT_BLOCKS * RAMFS_BLOCK_SIZE in
        if max_size <? offset then Some (None, s)
        else
          let count := zlen buf in
          let count := if max_size <? offset +64 count then max_size -64 offset else count in
          '(s, n) ← loop (write_step ip buf count offset) (s, 0);
          let d := rd_data s in
          let d := if inode_size d ip <? offset +64 n then store64 d (ip + IN_size) (offset +64 n) else d in
          let d := store64 d (ip + IN_modified) (fs_ticks s) in
          let d := store64 d (ip + IN_accessed) (fs_ticks s) in
          Some (Some n, with_data s d)
  end.

Definition truncate_block (ip i : Z) (s : ramfs) : ramfs :=
  if negb (inode_block (rd_data s) ip i =? 0) then
    let s := ramfs_free_block s (inode_block (rd_data s) ip i) in
    let d := store32 (rd_data s) (ip + IN_blocks + 4 * i) 0 in
    with_data s (store32 d (ip + IN_block_count) (inode_block_count d ip -32 1))
  else s.

Definition ramfs_truncate (s : ramfs) (inode : option Z) (new_size : Z) : bool * ramfs :=
  match inode with
  | None => (false, s)
  | Some ip =>
      if negb (inode_type (rd_data s) ip =? INODE_TYPE_FILE) then (false, s)
      else
        let max_size := RAMFS_DIRECT_BLOCKS * RAMFS_BLOCK_SIZE in
        let new_size := if max_size <? new_size then max_size else new_size in
        let s := if new_size <? inode_size (rd_data s) ip then
                   let first_free_block := u32 ((new_size + RAMFS_BLOCK_SIZE - 1) / RAMFS_BLOCK_SIZE) in
                   for_each first_free_block RAMFS_DIRECT_BLOCKS (truncate_block ip) s
                 else s in
        let d := store64 (rd_data s) (ip + IN_size) new_size in
        (true, with_data s (store64 d (ip + IN_modified) (fs_ticks s)))
  end.

(** ** Directories *)

Definition DIRENTS_PER_BLOCK : Z := RAMFS_BLOCK_SIZE / sizeof_dirent.
Definition entry_at (p j : Z) : Z := p + sizeof_dirent * j.

(** [strncmp(entry->name, name, name_len) == 0] for a name of that length. *)
Definition entry_matches (d : mem) (e : Z) (name : list Z) : bool :=
  negb (de_inode d e =? 0) && (de_name_len d e =? zlen name)
  && bool_decide (read_bytes d (de_name e) (zlen name) = name).

(** The entry of [name] in a directory: the double loop of lookup and remove. *)
Definition find_entry (s : ramfs) (dir : Z) (name : list Z) : option Z :=
  match for_ 0 RAMFS_DIRECT_BLOCKS (λ i (_ : unit),
          let b := inode_block (rd_data s) dir i in
          if b =? 0 then Next tt
          else match ramfs_get_block s b with
          | None => Next tt
          | Some p =>
              match find_first 0 DIRENTS_PER_BLOCK (λ j, entry_matches (rd_data s) (entry_at p j) name) with
              | Some j => Stop (entry_at p j)
              | None => Next tt
              end
          end) tt with
  | Stop e => Some e
  | Next _ => None
  end.

Definition DOT : Z := 46.
Definition SLASH : Z := 47.

Definition ramfs_dir_lookup (s : ramfs) (dir : option Z) (name : list Z) : option Z :=
  match dir with
  | None => None
  | Some dp =>
      if negb (inode_type (rd_data s) dp =? INODE_TYPE_DIR) then None
      else if bool_decide (name = [DOT]) then None
      else if bool_decide (name = [DOT; DOT]) then Some (inode_parent (rd_data s) dp)
      else e ← find_entry s dp name; Some (de_inode (rd_data s) e)
  end.

(** Filling a directory entry. *)
Definition write_entry (d : mem) (e : Z) (name : list Z) (inode type : Z) : mem :=
  let d := store32 d e inode in
  let d := store16 d (e + 4) sizeof_dirent in
  let d := store8 d (e + 6) (u8 (zlen name)) in
  let d := store8 d (e + 7) (u8 type) in
  let d := write_bytes d (de_name e) name in
  store8 d (de_name e + zlen name) 0.

(** One round of the slot search of [ramfs_dir_add_entry]. *)
Definition add_step (dp : Z) (name : list Z) (inode type i : Z) (s : ramfs) : ctl ramfs (bool * ramfs) :=
  let '(ok, s) := ensure_block s dp i in
  if negb ok then Stop (false, s)
  else match ramfs_get_block s (inode_block (rd_data s) dp i) with
  | None => Next s
  | Some p =>
      match find_first 0 DIRENTS_PER_BLOCK (λ j, de_inode (rd_data s) (entry_at p j) =? 0) with
      | None => Next s
      | Some j =>
          let d := write_entry (rd_data s) (entry_at p j) name inode type in
          let d := store64 d (dp + IN_size) (inode_size d dp +64 sizeof_dirent) in
          Stop (true, with_data s (store64 d (dp + IN_modified) (fs_ticks s)))
      end
  end.

Definition ramfs_dir_add_entry (s : ramfs) (dir : option Z) (name : list Z) (inode type : Z)
    : bool * ramfs :=
  match dir with
  | None => (false, s)
  | Some dp =>
      if negb (inode_type (rd_data s) dp =? INODE_TYPE_DIR) then (false, s)
      else if (zlen name =? 0) || (RAMFS_MAX_FILENAME <=? zlen name) then (false, s)
      else match ramfs_dir_lookup s dir name with
      | Some _ => (false, s)
      | None =>
          match for_ 0 RAMFS_DIRECT_BLOCKS (add_step dp name inode type) s with
          | Stop r => r
          | Next s => (false, s)
          end
      end
  end.

Definition ramfs_dir_remove_entry (s : ramfs) (dir : option Z) (name : list Z) : bool * ramfs :=
  match dir with
  | None => (false, s)
  | Some dp =>
      if negb (inode_type (rd_data s) dp =? INODE_TYPE_DIR) then (false, s)
      else match find_entry s dp name with
      | None => (false, s)
      | Some e =>
          let d := fill (rd_data s) e 0 sizeof_dirent in
          let d := store64 d (dp + IN_size) (inode_size d dp -64 sizeof_dirent) in
          (true, with_data s (store64 d (dp + IN_modified) (fs_ticks s)))
      end
  end.

(** The entry with number [index], as the 64 bytes copied to the caller. *)
Definition ramfs_dir_read_entry (s : ramfs) (dir : option Z) (index : Z) : option (list Z) :=
  match dir with
  | None => None
  | Some dp =>
      let d := rd_data s in
      if negb (inode_type d dp =? INODE_TYPE_DIR) then None
      else
        match for_ 0 RAMFS_DIRECT_BLOCKS (λ i cur,
                let b := inode_block d dp i in
                if b =? 0 then Next cur
                else match ramfs_get_block s b with
                | None => Next cur
                | Some p =>
                    for_ 0 DIRENTS_PER_BLOCK (λ j cur,
                      if negb (de_inode d (entry_at p j) =? 0) then
                        if cur =? index then Stop (entry_at p j) else Next (cur +32 1)
                      else Next cur) cur
                end) 0 with
        | Stop e => Some (read_bytes d e sizeof_dirent)
        | Next _ => None
        end
  end.

(** ** Paths *)

(** The component at [p] and the rest of the path; [None] when it is longer
    than 59 bytes. *)
Fixpoint take_component (len : Z) (p : list Z) : option (list Z * list Z) :=
  match p with
  | [] => Some ([], [])
  | c :: p' =>
      if c =? SLASH then Some ([], p)
      else if RAMFS_MAX_FILENAME - 1 <=? len then None
      else '(comp, rest) ← take_component (len + 1) p'; Some (c :: comp, rest)
  end.

(** The traversal loop; every round consumes a byte of the path. *)
Fixpoint lookup_walk (fuel : nat) (s : ramfs) (current : Z) (p : list Z) : option Z :=
  match fuel with
  | O => None
  | S fuel =>
      match p with
      | [] => Some current
      | _ :: p' =>
          '(comp, rest) ← take_component 0 p;
          match comp with
          | [] => lookup_walk fuel s current p'
          | _ =>
              dir ← ramfs_get_inode s current;
              if negb (inode_type (rd_data s) dir =? INODE_TYPE_DIR) then None
              else
                nxt ← ramfs_dir_lookup s (Some dir) comp;
                lookup_walk fuel s nxt
                  (match rest with c :: rest' => if c =? SLASH then rest' else rest | [] => [] end)
          end
      end
  end.

Definition ramfs_lookup_path (s : ramfs) (path : list Z) : option Z :=
  match path with
  | c :: p =>
      if negb (c =? SLASH) then None
      else lookup_walk (S (length p)) s RAMFS_ROOT_INODE p
  | [] => None
  end.

(** Parent path and last component, split at the last separator. *)
Fixpoint last_slash_from (i : nat) (found : nat) (p : list Z) : nat :=
  match p with
  | [] => found
  | c :: p => last_slash_from (S i) (if c =? SLASH then i else found) p
  end.

Definition split_path (path : list Z) : option (list Z * list Z) :=
  let ls := last_slash_from 0 0 path in
  match ls with
  | O => Some ([SLASH], take (Z.to_nat (RAMFS_MAX_FILENAME - 1)) (drop 1 path))
  | _ => if RAMFS_MAX_PATH <=? Z.of_nat ls then None
         else Some (take ls path, take (Z.to_nat (RAMFS_MAX_FILENAME - 1)) (drop (S ls) path))
  end.

Definition is_absolute (path : list Z) : bool :=
  match path with c :: _ => c =? SLASH | [] => false end.

(** The common part of file and directory creation: the parent's inode number
    and address and the new name, when the parent exists and lacks the name. *)
Definition create_target (s : ramfs) (path : list Z) : option (Z * Z * list Z) :=
  if negb (is_absolute path) then None
  else
    '(parent_path, name) ← split_path path;
    match name with
    | [] => None
    | _ =>
        parent_inode ← ramfs_lookup_path s parent_path;
        parent ← ramfs_get_inode s parent_inode;
        if negb (inode_type (rd_data s) parent =? INODE_TYPE_DIR) then None
        else match ramfs_dir_lookup s (Some parent) name with
        | Some _ => None
        | None => Some (parent_inode, parent, name)
        end
    end.

Definition ramfs_create_file (s : ramfs) (path : list Z) : option Z * ramfs :=
  match create_target s path with
  | None => (None, s)
  | Some (parent_inode, parent, name) =>
      match ramfs_alloc_inode s INODE_TYPE_FILE with
      | (None, s) => (None, s)
      | (Some n, s) =>
          let s := match ramfs_get_inode s n with
                   | Some ip => with_data s (store32 (rd_data s) (ip + IN_parent) parent_inode)
                   | None => s
                   end in
          let '(ok, s) := ramfs_dir_add_entry s (Some parent) name n INODE_TYPE_FILE in
          if ok then (Some n, s) else (None, ramfs_free_inode s n)
      end
  end.

Definition ramfs_create_dir (s : ramfs) (path : list Z) : option Z * ramfs :=
  match create_target s path with
  | None => (None, s)
  | Some (parent_inode, parent, name) =>
      match ramfs_alloc_inode s INODE_TYPE_DIR with
      | (None, s) => (None, s)
      | (Some n, s) =>
          let s := match ramfs_get_inode s n with
                   | Some ip =>
                       let d := store32 (rd_data s) (ip + IN_parent) parent_inode in
                       with_data s (store32 d (ip + IN_link_count) 2)
                   | None => s
                   end in
          let s := with_data s (store32 (rd_data s) (parent + IN_link_count)
                                  (inode_link_count (rd_data s) parent +32 1)) in
          let '(ok, s) := ramfs_dir_add_entry s (Some parent) name n INODE_TYPE_DIR in
          if ok then (Some n, s)
          else
            let s := ramfs_free_inode s n in
            (None, with_data s (store32 (rd_data s) (parent + IN_link_count)
                                  (inode_link_count (rd_data s) parent -32 1)))
      end
  end.

(** ** The view of the disk that the proofs use *)

Definition inode_at (n : Z) : Z :=
  RAMFS_BLOCK_SIZE * (RAMFS_INODE_START_BLOCK + n / INODES_PER_BLOCK)
  + sizeof_inode * (n mod INODES_PER_BLOCK).

Definition used_block (s : ramfs) (b : Z) : bool := bitmap_test (rd_data s) SB_block_bitmap b.
Definition used_inode (s : ramfs) (n : Z) : bool := bitmap_test (rd_data s) SB_inode_bitmap n.
Definition ityp (s : ramfs) (n : Z) : Z := inode_type (rd_data s) (inode_at n).
Definition isize (s : ramfs) (n : Z) : Z := inode_size (rd_data s) (inode_at n).
Definition iblock (s : ramfs) (n i : Z) : Z := inode_block (rd_data s) (inode_at n) i.
Definition iparent (s : ramfs) (n : Z) : Z := inode_parent (rd_data s) (inode_at n).

Definition valid_inode (n : Z) : Prop := 0 <= n < RAMFS_MAX_FILES.
Definition MAX_FILE_SIZE : Z := RAMFS_DIRECT_BLOCKS * RAMFS_BLOCK_SIZE.

(** Byte [o] of inode [n]'s data; a hole reads as zero. *)
Definition file_byte (s : ramfs) (n o : Z) : Z :=
  let b := iblock s n (o / RAMFS_BLOCK_SIZE) in
  if b =? 0 then 0 else rd_data s (RAMFS_BLOCK_SIZE * b + o mod RAMFS_BLOCK_SIZE).

Definition file_bytes (s : ramfs) (n o len : Z) : list Z := file_byte s n <$> seqZ o len.

(** The invariant of a mounted filesystem. *)
Record fs_wf (s : ramfs) : Prop := FsWf {
  fw_mem : mem_wf (rd_data s);
  fw_init : rd_initialized s = true;
  fw_mounted : sb_mounted s = true;
  fw_bc : RAMFS_DATA_START_BLOCK <= rd_block_count s <= RAMFS_MAX_BLOCKS;
  fw_ticks : is_u64 (fs_ticks s);
  fw_sys : ∀ b, 0 <= b < RAMFS_DATA_START_BLOCK → used_block s b = true;
  fw_fb : free_blocks (rd_data s) = count_free (rd_data s) SB_block_bitmap (rd_block_count s);
  fw_fi : free_inodes (rd_data s) = count_free (rd_data s) SB_inode_bitmap RAMFS_MAX_FILES;
  fw_type : ∀ n, valid_inode n →
    if used_inode s n then ityp s n = INODE_TYPE_FILE ∨ ityp s n = INODE_TYPE_DIR
    else ityp s n = INODE_TYPE_FREE;
  fw_root : used_inode s RAMFS_ROOT_INODE = true ∧ ityp s RAMFS_ROOT_INODE = INODE_TYPE_DIR;
  fw_size : ∀ n, valid_inode n → ityp s n = INODE_TYPE_FILE → isize s n <= MAX_FILE_SIZE;
  fw_own : ∀ n i, valid_inode n → used_inode s n = true → 0 <= i < RAMFS_DIRECT_BLOCKS →
    iblock s n i ≠ 0 →
    RAMFS_DATA_START_BLOCK <= iblock s n i < rd_block_count s ∧ used_block s (iblock s n i) = true;
  fw_inj : ∀ n i m j, valid_inode n → valid_inode m →
    used_inode s n = true → used_inode s m = true →
    0 <= i < RAMFS_DIRECT_BLOCKS → 0 <= j < RAMFS_DIRECT_BLOCKS →
    iblock s n i ≠ 0 → iblock s n i = iblock s m j → n = m ∧ i = j
}.

(** The geometry and clock are those of [s]. *)
Definition same_disk (s s' : ramfs) : Prop :=
  rd_initialized s' = rd_initialized s ∧ sb_mounted s' = sb_mounted s
  ∧ rd_block_count s' = rd_block_count s ∧ fs_ticks s' = fs_ticks s.

(** Every inode in use except [n] keeps its type, size, parent and data. *)
Definition others_kept (n : Z) (s s' : ramfs) : Prop :=
  ∀ m, valid_inode m → m ≠ n → used_inode s m = true →
    used_inode s' m = true ∧ ityp s' m = ityp s m ∧ isize s' m = isize s m
    ∧ iparent s' m = iparent s m
    ∧ (∀ i, 0 <= i < RAMFS_DIRECT_BLOCKS → iblock s' m i = iblock s m i)
    ∧ ∀ o, 0 <= o < MAX_FILE_SIZE → file_byte s' m o = file_byte s m o.

(** ** Geometry lemmas *)

Ltac fs_consts :=
  unfold MAX_FILE_SIZE, RAMFS_DIRECT_BLOCKS, RAMFS_BLOCK_SIZE, RAMFS_MAX_FILES,
    RAMFS_DATA_START_BLOCK, RAMFS_MAX_BLOCKS, RAMFS_INODE_START_BLOCK, RAMFS_ROOT_INODE,
    sizeof_inode, sizeof_dirent, sizeof_superblock,
    SB_magic, SB_version, SB_block_size, SB_total_blocks, SB_total_inodes, SB_root_inode,
    SB_created_time, SB_mount_time, SB_free_blocks, SB_free_inodes, SB_block_bitmap, SB_inode_bitmap,
    IN_type, IN_permissions, IN_size, IN_created, IN_modified, IN_accessed, IN_link_count,
    IN_block_count, IN_blocks, IN_parent in *.

Lemma INODES_PER_BLOCK_eq : INODES_PER_BLOCK = 35.
Proof. done. Qed.

Lemma inode_at_range n : valid_inode n → 4096 <= inode_at n ∧ inode_at n + 116 <= 36864.
Proof.
  unfold valid_inode, inode_at. rewrite INODES_PER_BLOCK_eq. fs_consts. intros Hn.
  pose proof (Z.mod_pos_bound n 35 ltac:(lia)). pose proof (Z.div_mod n 35 ltac:(lia)).
  lia.
Qed.

Lemma inode_at_disjoint n m :
  valid_inode n → valid_inode m → n ≠ m →
  inode_at n + 116 <= inode_at m ∨ inode_at m + 116 <= inode_at n.
Proof.
  unfold valid_inode, inode_at. rewrite INODES_PER_BLOCK_eq. fs_consts. intros Hn Hm Hne.
  pose proof (Z.mod_pos_bound n 35 ltac:(lia)). pose proof (Z.div_mod n 35 ltac:(lia)).
  pose proof (Z.mod_pos_bound m 35 ltac:(lia)). pose proof (Z.div_mod m 35 ltac:(lia)). lia.
Qed.

Lemma get_block_ptr_Some s b :
  rd_initialized s = true → 0 <= b < rd_block_count s → rd_block_count s <= RAMFS_MAX_BLOCKS →
  ramdisk_get_block_ptr s b = Some (RAMFS_BLOCK_SIZE * b).
Proof.
  intros Hi Hb Hc. unfold ramdisk_get_block_ptr. rewrite Hi.
  rewrite (proj2 (Z.leb_gt _ _)) by lia. simpl. rewrite u32_id by (fs_consts; lia).
  f_equal. lia.
Qed.

Lemma get_inode_Some s n :
  fs_wf s → valid_inode n → ramfs_get_inode s n = Some (inode_at n).
Proof.
  intros Hwf Hn. destruct Hwf as [_ Hi _ Hbc _ _ _ _ _ _ _ _ _].
  unfold ramfs_get_inode. unfold valid_inode in Hn.
  rewrite (proj2 (Z.leb_gt _ _)) by lia.
  assert (0 <= n / INODES_PER_BLOCK <= 7).
  { rewrite INODES_PER_BLOCK_eq. fs_consts.
    pose proof (Z.mod_pos_bound n 35 ltac:(lia)). pose proof (Z.div_mod n 35 ltac:(lia)). lia. }
  rewrite get_block_ptr_Some; [done|done|fs_consts; lia|fs_consts; lia].
Qed.

(** ** Changes that touch one inode or one block

    [changed d d' a k]: the memories agree outside the [k] bytes at [a]. *)

Definition changed (d d' : mem) (a k : Z) : Prop := ∀ x, x < a ∨ a + k <= x → d' x = d x.

Lemma changed_store n d a v k b :
  b <= a → a + Z.of_nat n <= b + k → changed d (store (Z.of_nat n) d a v) b k.
Proof. intros ?? x Hx. apply store_ne. lia. Qed.

Lemma changed_fill d a v n k b : b <= a → a + n <= b + k → changed d (fill d a v n) b k.
Proof.
  intros ?? x Hx. unfold fill. by rewrite (proj2 (in_range_false _ _ _)) by lia.
Qed.

Lemma changed_write_bytes d a bs k b :
  b <= a → a + zlen bs <= b + k → changed d (write_bytes d a bs) b k.
Proof.
  intros ?? x Hx. unfold write_bytes. unfold zlen in *.
  by rewrite (proj2 (in_range_false _ _ _)) by lia.
Qed.

Lemma changed_trans d1 d2 d3 a k : changed d1 d2 a k → changed d2 d3 a k → changed d1 d3 a k.
Proof. intros H1 H2 x Hx. rewrite H2, H1; done. Qed.

Lemma changed_weaken d d' a k b l :
  changed d d' a k → b <= a → a + k <= b + l → changed d d' b l.
Proof. intros H ?? x Hx. apply H. lia. Qed.

Lemma changed_refl d a k : changed d d a k.
Proof. done. Qed.

Lemma changed_load n d d' a k b :
  changed d d' a k → b + Z.of_nat n <= a ∨ a + k <= b → load n d' b = load n d b.
Proof. intros H Hd. apply load_ext. intros x Hx. apply H. lia. Qed.

(** What a change outside a structure leaves alone. *)
Section frame.
Context (s s' : ramfs) (a k : Z).
Hypothesis Hch : changed (rd_data s) (rd_data s') a k.

Lemma used_block_frame b :
  208 <= a → 0 <= b < RAMFS_MAX_BLOCKS → used_block s' b = used_block s b.
Proof.
  intros Ha Hb. apply bitmap_test_ext, Hch. fs_consts.
  pose proof (Z.div_lt_upper_bound b 8 128). lia.
Qed.

Lemma used_inode_frame n : 208 <= a → valid_inode n → used_inode s' n = used_inode s n.
Proof.
  intros Ha Hn. apply bitmap_test_ext, Hch. unfold valid_inode in *. fs_consts.
  pose proof (Z.div_lt_upper_bound n 8 32). lia.
Qed.

Lemma counts_frame :
  208 <= a → free_blocks (rd_data s') = free_blocks (rd_data s)
           ∧ free_inodes (rd_data s') = free_inodes (rd_data s).
Proof. intros. split; apply (changed_load 4 _ _ a k); try done; fs_consts; lia. Qed.

Lemma inode_frame m :
  inode_at m + 116 <= a ∨ a + k <= inode_at m →
  ityp s' m = ityp s m ∧ isize s' m = isize s m ∧ iparent s' m = iparent s m
  ∧ ∀ i, 0 <= i < RAMFS_DIRECT_BLOCKS → iblock s' m i = iblock s m i.
Proof.
  intros Hd. unfold ityp, isize, iparent, iblock, inode_type, inode_size, inode_parent, inode_block.
  split_and!; intros; eapply changed_load; try exact Hch; fs_consts; lia.
Qed.

End frame.

Lemma file_byte_frame s s' m o :
  iblock s' m (o / RAMFS_BLOCK_SIZE) = iblock s m (o / RAMFS_BLOCK_SIZE) →
  (iblock s m (o / RAMFS_BLOCK_SIZE) ≠ 0 → ∀ j, 0 <= j < RAMFS_BLOCK_SIZE →
   let b := iblock s m (o / RAMFS_BLOCK_SIZE) in
   rd_data s' (RAMFS_BLOCK_SIZE * b + j) = rd_data s (RAMFS_BLOCK_SIZE * b + j)) →
  file_byte s' m o = file_byte s m o.
Proof.
  intros Hb Hd. unfold file_byte. rewrite Hb.
  destruct (Z.eqb_spec (iblock s m (o / RAMFS_BLOCK_SIZE)) 0); [done|].
  apply Hd; [done|]. apply Z.mod_pos_bound. fs_consts. lia.
Qed.

Lemma block_index_range o :
  0 <= o < MAX_FILE_SIZE → 0 <= o / RAMFS_BLOCK_SIZE < RAMFS_DIRECT_BLOCKS.
Proof.
  fs_consts. intros. split; [apply Z.div_pos; lia|apply Z.div_lt_upper_bound; lia].
Qed.

Lemma count_free_used s bm n (f : Z → bool) :
  (∀ i, 0 <= i < n → bitmap_test (rd_data s) bm i = f i) →
  count_free (rd_data s) bm n = countZ (λ i, negb (f i)) n.
Proof. intros H. apply countZ_ext. intros i Hi. by rewrite H. Qed.

(** A state whose allocation maps, inode types and block lists are those of a
    well-formed state, with file sizes in bounds, is well formed. *)
Lemma fs_wf_kept s s' :
  fs_wf s → same_disk s s' → mem_wf (rd_data s') →
  free_blocks (rd_data s') = free_blocks (rd_data s) →
  free_inodes (rd_data s') = free_inodes (rd_data s) →
  (∀ b, 0 <= b < RAMFS_MAX_BLOCKS → used_block s' b = used_block s b) →
  (∀ n, valid_inode n → used_inode s' n = used_inode s n) →
  (∀ n, valid_inode n → ityp s' n = ityp s n) →
  (∀ n, valid_inode n → ityp s n = INODE_TYPE_FILE → isize s' n <= MAX_FILE_SIZE) →
  (∀ n i, valid_inode n → 0 <= i < RAMFS_DIRECT_BLOCKS → iblock s' n i = iblock s n i) →
  fs_wf s'.
Proof.
  intros [Hm Hi Hmt Hbc Htk Hsys Hfb Hfi Hty Hroot Hsz Hown Hinj] (E1 & E2 & E3 & E4) Hm'
    Efb Efi Eub Eui Ety Esz Ebl.
  assert (valid_inode RAMFS_ROOT_INODE) by (unfold valid_inode; fs_consts; lia).
  constructor; rewrite ?E1, ?E2, ?E3, ?E4; try done.
  - intros b Hb. rewrite Eub; [auto|fs_consts; lia].
  - rewrite Efb, Hfb. apply countZ_ext. intros b Hb. f_equal. symmetry. apply Eub. lia.
  - rewrite Efi, Hfi. apply countZ_ext. intros b Hb. f_equal. symmetry. by apply Eui.
  - intros n Hn. rewrite Eui, Ety by done. by apply Hty.
  - by rewrite Eui, Ety by done.
  - intros n Hn. rewrite Ety by done. by apply Esz.
  - intros n i Hn. rewrite Eui by done. intros Hu Hir. rewrite Ebl by done. intros Hne.
    destruct (Hown n i Hn Hu Hir Hne). rewrite Eub by (fs_consts; lia). done.
  - intros n i m j Hn Hm0. rewrite !Eui by done. intros ?? Hir Hjr. rewrite !Ebl by done.
    by apply Hinj.
Qed.

Lemma owned_range s m i :
  fs_wf s → valid_inode m → used_inode s m = true → 0 <= i < RAMFS_DIRECT_BLOCKS →
  iblock s m i ≠ 0 → RAMFS_DATA_START_BLOCK <= iblock s m i < rd_block_count s.
Proof. intros Hwf ? ? ? ?. by apply (fw_own s Hwf). Qed.

(** Updating fields of one inode other than its type and block list. *)
Lemma inode_change_kept s s' n :
  fs_wf s → valid_inode n → changed (rd_data s) (rd_data s') (inode_at n) 116 →
  others_kept n s s'.
Proof.
  intros Hwf Hn Hch m Hm Hne Hu. pose proof (inode_at_range n Hn).
  destruct (inode_frame _ _ _ _ Hch m) as (E1 & E2 & E3 & E4).
  { destruct (inode_at_disjoint n m); auto. }
  rewrite (used_inode_frame _ _ _ _ Hch) by (done || lia).
  split_and!; try done. intros o Ho%block_index_range.
  apply file_byte_frame; [by apply E4|]. intros Hb j Hj. apply Hch.
  pose proof (owned_range s m _ Hwf Hm Hu Ho Hb). fs_consts. lia.
Qed.

Lemma inode_change_wf s s' n :
  fs_wf s → valid_inode n → same_disk s s' → mem_wf (rd_data s') →
  changed (rd_data s) (rd_data s') (inode_at n) 116 →
  ityp s' n = ityp s n →
  (ityp s n = INODE_TYPE_FILE → isize s' n <= MAX_FILE_SIZE) →
  (∀ i, 0 <= i < RAMFS_DIRECT_BLOCKS → iblock s' n i = iblock s n i) →
  fs_wf s'.
Proof.
  intros Hwf Hn Hd Hm Hch Ety Esz Ebl. pose proof (inode_at_range n Hn).
  assert (Hoth : ∀ m, valid_inode m → m ≠ n → inode_at m + 116 <= inode_at n ∨ inode_at n + 116 <= inode_at m).
  { intros m Hm0 Hne. destruct (inode_at_disjoint n m); auto. }
  destruct (counts_frame _ _ _ _ Hch) as [Efb Efi]; [lia|].
  apply (fs_wf_kept s); try done.
  - intros b Hb. by apply (used_block_frame _ _ _ _ Hch); [lia|].
  - intros m Hm0. by apply (used_inode_frame _ _ _ _ Hch); [lia|].
  - intros m Hm0. destruct (decide (m = n)) as [->|Hne]; [done|].
    by apply (inode_frame _ _ _ _ Hch m (Hoth m Hm0 Hne)).
  - intros m Hm0 Ht. destruct (decide (m = n)) as [->|Hne]; [by apply Esz|].
    destruct (inode_frame _ _ _ _ Hch m (Hoth m Hm0 Hne)) as (_ & -> & _).
    by apply (fw_size s Hwf).
  - intros m i Hm0 Hi. destruct (decide (m = n)) as [->|Hne]; [by apply Ebl|].
    by apply (inode_frame _ _ _ _ Hch m (Hoth m Hm0 Hne)).
Qed.

Lemma inode_change_bytes s s' n o :
  fs_wf s → valid_inode n → used_inode s n = true →
  changed (rd_data s) (rd_data s') (inode_at n) 116 →
  (∀ i, 0 <= i < RAMFS_DIRECT_BLOCKS → iblock s' n i = iblock s n i) →
  0 <= o < MAX_FILE_SIZE → file_byte s' n o = file_byte s n o.
Proof.
  intros Hwf Hn Hu Hch Ebl Ho%block_index_range. pose proof (inode_at_range n Hn).
  apply file_byte_frame; [by apply Ebl|]. intros Hb j Hj. apply Hch.
  pose proof (owned_range s n _ Hwf Hn Hu Ho Hb). fs_consts. lia.
Qed.

(** The fields of an inode through a change to a part of it. *)
Section fields.
Context (s s' : ramfs) (n a k : Z).
Hypothesis Hch : changed (rd_data s) (rd_data s') (inode_at n + a) k.

Lemma ityp_field : 4 <= a → ityp s' n = ityp s n.
Proof. intros. apply (changed_load 4 _ _ _ _ _ Hch). fs_consts. lia. Qed.
Lemma isize_field : a + k <= 16 ∨ 24 <= a → isize s' n = isize s n.
Proof. intros. apply (changed_load 8 _ _ _ _ _ Hch). fs_consts. lia. Qed.
Lemma iparent_field : a + k <= 108 ∨ 112 <= a → iparent s' n = iparent s n.
Proof. intros. apply (changed_load 4 _ _ _ _ _ Hch). fs_consts. lia. Qed.
Lemma iblock_field i :
  a + k <= 56 ∨ 104 <= a → 0 <= i < RAMFS_DIRECT_BLOCKS → iblock s' n i = iblock s n i.
Proof. intros. apply (changed_load 4 _ _ _ _ _ Hch). fs_consts. lia. Qed.

End fields.

(** ** Allocation of blocks *)

Lemma fs_free_blocks_range s : mem_wf (rd_data s) → 0 <= free_blocks (rd_data s) < 2 ^ 32.
Proof. intros H. apply (load_range 4 _ _ H). Qed.

(** The effect of a successful block allocation on the view. *)
Record block_taken (s s' : ramfs) (b : Z) : Prop := BlockTaken {
  bt_range : RAMFS_DATA_START_BLOCK <= b < rd_block_count s;
  bt_was_free : used_block s b = false;
  bt_used : ∀ c, 0 <= c < RAMFS_MAX_BLOCKS → used_block s' c = (c =? b) || used_block s c;
  bt_inodes : ∀ x, 4096 <= x < 36864 → rd_data s' x = rd_data s x;
  bt_used_inode : ∀ n, valid_inode n → used_inode s' n = used_inode s n;
  bt_data : ∀ x, 36864 <= x → ¬ RAMFS_BLOCK_SIZE * b <= x < RAMFS_BLOCK_SIZE * b + RAMFS_BLOCK_SIZE →
    rd_data s' x = rd_data s x;
  bt_zero : ∀ j, 0 <= j < RAMFS_BLOCK_SIZE → rd_data s' (RAMFS_BLOCK_SIZE * b + j) = 0;
  bt_count : free_blocks (rd_data s') = free_blocks (rd_data s) - 1
}.

Lemma block_taken_fields s s' b n :
  block_taken s s' b → valid_inode n →
  ityp s' n = ityp s n ∧ isize s' n = isize s n ∧ iparent s' n = iparent s n
  ∧ ∀ i, 0 <= i < RAMFS_DIRECT_BLOCKS → iblock s' n i = iblock s n i.
Proof.
  intros Hb Hn. pose proof (inode_at_range n Hn).
  unfold ityp, isize, iparent, iblock, inode_type, inode_size, inode_parent, inode_block.
  split_and!; intros; apply load_ext; intros x Hx; apply (bt_inodes _ _ _ Hb); fs_consts; lia.
Qed.

Lemma fs_wf_block_taken s s' b :
  fs_wf s → same_disk s s' → mem_wf (rd_data s') →
  free_inodes (rd_data s') = free_inodes (rd_data s) →
  block_taken s s' b → fs_wf s'.
Proof.
  intros Hwf (E1 & E2 & E3 & E4) Hm' Efi Hb.
  pose proof (λ n Hn, block_taken_fields s s' b n Hb Hn) as Hf.
  assert (valid_inode RAMFS_ROOT_INODE) by (unfold valid_inode; fs_consts; lia).
  pose proof (fw_bc s Hwf) as Hbc. pose proof (bt_range _ _ _ Hb) as Hbr.
  destruct Hwf as [Hm Hi Hmt _ Htk Hsys Hfb Hfi Hty Hroot Hsz Hown Hinj].
  constructor; rewrite ?E1, ?E2, ?E3, ?E4; try done.
  - intros c Hc. rewrite (bt_used _ _ _ Hb) by (fs_consts; lia). by rewrite Hsys, orb_true_r.
  - rewrite (bt_count _ _ _ Hb), Hfb. symmetry. apply (countZ_remove _ _ _ b).
    + fs_consts. lia.
    + apply negb_true_iff. exact (bt_was_free _ _ _ Hb).
    + apply negb_false_iff. rewrite <- (orb_true_l (used_block s b)), <- (Z.eqb_refl b).
      apply (bt_used _ _ _ Hb). fs_consts. lia.
    + intros c Hc Hne. f_equal. symmetry. change (used_block s' c = used_block s c).
      rewrite (bt_used _ _ _ Hb) by lia. by rewrite (proj2 (Z.eqb_neq _ _) Hne).
  - rewrite Efi, Hfi. apply countZ_ext. intros n Hn. f_equal. symmetry.
    by apply (bt_used_inode _ _ _ Hb).
  - intros n Hn. destruct (Hf n Hn) as (-> & _). rewrite (bt_used_inode _ _ _ Hb) by done. by apply Hty.
  - destruct (Hf RAMFS_ROOT_INODE) as (-> & _); [done|]. by rewrite (bt_used_inode _ _ _ Hb).
  - intros n Hn. destruct (Hf n Hn) as (-> & -> & _). auto.
  - intros n i Hn. destruct (Hf n Hn) as (_ & _ & _ & Ebl).
    rewrite (bt_used_inode _ _ _ Hb) by done. intros Hu Hir. rewrite Ebl by done. intros Hne.
    destruct (Hown n i Hn Hu Hir Hne) as [Hr Hub]. split; [done|].
    rewrite (bt_used _ _ _ Hb) by (fs_consts; lia). by rewrite Hub, orb_true_r.
  - intros n i m j Hn Hm0. destruct (Hf n Hn) as (_ & _ & _ & En). destruct (Hf m Hm0) as (_ & _ & _ & Em).
    rewrite !(bt_used_inode _ _ _ Hb) by done. intros ?? Hir Hjr.
    rewrite En, Em by done. by apply Hinj.
Qed.

Lemma with_data_disk s d : same_disk s (with_data s d).
Proof. done. Qed.

Lemma same_disk_trans s1 s2 s3 : same_disk s1 s2 → same_disk s2 s3 → same_disk s1 s3.
Proof. intros (?&?&?&?) (?&?&?&?). split_and!; congruence. Qed.

Lemma same_disk_refl s : same_disk s s.
Proof. done. Qed.

#[local] Hint Resolve with_data_disk same_disk_refl : core.

Lemma bitmap_byte_range b : 0 <= b < RAMFS_MAX_BLOCKS → 0 <= b / 8 < 128.
Proof. fs_consts. intros. split; [apply Z.div_pos; lia|apply Z.div_lt_upper_bound; lia]. Qed.

Lemma inode_byte_range n : valid_inode n → 0 <= n / 8 < 32.
Proof.
  unfold valid_inode. fs_consts. intros. split; [apply Z.div_pos; lia|apply Z.div_lt_upper_bound; lia].
Qed.

(** Setting a block's bit, counting it, and clearing the block. *)
Lemma take_block_view s b (d1 := bitmap_set (rd_data s) SB_block_bitmap b)
    (d2 := store32 d1 SB_free_blocks (free_blocks d1 -32 1))
    (s' := with_data s (fill d2 (RAMFS_BLOCK_SIZE * b) 0 RAMFS_BLOCK_SIZE)) :
  fs_wf s → RAMFS_DATA_START_BLOCK <= b < rd_block_count s → used_block s b = false →
  0 < free_blocks (rd_data s) →
  block_taken s s' b ∧ mem_wf (rd_data s') ∧ free_inodes (rd_data s') = free_inodes (rd_data s).
Proof.
  intros Hwf Hb Hfree Hpos. pose proof (fw_bc s Hwf) as Hbc.
  pose proof (bitmap_byte_range b) as Hb8. pose proof (fw_mem s Hwf) as Hm.
  assert (Hd1 : ∀ x, x ≠ SB_block_bitmap + b / 8 → d1 x = rd_data s x)
    by (intros; by apply bitmap_set_other).
  assert (Hfb1 : free_blocks d1 = free_blocks (rd_data s)).
  { apply load_ext. intros x Hx. apply Hd1. fs_consts. lia. }
  assert (Hd2 : ∀ x, x < SB_free_blocks ∨ SB_free_blocks + 4 <= x → d2 x = d1 x)
    by (intros; by apply store_ne).
  assert (Hd3 : ∀ x, ¬ RAMFS_BLOCK_SIZE * b <= x < RAMFS_BLOCK_SIZE * b + RAMFS_BLOCK_SIZE →
            rd_data s' x = d2 x).
  { intros x Hx. simpl. unfold fill. by rewrite (proj2 (in_range_false _ _ _)) by lia. }
  pose proof (fs_free_blocks_range s Hm).
  split; [|split].
  - constructor.
    + done.
    + done.
    + intros c Hc. pose proof (bitmap_byte_range c Hc).
      unfold used_block. erewrite bitmap_test_ext; [by apply bitmap_test_set; fs_consts; lia|].
      rewrite Hd3, Hd2; [done|fs_consts; lia|fs_consts; lia].
    + intros x Hx. rewrite Hd3, Hd2, Hd1; [done| | |]; fs_consts; lia.
    + intros n Hn. pose proof (inode_byte_range n Hn). apply bitmap_test_ext.
      rewrite Hd3, Hd2, Hd1; [done| | |]; fs_consts; lia.
    + intros x Hx Hout. rewrite Hd3, Hd2, Hd1; [done| | |done]; fs_consts; lia.
    + intros j Hj. simpl. unfold fill. by rewrite (proj2 (in_range_true _ _ _)) by lia.
    + transitivity (free_blocks d2).
      { apply load_ext. intros x Hx. apply Hd3. fs_consts. lia. }
      unfold free_blocks at 1. unfold d2. rewrite load32_store32 by apply u32_range.
      rewrite Hfb1, u32_id by lia. done.
  - simpl. apply mem_wf_fill, mem_wf_store. by apply mem_wf_store.
  - apply load_ext. intros x Hx. rewrite Hd3, Hd2, Hd1; [done| | |]; fs_consts; lia.
Qed.

Lemma alloc_block_cases s :
  fs_wf s →
  match ramfs_alloc_block s with
  | (None, s') => s' = s ∧ free_blocks (rd_data s) = 0
  | (Some b, s') => fs_wf s' ∧ same_disk s s' ∧ block_taken s s' b
      ∧ ∀ c, RAMFS_DATA_START_BLOCK <= c < b → used_block s c = true
  end.
Proof.
  intros Hwf. unfold ramfs_alloc_block. rewrite (fw_mounted s Hwf). simpl.
  pose proof (fs_free_blocks_range s (fw_mem s Hwf)). pose proof (fw_bc s Hwf) as Hbc.
  destruct (Z.eqb_spec (free_blocks (rd_data s)) 0) as [E0|E0]; [done|].
  pose proof (find_first_spec RAMFS_DATA_START_BLOCK (rd_block_count s)
    (λ i, negb (bitmap_test (rd_data s) SB_block_bitmap i))) as Hf.
  destruct (find_first _ _ _) as [b|].
  - destruct Hf as (Hb & Hfree%negb_true_iff & Hlow).
    rewrite get_block_ptr_Some; [|exact (fw_init s Hwf)|fs_consts; lia|lia].
    destruct (take_block_view s b Hwf Hb Hfree) as (Hbt & Hm & Hfi); [lia|].
    split_and!; [by apply (fs_wf_block_taken s _ b)|done|done|].
    intros c Hc. apply negb_false_iff. by apply Hlow.
  - split; [done|]. rewrite (fw_fb s Hwf). apply countZ_all_false. intros i Hi.
    destruct (decide (i < RAMFS_DATA_START_BLOCK)).
    + apply negb_false_iff. apply (fw_sys s Hwf). lia.
    + apply Hf. lia.
Qed.

(** Giving an unowned block to slot [i] of inode [n]. *)
Lemma fs_wf_set_block s s' n i b :
  fs_wf s → same_disk s s' → mem_wf (rd_data s') →
  valid_inode n → used_inode s n = true → 0 <= i < RAMFS_DIRECT_BLOCKS →
  changed (rd_data s) (rd_data s') (inode_at n + IN_block_count) 52 →
  RAMFS_DATA_START_BLOCK <= b < rd_block_count s → used_block s b = true →
  (∀ m j, valid_inode m → used_inode s m = true → 0 <= j < RAMFS_DIRECT_BLOCKS → iblock s m j ≠ b) →
  (∀ j, 0 <= j < RAMFS_DIRECT_BLOCKS → iblock s' n j = if decide (j = i) then b else iblock s n j) →
  fs_wf s'.
Proof.
  intros Hwf (E1 & E2 & E3 & E4) Hm Hn Hu Hi Hch Hb Hub Hunown Hbl.
  pose proof (inode_at_range n Hn). assert (IN_block_count = 52) as Ebc by done.
  assert (Ebm : ∀ m j, valid_inode m → 0 <= j < RAMFS_DIRECT_BLOCKS →
    iblock s' m j = if decide (m = n ∧ j = i) then b else iblock s m j).
  { intros m j Hm0 Hj. destruct (decide (m = n)) as [->|Hne].
    - rewrite Hbl by done. destruct (decide (j = i)), (decide _); naive_solver.
    - destruct (decide _) as [[??]|]; [done|].
      apply (inode_frame _ _ _ _ Hch m); [|done]. destruct (inode_at_disjoint n m); auto; lia. }
  assert (Ety : ∀ m, valid_inode m → ityp s' m = ityp s m ∧ isize s' m = isize s m).
  { intros m Hm0. destruct (decide (m = n)) as [->|Hne].
    - split; [eapply ityp_field|eapply isize_field]; try exact Hch; lia.
    - destruct (inode_frame _ _ _ _ Hch m) as (? & ? & _); [|done].
      destruct (inode_at_disjoint n m); auto; lia. }
  destruct (counts_frame _ _ _ _ Hch) as [Efb Efi]; [lia|].
  assert (Eub : ∀ c, 0 <= c < RAMFS_MAX_BLOCKS → used_block s' c = used_block s c)
    by (intros; apply (used_block_frame _ _ _ _ Hch); lia).
  assert (Eui : ∀ m, valid_inode m → used_inode s' m = used_inode s m)
    by (intros; apply (used_inode_frame _ _ _ _ Hch); [lia|done]).
  assert (valid_inode RAMFS_ROOT_INODE) by (unfold valid_inode; fs_consts; lia).
  destruct Hwf as [_ Hin Hmt Hbc Htk Hsys Hfb Hfi Hty Hroot Hsz Hown Hinj].
  constructor; rewrite ?E1, ?E2, ?E3, ?E4; try done.
  - intros c Hc. rewrite Eub by (fs_consts; lia). auto.
  - rewrite Efb, Hfb. apply countZ_ext. intros c Hc. f_equal. symmetry. apply Eub. lia.
  - rewrite Efi, Hfi. apply countZ_ext. intros c Hc. f_equal. symmetry. by apply Eui.
  - intros m Hm0. rewrite Eui by done. destruct (Ety m Hm0) as [-> _]. by apply Hty.
  - rewrite Eui by done. by destruct (Ety RAMFS_ROOT_INODE) as [-> _].
  - intros m Hm0. destruct (Ety m Hm0) as [-> ->]. auto.
  - intros m j Hm0. rewrite Eui by done. intros Hu' Hj. rewrite Ebm by done.
    destruct (decide _); intros Hnz.
    + rewrite Eub by (fs_consts; lia). done.
    + destruct (Hown m j Hm0 Hu' Hj Hnz). rewrite Eub by (fs_consts; lia). done.
  - intros m1 j1 m2 j2 Hm1 Hm2. rewrite !Eui by done. intros Hu1 Hu2 Hj1 Hj2. rewrite !Ebm by done.
    destruct (decide (m1 = n ∧ j1 = i)) as [[-> ->]|], (decide (m2 = n ∧ j2 = i)) as [[-> ->]|];
      [done| | |by apply Hinj]; intros Hnz Heq; exfalso.
    + by apply (Hunown m2 j2).
    + by apply (Hunown m1 j1).
Qed.

(** What making a block present does to the rest of the filesystem. *)
Record block_ready (n i : Z) (s s' : ramfs) : Prop := BlockReady {
  br_wf : fs_wf s';
  br_disk : same_disk s s';
  br_used : ∀ m, valid_inode m → used_inode s' m = used_inode s m;
  br_type : ityp s' n = ityp s n;
  br_size : isize s' n = isize s n;
  br_parent : iparent s' n = iparent s n;
  br_block : iblock s' n i ≠ 0;
  br_blocks : ∀ j, 0 <= j < RAMFS_DIRECT_BLOCKS → iblock s n j ≠ 0 → iblock s' n j = iblock s n j;
  br_bytes : ∀ o, 0 <= o < MAX_FILE_SIZE → file_byte s' n o = file_byte s n o;
  br_others : others_kept n s s'
}.

Lemma others_kept_refl n s : others_kept n s s.
Proof. intros m ???. done. Qed.

Lemma others_kept_trans n s1 s2 s3 :
  others_kept n s1 s2 → others_kept n s2 s3 → others_kept n s1 s3.
Proof.
  intros H1 H2 m Hm Hne Hu. destruct (H1 m Hm Hne Hu) as (Hu2 & A1 & B1 & C1 & D1 & F1).
  destruct (H2 m Hm Hne Hu2) as (Hu3 & A2 & B2 & C2 & D2 & F2).
  split_and!; [done|congruence|congruence|congruence| |].
  - intros i Hi. rewrite D2, D1; done.
  - intros o Ho. rewrite F2, F1; done.
Qed.

(** A fresh block is not in any block list. *)
Lemma block_taken_unowned s s' b m j :
  fs_wf s → block_taken s s' b → valid_inode m → used_inode s' m = true →
  0 <= j < RAMFS_DIRECT_BLOCKS → iblock s' m j ≠ b.
Proof.
  intros Hwf Hb Hm Hu Hj. rewrite (bt_used_inode _ _ _ Hb) in Hu by done.
  destruct (block_taken_fields _ _ _ m Hb Hm) as (_ & _ & _ & ->); [|done]. intros E.
  pose proof (bt_range _ _ _ Hb). destruct (fw_own s Hwf m j Hm Hu Hj) as [_ Ht]; [fs_consts; lia|].
  rewrite E, (bt_was_free _ _ _ Hb) in Ht. done.
Qed.

Lemma block_taken_bytes s s' b m o :
  fs_wf s → block_taken s s' b → valid_inode m → used_inode s m = true →
  0 <= o < MAX_FILE_SIZE → file_byte s' m o = file_byte s m o.
Proof.
  intros Hwf Hb Hm Hu Ho%block_index_range.
  destruct (block_taken_fields _ _ _ m Hb Hm) as (_ & _ & _ & Ebl).
  apply file_byte_frame; [by apply Ebl|]. intros Hnz j Hj. simpl.
  pose proof (owned_range s m _ Hwf Hm Hu Ho Hnz).
  pose proof (block_taken_unowned s s' b m (o / RAMFS_BLOCK_SIZE) Hwf Hb Hm) as Hne.
  rewrite (bt_used_inode _ _ _ Hb), Ebl in Hne by done. specialize (Hne Hu Ho).
  apply (bt_data _ _ _ Hb); fs_consts; lia.
Qed.

Lemma block_taken_kept s s' b n : fs_wf s → block_taken s s' b → others_kept n s s'.
Proof.
  intros Hwf Hb m Hm Hne Hu. destruct (block_taken_fields _ _ _ m Hb Hm) as (? & ? & ? & ?).
  rewrite (bt_used_inode _ _ _ Hb) by done. split_and!; try done.
  intros o Ho. by apply (block_taken_bytes s s' b).
Qed.

Lemma block_ready_refl s n i : fs_wf s → iblock s n i ≠ 0 → block_ready n i s s.
Proof. intros Hwf Hnz. by constructor. Qed.

Lemma store_block_slot d n i b v :
  0 <= i < RAMFS_DIRECT_BLOCKS →
  let d' := store32 (store32 d (inode_at n + IN_blocks + 4 * i) b) (inode_at n + IN_block_count) v in
  changed d d' (inode_at n + IN_block_count) 52
  ∧ (is_u32 b → ∀ j, 0 <= j < RAMFS_DIRECT_BLOCKS →
       inode_block d' (inode_at n) j = if decide (j = i) then b else inode_block d (inode_at n) j).
Proof.
  intros Hi d'. unfold d'. split.
  - eapply changed_trans; apply (changed_store 4); fs_consts; lia.
  - intros Hb j Hj. unfold inode_block. rewrite load_store_ne by (fs_consts; lia).
    destruct (decide (j = i)) as [->|]; [by rewrite load32_store32|].
    rewrite load_store_ne by (fs_consts; lia). done.
Qed.

(** A hole filled with a zeroed block reads as before. *)
Lemma slot_bytes s s' n i b o :
  fs_wf s → valid_inode n → used_inode s n = true → 0 <= i < RAMFS_DIRECT_BLOCKS →
  iblock s n i = 0 → RAMFS_DATA_START_BLOCK <= b →
  (∀ j, 0 <= j < RAMFS_BLOCK_SIZE → rd_data s (RAMFS_BLOCK_SIZE * b + j) = 0) →
  changed (rd_data s) (rd_data s') (inode_at n) 116 →
  (∀ j, 0 <= j < RAMFS_DIRECT_BLOCKS → iblock s' n j = if decide (j = i) then b else iblock s n j) →
  0 <= o < MAX_FILE_SIZE → file_byte s' n o = file_byte s n o.
Proof.
  intros Hwf Hn Hu Hi E0 Hb Hz Hch Hbl Ho. pose proof (block_index_range o Ho) as Hor.
  pose proof (inode_at_range n Hn).
  pose proof (Z.mod_pos_bound o RAMFS_BLOCK_SIZE ltac:(fs_consts; lia)).
  unfold file_byte. rewrite Hbl by done.
  destruct (decide (o / RAMFS_BLOCK_SIZE = i)) as [->|].
  - rewrite E0, (proj2 (Z.eqb_neq b 0)) by (fs_consts; lia). simpl.
    rewrite Hch by (fs_consts; lia). by apply Hz.
  - destruct (Z.eqb_spec (iblock s n (o / RAMFS_BLOCK_SIZE)) 0) as [|Hnz]; [done|].
    pose proof (owned_range s n _ Hwf Hn Hu Hor Hnz). apply Hch. fs_consts. lia.
Qed.

Lemma ensure_block_cases s n i :
  fs_wf s → valid_inode n → used_inode s n = true → 0 <= i < RAMFS_DIRECT_BLOCKS →
  match ensure_block s (inode_at n) i with
  | (false, s') => s' = s ∧ free_blocks (rd_data s) = 0
  | (true, s') => block_ready n i s s'
  end.
Proof.
  intros Hwf Hn Hu Hi. unfold ensure_block. change (inode_block (rd_data s) (inode_at n) i) with (iblock s n i).
  destruct (Z.eqb_spec (iblock s n i) 0) as [E0|E0]; [|by apply block_ready_refl].
  pose proof (alloc_block_cases s Hwf) as Ha.
  destruct (ramfs_alloc_block s) as [[b|] s1]; [|done].
  destruct Ha as (Hwf1 & Hd & Hb & _).
  pose proof (bt_range _ _ _ Hb) as Hbr. pose proof (fw_bc s Hwf) as Hbc.
  assert (Hdc : rd_block_count s1 = rd_block_count s) by apply Hd.
  assert (Hu1 : used_inode s1 n = true) by (by rewrite (bt_used_inode _ _ _ Hb)).
  set (v := inode_block_count _ _ +32 1).
  destruct (store_block_slot (rd_data s1) n i b v Hi) as [Hch Hbl].
  specialize (Hbl ltac:(unfold is_u32; fs_consts; lia)).
  set (d' := store32 (store32 _ _ b) _ v) in *. set (s' := with_data s1 d').
  change (changed (rd_data s1) (rd_data s') (inode_at n + IN_block_count) 52) in Hch.
  assert (Hch' : changed (rd_data s1) (rd_data s') (inode_at n) 116)
    by (apply (changed_weaken _ _ _ _ _ _ Hch); fs_consts; lia).
  destruct (block_taken_fields _ _ _ n Hb Hn) as (Et & Es & Ep & Eb).
  pose proof (inode_at_range n Hn). assert (IN_block_count = 52) as Ebc by done.
  assert (Hoth1 : others_kept n s1 s') by (by apply inode_change_kept).
  constructor.
  - apply (fs_wf_set_block s1 s' n i b); try done.
    + apply mem_wf_store, mem_wf_store, (fw_mem s1 Hwf1).
    + lia.
    + rewrite (bt_used _ _ _ Hb) by (fs_consts; lia). by rewrite Z.eqb_refl.
    + intros m j Hm Hum Hj. by apply (block_taken_unowned s s1 b).
  - done.
  - intros m Hm. rewrite (used_inode_frame _ _ _ _ Hch) by (done || lia).
    by apply (bt_used_inode _ _ _ Hb).
  - rewrite (ityp_field _ _ _ _ _ Hch) by lia. done.
  - rewrite (isize_field _ _ _ _ _ Hch) by lia. done.
  - rewrite (iparent_field _ _ _ _ _ Hch) by lia. done.
  - change (inode_block d' (inode_at n) i ≠ 0). rewrite Hbl by done.
    rewrite decide_True by done. fs_consts. lia.
  - intros j Hj Hnz. change (inode_block d' (inode_at n) j = iblock s n j). rewrite Hbl by done.
    rewrite decide_False by (intros ->; done). by apply Eb.
  - intros o Ho. rewrite <- (block_taken_bytes s s1 b n o Hwf Hb Hn Hu Ho).
    apply (slot_bytes s1 s' n i b); try done.
    + rewrite Eb by done. done.
    + fs_consts. lia.
    + exact (bt_zero _ _ _ Hb).
  - eapply others_kept_trans; [by eapply block_taken_kept|done].
Qed.

(** Changing bytes inside block [i] of inode [n]. *)
Section block_write.
Context (s : ramfs) (d' : mem) (n i bo len : Z).
Hypothesis Hwf : fs_wf s.
Hypothesis Hn : valid_inode n.
Hypothesis Hu : used_inode s n = true.
Hypothesis Hi : 0 <= i < RAMFS_DIRECT_BLOCKS.
Hypothesis Hnz : iblock s n i ≠ 0.
Hypothesis Hbo : 0 <= bo.
Hypothesis Hlen : bo + len <= RAMFS_BLOCK_SIZE.
Hypothesis Hch : changed (rd_data s) d' (RAMFS_BLOCK_SIZE * iblock s n i + bo) len.
Hypothesis Hmem : mem_wf d'.

Let s' := with_data s d'.

Lemma block_write_area : 36864 <= RAMFS_BLOCK_SIZE * iblock s n i + bo.
Proof. pose proof (owned_range s n i Hwf Hn Hu Hi Hnz). fs_consts. lia. Qed.

Lemma block_write_fields m :
  valid_inode m →
  used_inode s' m = used_inode s m ∧ ityp s' m = ityp s m ∧ isize s' m = isize s m
  ∧ iparent s' m = iparent s m
  ∧ ∀ j, 0 <= j < RAMFS_DIRECT_BLOCKS → iblock s' m j = iblock s m j.
Proof.
  intros Hm. pose proof block_write_area as Ha. pose proof (inode_at_range m Hm).
  split; [by apply (used_inode_frame s s' _ _ Hch); [lia|]|].
  apply (inode_frame s s' _ _ Hch). lia.
Qed.

Lemma block_write_wf : fs_wf s'.
Proof.
  pose proof block_write_area as Ha.
  destruct (counts_frame s s' _ _ Hch) as [Efb Efi]; [lia|].
  apply (fs_wf_kept s); try done.
  - intros b Hb. by apply (used_block_frame s s' _ _ Hch); [lia|].
  - intros m Hm. by apply block_write_fields.
  - intros m Hm. by apply block_write_fields.
  - intros m Hm Ht. destruct (block_write_fields m Hm) as (_ & _ & -> & _). by apply (fw_size s Hwf).
  - intros m j Hm. by apply block_write_fields.
Qed.

(** A different block slot, of this or another inode, keeps its bytes. *)
Lemma block_write_other_slot m o :
  valid_inode m → used_inode s m = true → 0 <= o < MAX_FILE_SIZE →
  m ≠ n ∨ o / RAMFS_BLOCK_SIZE ≠ i → file_byte s' m o = file_byte s m o.
Proof.
  intros Hm Hum Ho%block_index_range Hne.
  destruct (block_write_fields m Hm) as (_ & _ & _ & _ & Ebl).
  apply file_byte_frame; [by apply Ebl|]. intros Hnz' j Hj. simpl.
  destruct (decide (iblock s m (o / RAMFS_BLOCK_SIZE) = iblock s n i)) as [E|E].
  - destruct (fw_inj s Hwf m (o / RAMFS_BLOCK_SIZE) n i) as [? ?]; try done. naive_solver.
  - apply Hch. fs_consts. lia.
Qed.

Lemma block_write_others : others_kept n s s'.
Proof.
  intros m Hm Hne Hum. destruct (block_write_fields m Hm) as (-> & -> & -> & -> & ?).
  split_and!; try done. intros o Ho. apply block_write_other_slot; auto.
Qed.

(** The bytes of block [i] are those of the disk block, the others are kept. *)
Lemma block_write_bytes o :
  0 <= o < MAX_FILE_SIZE →
  file_byte s' n o =
    (if decide (o / RAMFS_BLOCK_SIZE = i)
     then d' (RAMFS_BLOCK_SIZE * iblock s n i + (o - RAMFS_BLOCK_SIZE * i)) else file_byte s n o).
Proof.
  intros Ho. destruct (decide (o / RAMFS_BLOCK_SIZE = i)) as [Ei|Ei].
  - pose proof (Z.div_mod o RAMFS_BLOCK_SIZE ltac:(done)) as Hdm. rewrite Ei in Hdm.
    unfold file_byte. destruct (block_write_fields n Hn) as (_ & _ & _ & _ & Ebl).
    rewrite Ei, Ebl, (proj2 (Z.eqb_neq _ _) Hnz) by done. simpl. f_equal. lia.
  - apply block_write_other_slot; auto.
Qed.

End block_write.

(** Writing a list of bytes into block [i] of inode [n]. *)
Lemma data_write_bytes s n i bo chunk o
    (d' := write_bytes (rd_data s) (RAMFS_BLOCK_SIZE * iblock s n i + bo) chunk) :
  fs_wf s → valid_inode n → used_inode s n = true → 0 <= i < RAMFS_DIRECT_BLOCKS →
  iblock s n i ≠ 0 → 0 <= bo → bo + zlen chunk <= RAMFS_BLOCK_SIZE →
  changed (rd_data s) d' (RAMFS_BLOCK_SIZE * iblock s n i + bo) (zlen chunk) →
  0 <= o < MAX_FILE_SIZE →
  file_byte (with_data s d') n o =
    (if decide (RAMFS_BLOCK_SIZE * i + bo <= o < RAMFS_BLOCK_SIZE * i + bo + zlen chunk)
     then nth (Z.to_nat (o - (RAMFS_BLOCK_SIZE * i + bo))) chunk 0 else file_byte s n o).
Proof.
  intros Hwf Hn Hu Hi Hnz Hbo Hlen Hch Ho. pose proof (Z.div_mod o RAMFS_BLOCK_SIZE ltac:(done)) as Hdm.
  pose proof (Z.mod_pos_bound o RAMFS_BLOCK_SIZE ltac:(fs_consts; lia)) as Hmr.
  rewrite (block_write_bytes s d' n i bo (zlen chunk)) by done.
  destruct (decide (o / RAMFS_BLOCK_SIZE = i)) as [Ei|Ei].
  - rewrite Ei in Hdm. unfold d', write_bytes, zlen. destruct (decide (_ <= o < _)) as [Hin|Hout].
    + rewrite (proj2 (in_range_true _ _ _)) by lia. do 2 f_equal. lia.
    + rewrite (proj2 (in_range_false _ _ _)) by lia. unfold file_byte.
      rewrite Ei, (proj2 (Z.eqb_neq _ _) Hnz). f_equal. lia.
  - rewrite decide_False; [done|]. unfold zlen in *. fs_consts. intros ?. apply Ei. symmetry.
    apply (Z.div_unique_pos o 4096 i (o - 4096 * i)); lia.
Qed.

(** ** Writing *)

(** The filesystem after [w] bytes of [buf] have reached file [n] at [offset]. *)
Record written (s0 s : ramfs) (n : Z) (buf : list Z) (offset w : Z) : Prop := Written {
  wr_wf : fs_wf s;
  wr_disk : same_disk s0 s;
  wr_used : ∀ m, valid_inode m → used_inode s m = used_inode s0 m;
  wr_type : ityp s n = ityp s0 n;
  wr_size : isize s n = isize s0 n;
  wr_parent : iparent s n = iparent s0 n;
  wr_bytes : ∀ o, 0 <= o < MAX_FILE_SIZE →
    file_byte s n o = if decide (offset <= o < offset + w)
                      then nth (Z.to_nat (o - offset)) buf 0 else file_byte s0 n o;
  wr_others : others_kept n s0 s
}.

Lemma written_start s n buf offset : fs_wf s → written s s n buf offset 0.
Proof. intros Hwf. constructor; try done. intros o Ho. by rewrite decide_False by lia. Qed.

Lemma nth_chunk (buf : list Z) (w len k : nat) :
  (k < len)%nat → nth k (take len (drop w buf)) 0 = nth (w + k) buf 0.
Proof.
  intros Hk. destruct (decide (w + k < length buf)%nat) as [Hlt|].
  - destruct (lookup_lt_is_Some_2 buf (w + k)) as [v Hv]; [done|].
    rewrite (nth_lookup_Some _ _ _ _ Hv). apply nth_lookup_Some.
    rewrite lookup_take_lt, lookup_drop by done. done.
  - rewrite !nth_overflow; [done|lia|]. rewrite length_take, length_drop. lia.
Qed.

Lemma written_chunk s0 s1 s2 n buf offset w k :
  fs_wf s0 → valid_inode n → used_inode s0 n = true →
  0 <= offset → 0 <= w → 0 < k → offset + w + k <= MAX_FILE_SIZE → w + k <= zlen buf →
  (offset + w) mod RAMFS_BLOCK_SIZE + k <= RAMFS_BLOCK_SIZE →
  Forall (λ b, 0 <= b < 256) buf →
  written s0 s1 n buf offset w → block_ready n ((offset + w) / RAMFS_BLOCK_SIZE) s1 s2 →
  written s0 (with_data s2 (write_bytes (rd_data s2)
     (RAMFS_BLOCK_SIZE * iblock s2 n ((offset + w) / RAMFS_BLOCK_SIZE)
      + (offset + w) mod RAMFS_BLOCK_SIZE)
     (take (Z.to_nat k) (drop (Z.to_nat w) buf)))) n buf offset (w + k).
Proof.
  intros Hwf0 Hn Hu0 Hoff Hw Hk Hmax Hbuf Hblk Hbytes Hwr Hbr.
  set (i := (offset + w) / RAMFS_BLOCK_SIZE) in *. set (bo := (offset + w) mod RAMFS_BLOCK_SIZE) in *.
  set (chunk := take _ _).
  assert (Hcl : zlen chunk = k).
  { unfold zlen, chunk in *. rewrite length_take, length_drop. lia. }
  assert (Hcb : Forall (λ b, 0 <= b < 256) chunk) by (by apply Forall_take, Forall_drop).
  assert (Hu2 : used_inode s2 n = true).
  { rewrite (br_used _ _ _ _ Hbr) by done. by rewrite (wr_used _ _ _ _ _ _ Hwr). }
  assert (Hi : 0 <= i < RAMFS_DIRECT_BLOCKS) by (apply block_index_range; lia).
  assert (Hbo : 0 <= bo) by (apply Z.mod_pos_bound; fs_consts; lia).
  assert (Hio : RAMFS_BLOCK_SIZE * i + bo = offset + w) by (symmetry; by apply Z.div_mod).
  pose proof (br_wf _ _ _ _ Hbr) as Hwf2. pose proof (br_block _ _ _ _ Hbr) as Hnz.
  assert (Hlen : bo + zlen chunk <= RAMFS_BLOCK_SIZE) by lia.
  set (d' := write_bytes (rd_data s2) _ chunk).
  assert (Hch : changed (rd_data s2) d' (RAMFS_BLOCK_SIZE * iblock s2 n i + bo) (zlen chunk))
    by (apply changed_write_bytes; lia).
  pose proof (block_write_fields s2 d' n i bo _ Hwf2 Hn Hu2 Hi Hnz Hbo Hch) as Hbf.
  destruct (Hbf n Hn) as (_ & Et & Ez & Ep & _).
  constructor.
  - apply (block_write_wf s2 d' n i bo (zlen chunk)); try done.
    apply mem_wf_write_bytes; [exact (fw_mem s2 Hwf2)|done].
  - eapply same_disk_trans; [exact (wr_disk _ _ _ _ _ _ Hwr)|].
    eapply same_disk_trans; [exact (br_disk _ _ _ _ Hbr)|done].
  - intros m Hm. destruct (Hbf m Hm) as (-> & _).
    rewrite (br_used _ _ _ _ Hbr) by done. by apply (wr_used _ _ _ _ _ _ Hwr).
  - rewrite Et, (br_type _ _ _ _ Hbr). exact (wr_type _ _ _ _ _ _ Hwr).
  - rewrite Ez, (br_size _ _ _ _ Hbr). exact (wr_size _ _ _ _ _ _ Hwr).
  - rewrite Ep, (br_parent _ _ _ _ Hbr). exact (wr_parent _ _ _ _ _ _ Hwr).
  - intros o Ho. unfold d'. rewrite (data_write_bytes s2 n i bo chunk) by done. rewrite Hio, Hcl.
    rewrite (br_bytes _ _ _ _ Hbr), (wr_bytes _ _ _ _ _ _ Hwr) by done.
    destruct (decide (offset + w <= o < offset + w + k)).
    + rewrite decide_True by lia. unfold chunk. rewrite nth_chunk by lia. f_equal. lia.
    + destruct (decide (offset <= o < offset + w));
        [rewrite decide_True by lia|rewrite decide_False by lia]; done.
  - eapply others_kept_trans; [exact (wr_others _ _ _ _ _ _ Hwr)|].
    eapply others_kept_trans; [exact (br_others _ _ _ _ Hbr)|].
    by apply (block_write_others s2 d' n i bo (zlen chunk)).
Qed.

Lemma get_owned_block s n i :
  fs_wf s → valid_inode n → used_inode s n = true → 0 <= i < RAMFS_DIRECT_BLOCKS → iblock s n i ≠ 0 →
  ramfs_get_block s (inode_block (rd_data s) (inode_at n) i) = Some (RAMFS_BLOCK_SIZE * iblock s n i).
Proof.
  intros Hwf Hn Hu Hi Hnz. pose proof (owned_range s n i Hwf Hn Hu Hi Hnz).
  pose proof (fw_bc s Hwf). apply get_block_ptr_Some; [exact (fw_init s Hwf)|fs_consts; lia|lia].
Qed.

(** The position of byte [p] of a file: block index and offset in it. *)
Lemma file_position p :
  0 <= p < MAX_FILE_SIZE →
  u32 (p / RAMFS_BLOCK_SIZE) = p / RAMFS_BLOCK_SIZE ∧ u32 (p mod RAMFS_BLOCK_SIZE) = p mod RAMFS_BLOCK_SIZE
  ∧ 0 <= p / RAMFS_BLOCK_SIZE < RAMFS_DIRECT_BLOCKS ∧ 0 <= p mod RAMFS_BLOCK_SIZE < RAMFS_BLOCK_SIZE.
Proof.
  intros Hp. pose proof (block_index_range p Hp).
  pose proof (Z.mod_pos_bound p RAMFS_BLOCK_SIZE ltac:(fs_consts; lia)).
  split_and!; try apply u32_id; fs_consts; lia.
Qed.

Section write_loop.
Context (s0 : ramfs) (n : Z) (buf : list Z) (offset count : Z).
Hypothesis Hwf0 : fs_wf s0.
Hypothesis Hn : valid_inode n.
Hypothesis Hu0 : used_inode s0 n = true.
Hypothesis Hoff : 0 <= offset.
Hypothesis Hcount : 0 <= count <= zlen buf.
Hypothesis Hmax : offset + count <= MAX_FILE_SIZE.
Hypothesis Hbytes : Forall (λ b, 0 <= b < 256) buf.

Lemma write_step_cases s w :
  0 <= w <= count → written s0 s n buf offset w →
  match write_step (inode_at n) buf count offset (s, w) with
  | Next (s', w') => written s0 s' n buf offset w' ∧ w < w' <= count
  | Stop (s', w') => written s0 s' n buf offset w' ∧ 0 <= w' <= count
      ∧ (w' = count ∨ free_blocks (rd_data s') = 0)
  end.
Proof.
  intros Hw Hwr. unfold write_step. destruct (Z.ltb_spec w count) as [Hlt|Hge].
  2:{ split_and!; [done|lia|lia|left; lia]. }
  rewrite (u64_id (offset + w)) by (fs_consts; lia).
  destruct (file_position (offset + w)) as (-> & -> & Hi & Hbo); [lia|].
  rewrite (proj2 (Z.leb_gt _ _)) by lia.
  assert (Hu : used_inode s n = true) by (by rewrite (wr_used _ _ _ _ _ _ Hwr)).
  pose proof (ensure_block_cases s n _ (wr_wf _ _ _ _ _ _ Hwr) Hn Hu Hi) as He.
  destruct (ensure_block _ _ _) as [[] s2].
  - cbn [negb].
    assert (used_inode s2 n = true) as Hu2 by (by rewrite (br_used _ _ _ _ He)).
    rewrite get_owned_block; [|exact (br_wf _ _ _ _ He)|done|done|done|exact (br_block _ _ _ _ He)].
    rewrite (u64_id (count - w)) by (fs_consts; lia).
    set (k := Z.min _ _). assert (Hk : 0 < k ∧ w + k <= count ∧
      (offset + w) mod RAMFS_BLOCK_SIZE + k <= RAMFS_BLOCK_SIZE) by lia.
    rewrite (u64_id (w + k)) by (fs_consts; lia).
    split; [|lia]. eapply (written_chunk s0 s s2); try done; lia.
  - destruct He as [-> E0]. cbn [negb]. split_and!; [done|lia|lia|by right].
Qed.

Lemma write_loop_total :
  ∃ s w, loop (write_step (inode_at n) buf count offset) (s0, 0) = Some (s, w)
    ∧ written s0 s n buf offset w ∧ 0 <= w <= count
    ∧ (w = count ∨ free_blocks (rd_data s) = 0).
Proof.
  destruct (loop_total (write_step (inode_at n) buf count offset)
    (λ st, written s0 st.1 n buf offset st.2 ∧ 0 <= st.2 <= count)
    (λ st, written s0 st.1 n buf offset st.2 ∧ 0 <= st.2 <= count
           ∧ (st.2 = count ∨ free_blocks (rd_data st.1) = 0))
    (λ st, count - st.2) (s0, 0)) as ([s w] & E & H).
  - split; [by apply written_start|simpl; lia].
  - simpl. unfold WHILE_FUEL. fs_consts. lia.
  - intros [s w] [Hwr Hw]. pose proof (write_step_cases s w Hw Hwr) as H.
    destruct (write_step _ _ _ _ _) as [[s' w']|[s' w']]; simpl in *; [|done].
    destruct H as [? ?]. split_and!; [done|lia|lia|lia|lia].
  - by exists s, w.
Qed.

End write_loop.

Lemma used_of_type s n :
  fs_wf s → valid_inode n → ityp s n ≠ INODE_TYPE_FREE → used_inode s n = true.
Proof.
  intros Hwf Hn Ht. pose proof (fw_type s Hwf n Hn). by destruct (used_inode s n).
Qed.

Lemma isize_range s n : fs_wf s → is_u64 (isize s n).
Proof. intros Hwf. apply (load_range 8). exact (fw_mem s Hwf). Qed.

(** A change of size and times, the last step of a write or a truncation. *)
Lemma resize_kept s s' n sz :
  fs_wf s → valid_inode n → used_inode s n = true →
  same_disk s s' → mem_wf (rd_data s') →
  changed (rd_data s) (rd_data s') (inode_at n + IN_size) 32 →
  isize s' n = sz → sz <= MAX_FILE_SIZE →
  fs_wf s' ∧ ityp s' n = ityp s n ∧ iparent s' n = iparent s n
  ∧ (∀ m, valid_inode m → used_inode s' m = used_inode s m)
  ∧ (∀ o, 0 <= o < MAX_FILE_SIZE → file_byte s' n o = file_byte s n o) ∧ others_kept n s s'.
Proof.
  intros Hwf Hn Hu Hd Hm Hch Hsz Hle. pose proof (inode_at_range n Hn).
  assert (IN_size = 16) as E16 by done.
  assert (Hch' : changed (rd_data s) (rd_data s') (inode_at n) 116)
    by (apply (changed_weaken _ _ _ _ _ _ Hch); lia).
  assert (Hbl : ∀ i, 0 <= i < RAMFS_DIRECT_BLOCKS → iblock s' n i = iblock s n i)
    by (intros; apply (iblock_field _ _ _ _ _ Hch); [lia|done]).
  split_and!.
  - apply (inode_change_wf s s' n); try done.
    + apply (ityp_field _ _ _ _ _ Hch). lia.
    + by rewrite Hsz.
  - apply (ityp_field _ _ _ _ _ Hch). lia.
  - apply (iparent_field _ _ _ _ _ Hch). lia.
  - intros m Hm0. apply (used_inode_frame _ _ _ _ Hch'); [lia|done].
  - intros o Ho. by apply inode_change_bytes.
  - by apply inode_change_kept.
Qed.

Definition finish_write (s : ramfs) (ip p : Z) : ramfs :=
  let d := rd_data s in
  let d := if inode_size d ip <? p then store64 d (ip + IN_size) p else d in
  let d := store64 d (ip + IN_modified) (fs_ticks s) in
  with_data s (store64 d (ip + IN_accessed) (fs_ticks s)).

Lemma finish_write_kept s n p (s' := finish_write s (inode_at n) p) :
  fs_wf s → valid_inode n → ityp s n = INODE_TYPE_FILE → 0 <= p <= MAX_FILE_SIZE →
  isize s' n = Z.max (isize s n) p ∧ free_blocks (rd_data s') = free_blocks (rd_data s)
  ∧ fs_wf s' ∧ ityp s' n = ityp s n ∧ iparent s' n = iparent s n
  ∧ (∀ m, valid_inode m → used_inode s' m = used_inode s m)
  ∧ (∀ o, 0 <= o < MAX_FILE_SIZE → file_byte s' n o = file_byte s n o) ∧ others_kept n s s'.
Proof.
  intros Hwf Hn Ht Hp. pose proof (isize_range s n Hwf) as Hsr. pose proof (fw_mem s Hwf) as Hm.
  assert (Hu : used_inode s n = true) by (by apply used_of_type; [..|rewrite Ht]).
  unfold s', finish_write. change (inode_size (rd_data s) (inode_at n)) with (isize s n).
  set (d1 := if isize s n <? p then _ else _).
  assert (Hd1 : inode_size d1 (inode_at n) = Z.max (isize s n) p
          ∧ changed (rd_data s) d1 (inode_at n + IN_size) 32 ∧ mem_wf d1).
  { unfold d1. destruct (Z.ltb_spec (isize s n) p).
    - split_and!; [|apply (changed_store 8); fs_consts; lia|by apply mem_wf_store].
      unfold inode_size. rewrite load64_store64 by (unfold is_u64; fs_consts; lia). lia.
    - split_and!; [|done|done]. change (isize s n = Z.max (isize s n) p). lia. }
  destruct Hd1 as (Hsz & Hch1 & Hm1). cbv zeta. set (s2 := with_data s _).
  assert (Hch : changed (rd_data s) (rd_data s2) (inode_at n + IN_size) 32).
  { eapply changed_trans; [exact Hch1|].
    eapply changed_trans; apply (changed_store 8); fs_consts; lia. }
  assert (Hsz2 : isize s2 n = Z.max (isize s n) p).
  { unfold isize at 1. simpl. unfold inode_size in *. rewrite !load_store_ne by (fs_consts; lia). done. }
  split; [done|]. split.
  - pose proof (inode_at_range n Hn). apply (counts_frame _ _ _ _ Hch). fs_consts. lia.
  - apply (resize_kept s s2 n (Z.max (isize s n) p)); try done.
    + by apply mem_wf_store, mem_wf_store.
    + pose proof (fw_size s Hwf n Hn Ht). lia.
Qed.

Lemma ramfs_write_cases s n buf offset :
  fs_wf s → valid_inode n → ityp s n = INODE_TYPE_FILE →
  0 <= offset <= MAX_FILE_SIZE → zlen buf < 2 ^ 63 → Forall (λ b, 0 <= b < 256) buf →
  ∃ w s', ramfs_write s (Some (inode_at n)) buf offset = Some (Some w, s')
    ∧ fs_wf s' ∧ ityp s' n = INODE_TYPE_FILE
    ∧ (∀ m, valid_inode m → used_inode s' m = used_inode s m)
    ∧ isize s' n = Z.max (isize s n) (offset + w)
    ∧ 0 <= w <= Z.min (zlen buf) (MAX_FILE_SIZE - offset)
    ∧ (w < Z.min (zlen buf) (MAX_FILE_SIZE - offset) → free_blocks (rd_data s') = 0)
    ∧ (∀ o, 0 <= o < MAX_FILE_SIZE →
         file_byte s' n o = if decide (offset <= o < offset + w)
                            then nth (Z.to_nat (o - offset)) buf 0 else file_byte s n o)
    ∧ others_kept n s s'.
Proof.
  intros Hwf Hn Ht Hoff Hlen Hbytes.
  assert (Hu : used_inode s n = true) by (by apply used_of_type; [..|rewrite Ht]).
  set (count := Z.min (zlen buf) (MAX_FILE_SIZE - offset)).
  assert (Hz : 0 <= zlen buf) by (unfold zlen; lia).
  destruct (write_loop_total s n buf offset count) as (s1 & w & Hl & Hwr & Hw & Hfull); try done; [lia..|].
  exists w, (finish_write s1 (inode_at n) (offset + w)).
  assert (Ecount : (if RAMFS_DIRECT_BLOCKS * RAMFS_BLOCK_SIZE <? offset +64 zlen buf
      then RAMFS_DIRECT_BLOCKS * RAMFS_BLOCK_SIZE -64 offset else zlen buf) = count).
  { change (RAMFS_DIRECT_BLOCKS * RAMFS_BLOCK_SIZE) with MAX_FILE_SIZE. unfold count.
    rewrite (u64_id (offset + _)), (u64_id (MAX_FILE_SIZE - _)) by (fs_consts; lia).
    destruct (Z.ltb_spec MAX_FILE_SIZE (offset + zlen buf)); lia. }
  refine (conj _ _).
  { unfold ramfs_write. change (inode_type (rd_data s) (inode_at n)) with (ityp s n). rewrite Ht.
    rewrite (proj2 (Z.ltb_ge _ _)) by (fs_consts; lia).
    change (negb (INODE_TYPE_FILE =? INODE_TYPE_FILE)) with false. cbv iota zeta.
    rewrite Ecount, Hl, bind_Some_eq. rewrite (u64_id (offset + w)) by (fs_consts; lia). done. }
  pose proof (wr_type _ _ _ _ _ _ Hwr) as Et. rewrite Ht in Et.
  destruct (finish_write_kept s1 n (offset + w)) as (Esz & Efb & Hwf2 & Ety & _ & Eui & Eby & Hot);
    [exact (wr_wf _ _ _ _ _ _ Hwr)|done|done|lia|].
  rewrite Esz, Efb, Ety. rewrite (wr_size _ _ _ _ _ _ Hwr). split_and!; try done; try lia.
  - intros m Hm. rewrite Eui by done. by apply (wr_used _ _ _ _ _ _ Hwr).
  - intros o Ho. rewrite Eby by done. by apply (wr_bytes _ _ _ _ _ _ Hwr).
  - eapply others_kept_trans; [exact (wr_others _ _ _ _ _ _ Hwr)|done].
Qed.

(** ** Reading *)

Lemma file_bytes_app s n o k l :
  0 <= k → 0 <= l → file_bytes s n o (k + l) = file_bytes s n o k ++ file_bytes s n (o + k) l.
Proof. intros. unfold file_bytes. rewrite seqZ_app by lia. by rewrite fmap_app. Qed.

Lemma zlen_file_bytes s n o k : 0 <= k → zlen (file_bytes s n o k) = k.
Proof. intros. unfold zlen, file_bytes. rewrite length_fmap, length_seqZ. lia. Qed.

(** Within one block a file's bytes are zeros or the block's bytes. *)
Lemma file_bytes_block s n p k :
  0 <= k → p mod RAMFS_BLOCK_SIZE + k <= RAMFS_BLOCK_SIZE →
  file_bytes s n p k =
    (if iblock s n (p / RAMFS_BLOCK_SIZE) =? 0 then replicate (Z.to_nat k) 0
     else read_bytes (rd_data s)
            (RAMFS_BLOCK_SIZE * iblock s n (p / RAMFS_BLOCK_SIZE) + p mod RAMFS_BLOCK_SIZE) k).
Proof.
  intros Hk Hb. pose proof (Z.div_mod p RAMFS_BLOCK_SIZE ltac:(done)) as Hdm.
  pose proof (Z.mod_pos_bound p RAMFS_BLOCK_SIZE ltac:(fs_consts; lia)) as Hmr.
  assert (Hpos : ∀ j, 0 <= j < k → (p + j) / RAMFS_BLOCK_SIZE = p / RAMFS_BLOCK_SIZE
            ∧ (p + j) mod RAMFS_BLOCK_SIZE = p mod RAMFS_BLOCK_SIZE + j).
  { intros j Hj. split; symmetry.
    - apply (Z.div_unique_pos _ _ _ (p mod RAMFS_BLOCK_SIZE + j)); lia.
    - apply (Z.mod_unique_pos _ _ (p / RAMFS_BLOCK_SIZE)); lia. }
  unfold file_bytes. apply list_eq. intros j. destruct (decide (Z.of_nat j < k)) as [Hj|Hj].
  - rewrite list_lookup_fmap, lookup_seqZ_lt by lia. simpl. unfold file_byte.
    destruct (Hpos (Z.of_nat j)) as [-> ->]; [lia|].
    destruct (Z.eqb_spec (iblock s n (p / RAMFS_BLOCK_SIZE)) 0).
    + symmetry. apply lookup_replicate_2. lia.
    + rewrite read_bytes_lookup by lia. do 2 f_equal. lia.
  - rewrite !lookup_ge_None_2; [done| |rewrite length_fmap, length_seqZ; lia].
    case_match; [rewrite length_replicate|rewrite length_read_bytes]; lia.
Qed.

Lemma read_step_cases s n count offset acc :
  fs_wf s → valid_inode n → used_inode s n = true → 0 <= offset → 0 <= count →
  offset + count <= MAX_FILE_SIZE → zlen acc <= count → acc = file_bytes s n offset (zlen acc) →
  match read_step s (inode_at n) count offset acc with
  | Next acc' => acc' = file_bytes s n offset (zlen acc') ∧ zlen acc < zlen acc' <= count
  | Stop acc' => acc' = file_bytes s n offset count
  end.
Proof.
  intros Hwf Hn Hu Hoff Hc Hmax Hacc Hfb. unfold read_step.
  assert (Hz : 0 <= zlen acc) by (unfold zlen; lia).
  destruct (Z.ltb_spec (zlen acc) count) as [Hlt|Hge].
  2:{ by replace count with (zlen acc) by lia. }
  rewrite (u64_id (offset + _)) by (fs_consts; lia).
  destruct (file_position (offset + zlen acc)) as (-> & -> & Hi & Hbo); [lia|].
  rewrite (proj2 (Z.leb_gt _ _)) by lia.
  rewrite (u64_id (count - zlen acc)) by (fs_consts; lia).
  set (k := Z.min _ _). assert (Hk : 0 < k ∧ zlen acc + k <= count) by lia.
  pose proof (file_bytes_block s n (offset + zlen acc) k ltac:(lia) ltac:(lia)) as Hfbb.
  assert (Hnext : ∀ bs, bs = file_bytes s n (offset + zlen acc) k →
    acc ++ bs = file_bytes s n offset (zlen (acc ++ bs)) ∧ zlen acc < zlen (acc ++ bs) <= count).
  { intros bs ->. assert (zlen (acc ++ file_bytes s n (offset + zlen acc) k) = zlen acc + k) as ->.
    { unfold zlen at 1. rewrite length_app, Nat2Z.inj_add.
      change (zlen acc + zlen (file_bytes s n (offset + zlen acc) k) = zlen acc + k).
      by rewrite zlen_file_bytes by lia. }
    split; [|lia]. rewrite file_bytes_app by lia. by rewrite <- Hfb. }
  unfold iblock in Hfbb. destruct (Z.eqb_spec (inode_block (rd_data s) (inode_at n)
    ((offset + zlen acc) / RAMFS_BLOCK_SIZE)) 0) as [E|E].
  - by apply Hnext.
  - rewrite get_owned_block by done. by apply Hnext.
Qed.

Lemma ramfs_read_cases s n count offset :
  fs_wf s → valid_inode n → ityp s n = INODE_TYPE_FILE →
  0 <= offset → 0 <= count → offset + count < 2 ^ 64 →
  ∃ s', ramfs_read s (Some (inode_at n)) count offset
        = Some (Some (file_bytes s n offset (Z.max 0 (Z.min count (isize s n - offset)))), s')
    ∧ fs_wf s' ∧ same_disk s s'
    ∧ (∀ m, valid_inode m → used_inode s' m = used_inode s m)
    ∧ ityp s' n = ityp s n ∧ isize s' n = isize s n
    ∧ (∀ o, 0 <= o < MAX_FILE_SIZE → file_byte s' n o = file_byte s n o)
    ∧ others_kept n s s'.
Proof.
  intros Hwf Hn Ht Hoff Hc Hov.
  assert (Hu : used_inode s n = true) by (by apply used_of_type; [..|rewrite Ht]).
  pose proof (isize_range s n Hwf) as Hsr. pose proof (fw_size s Hwf n Hn Ht) as Hmax.
  pose proof (inode_at_range n Hn).
  unfold ramfs_read. change (inode_type (rd_data s) (inode_at n)) with (ityp s n). rewrite Ht.
  change (negb (INODE_TYPE_FILE =? INODE_TYPE_FILE)) with false. cbv iota zeta.
  change (inode_size (rd_data s) (inode_at n)) with (isize s n).
  destruct (Z.leb_spec (isize s n) offset).
  { exists s. replace (Z.max 0 _) with 0 by lia. done. }
  rewrite (u64_id (offset + count)), (u64_id (isize s n - offset)) by (unfold is_u64 in *; lia).
  set (c := if isize s n <? offset + count then _ else _).
  assert (Hcv : c = Z.max 0 (Z.min count (isize s n - offset))).
  { unfold c. destruct (Z.ltb_spec (isize s n) (offset + count)); lia. }
  rewrite <- Hcv. assert (Hcr : 0 <= c ∧ offset + c <= MAX_FILE_SIZE) by lia. clearbody c.
  destruct (loop_total (read_step s (inode_at n) c offset)
    (λ acc, acc = file_bytes s n offset (zlen acc) ∧ zlen acc <= c)
    (λ acc, acc = file_bytes s n offset c) (λ acc, c - zlen acc) []) as (bs & -> & ->).
  - split; [done|unfold zlen; simpl; lia].
  - unfold WHILE_FUEL, zlen; simpl. fs_consts. lia.
  - intros acc [Hfb Hle]. pose proof (read_step_cases s n c offset acc) as H'.
    destruct (read_step _ _ _ _ _); [|by apply H'; try lia].
    destruct H' as [? ?]; try done; [lia..|]. split; [split; [done|lia]|lia].
  - rewrite bind_Some_eq. set (s' := with_data s _). exists s'.
    assert (Hch : changed (rd_data s) (rd_data s') (inode_at n + IN_accessed) 8)
      by (apply (changed_store 8); fs_consts; lia).
    assert (IN_accessed = 40) as E40 by done.
    destruct (resize_kept s s' n (isize s n)) as (A & B & _ & D & E & F); try done.
    + apply mem_wf_store, (fw_mem s Hwf).
    + apply (changed_weaken _ _ _ _ _ _ Hch); fs_consts; lia.
    + apply (isize_field _ _ _ _ _ Hch). lia.
    + split_and!; try done; [by rewrite B|]. apply (isize_field _ _ _ _ _ Hch). lia.
Qed.

(** ** Releasing blocks *)

(** The filesystem after the blocks in slots [lo .. k-1] of inode [n] have been
    returned to the allocator; the slots themselves may be cleared too. *)
Record released (s s' : ramfs) (n lo k : Z) : Prop := Released {
  rl_disk : same_disk s s';
  rl_mem : mem_wf (rd_data s');
  rl_fi : free_inodes (rd_data s') = free_inodes (rd_data s);
  rl_ui : ∀ m, valid_inode m → used_inode s' m = used_inode s m;
  rl_ub : ∀ c, 0 <= c < RAMFS_MAX_BLOCKS → used_block s' c = true ↔
    used_block s c = true ∧ ∀ j, lo <= j < k → iblock s n j ≠ 0 → iblock s n j ≠ c;
  rl_fb : free_blocks (rd_data s') = count_free (rd_data s') SB_block_bitmap (rd_block_count s);
  rl_data : ∀ x, 4096 <= x → x < inode_at n + IN_block_count ∨ inode_at n + IN_parent - 4 <= x →
    rd_data s' x = rd_data s x
}.

Lemma released_start s n lo : fs_wf s → released s s n lo lo.
Proof.
  intros Hwf. constructor; try done; [exact (fw_mem s Hwf)| |exact (fw_fb s Hwf)].
  intros c Hc. split; [|by intros [? _]]. intros ?. split; [done|]. intros j Hj. lia.
Qed.

Lemma released_skip s s' n lo k :
  iblock s n k = 0 → released s s' n lo k → released s s' n lo (k + 1).
Proof.
  intros E0 [A B C D F G H]. constructor; try done. intros c Hc. rewrite F by done.
  split; intros [? Hj]; (split; [done|]); intros j Hjr Hnz; [|apply Hj; [lia|done]].
  destruct (decide (j = k)) as [->|]; [done|]. apply Hj; [lia|done].
Qed.

(** The two writes of [ramfs_free_block]. *)
Lemma free_block_view s b (d := bitmap_clear (rd_data s) SB_block_bitmap b)
    (s' := with_data s (store32 d SB_free_blocks (free_blocks d +32 1))) :
  mem_wf (rd_data s) → 0 <= b < rd_block_count s → rd_block_count s <= RAMFS_MAX_BLOCKS →
  used_block s b = true →
  free_blocks (rd_data s) = count_free (rd_data s) SB_block_bitmap (rd_block_count s) →
  mem_wf (rd_data s') ∧ free_inodes (rd_data s') = free_inodes (rd_data s)
  ∧ (∀ m, valid_inode m → used_inode s' m = used_inode s m)
  ∧ (∀ c, 0 <= c < RAMFS_MAX_BLOCKS → used_block s' c = negb (c =? b) && used_block s c)
  ∧ free_blocks (rd_data s') = count_free (rd_data s') SB_block_bitmap (rd_block_count s)
  ∧ (∀ x, 208 <= x → rd_data s' x = rd_data s x).
Proof.
  intros Hm Hb Hbc Hub Hfb. pose proof (bitmap_byte_range b ltac:(lia)) as Hb8.
  assert (Hd : ∀ x, x ≠ SB_block_bitmap + b / 8 → d x = rd_data s x)
    by (intros; by apply bitmap_clear_other).
  assert (Hd' : ∀ x, x < SB_free_blocks ∨ SB_free_blocks + 4 <= x → rd_data s' x = d x)
    by (intros; by apply store_ne).
  assert (Hfd : free_blocks d = free_blocks (rd_data s)).
  { apply load_ext. intros x Hx. apply Hd. fs_consts. lia. }
  assert (Hub' : ∀ c, 0 <= c < RAMFS_MAX_BLOCKS → used_block s' c = negb (c =? b) && used_block s c).
  { intros c Hc. pose proof (bitmap_byte_range c Hc). unfold used_block.
    erewrite bitmap_test_ext; [apply bitmap_test_clear; lia|]. apply Hd'. fs_consts. lia. }
  split_and!; try done.
  - by apply mem_wf_store, mem_wf_store.
  - apply load_ext. intros x Hx. rewrite Hd', Hd; [done| |]; fs_consts; lia.
  - intros m Hm0. pose proof (inode_byte_range m Hm0). apply bitmap_test_ext.
    rewrite Hd', Hd; [done| |]; fs_consts; lia.
  - assert (count_free (rd_data s) SB_block_bitmap (rd_block_count s) <= rd_block_count s)
      by (apply countZ_le; lia).
    pose proof (countZ_nonneg (λ i, negb (bitmap_test (rd_data s) SB_block_bitmap i)) (rd_block_count s)).
    assert (free_blocks (rd_data s') = free_blocks (rd_data s) + 1) as ->.
    { unfold free_blocks at 1. simpl. rewrite load32_store32 by apply u32_range.
      rewrite Hfd, Hfb. unfold count_free in *. rewrite u32_id by (fs_consts; lia). done. }
    rewrite Hfb.
    symmetry. apply (countZ_add _ _ _ b); [lia|by apply negb_false_iff| |].
    + apply negb_true_iff. etransitivity; [apply (Hub' b); lia|]. by rewrite Z.eqb_refl.
    + intros j Hj Hne. f_equal. symmetry. etransitivity; [apply (Hub' j); lia|].
      by rewrite (proj2 (Z.eqb_neq _ _) Hne).
  - intros x Hx. rewrite Hd', Hd; [done| |]; fs_consts; lia.
Qed.

Lemma released_step s s' n lo k :
  fs_wf s → valid_inode n → used_inode s n = true → 0 <= lo → lo <= k < RAMFS_DIRECT_BLOCKS →
  iblock s n k ≠ 0 → released s s' n lo k →
  released s (ramfs_free_block s' (iblock s n k)) n lo (k + 1)
  ∧ ∀ x, 208 <= x → rd_data (ramfs_free_block s' (iblock s n k)) x = rd_data s' x.
Proof.
  intros Hwf Hn Hu Hlo Hk Hnz Hrl. pose proof (fw_bc s Hwf) as Hbc.
  destruct (fw_own s Hwf n k Hn Hu ltac:(lia) Hnz) as [Hbr Hub].
  assert (Hd := rl_disk _ _ _ _ _ Hrl). destruct Hd as (Ei & Em & Ec & Et).
  assert (Hub' : used_block s' (iblock s n k) = true).
  { apply (rl_ub _ _ _ _ _ Hrl); [fs_consts; lia|]. split; [done|]. intros j Hj Hjnz E.
    destruct (fw_inj s Hwf n j n k) as [_ ?]; try done; lia. }
  destruct (free_block_view s' (iblock s n k)) as (A & B & C & D & F & G); try done.
  { exact (rl_mem _ _ _ _ _ Hrl). } { fs_consts; lia. } { lia. }
  { rewrite Ec. exact (rl_fb _ _ _ _ _ Hrl). }
  assert (Efree : ramfs_free_block s' (iblock s n k) =
     with_data s' (store32 (bitmap_clear (rd_data s') SB_block_bitmap (iblock s n k)) SB_free_blocks
       (free_blocks (bitmap_clear (rd_data s') SB_block_bitmap (iblock s n k)) +32 1))).
  { unfold ramfs_free_block. rewrite Em, (fw_mounted s Hwf), Ec.
    rewrite (proj2 (Z.ltb_ge _ _)), (proj2 (Z.leb_gt _ _)) by lia. simpl.
    unfold used_block in Hub'. by rewrite Hub'. }
  rewrite Efree. split; [|done]. constructor; try done.
  - rewrite B. exact (rl_fi _ _ _ _ _ Hrl).
  - intros m Hm. rewrite C by done. by apply (rl_ui _ _ _ _ _ Hrl).
  - intros c Hc. rewrite D by done. rewrite andb_true_iff, negb_true_iff, Z.eqb_neq.
    rewrite (rl_ub _ _ _ _ _ Hrl c Hc). split.
    + intros (Hne & Huc & Hj). split; [done|]. intros j Hjr Hjnz.
      destruct (decide (j = k)) as [->|]; [congruence|]. apply Hj; [lia|done].
    + intros [Huc Hj]. split_and!; [|done|].
      * intros ->. apply (Hj k); [lia|done|done].
      * intros j Hjr. apply Hj. lia.
  - by rewrite <- Ec.
  - intros x Hx Hout. rewrite G by lia. by apply (rl_data _ _ _ _ _ Hrl).
Qed.

(** Releasing slots [lo ..] of inode [n] keeps the filesystem well formed when
    the slots are cleared, or when the whole inode is freed. *)
Lemma fs_wf_release s s' n lo :
  fs_wf s → valid_inode n → used_inode s n = true → 0 <= lo <= RAMFS_DIRECT_BLOCKS →
  same_disk s s' → mem_wf (rd_data s') →
  (∀ c, 0 <= c < RAMFS_MAX_BLOCKS → used_block s' c = true ↔
     used_block s c = true
     ∧ ∀ j, lo <= j < RAMFS_DIRECT_BLOCKS → iblock s n j ≠ 0 → iblock s n j ≠ c) →
  free_blocks (rd_data s') = count_free (rd_data s') SB_block_bitmap (rd_block_count s) →
  free_inodes (rd_data s') = count_free (rd_data s') SB_inode_bitmap RAMFS_MAX_FILES →
  (∀ m, valid_inode m → m ≠ n → used_inode s' m = used_inode s m ∧ ityp s' m = ityp s m
     ∧ isize s' m = isize s m ∧ ∀ j, 0 <= j < RAMFS_DIRECT_BLOCKS → iblock s' m j = iblock s m j) →
  (used_inode s' n = true ∧ ityp s' n = ityp s n
   ∧ (ityp s n = INODE_TYPE_FILE → isize s' n <= MAX_FILE_SIZE)
   ∧ ∀ j, 0 <= j < RAMFS_DIRECT_BLOCKS → iblock s' n j = if decide (lo <= j) then 0 else iblock s n j)
  ∨ (used_inode s' n = false ∧ ityp s' n = INODE_TYPE_FREE ∧ n ≠ RAMFS_ROOT_INODE) →
  fs_wf s'.
Proof.
  intros Hwf Hn Hu Hlo (E1 & E2 & E3 & E4) Hm Hub Hfb Hfi Hoth Hnn. pose proof (fw_bc s Hwf) as Hbc.
  assert (Hback : ∀ m j, valid_inode m → used_inode s' m = true → 0 <= j < RAMFS_DIRECT_BLOCKS →
    iblock s' m j ≠ 0 → used_inode s m = true ∧ iblock s' m j = iblock s m j ∧ (m = n → j < lo)).
  { intros m j Hm0 Hum Hj Hnz. destruct (decide (m = n)) as [->|Hne].
    - destruct Hnn as [(_ & _ & _ & Hb)|(Hf & _)]; [|congruence].
      rewrite Hb in Hnz |- * by done. destruct (decide (lo <= j)); [done|]. split_and!; [done|done|lia].
    - destruct (Hoth m Hm0 Hne) as (? & _ & _ & Hb). rewrite Hb by done. split_and!; [congruence|done|done]. }
  assert (valid_inode RAMFS_ROOT_INODE) as Hr0 by (unfold valid_inode; fs_consts; lia).
  constructor; rewrite ?E1, ?E2, ?E3, ?E4; try done.
  - exact (fw_init s Hwf).
  - exact (fw_mounted s Hwf).
  - exact (fw_ticks s Hwf).
  - intros b Hb. apply Hub; [fs_consts; lia|]. split; [by apply (fw_sys s Hwf)|].
    intros j Hj Hnz E. pose proof (owned_range s n j Hwf Hn Hu ltac:(lia) Hnz). lia.
  - intros m Hm0. pose proof (fw_type s Hwf m Hm0) as Hty. destruct (decide (m = n)) as [->|Hne].
    + rewrite Hu in Hty. destruct Hnn as [(-> & -> & _)|(-> & -> & _)]; done.
    + by destruct (Hoth m Hm0 Hne) as (-> & -> & _).
  - pose proof (fw_root s Hwf) as Hroot. destruct (decide (RAMFS_ROOT_INODE = n)) as [Er|Hne].
    + rewrite Er in *. destruct Hnn as [(-> & -> & _)|(_ & _ & ?)]; [split; [done|apply Hroot]|done].
    + by destruct (Hoth RAMFS_ROOT_INODE Hr0 Hne) as (-> & -> & _).
  - intros m Hm0 Ht. destruct (decide (m = n)) as [->|Hne].
    + destruct Hnn as [(_ & Et & Hs & _)|(_ & Et & _)]; [apply Hs; congruence|].
      by rewrite Ht in Et.
    + destruct (Hoth m Hm0 Hne) as (_ & Et & -> & _). apply (fw_size s Hwf); congruence.
  - intros m j Hm0 Hum Hj Hnz. destruct (Hback m j Hm0 Hum Hj Hnz) as (Hum0 & Eb & Hlt).
    rewrite Eb in Hnz |- *. destruct (fw_own s Hwf m j Hm0 Hum0 Hj Hnz) as [Hr Hused]. split; [done|].
    apply Hub; [fs_consts; lia|]. split; [done|]. intros j' Hj' Hnz' E.
    destruct (fw_inj s Hwf n j' m j) as [? ?]; try done; lia.
  - intros m1 j1 m2 j2 Hm1 Hm2 Hu1 Hu2 Hj1 Hj2 Hnz E.
    destruct (Hback m1 j1 Hm1 Hu1 Hj1 Hnz) as (Hv1 & Eb1 & _).
    destruct (Hback m2 j2 Hm2 Hu2 Hj2 ltac:(congruence)) as (Hv2 & Eb2 & _).
    apply (fw_inj s Hwf); congruence.
Qed.

(** Clearing slot [k] after its block was released. *)
Lemma truncate_block_step s s1 n lo k :
  fs_wf s → valid_inode n → used_inode s n = true → 0 <= lo → lo <= k < RAMFS_DIRECT_BLOCKS →
  released s s1 n lo k →
  (∀ j, 0 <= j < RAMFS_DIRECT_BLOCKS →
     iblock s1 n j = if decide (lo <= j < k) then 0 else iblock s n j) →
  let s' := truncate_block (inode_at n) k s1 in
  released s s' n lo (k + 1)
  ∧ ∀ j, 0 <= j < RAMFS_DIRECT_BLOCKS →
      iblock s' n j = if decide (lo <= j < k + 1) then 0 else iblock s n j.
Proof.
  intros Hwf Hn Hu Hlo Hk Hrl Hbl. pose proof (inode_at_range n Hn) as Hr.
  assert (Ek : iblock s1 n k = iblock s n k) by (rewrite Hbl by lia; by rewrite decide_False by lia).
  unfold truncate_block. fold (iblock s1 n k). rewrite Ek.
  destruct (Z.eqb_spec (iblock s n k) 0) as [E0|E0]; simpl.
  - split; [by apply released_skip|]. intros j Hj. rewrite Hbl by done.
    destruct (decide (lo <= j < k)), (decide (lo <= j < k + 1)); try done; try lia.
    by replace j with k by lia.
  - destruct (released_step s s1 n lo k) as [Hrl' Hd]; try done.
    set (s2 := ramfs_free_block s1 (iblock s n k)) in *.
    set (v := inode_block_count _ _ -32 1).
    destruct (store_block_slot (rd_data s2) n k 0 v ltac:(lia)) as [Hch Hb2].
    set (d' := store32 (store32 _ _ 0) _ v) in *. set (s' := with_data s2 d').
    change (changed (rd_data s2) (rd_data s') (inode_at n + IN_block_count) 52) in Hch.
    assert (Hsb : 208 <= inode_at n + IN_block_count) by (fs_consts; lia).
    destruct (counts_frame _ _ _ _ Hch Hsb) as [Efb Efi]. split.
    + constructor.
      * eapply same_disk_trans; [exact (rl_disk _ _ _ _ _ Hrl')|done].
      * apply mem_wf_store, mem_wf_store. exact (rl_mem _ _ _ _ _ Hrl').
      * rewrite Efi. exact (rl_fi _ _ _ _ _ Hrl').
      * intros m Hm. rewrite (used_inode_frame _ _ _ _ Hch) by done. by apply (rl_ui _ _ _ _ _ Hrl').
      * intros c Hc. rewrite (used_block_frame _ _ _ _ Hch) by done. by apply (rl_ub _ _ _ _ _ Hrl').
      * rewrite Efb, (rl_fb _ _ _ _ _ Hrl'). apply countZ_ext. intros c Hc. f_equal. symmetry.
        pose proof (fw_bc s Hwf). apply (used_block_frame _ _ _ _ Hch); [done|lia].
      * intros x Hx Hout. rewrite (Hch x) by (fs_consts; lia). by apply (rl_data _ _ _ _ _ Hrl').
    + intros j Hj. change (inode_block d' (inode_at n) j = if decide (lo <= j < k + 1) then 0 else iblock s n j).
      rewrite Hb2 by (unfold is_u32; lia || done).
      assert (inode_block (rd_data s2) (inode_at n) j = iblock s1 n j) as ->.
      { apply load_ext. intros x Hx. apply Hd. fs_consts. lia. }
      rewrite Hbl by done.
      destruct (decide (j = k)), (decide (lo <= j < k)), (decide (lo <= j < k + 1)); try done; lia.
Qed.

(** The loop of [ramfs_truncate]. *)
Lemma truncate_loop s n lo :
  fs_wf s → valid_inode n → used_inode s n = true → 0 <= lo <= RAMFS_DIRECT_BLOCKS →
  let s' := for_each lo RAMFS_DIRECT_BLOCKS (truncate_block (inode_at n)) s in
  released s s' n lo RAMFS_DIRECT_BLOCKS
  ∧ ∀ j, 0 <= j < RAMFS_DIRECT_BLOCKS →
      iblock s' n j = if decide (lo <= j < RAMFS_DIRECT_BLOCKS) then 0 else iblock s n j.
Proof.
  intros Hwf Hn Hu Hlo.
  set (I := λ k s', released s s' n lo k ∧ ∀ j, 0 <= j < RAMFS_DIRECT_BLOCKS →
    iblock s' n j = if decide (lo <= j < k) then 0 else iblock s n j).
  apply (for_each_inv I).
  - lia.
  - split; [by apply released_start|]. intros j Hj. by rewrite decide_False by lia.
  - intros k s1 Hk [Hrl Hbl]. by apply truncate_block_step; [..|lia| | |].
Qed.

Section released_view.
Context (s s' : ramfs) (n lo k : Z).
Hypothesis Hwf : fs_wf s.
Hypothesis Hn : valid_inode n.
Hypothesis Hrl : released s s' n lo k.

Lemma released_inode m :
  valid_inode m → m ≠ n →
  used_inode s' m = used_inode s m ∧ ityp s' m = ityp s m ∧ isize s' m = isize s m
  ∧ iparent s' m = iparent s m
  ∧ ∀ i, 0 <= i < RAMFS_DIRECT_BLOCKS → iblock s' m i = iblock s m i.
Proof.
  intros Hm Hne. split; [by apply (rl_ui _ _ _ _ _ Hrl)|].
  pose proof (inode_at_disjoint n m Hn Hm ltac:(auto)). pose proof (inode_at_range m Hm).
  unfold ityp, isize, iparent, iblock, inode_type, inode_size, inode_parent, inode_block.
  split_and!; intros; apply load_ext; intros x Hx; apply (rl_data _ _ _ _ _ Hrl); fs_consts; lia.
Qed.

Lemma released_self :
  ityp s' n = ityp s n ∧ isize s' n = isize s n ∧ iparent s' n = iparent s n.
Proof.
  pose proof (inode_at_range n Hn).
  unfold ityp, isize, iparent, inode_type, inode_size, inode_parent.
  split_and!; intros; apply load_ext; intros x Hx; apply (rl_data _ _ _ _ _ Hrl); fs_consts; lia.
Qed.

Lemma released_data m o :
  valid_inode m → used_inode s m = true → 0 <= o < MAX_FILE_SIZE →
  iblock s' m (o / RAMFS_BLOCK_SIZE) = iblock s m (o / RAMFS_BLOCK_SIZE) →
  file_byte s' m o = file_byte s m o.
Proof.
  intros Hm Hu Ho%block_index_range Eb. apply file_byte_frame; [done|]. intros Hnz j Hj. simpl.
  pose proof (owned_range s m _ Hwf Hm Hu Ho Hnz). pose proof (inode_at_range n Hn).
  apply (rl_data _ _ _ _ _ Hrl); fs_consts; lia.
Qed.

Lemma released_others : others_kept n s s'.
Proof.
  intros m Hm Hne Hu. destruct (released_inode m Hm Hne) as (-> & -> & -> & -> & Eb).
  split_and!; try done. intros o Ho. apply released_data; try done.
  apply Eb. by apply block_index_range.
Qed.

End released_view.

Lemma fi_kept s s' :
  fs_wf s → free_inodes (rd_data s') = free_inodes (rd_data s) →
  (∀ m, valid_inode m → used_inode s' m = used_inode s m) →
  free_inodes (rd_data s') = count_free (rd_data s') SB_inode_bitmap RAMFS_MAX_FILES.
Proof.
  intros Hwf -> Hui. rewrite (fw_fi s Hwf). apply countZ_ext. intros m Hm. f_equal. symmetry.
  by apply Hui.
Qed.

(** First slot past the blocks that hold [size] bytes. *)
Definition blocks_for (size : Z) : Z := (size + RAMFS_BLOCK_SIZE - 1) / RAMFS_BLOCK_SIZE.

Lemma blocks_for_range size : 0 <= size <= MAX_FILE_SIZE → 0 <= blocks_for size <= RAMFS_DIRECT_BLOCKS.
Proof.
  unfold blocks_for. fs_consts. intros. split; [apply Z.div_pos; lia|].
  apply Z.lt_succ_r, Z.div_lt_upper_bound; lia.
Qed.

(** Releasing the tail of a file. *)
Lemma shrink_kept s n lo (s' := for_each lo RAMFS_DIRECT_BLOCKS (truncate_block (inode_at n)) s) :
  fs_wf s → valid_inode n → used_inode s n = true → 0 <= lo <= RAMFS_DIRECT_BLOCKS →
  fs_wf s' ∧ same_disk s s' ∧ (∀ m, valid_inode m → used_inode s' m = used_inode s m)
  ∧ ityp s' n = ityp s n ∧ isize s' n = isize s n
  ∧ (∀ o, 0 <= o < MAX_FILE_SIZE →
       file_byte s' n o = if decide (lo <= o / RAMFS_BLOCK_SIZE) then 0 else file_byte s n o)
  ∧ others_kept n s s'.
Proof.
  intros Hwf Hn Hu Hlo. destruct (truncate_loop s n lo Hwf Hn Hu Hlo) as [Hrl Hbl].
  fold s' in Hrl, Hbl. destruct (released_self s s' n _ _ Hn Hrl) as (Et & Es & _).
  assert (Hbl' : ∀ j, 0 <= j < RAMFS_DIRECT_BLOCKS →
    iblock s' n j = if decide (lo <= j) then 0 else iblock s n j).
  { intros j Hj. rewrite Hbl by done.
    destruct (decide (lo <= j < _)), (decide (lo <= j)); try done; lia. }
  split_and!; try done.
  - apply (fs_wf_release s s' n lo); try done.
    + exact (rl_disk _ _ _ _ _ Hrl).
    + exact (rl_mem _ _ _ _ _ Hrl).
    + exact (rl_ub _ _ _ _ _ Hrl).
    + exact (rl_fb _ _ _ _ _ Hrl).
    + apply (fi_kept s); [done|exact (rl_fi _ _ _ _ _ Hrl)|exact (rl_ui _ _ _ _ _ Hrl)].
    + intros m Hm Hne. by destruct (released_inode s s' n _ _ Hn Hrl m Hm Hne) as (? & ? & ? & _ & ?).
    + left. rewrite (rl_ui _ _ _ _ _ Hrl) by done. split_and!; try done.
      rewrite Es. by apply (fw_size s Hwf).
  - exact (rl_disk _ _ _ _ _ Hrl).
  - exact (rl_ui _ _ _ _ _ Hrl).
  - intros o Ho. pose proof (block_index_range o Ho) as Hi.
    destruct (decide (lo <= o / RAMFS_BLOCK_SIZE)) as [Hge|Hlt].
    + unfold file_byte. rewrite Hbl' by done. by rewrite decide_True.
    + apply (released_data s s' n _ _ Hwf Hn Hrl); try done.
      rewrite Hbl' by done. by rewrite decide_False.
  - exact (released_others s s' n _ _ Hwf Hn Hrl).
Qed.

Lemma ramfs_truncate_cases s n size (sz := Z.min size MAX_FILE_SIZE) :
  fs_wf s → valid_inode n → ityp s n = INODE_TYPE_FILE → 0 <= size < 2 ^ 64 →
  ∃ s', ramfs_truncate s (Some (inode_at n)) size = (true, s')
    ∧ fs_wf s' ∧ ityp s' n = INODE_TYPE_FILE ∧ isize s' n = sz
    ∧ (∀ m, valid_inode m → used_inode s' m = used_inode s m)
    ∧ (∀ o, 0 <= o < MAX_FILE_SIZE →
         file_byte s' n o = if decide (sz < isize s n ∧ blocks_for sz <= o / RAMFS_BLOCK_SIZE)
                            then 0 else file_byte s n o)
    ∧ others_kept n s s'.
Proof.
  intros Hwf Hn Ht Hsz. assert (Hu : used_inode s n = true) by (by apply used_of_type; [..|rewrite Ht]).
  assert (Hszr : 0 <= sz <= MAX_FILE_SIZE) by (unfold sz; fs_consts; lia).
  pose proof (blocks_for_range sz Hszr) as Hlo.
  unfold ramfs_truncate. fold (ityp s n). rewrite Ht.
  change (negb (INODE_TYPE_FILE =? INODE_TYPE_FILE)) with false. cbv iota zeta.
  assert ((if RAMFS_DIRECT_BLOCKS * RAMFS_BLOCK_SIZE <? size then RAMFS_DIRECT_BLOCKS * RAMFS_BLOCK_SIZE
           else size) = sz) as ->.
  { change (RAMFS_DIRECT_BLOCKS * RAMFS_BLOCK_SIZE) with MAX_FILE_SIZE. unfold sz.
    destruct (Z.ltb_spec MAX_FILE_SIZE size); lia. }
  fold (blocks_for sz). rewrite (u32_id (blocks_for sz)) by (fs_consts; lia). fold (isize s n).
  clearbody sz. set (s1 := if sz <? isize s n then _ else _).
  assert (H1 : fs_wf s1 ∧ same_disk s s1 ∧ (∀ m, valid_inode m → used_inode s1 m = used_inode s m)
    ∧ ityp s1 n = ityp s n
    ∧ (∀ o, 0 <= o < MAX_FILE_SIZE →
         file_byte s1 n o = if decide (sz < isize s n ∧ blocks_for sz <= o / RAMFS_BLOCK_SIZE)
                            then 0 else file_byte s n o)
    ∧ others_kept n s s1).
  { unfold s1. destruct (Z.ltb_spec sz (isize s n)).
    - destruct (shrink_kept s n (blocks_for sz) Hwf Hn Hu Hlo) as (A & B & C & D & _ & F & G).
      split_and!; try done. intros o Ho. rewrite F by done.
      destruct (decide (blocks_for sz <= _)), (decide (_ ∧ _)); naive_solver.
    - split_and!; try done. intros o Ho. rewrite decide_False by lia. done. }
  clearbody s1. destruct H1 as (Hwf1 & Hd1 & Hu1 & Ht1 & Hb1 & Ho1).
  set (s' := with_data s1 _). exists s'.
  assert (Hsz' : isize s' n = sz).
  { unfold isize. simpl. unfold inode_size. rewrite load_store_ne by (fs_consts; lia).
    rewrite load64_store64; [done|unfold is_u64; fs_consts; lia]. }
  destruct (resize_kept s1 s' n sz) as (A & B & _ & D & E & F); try done.
  - by rewrite Hu1.
  - apply mem_wf_store, mem_wf_store, (fw_mem s1 Hwf1).
  - eapply changed_trans; apply (changed_store 8); fs_consts; lia.
  - lia.
  - split_and!; try done.
    + congruence.
    + intros m Hm. by rewrite D, Hu1.
    + intros o Ho. by rewrite E, Hb1.
    + by eapply others_kept_trans.
Qed.

(** ** Inodes *)

Lemma free_inodes_range s : mem_wf (rd_data s) → 0 <= free_inodes (rd_data s) < 2 ^ 32.
Proof. intros H. apply (load_range 4 _ _ H). Qed.

(** Writing the inode bitmap and its counter leaves the rest of the disk alone. *)
Lemma inode_map_view d d1 v n (d2 := store32 d1 SB_free_inodes v) :
  valid_inode n → mem_wf d1 → (∀ x, x ≠ SB_inode_bitmap + n / 8 → d1 x = d x) →
  mem_wf d2 ∧ free_inodes d1 = free_inodes d ∧ free_inodes d2 = u32 v
  ∧ free_blocks d2 = free_blocks d
  ∧ (∀ c, 0 <= c < RAMFS_MAX_BLOCKS → bitmap_test d2 SB_block_bitmap c = bitmap_test d SB_block_bitmap c)
  ∧ (∀ m, valid_inode m → bitmap_test d2 SB_inode_bitmap m = bitmap_test d1 SB_inode_bitmap m)
  ∧ (∀ x, 208 <= x → d2 x = d x).
Proof.
  intros Hn Hm Hd. pose proof (inode_byte_range n Hn) as Hn8.
  assert (Hd2 : ∀ x, x < SB_free_inodes ∨ SB_free_inodes + 4 <= x → d2 x = d1 x)
    by (intros; by apply store_ne).
  split_and!.
  - by apply mem_wf_store.
  - apply load_ext. intros x Hx. apply Hd. fs_consts. lia.
  - apply (load_store_eq 4).
  - apply load_ext. intros x Hx. rewrite Hd2, Hd; [done| |]; fs_consts; lia.
  - intros c Hc. pose proof (bitmap_byte_range c Hc). apply bitmap_test_ext.
    rewrite Hd2, Hd; [done| |]; fs_consts; lia.
  - intros m Hm0. pose proof (inode_byte_range m Hm0). apply bitmap_test_ext, Hd2. fs_consts. lia.
  - intros x Hx. rewrite Hd2, Hd; [done| |]; fs_consts; lia.
Qed.

(** The block loop of [ramfs_free_inode]. *)
Lemma free_loop s n :
  fs_wf s → valid_inode n → used_inode s n = true →
  let s' := for_each 0 RAMFS_DIRECT_BLOCKS (λ i s,
              let b := inode_block (rd_data s) (inode_at n) i in
              if negb (b =? 0) then ramfs_free_block s b else s) s in
  released s s' n 0 RAMFS_DIRECT_BLOCKS ∧ ∀ x, 208 <= x → rd_data s' x = rd_data s x.
Proof.
  intros Hwf Hn Hu. pose proof (inode_at_range n Hn).
  apply (for_each_inv (λ k s', released s s' n 0 k ∧ ∀ x, 208 <= x → rd_data s' x = rd_data s x)).
  - fs_consts. lia.
  - split; [by apply released_start|done].
  - intros k s1 Hk [Hrl Hd]. cbv zeta.
    assert (inode_block (rd_data s1) (inode_at n) k = iblock s n k) as ->.
    { apply load_ext. intros x Hx. apply Hd. fs_consts. lia. }
    destruct (Z.eqb_spec (iblock s n k) 0) as [E0|E0]; simpl.
    + split; [by apply released_skip|done].
    + destruct (released_step s s1 n 0 k) as [? Hd']; try done.
      split; [done|]. intros x Hx. by rewrite Hd', Hd.
Qed.

(** The end of [ramfs_free_inode]: the inode is zeroed and its number freed. *)
Lemma clear_inode_view s n (d1 := fill (rd_data s) (inode_at n) 0 sizeof_inode)
    (d2 := bitmap_clear d1 SB_inode_bitmap n)
    (s' := with_data s (store32 d2 SB_free_inodes (free_inodes d2 +32 1))) :
  valid_inode n → mem_wf (rd_data s) →
  mem_wf (rd_data s')
  ∧ (∀ m, valid_inode m → used_inode s' m = negb (m =? n) && used_inode s m)
  ∧ (∀ c, 0 <= c < RAMFS_MAX_BLOCKS → used_block s' c = used_block s c)
  ∧ free_inodes (rd_data s') = u32 (free_inodes (rd_data s) + 1)
  ∧ free_blocks (rd_data s') = free_blocks (rd_data s)
  ∧ ityp s' n = INODE_TYPE_FREE
  ∧ (∀ x, 208 <= x → x < inode_at n ∨ inode_at n + 116 <= x → rd_data s' x = rd_data s x).
Proof.
  intros Hn Hm. pose proof (inode_at_range n Hn) as Hr.
  assert (Hd1 : changed (rd_data s) d1 (inode_at n) 116) by (apply changed_fill; fs_consts; lia).
  assert (Hm1 : mem_wf d1) by (by apply mem_wf_fill).
  destruct (inode_map_view d1 d2 (free_inodes d2 +32 1) n Hn) as (A & B & C & D & E & F & G).
  { by apply mem_wf_store. } { intros. by apply bitmap_clear_other. }
  split_and!.
  - done.
  - intros m Hm0. etransitivity; [by apply F|]. unfold d2. unfold valid_inode in *.
    rewrite bitmap_test_clear by lia. f_equal. apply bitmap_test_ext, Hd1.
    pose proof (inode_byte_range m Hm0). fs_consts. lia.
  - intros c Hc. etransitivity; [by apply E|]. apply bitmap_test_ext, Hd1.
    pose proof (bitmap_byte_range c Hc). fs_consts. lia.
  - etransitivity; [apply C|]. rewrite (u32_id (u32 _)) by apply u32_range.
    rewrite B. unfold u32. do 2 f_equal.
    apply (changed_load 4 _ _ _ _ _ Hd1). fs_consts. lia.
  - etransitivity; [apply D|]. apply (changed_load 4 _ _ _ _ _ Hd1). fs_consts. lia.
  - transitivity (inode_type d1 (inode_at n)).
    + apply load_ext. intros x Hx. apply G. fs_consts. lia.
    + unfold inode_type. apply load_fill_0; fs_consts; lia.
  - intros x Hx Hout. etransitivity; [by apply G|]. by apply Hd1.
Qed.

(** A state in which the blocks of [n] are released, its number is free and its
    type is cleared. *)
Lemma inode_freed_wf s s1 s2 n :
  fs_wf s → valid_inode n → n ≠ RAMFS_ROOT_INODE → used_inode s n = true →
  released s s1 n 0 RAMFS_DIRECT_BLOCKS → (∀ x, 208 <= x → rd_data s1 x = rd_data s x) →
  same_disk s s2 → mem_wf (rd_data s2) →
  (∀ m, valid_inode m → used_inode s2 m = negb (m =? n) && used_inode s1 m) →
  (∀ c, 0 <= c < RAMFS_MAX_BLOCKS → used_block s2 c = used_block s1 c) →
  free_inodes (rd_data s2) = u32 (free_inodes (rd_data s1) + 1) →
  free_blocks (rd_data s2) = free_blocks (rd_data s1) →
  ityp s2 n = INODE_TYPE_FREE →
  (∀ x, 208 <= x → x < inode_at n ∨ inode_at n + 116 <= x → rd_data s2 x = rd_data s1 x) →
  fs_wf s2 ∧ used_inode s2 n = false
  ∧ free_inodes (rd_data s2) = free_inodes (rd_data s) + 1
  ∧ (∀ c, 0 <= c < RAMFS_MAX_BLOCKS → used_block s2 c = true ↔ used_block s c = true
       ∧ ∀ j, 0 <= j < RAMFS_DIRECT_BLOCKS → iblock s n j ≠ 0 → iblock s n j ≠ c)
  ∧ (∀ m, valid_inode m → m ≠ n → used_inode s2 m = used_inode s m)
  ∧ others_kept n s s2.
Proof.
  intros Hwf Hn Hroot Hu Hrl Hd Hd2 A B C D E F G. pose proof (fw_bc s Hwf) as Hbc.
  pose proof (inode_at_range n Hn) as Hr.
  assert (Hui : ∀ m, valid_inode m → used_inode s2 m = negb (m =? n) && used_inode s m).
  { intros m Hm. rewrite B, (rl_ui _ _ _ _ _ Hrl); done. }
  assert (Hfi : free_inodes (rd_data s2) = free_inodes (rd_data s) + 1).
  { rewrite D, (rl_fi _ _ _ _ _ Hrl), (fw_fi s Hwf). apply u32_id.
    pose proof (countZ_le (λ i, negb (bitmap_test (rd_data s) SB_inode_bitmap i)) RAMFS_MAX_FILES ltac:(done)).
    unfold count_free, countZ in *. unfold RAMFS_MAX_FILES in *. lia. }
  assert (Hfr : ∀ m, valid_inode m → m ≠ n → ityp s2 m = ityp s m ∧ isize s2 m = isize s m
     ∧ iparent s2 m = iparent s m ∧ ∀ j, 0 <= j < RAMFS_DIRECT_BLOCKS → iblock s2 m j = iblock s m j).
  { intros m Hm Hne. pose proof (inode_at_disjoint n m Hn Hm ltac:(auto)). pose proof (inode_at_range m Hm).
    unfold ityp, isize, iparent, iblock, inode_type, inode_size, inode_parent, inode_block.
    split_and!; intros; apply load_ext; intros x Hx; rewrite G, Hd by (fs_consts; lia); done. }
  assert (Hub : ∀ c, 0 <= c < RAMFS_MAX_BLOCKS → used_block s2 c = true ↔ used_block s c = true
       ∧ ∀ j, 0 <= j < RAMFS_DIRECT_BLOCKS → iblock s n j ≠ 0 → iblock s n j ≠ c).
  { intros c Hc. rewrite C by done. by apply (rl_ub _ _ _ _ _ Hrl). }
  split_and!; try done.
  - apply (fs_wf_release s s2 n 0); try done.
    + rewrite E, (rl_fb _ _ _ _ _ Hrl). apply countZ_ext. intros c Hc. f_equal. symmetry. apply C. lia.
    + rewrite Hfi, (fw_fi s Hwf). symmetry. apply (countZ_add _ _ _ n Hn); [by apply negb_false_iff| |].
      * apply negb_true_iff. etransitivity; [by apply Hui|]. by rewrite Z.eqb_refl.
      * intros m Hm Hne. f_equal. symmetry. etransitivity; [by apply Hui|].
        by rewrite (proj2 (Z.eqb_neq _ _) Hne).
    + intros m Hm Hne. destruct (Hfr m Hm Hne) as (-> & -> & _ & Eb). rewrite Hui by done.
      rewrite (proj2 (Z.eqb_neq _ _) Hne). done.
    + right. rewrite Hui by done. by rewrite Z.eqb_refl.
  - rewrite Hui by done. by rewrite Z.eqb_refl.
  - intros m Hm Hne. rewrite Hui by done. by rewrite (proj2 (Z.eqb_neq _ _) Hne).
  - intros m Hm Hne Hum. destruct (Hfr m Hm Hne) as (-> & -> & -> & Eb).
    rewrite Hui, (proj2 (Z.eqb_neq _ _) Hne) by done. split_and!; try done. intros o Ho.
    pose proof (block_index_range o Ho) as Hi. apply file_byte_frame; [by apply Eb|].
    intros Hnz j Hj. simpl. pose proof (owned_range s m _ Hwf Hm Hum Hi Hnz).
    rewrite G, Hd; [done| | |]; fs_consts; lia.
Qed.

Lemma ramfs_free_inode_eq s n :
  fs_wf s → valid_inode n → n ≠ RAMFS_ROOT_INODE → used_inode s n = true →
  ramfs_free_inode s n =
    let s1 := for_each 0 RAMFS_DIRECT_BLOCKS (λ i s,
                let b := inode_block (rd_data s) (inode_at n) i in
                if negb (b =? 0) then ramfs_free_block s b else s) s in
    let d := bitmap_clear (fill (rd_data s1) (inode_at n) 0 sizeof_inode) SB_inode_bitmap n in
    with_data s1 (store32 d SB_free_inodes (free_inodes d +32 1)).
Proof.
  intros Hwf Hn Hroot Hu. unfold ramfs_free_inode.
  rewrite (fw_mounted s Hwf), (proj2 (Z.eqb_neq _ _) Hroot).
  rewrite (proj2 (Z.leb_gt _ _)) by apply Hn. rewrite get_inode_Some by done. fold (ityp s n).
  rewrite (proj2 (Z.eqb_neq (ityp s n) _)); [done|].
  pose proof (fw_type s Hwf n Hn) as Hty. rewrite Hu in Hty. by destruct Hty as [->| ->].
Qed.

Lemma ramfs_free_inode_cases s n (s' := ramfs_free_inode s n) :
  fs_wf s → valid_inode n → n ≠ RAMFS_ROOT_INODE → used_inode s n = true →
  fs_wf s' ∧ used_inode s' n = false
  ∧ free_inodes (rd_data s') = free_inodes (rd_data s) + 1
  ∧ (∀ c, 0 <= c < RAMFS_MAX_BLOCKS → used_block s' c = true ↔ used_block s c = true
       ∧ ∀ j, 0 <= j < RAMFS_DIRECT_BLOCKS → iblock s n j ≠ 0 → iblock s n j ≠ c)
  ∧ (∀ m, valid_inode m → m ≠ n → used_inode s' m = used_inode s m)
  ∧ others_kept n s s'.
Proof.
  intros Hwf Hn Hroot Hu. destruct (free_loop s n Hwf Hn Hu) as [Hrl Hd].
  pose proof (ramfs_free_inode_eq s n Hwf Hn Hroot Hu) as E. cbv zeta in E, Hrl, Hd.
  set (s1 := for_each _ _ _ s) in E, Hrl, Hd. clearbody s1.
  destruct (clear_inode_view s1 n Hn (rl_mem _ _ _ _ _ Hrl)) as (A & B & C & D & F & G & H).
  fold s' in E. rewrite <- E in A, B, C, D, F, G, H.
  apply (inode_freed_wf s s1 s' n); try done.
  rewrite E. eapply same_disk_trans; [exact (rl_disk _ _ _ _ _ Hrl)|done].
Qed.

(** A fresh inode: type, permissions, times and link count over a zeroed record. *)
Definition init_inode (d : mem) (ip type ticks : Z) : mem :=
  let d := fill d ip 0 sizeof_inode in
  let d := store32 d (ip + IN_type) type in
  let d := store32 d (ip + IN_permissions)
             (if type =? INODE_TYPE_DIR then INODE_PERM_DEFAULT_DIR else INODE_PERM_DEFAULT_FILE) in
  let d := store64 d (ip + IN_created) ticks in
  let d := store64 d (ip + IN_modified) ticks in
  let d := store64 d (ip + IN_accessed) ticks in
  store32 d (ip + IN_link_count) 1.

Lemma init_inode_view d n type ticks (d' := init_inode d (inode_at n) type ticks) :
  is_u32 type → mem_wf d →
  mem_wf d' ∧ changed d d' (inode_at n) 116
  ∧ inode_type d' (inode_at n) = type ∧ inode_size d' (inode_at n) = 0
  ∧ inode_link_count d' (inode_at n) = 1
  ∧ ∀ i, 0 <= i < RAMFS_DIRECT_BLOCKS → inode_block d' (inode_at n) i = 0.
Proof.
  intros Ht Hm. unfold d', init_inode. split_and!.
  - repeat apply mem_wf_store. by apply mem_wf_fill.
  - repeat (eapply changed_trans; [|first [apply (changed_store 8)|apply (changed_store 4)]]);
      [apply changed_fill| ..]; fs_consts; lia.
  - unfold inode_type. rewrite !load_store_ne by (fs_consts; lia). by rewrite load32_store32.
  - unfold inode_size. rewrite !load_store_ne by (fs_consts; lia). apply load_fill_0; fs_consts; lia.
  - unfold inode_link_count. by rewrite load32_store32 by (unfold is_u32; lia).
  - intros i Hi. unfold inode_block. rewrite !load_store_ne by (fs_consts; lia).
    apply load_fill_0; fs_consts; lia.
Qed.

(** A state in which number [n] has been taken for an empty inode. *)
Lemma inode_taken_wf s s' n :
  fs_wf s → valid_inode n → used_inode s n = false → same_disk s s' → mem_wf (rd_data s') →
  (∀ m, valid_inode m → used_inode s' m = (m =? n) || used_inode s m) →
  (∀ c, 0 <= c < RAMFS_MAX_BLOCKS → used_block s' c = used_block s c) →
  free_inodes (rd_data s') = free_inodes (rd_data s) - 1 →
  free_blocks (rd_data s') = free_blocks (rd_data s) →
  (∀ x, 208 <= x → x < inode_at n ∨ inode_at n + 116 <= x → rd_data s' x = rd_data s x) →
  ityp s' n = INODE_TYPE_FILE ∨ ityp s' n = INODE_TYPE_DIR → isize s' n = 0 →
  (∀ i, 0 <= i < RAMFS_DIRECT_BLOCKS → iblock s' n i = 0) →
  fs_wf s' ∧ others_kept n s s'.
Proof.
  intros Hwf Hn Hfree Hd Hm Hui Hub Hfi Hfb Hx Hty Hsz Hbl. pose proof (fw_bc s Hwf) as Hbc.
  assert (Hne0 : n ≠ RAMFS_ROOT_INODE).
  { intros ->. destruct (fw_root s Hwf) as [Hr _]. congruence. }
  assert (Hfr : ∀ m, valid_inode m → m ≠ n → used_inode s' m = used_inode s m
     ∧ ityp s' m = ityp s m ∧ isize s' m = isize s m
     ∧ iparent s' m = iparent s m ∧ ∀ j, 0 <= j < RAMFS_DIRECT_BLOCKS → iblock s' m j = iblock s m j).
  { intros m Hm0 Hne. split; [rewrite Hui by done; by rewrite (proj2 (Z.eqb_neq _ _) Hne)|].
    pose proof (inode_at_disjoint n m Hn Hm0 ltac:(auto)). pose proof (inode_at_range m Hm0).
    unfold ityp, isize, iparent, iblock, inode_type, inode_size, inode_parent, inode_block.
    split_and!; intros; apply load_ext; intros x Hxx; apply Hx; fs_consts; lia. }
  assert (Hun : used_inode s' n = true) by (rewrite Hui by done; by rewrite Z.eqb_refl).
  assert (Hback : ∀ m j, valid_inode m → used_inode s' m = true → 0 <= j < RAMFS_DIRECT_BLOCKS →
    iblock s' m j ≠ 0 → used_inode s m = true ∧ iblock s' m j = iblock s m j).
  { intros m j Hm0 Hum Hj Hnz. destruct (decide (m = n)) as [->|Hne]; [by rewrite Hbl in Hnz|].
    destruct (Hfr m Hm0 Hne) as (E & _ & _ & _ & Eb). rewrite <- E. auto. }
  destruct Hd as (E1 & E2 & E3 & E4). split.
  - constructor; rewrite ?E1, ?E2, ?E3, ?E4; try done; try apply Hwf.
    + intros c Hc. rewrite Hub by (fs_consts; lia). by apply (fw_sys s Hwf).
    + rewrite Hfb, (fw_fb s Hwf). apply countZ_ext. intros c Hc. f_equal. symmetry. apply Hub. lia.
    + rewrite Hfi, (fw_fi s Hwf). symmetry. apply (countZ_remove _ _ _ n Hn); [by apply negb_true_iff| |].
      * by apply negb_false_iff.
      * intros m Hm0 Hne. f_equal. symmetry. by apply Hfr.
    + intros m Hm0. destruct (decide (m = n)) as [->|Hne]; [by rewrite Hun|].
      destruct (Hfr m Hm0 Hne) as (-> & -> & _). by apply (fw_type s Hwf).
    + assert (valid_inode RAMFS_ROOT_INODE) as Hr0 by (unfold valid_inode; fs_consts; lia).
      destruct (Hfr _ Hr0 ltac:(auto)) as (-> & -> & _). exact (fw_root s Hwf).
    + intros m Hm0. destruct (decide (m = n)) as [->|Hne]; [rewrite Hsz; fs_consts; lia|].
      destruct (Hfr m Hm0 Hne) as (_ & -> & -> & _). by apply (fw_size s Hwf).
    + intros m j Hm0 Hum Hj Hnz. destruct (Hback m j Hm0 Hum Hj Hnz) as [Hum0 Eb]. rewrite Eb in Hnz |- *.
      destruct (fw_own s Hwf m j Hm0 Hum0 Hj Hnz). rewrite Hub by (fs_consts; lia). done.
    + intros m1 j1 m2 j2 Hm1 Hm2 Hu1 Hu2 Hj1 Hj2 Hnz E.
      destruct (Hback m1 j1 Hm1 Hu1 Hj1 Hnz) as (Hv1 & Eb1).
      destruct (Hback m2 j2 Hm2 Hu2 Hj2 ltac:(congruence)) as (Hv2 & Eb2).
      apply (fw_inj s Hwf); congruence.
  - intros m Hm0 Hne Hum. destruct (Hfr m Hm0 Hne) as (-> & -> & -> & -> & Eb). split_and!; try done.
    intros o Ho. pose proof (block_index_range o Ho) as Hi. apply file_byte_frame; [by apply Eb|].
    intros Hnz j Hj. simpl. pose proof (owned_range s m _ Hwf Hm0 Hum Hi Hnz).
    pose proof (inode_at_range n Hn). apply Hx; fs_consts; lia.
Qed.

Lemma ramfs_alloc_inode_cases s type :
  fs_wf s → type = INODE_TYPE_FILE ∨ type = INODE_TYPE_DIR →
  match ramfs_alloc_inode s type with
  | (None, s') => s' = s ∧ free_inodes (rd_data s) = 0
  | (Some n, s') => valid_inode n ∧ used_inode s n = false ∧ fs_wf s' ∧ same_disk s s'
      ∧ (∀ m, valid_inode m → used_inode s' m = (m =? n) || used_inode s m)
      ∧ ityp s' n = type ∧ isize s' n = 0 ∧ inode_link_count (rd_data s') (inode_at n) = 1
      ∧ (∀ i, 0 <= i < RAMFS_DIRECT_BLOCKS → iblock s' n i = 0)
      ∧ others_kept n s s'
  end.
Proof.
  intros Hwf Hty. unfold ramfs_alloc_inode. rewrite (fw_mounted s Hwf). simpl negb. cbv iota.
  pose proof (free_inodes_range s (fw_mem s Hwf)) as Hfr. pose proof (fw_mem s Hwf) as Hm.
  destruct (Z.eqb_spec (free_inodes (rd_data s)) 0) as [E0|E0]; [done|].
  unfold bitmap_find_free. set (p := λ i, negb (bitmap_test (rd_data s) SB_inode_bitmap i)).
  pose proof (find_first_spec 0 RAMFS_MAX_FILES p) as Hf.
  destruct (find_first 0 RAMFS_MAX_FILES p) as [n|].
  2:{ split; [done|]. rewrite (fw_fi s Hwf). by apply countZ_all_false. }
  destruct Hf as (Hn & Hfree%negb_true_iff & _). cbv zeta. rewrite get_inode_Some by done.
  set (d1 := bitmap_set (rd_data s) SB_inode_bitmap n).
  destruct (inode_map_view (rd_data s) d1 (free_inodes d1 -32 1) n Hn) as (A & B & C & D & E & F & G).
  { by apply mem_wf_store. } { intros. by apply bitmap_set_other. }
  set (d2 := store32 d1 SB_free_inodes _) in *.
  fold (init_inode d2 (inode_at n) type (fs_ticks s)). set (d3 := init_inode _ _ _ _).
  destruct (init_inode_view d2 n type (fs_ticks s)) as (A' & Hch & Et & Es & El & Eb);
    [destruct Hty as [-> | ->]; by unfold is_u32|done|].
  fold d3 in A', Hch, Et, Es, El, Eb. set (s' := with_data s d3).
  change (changed (rd_data (with_data s d2)) (rd_data s') (inode_at n) 116) in Hch.
  pose proof (inode_at_range n Hn) as Hr.
  assert (Hui : ∀ m, valid_inode m → used_inode s' m = (m =? n) || used_inode s m).
  { intros m Hm0. rewrite (used_inode_frame _ _ _ _ Hch) by (done || lia). etransitivity; [by apply F|].
    apply bitmap_test_set; [apply Hn|apply Hm0]. }
  destruct (inode_taken_wf s s' n) as [Hwf' Hoth]; try done.
  - intros c Hc. rewrite (used_block_frame _ _ _ _ Hch) by (done || lia). by apply E.
  - destruct (counts_frame _ _ _ _ Hch) as [_ ->]; [lia|]. etransitivity; [exact C|].
    rewrite (u32_id (u32 _)) by apply u32_range. rewrite B. apply u32_id. lia.
  - destruct (counts_frame _ _ _ _ Hch) as [-> _]; [lia|]. exact D.
  - intros x Hx Hout. rewrite (Hch x) by done. by apply G.
  - change (inode_type d3 (inode_at n) = INODE_TYPE_FILE ∨ inode_type d3 (inode_at n) = INODE_TYPE_DIR).
    by rewrite Et.
Qed.

(** ** Formatting *)

(** Marking the system blocks. *)
Lemma mark_blocks d (k := RAMFS_DATA_START_BLOCK)
    (d' := for_each 0 k (λ i d, bitmap_set d (0 + SB_block_bitmap) i) d) :
  mem_wf d →
  mem_wf d' ∧ (∀ x, x < SB_block_bitmap ∨ SB_block_bitmap + 128 <= x → d' x = d x)
  ∧ ∀ c, 0 <= c → bitmap_test d' SB_block_bitmap c = (c <? k) || bitmap_test d SB_block_bitmap c.
Proof.
  intros Hm. apply (for_each_inv (λ k d', mem_wf d'
    ∧ (∀ x, x < SB_block_bitmap ∨ SB_block_bitmap + 128 <= x → d' x = d x)
    ∧ ∀ c, 0 <= c → bitmap_test d' SB_block_bitmap c = (c <? k) || bitmap_test d SB_block_bitmap c)).
  - done.
  - split_and!; try done. intros c Hc. by rewrite (proj2 (Z.ltb_ge _ _)) by lia.
  - intros i d1 Hi (A & B & C). unfold k in *. split_and!.
    + by apply mem_wf_store.
    + intros x Hx. rewrite bitmap_set_other; [by apply B|].
      pose proof (bitmap_byte_range i). fs_consts. lia.
    + intros c Hc. rewrite bitmap_test_set by lia. rewrite C by done.
      destruct (Z.eqb_spec c i), (Z.ltb_spec c i), (Z.ltb_spec c (i + 1)); try done; lia.
Qed.

Lemma countZ_below k n : 0 <= k <= n → countZ (λ i, negb (i <? k)) n = n - k.
Proof.
  intros Hk. unfold countZ. replace n with (k + (n - k)) at 1 by lia.
  rewrite seqZ_app by lia. rewrite filter_app, length_app.
  rewrite (filter_seqZ_ext _ (λ _, false) 0 k), (filter_seqZ_ext _ (λ _, true) (0 + k) (n - k)).
  - assert (∀ l : list Z, length (filter (λ _, false = true) l) = 0%nat) as ->.
    { induction l as [|x l IH]; [done|]. by rewrite filter_cons_False. }
    assert (∀ l : list Z, length (filter (λ _, true = true) l) = length l) as ->.
    { induction l as [|x l IH]; [done|]. rewrite filter_cons_True by done. simpl. by rewrite IH. }
    rewrite length_seqZ. lia.
  - intros i Hi. by rewrite (proj2 (Z.ltb_ge _ _)) by lia.
  - intros i Hi. by rewrite (proj2 (Z.ltb_lt _ _)) by lia.
Qed.

(** The superblock as [ramfs_format] first writes it. *)
Definition new_superblock (d : mem) (sb block_count ticks : Z) : mem :=
  let d := fill d sb 0 sizeof_superblock in
  let d := store32 d (sb + SB_magic) RAMFS_MAGIC in
  let d := store32 d (sb + SB_version) RAMFS_VERSION in
  let d := store32 d (sb + SB_block_size) RAMFS_BLOCK_SIZE in
  let d := store32 d (sb + SB_total_blocks) block_count in
  let d := store32 d (sb + SB_free_blocks) (block_count -32 RAMFS_DATA_START_BLOCK) in
  let d := store32 d (sb + SB_total_inodes) RAMFS_MAX_FILES in
  let d := store32 d (sb + SB_free_inodes) (RAMFS_MAX_FILES - 1) in
  let d := store32 d (sb + SB_root_inode) RAMFS_ROOT_INODE in
  let d := store64 d (sb + SB_created_time) ticks in
  store64 d (sb + SB_mount_time) ticks.

Definition new_root (d : mem) (root ticks : Z) : mem :=
  let d := fill d root 0 sizeof_inode in
  let d := store32 d (root + IN_type) INODE_TYPE_DIR in
  let d := store32 d (root + IN_permissions) INODE_PERM_DEFAULT_DIR in
  let d := store64 d (root + IN_size) 0 in
  let d := store64 d (root + IN_created) ticks in
  let d := store64 d (root + IN_modified) ticks in
  let d := store64 d (root + IN_accessed) ticks in
  let d := store32 d (root + IN_link_count) 2 in
  store32 d (root + IN_parent) RAMFS_ROOT_INODE.

Lemma new_superblock_view d bc ticks (d' := new_superblock d 0 bc ticks) :
  mem_wf d → RAMFS_DATA_START_BLOCK <= bc <= RAMFS_MAX_BLOCKS →
  mem_wf d' ∧ free_blocks d' = bc - RAMFS_DATA_START_BLOCK ∧ free_inodes d' = RAMFS_MAX_FILES - 1
  ∧ (∀ x, 48 <= x < 4104 → d' x = 0) ∧ (∀ x, 4104 <= x → d' x = d x).
Proof.
  intros Hm Hbc. unfold d', new_superblock. simpl Z.add. split_and!.
  - repeat apply mem_wf_store. by apply mem_wf_fill.
  - unfold free_blocks. rewrite !load_store_ne by (fs_consts; lia).
    rewrite load32_store32 by apply u32_range. apply u32_id. fs_consts. lia.
  - unfold free_inodes. rewrite !load_store_ne by (fs_consts; lia). by rewrite load32_store32.
  - intros x Hx. rewrite !store_ne by (fs_consts; lia).
    unfold fill. by rewrite (proj2 (in_range_true _ _ _)) by (fs_consts; lia).
  - intros x Hx. rewrite !store_ne by (fs_consts; lia).
    unfold fill. by rewrite (proj2 (in_range_false _ _ _)) by (fs_consts; lia).
Qed.

Lemma new_root_view d n ticks (d' := new_root d (inode_at n) ticks) :
  mem_wf d →
  mem_wf d' ∧ changed d d' (inode_at n) 116
  ∧ inode_type d' (inode_at n) = INODE_TYPE_DIR ∧ inode_size d' (inode_at n) = 0
  ∧ inode_parent d' (inode_at n) = RAMFS_ROOT_INODE
  ∧ ∀ i, 0 <= i < RAMFS_DIRECT_BLOCKS → inode_block d' (inode_at n) i = 0.
Proof.
  intros Hm. unfold d', new_root. split_and!.
  - repeat apply mem_wf_store. by apply mem_wf_fill.
  - repeat (eapply changed_trans; [|first [apply (changed_store 8)|apply (changed_store 4)]]);
      [apply changed_fill| ..]; fs_consts; lia.
  - unfold inode_type. rewrite !load_store_ne by (fs_consts; lia). by rewrite load32_store32.
  - unfold inode_size. rewrite !load_store_ne by (fs_consts; lia). by rewrite load64_store64.
  - unfold inode_parent. by rewrite load32_store32.
  - intros i Hi. unfold inode_block. rewrite !load_store_ne by (fs_consts; lia).
    apply load_fill_0; fs_consts; lia.
Qed.

Definition formatted (s : ramfs) : ramfs :=
  let d := new_superblock (rd_data s) 0 (rd_block_count s) (fs_ticks s) in
  let d := for_each 0 RAMFS_DATA_START_BLOCK (λ i d, bitmap_set d (0 + SB_block_bitmap) i) d in
  let d := new_root d (inode_at RAMFS_ROOT_INODE) (fs_ticks s) in
  Ramfs (bitmap_set d (0 + SB_inode_bitmap) RAMFS_ROOT_INODE) (rd_size s) (rd_block_count s)
    (rd_initialized s) true (fs_ticks s).

Lemma ramfs_format_eq s :
  rd_initialized s = true → RAMFS_DATA_START_BLOCK <= rd_block_count s <= RAMFS_MAX_BLOCKS →
  ramfs_format s = (true, formatted s).
Proof.
  intros Hi Hbc. unfold ramfs_format. rewrite Hi. simpl negb. cbv iota.
  rewrite get_block_ptr_Some; [|done|fs_consts; lia|lia].
  replace (RAMFS_BLOCK_SIZE * 0) with 0 by done. cbv zeta.
  set (d1 := for_each _ _ _ _). set (s1 := Ramfs d1 _ _ _ _ _).
  assert (ramfs_get_inode s1 RAMFS_ROOT_INODE = Some (inode_at RAMFS_ROOT_INODE)) as ->; [|by unfold formatted; rewrite Hi].
  unfold ramfs_get_inode.
  replace (RAMFS_INODE_START_BLOCK + RAMFS_ROOT_INODE / INODES_PER_BLOCK) with 1 by done.
  rewrite get_block_ptr_Some; [done|done|unfold s1; simpl; fs_consts; lia|unfold s1; simpl; lia].
Qed.

(** What a freshly formatted disk looks like. *)
Lemma formatted_view s (s' := formatted s) :
  mem_wf (rd_data s) → RAMFS_DATA_START_BLOCK <= rd_block_count s <= RAMFS_MAX_BLOCKS →
  (∀ x, 4096 <= x < 36864 → rd_data s x = 0) →
  mem_wf (rd_data s')
  ∧ (∀ c, 0 <= c < RAMFS_MAX_BLOCKS → used_block s' c = (c <? RAMFS_DATA_START_BLOCK))
  ∧ (∀ n, valid_inode n → used_inode s' n = (n =? RAMFS_ROOT_INODE))
  ∧ free_blocks (rd_data s') = rd_block_count s - RAMFS_DATA_START_BLOCK
  ∧ free_inodes (rd_data s') = RAMFS_MAX_FILES - 1
  ∧ (∀ n, valid_inode n → ityp s' n = (if n =? RAMFS_ROOT_INODE then INODE_TYPE_DIR else INODE_TYPE_FREE)
       ∧ ∀ i, 0 <= i < RAMFS_DIRECT_BLOCKS → iblock s' n i = 0)
  ∧ isize s' RAMFS_ROOT_INODE = 0 ∧ iparent s' RAMFS_ROOT_INODE = RAMFS_ROOT_INODE.
Proof.
  intros Hm Hbc Hz. unfold s', formatted.
  destruct (new_superblock_view (rd_data s) (rd_block_count s) (fs_ticks s) Hm Hbc) as (A1 & B1 & C1 & D1 & E1).
  set (d1 := new_superblock _ _ _ _) in *. clearbody d1.
  destruct (mark_blocks d1 A1) as (A2 & B2 & C2).
  set (d2 := for_each _ _ _ d1) in *. clearbody d2.
  assert (Hr0 : valid_inode RAMFS_ROOT_INODE) by (unfold valid_inode; fs_consts; lia).
  pose proof (inode_at_range _ Hr0) as Hr.
  destruct (new_root_view d2 RAMFS_ROOT_INODE (fs_ticks s) A2) as (A3 & B3 & C3 & D3 & E3 & F3).
  set (d3 := new_root _ _ _) in *. clearbody d3. cbv zeta. set (s2 := Ramfs _ _ _ _ _ _).
  assert (Hd : ∀ x, x ≠ 176 → rd_data s2 x = d3 x) by (intros; by apply bitmap_set_other).
  split_and!.
  - by apply mem_wf_store.
  - intros c Hc. pose proof (bitmap_byte_range c Hc).
    transitivity (bitmap_test d2 SB_block_bitmap c).
    { apply bitmap_test_ext. rewrite Hd, B3; [done| |]; fs_consts; lia. }
    rewrite C2 by lia. assert (bitmap_test d1 SB_block_bitmap c = false) as ->.
    { rewrite bitmap_test_bit, D1, Z.bits_0 by (fs_consts; lia). done. }
    by rewrite orb_false_r.
  - intros n Hn. pose proof (inode_byte_range n Hn). unfold valid_inode in Hn.
    etransitivity; [by apply bitmap_test_set; [|lia]|].
    assert (bitmap_test d3 SB_inode_bitmap n = false) as ->; [|by rewrite orb_false_r].
    rewrite bitmap_test_bit, B3, B2, D1, Z.bits_0 by (fs_consts; lia). done.
  - rewrite <- B1. apply load_ext. intros x Hx. rewrite Hd, B3, B2; [done| | |]; fs_consts; lia.
  - rewrite <- C1. apply load_ext. intros x Hx. rewrite Hd, B3, B2; [done| | |]; fs_consts; lia.
  - intros n Hn. pose proof (inode_at_range n Hn). destruct (Z.eqb_spec n RAMFS_ROOT_INODE) as [->|Hne].
    + split; [rewrite <- C3|intros i Hi; rewrite <- (F3 i Hi)];
        apply load_ext; intros x Hx; apply Hd; fs_consts; lia.
    + pose proof (inode_at_disjoint n RAMFS_ROOT_INODE Hn Hr0 Hne).
      assert (Hzero : ∀ x, inode_at n <= x < inode_at n + 116 → rd_data s2 x = 0).
      { intros x Hx. rewrite Hd, B3, B2 by (fs_consts; lia).
        destruct (decide (x < 4104)); [apply D1; lia|]. rewrite E1 by lia. apply Hz. lia. }
      assert (Hl : ∀ a, inode_at n <= a → a + 4 <= inode_at n + 116 → load 4 (rd_data s2) a = 0).
      { intros a Ha1 Ha2. rewrite (load_ext 4 _ (λ _, 0) a); [done|]. intros x Hx. apply Hzero. lia. }
      split; [|intros i Hi]; apply Hl; fs_consts; lia.
  - rewrite <- D3. apply load_ext. intros x Hx. apply Hd. fs_consts. lia.
  - etransitivity; [|exact E3]. apply load_ext. intros x Hx. apply Hd. fs_consts. lia.
Qed.

Lemma formatted_wf s :
  mem_wf (rd_data s) → rd_initialized s = true →
  RAMFS_DATA_START_BLOCK <= rd_block_count s <= RAMFS_MAX_BLOCKS → is_u64 (fs_ticks s) →
  (∀ x, 4096 <= x < 36864 → rd_data s x = 0) → fs_wf (formatted s).
Proof.
  intros Hm Hi Hbc Htk Hz. destruct (formatted_view s Hm Hbc Hz) as (A & B & C & D & E & F & G & _).
  assert (Hr0 : valid_inode RAMFS_ROOT_INODE) by (unfold valid_inode; fs_consts; lia).
  assert (Ebc : rd_block_count (formatted s) = rd_block_count s) by done.
  constructor; [exact A|exact Hi|done|exact Hbc|exact Htk|..].
  - intros b Hb. rewrite B by (fs_consts; lia). apply Z.ltb_lt. lia.
  - rewrite D, Ebc. symmetry. etransitivity; [|apply countZ_below; fs_consts; lia].
    apply countZ_ext. intros c Hc. f_equal. apply B. lia.
  - rewrite E. symmetry. etransitivity; [|apply (countZ_below 1); fs_consts; lia].
    apply countZ_ext. intros n Hn. f_equal. etransitivity; [by apply C|].
    fs_consts. destruct (Z.eqb_spec n 0), (Z.ltb_spec n 1); try done; lia.
  - intros n Hn. rewrite C by done. destruct (F n Hn) as [-> _].
    destruct (n =? RAMFS_ROOT_INODE); auto.
  - rewrite C by done. destruct (F _ Hr0) as [-> _]. done.
  - intros n Hn Ht. destruct (F n Hn) as [E1 _]. rewrite E1 in Ht. by destruct (n =? RAMFS_ROOT_INODE).
  - intros n i Hn Hu Hir Hnz. destruct (F n Hn) as [_ Eb]. by rewrite Eb in Hnz.
  - intros n i m j Hn _ _ _ Hir _ Hnz. destruct (F n Hn) as [_ Eb]. by rewrite Eb in Hnz.
Qed.

(** ** Directories as byte sequences

    [file_byte s n] is the content of directory [n]: slot [e] is the 64-byte
    entry at offset [64 * e], and a slot in a hole reads as a free entry. *)

Definition DIR_SLOTS : Z := RAMFS_DIRECT_BLOCKS * DIRENTS_PER_BLOCK.
Definition slot (e : Z) : Z := sizeof_dirent * e.

(** The slot that holds [name]; what [name] is bound to; the first free slot. *)
Definition dir_slot (c : mem) (name : list Z) : option Z :=
  find_first 0 DIR_SLOTS (λ e, entry_matches c (slot e) name).
Definition dir_find (c : mem) (name : list Z) : option Z :=
  e ← dir_slot c name; Some (de_inode c (slot e)).
Definition dir_free_slot (c : mem) : option Z :=
  find_first 0 DIR_SLOTS (λ e, de_inode c (slot e) =? 0).

Lemma load_shift k m1 m2 a b :
  (∀ x, 0 <= x < Z.of_nat k → m1 (a + x) = m2 (b + x)) → load k m1 a = load k m2 b.
Proof.
  revert a b. induction k as [|k IH]; intros a b H; [done|]. rewrite !load_S.
  pose proof (H 0 ltac:(lia)) as H0. rewrite !Z.add_0_r in H0. rewrite H0.
  rewrite (IH (a + 1) (b + 1)); [done|]. intros x Hx.
  pose proof (H (x + 1) ltac:(lia)) as H1. by rewrite !Z.add_assoc, !(Z.add_shuffle0 _ x 1) in H1.
Qed.

Lemma read_bytes_shift m1 m2 a b k :
  (∀ x, 0 <= x < k → m1 (a + x) = m2 (b + x)) → read_bytes m1 a k = read_bytes m2 b k.
Proof.
  intros H. apply list_eq. intros j. destruct (decide (Z.of_nat j < k)).
  - rewrite !read_bytes_lookup by lia. f_equal. apply H. lia.
  - rewrite !lookup_ge_None_2; [done| |]; rewrite length_read_bytes; lia.
Qed.

(** Two memories that show the same entry match the same short names. *)
Lemma entry_matches_shift m1 m2 a b name :
  zlen name <= 56 → (∀ x, 0 <= x < 64 → m1 (a + x) = m2 (b + x)) →
  de_inode m1 a = de_inode m2 b ∧ entry_matches m1 a name = entry_matches m2 b name.
Proof.
  intros Hl H. assert (de_inode m1 a = de_inode m2 b) as E.
  { apply load_shift. intros x Hx. apply H. lia. }
  split; [done|]. unfold entry_matches, de_name_len, de_name. rewrite E.
  assert (load 1 m1 (a + 6) = load 1 m2 (b + 6)) as ->.
  { apply load_shift. intros x Hx. rewrite <- !Z.add_assoc. apply H. lia. }
  assert (read_bytes m1 (a + 8) (zlen name) = read_bytes m2 (b + 8) (zlen name)) as ->; [|done].
  apply read_bytes_shift. intros x Hx. rewrite <- !Z.add_assoc. apply H. lia.
Qed.

Lemma slot_position i j x :
  0 <= j < DIRENTS_PER_BLOCK → 0 <= x < 64 →
  (slot (64 * i + j) + x) / RAMFS_BLOCK_SIZE = i
  ∧ (slot (64 * i + j) + x) mod RAMFS_BLOCK_SIZE = 64 * j + x.
Proof.
  unfold slot. change DIRENTS_PER_BLOCK with 64. fs_consts. intros Hj Hx. split; symmetry.
  - apply (Z.div_unique_pos _ _ _ (64 * j + x)); lia.
  - apply (Z.mod_unique_pos _ _ i); lia.
Qed.

Lemma content_entry s n i j x :
  0 <= j < DIRENTS_PER_BLOCK → 0 <= x < 64 →
  file_byte s n (slot (64 * i + j) + x) =
    (if iblock s n i =? 0 then 0 else rd_data s (entry_at (RAMFS_BLOCK_SIZE * iblock s n i) j + x)).
Proof.
  intros Hj Hx. unfold file_byte. destruct (slot_position i j x Hj Hx) as [-> ->].
  destruct (iblock s n i =? 0); [done|]. f_equal. unfold entry_at. fs_consts. lia.
Qed.

Lemma hole_entry s n i j name :
  0 <= j < DIRENTS_PER_BLOCK → iblock s n i = 0 →
  de_inode (file_byte s n) (slot (64 * i + j)) = 0
  ∧ entry_matches (file_byte s n) (slot (64 * i + j)) name = false.
Proof.
  intros Hj E. assert (Hd : de_inode (file_byte s n) (slot (64 * i + j)) = 0).
  { unfold de_inode. rewrite (load_shift 4 _ (λ _, 0) _ 0); [done|]. intros x Hx.
    rewrite content_entry by lia. by rewrite E. }
  split; [done|]. unfold entry_matches. by rewrite Hd.
Qed.

(** A slot in a present block, in the content and on the disk. *)
Lemma present_entry s n i j name :
  0 <= j < DIRENTS_PER_BLOCK → iblock s n i ≠ 0 → zlen name <= 56 →
  let a := entry_at (RAMFS_BLOCK_SIZE * iblock s n i) j in
  de_inode (rd_data s) a = de_inode (file_byte s n) (slot (64 * i + j))
  ∧ entry_matches (rd_data s) a name = entry_matches (file_byte s n) (slot (64 * i + j)) name.
Proof.
  intros Hj Hnz Hl a. apply entry_matches_shift; [done|]. intros x Hx.
  rewrite content_entry by done. by rewrite (proj2 (Z.eqb_neq _ _) Hnz).
Qed.

Lemma slot_in_block e i : 0 <= i → 64 * i <= e < 64 * (i + 1) → ∃ j, 0 <= j < 64 ∧ e = 64 * i + j.
Proof. intros. exists (e - 64 * i). lia. Qed.

(** A loop over the blocks that leaves at the first slot satisfying [p] is a
    search over the slots. *)
Lemma block_search (p : Z → bool) (body : Z → unit → ctl unit Z) (f : Z → Z → Z) :
  (∀ i, 0 <= i < RAMFS_DIRECT_BLOCKS →
     match body i tt with
     | Next _ => ∀ j, 0 <= j < 64 → p (64 * i + j) = false
     | Stop a => ∃ j, 0 <= j < 64 ∧ a = f i j ∧ p (64 * i + j) = true
                 ∧ ∀ j', 0 <= j' < j → p (64 * i + j') = false
     end) →
  (match for_ 0 RAMFS_DIRECT_BLOCKS body tt with Stop a => Some a | Next _ => None end) =
  e ← find_first 0 DIR_SLOTS p; Some (f (e / 64) (e mod 64)).
Proof.
  intros Hbody. change DIR_SLOTS with (64 * RAMFS_DIRECT_BLOCKS).
  pose proof (for_inv (λ i (_ : unit), ∀ e, 0 <= e < 64 * i → p e = false)
    (λ i a, ∃ j, 0 <= j < 64 ∧ a = f i j ∧ find_first 0 (64 * RAMFS_DIRECT_BLOCKS) p = Some (64 * i + j))
    0 RAMFS_DIRECT_BLOCKS body tt ltac:(done) ltac:(cbv beta; intros; lia)) as H.
  assert (Hstep : ∀ i u, 0 <= i < RAMFS_DIRECT_BLOCKS → (∀ e, 0 <= e < 64 * i → p e = false) →
    match body i u with
    | Next _ => ∀ e, 0 <= e < 64 * (i + 1) → p e = false
    | Stop a => ∃ j, 0 <= j < 64 ∧ a = f i j
                ∧ find_first 0 (64 * RAMFS_DIRECT_BLOCKS) p = Some (64 * i + j)
    end).
  { intros i [] Hi HI. specialize (Hbody i Hi). destruct (body i tt) as [_|a].
    - intros e He. destruct (decide (e < 64 * i)); [apply HI; lia|].
      destruct (slot_in_block e i) as (j & Hj & ->); [lia|lia|]. by apply Hbody.
    - destruct Hbody as (j & Hj & -> & Hp & Hlt). exists j. split_and!; [lia|lia|done|].
      apply find_first_Some. split_and!; [fs_consts; lia|fs_consts; lia|done|].
      intros e He. destruct (decide (e < 64 * i)); [apply HI; lia|].
      destruct (slot_in_block e i) as (j' & Hj' & ->); [lia|lia|]. apply Hlt. lia. }
  specialize (H Hstep). destruct (for_ _ _ _ _) as [_|a].
  - by rewrite (proj2 (find_first_None _ _ _)).
  - destruct H as (i & Hi & j & Hj & -> & ->). rewrite bind_Some_eq. do 2 f_equal.
    + apply (Z.div_unique_pos _ _ _ j); lia.
    + apply (Z.mod_unique_pos _ _ i); lia.
Qed.

Lemma find_entry_slot s n name :
  fs_wf s → valid_inode n → used_inode s n = true → zlen name <= 56 →
  find_entry s (inode_at n) name =
    e ← dir_slot (file_byte s n) name;
    Some (entry_at (RAMFS_BLOCK_SIZE * iblock s n (e / 64)) (e mod 64)).
Proof.
  intros Hwf Hn Hu Hl.
  apply (block_search (λ e, entry_matches (file_byte s n) (slot e) name) _
           (λ i j, entry_at (RAMFS_BLOCK_SIZE * iblock s n i) j)).
  intros i Hi. cbv beta zeta. fold (iblock s n i).
  destruct (Z.eqb_spec (iblock s n i) 0) as [E0|E0].
  { intros j Hj. by apply hole_entry. }
  rewrite (get_owned_block s n i Hwf Hn Hu Hi E0 : ramfs_get_block s (iblock s n i) = _).
  change DIRENTS_PER_BLOCK with 64.
  pose proof (find_first_spec 0 64 (λ j, entry_matches (rd_data s)
    (entry_at (RAMFS_BLOCK_SIZE * iblock s n i) j) name)) as Hf.
  destruct (find_first 0 64 _) as [j|].
  - destruct Hf as (Hj & Hp & Hlt). exists j. split_and!; [lia|lia|done| |].
    + by rewrite <- (proj2 (present_entry s n i j name Hj E0 Hl)).
    + intros j' Hj'. rewrite <- (proj2 (present_entry s n i j' name ltac:(change DIRENTS_PER_BLOCK with 64; lia) E0 Hl)).
      by apply Hlt.
  - intros j Hj. rewrite <- (proj2 (present_entry s n i j name Hj E0 Hl)). by apply Hf.
Qed.

Lemma ramfs_dir_lookup_find s n name :
  fs_wf s → valid_inode n → ityp s n = INODE_TYPE_DIR → zlen name <= 56 →
  name ≠ [DOT] → name ≠ [DOT; DOT] →
  ramfs_dir_lookup s (Some (inode_at n)) name = dir_find (file_byte s n) name.
Proof.
  intros Hwf Hn Ht Hl H1 H2. unfold ramfs_dir_lookup. fold (ityp s n). rewrite Ht.
  change (negb (INODE_TYPE_DIR =? INODE_TYPE_DIR)) with false. cbv iota.
  rewrite !bool_decide_eq_false_2 by done.
  assert (Hu : used_inode s n = true) by (by apply used_of_type; [..|rewrite Ht]).
  rewrite find_entry_slot by done. unfold dir_find.
  destruct (dir_slot (file_byte s n) name) as [e|] eqn:E; [|done]. rewrite !bind_Some_eq. f_equal.
  apply find_first_Some in E as (He & Hp & _).
  assert (0 <= e mod 64 < 64) as Hj by (by apply Z.mod_pos_bound).
  assert (e = 64 * (e / 64) + e mod 64) as Ee by (by apply Z.div_mod).
  rewrite Ee at 3. destruct (decide (iblock s n (e / 64) = 0)) as [E0|E0].
  - rewrite Ee in Hp. by rewrite (proj2 (hole_entry s n _ _ name Hj E0)) in Hp.
  - by apply (present_entry s n _ _ name Hj E0 Hl).
Qed.

(** Entry writes are the same at every position. *)
Lemma store_shift k m1 m2 a b v off x :
  m1 (a + x) = m2 (b + x) → store k m1 (a + off) v (a + x) = store k m2 (b + off) v (b + x).
Proof.
  intros H. unfold store, in_range.
  replace (a + x <? a + off + k) with (b + x <? b + off + k)
    by (destruct (Z.ltb_spec (b + x) (b + off + k)), (Z.ltb_spec (a + x) (a + off + k)); done || lia).
  replace (a + off <=? a + x) with (b + off <=? b + x)
    by (destruct (Z.leb_spec (b + off) (b + x)), (Z.leb_spec (a + off) (a + x)); done || lia).
  destruct (_ && _); [|done]. f_equal. lia.
Qed.

Lemma write_bytes_shift m1 m2 a b bs off x :
  m1 (a + x) = m2 (b + x) → write_bytes m1 (a + off) bs (a + x) = write_bytes m2 (b + off) bs (b + x).
Proof.
  intros H. unfold write_bytes, in_range. set (k := Z.of_nat _).
  replace (a + x <? a + off + k) with (b + x <? b + off + k)
    by (destruct (Z.ltb_spec (b + x) (b + off + k)), (Z.ltb_spec (a + x) (a + off + k)); done || lia).
  replace (a + off <=? a + x) with (b + off <=? b + x)
    by (destruct (Z.leb_spec (b + off) (b + x)), (Z.leb_spec (a + off) (a + x)); done || lia).
  destruct (_ && _); [|done]. do 2 f_equal. lia.
Qed.

Lemma write_entry_shift m1 m2 a b name inode type x :
  m1 (a + x) = m2 (b + x) →
  write_entry m1 a name inode type (a + x) = write_entry m2 b name inode type (b + x).
Proof.
  intros H. unfold write_entry, de_name.
  pose proof (λ k m1 m2 v, store_shift k m1 m2 a b v 0 x) as H0.
  rewrite <- (Z.add_assoc a), <- (Z.add_assoc b). apply store_shift, write_bytes_shift.
  apply store_shift, store_shift, store_shift. rewrite !Z.add_0_r in H0. by apply H0.
Qed.

(** A directory entry written with a name that fits. *)
Lemma write_entry_view c a name inode type (c' := write_entry c a name inode type) :
  zlen name <= 55 → is_u32 inode → inode ≠ 0 →
  changed c c' a 64 ∧ de_inode c' a = inode
  ∧ ∀ name', zlen name' <= 56 → entry_matches c' a name' = bool_decide (name' = name).
Proof.
  intros Hl Hi Hnz. assert (Hz : 0 <= zlen name) by (unfold zlen; lia).
  assert (Hin : de_inode c' a = inode).
  { unfold de_inode, c', write_entry, de_name, zlen in *.
    rewrite load_store_ne by lia. rewrite load_write_bytes_ne by lia.
    rewrite !load_store_ne by lia. by rewrite load32_store32. }
  assert (Hnl : de_name_len c' a = zlen name).
  { unfold de_name_len, c', write_entry, de_name, zlen in *.
    rewrite load_store_ne by lia. rewrite load_write_bytes_ne by lia. rewrite load_store_ne by lia.
    rewrite u8_id by lia. apply load8_store8. unfold is_u8. lia. }
  assert (Hnm : read_bytes c' (de_name a) (zlen name) = name).
  { unfold c', write_entry, zlen. rewrite (read_bytes_ext _
      (write_bytes (store8 (store8 (store16 (store32 c a inode) (a + 4) sizeof_dirent) (a + 6)
        (u8 (Z.of_nat (length name)))) (a + 7) (u8 type)) (de_name a) name)).
    - apply read_write_bytes.
    - intros x Hx. apply store_ne. lia. }
  split_and!; [|done|].
  - unfold c', write_entry, de_name, zlen in *.
    eapply changed_trans; [|apply (changed_store 1); lia].
    eapply changed_trans; [|apply changed_write_bytes; unfold zlen; lia].
    eapply changed_trans; [|apply (changed_store 1); lia].
    eapply changed_trans; [|apply (changed_store 1); lia].
    eapply changed_trans; [|apply (changed_store 2); lia]. apply (changed_store 4); lia.
  - intros name' Hl'. unfold entry_matches. rewrite Hin, Hnl, (proj2 (Z.eqb_neq _ _) Hnz). simpl.
    destruct (Z.eqb_spec (zlen name) (zlen name')) as [E|E]; simpl.
    + rewrite <- E, Hnm. apply bool_decide_ext. split; congruence.
    + symmetry. apply bool_decide_eq_false_2. congruence.
Qed.

(** Slots other than the written one are untouched. *)
Lemma slot_changed c c' e e' name :
  changed c c' (slot e) 64 → e' ≠ e → zlen name <= 56 →
  de_inode c' (slot e') = de_inode c (slot e')
  ∧ entry_matches c' (slot e') name = entry_matches c (slot e') name.
Proof.
  intros Hch Hne Hl. apply entry_matches_shift; [done|]. intros x Hx. apply Hch.
  unfold slot. fs_consts. lia.
Qed.

Lemma free_slot_no_match c e name : de_inode c (slot e) = 0 → entry_matches c (slot e) name = false.
Proof. intros E. unfold entry_matches. by rewrite E. Qed.

(** *** Directory contents as finite maps from names to inode numbers *)

Lemma dir_find_ext c c' name :
  zlen name <= 56 → (∀ o, 0 <= o < MAX_FILE_SIZE → c' o = c o) → dir_find c' name = dir_find c name.
Proof.
  intros Hl H. assert (Hs : ∀ e, 0 <= e < DIR_SLOTS →
    de_inode c' (slot e) = de_inode c (slot e)
    ∧ entry_matches c' (slot e) name = entry_matches c (slot e) name).
  { intros e He. apply entry_matches_shift; [done|]. intros x Hx. apply H.
    change DIR_SLOTS with 768 in He. unfold slot. fs_consts. lia. }
  unfold dir_find, dir_slot. rewrite (find_first_ext _ _ _ (λ e, entry_matches c (slot e) name)).
  - destruct (find_first _ _ _) as [e|] eqn:E; [|done]. rewrite !bind_Some_eq. f_equal.
    apply find_first_Some in E as [He _]. by apply Hs.
  - intros e He. by apply Hs.
Qed.

Lemma entry_matches_name c a name name' :
  entry_matches c a name = true → entry_matches c a name' = true → name = name'.
Proof.
  unfold entry_matches. rewrite !andb_true_iff, !bool_decide_eq_true, !Z.eqb_eq.
  intros ((_ & L1) & E1) ((_ & L2) & E2). rewrite <- L1, L2 in E1. congruence.
Qed.

(** Adding an entry in a free slot for a name that is not bound binds it and
    changes no other binding. *)
Lemma dir_find_added c e name inode type name' :
  0 <= e < DIR_SLOTS → de_inode c (slot e) = 0 → dir_find c name = None →
  zlen name <= 55 → zlen name' <= 56 → is_u32 inode → inode ≠ 0 →
  dir_find (write_entry c (slot e) name inode type) name' =
    if decide (name' = name) then Some inode else dir_find c name'.
Proof.
  intros He Hfree Hno Hl Hl' Hi Hnz.
  destruct (write_entry_view c (slot e) name inode type Hl Hi Hnz) as (Hch & Hin & Hm).
  set (c' := write_entry _ _ _ _ _) in *. unfold dir_find, dir_slot in *.
  destruct (decide (name' = name)) as [->|Hne].
  - destruct (find_first 0 DIR_SLOTS (λ e, entry_matches c (slot e) name)) as [|] eqn:E0; [done|].
    assert (find_first 0 DIR_SLOTS (λ e, entry_matches c' (slot e) name) = Some e) as ->; [|by simpl; rewrite Hin].
    apply find_first_Some. split_and!; [lia|lia|by rewrite Hm, bool_decide_eq_true|].
    intros e' He'. rewrite (proj2 (slot_changed c c' e e' name Hch ltac:(lia) Hl')).
    apply (proj1 (find_first_None _ _ _) E0). lia.
  - assert (Hsame : ∀ e', entry_matches c' (slot e') name' = entry_matches c (slot e') name').
    { intros e'. destruct (decide (e' = e)) as [->|Hee]; [|by apply (slot_changed c c' e)].
      rewrite Hm by done. rewrite bool_decide_eq_false_2 by done. by rewrite free_slot_no_match. }
    rewrite (find_first_ext _ _ _ (λ e, entry_matches c (slot e) name')) by (intros; apply Hsame).
    destruct (find_first 0 DIR_SLOTS (λ e, entry_matches c (slot e) name')) as [e'|] eqn:E; [|done]. rewrite !bind_Some_eq. f_equal.
    apply find_first_Some in E as (_ & Hp & _). apply (slot_changed c c' e e' name' Hch); [|done].
    intros ->. cbv beta in Hp. by rewrite free_slot_no_match in Hp by done.
Qed.

(** No name is bound in two slots. *)
Definition names_unique (c : mem) : Prop :=
  ∀ e e' name, 0 <= e < DIR_SLOTS → 0 <= e' < DIR_SLOTS → zlen name <= 56 →
    entry_matches c (slot e) name = true → entry_matches c (slot e') name = true → e = e'.

Lemma fill_entry_view c e (c' := fill c (slot e) 0 sizeof_dirent) :
  changed c c' (slot e) 64 ∧ de_inode c' (slot e) = 0.
Proof. split; [apply changed_fill; fs_consts; lia|apply load_fill_0; fs_consts; lia]. Qed.

Lemma dir_find_removed c e name name' :
  names_unique c → dir_slot c name = Some e → zlen name <= 56 → zlen name' <= 56 →
  dir_find (fill c (slot e) 0 sizeof_dirent) name' =
    if decide (name' = name) then None else dir_find c name'.
Proof.
  intros Huq Hsl Hl Hl'. destruct (fill_entry_view c e) as [Hch Hz].
  set (c' := fill _ _ _ _) in *. unfold dir_find, dir_slot in *.
  apply find_first_Some in Hsl as (He & Hp & _).
  assert (Hsame : ∀ e', 0 <= e' < DIR_SLOTS → entry_matches c' (slot e') name' =
    if decide (name' = name) then false else entry_matches c (slot e') name').
  { intros e' He'. destruct (decide (e' = e)) as [->|Hee].
    - rewrite free_slot_no_match by done. destruct (decide (name' = name)); [done|].
      destruct (entry_matches c (slot e) name') eqn:E; [|done].
      by destruct n; eapply entry_matches_name.
    - rewrite (proj2 (slot_changed c c' e e' name' Hch Hee Hl')).
      destruct (decide (name' = name)) as [->|]; [|done].
      destruct (entry_matches c (slot e') name) eqn:E; [|done]. destruct Hee. by apply (Huq e' e name). }
  rewrite (find_first_ext _ _ _ _ Hsame). destruct (decide (name' = name)) as [->|Hne].
  - by rewrite (proj2 (find_first_None _ _ _)).
  - destruct (find_first _ _ _) as [e'|] eqn:E; [|done]. rewrite !bind_Some_eq. f_equal.
    apply find_first_Some in E as (_ & Hp' & _). apply (slot_changed c c' e e' name' Hch); [|done].
    intros ->. destruct Hne. by eapply entry_matches_name.
Qed.

Lemma names_unique_added c e name inode type :
  names_unique c → 0 <= e < DIR_SLOTS → dir_find c name = None →
  zlen name <= 55 → is_u32 inode → inode ≠ 0 →
  names_unique (write_entry c (slot e) name inode type).
Proof.
  intros Huq He Hno Hl Hi Hnz.
  destruct (write_entry_view c (slot e) name inode type Hl Hi Hnz) as (Hch & _ & Hm).
  set (c' := write_entry _ _ _ _ _) in *.
  assert (Hnone : ∀ e', 0 <= e' < DIR_SLOTS → entry_matches c (slot e') name = false).
  { unfold dir_find, dir_slot in Hno. destruct (find_first _ _ _) eqn:E; [done|].
    exact (proj1 (find_first_None _ _ _) E). }
  intros e1 e2 nm H1 H2 Hnm. destruct (decide (e1 = e)) as [->|Hne1], (decide (e2 = e)) as [->|Hne2]; try done.
  - rewrite Hm by done. rewrite bool_decide_eq_true. intros ->.
    rewrite (proj2 (slot_changed c c' e e2 name Hch Hne2 Hnm)). by rewrite Hnone.
  - rewrite (Hm nm) by done. rewrite bool_decide_eq_true. intros E ->. revert E.
    rewrite (proj2 (slot_changed c c' e e1 name Hch Hne1 Hnm)). by rewrite Hnone.
  - rewrite (proj2 (slot_changed c c' e e1 nm Hch Hne1 Hnm)), (proj2 (slot_changed c c' e e2 nm Hch Hne2 Hnm)).
    by apply Huq.
Qed.

(** *** The directory operations on the disk *)

(** Rewriting slot [64*i+j] of directory [n], then its size and time. *)
Lemma dir_update_kept s d1 n i j v
    (d2 := store64 d1 (inode_at n + IN_size) v)
    (s' := with_data s (store64 d2 (inode_at n + IN_modified) (fs_ticks s))) :
  fs_wf s → valid_inode n → ityp s n = INODE_TYPE_DIR →
  0 <= i < RAMFS_DIRECT_BLOCKS → 0 <= j < DIRENTS_PER_BLOCK → iblock s n i ≠ 0 →
  mem_wf d1 → changed (rd_data s) d1 (entry_at (RAMFS_BLOCK_SIZE * iblock s n i) j) 64 →
  fs_wf s' ∧ ityp s' n = INODE_TYPE_DIR
  ∧ (∀ m, valid_inode m → used_inode s' m = used_inode s m)
  ∧ (∀ o, 0 <= o < MAX_FILE_SIZE → file_byte s' n o =
       if decide (o / RAMFS_BLOCK_SIZE = i)
       then d1 (RAMFS_BLOCK_SIZE * iblock s n i + (o - RAMFS_BLOCK_SIZE * i)) else file_byte s n o)
  ∧ others_kept n s s'.
Proof.
  intros Hwf Hn Ht Hi Hj Hnz Hm Hch. change DIRENTS_PER_BLOCK with 64 in Hj.
  assert (Hu : used_inode s n = true) by (by apply used_of_type; [..|rewrite Ht]).
  assert (Hbo : 0 <= 64 * j) by lia.
  assert (Hle : 64 * j + 64 <= RAMFS_BLOCK_SIZE) by (fs_consts; lia).
  change (entry_at (RAMFS_BLOCK_SIZE * iblock s n i) j) with (RAMFS_BLOCK_SIZE * iblock s n i + 64 * j) in Hch.
  set (s1 := with_data s d1).
  pose proof (block_write_wf s d1 n i (64 * j) 64 Hwf Hn Hu Hi Hnz Hbo Hch Hm : fs_wf s1) as Hwf1.
  pose proof (block_write_fields s d1 n i (64 * j) 64 Hwf Hn Hu Hi Hnz Hbo Hch) as Hf1. fold s1 in Hf1.
  pose proof (block_write_bytes s d1 n i (64 * j) 64 Hwf Hn Hu Hi Hnz Hbo Hle Hch) as Hb1. fold s1 in Hb1.
  pose proof (block_write_others s d1 n i (64 * j) 64 Hwf Hn Hu Hi Hnz Hbo Hle Hch : others_kept n s s1) as Ho1.
  destruct (Hf1 n Hn) as (Eu1 & Et1 & _ & _ & Eb1).
  assert (Hu1 : used_inode s1 n = true) by (by rewrite Eu1).
  assert (Ht1 : ityp s1 n = INODE_TYPE_DIR) by (by rewrite Et1).
  assert (IN_size = 16 ∧ IN_modified = 32) as [E16 E32] by done.
  assert (Hch2 : changed (rd_data s1) (rd_data s') (inode_at n + 16) 24).
  { eapply changed_trans; apply (changed_store 8); lia. }
  assert (Hch3 : changed (rd_data s1) (rd_data s') (inode_at n) 116)
    by (apply (changed_weaken _ _ _ _ _ _ Hch2); lia).
  assert (Hbl : ∀ k, 0 <= k < RAMFS_DIRECT_BLOCKS → iblock s' n k = iblock s1 n k)
    by (intros; apply (iblock_field _ _ _ _ _ Hch2); [lia|done]).
  assert (Hty : ityp s' n = ityp s1 n) by (apply (ityp_field _ _ _ _ _ Hch2); lia).
  pose proof (inode_at_range n Hn). split_and!.
  - apply (inode_change_wf s1 s' n); try done.
    + by apply mem_wf_store, mem_wf_store.
    + by rewrite Ht1.
  - congruence.
  - intros m Hm0. rewrite (used_inode_frame _ _ _ _ Hch3) by (done || lia). by apply Hf1.
  - intros o Ho. rewrite (inode_change_bytes s1 s' n o) by done. by apply Hb1.
  - eapply others_kept_trans; [exact Ho1|]. by apply inode_change_kept.
Qed.

Lemma entry_addr s n i j x :
  RAMFS_BLOCK_SIZE * iblock s n i + (slot (64 * i + j) + x - RAMFS_BLOCK_SIZE * i)
  = entry_at (RAMFS_BLOCK_SIZE * iblock s n i) j + x.
Proof. unfold slot, entry_at. fs_consts. lia. Qed.

(** An update of the entry on the disk is the same update of the content. *)
Lemma entry_update_content s n i j (f : mem → Z → mem) (d1 := f (rd_data s) (entry_at (RAMFS_BLOCK_SIZE * iblock s n i) j)) o :
  0 <= j < DIRENTS_PER_BLOCK → iblock s n i ≠ 0 →
  (∀ m a, changed m (f m a) a 64) →
  (∀ m1 m2 a b x, m1 (a + x) = m2 (b + x) → f m1 a (a + x) = f m2 b (b + x)) →
  0 <= o < MAX_FILE_SIZE →
  (if decide (o / RAMFS_BLOCK_SIZE = i)
   then d1 (RAMFS_BLOCK_SIZE * iblock s n i + (o - RAMFS_BLOCK_SIZE * i)) else file_byte s n o)
  = f (file_byte s n) (slot (64 * i + j)) o.
Proof.
  intros Hj Hnz Hch Hsh Ho. destruct (decide (o / RAMFS_BLOCK_SIZE = i)) as [Ei|Ei].
  - pose proof (Z.div_mod o RAMFS_BLOCK_SIZE ltac:(done)) as Hdm. rewrite Ei in Hdm.
    set (x := o - slot (64 * i + j)). replace o with (slot (64 * i + j) + x) by lia.
    rewrite entry_addr. apply Hsh. unfold file_byte.
    replace (slot (64 * i + j) + x) with o by lia. rewrite Ei, (proj2 (Z.eqb_neq _ _) Hnz). f_equal.
    unfold x, entry_at, slot. fs_consts. lia.
  - symmetry. apply Hch. destruct (decide (slot (64 * i + j) <= o < slot (64 * i + j) + 64)) as [Hin|]; [|lia].
    destruct Ei. replace o with (slot (64 * i + j) + (o - slot (64 * i + j))) by lia.
    apply slot_position; lia.
Qed.

(** The content of directory [n] becomes [c'], and nothing else changes. *)
Record dir_becomes (s s' : ramfs) (n : Z) (c' : mem) : Prop := DirBecomes {
  db_wf : fs_wf s';
  db_type : ityp s' n = INODE_TYPE_DIR;
  db_used : ∀ m, valid_inode m → used_inode s' m = used_inode s m;
  db_content : ∀ o, 0 <= o < MAX_FILE_SIZE → file_byte s' n o = c' o;
  db_others : others_kept n s s'
}.

Lemma ensure_block_present s ip i : inode_block (rd_data s) ip i ≠ 0 → ensure_block s ip i = (true, s).
Proof. intros H. unfold ensure_block. by rewrite (proj2 (Z.eqb_neq _ _) H). Qed.

Lemma mem_wf_write_entry d a name inode type :
  mem_wf d → Forall (λ b, 0 <= b < 256) name → mem_wf (write_entry d a name inode type).
Proof.
  intros. unfold write_entry. apply mem_wf_store, mem_wf_write_bytes; [|done].
  by repeat apply mem_wf_store.
Qed.

Lemma write_entry_ext c1 c2 a name inode type x :
  c1 x = c2 x → write_entry c1 a name inode type x = write_entry c2 a name inode type x.
Proof.
  intros H. pose proof (write_entry_shift c1 c2 a a name inode type (x - a)) as H1.
  replace (a + (x - a)) with x in H1 by lia. auto.
Qed.

Lemma dir_becomes_added s s2 n i j name inode type v :
  block_ready n i s s2 → fs_wf s → valid_inode n → ityp s n = INODE_TYPE_DIR →
  0 <= i < RAMFS_DIRECT_BLOCKS → 0 <= j < DIRENTS_PER_BLOCK →
  zlen name <= 55 → Forall (λ b, 0 <= b < 256) name → is_u32 inode → inode ≠ 0 →
  let d1 := write_entry (rd_data s2) (entry_at (RAMFS_BLOCK_SIZE * iblock s2 n i) j) name inode type in
  let d2 := store64 d1 (inode_at n + IN_size) v in
  dir_becomes s (with_data s2 (store64 d2 (inode_at n + IN_modified) (fs_ticks s2))) n
    (write_entry (file_byte s n) (slot (64 * i + j)) name inode type).
Proof.
  intros Hbr Hwf Hn Ht Hi Hj Hl Hbytes Hino Hnz d1 d2.
  pose proof (br_wf _ _ _ _ Hbr) as Hwf2. pose proof (br_block _ _ _ _ Hbr) as Hb.
  assert (Ht2 : ityp s2 n = INODE_TYPE_DIR) by (by rewrite (br_type _ _ _ _ Hbr)).
  assert (Hch : ∀ m a, changed m (write_entry m a name inode type) a 64)
    by (intros; by apply write_entry_view).
  destruct (dir_update_kept s2 d1 n i j v) as (A & B & C & D & E); try done.
  { apply mem_wf_write_entry; [exact (fw_mem s2 Hwf2)|done]. } { apply Hch. }
  constructor; [done|done| | |].
  - intros m Hm. rewrite C by done. by apply (br_used _ _ _ _ Hbr).
  - intros o Ho. rewrite D by done.
    etransitivity.
    { apply (entry_update_content s2 n i j (λ m a, write_entry m a name inode type) o); try done.
      intros. by apply write_entry_shift. }
    apply write_entry_ext. by apply (br_bytes _ _ _ _ Hbr).
  - eapply others_kept_trans; [exact (br_others _ _ _ _ Hbr)|done].
Qed.

Section dir_add.
Context (s : ramfs) (n : Z) (name : list Z) (inode type : Z).
Hypothesis Hwf : fs_wf s.
Hypothesis Hn : valid_inode n.
Hypothesis Ht : ityp s n = INODE_TYPE_DIR.
Hypothesis Hl : zlen name <= 55.
Hypothesis Hbytes : Forall (λ b, 0 <= b < 256) name.
Hypothesis Hino : is_u32 inode.
Hypothesis Hnz : inode ≠ 0.

Lemma add_step_cases i :
  0 <= i < RAMFS_DIRECT_BLOCKS →
  match add_step (inode_at n) name inode type i s with
  | Next s' => s' = s ∧ ∀ j, 0 <= j < 64 → de_inode (file_byte s n) (slot (64 * i + j)) ≠ 0
  | Stop (false, s') => s' = s ∧ free_blocks (rd_data s) = 0
  | Stop (true, s') => ∃ j, 0 <= j < 64 ∧ de_inode (file_byte s n) (slot (64 * i + j)) = 0
      ∧ (∀ j', 0 <= j' < j → de_inode (file_byte s n) (slot (64 * i + j')) ≠ 0)
      ∧ dir_becomes s s' n (write_entry (file_byte s n) (slot (64 * i + j)) name inode type)
  end.
Proof using All.
  intros Hi. assert (Hu : used_inode s n = true) by (by apply used_of_type; [..|rewrite Ht]).
  unfold add_step. pose proof (ensure_block_cases s n i Hwf Hn Hu Hi) as He.
  pose proof (ensure_block_present s (inode_at n) i) as Hp.
  destruct (ensure_block s (inode_at n) i) as [[] s2]; [|done].
  cbn [negb]. cbv iota. assert (Hu2 : used_inode s2 n = true) by (by rewrite (br_used _ _ _ _ He)).
  pose proof (br_wf _ _ _ _ He) as Hwf2. pose proof (br_block _ _ _ _ He) as Hb2.
  rewrite get_owned_block by done. change DIRENTS_PER_BLOCK with 64.
  assert (Hent : ∀ j, 0 <= j < 64 → de_inode (rd_data s2) (entry_at (RAMFS_BLOCK_SIZE * iblock s2 n i) j)
    = de_inode (file_byte s n) (slot (64 * i + j))).
  { intros j Hj. rewrite (proj1 (present_entry s2 n i j [] Hj Hb2 ltac:(done))). apply load_ext.
    intros x Hx. apply (br_bytes _ _ _ _ He). unfold slot in Hx. fs_consts. lia. }
  pose proof (find_first_spec 0 64 (λ j, de_inode (rd_data s2)
    (entry_at (RAMFS_BLOCK_SIZE * iblock s2 n i) j) =? 0)) as Hf.
  destruct (find_first 0 64 _) as [j|].
  - destruct Hf as (Hj & Hz%Z.eqb_eq & Hlt). exists j. rewrite Hent in Hz by done. split_and!; try done; try lia.
    + intros j' Hj'. specialize (Hlt j' Hj'). apply Z.eqb_neq in Hlt. by rewrite Hent in Hlt by lia.
    + by apply dir_becomes_added.
  - assert (Hocc : ∀ j, 0 <= j < 64 → de_inode (file_byte s n) (slot (64 * i + j)) ≠ 0).
    { intros j Hj. rewrite <- Hent by done. apply Z.eqb_neq. by apply Hf. }
    split; [|done]. destruct (decide (iblock s n i = 0)) as [E0|E0].
    + destruct (Hocc 0); [lia|]. by apply (hole_entry s n i 0 []).
    + specialize (Hp E0). congruence.
Qed.

(** The whole search: the first free slot, unless the disk has no block for it. *)
Lemma add_loop_cases :
  match for_ 0 RAMFS_DIRECT_BLOCKS (add_step (inode_at n) name inode type) s with
  | Next s' => s' = s ∧ dir_free_slot (file_byte s n) = None
  | Stop (false, s') => s' = s ∧ free_blocks (rd_data s) = 0
  | Stop (true, s') => ∃ e, dir_free_slot (file_byte s n) = Some e
      ∧ dir_becomes s s' n (write_entry (file_byte s n) (slot e) name inode type)
  end.
Proof using All.
  set (c := file_byte s n). set (body := add_step (inode_at n) name inode type).
  pose (I := λ i s', s' = s ∧ ∀ e, 0 <= e < 64 * i → de_inode c (slot e) ≠ 0).
  pose (Q := λ (_ : Z) (r : bool * ramfs),
    if r.1 then ∃ e, dir_free_slot c = Some e
                     ∧ dir_becomes s r.2 n (write_entry c (slot e) name inode type)
    else r.2 = s ∧ free_blocks (rd_data s) = 0).
  assert (Hstep : ∀ i s1, 0 <= i < RAMFS_DIRECT_BLOCKS → I i s1 →
    match body i s1 with Next s2 => I (i + 1) s2 | Stop r => Q i r end).
  { intros i s1 Hi [-> Hocc]. pose proof (add_step_cases i Hi) as Hs. fold body in Hs.
    destruct (body i s) as [s1|[[] s1]].
    - destruct Hs as [-> Hj]. split; [done|]. intros e He.
      destruct (decide (e < 64 * i)); [apply Hocc; lia|].
      destruct (slot_in_block e i) as (j & Hjr & ->); [lia|lia|]. by apply Hj.
    - destruct Hs as (j & Hj & Hz & Hlt & Hdb). exists (64 * i + j). split; [|done].
      apply find_first_Some. change DIR_SLOTS with (64 * RAMFS_DIRECT_BLOCKS).
      split_and!; [lia|lia|by apply Z.eqb_eq|]. intros e He. apply Z.eqb_neq.
      destruct (decide (e < 64 * i)); [apply Hocc; lia|].
      destruct (slot_in_block e i) as (j' & Hjr & ->); [lia|lia|]. apply Hlt. lia.
    - exact Hs. }
  assert (HI0 : I 0 s) by (split; [done|lia]).
  pose proof (for_inv I Q 0 RAMFS_DIRECT_BLOCKS body s ltac:(done) HI0 Hstep) as H.
  destruct (for_ 0 RAMFS_DIRECT_BLOCKS body s) as [s'|[[] s']].
  - destruct H as [-> Hocc]. split; [done|]. apply find_first_None. intros e He. apply Z.eqb_neq.
    apply Hocc. exact He.
  - by destruct H as (i & _ & H).
  - by destruct H as (i & _ & H).
Qed.

End dir_add.

Lemma ramfs_dir_add_entry_cases s n name inode type :
  fs_wf s → valid_inode n → ityp s n = INODE_TYPE_DIR →
  1 <= zlen name <= 55 → Forall (λ b, 0 <= b < 256) name → name ≠ [DOT] → name ≠ [DOT; DOT] →
  is_u32 inode → inode ≠ 0 →
  match ramfs_dir_add_entry s (Some (inode_at n)) name inode type with
  | (true, s') => ∃ e, dir_free_slot (file_byte s n) = Some e ∧ dir_find (file_byte s n) name = None
      ∧ dir_becomes s s' n (write_entry (file_byte s n) (slot e) name inode type)
  | (false, s') => s' = s ∧ (is_Some (dir_find (file_byte s n) name)
      ∨ dir_free_slot (file_byte s n) = None ∨ free_blocks (rd_data s) = 0)
  end.
Proof.
  intros Hwf Hn Ht Hl Hb H1 H2 Hi Hnz. unfold ramfs_dir_add_entry. fold (ityp s n). rewrite Ht.
  change (negb (INODE_TYPE_DIR =? INODE_TYPE_DIR)) with false. cbv iota.
  rewrite (proj2 (Z.eqb_neq (zlen name) 0)), (proj2 (Z.leb_gt RAMFS_MAX_FILENAME (zlen name)))
    by (unfold RAMFS_MAX_FILENAME; lia). cbn [orb].
  rewrite ramfs_dir_lookup_find by (done || lia).
  destruct (dir_find (file_byte s n) name) as [x|]; [eauto|].
  pose proof (add_loop_cases s n name inode type Hwf Hn Ht ltac:(lia) Hb Hi Hnz) as H.
  destruct (for_ _ _ _ _) as [s'|[[] s']].
  - destruct H as [-> H]. auto.
  - destruct H as (e & He & Hd). eauto.
  - destruct H as [-> H]. auto.
Qed.

Lemma fill_shift m1 m2 a b v k x :
  m1 (a + x) = m2 (b + x) → fill m1 a v k (a + x) = fill m2 b v k (b + x).
Proof.
  intros H. unfold fill, in_range.
  replace (a + x <? a + k) with (b + x <? b + k)
    by (destruct (Z.ltb_spec (b + x) (b + k)), (Z.ltb_spec (a + x) (a + k)); done || lia).
  replace (a <=? a + x) with (b <=? b + x)
    by (destruct (Z.leb_spec b (b + x)), (Z.leb_spec a (a + x)); done || lia).
  by destruct (_ && _).
Qed.

Lemma ramfs_dir_remove_entry_cases s n name :
  fs_wf s → valid_inode n → ityp s n = INODE_TYPE_DIR → zlen name <= 56 →
  match dir_slot (file_byte s n) name with
  | None => ramfs_dir_remove_entry s (Some (inode_at n)) name = (false, s)
  | Some e => ∃ s', ramfs_dir_remove_entry s (Some (inode_at n)) name = (true, s')
      ∧ dir_becomes s s' n (fill (file_byte s n) (slot e) 0 sizeof_dirent)
  end.
Proof.
  intros Hwf Hn Ht Hl. unfold ramfs_dir_remove_entry. fold (ityp s n). rewrite Ht.
  change (negb (INODE_TYPE_DIR =? INODE_TYPE_DIR)) with false. cbv iota.
  assert (Hu : used_inode s n = true) by (by apply used_of_type; [..|rewrite Ht]).
  rewrite find_entry_slot by done.
  destruct (dir_slot (file_byte s n) name) as [e|] eqn:E; [|done]. rewrite bind_Some_eq.
  apply find_first_Some in E as (He & Hp & _). cbv beta in Hp.
  assert (Hj : 0 <= e mod 64 < DIRENTS_PER_BLOCK) by (by apply Z.mod_pos_bound).
  assert (Ee : e = 64 * (e / 64) + e mod 64) by (by apply Z.div_mod).
  assert (Hi : 0 <= e / 64 < RAMFS_DIRECT_BLOCKS).
  { change DIR_SLOTS with (64 * RAMFS_DIRECT_BLOCKS) in He.
    change DIRENTS_PER_BLOCK with 64 in Hj. lia. }
  set (i := e / 64) in *. set (j := e mod 64) in *.
  assert (Hnz : iblock s n i ≠ 0).
  { intros E0. rewrite Ee in Hp. by rewrite (proj2 (hole_entry s n i j name Hj E0)) in Hp. }
  eexists. split; [done|].
  assert (Hch : ∀ m a, changed m (fill m a 0 sizeof_dirent) a 64)
    by (intros; apply changed_fill; fs_consts; lia).
  set (d1 := fill (rd_data s) _ 0 sizeof_dirent).
  destruct (dir_update_kept s d1 n i j (inode_size d1 (inode_at n) -64 sizeof_dirent))
    as (A & B & C & D & F); try done.
  { apply mem_wf_fill. exact (fw_mem s Hwf). } { apply Hch. }
  constructor; try done. intros o Ho. rewrite D by done. rewrite Ee.
  apply (entry_update_content s n i j (λ m a, fill m a 0 sizeof_dirent) o); try done.
  intros. by apply fill_shift.
Qed.

(** ** The filesystem invariant *)

(** A change confined to the data area, whatever it writes there. *)
Lemma data_change_wf s d' a k :
  fs_wf s → changed (rd_data s) d' a k → 36864 <= a → mem_wf d' → fs_wf (with_data s d').
Proof.
  intros Hwf Hch Ha Hm. set (s' := with_data s d').
  assert (Hfr : ∀ m, valid_inode m → ityp s' m = ityp s m ∧ isize s' m = isize s m
    ∧ iparent s' m = iparent s m
    ∧ ∀ j, 0 <= j < RAMFS_DIRECT_BLOCKS → iblock s' m j = iblock s m j).
  { intros m Hm0. pose proof (inode_at_range m Hm0). apply (inode_frame s s' _ _ Hch). lia. }
  destruct (counts_frame s s' _ _ Hch) as [Efb Efi]; [lia|].
  apply (fs_wf_kept s); try done.
  - intros b Hb. by apply (used_block_frame s s' _ _ Hch); [lia|].
  - intros m Hm0. by apply (used_inode_frame s s' _ _ Hch); [lia|].
  - intros m Hm0. by apply Hfr.
  - intros m Hm0 Ht. destruct (Hfr m Hm0) as (_ & -> & _). by apply (fw_size s Hwf).
  - intros m j Hm0. by apply Hfr.
Qed.

(** A change of an inode's administrative fields: times, links, parent. *)
Lemma admin_change_wf s d' n a k :
  fs_wf s → valid_inode n → changed (rd_data s) d' (inode_at n + a) k → mem_wf d' →
  24 <= a → a + k <= 116 → a + k <= 56 ∨ 104 <= a → fs_wf (with_data s d').
Proof.
  intros Hwf Hn Hch Hm Ha Hk Hb. set (s' := with_data s d').
  change (changed (rd_data s) (rd_data s') (inode_at n + a) k) in Hch.
  apply (inode_change_wf s s' n); try done.
  - apply (changed_weaken _ _ _ _ _ _ Hch); lia.
  - apply (ityp_field _ _ _ _ _ Hch). lia.
  - rewrite (isize_field _ _ _ _ _ Hch) by lia. by apply (fw_size s Hwf).
  - intros i Hi. by apply (iblock_field _ _ _ _ _ Hch).
Qed.

(** Size and modification time of a directory. *)
Lemma dir_stamp_wf s n v t :
  fs_wf s → valid_inode n → ityp s n = INODE_TYPE_DIR →
  fs_wf (with_data s (store64 (store64 (rd_data s) (inode_at n + IN_size) v) (inode_at n + IN_modified) t)).
Proof.
  intros Hwf Hn Ht. set (s' := with_data s _).
  assert (Hch : changed (rd_data s) (rd_data s') (inode_at n + 16) 24).
  { eapply changed_trans; apply (changed_store 8); fs_consts; lia. }
  apply (inode_change_wf s s' n); try done.
  - apply mem_wf_store, mem_wf_store. exact (fw_mem s Hwf).
  - apply (changed_weaken _ _ _ _ _ _ Hch); lia.
  - apply (ityp_field _ _ _ _ _ Hch). lia.
  - by rewrite Ht.
  - intros i Hi. by apply (iblock_field _ _ _ _ _ Hch); [lia|].
Qed.

Lemma changed_write_entry d a name inode type k :
  zlen name + 9 <= k → 9 <= k → changed d (write_entry d a name inode type) a k.
Proof.
  intros Hk H9. unfold write_entry, de_name, zlen in *.
  eapply changed_trans; [|apply (changed_store 1); lia].
  eapply changed_trans; [|apply changed_write_bytes; unfold zlen; lia].
  eapply changed_trans; [|apply (changed_store 1); lia].
  eapply changed_trans; [|apply (changed_store 1); lia].
  eapply changed_trans; [|apply (changed_store 2); lia]. apply (changed_store 4); lia.
Qed.

(** Adding an entry keeps the invariant even for the names that do not fit the
    entry: what they overwrite is data. *)
Lemma ramfs_dir_add_entry_wf s n name inode type :
  fs_wf s → valid_inode n → Forall (λ b, 0 <= b < 256) name →
  fs_wf (ramfs_dir_add_entry s (Some (inode_at n)) name inode type).2
  ∧ ∀ m, valid_inode m →
      used_inode (ramfs_dir_add_entry s (Some (inode_at n)) name inode type).2 m = used_inode s m.
Proof.
  intros Hwf Hn Hb. unfold ramfs_dir_add_entry. fold (ityp s n).
  destruct (Z.eqb_spec (ityp s n) INODE_TYPE_DIR) as [Ht|]; [|done]. cbn [negb].
  destruct (_ || _); [done|]. destruct (ramfs_dir_lookup _ _ _); [done|].
  pose (I := λ (s' : ramfs), fs_wf s' ∧ (∀ m, valid_inode m → used_inode s' m = used_inode s m)
              ∧ ityp s' n = INODE_TYPE_DIR).
  assert (Hstep : ∀ i s1, 0 <= i < RAMFS_DIRECT_BLOCKS → I s1 →
    match add_step (inode_at n) name inode type i s1 with
    | Next s2 => I s2 | Stop r => I r.2 end).
  { intros i s1 Hi (Hwf1 & Hu1 & Ht1). unfold add_step.
    assert (Hun : used_inode s1 n = true) by (by apply used_of_type; [..|rewrite Ht1]).
    pose proof (ensure_block_cases s1 n i Hwf1 Hn Hun Hi) as He.
    destruct (ensure_block s1 (inode_at n) i) as [[] s2]; cbn [negb]; [|by destruct He as [-> _]].
    pose proof (br_wf _ _ _ _ He) as Hwf2. pose proof (br_block _ _ _ _ He) as Hb2.
    assert (I s2) as HI2.
    { split_and!; [done| |by rewrite (br_type _ _ _ _ He)].
      intros m Hm. rewrite (br_used _ _ _ _ He) by done. by apply Hu1. }
    destruct HI2 as (_ & Hu2 & Ht2).
    assert (Hun2 : used_inode s2 n = true) by (by apply used_of_type; [..|rewrite Ht2]).
    rewrite get_owned_block by done. destruct (find_first _ _ _) as [j|] eqn:Ej; [|done].
    apply find_first_Some in Ej as [Hj _]. set (a := entry_at _ j).
    assert (Ha : 36864 <= a).
    { pose proof (owned_range s2 n i Hwf2 Hn Hun2 Hi Hb2). unfold a, entry_at. fs_consts. lia. }
    set (d1 := write_entry (rd_data s2) a name inode type).
    pose proof (changed_write_entry (rd_data s2) a name inode type (zlen name + 9) ltac:(lia)
      ltac:(unfold zlen; lia)) as Hch. fold d1 in Hch.
    pose proof (data_change_wf s2 d1 a _ Hwf2 Hch Ha
      (mem_wf_write_entry _ _ _ _ _ (fw_mem s2 Hwf2) Hb)) as Hwf3.
    set (s3 := with_data s2 d1) in *. pose proof (inode_at_range n Hn).
    assert (Ht3 : ityp s3 n = INODE_TYPE_DIR).
    { rewrite <- Ht2. apply (inode_frame s2 s3 _ _ Hch). lia. }
    split_and!.
    - exact (dir_stamp_wf s3 n _ _ Hwf3 Hn Ht3).
    - intros m Hm. rewrite <- Hu2 by done. transitivity (used_inode s3 m).
      + apply (used_inode_frame s3 (with_data s3 _) (inode_at n) 116); [|lia|done].
        simpl. eapply changed_trans; apply (changed_store 8); fs_consts; lia.
      + by apply (used_inode_frame s2 s3 _ _ Hch); [lia|].
    - rewrite <- Ht3. apply (ityp_field s3 (with_data s3 _) n 16 24); [|lia].
      simpl. eapply changed_trans; apply (changed_store 8); fs_consts; lia. }
  pose proof (for_inv (λ _, I) (λ _ (r : bool * ramfs), I r.2) 0 RAMFS_DIRECT_BLOCKS _ s ltac:(done)
    (conj Hwf (conj (λ m _, eq_refl) Ht)) Hstep) as H.
  destruct (for_ _ _ _ _) as [s'|r]; [by destruct H as (? & ? & _)|by destruct H as (i & _ & ? & ? & _)].
Qed.

Lemma find_entry_data s n name e :
  fs_wf s → valid_inode n → used_inode s n = true → find_entry s (inode_at n) name = Some e → 36864 <= e.
Proof.
  intros Hwf Hn Hu. unfold find_entry. match goal with |- context [for_ 0 _ ?b tt] => set (body := b) end.
  assert (H : match for_ 0 RAMFS_DIRECT_BLOCKS body tt with Next _ => True | Stop e => 36864 <= e end).
  { pose proof (for_inv (λ _ _, True) (λ _ e, 36864 <= e) 0 RAMFS_DIRECT_BLOCKS body tt ltac:(done) I) as H.
    destruct (for_ _ _ _ _); [done|]. destruct H as (i & _ & ?); [|done]. clear -Hwf Hn Hu.
    intros i [] Hi _. unfold body. fold (iblock s n i). destruct (Z.eqb_spec (iblock s n i) 0) as [|E0]; [done|].
    rewrite (get_owned_block s n i Hwf Hn Hu Hi E0 : ramfs_get_block s (iblock s n i) = _).
    destruct (find_first _ _ _) as [j|] eqn:Ej; [|done]. apply find_first_Some in Ej as [Hj _].
    pose proof (owned_range s n i Hwf Hn Hu Hi E0). unfold entry_at. fs_consts. lia. }
  destruct (for_ _ _ _ _); [done|]. intros [= ->]. done.
Qed.

Lemma ramfs_dir_remove_entry_wf s n name :
  fs_wf s → valid_inode n → fs_wf (ramfs_dir_remove_entry s (Some (inode_at n)) name).2.
Proof.
  intros Hwf Hn. unfold ramfs_dir_remove_entry. fold (ityp s n).
  destruct (Z.eqb_spec (ityp s n) INODE_TYPE_DIR) as [Ht|]; [|done]. cbn [negb].
  assert (Hu : used_inode s n = true) by (by apply used_of_type; [..|rewrite Ht]).
  destruct (find_entry _ _ _) as [e|] eqn:E; [|done]. pose proof (find_entry_data s n name e Hwf Hn Hu E) as He.
  set (d1 := fill (rd_data s) e 0 sizeof_dirent).
  assert (Hch : changed (rd_data s) d1 e sizeof_dirent) by (apply changed_fill; lia).
  pose proof (data_change_wf s d1 e _ Hwf Hch He (mem_wf_fill _ _ _ _ (fw_mem s Hwf))) as Hwf1.
  set (s1 := with_data s d1) in *. pose proof (inode_at_range n Hn).
  apply (dir_stamp_wf s1 n _ _ Hwf1 Hn). rewrite <- Ht. apply (inode_frame s s1 _ _ Hch). lia.
Qed.

Lemma ramfs_read_wf s n count offset r s' :
  fs_wf s → valid_inode n →
  ramfs_read s (Some (inode_at n)) count offset = Some (r, s') → fs_wf s'.
Proof.
  intros Hwf Hn. unfold ramfs_read. destruct (negb _); [by intros [= <- <-]|].
  destruct (_ <=? _); [by intros [= <- <-]|]. cbv zeta.
  destruct (loop _ _) as [bs|]; [|done]. rewrite bind_Some_eq. intros [= <- <-].
  apply (admin_change_wf s _ n IN_accessed 8); try done; try (fs_consts; lia).
  - apply (changed_store 8); fs_consts; lia.
  - apply mem_wf_store. exact (fw_mem s Hwf).
Qed.

Lemma ramfs_write_wf s n buf offset r s' :
  fs_wf s → valid_inode n → 0 <= offset → zlen buf < 2 ^ 63 → Forall (λ b, 0 <= b < 256) buf →
  ramfs_write s (Some (inode_at n)) buf offset = Some (r, s') → fs_wf s'.
Proof.
  intros Hwf Hn Hoff Hlen Hb E. destruct (decide (ityp s n = INODE_TYPE_FILE ∧ offset <= MAX_FILE_SIZE)) as [[Ht Hle]|Hn'].
  - destruct (ramfs_write_cases s n buf offset) as (w & s2 & E2 & Hwf2 & _); try done.
    rewrite E2 in E. by injection E as [= <- <-].
  - revert E. unfold ramfs_write. fold (ityp s n).
    destruct (Z.eqb_spec (ityp s n) INODE_TYPE_FILE); cbn [negb]; [|by intros [= <- <-]].
    rewrite (proj2 (Z.ltb_lt _ _)); [by intros [= <- <-]|].
    change (RAMFS_DIRECT_BLOCKS * RAMFS_BLOCK_SIZE) with MAX_FILE_SIZE. lia.
Qed.

Lemma ramfs_truncate_wf s n size :
  fs_wf s → valid_inode n → 0 <= size < 2 ^ 64 →
  fs_wf (ramfs_truncate s (Some (inode_at n)) size).2.
Proof.
  intros Hwf Hn Hs. destruct (decide (ityp s n = INODE_TYPE_FILE)) as [Ht|Ht].
  - by destruct (ramfs_truncate_cases s n size Hwf Hn Ht Hs) as (s' & -> & ? & _).
  - unfold ramfs_truncate. fold (ityp s n). by rewrite (proj2 (Z.eqb_neq _ _) Ht).
Qed.

Lemma ramfs_free_inode_wf s n : fs_wf s → 0 <= n → fs_wf (ramfs_free_inode s n).
Proof.
  intros Hwf Hn. destruct (decide (n < RAMFS_MAX_FILES)) as [Hlt|].
  2:{ unfold ramfs_free_inode. rewrite (proj2 (Z.leb_le _ _)) by lia. by rewrite orb_true_r. }
  destruct (decide (n = RAMFS_ROOT_INODE)) as [->|Hne].
  { unfold ramfs_free_inode. destruct (_ || _); [done|]. by rewrite Z.eqb_refl. }
  destruct (used_inode s n) eqn:Hu; [by apply ramfs_free_inode_cases|].
  unfold ramfs_free_inode. destruct (_ || _); [done|]. rewrite (proj2 (Z.eqb_neq _ _) Hne).
  rewrite get_inode_Some by done. fold (ityp s n).
  pose proof (fw_type s Hwf n (conj Hn Hlt)) as Ht. rewrite Hu in Ht. by rewrite Ht.
Qed.

Lemma split_path_bytes path parent name :
  Forall (λ b, 0 <= b < 256) path → split_path path = Some (parent, name) →
  Forall (λ b, 0 <= b < 256) name.
Proof.
  intros Hp. unfold split_path. destruct (last_slash_from 0 0 path).
  - intros [= <- <-]. by apply Forall_take, Forall_drop.
  - destruct (_ <=? _); [done|]. intros [= <- <-]. by apply Forall_take, Forall_drop.
Qed.

Lemma ramfs_dir_lookup_nonneg s d name x :
  fs_wf s → ramfs_dir_lookup s d name = Some x → 0 <= x.
Proof.
  intros Hwf. pose proof (fw_mem s Hwf) as Hm. destruct d as [d|]; [|done]. unfold ramfs_dir_lookup.
  destruct (negb _); [done|]. destruct (bool_decide _); [done|].
  destruct (bool_decide _); [intros [= <-]; apply (load_range 4 _ _ Hm)|].
  destruct (find_entry _ _ _) as [e|]; [|done]. rewrite bind_Some_eq. intros [= <-].
  apply (load_range 4 _ _ Hm).
Qed.

Lemma lookup_walk_nonneg fuel s cur p x :
  fs_wf s → 0 <= cur → lookup_walk fuel s cur p = Some x → 0 <= x.
Proof.
  intros Hwf. revert cur p. induction fuel as [|fuel IH]; intros cur p Hc; [done|].
  destruct p as [|c p']; cbn [lookup_walk]; [by intros [= <-]|].
  destruct (take_component 0 (c :: p')) as [[comp rest]|]; [|done]. rewrite bind_Some_eq.
  destruct comp as [|c0 comp]; [by apply IH|]. destruct (ramfs_get_inode s cur) as [dir|]; [|done].
  rewrite bind_Some_eq. destruct (negb _); [done|].
  destruct (ramfs_dir_lookup s (Some dir) (c0 :: comp)) as [nx|] eqn:E; [|done]. rewrite bind_Some_eq.
  apply IH. by eapply ramfs_dir_lookup_nonneg.
Qed.

Lemma get_inode_valid s n p :
  fs_wf s → 0 <= n → ramfs_get_inode s n = Some p → valid_inode n ∧ p = inode_at n.
Proof.
  intros Hwf Hn E. assert (Hv : valid_inode n).
  { split; [done|]. revert E. unfold ramfs_get_inode. destruct (Z.leb_spec RAMFS_MAX_FILES n); [done|lia]. }
  rewrite get_inode_Some in E by done. by injection E as [= <-].
Qed.

Lemma create_target_spec s path pi p name :
  fs_wf s → Forall (λ b, 0 <= b < 256) path → create_target s path = Some (pi, p, name) →
  valid_inode pi ∧ p = inode_at pi ∧ ityp s pi = INODE_TYPE_DIR ∧ Forall (λ b, 0 <= b < 256) name.
Proof.
  intros Hwf Hb. unfold create_target. destruct (negb _); [done|].
  destruct (split_path path) as [[pp nm]|] eqn:Es; [|done]. rewrite bind_Some_eq.
  pose proof (split_path_bytes _ _ _ Hb Es) as Hnm. destruct nm as [|c nm]; [done|].
  destruct (ramfs_lookup_path s pp) as [pi'|] eqn:El; [|done]. rewrite bind_Some_eq.
  assert (Hpi : 0 <= pi').
  { revert El. unfold ramfs_lookup_path. destruct pp as [|c0 pp]; [done|]. destruct (negb _); [done|].
    by apply lookup_walk_nonneg. }
  destruct (ramfs_get_inode s pi') as [p'|] eqn:Eg; [|done]. rewrite bind_Some_eq.
  destruct (get_inode_valid s pi' p' Hwf Hpi Eg) as [Hv ->]. fold (ityp s pi').
  destruct (Z.eqb_spec (ityp s pi') INODE_TYPE_DIR) as [Ht|]; [|done]. cbn [negb].
  destruct (ramfs_dir_lookup _ _ _); [done|]. intros [= -> -> <-]. done.
Qed.

(** Storing one administrative 32-bit field. *)
Lemma store_admin_wf s n off v :
  fs_wf s → valid_inode n → off = IN_link_count ∨ off = IN_parent →
  let s' := with_data s (store32 (rd_data s) (inode_at n + off) v) in
  fs_wf s' ∧ ∀ m, valid_inode m → used_inode s' m = used_inode s m.
Proof.
  intros Hwf Hn Hoff s'. pose proof (inode_at_range n Hn).
  assert (Hch : changed (rd_data s) (rd_data s') (inode_at n + off) 4) by (apply (changed_store 4); lia).
  assert (off = 48 ∨ off = 108) as Ho by (fs_consts; lia). split.
  - apply (admin_change_wf s _ n off 4); try done; try lia. apply mem_wf_store. exact (fw_mem s Hwf).
  - intros m Hm. by apply (used_inode_frame _ _ _ _ Hch); [lia|].
Qed.

Lemma ramfs_create_file_wf s path :
  fs_wf s → Forall (λ b, 0 <= b < 256) path → fs_wf (ramfs_create_file s path).2.
Proof.
  intros Hwf Hb. unfold ramfs_create_file. destruct (create_target s path) as [[[pi p] name]|] eqn:Ec; [|done].
  destruct (create_target_spec s path pi p name Hwf Hb Ec) as (Hpi & -> & _ & Hnm).
  pose proof (ramfs_alloc_inode_cases s INODE_TYPE_FILE Hwf (or_introl eq_refl)) as Ha.
  destruct (ramfs_alloc_inode s INODE_TYPE_FILE) as [[n|] s1]; [|by destruct Ha as [-> _]].
  destruct Ha as (Hn & _ & Hwf1 & _ & Hui & _). rewrite get_inode_Some by done.
  destruct (store_admin_wf s1 n IN_parent pi Hwf1 Hn (or_intror eq_refl)) as [Hwf2 _].
  set (s2 := with_data s1 _) in *. clearbody s2.
  destruct (ramfs_dir_add_entry_wf s2 pi name n INODE_TYPE_FILE Hwf2 Hpi Hnm) as [Hwf3 _].
  destruct (ramfs_dir_add_entry _ _ _ _ _) as [[] s3]; [done|].
  apply ramfs_free_inode_wf; [done|apply Hn].
Qed.

Lemma ramfs_create_dir_wf s path :
  fs_wf s → Forall (λ b, 0 <= b < 256) path → fs_wf (ramfs_create_dir s path).2.
Proof.
  intros Hwf Hb. unfold ramfs_create_dir. destruct (create_target s path) as [[[pi p] name]|] eqn:Ec; [|done].
  destruct (create_target_spec s path pi p name Hwf Hb Ec) as (Hpi & -> & _ & Hnm).
  pose proof (ramfs_alloc_inode_cases s INODE_TYPE_DIR Hwf (or_intror eq_refl)) as Ha.
  destruct (ramfs_alloc_inode s INODE_TYPE_DIR) as [[n|] s1]; [|by destruct Ha as [-> _]].
  destruct Ha as (Hn & _ & Hwf1 & _ & Hui & _). rewrite get_inode_Some by done.
  destruct (store_admin_wf s1 n IN_parent pi Hwf1 Hn (or_intror eq_refl)) as [Hwf2 _].
  cbv zeta. set (d2 := store32 (rd_data s1) (inode_at n + IN_parent) pi) in *.
  destruct (store_admin_wf (with_data s1 d2) n IN_link_count 2 Hwf2 Hn (or_introl eq_refl)) as [Hwf3 _].
  change (with_data s1 (store32 d2 (inode_at n + IN_link_count) 2))
    with (with_data (with_data s1 d2) (store32 (rd_data (with_data s1 d2)) (inode_at n + IN_link_count) 2)).
  set (s3 := with_data (with_data s1 d2) _) in *. clearbody s3. clear d2 Hwf2.
  destruct (store_admin_wf s3 pi IN_link_count (inode_link_count (rd_data s3) (inode_at pi) +32 1)
    Hwf3 Hpi (or_introl eq_refl)) as [Hwf4 _].
  set (s4 := with_data s3 _) in *. clearbody s4.
  destruct (ramfs_dir_add_entry_wf s4 pi name n INODE_TYPE_DIR Hwf4 Hpi Hnm) as [Hwf5 _].
  destruct (ramfs_dir_add_entry _ _ _ _ _) as [[] s5]; [done|].
  apply store_admin_wf; [|done|by left]. apply ramfs_free_inode_wf; [done|apply Hn].
Qed.

(** The operations the VFS issues, and the passage of time. *)
Inductive fs_step (s : ramfs) : ramfs → Prop :=
  | step_read n count offset r s' : 0 <= n →
      ramfs_read s (ramfs_get_inode s n) count offset = Some (r, s') → fs_step s s'
  | step_write n buf offset r s' : 0 <= n → 0 <= offset → zlen buf < 2 ^ 63 →
      Forall (λ b, 0 <= b < 256) buf →
      ramfs_write s (ramfs_get_inode s n) buf offset = Some (r, s') → fs_step s s'
  | step_truncate n size : 0 <= n → is_u64 size →
      fs_step s (ramfs_truncate s (ramfs_get_inode s n) size).2
  | step_create_file path : Forall (λ b, 0 <= b < 256) path → fs_step s (ramfs_create_file s path).2
  | step_create_dir path : Forall (λ b, 0 <= b < 256) path → fs_step s (ramfs_create_dir s path).2
  | step_add n name inode type : 0 <= n → Forall (λ b, 0 <= b < 256) name →
      fs_step s (ramfs_dir_add_entry s (ramfs_get_inode s n) name inode type).2
  | step_remove n name : 0 <= n → fs_step s (ramfs_dir_remove_entry s (ramfs_get_inode s n) name).2
  | step_free_inode n : 0 <= n → fs_step s (ramfs_free_inode s n)
  | step_tick t : is_u64 t →
      fs_step s (Ramfs (rd_data s) (rd_size s) (rd_block_count s) (rd_initialized s) (sb_mounted s) t).

Lemma get_inode_cases s n :
  fs_wf s → 0 <= n →
  (valid_inode n ∧ ramfs_get_inode s n = Some (inode_at n)) ∨ ramfs_get_inode s n = None.
Proof.
  intros Hwf Hn. destruct (ramfs_get_inode s n) as [p|] eqn:E; [|by right].
  left. by destruct (get_inode_valid s n p Hwf Hn E) as [? ->].
Qed.

Lemma fs_step_wf s s' : fs_wf s → fs_step s s' → fs_wf s'.
Proof.
  intros Hwf [n count offset r s1 Hn E|n buf offset r s1 Hn Ho Hl Hb E|n size Hn Hs|path Hb|path Hb
             |n name inode type Hn Hb|n name Hn|n Hn|t Ht].
  - destruct (get_inode_cases s n Hwf Hn) as [[Hv Eg]|Eg]; rewrite Eg in E; [by eapply ramfs_read_wf|].
    by injection E as [= <- <-].
  - destruct (get_inode_cases s n Hwf Hn) as [[Hv Eg]|Eg]; rewrite Eg in E; [by eapply ramfs_write_wf|].
    by injection E as [= <- <-].
  - destruct (get_inode_cases s n Hwf Hn) as [[Hv ->]| ->]; [by apply ramfs_truncate_wf|done].
  - by apply ramfs_create_file_wf.
  - by apply ramfs_create_dir_wf.
  - destruct (get_inode_cases s n Hwf Hn) as [[Hv ->]| ->]; [by apply ramfs_dir_add_entry_wf|done].
  - destruct (get_inode_cases s n Hwf Hn) as [[Hv ->]| ->]; [by apply ramfs_dir_remove_entry_wf|done].
  - by apply ramfs_free_inode_wf.
  - destruct Hwf. by constructor.
Qed.

(** ** Theorems *)

(** The initial disk as [ramdisk_init] leaves it. *)
Lemma ramfs_init_eq s m :
  rd_initialized s = false → mem_wf m → is_u64 (fs_ticks s) →
  ∃ s', ramfs_init s (Some m) = (true, s') ∧ fs_wf s'
    ∧ free_blocks (rd_data s') = RAMFS_MAX_BLOCKS - RAMFS_DATA_START_BLOCK
    ∧ free_inodes (rd_data s') = RAMFS_MAX_FILES - 1
    ∧ (∀ n, valid_inode n → used_inode s' n = (n =? RAMFS_ROOT_INODE))
    ∧ ityp s' RAMFS_ROOT_INODE = INODE_TYPE_DIR
    ∧ (∀ o, 0 <= o < MAX_FILE_SIZE → file_byte s' RAMFS_ROOT_INODE o = 0).
Proof.
  intros Hi Hm Htk. unfold ramfs_init, ramdisk_init. rewrite Hi.
  change (Z.land _ _) with 4194304. change (u32 (4194304 / RAMFS_BLOCK_SIZE)) with 1024.
  set (s1 := Ramfs (fill m 0 0 4194304) 4194304 1024 true (sb_mounted s) (fs_ticks s)).
  rewrite (ramfs_format_eq s1) by done. exists (formatted s1). split; [done|].
  assert (Hm1 : mem_wf (rd_data s1)) by (by apply mem_wf_fill).
  assert (Hz : ∀ x, 4096 <= x < 36864 → rd_data s1 x = 0).
  { intros x Hx. simpl. unfold fill. by rewrite (proj2 (in_range_true _ _ _)) by lia. }
  assert (Hr0 : valid_inode RAMFS_ROOT_INODE) by (unfold valid_inode; fs_consts; lia).
  split; [by apply formatted_wf|].
  destruct (formatted_view s1 Hm1 ltac:(done) Hz) as (_ & _ & C & D & E & F & _).
  split_and!; [exact D|exact E|exact C|by destruct (F _ Hr0) as [-> _]|].
  intros o Ho. unfold file_byte. destruct (F _ Hr0) as [_ Eb]. by rewrite Eb by (by apply block_index_range).
Qed.

(** C5. The filesystem invariant.  From initialisation on, whatever sequence of
    reads, writes, truncations, file and directory creations, entry additions
    and removals, inode releases and clock ticks is run, the disk stays
    consistent: the free-block and free-inode counters equal the bitmaps, an
    inode's type agrees with its bitmap bit, every block listed by an inode in
    use is allocated and inside the data area, no block is listed twice, and
    file sizes stay within twelve blocks. *)
Theorem ramfs_invariant (s0 : ramfs) (m : mem) (s1 s : ramfs) (ok : bool) :
  rd_initialized s0 = false → mem_wf m → is_u64 (fs_ticks s0) →
  ramfs_init s0 (Some m) = (ok, s1) → rtc fs_step s1 s → ok = true ∧ fs_wf s.
Proof.
  intros Hi Hm Htk E Hsteps. destruct (ramfs_init_eq s0 m Hi Hm Htk) as (s' & E' & Hwf & _).
  rewrite E' in E. injection E as [= <- <-]. split; [done|]. clear E'.
  induction Hsteps as [|x y z Hxy _ IH]; [done|]. apply IH. by eapply fs_step_wf.
Qed.

(** C11. Writing a file.  [ramfs_write] always returns: it stores a prefix of the
    buffer, cut only at the maximum file size or when the disk is full; the
    file's bytes in the written range are the buffer's and all others are
    unchanged; the size grows to cover the range; every other file and directory
    keeps its type, size, parent and contents; the invariant is preserved. *)
Theorem ramfs_write_spec (s : ramfs) (n : Z) (buf : list Z) (offset : Z) :
  fs_wf s → valid_inode n → ityp s n = INODE_TYPE_FILE →
  0 <= offset <= MAX_FILE_SIZE → zlen buf < 2 ^ 63 → Forall (λ b, 0 <= b < 256) buf →
  ∃ w s', ramfs_write s (ramfs_get_inode s n) buf offset = Some (Some w, s')
    ∧ fs_wf s'
    ∧ 0 <= w <= Z.min (zlen buf) (MAX_FILE_SIZE - offset)
    ∧ (w < Z.min (zlen buf) (MAX_FILE_SIZE - offset) → free_blocks (rd_data s') = 0)
    ∧ isize s' n = Z.max (isize s n) (offset + w)
    ∧ (∀ o, 0 <= o < MAX_FILE_SIZE →
         file_byte s' n o = if decide (offset <= o < offset + w)
                            then nth (Z.to_nat (o - offset)) buf 0 else file_byte s n o)
    ∧ others_kept n s s'.
Proof.
  intros Hwf Hn Ht Ho Hl Hb. rewrite get_inode_Some by done.
  destruct (ramfs_write_cases s n buf offset) as (w & s' & A & B & _ & _ & C & D & E & F & G); try done.
  exists w, s'. by refine (conj A (conj B (conj D (conj E (conj C (conj F G)))))).
Qed.

(** C29. Reading a file.  [ramfs_read] always returns, with exactly the file's bytes
    from [offset] up to [count] bytes or the end of the file, holes as zeros;
    it changes no file's contents. *)
Theorem ramfs_read_spec (s : ramfs) (n count offset : Z) :
  fs_wf s → valid_inode n → ityp s n = INODE_TYPE_FILE →
  0 <= offset → 0 <= count → offset + count < 2 ^ 64 →
  ∃ s', ramfs_read s (ramfs_get_inode s n) count offset
        = Some (Some (file_bytes s n offset (Z.max 0 (Z.min count (isize s n - offset)))), s')
    ∧ fs_wf s' ∧ isize s' n = isize s n
    ∧ (∀ o, 0 <= o < MAX_FILE_SIZE → file_byte s' n o = file_byte s n o) ∧ others_kept n s s'.
Proof.
  intros Hwf Hn Ht Ho Hc Hov. rewrite get_inode_Some by done.
  destruct (ramfs_read_cases s n count offset) as (s' & A & B & _ & _ & _ & C & D & E); try done.
  exists s'. by refine (conj A (conj B (conj C (conj D E)))).
Qed.

Lemma file_bytes_written s n buf offset w :
  0 <= w <= zlen buf → 0 <= offset → offset + w <= MAX_FILE_SIZE →
  (∀ o, offset <= o < offset + w → file_byte s n o = nth (Z.to_nat (o - offset)) buf 0) →
  file_bytes s n offset w = take (Z.to_nat w) buf.
Proof.
  intros Hw Ho Hm H. unfold zlen in *. apply list_eq. intros i. destruct (decide (Z.of_nat i < w)).
  - unfold file_bytes. rewrite list_lookup_fmap, lookup_seqZ_lt by lia. simpl.
    rewrite H by lia. rewrite lookup_take_lt by lia.
    replace (Z.to_nat (offset + Z.of_nat i - offset)) with i by lia.
    destruct (lookup_lt_is_Some_2 buf i) as [b Hb]; [lia|]. by rewrite (nth_lookup_Some _ _ _ _ Hb).
  - rewrite !lookup_ge_None_2; [done| |].
    + rewrite length_take. lia.
    + unfold file_bytes. rewrite length_fmap, length_seqZ. lia.
Qed.

(** C15. Write then read: reading back at the offset of a write returns what was
    written, and the whole buffer when the disk had room for it. *)
Theorem ramfs_write_then_read (s : ramfs) (n : Z) (buf : list Z) (offset : Z) :
  fs_wf s → valid_inode n → ityp s n = INODE_TYPE_FILE →
  0 <= offset <= MAX_FILE_SIZE → zlen buf < 2 ^ 63 → Forall (λ b, 0 <= b < 256) buf →
  ∃ w s1 s2, ramfs_write s (ramfs_get_inode s n) buf offset = Some (Some w, s1)
    ∧ ramfs_read s1 (ramfs_get_inode s1 n) w offset = Some (Some (take (Z.to_nat w) buf), s2)
    ∧ (free_blocks (rd_data s1) ≠ 0 → offset + zlen buf <= MAX_FILE_SIZE → take (Z.to_nat w) buf = buf).
Proof.
  intros Hwf Hn Ht Ho Hl Hb. rewrite get_inode_Some by done.
  destruct (ramfs_write_cases s n buf offset) as (w & s1 & A & B & T & _ & C & D & E & F & _); try done.
  destruct (ramfs_read_cases s1 n w offset B Hn T) as (s2 & R & _); [lia|lia|fs_consts; lia|].
  exists w, s1, s2. rewrite get_inode_Some by done. split_and!; [done| |].
  - rewrite R. do 2 f_equal. rewrite C, Z.max_r, Z.min_l by lia.
    f_equal. apply file_bytes_written; [lia..|]. intros o Hor. rewrite F by lia. by rewrite decide_True.
  - intros Hfull Hfit. unfold zlen in *. apply take_ge.
    destruct (decide (w < Z.of_nat (length buf))); [|lia]. destruct Hfull. apply E. lia.
Qed.

(** Truncating a file sets its size to the request (at most the maximum),
    returns the blocks past the new end, whose bytes read as zero from then on,
    keeps every other byte, and leaves the other files alone. *)
Theorem ramfs_truncate_spec (s : ramfs) (n size : Z) (sz := Z.min size MAX_FILE_SIZE) :
  fs_wf s → valid_inode n → ityp s n = INODE_TYPE_FILE → 0 <= size < 2 ^ 64 →
  ∃ s', ramfs_truncate s (ramfs_get_inode s n) size = (true, s')
    ∧ fs_wf s' ∧ isize s' n = sz
    ∧ (∀ o, 0 <= o < MAX_FILE_SIZE →
         file_byte s' n o = if decide (sz < isize s n ∧ blocks_for sz <= o / RAMFS_BLOCK_SIZE)
                            then 0 else file_byte s n o)
    ∧ others_kept n s s'.
Proof.
  intros Hwf Hn Ht Hs. rewrite get_inode_Some by done.
  destruct (ramfs_truncate_cases s n size Hwf Hn Ht Hs) as (s' & A & B & _ & C & _ & D & E).
  exists s'. by refine (conj A (conj B (conj C (conj D E)))).
Qed.

(** Truncation does not clear the rest of the last kept block: shrinking a file
    to a size inside a block and growing it again brings the old bytes up to the
    end of that block back, where a newly grown part should read as zero. *)
Theorem ramfs_truncate_keeps_stale_tail (s : ramfs) (n size : Z) :
  fs_wf s → valid_inode n → ityp s n = INODE_TYPE_FILE → 0 <= size < isize s n →
  ∃ s1 s2, ramfs_truncate s (ramfs_get_inode s n) size = (true, s1)
    ∧ ramfs_truncate s1 (ramfs_get_inode s1 n) (isize s n) = (true, s2)
    ∧ isize s2 n = isize s n
    ∧ ∀ o, size <= o < Z.min (RAMFS_BLOCK_SIZE * blocks_for size) MAX_FILE_SIZE →
        file_byte s2 n o = file_byte s n o.
Proof.
  intros Hwf Hn Ht Hs. pose proof (isize_range s n Hwf) as Hr. pose proof (fw_size s Hwf n Hn Ht) as Hmax.
  destruct (ramfs_truncate_cases s n size) as (s1 & A & B & T & C & _ & D & _); try done;
    [unfold is_u64 in *; lia|].
  destruct (ramfs_truncate_cases s1 n (isize s n)) as (s2 & A2 & _ & _ & C2 & _ & D2 & _); try done.
  exists s1, s2. rewrite !get_inode_Some by done. split_and!; [done|done|rewrite C2; lia|].
  intros o Ho. rewrite D2, D by lia. rewrite !decide_False; [done| |].
  - rewrite Z.min_l by lia. intros [_ Hb].
    assert (o / RAMFS_BLOCK_SIZE < blocks_for size); [|lia]. apply Z.div_lt_upper_bound; fs_consts; lia.
  - rewrite C. intros [Hlt _]. rewrite !Z.min_l in Hlt by lia. lia.
Qed.

(** Releasing an inode frees its number and exactly the blocks it listed, and
    leaves every other file and directory as it was. *)
Theorem ramfs_free_inode_spec (s : ramfs) (n : Z) :
  fs_wf s → valid_inode n → n ≠ RAMFS_ROOT_INODE → used_inode s n = true →
  fs_wf (ramfs_free_inode s n) ∧ used_inode (ramfs_free_inode s n) n = false
  ∧ free_inodes (rd_data (ramfs_free_inode s n)) = free_inodes (rd_data s) + 1
  ∧ (∀ c, 0 <= c < RAMFS_MAX_BLOCKS →
       used_block (ramfs_free_inode s n) c = true ↔ used_block s c = true
       ∧ ∀ j, 0 <= j < RAMFS_DIRECT_BLOCKS → iblock s n j ≠ 0 → iblock s n j ≠ c)
  ∧ others_kept n s (ramfs_free_inode s n).
Proof.
  intros Hwf Hn Hr Hu. destruct (ramfs_free_inode_cases s n) as (A & B & C & D & _ & E); try done.
Qed.

(** Names a directory binds through entries. *)
Definition plain_name (name : list Z) : Prop :=
  1 <= zlen name <= 55 ∧ Forall (λ b, 0 <= b < 256) name ∧ name ≠ [DOT] ∧ name ≠ [DOT; DOT].

Lemma dir_becomes_find s s' n c' name :
  fs_wf s → valid_inode n → dir_becomes s s' n c' → plain_name name →
  ramfs_dir_lookup s' (ramfs_get_inode s' n) name = dir_find c' name.
Proof.
  intros Hwf Hn Hdb (Hl & _ & H1 & H2). pose proof (db_wf _ _ _ _ Hdb) as Hwf'.
  rewrite get_inode_Some by done.
  rewrite ramfs_dir_lookup_find by (try done; try exact (db_type _ _ _ _ Hdb); lia).
  apply dir_find_ext; [lia|]. exact (db_content _ _ _ _ Hdb).
Qed.

Lemma names_unique_ext c c' :
  (∀ o, 0 <= o < MAX_FILE_SIZE → c' o = c o) → names_unique c → names_unique c'.
Proof.
  intros H Hu e e' name He He' Hl. assert (Hs : ∀ e, 0 <= e < DIR_SLOTS →
    entry_matches c' (slot e) name = entry_matches c (slot e) name).
  { intros e1 He1. apply entry_matches_shift; [done|]. intros x Hx. apply H.
    change DIR_SLOTS with 768 in He1. unfold slot. fs_consts. lia. }
  rewrite !Hs by done. by apply Hu.
Qed.

Lemma names_unique_removed c e :
  names_unique c → names_unique (fill c (slot e) 0 sizeof_dirent).
Proof.
  intros Hu. destruct (fill_entry_view c e) as [Hch Hz]. set (c' := fill _ _ _ _) in *.
  assert (Hsub : ∀ e1 name, zlen name <= 56 → entry_matches c' (slot e1) name = true →
    entry_matches c (slot e1) name = true).
  { intros e1 name Hl. destruct (decide (e1 = e)) as [->|Hne]; [by rewrite free_slot_no_match|].
    by rewrite (proj2 (slot_changed c c' e e1 name Hch Hne Hl)). }
  intros e1 e2 name H1 H2 Hl M1 M2. by apply (Hu e1 e2 name); [..|apply Hsub|apply Hsub].
Qed.

(** C16. Adding a directory entry.  For a name of 1 to 55 bytes other than "."
    and "..", and an inode number other than 0, the operation succeeds unless the
    name is bound, the directory full or the disk full; it then binds the name,
    changes no other such name's binding in the directory, keeps names unique, and
    touches no other inode.  When it fails nothing changes.  (Names of 56 to 59
    bytes, which the code accepts, run over the entry's name field.) *)
Theorem ramfs_dir_add_entry_spec (s : ramfs) (n : Z) (name : list Z) (inode type : Z) :
  fs_wf s → valid_inode n → ityp s n = INODE_TYPE_DIR → plain_name name →
  is_u32 inode → inode ≠ 0 →
  match ramfs_dir_add_entry s (ramfs_get_inode s n) name inode type with
  | (true, s') => fs_wf s' ∧ ramfs_dir_lookup s (ramfs_get_inode s n) name = None
      ∧ (∀ name', plain_name name' → ramfs_dir_lookup s' (ramfs_get_inode s' n) name' =
           if decide (name' = name) then Some inode
           else ramfs_dir_lookup s (ramfs_get_inode s n) name')
      ∧ (names_unique (file_byte s n) → names_unique (file_byte s' n))
      ∧ others_kept n s s'
  | (false, s') => s' = s ∧ (is_Some (ramfs_dir_lookup s (ramfs_get_inode s n) name)
      ∨ dir_free_slot (file_byte s n) = None ∨ free_blocks (rd_data s) = 0)
  end.
Proof.
  intros Hwf Hn Ht Hp Hi Hnz. pose proof Hp as (Hl & Hb & H1 & H2). rewrite get_inode_Some by done.
  assert (Hlk : ∀ nm, plain_name nm → ramfs_dir_lookup s (Some (inode_at n)) nm = dir_find (file_byte s n) nm).
  { intros nm (Hl' & _ & ? & ?). apply ramfs_dir_lookup_find; done || lia. }
  rewrite (Hlk name Hp).
  pose proof (ramfs_dir_add_entry_cases s n name inode type Hwf Hn Ht Hl Hb H1 H2 Hi Hnz) as H.
  destruct (ramfs_dir_add_entry _ _ _ _ _) as [[] s']; [|done].
  destruct H as (e & He & Hno & Hdb). apply find_first_Some in He as (Her & Hz%Z.eqb_eq & _).
  split_and!; [exact (db_wf _ _ _ _ Hdb)|done| | |exact (db_others _ _ _ _ Hdb)].
  - intros nm Hnm. rewrite (dir_becomes_find s s' n _ nm Hwf Hn Hdb Hnm), (Hlk nm Hnm).
    destruct Hnm as (Hln & _). apply dir_find_added; try done; lia.
  - intros Hu. eapply names_unique_ext; [exact (db_content _ _ _ _ Hdb)|].
    apply names_unique_added; try done; lia.
Qed.

(** Removing a directory entry.  With unique names, removal succeeds exactly when
    the name is bound, unbinds it, and changes no other binding of the directory
    and no other inode. *)
Theorem ramfs_dir_remove_entry_spec (s : ramfs) (n : Z) (name : list Z) :
  fs_wf s → valid_inode n → ityp s n = INODE_TYPE_DIR → names_unique (file_byte s n) →
  plain_name name →
  match ramfs_dir_remove_entry s (ramfs_get_inode s n) name with
  | (true, s') => fs_wf s' ∧ is_Some (ramfs_dir_lookup s (ramfs_get_inode s n) name)
      ∧ (∀ name', plain_name name' → ramfs_dir_lookup s' (ramfs_get_inode s' n) name' =
           if decide (name' = name) then None
           else ramfs_dir_lookup s (ramfs_get_inode s n) name')
      ∧ names_unique (file_byte s' n) ∧ others_kept n s s'
  | (false, s') => s' = s ∧ ramfs_dir_lookup s (ramfs_get_inode s n) name = None
  end.
Proof.
  intros Hwf Hn Ht Hu Hp. pose proof Hp as (Hl & Hb & H1 & H2). rewrite get_inode_Some by done.
  assert (Hlk : ∀ nm, plain_name nm → ramfs_dir_lookup s (Some (inode_at n)) nm = dir_find (file_byte s n) nm).
  { intros nm (Hl' & _ & ? & ?). apply ramfs_dir_lookup_find; done || lia. }
  rewrite (Hlk name Hp).
  pose proof (ramfs_dir_remove_entry_cases s n name Hwf Hn Ht ltac:(lia)) as H.
  destruct (dir_slot (file_byte s n) name) as [e|] eqn:E.
  - destruct H as (s' & -> & Hdb). split_and!; [exact (db_wf _ _ _ _ Hdb)| | | |exact (db_others _ _ _ _ Hdb)].
    + unfold dir_find. rewrite E. done.
    + intros nm Hnm. rewrite (dir_becomes_find s s' n _ nm Hwf Hn Hdb Hnm), (Hlk nm Hnm).
      destruct Hnm as (Hln & _). apply dir_find_removed; try done; lia.
    + eapply names_unique_ext; [exact (db_content _ _ _ _ Hdb)|]. by apply names_unique_removed.
  - rewrite H. split; [done|]. unfold dir_find. by rewrite E.
Qed.

(** An eleven-block disk, and paths of one component. *)
Definition small_disk : ramfs := (ramfs_format (Ramfs (λ _, 0) 45056 11 true false 0)).2.
Definition root_path (name : list Z) : list Z := SLASH :: name.

(** The 60-byte limit on names is larger than the 56 bytes of [ramfs_dirent_t.name]:
    after creating "/a" and "/b" and removing "a", creating a file whose name has
    56 letters succeeds and its terminator overwrites the inode number of the
    next entry, so that "/b", which was there, is no longer found. *)
Theorem ramfs_long_name_hides_entry :
  let '(_, s1) := ramfs_create_file small_disk (root_path [97]) in
  let '(_, s2) := ramfs_create_file s1 (root_path [98]) in
  let '(_, s3) := ramfs_dir_remove_entry s2 (ramfs_get_inode s2 RAMFS_ROOT_INODE) [97] in
  let '(r, s4) := ramfs_create_file s3 (root_path (replicate 56 120)) in
  ramfs_lookup_path s3 (root_path [98]) = Some 2 ∧ r = Some 3
  ∧ ramfs_lookup_path s4 (root_path [98]) = None.
Proof. vm_compute. split_and!; reflexivity. Qed.

(** *** Witnesses: the theorems at a disk with one file *)

Ltac bytes_ok :=
  unfold root_path, SLASH; repeat (apply Forall_cons_2; [lia|]); apply Forall_nil_2.

Definition wit_file : ramfs := (ramfs_alloc_inode small_disk INODE_TYPE_FILE).2.

Lemma small_disk_eq : small_disk = formatted (Ramfs (λ _, 0) 45056 11 true false 0).
Proof. unfold small_disk. by rewrite ramfs_format_eq by done. Qed.

Lemma small_disk_wf : fs_wf small_disk ∧ ityp small_disk 0 = INODE_TYPE_DIR
  ∧ ∀ o, 0 <= o < MAX_FILE_SIZE → file_byte small_disk 0 o = 0.
Proof.
  rewrite small_disk_eq. set (s := Ramfs _ _ _ _ _ _).
  assert (Hm : mem_wf (rd_data s)) by (intros x; simpl; lia).
  destruct (formatted_view s Hm ltac:(done) ltac:(done)) as (_ & _ & _ & _ & _ & F & _).
  destruct (F 0 ltac:(done)) as [Et Eb]. split_and!; [by apply formatted_wf|exact Et|].
  intros o Ho. unfold file_byte. by rewrite Eb by (by apply block_index_range).
Qed.

Lemma wit_file_wf : fs_wf wit_file ∧ ityp wit_file 1 = INODE_TYPE_FILE ∧ used_inode wit_file 1 = true.
Proof.
  pose proof (ramfs_alloc_inode_cases small_disk INODE_TYPE_FILE (proj1 small_disk_wf) (or_introl eq_refl)) as H.
  assert (E : (ramfs_alloc_inode small_disk INODE_TYPE_FILE).1 = Some 1) by (vm_compute; reflexivity).
  unfold wit_file. destruct (ramfs_alloc_inode small_disk INODE_TYPE_FILE) as [[n|] s']; [|done].
  simpl in *. injection E as ->. destruct H as (Hv & _ & Hwf & _ & Hu & Ht & _).
  split_and!; [done|done|]. by rewrite Hu.
Qed.

Lemma valid_1 : valid_inode 1.
Proof. done. Qed.

Lemma ramfs_invariant_witness :
  let s0 := Ramfs (λ _, 0) 0 0 false false 0 in
  let s1 := (ramfs_init s0 (Some (λ _, 0))).2 in
  fs_wf (ramfs_create_file s1 (root_path [97])).2.
Proof.
  intros s0 s1.
  refine (proj2 (ramfs_invariant s0 (λ _, 0) s1 _ (ramfs_init s0 (Some (λ _, 0))).1 _ _ _ _ _)).
  - reflexivity.
  - intros x. simpl. lia.
  - unfold is_u64. simpl. lia.
  - apply surjective_pairing.
  - apply rtc_once, step_create_file. bytes_ok.
Defined.

Lemma ramfs_write_spec_witness :
  ∃ w s', ramfs_write wit_file (ramfs_get_inode wit_file 1) [1; 2; 3] 4095 = Some (Some w, s')
    ∧ fs_wf s' ∧ 0 <= w <= 3.
Proof.
  destruct (ramfs_write_spec wit_file 1 [1; 2; 3] 4095) as (w & s' & E & Hwf & Hw & _).
  - apply wit_file_wf.
  - exact valid_1.
  - apply wit_file_wf.
  - fs_consts. lia.
  - unfold zlen. simpl. lia.
  - bytes_ok.
  - exists w, s'. split_and!; [exact E|exact Hwf|lia|]. unfold zlen in Hw. simpl in Hw. lia.
Defined.

Lemma ramfs_read_spec_witness :
  ∃ s', ramfs_read wit_file (ramfs_get_inode wit_file 1) 10 0 = Some (Some [], s') ∧ fs_wf s'.
Proof.
  destruct (ramfs_read_spec wit_file 1 10 0) as (s' & E & Hwf & _); try lia.
  - apply wit_file_wf.
  - exact valid_1.
  - apply wit_file_wf.
  - exists s'. split; [|exact Hwf]. etransitivity; [exact E|].
    assert (isize wit_file 1 = 0) as -> by (vm_compute; reflexivity). reflexivity.
Defined.

Lemma ramfs_write_then_read_witness :
  ∃ w s1 s2, ramfs_write wit_file (ramfs_get_inode wit_file 1) [7] 0 = Some (Some w, s1)
    ∧ ramfs_read s1 (ramfs_get_inode s1 1) w 0 = Some (Some (take (Z.to_nat w) [7]), s2).
Proof.
  destruct (ramfs_write_then_read wit_file 1 [7] 0) as (w & s1 & s2 & A & B & _).
  - apply wit_file_wf.
  - exact valid_1.
  - apply wit_file_wf.
  - fs_consts. lia.
  - unfold zlen. simpl. lia.
  - bytes_ok.
  - exists w, s1, s2. exact (conj A B).
Defined.

Lemma ramfs_truncate_spec_witness :
  ∃ s', ramfs_truncate wit_file (ramfs_get_inode wit_file 1) 5000 = (true, s') ∧ isize s' 1 = 5000.
Proof.
  destruct (ramfs_truncate_spec wit_file 1 5000) as (s' & A & _ & B & _); try lia.
  - apply wit_file_wf.
  - exact valid_1.
  - apply wit_file_wf.
  - exists s'. exact (conj A B).
Defined.

Definition wit_long : ramfs := (ramfs_truncate wit_file (ramfs_get_inode wit_file 1) 5000).2.

Lemma wit_long_wf : fs_wf wit_long ∧ ityp wit_long 1 = INODE_TYPE_FILE ∧ isize wit_long 1 = 5000.
Proof.
  unfold wit_long. rewrite (get_inode_Some wit_file 1 (proj1 wit_file_wf) valid_1).
  destruct (ramfs_truncate_cases wit_file 1 5000) as (s' & -> & A & B & C & _); try lia; [..|done].
  - apply wit_file_wf.
  - exact valid_1.
  - apply wit_file_wf.
Qed.

Lemma ramfs_truncate_keeps_stale_tail_witness :
  ∃ s1 s2, ramfs_truncate wit_long (ramfs_get_inode wit_long 1) 4097 = (true, s1)
    ∧ ramfs_truncate s1 (ramfs_get_inode s1 1) 5000 = (true, s2)
    ∧ file_byte s2 1 4500 = file_byte wit_long 1 4500.
Proof.
  destruct wit_long_wf as (Hwf & Ht & Hs).
  destruct (ramfs_truncate_keeps_stale_tail wit_long 1 4097) as (s1 & s2 & A & B & _ & D).
  - exact Hwf.
  - exact valid_1.
  - exact Ht.
  - rewrite Hs. lia.
  - exists s1, s2. rewrite Hs in B. refine (conj A (conj B (D 4500 _))).
    change (blocks_for 4097) with 2. fs_consts. lia.
Defined.

Lemma ramfs_free_inode_spec_witness :
  used_inode wit_file 1 = true ∧ used_inode (ramfs_free_inode wit_file 1) 1 = false.
Proof.
  destruct wit_file_wf as (Hwf & Ht & Hu). split; [exact Hu|].
  exact (proj1 (proj2 (ramfs_free_inode_spec wit_file 1 Hwf valid_1 ltac:(clear; done) Hu))).
Defined.

Lemma plain_a : plain_name [97].
Proof. split_and!; [unfold zlen; simpl; lia|unfold zlen; simpl; lia|bytes_ok|done|done]. Qed.

Lemma empty_dir_unique : names_unique (file_byte small_disk 0).
Proof.
  apply (names_unique_ext (λ _, 0)); [by apply small_disk_wf|]. intros e e' name _ _ _ H.
  rewrite free_slot_no_match in H by done. done.
Qed.

Lemma ramfs_dir_add_entry_spec_witness :
  ∃ s', ramfs_dir_add_entry small_disk (ramfs_get_inode small_disk 0) [97] 7 INODE_TYPE_FILE = (true, s')
    ∧ ramfs_dir_lookup s' (ramfs_get_inode s' 0) [97] = Some 7.
Proof.
  pose proof (ramfs_dir_add_entry_spec small_disk 0 [97] 7 INODE_TYPE_FILE (proj1 small_disk_wf)
    ltac:(done) (proj1 (proj2 small_disk_wf)) plain_a ltac:(done) ltac:(done)) as H.
  assert (E : (ramfs_dir_add_entry small_disk (ramfs_get_inode small_disk 0) [97] 7 INODE_TYPE_FILE).1 = true)
    by (vm_compute; reflexivity).
  destruct (ramfs_dir_add_entry _ _ _ _ _) as [b s']. simpl in E. subst b.
  exists s'. split; [reflexivity|]. destruct H as (_ & _ & H & _). apply (H [97] plain_a).
Defined.

Lemma ramfs_dir_remove_entry_spec_witness :
  (ramfs_dir_remove_entry small_disk (ramfs_get_inode small_disk 0) [97]).2 = small_disk
  ∧ ramfs_dir_lookup small_disk (ramfs_get_inode small_disk 0) [97] = None.
Proof.
  pose proof (ramfs_dir_remove_entry_spec small_disk 0 [97] (proj1 small_disk_wf)
    ltac:(done) (proj1 (proj2 small_disk_wf)) empty_dir_unique plain_a) as H.
  assert (E : (ramfs_dir_remove_entry small_disk (ramfs_get_inode small_disk 0) [97]).1 = false)
    by (vm_compute; reflexivity).
  destruct (ramfs_dir_remove_entry _ _ _) as [b s']. simpl in E. subst b. exact H.
Defined.
