(* ===== verification/Vnode.v ===== *)
(** * Vnodes and open files: the tables of kernel/fs/vfs.c and kernel/fs/file.c

    The state the VFS layer keeps in static arrays, and the reference counting
    of vnodes.  A vnode pointer is its index in [vnode_table]; an inode pointer
    is a disk offset, as in Ramfs.  [vn_ops] records whether the vnode's
    operation table has been set (there is one table, with every operation
    present).  An open file is an entry of [open_file_table] or one of the three
    console files.  [fs_data] is always NULL and not kept. *)

From Stdlib Require Import ZArith Lia.
From stdpp Require Import base numbers list.
From S2P Require Import Prelude.
From S2P Require Import Mem.
From S2P Require Import Ramfs.

Definition MAX_VNODES : Z := 256.
Definition MAX_OPEN_FILES : Z := 256.

Record vnode := Vnode {
  vn_inode_num : Z;
  vn_type : Z;
  vn_ref : Z;
  vn_inode : option Z;
  vn_ops : bool
}.

Inductive file_ptr := OpenFile (i : Z) | ConsoleStdin | ConsoleStdout | ConsoleStderr.

#[export] Instance file_ptr_eq_dec : EqDecision file_ptr.
Proof. solve_decision. Defined.

Record file := File {
  f_ref : Z;
  f_flags : Z;
  f_offset : Z;
  f_inode : Z;
  f_type : Z;
  f_vnode : option Z
}.

Record vfs := Vfs {
  v_fs : ramfs;
  v_vnode : Z → vnode;
  v_root : option Z;
  v_initialized : bool;
  v_file : file_ptr → file;
  v_files_initialized : bool
}.

Definition set_fs (s : vfs) (fs : ramfs) : vfs :=
  Vfs fs (v_vnode s) (v_root s) (v_initialized s) (v_file s) (v_files_initialized s).

(** An assignment to [vnode_table[i]] and to a file. *)
Definition set_vnode (s : vfs) (i : Z) (v : vnode) : vfs :=
  Vfs (v_fs s) (λ j, if decide (j = i) then v else v_vnode s j) (v_root s) (v_initialized s)
    (v_file s) (v_files_initialized s).

Definition set_file (s : vfs) (p : file_ptr) (f : file) : vfs :=
  Vfs (v_fs s) (v_vnode s) (v_root s) (v_initialized s)
    (λ q, if decide (q = p) then f else v_file s q) (v_files_initialized s).

Definition with_ref (v : vnode) (n : Z) : vnode :=
  Vnode (vn_inode_num v) (vn_type v) n (vn_inode v) (vn_ops v).

Definition vnode_alloc (s : vfs) : option Z * vfs :=
  match find_first 0 MAX_VNODES (λ i, vn_ref (v_vnode s i) =? 0) with
  | Some i => (Some i, set_vnode s i (Vnode 0 0 1 None false))
  | None => (None, s)
  end.

Definition vnode_free (s : vfs) (vn : option Z) : vfs :=
  match vn with
  | None => s
  | Some i =>
      if decide (Some i = v_root s) then s
      else let v := v_vnode s i in
           set_vnode s i (Vnode (vn_inode_num v) (vn_type v) 0 None false)
  end.

Definition vnode_ref (s : vfs) (vn : option Z) : vfs :=
  match vn with
  | None => s
  | Some i => set_vnode s i (with_ref (v_vnode s i) (vn_ref (v_vnode s i) +32 1))
  end.

Definition vnode_unref (s : vfs) (vn : option Z) : vfs :=
  match vn with
  | None => s
  | Some i =>
      if decide (Some i = v_root s) then s
      else if 0 <? vn_ref (v_vnode s i) then
        let s := set_vnode s i (with_ref (v_vnode s i) (vn_ref (v_vnode s i) -32 1)) in
        if vn_ref (v_vnode s i) =? 0 then vnode_free s vn else s
      else s
  end.
