(* ===== verification/File.v ===== *)
(** * File descriptors: kernel/fs/file.c

    A process's descriptor table is a value [fd_table]; a NULL table pointer is
    [None].  The outcome of the [kmalloc] that creates a table is an argument.
    Open files and vnodes live in the state of Vnode. *)

From Stdlib Require Import ZArith Lia.
From stdpp Require Import base numbers list.
From S2P Require Import Prelude.
From S2P Require Import Mem.
From S2P Require Import Bitmap.
From S2P Require Import Ramfs.
From S2P Require Import Vnode.

Definition MAX_FD_PER_PROCESS : Z := 16.
Definition FD_STDIN : Z := 0.
Definition FD_STDOUT : Z := 1.
Definition FD_STDERR : Z := 2.
Definition O_RDONLY : Z := 0x0001.
Definition O_WRONLY : Z := 0x0002.
Definition O_RDWR : Z := 0x0003.
Definition O_ACCMODE : Z := 0x0003.
Definition O_CREAT : Z := 0x0100.
Definition O_TRUNC : Z := 0x0200.
Definition O_APPEND : Z := 0x0400.
Definition O_EXCL : Z := 0x0800.
Definition SEEK_SET : Z := 0.
Definition SEEK_CUR : Z := 1.
Definition SEEK_END : Z := 2.
Definition FILE_TYPE_REGULAR : Z := 0.
Definition FILE_TYPE_DIR : Z := 1.
Definition FILE_TYPE_CONSOLE : Z := 2.

Record fd_table := FdTable {
  entries : Z → option file_ptr;
  num_open : Z
}.

Definition set_entry (t : fd_table) (fd : Z) (f : option file_ptr) : fd_table :=
  FdTable (λ i, if decide (i = fd) then f else entries t i) (num_open t).
Definition set_num_open (t : fd_table) (n : Z) : fd_table := FdTable (entries t) n.

(** ** The system-wide table *)

Definition file_is_console (f : option file_ptr) : bool :=
  match f with
  | Some ConsoleStdin | Some ConsoleStdout | Some ConsoleStderr => true
  | _ => false
  end.

Definition file_get_console (fd : Z) : option file_ptr :=
  if fd =? FD_STDIN then Some ConsoleStdin
  else if fd =? FD_STDOUT then Some ConsoleStdout
  else if fd =? FD_STDERR then Some ConsoleStderr
  else None.

Definition init_file_table (s : vfs) : vfs :=
  if v_files_initialized s then s
  else
    let s := for_each 0 MAX_OPEN_FILES (λ i s, set_file s (OpenFile i) (File 0 0 0 0 0 None)) s in
    let s := set_file s ConsoleStdin (File 1 O_RDONLY 0 0 FILE_TYPE_CONSOLE None) in
    let s := set_file s ConsoleStdout (File 1 O_WRONLY 0 0 FILE_TYPE_CONSOLE None) in
    let s := set_file s ConsoleStderr (File 1 O_WRONLY 0 0 FILE_TYPE_CONSOLE None) in
    Vfs (v_fs s) (v_vnode s) (v_root s) (v_initialized s) (v_file s) true.

Definition file_alloc (s : vfs) : option file_ptr * vfs :=
  let s := init_file_table s in
  match find_first 0 MAX_OPEN_FILES (λ i, f_ref (v_file s (OpenFile i)) =? 0) with
  | Some i => (Some (OpenFile i), set_file s (OpenFile i) (File 1 0 0 0 FILE_TYPE_REGULAR None))
  | None => (None, s)
  end.

Definition file_free (s : vfs) (f : option file_ptr) : vfs :=
  match f with
  | None => s
  | Some p =>
      if file_is_console f then s
      else
        let s := match f_vnode (v_file s p) with
                 | Some vn => vnode_unref s (Some vn)
                 | None => s
                 end in
        set_file s p (File 0 0 0 0 0 None)
  end.

Definition with_file_ref (f : file) (n : Z) : file :=
  File n (f_flags f) (f_offset f) (f_inode f) (f_type f) (f_vnode f).

Definition file_ref (s : vfs) (f : option file_ptr) : vfs :=
  match f with
  | None => s
  | Some p => set_file s p (with_file_ref (v_file s p) (f_ref (v_file s p) +32 1))
  end.

Definition file_unref (s : vfs) (f : option file_ptr) : vfs :=
  match f with
  | None => s
  | Some p =>
      if file_is_console f then s
      else if 0 <? f_ref (v_file s p) then
        let s := set_file s p (with_file_ref (v_file s p) (f_ref (v_file s p) -32 1)) in
        if f_ref (v_file s p) =? 0 then file_free s f else s
      else s
  end.

(** ** Descriptor tables *)

Definition fd_table_create (s : vfs) (allocated : bool) : option fd_table * vfs :=
  let s := init_file_table s in
  if allocated then (Some (FdTable (λ _, None) 0), s) else (None, s).

(** Destroying a table closes its files; the table's memory is then freed. *)
Definition fd_table_destroy (s : vfs) (table : option fd_table) : vfs :=
  match table with
  | None => s
  | Some t =>
      for_each 0 MAX_FD_PER_PROCESS (λ i s,
        match entries t i with
        | Some f => file_unref s (Some f)
        | None => s
        end) s
  end.

Definition fd_table_clone (s : vfs) (src : option fd_table) (allocated : bool) : option fd_table * vfs :=
  match src with
  | None => (None, s)
  | Some src =>
      match fd_table_create s allocated with
      | (None, s) => (None, s)
      | (Some dst, s) =>
          let '(dst, s) :=
            for_each 0 MAX_FD_PER_PROCESS (λ i '(dst, s),
              match entries src i with
              | Some f => (set_entry dst i (Some f), file_ref s (Some f))
              | None => (dst, s)
              end) (dst, s) in
          (Some (set_num_open dst (num_open src)), s)
      end
  end.

Definition fd_alloc (table : option fd_table) : option Z :=
  match table with
  | None => None
  | Some t => find_first 0 MAX_FD_PER_PROCESS (λ i, bool_decide (entries t i = None))
  end.

Definition bad_fd (fd : Z) : bool := (fd <? 0) || (MAX_FD_PER_PROCESS <=? fd).

Definition fd_free (s : vfs) (t : fd_table) (fd : Z) : fd_table * vfs :=
  if bad_fd fd then (t, s)
  else match entries t fd with
  | None => (t, s)
  | Some f =>
      let s := file_unref s (Some f) in
      let t := set_entry t fd None in
      (if 0 <? num_open t then set_num_open t (num_open t -32 1) else t, s)
  end.

Definition fd_get_file (table : option fd_table) (fd : Z) : option file_ptr :=
  match table with
  | None => None
  | Some t => if bad_fd fd then None else entries t fd
  end.

Definition fd_set_file (s : vfs) (t : fd_table) (fd : Z) (file : option file_ptr) : bool * fd_table * vfs :=
  if bad_fd fd then (false, t, s)
  else
    let '(t, s) := match entries t fd with
                   | Some old => (set_num_open t (num_open t -32 1), file_unref s (Some old))
                   | None => (t, s)
                   end in
    let t := set_entry t fd file in
    let t := match file with
             | Some _ => set_num_open t (num_open t +32 1)
             | None => t
             end in
    (true, t, s).

Definition fd_init_stdio (s : vfs) (t : fd_table) : fd_table * vfs :=
  let s := init_file_table s in
  let t := set_entry t FD_STDIN (Some ConsoleStdin) in
  let t := set_entry t FD_STDOUT (Some ConsoleStdout) in
  let t := set_entry t FD_STDERR (Some ConsoleStderr) in
  (set_num_open t 3, s).
