(* ===== verification/Vfs.v ===== *)
(** * Virtual filesystem: kernel/fs/vfs.c

    The operations on the state of Vnode.  There is one operation table,
    [ramfs_vfs_ops]; a vnode whose [ops] pointer is set dispatches to the
    [ramfs_vfs_*] functions.  Results: [None] is the C error return, a file or
    vnode pointer comes back instead of being stored through an out parameter.
    The functions that run a ramfs read or write loop, or follow an inode
    pointer that may be NULL, return an outer [option]: [None] means that the
    loop does not end or that the kernel faults. *)

From Stdlib Require Import ZArith Lia.
From stdpp Require Import base numbers list relations.
From S2P Require Import Prelude.
From S2P Require Import Mem.
From S2P Require Import Bitmap.
From S2P Require Import StringLib.
From S2P Require Import Path.
From S2P Require Import Ramfs.
From S2P Require Import Vnode.
From S2P Require Import File.

Definition IN_uid : Z := 8.
Definition IN_gid : Z := 12.
Definition S_IFREG : Z := 0x8000.
Definition S_IFDIR : Z := 0x4000.

Record stat := Stat {
  st_ino : Z;
  st_mode : Z;
  st_nlink : Z;
  st_uid : Z;
  st_gid : Z;
  st_size : Z;
  st_blksize : Z;
  st_blocks : Z;
  st_atime : Z;
  st_mtime : Z;
  st_ctime : Z
}.

(** ** Vnodes *)

Definition vnode_get_or_create (s : vfs) (inode_num : Z) : option Z * vfs :=
  match find_first 0 MAX_VNODES
          (λ i, (0 <? vn_ref (v_vnode s i)) && (vn_inode_num (v_vnode s i) =? inode_num)) with
  | Some i => (Some i, vnode_ref s (Some i))
  | None =>
      match vnode_alloc s with
      | (None, s) => (None, s)
      | (Some i, s) =>
          match ramfs_get_inode (v_fs s) inode_num with
          | None => (None, vnode_free s (Some i))
          | Some ip =>
              (Some i, set_vnode s i (Vnode inode_num (inode_type (rd_data (v_fs s)) ip)
                                        (vn_ref (v_vnode s i)) (Some ip) true))
          end
      end
  end.

(** The first loop of [vfs_init]. *)
Definition clear_vnodes (s : vfs) : vfs :=
  for_each 0 MAX_VNODES (λ i s, let v := v_vnode s i in
    set_vnode s i (Vnode (vn_inode_num v) (vn_type v) 0 None (vn_ops v))) s.

(** [vfs_init]; [None] is a kernel panic.  [memory] is what kmalloc returns for
    the RAM disk. *)
Definition vfs_init (s : vfs) (memory : option mem) : option vfs :=
  if v_initialized s then Some s
  else
    let s := clear_vnodes s in
    let '(ok, fs) := ramfs_init (v_fs s) memory in
    let s := set_fs s fs in
    if negb ok then None
    else match vnode_alloc s with
    | (None, _) => None
    | (Some r, s) =>
        let s := set_vnode s r (Vnode RAMFS_ROOT_INODE INODE_TYPE_DIR 1
                                  (ramfs_get_inode fs RAMFS_ROOT_INODE) true) in
        Some (Vfs (v_fs s) (v_vnode s) (Some r) true (v_file s) (v_files_initialized s))
    end.

(** ** Path resolution *)

Definition ROOT_PATH : list Z := [SLASH].

Definition vfs_lookup (s : vfs) (path : option (list Z)) : option Z * vfs :=
  match path with
  | None => (None, s)
  | Some p =>
      if negb (v_initialized s) then (None, s)
      else match path_normalize (Some p) (Some ROOT_PATH) VFS_MAX_PATH with
      | None => (None, s)
      | Some normalized =>
          match ramfs_lookup_path (v_fs s) normalized with
          | None => (None, s)
          | Some n => vnode_get_or_create s n
          end
      end
  end.

(** The parent's vnode and the last component of the path. *)
Definition vfs_lookup_parent (s : vfs) (path : option (list Z)) (name_size : Z)
    : option (Z * list Z) * vfs :=
  match path with
  | None => (None, s)
  | Some p =>
      if name_size =? 0 then (None, s)
      else match path_normalize (Some p) (Some ROOT_PATH) VFS_MAX_PATH with
      | None => (None, s)
      | Some normalized =>
          match path_dirname (Some normalized) VFS_MAX_PATH with
          | None => (None, s)
          | Some parent_path =>
              let basename := path_basename (Some normalized) in
              if name_size <=? zlen basename then (None, s)
              else match vfs_lookup s (Some parent_path) with
              | (None, s) => (None, s)
              | (Some vn, s) => (Some (vn, basename), s)
              end
          end
      end
  end.

(** ** The ramfs operation table *)

Definition ramfs_vfs_read (s : vfs) (vn : Z) (count offset : Z) : option (option (list Z) * vfs) :=
  match vn_inode (v_vnode s vn) with
  | None => Some (None, s)
  | Some ip => '(r, fs) ← ramfs_read (v_fs s) (Some ip) count offset; Some (r, set_fs s fs)
  end.

Definition ramfs_vfs_write (s : vfs) (vn : Z) (buf : list Z) (offset : Z) : option (option Z * vfs) :=
  match vn_inode (v_vnode s vn) with
  | None => Some (None, s)
  | Some ip => '(r, fs) ← ramfs_write (v_fs s) (Some ip) buf offset; Some (r, set_fs s fs)
  end.

Definition ramfs_vfs_lookup (s : vfs) (dir : Z) (name : list Z) : option Z * vfs :=
  match vn_inode (v_vnode s dir) with
  | None => (None, s)
  | Some dp =>
      match ramfs_dir_lookup (v_fs s) (Some dp) name with
      | None => (None, s)
      | Some n => vnode_get_or_create s n
      end
  end.

Definition bump_links (d : mem) (ip k : Z) : mem :=
  store32 d (ip + IN_link_count) (inode_link_count d ip +32 k).

(** Result: the new vnode, [None] for -1. *)
Definition ramfs_vfs_create (s : vfs) (dir : Z) (name : list Z) (type : Z) : option Z * vfs :=
  match vn_inode (v_vnode s dir) with
  | None => (None, s)
  | Some dp =>
      match ramfs_alloc_inode (v_fs s) type with
      | (None, fs) => (None, set_fs s fs)
      | (Some n, fs) =>
          let fs := match ramfs_get_inode fs n with
                    | None => fs
                    | Some ip =>
                        let d := store32 (rd_data fs) (ip + IN_parent) (vn_inode_num (v_vnode s dir)) in
                        let d := if type =? INODE_TYPE_DIR then
                                   bump_links (store32 d (ip + IN_link_count) 2) dp 1
                                 else d in
                        with_data fs d
                    end in
          match ramfs_dir_add_entry fs (Some dp) name n type with
          | (false, fs) =>
              let fs := if type =? INODE_TYPE_DIR then with_data fs (bump_links (rd_data fs) dp (-1))
                        else fs in
              (None, set_fs s (ramfs_free_inode fs n))
          | (true, fs) => vnode_get_or_create (set_fs s fs) n
          end
      end
  end.

Definition ramfs_vfs_unlink (s : vfs) (dir : Z) (name : list Z) : bool * vfs :=
  match vn_inode (v_vnode s dir) with
  | None => (false, s)
  | Some dp =>
      match ramfs_dir_lookup (v_fs s) (Some dp) name with
      | None => (false, s)
      | Some n =>
          match ramfs_get_inode (v_fs s) n with
          | None => (false, s)
          | Some ip =>
              let d := rd_data (v_fs s) in
              if (inode_type d ip =? INODE_TYPE_DIR) && (0 <? inode_size d ip) then (false, s)
              else match ramfs_dir_remove_entry (v_fs s) (Some dp) name with
              | (false, fs) => (false, set_fs s fs)
              | (true, fs) =>
                  let fs := if inode_type (rd_data fs) ip =? INODE_TYPE_DIR
                            then with_data fs (bump_links (rd_data fs) dp (-1)) else fs in
                  let fs := with_data fs (bump_links (rd_data fs) ip (-1)) in
                  let fs := if inode_link_count (rd_data fs) ip =? 0 then ramfs_free_inode fs n else fs in
                  (true, set_fs s fs)
              end
          end
      end
  end.

Definition ramfs_vfs_readdir (s : vfs) (dir : Z) (index : Z) : option (list Z) :=
  match vn_inode (v_vnode s dir) with
  | None => None
  | Some dp => ramfs_dir_read_entry (v_fs s) (Some dp) index
  end.

Definition ramfs_vfs_stat (s : vfs) (vn : Z) : option stat :=
  match vn_inode (v_vnode s vn) with
  | None => None
  | Some ip =>
      let d := rd_data (v_fs s) in
      let perm := load32 d (ip + IN_permissions) in
      let mode := if inode_type d ip =? INODE_TYPE_FILE then Z.lor perm S_IFREG
                  else if inode_type d ip =? INODE_TYPE_DIR then Z.lor perm S_IFDIR
                  else perm in
      Some (Stat (vn_inode_num (v_vnode s vn)) mode (inode_link_count d ip)
              (load32 d (ip + IN_uid)) (load32 d (ip + IN_gid)) (inode_size d ip) RAMFS_BLOCK_SIZE
              (inode_block_count d ip) (load64 d (ip + IN_accessed)) (load64 d (ip + IN_modified))
              (load64 d (ip + IN_created)))
  end.

Definition ramfs_vfs_truncate (s : vfs) (vn : Z) (size : Z) : bool * vfs :=
  match vn_inode (v_vnode s vn) with
  | None => (false, s)
  | Some ip => let '(r, fs) := ramfs_truncate (v_fs s) (Some ip) size in (r, set_fs s fs)
  end.

(** ** File operations *)

Definition flag_set (flags bit : Z) : bool := negb (Z.land flags bit =? 0).

(** Creation branch of [vfs_open]: the new vnode. *)
Definition open_create (s : vfs) (path : option (list Z)) : option Z * vfs :=
  match vfs_lookup_parent s path RAMFS_MAX_FILENAME with
  | (None, s) => (None, s)
  | (Some (parent, name), s) =>
      if vn_ops (v_vnode s parent) then
        match ramfs_vfs_create s parent name INODE_TYPE_FILE with
        | (None, s) => (None, vnode_unref s (Some parent))
        | (Some vn, s) => (Some vn, vnode_unref s (Some parent))
        end
      else (None, vnode_unref s (Some parent))
  end.

(** [vfs_open] once the vnode is known. *)
Definition open_vnode (s : vfs) (vn flags : Z) (created : bool) : option (option file_ptr * vfs) :=
  let v := v_vnode s vn in
  if (vn_type v =? INODE_TYPE_DIR) && negb (Z.land flags O_ACCMODE =? O_RDONLY) then
    Some (None, vnode_unref s (Some vn))
  else
    let s := if flag_set flags O_TRUNC && (vn_type v =? INODE_TYPE_FILE) && negb created
                && vn_ops v
             then (ramfs_vfs_truncate s vn 0).2 else s in
    match file_alloc s with
    | (None, s) => Some (None, vnode_unref s (Some vn))
    | (Some p, s) =>
        let v := v_vnode s vn in
        offset ← (if flag_set flags O_APPEND
                  then ip ← vn_inode v; Some (inode_size (rd_data (v_fs s)) ip)
                  else Some 0);
        Some (Some p, set_file s p (File (f_ref (v_file s p)) flags offset (vn_inode_num v)
               (if vn_type v =? INODE_TYPE_DIR then FILE_TYPE_DIR else FILE_TYPE_REGULAR) (Some vn)))
    end.

Definition vfs_open (s : vfs) (path : option (list Z)) (flags : Z) : option (option file_ptr * vfs) :=
  match path with
  | None => Some (None, s)
  | Some _ =>
      match vfs_lookup s path with
      | (Some vn, s) => open_vnode s vn flags false
      | (None, s) =>
          if flag_set flags O_CREAT then
            match open_create s path with
            | (None, s) => Some (None, s)
            | (Some vn, s) => open_vnode s vn flags true
            end
          else Some (None, s)
      end
  end.

Definition vfs_close (s : vfs) (file : option file_ptr) : bool * vfs :=
  match file with
  | None => (false, s)
  | Some _ => (true, file_unref s file)
  end.

Definition with_offset (f : file) (o : Z) : file :=
  File (f_ref f) (f_flags f) o (f_inode f) (f_type f) (f_vnode f).

(** The vnode of a file, when it is there and has operations. *)
Definition ops_vnode (s : vfs) (f : file) : option Z :=
  vn ← f_vnode f; if vn_ops (v_vnode s vn) then Some vn else None.

Definition vfs_read (s : vfs) (file : option file_ptr) (count : Z) : option (option (list Z) * vfs) :=
  match file with
  | None => Some (None, s)
  | Some p =>
      let f := v_file s p in
      if Z.land (f_flags f) O_ACCMODE =? O_WRONLY then Some (None, s)
      else match ops_vnode s f with
      | None => Some (None, s)
      | Some vn =>
          '(r, s) ← ramfs_vfs_read s vn count (f_offset f);
          match r with
          | Some bytes =>
              Some (r, if 0 <? zlen bytes
                       then set_file s p (with_offset (v_file s p) (f_offset (v_file s p) +64 zlen bytes))
                       else s)
          | None => Some (None, s)
          end
      end
  end.

Definition vfs_write (s : vfs) (file : option file_ptr) (buf : list Z) : option (option Z * vfs) :=
  match file with
  | None => Some (None, s)
  | Some p =>
      let f := v_file s p in
      if Z.land (f_flags f) O_ACCMODE =? O_RDONLY then Some (None, s)
      else match ops_vnode s f with
      | None => Some (None, s)
      | Some vn =>
          s ← (if flag_set (f_flags f) O_APPEND
               then ip ← vn_inode (v_vnode s vn);
                    Some (set_file s p (with_offset f (inode_size (rd_data (v_fs s)) ip)))
               else Some s);
          '(r, s) ← ramfs_vfs_write s vn buf (f_offset (v_file s p));
          match r with
          | Some n =>
              Some (r, if 0 <? n
                       then set_file s p (with_offset (v_file s p) (f_offset (v_file s p) +64 n))
                       else s)
          | None => Some (None, s)
          end
      end
  end.

(** [int64_t] arithmetic wraps: the kernel is built without trapping. *)
Definition vfs_lseek (s : vfs) (file : option file_ptr) (offset whence : Z) : option Z * vfs :=
  match file with
  | None => (None, s)
  | Some p =>
      let f := v_file s p in
      if f_type f =? FILE_TYPE_CONSOLE then (None, s)
      else
        let new_offset :=
          if whence =? SEEK_SET then Some offset
          else if whence =? SEEK_CUR then Some (i64 (i64 (f_offset f) + offset))
          else if whence =? SEEK_END then
            vn ← f_vnode f; ip ← vn_inode (v_vnode s vn);
            Some (i64 (i64 (inode_size (rd_data (v_fs s)) ip) + offset))
          else None in
        match new_offset with
        | None => (None, s)
        | Some o => if o <? 0 then (None, s) else (Some o, set_file s p (with_offset f (u64 o)))
        end
  end.

Definition vfs_stat (s : vfs) (path : option (list Z)) : option stat * vfs :=
  match path with
  | None => (None, s)
  | Some _ =>
      match vfs_lookup s path with
      | (None, s) => (None, s)
      | (Some vn, s) =>
          let r := if vn_ops (v_vnode s vn) then ramfs_vfs_stat s vn else None in
          (r, vnode_unref s (Some vn))
      end
  end.

Definition vfs_fstat (s : vfs) (file : option file_ptr) : option stat :=
  p ← file; vn ← ops_vnode s (v_file s p); ramfs_vfs_stat s vn.

(** [vfs_create]; [vfs_mkdir] is the same code with the directory type. *)
Definition vfs_create (s : vfs) (path : option (list Z)) (type : Z) : bool * vfs :=
  match path with
  | None => (false, s)
  | Some _ =>
      match vfs_lookup_parent s path RAMFS_MAX_FILENAME with
      | (None, s) => (false, s)
      | (Some (parent, name), s) =>
          let '(ok, s) :=
            if vn_ops (v_vnode s parent) then
              match ramfs_vfs_create s parent name type with
              | (None, s) => (false, s)
              | (Some vn, s) => (true, vnode_unref s (Some vn))
              end
            else (false, s) in
          (ok, vnode_unref s (Some parent))
      end
  end.

Definition vfs_mkdir (s : vfs) (path : option (list Z)) : bool * vfs := vfs_create s path INODE_TYPE_DIR.

Definition vfs_readdir (s : vfs) (dir : option file_ptr) (index : Z) : option (list Z) :=
  p ← dir;
  if negb (f_type (v_file s p) =? FILE_TYPE_DIR) then None
  else vn ← ops_vnode s (v_file s p); ramfs_vfs_readdir s vn index.

Definition vfs_unlink (s : vfs) (path : option (list Z)) : bool * vfs :=
  match path with
  | None => (false, s)
  | Some _ =>
      match vfs_lookup_parent s path RAMFS_MAX_FILENAME with
      | (None, s) => (false, s)
      | (Some (parent, name), s) =>
          let '(ok, s) := if vn_ops (v_vnode s parent) then ramfs_vfs_unlink s parent name else (false, s) in
          (ok, vnode_unref s (Some parent))
      end
  end.
