(* ===== verification/VfsRefs.v ===== *)
(** * Reference counting of files and vnodes

    Who holds references to what, as an invariant of the state of Vnode:

    - [H] lists the references to open files held by descriptor tables;
    - [X] lists the vnode references a running operation holds itself;
    - a file's count is its number of occurrences in [H];
    - a vnode's count, the root's aside, is the number of open files that refer
      to it plus its occurrences in [X];
    - at most one live vnode stands for an inode, and it points to that inode.

    The root vnode is only ever counted up; [k] bounds its count.  Each
    operation of vfs.c and file.c is shown to move references the way its
    callers rely on. *)

From Stdlib Require Import ZArith Lia.
From stdpp Require Import base numbers list relations.
From S2P Require Import Prelude.
From S2P Require Import Mem.
From S2P Require Import Bitmap.
From S2P Require Import StringLib.
From S2P Require Import Path.
From S2P Require Import Ramfs.
From S2P Require Import Vnode.
From S2P Require Import File.
From S2P Require Import Vfs.

(** ** Occurrences in a list of references *)

Definition occ {A} `{EqDecision A} (x : A) (l : list A) : Z := Z.of_nat (length (filter (λ y, y = x) l)).

Section occ.
Context {A : Type} `{EqDecision A}.
Implicit Types (x y : A) (l : list A).

Lemma occ_nil x : occ x [] = 0.
Proof. done. Qed.
Lemma occ_cons_eq x l : occ x (x :: l) = occ x l + 1.
Proof. unfold occ. rewrite filter_cons_True by done. simpl. lia. Qed.
Lemma occ_cons_ne x y l : y ≠ x → occ x (y :: l) = occ x l.
Proof. intros. unfold occ. by rewrite filter_cons_False. Qed.
Lemma occ_nonneg x l : 0 <= occ x l.
Proof. unfold occ. lia. Qed.
Lemma occ_le x l : occ x l <= Z.of_nat (length l).
Proof. unfold occ. pose proof (length_filter (λ y, y = x) l). lia. Qed.
Lemma occ_app x l1 l2 : occ x (l1 ++ l2) = occ x l1 + occ x l2.
Proof. unfold occ. rewrite filter_app, length_app. lia. Qed.
Lemma occ_Permutation x l1 l2 : l1 ≡ₚ l2 → occ x l1 = occ x l2.
Proof. intros E. unfold occ. by rewrite E. Qed.
Lemma occ_pos x l : x ∈ l → 0 < occ x l.
Proof.
  intros Hx. unfold occ. assert (Hin : x ∈ filter (λ y, y = x) l) by (by apply list_elem_of_filter).
  destruct (filter _ l); [by apply not_elem_of_nil in Hin|]. simpl. lia.
Qed.

End occ.

(** ** The invariant *)

Definition file_uses (s : vfs) (v i : Z) : bool :=
  (0 <? f_ref (v_file s (OpenFile i))) && bool_decide (f_vnode (v_file s (OpenFile i)) = Some v).

Definition uses (s : vfs) (v : Z) : Z := countZ (file_uses s v) MAX_OPEN_FILES.

Definition vidx (v : Z) : Prop := 0 <= v < MAX_VNODES.
Definition fidx (i : Z) : Prop := 0 <= i < MAX_OPEN_FILES.
Definition valid_ptr (p : file_ptr) : Prop := match p with OpenFile i => fidx i | _ => True end.

(** A live vnode is a complete description of its inode. *)
Definition vnode_complete (v : vnode) : Prop :=
  vn_ops v = true ∧ valid_inode (vn_inode_num v) ∧ vn_inode v = Some (inode_at (vn_inode_num v)).

Record refs_ok (s : vfs) (X : list Z) (H : list file_ptr) (k : Z) : Prop := RefsOk {
  ro_vnode : ∀ v, vidx v → Some v ≠ v_root s → vn_ref (v_vnode s v) = uses s v + occ v X;
  ro_live : ∀ v, vidx v → 0 < vn_ref (v_vnode s v) → vnode_complete (v_vnode s v);
  ro_unique : ∀ v w, vidx v → vidx w → 0 < vn_ref (v_vnode s v) → 0 < vn_ref (v_vnode s w) →
    vn_inode_num (v_vnode s v) = vn_inode_num (v_vnode s w) → v = w;
  ro_root : ∃ r, v_root s = Some r ∧ vidx r ∧ 1 <= vn_ref (v_vnode s r) <= k
    ∧ vn_inode_num (v_vnode s r) = RAMFS_ROOT_INODE;
  ro_file : ∀ i, fidx i → f_ref (v_file s (OpenFile i)) = occ (OpenFile i) H;
  ro_file_vnode : ∀ i v, fidx i → f_vnode (v_file s (OpenFile i)) = Some v → vidx v;
  ro_held : Forall vidx X;
  ro_handles : Forall valid_ptr H;
  ro_small : Z.of_nat (length X) <= 8 ∧ Z.of_nat (length H) < 2 ^ 31;
  ro_tables : v_initialized s = true
    ∧ (v_files_initialized s = true ∨ ∀ i, fidx i → f_ref (v_file s (OpenFile i)) = 0)
}.

Lemma uses_bound s v : 0 <= uses s v <= MAX_OPEN_FILES.
Proof. split; [apply countZ_nonneg|apply countZ_le; done]. Qed.

Lemma uses_ext s s' v :
  (∀ i, fidx i → f_ref (v_file s' (OpenFile i)) = f_ref (v_file s (OpenFile i))
     ∧ f_vnode (v_file s' (OpenFile i)) = f_vnode (v_file s (OpenFile i))) →
  uses s' v = uses s v.
Proof.
  intros H. apply countZ_ext. intros i Hi. unfold file_uses. by destruct (H i Hi) as [-> ->].
Qed.

(** The invariant looks at files only through their counts and vnodes, and at
    the filesystem not at all. *)
Lemma refs_ok_files s s' X H k :
  refs_ok s X H k → v_vnode s' = v_vnode s → v_root s' = v_root s →
  v_initialized s' = v_initialized s → (v_files_initialized s' = true ∨ v_files_initialized s' = v_files_initialized s) →
  (∀ i, fidx i → f_ref (v_file s' (OpenFile i)) = f_ref (v_file s (OpenFile i))
     ∧ f_vnode (v_file s' (OpenFile i)) = f_vnode (v_file s (OpenFile i))) →
  refs_ok s' X H k.
Proof.
  intros [A B C D E F G I J [K L]] Ev Er Ei Ef Hf. constructor; rewrite ?Ev, ?Er, ?Ei; try done.
  - intros v Hv Hr. rewrite (uses_ext s s' v Hf). by apply A.
  - intros i Hi. rewrite (proj1 (Hf i Hi)). by apply E.
  - intros i v Hi. rewrite (proj2 (Hf i Hi)). by apply F.
  - split; [done|]. destruct Ef as [->| ->]; [by left|]. destruct L as [L|L]; [by left|right].
    intros i Hi. rewrite (proj1 (Hf i Hi)). by apply L.
Qed.

Lemma refs_ok_set_fs s fs X H k : refs_ok s X H k → refs_ok (set_fs s fs) X H k.
Proof. intros Hok. apply (refs_ok_files s); auto. Qed.

Lemma refs_ok_weaken s X H k k' : refs_ok s X H k → k <= k' → refs_ok s X H k'.
Proof.
  intros [A B C (r & ? & ? & ? & ?) E F G I J K] Hk. constructor; try done.
  exists r. split_and!; try done; lia.
Qed.

Lemma refs_ok_Permutation s X H H' k : H ≡ₚ H' → refs_ok s X H k → refs_ok s X H' k.
Proof.
  intros Hp [A B C D E F G I [J1 J2] K]. constructor; try done.
  - intros i Hi. rewrite <- (occ_Permutation _ _ _ Hp). by apply E.
  - by rewrite <- Hp.
  - by rewrite <- Hp.
Qed.

(** An assignment to one vnode. *)
Lemma v_vnode_set s i v j : v_vnode (set_vnode s i v) j = if decide (j = i) then v else v_vnode s j.
Proof. done. Qed.

Lemma uses_set_vnode s i v w : uses (set_vnode s i v) w = uses s w.
Proof. done. Qed.

(** Changing the count and contents of vnode [i], which is not the root. *)
Lemma refs_ok_set_vnode s X X' H k i v :
  refs_ok s X H k → vidx i → Some i ≠ v_root s → Forall vidx X' → Z.of_nat (length X') <= 8 →
  vn_ref v = uses s i + occ i X' → (∀ w, w ≠ i → occ w X' = occ w X) →
  (0 < vn_ref v → vnode_complete v
     ∧ ∀ w, vidx w → w ≠ i → 0 < vn_ref (v_vnode s w) → vn_inode_num (v_vnode s w) ≠ vn_inode_num v) →
  refs_ok (set_vnode s i v) X' H k.
Proof.
  intros [A B C D E F G I [J1 J2] K] Hi Hr HX' HlX Hv Hocc Hlive. constructor; try done.
  - intros w Hw Hwr. rewrite v_vnode_set, uses_set_vnode. destruct (decide (w = i)) as [->|Hne]; [done|].
    rewrite Hocc by done. by apply A.
  - intros w Hw. rewrite v_vnode_set. destruct (decide (w = i)) as [->|Hne]; [|by apply B].
    intros Hpos. by apply Hlive.
  - intros w1 w2 Hw1 Hw2. rewrite !v_vnode_set.
    destruct (decide (w1 = i)) as [->|H1], (decide (w2 = i)) as [->|H2]; [done| | |by apply C];
      intros P1 P2 En; exfalso.
    + by apply (proj2 (Hlive P1) w2).
    + by apply (proj2 (Hlive P2) w1).
  - destruct D as (r & Er & Hrr & Hrk & Hrn). exists r. split; [done|]. rewrite v_vnode_set.
    rewrite decide_False by congruence. done.
Qed.

(** ** Vnodes *)

(** Nothing but the vnode table changed. *)
Definition same_files (s s' : vfs) : Prop :=
  v_fs s' = v_fs s ∧ v_root s' = v_root s ∧ v_file s' = v_file s
  ∧ v_initialized s' = v_initialized s ∧ v_files_initialized s' = v_files_initialized s.

Lemma ref_range s X H k v :
  refs_ok s X H k → vidx v → Some v ≠ v_root s → 0 <= vn_ref (v_vnode s v) <= 264.
Proof.
  intros Hok Hv Hr. rewrite (ro_vnode _ _ _ _ Hok v Hv Hr).
  pose proof (uses_bound s v). pose proof (occ_nonneg v X). pose proof (occ_le v X).
  destruct (ro_small _ _ _ _ Hok). unfold MAX_OPEN_FILES in *. lia.
Qed.

(** The vnode table counts only as a function. *)
Lemma refs_ok_vnode_ext s s' X H k :
  refs_ok s X H k → v_root s' = v_root s → v_file s' = v_file s → v_initialized s' = v_initialized s →
  v_files_initialized s' = v_files_initialized s → (∀ w, v_vnode s' w = v_vnode s w) → refs_ok s' X H k.
Proof.
  intros [A B C D E F G I J K] Er Ef Ei Efi Ev.
  assert (Hu : ∀ v, uses s' v = uses s v) by (intros v; apply uses_ext; by rewrite Ef).
  constructor; rewrite ?Er, ?Ef, ?Ei, ?Efi; try done.
  - intros w Hw Hwr. rewrite Ev, Hu. by apply A.
  - intros w. rewrite Ev. apply B.
  - intros w1 w2. rewrite !Ev. apply C.
  - destruct D as (r & ? & ? & ? & ?). exists r. by rewrite Ev.
Qed.

(** Only the last of two assignments to a vnode counts. *)
Lemma refs_ok_set_twice s X H k v v1 v2 :
  refs_ok (set_vnode s v v2) X H k → refs_ok (set_vnode (set_vnode s v v1) v v2) X H k.
Proof.
  intros Hok. eapply refs_ok_vnode_ext; [exact Hok|done..|].
  intros w. rewrite !v_vnode_set. by destruct (decide (w = v)).
Qed.

Lemma with_ref_complete v n : vnode_complete (with_ref v n) ↔ vnode_complete v.
Proof. done. Qed.

Lemma vn_ref_with_ref v n : vn_ref (with_ref v n) = n.
Proof. done. Qed.

(** Dropping a reference the operation holds. *)
Lemma vnode_unref_ok s X H k v :
  refs_ok s (v :: X) H k →
  refs_ok (vnode_unref s (Some v)) X H k ∧ same_files s (vnode_unref s (Some v)).
Proof.
  intros Hok. pose proof (ro_held _ _ _ _ Hok) as HX. apply Forall_cons in HX as [Hv HX].
  destruct (ro_small _ _ _ _ Hok) as [Hs1 Hs2]. simpl in Hs1.
  unfold vnode_unref. destruct (decide (Some v = v_root s)) as [Er|Hr].
  - split; [|done]. destruct Hok as [A B C D E F G I J K]. constructor; try done; [|split; [lia|done]].
    intros w Hw Hwr. rewrite A by done. rewrite occ_cons_ne; [done|congruence].
  - pose proof (ro_vnode _ _ _ _ Hok v Hv Hr) as Href. rewrite occ_cons_eq in Href.
    pose proof (ref_range _ _ _ _ v Hok Hv Hr). pose proof (uses_bound s v). pose proof (occ_nonneg v X).
    rewrite (proj2 (Z.ltb_lt _ _)) by lia. rewrite v_vnode_set, decide_True by done.
    rewrite vn_ref_with_ref. rewrite u32_id by lia.
    assert (Hoth : ∀ w, w ≠ v → occ w X = occ w (v :: X)) by (intros; by rewrite occ_cons_ne by done).
    assert (Hlive := ro_live _ _ _ _ Hok v Hv ltac:(lia)).
    destruct (Z.eqb_spec (vn_ref (v_vnode s v) - 1) 0) as [E0|E0].
    + unfold vnode_free. cbv zeta. rewrite decide_False by done.
      split; [|done]. apply refs_ok_set_twice.
      apply (refs_ok_set_vnode s (v :: X)); simpl; try done; lia.
    + split; [|done]. apply (refs_ok_set_vnode s (v :: X)); try done; [lia|rewrite vn_ref_with_ref; lia|].
      intros _. split; [exact Hlive|]. intros w Hw Hne Hpos En.
      destruct Hne. apply (ro_unique _ _ _ _ Hok w v); try done; lia.
Qed.

(** Taking another reference to a live vnode. *)
Lemma vnode_ref_ok s X H k v :
  refs_ok s X H k → vidx v → 0 < vn_ref (v_vnode s v) → Z.of_nat (length X) < 8 → k + 1 < 2 ^ 32 →
  refs_ok (vnode_ref s (Some v)) (v :: X) H (k + 1)
  ∧ vn_ref (v_vnode (vnode_ref s (Some v)) v) = vn_ref (v_vnode s v) + 1.
Proof.
  intros Hok Hv Hpos HlX Hk. pose proof (ro_live _ _ _ _ Hok v Hv Hpos) as Hlive.
  unfold vnode_ref. rewrite v_vnode_set, decide_True by done. rewrite vn_ref_with_ref.
  destruct (ro_root _ _ _ _ Hok) as (r & Er & Hr & Hrk & Hrn).
  destruct (decide (Some v = v_root s)) as [Evr|Hvr].
  - assert (v = r) as -> by congruence. rewrite u32_id by lia. split; [|done].
    destruct Hok as [A B C D E F G I [J1 J2] K]. constructor; try done.
    + intros w Hw Hwr. assert (w ≠ r) by (intros ->; done). simpl v_root in Hwr.
      rewrite v_vnode_set, decide_False, occ_cons_ne by done. by apply A.
    + intros w Hw. rewrite v_vnode_set. destruct (decide (w = r)) as [->|]; [done|by apply B].
    + intros w1 w2 Hw1 Hw2. rewrite !v_vnode_set.
      destruct (decide (w1 = r)) as [->|], (decide (w2 = r)) as [->|]; [done| | |by apply C]; intros.
      * apply (C r w2); try done; lia.
      * apply (C w1 r); try done; lia.
    + exists r. rewrite v_vnode_set, decide_True by done. simpl. split_and!; try done; lia.
    + by apply Forall_cons.
    + simpl. lia.
  - pose proof (ref_range _ _ _ _ v Hok Hv Hvr). rewrite u32_id by lia. split; [|done].
    apply (refs_ok_weaken _ _ _ k); [|lia]. apply (refs_ok_set_vnode s X); try done.
    + apply Forall_cons. split; [done|exact (ro_held _ _ _ _ Hok)].
    + simpl. lia.
    + rewrite vn_ref_with_ref, occ_cons_eq, (ro_vnode _ _ _ _ Hok v Hv Hvr). lia.
    + intros w Hw. by rewrite occ_cons_ne by done.
    + intros _. split; [exact Hlive|]. intros w Hw Hne Hwpos En.
      destruct Hne. by apply (ro_unique _ _ _ _ Hok w v).
Qed.

(** Taking a reference to the vnode of inode [n], made for it if there is none. *)
Lemma vnode_get_or_create_ok s X H k n :
  refs_ok s X H k → fs_wf (v_fs s) → 0 <= n → Z.of_nat (length X) < 8 → k + 1 < 2 ^ 32 →
  match vnode_get_or_create s n with
  | (Some v, s') => refs_ok s' (v :: X) H (k + 1) ∧ same_files s s' ∧ vidx v ∧ valid_inode n
      ∧ vn_inode_num (v_vnode s' v) = n ∧ 0 < vn_ref (v_vnode s' v)
  | (None, s') => refs_ok s' X H k ∧ same_files s s'
  end.
Proof.
  intros Hok Hwf Hn HlX Hk. unfold vnode_get_or_create.
  pose proof (find_first_spec 0 MAX_VNODES (λ i, (0 <? vn_ref (v_vnode s i))
    && (vn_inode_num (v_vnode s i) =? n))) as Hf.
  destruct (find_first _ _ _) as [v|].
  - destruct Hf as (Hv & Hp & _). apply andb_true_iff in Hp as [Hpos%Z.ltb_lt Hnum%Z.eqb_eq].
    destruct (vnode_ref_ok s X H k v Hok Hv Hpos HlX Hk) as [Hok' Hr].
    split_and!; try done; [rewrite <- Hnum; by apply (ro_live _ _ _ _ Hok v Hv)| |lia].
    unfold vnode_ref. by rewrite v_vnode_set, decide_True by done.
  - unfold vnode_alloc.
    pose proof (find_first_spec 0 MAX_VNODES (λ i, vn_ref (v_vnode s i) =? 0)) as Hf2.
    destruct (find_first 0 MAX_VNODES (λ i, vn_ref (v_vnode s i) =? 0)) as [v|]; [|done].
    destruct Hf2 as (Hv & Hz%Z.eqb_eq & _). cbv zeta.
    assert (Hvr : Some v ≠ v_root s).
    { destruct (ro_root _ _ _ _ Hok) as (r & Er & _ & Hrk & _). intros E.
      assert (v = r) as -> by congruence. lia. }
    pose proof (ro_vnode _ _ _ _ Hok v Hv Hvr) as Href. pose proof (uses_bound s v).
    pose proof (occ_nonneg v X).
    change (v_fs (set_vnode s v (Vnode 0 0 1 None false))) with (v_fs s).
    destruct (get_inode_cases (v_fs s) n Hwf Hn) as [[Hvalid ->]| ->].
    + rewrite (v_vnode_set s v), decide_True by done. simpl vn_ref.
      split_and!; try done; [|by simpl; rewrite decide_True by done..].
      apply refs_ok_set_twice. apply (refs_ok_weaken _ _ _ k); [|lia]. apply (refs_ok_set_vnode s X); try done.
      * apply Forall_cons. split; [done|exact (ro_held _ _ _ _ Hok)].
      * simpl. lia.
      * rewrite occ_cons_eq. simpl. lia.
      * intros w Hw. by rewrite occ_cons_ne by done.
      * intros _. split; [done|]. intros w Hw Hne Hwpos En. simpl in En.
        specialize (Hf w Hw). cbv beta in Hf. rewrite En, Z.eqb_refl, andb_true_r in Hf.
        apply Z.ltb_ge in Hf. lia.
    + unfold vnode_free. rewrite decide_False by done. split; [|done]. apply refs_ok_set_twice.
      apply (refs_ok_set_vnode s X); simpl; try done; try lia.
      exact (ro_held _ _ _ _ Hok).
Qed.

(** ** Files *)

Lemma v_file_set s p f q : v_file (set_file s p f) q = if decide (q = p) then f else v_file s q.
Proof. done. Qed.

(** Everything but the file table is kept. *)
Definition same_vnodes (s s' : vfs) : Prop :=
  v_fs s' = v_fs s ∧ v_vnode s' = v_vnode s ∧ v_root s' = v_root s ∧ v_initialized s' = v_initialized s.

Lemma init_file_table_files s :
  same_vnodes s (init_file_table s) ∧ v_files_initialized (init_file_table s) = true
  ∧ if v_files_initialized s then init_file_table s = s
    else ∀ i, fidx i → v_file (init_file_table s) (OpenFile i) = File 0 0 0 0 0 None.
Proof.
  unfold init_file_table. destruct (v_files_initialized s) eqn:Ei; [done|].
  set (s1 := for_each _ _ _ s).
  assert (H1 : same_vnodes s s1 ∧ ∀ i, fidx i → v_file s1 (OpenFile i) = File 0 0 0 0 0 None).
  { unfold s1. set (I := λ k s', same_vnodes s s'
      ∧ ∀ i, 0 <= i < k → v_file s' (OpenFile i) = File 0 0 0 0 0 None).
    apply (for_each_inv I); [done|split; [done|lia]|]. intros i s2 Hi [Hs Hf]. split; [done|].
    intros j Hj. rewrite v_file_set. destruct (decide (OpenFile j = OpenFile i)) as [|Hne]; [done|].
    apply Hf. assert (j ≠ i) by congruence. lia. }
  clearbody s1. destruct H1 as [Hs Hf]. split_and!; [exact Hs|done|]. intros i Hi. simpl.
  repeat (destruct (decide _) as [|_]; [congruence|]). by apply Hf.
Qed.

Lemma init_file_table_ok s X H k :
  refs_ok s X H k → refs_ok (init_file_table s) X H k ∧ same_vnodes s (init_file_table s).
Proof.
  intros Hok. destruct (init_file_table_files s) as (Hs & Hi & Hf). split; [|done].
  destruct (v_files_initialized s) eqn:Ei; [by rewrite Hf|].
  destruct Hs as (Efs & Ev & Er & Ein). destruct Hok as [A B C D E F G I J [K1 K2]].
  destruct K2 as [K2|Hz]; [congruence|].
  assert (Hu0 : ∀ v, uses s v = 0).
  { intros v. apply countZ_all_false. intros i Hir. unfold file_uses. by rewrite Hz. }
  assert (Hu1 : ∀ v, uses (init_file_table s) v = 0).
  { intros v. apply countZ_all_false. intros i Hir. unfold file_uses. by rewrite Hf. }
  constructor; rewrite ?Ev, ?Er, ?Ein; try done; [..|by split; [|left]].
  - intros v Hv Hr. rewrite Hu1, <- (Hu0 v). by apply A.
  - intros i Hir. rewrite <- E, Hz, Hf by done. done.
  - intros i v Hir. by rewrite Hf.
Qed.

(** Changing one open file from uses of [x] to uses of [y]. *)
Lemma uses_set_file s i f v :
  fidx i →
  let b := file_uses s v i in
  let b' := (0 <? f_ref f) && bool_decide (f_vnode f = Some v) in
  uses (set_file s (OpenFile i) f) v = uses s v + (if b' then 1 else 0) - (if b then 1 else 0).
Proof.
  intros Hi b b'. set (s' := set_file _ _ _).
  assert (Hoth : ∀ j, 0 <= j < MAX_OPEN_FILES → j ≠ i → file_uses s v j = file_uses s' v j).
  { intros j Hj Hne. unfold file_uses, s'. rewrite v_file_set, decide_False by congruence. done. }
  assert (Hself : file_uses s' v i = b').
  { unfold file_uses, s'. by rewrite v_file_set, decide_True by done. }
  assert (Hb : file_uses s v i = b) by done. clearbody b b'. unfold uses.
  assert (Hsame : b = b' → countZ (file_uses s' v) MAX_OPEN_FILES = countZ (file_uses s v) MAX_OPEN_FILES).
  { intros ->. apply countZ_ext. intros j Hj.
    destruct (decide (j = i)) as [->|]; [congruence|]. symmetry. by apply Hoth. }
  destruct b, b'.
  - rewrite Hsame by done. lia.
  - rewrite (countZ_remove (file_uses s v) (file_uses s' v) _ i) by done. lia.
  - rewrite (countZ_add (file_uses s v) (file_uses s' v) _ i) by done. lia.
  - rewrite Hsame by done. lia.
Qed.

(** Rewriting one entry of the open file table, the references moving with it. *)
Lemma refs_ok_set_file s X X' H H' k i f :
  refs_ok s X H k → fidx i → v_files_initialized s = true →
  f_ref f = occ (OpenFile i) H' → (∀ q, q ≠ OpenFile i → occ q H' = occ q H) →
  Forall valid_ptr H' → Z.of_nat (length H') < 2 ^ 31 →
  Forall vidx X' → Z.of_nat (length X') <= 8 → (∀ v, f_vnode f = Some v → vidx v) →
  (∀ v, vidx v →
     (if (0 <? f_ref f) && bool_decide (f_vnode f = Some v) then 1 else 0) + occ v X'
     = (if file_uses s v i then 1 else 0) + occ v X) →
  refs_ok (set_file s (OpenFile i) f) X' H' k.
Proof.
  intros [A B C D E F G I J [K1 K2]] Hi Hfi Hf Hq HH' HlH HX' HlX Hfv Hbal. constructor; try done.
  - intros v Hv Hr. rewrite (uses_set_file s i f v Hi). cbv zeta. specialize (Hbal v Hv).
    change (v_vnode (set_file s (OpenFile i) f) v) with (v_vnode s v). rewrite (A v Hv Hr). lia.
  - intros j Hj. rewrite v_file_set. destruct (decide (OpenFile j = OpenFile i)) as [[= ->]|Hne]; [done|].
    rewrite Hq by done. by apply E.
  - intros j v Hj. rewrite v_file_set. destruct (decide (OpenFile j = OpenFile i)) as [[= ->]|Hne]; [apply Hfv|].
    by apply F.
  - split; [done|by left].
Qed.

(** A console reference is not counted. *)
Lemma occ_console p i H : file_is_console (Some p) = true → occ (OpenFile i) (p :: H) = occ (OpenFile i) H.
Proof. intros Hp. apply occ_cons_ne. by intros ->. Qed.

Lemma refs_ok_console s X H k p :
  file_is_console (Some p) = true → Z.of_nat (length H) + 1 < 2 ^ 31 →
  refs_ok s X H k ↔ refs_ok s X (p :: H) k.
Proof.
  intros Hp Hl.
  split; intros [A B C D E F G I [J1 J2] K]; constructor; try done.
  - intros i Hi. rewrite occ_console by done. by apply E.
  - apply Forall_cons. split; [by destruct p|done].
  - simpl. lia.
  - intros i Hi. rewrite <- (occ_console p) by done. by apply E.
  - by apply Forall_cons in I as [_ I].
  - simpl in J2. lia.
Qed.

Lemma refs_ok_set_console s X H k p f :
  file_is_console (Some p) = true → refs_ok s X H k → refs_ok (set_file s p f) X H k.
Proof.
  intros Hp Hok. apply (refs_ok_files s); auto.
  intros i Hi. rewrite v_file_set. rewrite decide_False; [done|]. by intros <-.
Qed.

(** A referenced file exists only once the table has been set up. *)
Lemma held_initialized s X H k i :
  refs_ok s X H k → fidx i → OpenFile i ∈ H → v_files_initialized s = true.
Proof.
  intros Hok Hi Hin. destruct (ro_tables _ _ _ _ Hok) as [_ [Hf|Hz]]; [done|].
  specialize (Hz i Hi). rewrite (ro_file _ _ _ _ Hok i Hi) in Hz.
  pose proof (occ_pos _ _ Hin). lia.
Qed.

(** Changes that keep a file's count and vnode. *)
Lemma refs_ok_touch_file s X H k p f :
  refs_ok s X H k → f_ref f = f_ref (v_file s p) → f_vnode f = f_vnode (v_file s p) →
  refs_ok (set_file s p f) X H k.
Proof.
  intros Hok Hr Hv. apply (refs_ok_files s); auto.
  intros i Hi. rewrite v_file_set. by destruct (decide (OpenFile i = p)) as [<-|].
Qed.

Lemma file_alloc_ok s X H k :
  refs_ok s X H k → Z.of_nat (length H) + 1 < 2 ^ 31 →
  match file_alloc s with
  | (Some p, s') => ∃ i, p = OpenFile i ∧ fidx i ∧ refs_ok s' X (p :: H) k ∧ same_vnodes s s'
      ∧ v_files_initialized s' = true ∧ f_vnode (v_file s' p) = None ∧ f_ref (v_file s' p) = 1
  | (None, s') => refs_ok s' X H k ∧ same_vnodes s s'
  end.
Proof.
  intros Hok Hl. destruct (init_file_table_ok s X H k Hok) as [Hok1 Hs1].
  destruct (init_file_table_files s) as (_ & Hi1 & _). unfold file_alloc.
  set (s1 := init_file_table s) in *. clearbody s1. cbv zeta.
  pose proof (find_first_spec 0 MAX_OPEN_FILES (λ i, f_ref (v_file s1 (OpenFile i)) =? 0)) as Hf.
  destruct (find_first _ _ _) as [i|]; [|done]. destruct Hf as (Hi & Hz%Z.eqb_eq & _).
  assert (Ho : occ (OpenFile i) H = 0) by (rewrite <- (ro_file _ _ _ _ Hok1 i Hi); done).
  exists i. split_and!; try done; [|by apply Hs1..|rewrite v_file_set; by rewrite decide_True by done|rewrite v_file_set; by rewrite decide_True by done].
  apply (refs_ok_set_file s1 X X H); try done.
  - rewrite occ_cons_eq, Ho. done.
  - intros q Hq. by rewrite occ_cons_ne by done.
  - apply Forall_cons. split; [done|exact (ro_handles _ _ _ _ Hok1)].
  - simpl. lia.
  - exact (ro_held _ _ _ _ Hok1).
  - exact (proj1 (ro_small _ _ _ _ Hok1)).
  - intros v Hv. unfold file_uses. rewrite Hz. simpl. lia.
Qed.

(** Handing the operation's vnode reference to a fresh file. *)
Lemma attach_vnode_ok s X H k i vn f :
  refs_ok s (vn :: X) (OpenFile i :: H) k → fidx i →
  f_vnode (v_file s (OpenFile i)) = None → f_ref f = f_ref (v_file s (OpenFile i)) → f_vnode f = Some vn →
  refs_ok (set_file s (OpenFile i) f) X (OpenFile i :: H) k.
Proof.
  intros Hok Hi Hn Hr Hv. pose proof (ro_held _ _ _ _ Hok) as HX. apply Forall_cons in HX as [Hvn HX].
  pose proof (ro_small _ _ _ _ Hok) as [Hs1 Hs2]. simpl in Hs1.
  pose proof (ro_file _ _ _ _ Hok i Hi) as Hc.
  apply (refs_ok_set_file s (vn :: X) X (OpenFile i :: H)); try done.
  - apply (held_initialized _ _ _ _ i Hok Hi). by left.
  - congruence.
  - exact (ro_handles _ _ _ _ Hok).
  - lia.
  - intros v. rewrite Hv. by intros [= ->].
  - intros v Hvv. rewrite Hr, Hc, occ_cons_eq, Hv. unfold file_uses. rewrite Hn.
    pose proof (occ_nonneg (OpenFile i) H).
    rewrite (proj2 (Z.ltb_lt _ _)) by lia. rewrite (bool_decide_false (None = Some v)) by done.
    rewrite andb_false_r. simpl. destruct (decide (vn = v)) as [->|Hne].
    + rewrite bool_decide_true, occ_cons_eq by done. lia.
    + rewrite bool_decide_false, occ_cons_ne by congruence. lia.
Qed.

(** Giving a handle back. *)
Lemma file_unref_ok s X H k p :
  refs_ok s X (p :: H) k → Z.of_nat (length X) < 8 →
  refs_ok (file_unref s (Some p)) X H k ∧ v_fs (file_unref s (Some p)) = v_fs s.
Proof.
  intros Hok HlX. pose proof (ro_small _ _ _ _ Hok) as [_ Hs2]. simpl in Hs2.
  unfold file_unref. destruct (file_is_console (Some p)) eqn:Ec.
  { split; [|done]. apply (refs_ok_console _ _ _ _ p); [done|lia|done]. }
  destruct p as [i| | |]; try done.
  pose proof (ro_handles _ _ _ _ Hok) as HH. apply Forall_cons in HH as [Hi HH]. simpl in Hi.
  assert (Hin : v_files_initialized s = true) by (apply (held_initialized _ _ _ _ i Hok Hi); by left).
  pose proof (ro_file _ _ _ _ Hok i Hi) as Hc. rewrite occ_cons_eq in Hc.
  pose proof (occ_nonneg (OpenFile i) H) as Ho0. pose proof (occ_le (OpenFile i) H) as Ho1.
  rewrite (proj2 (Z.ltb_lt _ _)) by lia. cbv zeta. rewrite v_file_set, decide_True by done. simpl f_ref.
  rewrite u32_id by lia. set (f := v_file s (OpenFile i)) in *.
  replace (f_ref f - 1) with (occ (OpenFile i) H) by lia.
  assert (Hoth : ∀ q, q ≠ OpenFile i → occ q H = occ q (OpenFile i :: H)) by (intros; by rewrite occ_cons_ne by done).
  assert (Hfv : ∀ v, f_vnode f = Some v → vidx v) by (intros v; apply (ro_file_vnode _ _ _ _ Hok i v Hi)).
  pose proof (ro_held _ _ _ _ Hok) as HX.
  assert (Hu : ∀ v, file_uses s v i = bool_decide (f_vnode f = Some v)).
  { intros v. unfold file_uses. by rewrite (proj2 (Z.ltb_lt _ _)) by (fold f; lia). }
  destruct (Z.eqb_spec (occ (OpenFile i) H) 0) as [E0|E0].
  2:{ split; [|done]. apply (refs_ok_set_file s X X (OpenFile i :: H)); try done; try lia.
      intros v Hv. rewrite Hu. simpl f_ref. by rewrite (proj2 (Z.ltb_lt _ _)) by lia. }
  rewrite E0. unfold file_free. cbn [file_is_console]. rewrite v_file_set, decide_True by done.
  set (s1 := set_file s (OpenFile i) (with_file_ref f 0)). cbn [f_vnode with_file_ref].
  set (X1 := match f_vnode f with Some vn => vn :: X | None => X end).
  assert (Hok1 : refs_ok s1 X1 H k).
  { apply (refs_ok_set_file s X X1 (OpenFile i :: H)); try done; try lia.
    - unfold X1. destruct (f_vnode f) as [vn|] eqn:Ev; [|done]. apply Forall_cons. auto.
    - unfold X1. destruct (f_vnode f); simpl; lia.
    - intros v Hv. rewrite Hu. simpl. unfold X1. destruct (f_vnode f) as [vn|]; [|done].
      destruct (decide (vn = v)) as [->|Hne].
      + rewrite bool_decide_true, occ_cons_eq by done. lia.
      + rewrite bool_decide_false, occ_cons_ne by congruence. done. }
  set (s2 := match f_vnode f with Some vn => vnode_unref s1 (Some vn) | None => s1 end).
  assert (Hok2 : refs_ok s2 X H k ∧ same_files s1 s2).
  { unfold s2, X1 in *. destruct (f_vnode f) as [vn|]; [by apply vnode_unref_ok|done]. }
  destruct Hok2 as [Hok2 (Efs & _ & Efl & _ & Ein)]. split; [|exact Efs].
  apply (refs_ok_set_file s2 X X H); try done; try lia.
  - by rewrite Ein.
  - intros v Hv. unfold file_uses. rewrite Efl. unfold s1. by rewrite v_file_set, decide_True by done.
Qed.

(** Copying a handle. *)
Lemma file_ref_ok s X H k p :
  refs_ok s X H k → p ∈ H → Z.of_nat (length H) + 1 < 2 ^ 31 →
  refs_ok (file_ref s (Some p)) X (p :: H) k ∧ v_fs (file_ref s (Some p)) = v_fs s.
Proof.
  intros Hok Hp Hl. split; [|done]. unfold file_ref. destruct (file_is_console (Some p)) eqn:Ec.
  { apply refs_ok_console; [done|lia|]. by apply refs_ok_set_console. }
  destruct p as [i| | |]; try done. pose proof (ro_handles _ _ _ _ Hok) as HH.
  assert (Hi : fidx i) by (rewrite Forall_forall in HH; exact (HH _ Hp)).
  pose proof (ro_file _ _ _ _ Hok i Hi) as Hc. pose proof (occ_pos _ _ Hp).
  pose proof (occ_le (OpenFile i) H). rewrite u32_id by lia.
  apply (refs_ok_set_file s X X H); try done.
  - by apply (held_initialized _ _ _ _ i Hok).
  - rewrite occ_cons_eq. simpl. lia.
  - intros q Hq. by rewrite occ_cons_ne by done.
  - by apply Forall_cons.
  - simpl. lia.
  - exact (ro_held _ _ _ _ Hok).
  - apply (ro_small _ _ _ _ Hok).
  - intros v. apply (ro_file_vnode _ _ _ _ Hok i v Hi).
  - intros v Hv. unfold file_uses. simpl. rewrite !(proj2 (Z.ltb_lt _ _)) by lia. done.
Qed.

(** ** Offsets and console files *)

(** Offsets are 64-bit values; console files have no vnode. *)
Definition files_ok (s : vfs) : Prop :=
  ∀ p, is_u64 (f_offset (v_file s p)) ∧ (file_is_console (Some p) = true → f_vnode (v_file s p) = None).

Lemma files_ok_set_file s p f :
  files_ok s → is_u64 (f_offset f) → (file_is_console (Some p) = true → f_vnode f = None) →
  files_ok (set_file s p f).
Proof. intros Hf Ho Hv q. rewrite v_file_set. by destruct (decide (q = p)) as [->|]; [|apply Hf]. Qed.

Lemma files_ok_same s s' : files_ok s → v_file s' = v_file s → files_ok s'.
Proof. intros Hf E p. rewrite E. apply Hf. Qed.

Lemma init_file_table_files_ok s : files_ok s → files_ok (init_file_table s).
Proof.
  intros Hf. unfold init_file_table. destruct (v_files_initialized s); [done|]. set (s1 := for_each _ _ _ s).
  assert (H1 : files_ok s1).
  { unfold s1. apply (for_each_inv (λ _, files_ok)); [done|done|].
    intros i s2 _ H2. by apply files_ok_set_file. }
  clearbody s1. eapply files_ok_same; [|done].
  apply files_ok_set_file; [apply files_ok_set_file; [apply files_ok_set_file; [exact H1|..]|..]|..]; done.
Qed.

Lemma file_alloc_files_ok s : files_ok s → files_ok (file_alloc s).2.
Proof.
  intros Hf. unfold file_alloc. pose proof (init_file_table_files_ok s Hf) as H1. cbv zeta.
  destruct (find_first _ _ _); [|done]. by apply files_ok_set_file.
Qed.

Lemma vnode_unref_files s vn : v_file (vnode_unref s vn) = v_file s.
Proof.
  destruct vn as [v|]; [|done]. unfold vnode_unref, vnode_free. destruct (decide _); [done|].
  destruct (0 <? _); [|done]. cbv zeta. destruct (_ =? 0); [|done]. by destruct (decide (Some v = _)).
Qed.

Lemma file_unref_files_ok s p : files_ok s → files_ok (file_unref s (Some p)).
Proof.
  intros Hf. unfold file_unref, file_free. destruct (file_is_console (Some p)) eqn:Ec; [done|].
  destruct (0 <? _); [|done]. cbv zeta. set (s1 := set_file _ _ _).
  assert (H1 : files_ok s1) by (apply files_ok_set_file; [done|apply Hf|congruence]). clearbody s1.
  destruct (_ =? 0); [|done]. apply files_ok_set_file; [|done|done].
  destruct (f_vnode _) as [v|]; [|done]. eapply files_ok_same; [exact H1|apply vnode_unref_files].
Qed.

Lemma file_ref_files_ok s p : files_ok s → files_ok (file_ref s (Some p)).
Proof. intros Hf. apply files_ok_set_file; [done|apply Hf..]. Qed.
