(* ===== verification/VfsSpec.v ===== *)
(** * The VFS invariant and the theorems about vfs.c and file.c

    [vfs_ok] joins the reference counts of VfsRefs, the disk invariant of Ramfs
    and the ranges of the open files.  Every operation of vfs.c, and those of
    file.c on descriptor tables, is shown to preserve it. *)

From Stdlib Require Import ZArith Lia.
From stdpp Require Import base numbers list relations.
From S2P Require Import Prelude.
From S2P Require Import Mem.
From S2P Require Import Bitmap.
From S2P Require Import StringLib.
From S2P Require Import Path.
From S2P Require Import Ramfs.
From S2P Require Import Vnode.
From S2P Require Import File.
From S2P Require Import Vfs.
From S2P Require Import VfsRefs.

(** ** Paths and names are bytes *)

Section path_bytes.
Context (P : Z → Prop) (HS : P Path.SLASH).

Lemma skip_slashes_Forall p : Forall P p → Forall P (skip_slashes p).
Proof. induction 1 as [|c p Hc Hp IH]; simpl; [done|]. destruct (c =? _); [done|]. by apply Forall_cons. Qed.

Lemma component_Forall p comp rest : Forall P p → component p = (comp, rest) → Forall P comp ∧ Forall P rest.
Proof.
  intros Hp. revert comp rest. induction Hp as [|c p Hc Hp IH]; intros comp rest; simpl; [by intros [= <- <-]|].
  destruct (c =? _); [intros [= <- <-]; by auto using Forall_cons_2|].
  destruct (component p) as [comp' rest']. intros [= <- <-]. destruct (IH _ _ eq_refl).
  by auto using Forall_cons_2.
Qed.

Lemma trim_Forall fuel cut work : Forall P work → Forall P (trim fuel cut work).
Proof.
  revert work. induction fuel as [|fuel IH]; intros work Hw; simpl; [done|].
  destruct (_ && _); [|done]. by apply IH, Forall_take.
Qed.

Lemma add_component_Forall comp work work' :
  Forall P comp → Forall P work → add_component comp work = Some work' → Forall P work'.
Proof.
  intros Hc Hw. unfold add_component. destruct (bool_decide _); [by intros [= <-]|].
  destruct (bool_decide _).
  - intros [= <-]. unfold go_up. destruct (1 <? _); [|done]. apply trim_Forall.
    destruct (_ =? _); [by apply Forall_take|done].
  - unfold append_component. destruct (add_slash work) as [w|] eqn:Ea; [|done]. rewrite bind_Some_eq.
    destruct (_ <=? _); [done|]. intros [= <-]. apply Forall_app. split; [|done]. revert Ea.
    unfold add_slash. destruct (_ && _); [|by intros [= <-]]. destruct (_ <=? _); [done|].
    intros [= <-]. apply Forall_app. by auto using Forall_cons_2.
Qed.

Lemma process_Forall fuel p work work' :
  Forall P p → Forall P work → process fuel p work = Some work' → Forall P work'.
Proof.
  revert p work. induction fuel as [|fuel IH]; intros p work Hp Hw; cbn [process]; [done|].
  pose proof (skip_slashes_Forall p Hp) as Hs. destruct (skip_slashes p) as [|c q]; [by intros [= <-]|].
  destruct (component (c :: q)) as [comp rest] eqn:Ec. destruct (component_Forall _ _ _ Hs Ec) as [H1 H2].
  destruct (add_component comp work) as [w|] eqn:Ea; [|done]. rewrite bind_Some_eq.
  apply IH; [done|]. by eapply add_component_Forall; [exact H1|exact Hw|exact Ea].
Qed.

Lemma start_path_Forall path cwd w :
  Forall P cwd → start_path path (Some cwd) = Some w → Forall P w.
Proof.
  intros Hc. unfold start_path. destruct (_ =? _); [intros [= <-]; by auto using Forall_cons_2|].
  destruct (_ =? _); [|intros [= <-]; by auto using Forall_cons_2]. destruct (_ <=? _); [done|].
  unfold add_slash. destruct (_ && _); [|by intros [= <-]]. destruct (_ <=? _); [done|].
  intros [= <-]. apply Forall_app. by auto using Forall_cons_2.
Qed.

Lemma path_normalize_Forall path cwd size r :
  Forall P path → Forall P cwd → path_normalize (Some path) (Some cwd) size = Some r → Forall P r.
Proof.
  intros Hp Hc. unfold path_normalize. destruct (size =? 0); [done|].
  destruct (start_path path (Some cwd)) as [w0|] eqn:Es; [|done]. pose proof (start_path_Forall _ _ _ Hc Es) as Hw0.
  rewrite bind_Some_eq. cbv zeta. set (p := if char_at path 0 =? _ then _ else _).
  assert (Hp' : Forall P p) by (unfold p; destruct (_ =? _); [by apply Forall_drop|done]). clearbody p.
  destruct (process _ p w0) as [w|] eqn:Ep; [|done]. rewrite bind_Some_eq.
  assert (Hw : Forall P w) by (by eapply process_Forall; [| |exact Ep]).
  destruct (_ <=? _); [done|]. intros [= <-]. apply trim_Forall.
  destruct (_ =? _); by auto using Forall_cons_2.
Qed.

Lemma path_basename_Forall path : P Path.DOT → Forall P path → Forall P (path_basename (Some path)).
Proof.
  intros HD Hp. unfold path_basename. destruct path as [|c path]; [by auto using Forall_cons_2|].
  destruct (last_slash 0 None (c :: path)) as [ls|]; [|done]. destruct (_ =? 0); [|by apply Forall_drop].
  cbv zeta. destruct (_ && _); [by auto using Forall_cons_2|by apply Forall_drop].
Qed.

Lemma path_dirname_Forall path size r :
  P Path.DOT → Forall P path → path_dirname (Some path) size = Some r → Forall P r.
Proof.
  intros HD Hp. unfold path_dirname. destruct (size =? 0); [done|].
  destruct path as [|c path]; [destruct (size <? 2); [done|]; intros [= <-]; by auto using Forall_cons_2|].
  destruct (last_slash 0 None (c :: path)) as [[|ls]|].
  - destruct (size <? 2); [done|]. intros [= <-]. by auto using Forall_cons_2.
  - destruct (size <=? _); [done|]. intros [= <-]. change (Forall P (take (S ls) (c :: path))). by apply Forall_take.
  - destruct (size <? 2); [done|]. intros [= <-]. by auto using Forall_cons_2.
Qed.

End path_bytes.

(** ** Path resolution *)

Definition bytes_path (path : option (list Z)) : Prop := ∀ p, path = Some p → Forall (λ b, 0 <= b < 256) p.

(** What holds between two operations, [k] bounding the root's count. *)
Definition vfs_ok (s : vfs) (X : list Z) (H : list file_ptr) (k : Z) : Prop :=
  refs_ok s X H k ∧ fs_wf (v_fs s) ∧ files_ok s.

Lemma vfs_ok_refs s s' X X' H H' k k' :
  vfs_ok s X H k → refs_ok s' X' H' k' → v_fs s' = v_fs s → v_file s' = v_file s → vfs_ok s' X' H' k'.
Proof. intros (_ & Hwf & Hf) Hok' Efs Ef. split_and!; [done|by rewrite Efs|by eapply files_ok_same]. Qed.

Lemma vfs_ok_weaken s X H k k' : vfs_ok s X H k → k <= k' → vfs_ok s X H k'.
Proof. intros Hok Hk. eapply vfs_ok_refs; [done|by eapply refs_ok_weaken; [apply Hok|]|done|done]. Qed.

Lemma vfs_ok_fs s fs X H k : vfs_ok s X H k → fs_wf fs → vfs_ok (set_fs s fs) X H k.
Proof. intros (Hok & _ & Hf) Hfs. split_and!; [by apply refs_ok_set_fs|done|done]. Qed.

(** A vnode the operation holds can be followed to its inode. *)
Lemma held_vnode s X H k v :
  refs_ok s (v :: X) H k →
  vn_ops (v_vnode s v) = true ∧ valid_inode (vn_inode_num (v_vnode s v))
  ∧ vn_inode (v_vnode s v) = Some (inode_at (vn_inode_num (v_vnode s v))).
Proof.
  intros Hok. pose proof (ro_held _ _ _ _ Hok) as HX. apply Forall_cons in HX as [Hv HX].
  assert (Hpos : 0 < vn_ref (v_vnode s v)).
  { destruct (ro_root _ _ _ _ Hok) as (r & Er & _ & Hr & _). destruct (decide (Some v = v_root s)) as [E|Hne].
    - assert (v = r) as -> by congruence. lia.
    - rewrite (ro_vnode _ _ _ _ Hok v Hv Hne), occ_cons_eq. pose proof (uses_bound s v).
      pose proof (occ_nonneg v X). lia. }
  exact (ro_live _ _ _ _ Hok v Hv Hpos).
Qed.

Lemma ramfs_lookup_path_nonneg s p n : fs_wf s → ramfs_lookup_path s p = Some n → 0 <= n.
Proof.
  intros Hwf. unfold ramfs_lookup_path. destruct p as [|c p]; [done|]. destruct (negb _); [done|].
  by apply lookup_walk_nonneg.
Qed.

(** The outcome of an operation that may return a vnode reference. *)
Definition returns_vnode (X : list Z) (H : list file_ptr) (k : Z) (r : option Z * vfs) : Prop :=
  match r with
  | (Some v, s') => vfs_ok s' (v :: X) H k
  | (None, s') => vfs_ok s' X H k
  end.

Lemma get_or_create_ok s X H k n :
  vfs_ok s X H k → 0 <= n → Z.of_nat (length X) < 8 → k + 1 < 2 ^ 32 →
  returns_vnode X H (k + 1) (vnode_get_or_create s n).
Proof.
  intros Hall Hn HlX Hk. pose proof Hall as (Hok & Hwf & _).
  pose proof (vnode_get_or_create_ok s X H k n Hok Hwf Hn HlX Hk) as Hg.
  destruct (vnode_get_or_create s n) as [[v|] s'].
  - destruct Hg as (Hok' & (Efs & _ & Ef & _) & _). by eapply vfs_ok_refs.
  - destruct Hg as (Hok' & (Efs & _ & Ef & _)). apply (vfs_ok_weaken _ _ _ k); [by eapply vfs_ok_refs|lia].
Qed.

Lemma vfs_lookup_ok s X H k path :
  vfs_ok s X H k → Z.of_nat (length X) < 8 → k + 1 < 2 ^ 32 →
  returns_vnode X H (k + 1) (vfs_lookup s path).
Proof.
  intros Hok HlX Hk. assert (Hn : vfs_ok s X H (k + 1)) by (apply (vfs_ok_weaken _ _ _ k); [done|lia]).
  unfold vfs_lookup. destruct path as [p|]; [|done].
  destruct (negb _); [done|]. destruct (path_normalize _ _ _) as [np|]; [|done].
  destruct (ramfs_lookup_path (v_fs s) np) as [n|] eqn:El; [|done].
  apply get_or_create_ok; try done. by eapply ramfs_lookup_path_nonneg; [apply Hok|].
Qed.

Lemma vfs_lookup_parent_ok s X H k path size :
  vfs_ok s X H k → bytes_path path → Z.of_nat (length X) < 8 → k + 1 < 2 ^ 32 →
  match vfs_lookup_parent s path size with
  | (Some (v, name), s') => vfs_ok s' (v :: X) H (k + 1) ∧ Forall (λ b, 0 <= b < 256) name
  | (None, s') => vfs_ok s' X H (k + 1)
  end.
Proof.
  intros Hok Hb HlX Hk. assert (Hn : vfs_ok s X H (k + 1)) by (apply (vfs_ok_weaken _ _ _ k); [done|lia]).
  unfold vfs_lookup_parent. destruct path as [p|]; [|done]. destruct (size =? 0); [done|].
  destruct (path_normalize _ _ _) as [np|] eqn:En; [|done]. destruct (path_dirname _ _) as [pp|]; [|done].
  cbv zeta. destruct (_ <=? _); [done|]. pose proof (vfs_lookup_ok s X H k (Some pp) Hok HlX Hk) as Hl.
  destruct (vfs_lookup s (Some pp)) as [[v|] s']; [|done]. split; [exact Hl|].
  apply path_basename_Forall; [done..|]. eapply path_normalize_Forall; [|by apply Hb| |exact En]; [done|by repeat constructor].
Qed.

(** ** The ramfs operations *)

Lemma bump_links_wf fs n j : fs_wf fs → valid_inode n → fs_wf (with_data fs (bump_links (rd_data fs) (inode_at n) j)).
Proof. intros Hwf Hn. by apply (store_admin_wf fs n IN_link_count); [..|left]. Qed.

(** The new inode's fields, before its name is entered. *)
Lemma new_inode_wf fs n pn dn type :
  fs_wf fs → valid_inode n → valid_inode dn →
  fs_wf (with_data fs (if type =? INODE_TYPE_DIR
    then bump_links (store32 (store32 (rd_data fs) (inode_at n + IN_parent) pn) (inode_at n + IN_link_count) 2)
           (inode_at dn) 1
    else store32 (rd_data fs) (inode_at n + IN_parent) pn)).
Proof.
  intros Hwf Hn Hdn.
  destruct (store_admin_wf fs n IN_parent pn Hwf Hn (or_intror eq_refl)) as [Hwf1 _].
  destruct (_ =? _); [|done]. set (fs1 := with_data fs _) in Hwf1.
  destruct (store_admin_wf fs1 n IN_link_count 2 Hwf1 Hn (or_introl eq_refl)) as [Hwf2 _].
  exact (bump_links_wf _ dn 1 Hwf2 Hdn).
Qed.

Lemma ramfs_vfs_create_ok s X H k dir name type :
  vfs_ok s (dir :: X) H k → Forall (λ b, 0 <= b < 256) name →
  type = INODE_TYPE_FILE ∨ type = INODE_TYPE_DIR → Z.of_nat (length X) < 7 → k + 1 < 2 ^ 32 →
  returns_vnode (dir :: X) H (k + 1) (ramfs_vfs_create s dir name type).
Proof.
  intros Hok Hb Ht HlX Hk. assert (Hn : vfs_ok s (dir :: X) H (k + 1)) by (apply (vfs_ok_weaken _ _ _ k); [done|lia]).
  pose proof Hok as (Hr & Hwf & _). destruct (held_vnode s X H k dir Hr) as (_ & Hdn & Hdi).
  unfold ramfs_vfs_create. rewrite Hdi. set (dn := vn_inode_num (v_vnode s dir)) in *.
  pose proof (ramfs_alloc_inode_cases (v_fs s) type Hwf Ht) as Ha.
  destruct (ramfs_alloc_inode (v_fs s) type) as [[n|] fs1].
  2:{ destruct Ha as [-> _]. by apply vfs_ok_fs. }
  destruct Ha as (Hvn & _ & Hwf1 & _). rewrite (get_inode_Some fs1 n) by done.
  set (fs2 := with_data fs1 _).
  assert (Hwf2 : fs_wf fs2) by exact (new_inode_wf fs1 n dn dn type Hwf1 Hvn Hdn). clearbody fs2.
  destruct (ramfs_dir_add_entry_wf fs2 dn name n type Hwf2 Hdn Hb) as [Hwf3 _].
  destruct (ramfs_dir_add_entry _ _ _ _ _) as [[] fs3]; cbn [snd] in Hwf3.
  - apply get_or_create_ok; [by apply vfs_ok_fs|apply Hvn|simpl; lia|done].
  - apply vfs_ok_fs; [done|]. apply ramfs_free_inode_wf; [|apply Hvn].
    destruct (type =? INODE_TYPE_DIR); [by apply bump_links_wf|done].
Qed.

Lemma ramfs_vfs_unlink_ok s X H k dir name :
  vfs_ok s (dir :: X) H k → vfs_ok (ramfs_vfs_unlink s dir name).2 (dir :: X) H k.
Proof.
  intros Hok. pose proof Hok as (Hr & Hwf & _). destruct (held_vnode s X H k dir Hr) as (_ & Hdn & Hdi).
  unfold ramfs_vfs_unlink. rewrite Hdi. set (dn := vn_inode_num (v_vnode s dir)) in *.
  destruct (ramfs_dir_lookup _ _ _) as [n|] eqn:El; [|done].
  assert (Hn : 0 <= n) by (by eapply ramfs_dir_lookup_nonneg).
  destruct (get_inode_cases (v_fs s) n Hwf Hn) as [[Hvn ->]| ->]; [|done].
  cbv zeta. destruct (_ && _); [done|].
  pose proof (ramfs_dir_remove_entry_wf (v_fs s) dn name Hwf Hdn) as Hwf1.
  destruct (ramfs_dir_remove_entry _ _ _) as [[] fs1]; cbn [snd] in *; [|by apply vfs_ok_fs].
  apply vfs_ok_fs; [done|]. set (fs2 := if _ =? INODE_TYPE_DIR then with_data fs1 _ else fs1).
  assert (Hwf2 : fs_wf fs2) by (unfold fs2; destruct (_ =? _); [by apply bump_links_wf|done]). clearbody fs2.
  pose proof (bump_links_wf fs2 n (-1) Hwf2 Hvn) as Hwf3. set (fs3 := with_data fs2 _) in *. clearbody fs3.
  destruct (_ =? 0); [|done]. by apply ramfs_free_inode_wf.
Qed.

Lemma ramfs_vfs_truncate_ok s X H k v size :
  vfs_ok s (v :: X) H k → 0 <= size < 2 ^ 64 → vfs_ok (ramfs_vfs_truncate s v size).2 (v :: X) H k.
Proof.
  intros Hok Hs. pose proof Hok as (Hr & Hwf & _). destruct (held_vnode s X H k v Hr) as (_ & Hn & Hi).
  unfold ramfs_vfs_truncate. rewrite Hi.
  pose proof (ramfs_truncate_wf (v_fs s) _ size Hwf Hn Hs) as Hwf'.
  destruct (ramfs_truncate _ _ _) as [r fs]. by apply vfs_ok_fs.
Qed.

(** A file that is referenced has a live vnode, if any. *)
Lemma file_vnode_ref s X H k p v :
  refs_ok s X H k → p ∈ H → f_vnode (v_file s p) = Some v → file_is_console (Some p) = false →
  vidx v ∧ 0 < vn_ref (v_vnode s v).
Proof.
  intros Hok Hp Hv Hc. destruct p as [i| | |]; try done.
  assert (Hi : fidx i) by (pose proof (ro_handles _ _ _ _ Hok) as HH; rewrite Forall_forall in HH; exact (HH _ Hp)).
  pose proof (ro_file_vnode _ _ _ _ Hok i v Hi Hv) as Hvv. split; [done|]. destruct (ro_root _ _ _ _ Hok) as (r & Er & _ & Hr & _).
  destruct (decide (Some v = v_root s)) as [E|Hne]; [assert (v = r) as -> by congruence; lia|].
  rewrite (ro_vnode _ _ _ _ Hok v Hvv Hne). pose proof (occ_nonneg v X).
  assert (0 < uses s v); [|lia]. apply (countZ_pos (file_uses s v) _ i Hi). unfold file_uses.
  rewrite Hv, (bool_decide_true (Some v = Some v)), andb_true_r by done. apply Z.ltb_lt.
  rewrite (ro_file _ _ _ _ Hok i Hi). by apply occ_pos.
Qed.

Lemma file_vnode_live s X H k p v :
  refs_ok s X H k → p ∈ H → f_vnode (v_file s p) = Some v → file_is_console (Some p) = false →
  vidx v ∧ vnode_complete (v_vnode s v).
Proof.
  intros Hok Hp Hv Hc. destruct (file_vnode_ref s X H k p v Hok Hp Hv Hc) as [Hvv Hr].
  split; [done|]. by apply (ro_live _ _ _ _ Hok v Hvv).
Qed.

Lemma ops_vnode_live s X H k i v :
  refs_ok s X H k → OpenFile i ∈ H → ops_vnode s (v_file s (OpenFile i)) = Some v →
  vidx v ∧ vnode_complete (v_vnode s v).
Proof.
  intros Hok Hp. unfold ops_vnode. destruct (f_vnode (v_file s (OpenFile i))) as [v'|] eqn:Ev; [|done].
  rewrite bind_Some_eq. destruct (vn_ops (v_vnode s v')); [|done]. intros [= ->].
  by apply (file_vnode_live s X H k (OpenFile i)).
Qed.

(** ** The operations of vfs.c *)

Lemma vnode_unref_vfs_ok s X H k v : vfs_ok s (v :: X) H k → vfs_ok (vnode_unref s (Some v)) X H k.
Proof.
  intros Hok. destruct (vnode_unref_ok s X H k v (proj1 Hok)) as [Hok' (Efs & _ & Ef & _)]. by eapply vfs_ok_refs.
Qed.

Lemma refs_ok_swap s X H k v w : refs_ok s (v :: w :: X) H k → refs_ok s (w :: v :: X) H k.
Proof.
  intros [A B C D E F G I J K]. constructor; try done.
  - intros u Hu Hr. rewrite A by done. f_equal. apply occ_Permutation. by apply perm_swap.
  - by rewrite (perm_swap v w X).
Qed.

Lemma unref_under_ok s X H k v w : vfs_ok s (v :: w :: X) H k → vfs_ok (vnode_unref s (Some w)) (v :: X) H k.
Proof.
  intros Hok. apply vnode_unref_vfs_ok. eapply vfs_ok_refs; [done|by apply refs_ok_swap, (proj1 Hok)|done|done].
Qed.

Lemma open_create_ok s H k path :
  vfs_ok s [] H k → bytes_path path → k + 2 < 2 ^ 32 → returns_vnode [] H (k + 2) (open_create s path).
Proof.
  intros Hok Hb Hk. unfold open_create.
  pose proof (vfs_lookup_parent_ok s [] H k path RAMFS_MAX_FILENAME Hok Hb ltac:(simpl; lia) ltac:(lia)) as Hl.
  destruct (vfs_lookup_parent _ _ _) as [[[parent name]|] s1]; [|by eapply vfs_ok_weaken; [done|lia]].
  destruct Hl as [Hok1 Hnm]. replace (k + 2) with (k + 1 + 1) by lia.
  destruct (vn_ops (v_vnode s1 parent)).
  - pose proof (ramfs_vfs_create_ok s1 [] H (k + 1) parent name INODE_TYPE_FILE Hok1 Hnm (or_introl eq_refl)
      ltac:(simpl; lia) ltac:(lia)) as Hc.
    destruct (ramfs_vfs_create _ _ _ _) as [[vn|] s2]; [by apply unref_under_ok|by apply vnode_unref_vfs_ok].
  - apply vnode_unref_vfs_ok. by eapply vfs_ok_weaken; [done|lia].
Qed.

(** The outcome of an operation that may return a file handle. *)
Definition returns_file (H : list file_ptr) (k : Z) (r : option (option file_ptr * vfs)) : Prop :=
  match r with
  | Some (Some p, s') => vfs_ok s' [] (p :: H) k ∧ ∃ i, p = OpenFile i
  | Some (None, s') => vfs_ok s' [] H k
  | None => False
  end.

Lemma open_vnode_ok s H k vn flags created :
  vfs_ok s [vn] H k → Z.of_nat (length H) + 1 < 2 ^ 31 → returns_file H k (open_vnode s vn flags created).
Proof.
  intros Hok Hl. unfold open_vnode. destruct (_ && _); [by apply vnode_unref_vfs_ok|].
  cbv zeta. set (s1 := if _ && _ then (ramfs_vfs_truncate s vn 0).2 else s).
  assert (Hok1 : vfs_ok s1 [vn] H k) by (unfold s1; destruct (_ && _); [by apply ramfs_vfs_truncate_ok|done]).
  clearbody s1. clear Hok s. destruct Hok1 as (Hr & Hwf & Hfo).
  pose proof (file_alloc_ok s1 [vn] H k Hr Hl) as Hf. pose proof (file_alloc_files_ok s1 Hfo) as Hfo2.
  destruct (file_alloc s1) as [[p|] s2].
  2:{ destruct Hf as [Hr2 (Efs & _)]. apply vnode_unref_vfs_ok. split_and!; [done|by rewrite Efs|done]. }
  destruct Hf as (i & -> & Hi & Hr2 & (Efs & Ev & _) & Hfi & Hfn & Hf1).
  destruct (held_vnode s2 [] _ k vn Hr2) as (_ & _ & Hvi).
  cbn [snd] in Hfo2.
  assert (Hdone : ∀ o ty, is_u64 o → vfs_ok (set_file s2 (OpenFile i)
    (File (f_ref (v_file s2 (OpenFile i))) flags o (vn_inode_num (v_vnode s2 vn)) ty (Some vn))) [] (OpenFile i :: H) k).
  { intros o ty Ho. split_and!; [by apply (attach_vnode_ok s2 [] H k i vn)|simpl; by rewrite Efs|].
    by apply files_ok_set_file. }
  rewrite Hvi, bind_Some_eq. destruct (flag_set flags O_APPEND); rewrite bind_Some_eq;
    (split; [apply Hdone|by exists i]); [|done].
  rewrite Efs. apply (load_range 8 _ _ (fw_mem _ Hwf)).
Qed.

Lemma vfs_open_ok s H k path flags :
  vfs_ok s [] H k → bytes_path path → Z.of_nat (length H) + 1 < 2 ^ 31 → k + 3 < 2 ^ 32 →
  returns_file H (k + 3) (vfs_open s path flags).
Proof.
  intros Hok Hb Hl Hk. unfold vfs_open. destruct path as [p|]; [|by eapply vfs_ok_weaken; [done|lia]].
  pose proof (vfs_lookup_ok s [] H k (Some p) Hok ltac:(simpl; lia) ltac:(lia)) as Hlk.
  destruct (vfs_lookup s (Some p)) as [[vn|] s1].
  { apply open_vnode_ok; [|done]. by eapply vfs_ok_weaken; [done|lia]. }
  destruct (flag_set flags O_CREAT); [|by eapply vfs_ok_weaken; [done|lia]].
  pose proof (open_create_ok s1 H (k + 1) (Some p) Hlk Hb ltac:(lia)) as Hc.
  replace (k + 1 + 2) with (k + 3) in Hc by lia.
  destruct (open_create s1 (Some p)) as [[vn|] s2]; [by apply open_vnode_ok|done].
Qed.

Lemma vfs_close_ok s H k p : vfs_ok s [] (p :: H) k → vfs_ok (vfs_close s (Some p)).2 [] H k.
Proof.
  intros (Hok & Hwf & Hf). destruct (file_unref_ok s [] H k p Hok ltac:(simpl; lia)) as [Hok' Efs].
  split_and!; [done| |by apply file_unref_files_ok]. cbn [vfs_close snd]. by rewrite Efs.
Qed.

(** Moving the offset of a file. *)
Lemma set_offset_ok s X H k p o : vfs_ok s X H k → is_u64 o → vfs_ok (set_file s p (with_offset (v_file s p) o)) X H k.
Proof.
  intros (Hok & Hwf & Hf) Ho. split_and!; [by apply refs_ok_touch_file|done|].
  apply files_ok_set_file; [done|done|apply Hf].
Qed.

(** The file's inode, for a handle with a vnode. *)
Lemma ops_vnode_inode s X H k p v :
  vfs_ok s X H k → p ∈ H → ops_vnode s (v_file s p) = Some v →
  vidx v ∧ vn_ops (v_vnode s v) = true ∧ valid_inode (vn_inode_num (v_vnode s v))
  ∧ vn_inode (v_vnode s v) = Some (inode_at (vn_inode_num (v_vnode s v))).
Proof.
  intros (Hok & _ & Hf) Hp Hv. destruct p as [i| | |].
  1: destruct (ops_vnode_live s X H k i v Hok Hp Hv) as [? ?]; done.
  all: revert Hv; unfold ops_vnode; by rewrite (proj2 (Hf _)).
Qed.

Lemma vfs_read_ok s H k p count r s' :
  vfs_ok s [] H k → p ∈ H → vfs_read s (Some p) count = Some (r, s') → vfs_ok s' [] H k.
Proof.
  intros Hok Hp. unfold vfs_read. cbv zeta. destruct (_ =? O_WRONLY); [by intros [= <- <-]|].
  destruct (ops_vnode s (v_file s p)) as [v|] eqn:Ev; [|by intros [= <- <-]].
  destruct (ops_vnode_inode s [] H k p v Hok Hp Ev) as (_ & _ & Hn & Hi).
  unfold ramfs_vfs_read. rewrite Hi. destruct (ramfs_read _ _ _ _) as [[r1 fs]|] eqn:Er; [|done].
  rewrite !bind_Some_eq. pose proof (ramfs_read_wf _ _ _ _ _ _ (proj1 (proj2 Hok)) Hn Er) as Hwf.
  pose proof (vfs_ok_fs s fs [] H k Hok Hwf) as Hok1.
  destruct r1 as [bytes|]; intros [= <- <-]; [|done]. destruct (0 <? _); [|done].
  refine (set_offset_ok (set_fs s fs) [] H k p _ Hok1 _). apply u64_range.
Qed.

Lemma vfs_write_ok s H k p buf r s' :
  vfs_ok s [] H k → p ∈ H → zlen buf < 2 ^ 63 → Forall (λ b, 0 <= b < 256) buf →
  vfs_write s (Some p) buf = Some (r, s') → vfs_ok s' [] H k.
Proof.
  intros Hok Hp Hl Hb. unfold vfs_write. cbv zeta. destruct (_ =? O_RDONLY); [by intros [= <- <-]|].
  destruct (ops_vnode s (v_file s p)) as [v|] eqn:Ev; [|by intros [= <- <-]].
  destruct (ops_vnode_inode s [] H k p v Hok Hp Ev) as (_ & _ & Hn & Hi). rewrite Hi, bind_Some_eq.
  set (n := vn_inode_num (v_vnode s v)) in *.
  set (s1 := if flag_set (f_flags (v_file s p)) O_APPEND
             then set_file s p (with_offset (v_file s p) (inode_size (rd_data (v_fs s)) (inode_at n))) else s).
  assert (Hok1 : vfs_ok s1 [] H k ∧ v_vnode s1 = v_vnode s ∧ v_fs s1 = v_fs s).
  { unfold s1. destruct (flag_set _ _); [|done]. split; [|done].
    apply set_offset_ok; [done|apply (load_range 8 _ _ (fw_mem _ (proj1 (proj2 Hok))))]. }
  replace (if flag_set (f_flags (v_file s p)) O_APPEND then _ else Some s) with (Some s1)
    by (unfold s1; by destruct (flag_set _ _)).
  rewrite bind_Some_eq. clearbody s1. destruct Hok1 as (Hok1 & Evn & Efs).
  unfold ramfs_vfs_write. rewrite Evn, Hi, Efs. fold n.
  destruct (ramfs_write _ _ _ _) as [[r1 fs]|] eqn:Er; [|done]. rewrite !bind_Some_eq.
  assert (Hwf : fs_wf fs).
  { eapply ramfs_write_wf; [exact (proj1 (proj2 Hok))|exact Hn| |exact Hl|exact Hb|exact Er].
    apply (proj2 (proj2 Hok1) p). }
  pose proof (vfs_ok_fs s1 fs [] H k Hok1 Hwf) as Hok2.
  destruct r1 as [w|]; intros [= <- <-]; [|done]. destruct (0 <? _); [|done].
  refine (set_offset_ok (set_fs s1 fs) [] H k p _ Hok2 _). apply u64_range.
Qed.

Lemma vfs_lseek_ok s H k p offset whence :
  vfs_ok s [] H k → vfs_ok (vfs_lseek s (Some p) offset whence).2 [] H k.
Proof.
  intros Hok. unfold vfs_lseek. cbv zeta. destruct (_ =? FILE_TYPE_CONSOLE); [done|].
  match goal with |- context [match ?x with Some _ => _ | None => _ end] => destruct x as [o|] end; [|done].
  destruct (o <? 0); [done|]. apply set_offset_ok; [done|]. apply u64_range.
Qed.

Lemma vfs_stat_ok s H k path :
  vfs_ok s [] H k → k + 1 < 2 ^ 32 → vfs_ok (vfs_stat s path).2 [] H (k + 1).
Proof.
  intros Hok Hk. unfold vfs_stat. destruct path as [p|]; [|by eapply vfs_ok_weaken; [done|lia]].
  pose proof (vfs_lookup_ok s [] H k (Some p) Hok ltac:(simpl; lia) Hk) as Hl.
  destruct (vfs_lookup s (Some p)) as [[v|] s']; [|done]. by apply vnode_unref_vfs_ok.
Qed.

Lemma vfs_create_ok s H k path type :
  vfs_ok s [] H k → bytes_path path → type = INODE_TYPE_FILE ∨ type = INODE_TYPE_DIR → k + 2 < 2 ^ 32 →
  vfs_ok (vfs_create s path type).2 [] H (k + 2).
Proof.
  intros Hok Hb Ht Hk. unfold vfs_create. destruct path as [p|]; [|by eapply vfs_ok_weaken; [done|lia]].
  pose proof (vfs_lookup_parent_ok s [] H k (Some p) RAMFS_MAX_FILENAME Hok Hb ltac:(simpl; lia) ltac:(lia)) as Hl.
  destruct (vfs_lookup_parent _ _ _) as [[[parent name]|] s1]; [|by eapply vfs_ok_weaken; [done|lia]].
  destruct Hl as [Hok1 Hnm]. replace (k + 2) with (k + 1 + 1) by lia.
  destruct (vn_ops (v_vnode s1 parent)).
  - pose proof (ramfs_vfs_create_ok s1 [] H (k + 1) parent name type Hok1 Hnm Ht
      ltac:(simpl; lia) ltac:(lia)) as Hc.
    destruct (ramfs_vfs_create _ _ _ _) as [[vn|] s2]; apply vnode_unref_vfs_ok; [by apply vnode_unref_vfs_ok|done].
  - apply vnode_unref_vfs_ok. by eapply vfs_ok_weaken; [done|lia].
Qed.

Lemma vfs_unlink_ok s H k path :
  vfs_ok s [] H k → bytes_path path → k + 1 < 2 ^ 32 → vfs_ok (vfs_unlink s path).2 [] H (k + 1).
Proof.
  intros Hok Hb Hk. unfold vfs_unlink. destruct path as [p|]; [|by eapply vfs_ok_weaken; [done|lia]].
  pose proof (vfs_lookup_parent_ok s [] H k (Some p) RAMFS_MAX_FILENAME Hok Hb ltac:(simpl; lia) ltac:(lia)) as Hl.
  destruct (vfs_lookup_parent _ _ _) as [[[parent name]|] s1]; [|done]. destruct Hl as [Hok1 Hnm].
  destruct (vn_ops (v_vnode s1 parent)); [|by apply vnode_unref_vfs_ok].
  pose proof (ramfs_vfs_unlink_ok s1 [] H (k + 1) parent name Hok1) as Hu.
  destruct (ramfs_vfs_unlink _ _ _) as [r s2]. by apply vnode_unref_vfs_ok.
Qed.

(** ** Descriptor tables *)

Lemma vfs_ok_Permutation s X H H' k : H ≡ₚ H' → vfs_ok s X H k → vfs_ok s X H' k.
Proof. intros Hp (Hok & Hwf & Hf). split_and!; [by eapply refs_ok_Permutation|done|done]. Qed.

(** The references a table holds. *)
Definition handles (t : fd_table) : list file_ptr := omap (entries t) (seqZ 0 MAX_FD_PER_PROCESS).

Lemma omap_cons_eq {A B} (f : A → option B) (x : A) (l : list A) : omap f (x :: l) = option_list (f x) ++ omap f l.
Proof. simpl. by destruct (f x). Qed.

Lemma handles_length t : Z.of_nat (length (handles t)) <= MAX_FD_PER_PROCESS.
Proof.
  unfold handles. assert (H : ∀ l, (length (omap (entries t) l) <= length l)%nat).
  { induction l as [|i l IH]; [done|]. rewrite omap_cons_eq, length_app. destruct (entries t i); simpl length; lia. }
  specialize (H (seqZ 0 MAX_FD_PER_PROCESS)). rewrite length_seqZ in H. unfold MAX_FD_PER_PROCESS in *. lia.
Qed.

Lemma seqZ_split i n : 0 <= i < n → seqZ 0 n = seqZ 0 i ++ i :: seqZ (i + 1) (n - i - 1).
Proof.
  intros Hi. replace n with (i + (n - i)) at 1 by lia. rewrite seqZ_app by lia. f_equal.
  rewrite (seqZ_cons (0 + i)) by lia. replace (0 + i) with i by lia. by replace (Z.pred (n - i)) with (n - i - 1) by lia.
Qed.

Lemma omap_ext_in {A B} (f g : A → option B) (l : list A) :
  (∀ x, x ∈ l → f x = g x) → omap f l = omap g l.
Proof.
  induction l as [|x l IH]; intros Hfg; [done|]. rewrite !omap_cons_eq. rewrite (Hfg x) by (by left).
  rewrite IH; [done|]. intros y Hy. apply Hfg. by right.
Qed.

(** A table, one of its entries set aside. *)
Lemma handles_split t fd :
  0 <= fd < MAX_FD_PER_PROCESS →
  ∃ l, (∀ x, handles (set_entry t fd x) ≡ₚ option_list x ++ l) ∧ handles t ≡ₚ option_list (entries t fd) ++ l.
Proof.
  intros Hfd. unfold handles. rewrite (seqZ_split fd) by done.
  set (l1 := seqZ 0 fd). set (l2 := seqZ (fd + 1) _).
  assert (Hne : ∀ x i, i ∈ l1 ∨ i ∈ l2 → entries (set_entry t fd x) i = entries t i).
  { intros x i Hi. simpl. rewrite decide_False; [done|]. unfold l1, l2 in Hi. rewrite !elem_of_seqZ in Hi. lia. }
  exists (omap (entries t) l1 ++ omap (entries t) l2).
  assert (Hsplit : ∀ e : Z → option file_ptr,
    omap e (l1 ++ fd :: l2) ≡ₚ option_list (e fd) ++ omap e l1 ++ omap e l2).
  { intros e. rewrite omap_app, omap_cons_eq. apply Permutation_app_swap_app. }
  split; [|by apply Hsplit]. intros x. rewrite Hsplit. simpl entries at 1. rewrite decide_True by done.
  rewrite (omap_ext_in _ (entries t) l1), (omap_ext_in _ (entries t) l2); [done| |]; intros i Hi; apply Hne; auto.
Qed.

Lemma handles_entry t fd f :
  0 <= fd < MAX_FD_PER_PROCESS → entries t fd = Some f → handles t ≡ₚ f :: handles (set_entry t fd None).
Proof.
  intros Hfd He. destruct (handles_split t fd Hfd) as (l & Hs & Ht). by rewrite Ht, He, (Hs None).
Qed.

Lemma handles_install t fd f :
  0 <= fd < MAX_FD_PER_PROCESS → entries t fd = None → handles (set_entry t fd (Some f)) ≡ₚ f :: handles t.
Proof.
  intros Hfd He. destruct (handles_split t fd Hfd) as (l & Hs & Ht). by rewrite Ht, He, (Hs (Some f)).
Qed.

Lemma entry_held t fd f : 0 <= fd < MAX_FD_PER_PROCESS → entries t fd = Some f → f ∈ handles t.
Proof. intros Hfd He. rewrite (handles_entry t fd f Hfd He). by left. Qed.

(** Destroying a table gives its references back. *)
Lemma fd_table_destroy_ok v t H k :
  vfs_ok v [] (handles t ++ H) k → vfs_ok (fd_table_destroy v (Some t)) [] H k.
Proof.
  intros Hok. set (rest i := omap (entries t) (seqZ i (MAX_FD_PER_PROCESS - i))).
  assert (Hend : vfs_ok (fd_table_destroy v (Some t)) [] (rest MAX_FD_PER_PROCESS ++ H) k); [|exact Hend].
  unfold fd_table_destroy. apply (for_each_inv (λ i v, vfs_ok v [] (rest i ++ H) k)); [done|exact Hok|].
  intros i v1 Hi Hv1. assert (Hr : rest i = option_list (entries t i) ++ rest (i + 1)).
  { unfold rest. rewrite seqZ_cons by lia. replace (Z.pred (MAX_FD_PER_PROCESS - i)) with (MAX_FD_PER_PROCESS - (i + 1)) by lia.
    replace (Z.succ i) with (i + 1) by lia. apply omap_cons_eq. }
  rewrite Hr in Hv1. destruct (entries t i) as [f|]; [|done].
  exact (vfs_close_ok v1 (rest (i + 1) ++ H) k f Hv1).
Qed.

(** A new table holds nothing; its three console entries hold no counted
    reference. *)
Lemma init_file_table_vfs_ok v H k : vfs_ok v [] H k → vfs_ok (init_file_table v) [] H k.
Proof.
  intros (Hok & Hwf & Hf). destruct (init_file_table_ok v [] H k Hok) as [Hok' (Efs & _)].
  split_and!; [done|by rewrite Efs|by apply init_file_table_files_ok].
Qed.

Lemma vfs_ok_console v H k p :
  file_is_console (Some p) = true → Z.of_nat (length H) + 1 < 2 ^ 31 → vfs_ok v [] H k → vfs_ok v [] (p :: H) k.
Proof. intros Hp Hl (Hok & Hrest). split; [by apply refs_ok_console|done]. Qed.

Lemma stdio_handles v t : handles t = [] → handles (fd_init_stdio v t).1 = [ConsoleStdin; ConsoleStdout; ConsoleStderr].
Proof.
  intros Hn. unfold fd_init_stdio. cbn [fst].
  assert (He : ∀ i, 0 <= i < MAX_FD_PER_PROCESS → entries t i = None).
  { intros i Hi. destruct (entries t i) as [f|] eqn:E; [|done]. exfalso.
    pose proof (entry_held t i f Hi E) as Hin. rewrite Hn in Hin. by apply not_elem_of_nil in Hin. }
  set (t' := set_num_open _ 3). unfold handles. rewrite (seqZ_split 2) by done.
  assert (Htail : omap (entries t') (seqZ (2 + 1) (MAX_FD_PER_PROCESS - 2 - 1)) = []).
  { rewrite (omap_ext_in _ (λ _, None)).
    - generalize (seqZ (2 + 1) (MAX_FD_PER_PROCESS - 2 - 1)). intros l. induction l; [done|]. by rewrite omap_cons_eq.
    - intros i Hi. apply elem_of_seqZ in Hi. unfold t', MAX_FD_PER_PROCESS in *. simpl.
      unfold FD_STDIN, FD_STDOUT, FD_STDERR.
      rewrite !decide_False by lia. apply He. unfold MAX_FD_PER_PROCESS. lia. }
  rewrite omap_app, omap_cons_eq, Htail. reflexivity.
Qed.

Lemma stdio_ok v t H k :
  vfs_ok v [] H k → Z.of_nat (length H) + 3 < 2 ^ 31 →
  vfs_ok (fd_init_stdio v t).2 [] ([ConsoleStdin; ConsoleStdout; ConsoleStderr] ++ H) k.
Proof.
  intros Hok Hl. pose proof (init_file_table_vfs_ok v H k Hok) as Hi. simpl.
  apply vfs_ok_console; [done|simpl; lia|]. apply vfs_ok_console; [done|simpl; lia|].
  apply vfs_ok_console; [done|simpl; lia|]. done.
Qed.

(** ** Boot *)

(** The zero-initialised state of the kernel image. *)
Definition static_vfs (ticks : Z) : vfs :=
  Vfs (Ramfs (λ _, 0) 0 0 false false ticks) (λ _, Vnode 0 0 0 None false) None false (λ _, File 0 0 0 0 0 None) false.

Lemma clear_vnodes_spec s : same_files s (clear_vnodes s) ∧ ∀ i, vidx i → vn_ref (v_vnode (clear_vnodes s) i) = 0.
Proof.
  unfold clear_vnodes. apply (for_each_inv (λ k s', same_files s s' ∧ ∀ i, 0 <= i < k → vn_ref (v_vnode s' i) = 0)).
  - done.
  - split; [done|lia].
  - intros i s1 Hi [Hs Hr]. split; [done|]. intros j Hj. cbv zeta. rewrite v_vnode_set.
    destruct (decide (j = i)); [done|]. apply Hr. lia.
Qed.

(** The root vnode is the first one. *)
Lemma root_alloc s : (∀ i, vidx i → vn_ref (v_vnode s i) = 0) → vnode_alloc s = (Some 0, set_vnode s 0 (Vnode 0 0 1 None false)).
Proof.
  intros Hr. unfold vnode_alloc. rewrite (proj2 (find_first_Some 0 MAX_VNODES _ 0)); [done|].
  split_and!; [done|done|by apply Z.eqb_eq, Hr|lia].
Qed.

(** A state with only the root vnode, and nobody holding a file. *)
Lemma booted_ok s fs n ty :
  (∀ i, vidx i → vn_ref (v_vnode s i) = 0) → files_ok s → (∀ i, f_ref (v_file s (OpenFile i)) = 0 ∧ f_vnode (v_file s (OpenFile i)) = None) →
  fs_wf fs → n = RAMFS_ROOT_INODE →
  vfs_ok (Vfs fs (λ j, if decide (j = 0) then Vnode n ty 1 (Some (inode_at n)) true else v_vnode s j) (Some 0) true
            (v_file s) (v_files_initialized s)) [] [] 1.
Proof.
  intros Hr Hf Hfile Hwf Hn. split_and!; [|done|done].
  assert (Hroot : ∀ v, vidx v → 0 < vn_ref (if decide (v = 0) then Vnode n ty 1 (Some (inode_at n)) true else v_vnode s v) → v = 0).
  { intros v Hv. destruct (decide (v = 0)); [done|]. rewrite Hr by done. lia. }
  constructor; simpl.
  - intros v Hv Hne. rewrite decide_False by (intros ->; done). rewrite Hr by done. unfold uses.
    rewrite countZ_all_false; [done|]. intros i Hi. unfold file_uses. simpl. by rewrite (proj1 (Hfile i)).
  - intros v Hv Hp. pose proof (Hroot v Hv Hp) as ->. rewrite decide_True by done. subst n. by split_and!.
  - intros v w Hv Hw Hpv Hpw _. by rewrite (Hroot v Hv Hpv), (Hroot w Hw Hpw).
  - exists 0. rewrite decide_True by done. split_and!; try done.
  - intros i _. by rewrite (proj1 (Hfile i)).
  - intros i v _. by rewrite (proj2 (Hfile i)).
  - done.
  - done.
  - done.
  - split; [done|]. right. intros i _. apply Hfile.
Qed.

(** [vfs_init] once the vnode table is cleared. *)
Lemma vfs_init_eq s s1 fs m :
  v_initialized s = false → clear_vnodes s = s1 → (∀ i, vidx i → vn_ref (v_vnode s1 i) = 0) →
  ramfs_init (v_fs s1) m = (true, fs) → ramfs_get_inode fs RAMFS_ROOT_INODE = Some (inode_at RAMFS_ROOT_INODE) →
  ∃ s', vfs_init s m = Some s' ∧ v_root s' = Some 0 ∧ v_file s' = v_file s1 ∧ v_initialized s' = true
    ∧ v_files_initialized s' = v_files_initialized s1 ∧ v_fs s' = fs
    ∧ ∀ j, v_vnode s' j = if decide (j = 0)
        then Vnode RAMFS_ROOT_INODE INODE_TYPE_DIR 1 (Some (inode_at RAMFS_ROOT_INODE)) true else v_vnode s1 j.
Proof.
  intros Hi E1 Hr Ef Eg. unfold vfs_init. rewrite Hi, E1. cbv zeta. rewrite Ef. cbn [negb].
  rewrite (root_alloc (set_fs s1 fs)) by exact Hr. cbv zeta. rewrite Eg. eexists. split; [reflexivity|].
  split_and!; try done. intros j. simpl. by destruct (decide (j = 0)).
Qed.

Lemma vfs_init_root ticks m :
  mem_wf m → is_u64 ticks → ∃ s, vfs_init (static_vfs ticks) (Some m) = Some s ∧ vfs_ok s [] [] 1
    ∧ ∀ o, 0 <= o < MAX_FILE_SIZE → file_byte (v_fs s) RAMFS_ROOT_INODE o = 0.
Proof.
  intros Hm Ht. destruct (clear_vnodes_spec (static_vfs ticks)) as [(Efs & Ero & Efl & Ei & Efi) Hr].
  destruct (ramfs_init_eq (v_fs (static_vfs ticks)) m eq_refl Hm Ht) as (fs & Ef & Hwf & _ & _ & _ & _ & Hroot).
  remember (clear_vnodes (static_vfs ticks)) as s1 eqn:E1. rewrite <- Efs in Ef.
  assert (Hvr : valid_inode RAMFS_ROOT_INODE) by (unfold valid_inode; fs_consts; lia).
  destruct (vfs_init_eq (static_vfs ticks) s1 fs (Some m) eq_refl (eq_sym E1) Hr Ef (get_inode_Some fs _ Hwf Hvr))
    as (s & Es & Eroot & Efile & Einit & Efinit & Efs' & Ev).
  exists s. split; [exact Es|].
  assert (Hfiles : files_ok s1) by (intros p; by rewrite Efl).
  assert (Hz : ∀ i, f_ref (v_file s1 (OpenFile i)) = 0 ∧ f_vnode (v_file s1 (OpenFile i)) = None)
    by (intros i; by rewrite Efl).
  destruct (booted_ok s1 fs RAMFS_ROOT_INODE INODE_TYPE_DIR Hr Hfiles Hz Hwf eq_refl) as (Hok & _ & _).
  split; [|by rewrite Efs']. split_and!; [|by rewrite Efs'|by apply (files_ok_same s1)].
  eapply refs_ok_vnode_ext; [exact Hok|done..].
Qed.

Lemma vfs_init_ok ticks m :
  mem_wf m → is_u64 ticks → ∃ s, vfs_init (static_vfs ticks) (Some m) = Some s ∧ vfs_ok s [] [] 1.
Proof. intros Hm Ht. destruct (vfs_init_root ticks m Hm Ht) as (s & E & Hok & _). by exists s. Qed.

(** ** Reads and writes always return *)

Definition reads_at_most (count : Z) (r : option (list Z)) : Prop :=
  ∀ bs, r = Some bs → zlen bs <= count ∧ Forall (λ b, 0 <= b < 256) bs.

Lemma file_byte_range s n o : fs_wf s → 0 <= file_byte s n o < 256.
Proof. intros Hwf. unfold file_byte. destruct (_ =? 0); [lia|]. apply (fw_mem s Hwf). Qed.

Lemma ramfs_read_total s n count offset :
  fs_wf s → valid_inode n → 0 <= offset → 0 <= count < 2 ^ 63 →
  ∃ r s', ramfs_read s (Some (inode_at n)) count offset = Some (r, s') ∧ reads_at_most count r.
Proof.
  intros Hwf Hn Ho Hc. destruct (decide (ityp s n = INODE_TYPE_FILE)) as [Ht|Ht].
  - pose proof (fw_size s Hwf n Hn Ht) as Hmax. destruct (decide (isize s n <= offset)) as [Hle|Hgt].
    + exists (Some []), s. split; [|intros bs [= <-]; split; [by unfold zlen; simpl; lia|done]].
      unfold ramfs_read. fold (ityp s n) (isize s n). rewrite Ht, (proj2 (Z.leb_le _ _)) by done. done.
    + destruct (ramfs_read_cases s n count offset Hwf Hn Ht Ho) as (s' & E & _); [lia| |].
      { fs_consts. unfold MAX_FILE_SIZE in *. fs_consts. lia. }
      eexists _, s'. split; [exact E|]. intros bs [= <-]. rewrite zlen_file_bytes by lia. split; [lia|].
      apply Forall_fmap, Forall_true. intros o. by apply file_byte_range.
  - exists None, s. split; [|done]. unfold ramfs_read. fold (ityp s n). by rewrite (proj2 (Z.eqb_neq _ _) Ht).
Qed.

Lemma ramfs_write_total s n buf offset :
  fs_wf s → valid_inode n → 0 <= offset → zlen buf < 2 ^ 63 → Forall (λ b, 0 <= b < 256) buf →
  ∃ r s', ramfs_write s (Some (inode_at n)) buf offset = Some (r, s') ∧ ∀ w, r = Some w → 0 <= w <= zlen buf.
Proof.
  intros Hwf Hn Ho Hl Hb.
  destruct (decide (ityp s n = INODE_TYPE_FILE ∧ offset <= MAX_FILE_SIZE)) as [[Ht Hle]|Hno].
  - destruct (ramfs_write_cases s n buf offset) as (w & s' & E & _ & _ & _ & _ & Hw & _); try done.
    exists (Some w), s'. split; [done|]. intros ? [= <-]. lia.
  - exists None, s. split; [|done]. unfold ramfs_write. fold (ityp s n).
    destruct (Z.eqb_spec (ityp s n) INODE_TYPE_FILE); cbn [negb]; [|done].
    rewrite (proj2 (Z.ltb_lt _ _)); [done|].
    change (RAMFS_DIRECT_BLOCKS * RAMFS_BLOCK_SIZE) with MAX_FILE_SIZE. lia.
Qed.

Lemma vfs_read_total s H k p count :
  vfs_ok s [] H k → p ∈ H → 0 <= count < 2 ^ 63 →
  ∃ r s', vfs_read s (Some p) count = Some (r, s') ∧ vfs_ok s' [] H k ∧ reads_at_most count r.
Proof.
  intros Hok Hp Hc.
  assert (Ht : ∃ r s', vfs_read s (Some p) count = Some (r, s') ∧ reads_at_most count r).
  2:{ destruct Ht as (r & s' & E & Hr). exists r, s'. split_and!; [done|by eapply vfs_read_ok|done]. }
  unfold vfs_read. cbv zeta. destruct (_ =? O_WRONLY); [by exists None, s|].
  destruct (ops_vnode s (v_file s p)) as [v|] eqn:Ev; [|by exists None, s].
  destruct (ops_vnode_inode s [] H k p v Hok Hp Ev) as (_ & _ & Hn & Hi).
  unfold ramfs_vfs_read. rewrite Hi.
  destruct (ramfs_read_total (v_fs s) _ count (f_offset (v_file s p)) (proj1 (proj2 Hok)) Hn) as (r & fs & E & Hr).
  { apply (proj2 (proj2 Hok) p). }
  { done. }
  rewrite E, !bind_Some_eq. destruct r as [bytes|]; eauto.
Qed.

Lemma vfs_write_total s H k p buf :
  vfs_ok s [] H k → p ∈ H → zlen buf < 2 ^ 63 → Forall (λ b, 0 <= b < 256) buf →
  ∃ r s', vfs_write s (Some p) buf = Some (r, s') ∧ vfs_ok s' [] H k ∧ ∀ w, r = Some w → 0 <= w <= zlen buf.
Proof.
  intros Hok Hp Hl Hb.
  assert (Ht : ∃ r s', vfs_write s (Some p) buf = Some (r, s') ∧ ∀ w, r = Some w → 0 <= w <= zlen buf).
  2:{ destruct Ht as (r & s' & E & Hw). exists r, s'. split_and!; [done|by eapply vfs_write_ok|done]. }
  unfold vfs_write. cbv zeta. destruct (_ =? O_RDONLY); [by exists None, s|].
  destruct (ops_vnode s (v_file s p)) as [v|] eqn:Ev; [|by exists None, s].
  destruct (ops_vnode_inode s [] H k p v Hok Hp Ev) as (_ & _ & Hn & Hi). rewrite Hi, bind_Some_eq.
  set (n := vn_inode_num (v_vnode s v)) in *. set (o := if flag_set (f_flags (v_file s p)) O_APPEND
    then Some (set_file s p (with_offset (v_file s p) (inode_size (rd_data (v_fs s)) (inode_at n)))) else Some s).
  assert (Ho : ∃ s1, o = Some s1 ∧ v_vnode s1 = v_vnode s ∧ v_fs s1 = v_fs s ∧ 0 <= f_offset (v_file s1 p)).
  { unfold o. destruct (flag_set _ _); eexists; (split; [done|]); split_and!; try done.
    - simpl. rewrite decide_True by done. apply (load_range 8 _ _ (fw_mem _ (proj1 (proj2 Hok)))).
    - apply (proj2 (proj2 Hok) p). }
  destruct Ho as (s1 & -> & Evn & Efs & Hoff). rewrite bind_Some_eq. unfold ramfs_vfs_write. rewrite Evn, Hi, Efs.
  destruct (ramfs_write_total (v_fs s) n buf (f_offset (v_file s1 p)) (proj1 (proj2 Hok)) Hn Hoff Hl Hb) as (r & fs & -> & Hw).
  rewrite !bind_Some_eq. destruct r; eauto.
Qed.

(** ** Theorems *)

(** A regular file open for reading and writing, not in append mode, on inode [n]. *)
Record open_rw (s : vfs) (H : list file_ptr) (p : file_ptr) (n : Z) : Prop := OpenRw {
  rw_held : p ∈ H;
  rw_vnode : ∃ v, f_vnode (v_file s p) = Some v ∧ vn_ops (v_vnode s v) = true ∧ vn_inode_num (v_vnode s v) = n;
  rw_file : ityp (v_fs s) n = INODE_TYPE_FILE;
  rw_type : f_type (v_file s p) ≠ FILE_TYPE_CONSOLE;
  rw_access : Z.land (f_flags (v_file s p)) O_ACCMODE = O_RDWR;
  rw_append : flag_set (f_flags (v_file s p)) O_APPEND = false
}.

Lemma open_rw_vnode s H k p n :
  vfs_ok s [] H k → open_rw s H p n →
  ∃ v, ops_vnode s (v_file s p) = Some v ∧ valid_inode n ∧ vn_inode (v_vnode s v) = Some (inode_at n).
Proof.
  intros Hok [Hp (v & Ev & Eo & En) _ _ _ _]. exists v.
  assert (E : ops_vnode s (v_file s p) = Some v) by (unfold ops_vnode; by rewrite Ev, bind_Some_eq, Eo).
  destruct (ops_vnode_inode s [] H k p v Hok Hp E) as (_ & _ & Hn & Hi). rewrite En in *. done.
Qed.

(** The state after a successful transfer of [w] bytes. *)
Definition advanced (s : vfs) (p : file_ptr) (fs : ramfs) (w : Z) : vfs :=
  if 0 <? w then set_file (set_fs s fs) p (with_offset (v_file s p) (f_offset (v_file s p) +64 w)) else set_fs s fs.

Lemma advanced_file s p fs w :
  0 <= w → 0 <= f_offset (v_file s p) → f_offset (v_file s p) + w < 2 ^ 64 →
  v_file (advanced s p fs w) p = with_offset (v_file s p) (f_offset (v_file s p) + w).
Proof.
  intros Hw Ho Hs. unfold advanced. destruct (Z.ltb_spec 0 w).
  - rewrite v_file_set, decide_True by done. by rewrite u64_id by lia.
  - replace w with 0 by lia. rewrite Z.add_0_r. simpl. by destruct (v_file s p).
Qed.

Lemma advanced_rest s p fs w : v_fs (advanced s p fs w) = fs ∧ v_vnode (advanced s p fs w) = v_vnode s.
Proof. unfold advanced. by destruct (0 <? w). Qed.

Lemma vfs_write_rw s H k p n buf :
  vfs_ok s [] H k → open_rw s H p n → f_offset (v_file s p) <= MAX_FILE_SIZE →
  zlen buf < 2 ^ 63 → Forall (λ b, 0 <= b < 256) buf →
  ∃ w fs, vfs_write s (Some p) buf = Some (Some w, advanced s p fs w)
    ∧ ramfs_write (v_fs s) (Some (inode_at n)) buf (f_offset (v_file s p)) = Some (Some w, fs).
Proof.
  intros Hok Hrw Hoff Hl Hb. destruct (open_rw_vnode s H k p n Hok Hrw) as (v & Ev & Hn & Hi).
  destruct (proj2 (proj2 Hok) p) as [[Ho1 _] _]. destruct Hrw as [Hp _ Ht _ Ha Happ].
  destruct (ramfs_write_cases (v_fs s) n buf (f_offset (v_file s p)) (proj1 (proj2 Hok))) as (w & fs & E & _); try done.
  exists w, fs. split; [|exact E]. unfold vfs_write. cbv zeta. rewrite Ha, Ev, Happ.
  change (O_RDWR =? O_RDONLY) with false. cbv iota. rewrite bind_Some_eq. unfold ramfs_vfs_write. rewrite Hi, E.
  by rewrite !bind_Some_eq.
Qed.

Lemma vfs_read_rw s H k p n count :
  vfs_ok s [] H k → open_rw s H p n → 0 <= count → f_offset (v_file s p) + count < 2 ^ 64 →
  ∃ fs, let bs := file_bytes (v_fs s) n (f_offset (v_file s p))
                    (Z.max 0 (Z.min count (isize (v_fs s) n - f_offset (v_file s p)))) in
    vfs_read s (Some p) count = Some (Some bs, advanced s p fs (zlen bs)).
Proof.
  intros Hok Hrw Hc Hov. destruct (open_rw_vnode s H k p n Hok Hrw) as (v & Ev & Hn & Hi).
  destruct (proj2 (proj2 Hok) p) as [[Ho1 _] _]. destruct Hrw as [Hp _ Ht _ Ha _].
  destruct (ramfs_read_cases (v_fs s) n count (f_offset (v_file s p)) (proj1 (proj2 Hok))) as (fs & E & _); try done.
  exists fs. cbv zeta. unfold vfs_read. cbv zeta. rewrite Ha, Ev. change (O_RDWR =? O_WRONLY) with false. cbv iota.
  unfold ramfs_vfs_read. rewrite Hi, E. by rewrite !bind_Some_eq.
Qed.

(** C17. Writing, seeking back and reading.  On a regular file open for reading
    and writing, [vfs_write] stores a prefix of the buffer and advances the
    offset by its length; after a seek to where the write began, reading that
    many bytes returns exactly what was written and leaves the offset behind it
    again. *)
Theorem vfs_write_seek_read (s : vfs) (H : list file_ptr) (k : Z) (p : file_ptr) (n : Z) (buf : list Z) :
  vfs_ok s [] H k → open_rw s H p n → f_offset (v_file s p) <= MAX_FILE_SIZE →
  zlen buf < 2 ^ 63 → Forall (λ b, 0 <= b < 256) buf →
  let off := f_offset (v_file s p) in
  ∃ w s1 s2 s3, vfs_write s (Some p) buf = Some (Some w, s1) ∧ 0 <= w <= zlen buf
    ∧ f_offset (v_file s1 p) = off + w
    ∧ vfs_lseek s1 (Some p) off SEEK_SET = (Some off, s2)
    ∧ vfs_read s2 (Some p) w = Some (Some (take (Z.to_nat w) buf), s3)
    ∧ f_offset (v_file s3 p) = off + w.
Proof.
  intros Hok Hrw Hoff Hl Hb off. pose proof (open_rw_vnode s H k p n Hok Hrw) as (v & _ & Hn & _).
  destruct (proj2 (proj2 Hok) p) as [[Ho0 _] _]. fold off in Ho0, Hoff.
  destruct (vfs_write_rw s H k p n buf Hok Hrw Hoff Hl Hb) as (w & fs & Ew & Efs). fold off in Efs.
  destruct Hrw as [Hp (v' & Hv) Ht Hty Ha Happ].
  destruct (ramfs_write_cases (v_fs s) n buf off (proj1 (proj2 Hok)) Hn Ht) as (w' & fs' & E' & _ & Htf & _ & Hsz & Hw & _ & Hbytes & _);
    try done.
  rewrite E' in Efs. injection Efs as [= -> ->].
  assert (Hfit : off + w <= MAX_FILE_SIZE) by lia.
  assert (Hbig : MAX_FILE_SIZE < 2 ^ 63) by (unfold MAX_FILE_SIZE; fs_consts; lia).
  set (s1 := advanced s p fs w). pose proof (vfs_write_ok s H k p buf _ s1 Hok Hp Hl Hb Ew) as Hok1.
  assert (Hf1 : v_file s1 p = with_offset (v_file s p) (off + w)) by (apply advanced_file; fold off; lia).
  destruct (advanced_rest s p fs w) as [Efs1 Evn1]. fold s1 in Efs1, Evn1.
  set (s2 := set_file s1 p (with_offset (v_file s1 p) off)).
  assert (Hok2 : vfs_ok s2 [] H k) by (apply set_offset_ok; [done|unfold is_u64; lia]).
  assert (Hf2 : v_file s2 p = with_offset (v_file s p) off) by (unfold s2; by rewrite v_file_set, decide_True, Hf1 by done).
  assert (Hrw2 : open_rw s2 H p n).
  { constructor; rewrite ?Hf2; try done; [exists v'; change (v_vnode s2) with (v_vnode s1); by rewrite Evn1|].
    change (v_fs s2) with (v_fs s1). by rewrite Efs1, Htf. }
  destruct (vfs_read_rw s2 H k p n w Hok2 Hrw2) as (fs3 & Er); [lia|rewrite Hf2; simpl; lia|]. cbv zeta in Er.
  rewrite Hf2 in Er. simpl f_offset in Er. change (v_fs s2) with (v_fs s1) in Er. rewrite Efs1, Hsz in Er.
  replace (Z.max 0 (Z.min w (Z.max (isize (v_fs s) n) (off + w) - off))) with w in Er by lia.
  assert (Hread : file_bytes fs n off w = take (Z.to_nat w) buf).
  { apply file_bytes_written; try lia. intros o Ho. rewrite Hbytes by lia. by rewrite decide_True by lia. }
  rewrite Hread in Er. assert (Hzl : zlen (take (Z.to_nat w) buf) = w) by (rewrite <- Hread; apply zlen_file_bytes; lia).
  rewrite Hzl in Er. exists w, s1, s2, (advanced s2 p fs3 w). split_and!; try done; try lia.
  - by rewrite Hf1.
  - unfold vfs_lseek. cbv zeta. rewrite Hf1. simpl f_type. rewrite (proj2 (Z.eqb_neq _ _)) by done.
    change (SEEK_SET =? SEEK_SET) with true. cbv iota. rewrite (proj2 (Z.ltb_ge _ _)) by lia.
    unfold s2. rewrite Hf1. by rewrite u64_id by lia.
  - rewrite advanced_file by (rewrite ?Hf2; simpl; lia). by rewrite Hf2.
Qed.

(** ** Unlinking an open file *)

(** Live vnodes keep their inode numbers. *)
Lemma get_or_create_num s n v :
  0 < vn_ref (v_vnode s v) → vn_inode_num (v_vnode (vnode_get_or_create s n).2 v) = vn_inode_num (v_vnode s v).
Proof.
  intros Hv. unfold vnode_get_or_create. destruct (find_first _ _ _) as [i|].
  { cbn [snd vnode_ref]. rewrite v_vnode_set. by case_decide as E; [subst i|]. }
  unfold vnode_alloc. pose proof (find_first_spec 0 MAX_VNODES (λ i, vn_ref (v_vnode s i) =? 0)) as Hf.
  destruct (find_first 0 MAX_VNODES _) as [i|]; [|done]. destruct Hf as (_ & Hz%Z.eqb_eq & _).
  assert (Hne : v ≠ i) by (intros ->; lia). destruct (ramfs_get_inode _ _); cbn [snd].
  - by rewrite !v_vnode_set, !decide_False by done.
  - unfold vnode_free. case_decide; rewrite !v_vnode_set, !decide_False by done; done.
Qed.

Lemma vnode_unref_num s w v : vn_inode_num (v_vnode (vnode_unref s (Some w)) v) = vn_inode_num (v_vnode s v).
Proof.
  unfold vnode_unref. case_decide; [done|]. destruct (0 <? _); [|done]. cbv zeta.
  destruct (_ =? 0); unfold vnode_free; repeat case_decide; cbv zeta; rewrite !v_vnode_set;
    repeat case_decide; by subst.
Qed.

Lemma vfs_lookup_parent_same s X H k path size v :
  vfs_ok s X H k → Z.of_nat (length X) < 8 → k + 1 < 2 ^ 32 → 0 < vn_ref (v_vnode s v) →
  let s' := (vfs_lookup_parent s path size).2 in
  v_fs s' = v_fs s ∧ v_file s' = v_file s ∧ vn_inode_num (v_vnode s' v) = vn_inode_num (v_vnode s v).
Proof.
  intros Hok HlX Hk Hv. unfold vfs_lookup_parent. destruct path as [p|]; [|done]. destruct (size =? 0); [done|].
  destruct (path_normalize _ _ _) as [np|]; [|done]. destruct (path_dirname _ _) as [pp|]; [|done].
  cbv zeta. destruct (_ <=? _); [done|]. unfold vfs_lookup. destruct (negb _); [done|].
  destruct (path_normalize _ _ _) as [np'|]; [|done].
  destruct (ramfs_lookup_path (v_fs s) np') as [n|] eqn:El; [|done].
  assert (Hn : 0 <= n) by (by eapply ramfs_lookup_path_nonneg; [apply Hok|]).
  pose proof (vnode_get_or_create_ok s X H k n (proj1 Hok) (proj1 (proj2 Hok)) Hn HlX Hk) as Hg.
  pose proof (get_or_create_num s n v Hv) as Hnum.
  destruct (vnode_get_or_create s n) as [[w|] s']; cbn [snd] in *.
  - destruct Hg as (_ & (Efs & _ & Ef & _) & _). done.
  - destruct Hg as (_ & (Efs & _ & Ef & _)). done.
Qed.

(** Removing an entry of directory [dn] leaves other inodes' link counts alone. *)
Lemma remove_entry_links s dn name n e :
  fs_wf s → valid_inode dn → valid_inode n → n ≠ dn → ityp s dn = INODE_TYPE_DIR →
  find_entry s (inode_at dn) name = Some e →
  ∃ s', ramfs_dir_remove_entry s (Some (inode_at dn)) name = (true, s') ∧ fs_wf s' ∧ ityp s' n = ityp s n
    ∧ inode_link_count (rd_data s') (inode_at n) = inode_link_count (rd_data s) (inode_at n).
Proof.
  intros Hwf Hdn Hn Hne Hd He. pose proof (ramfs_dir_remove_entry_wf s dn name Hwf Hdn) as Hwf'. revert Hwf'.
  assert (Hu : used_inode s dn = true) by (by apply used_of_type; [..|rewrite Hd]).
  pose proof (find_entry_data s dn name e Hwf Hdn Hu He) as Hrange. pose proof (inode_at_range n Hn) as Hin.
  pose proof (inode_at_disjoint n dn Hn Hdn Hne) as Hdis.
  unfold ramfs_dir_remove_entry. fold (ityp s dn). rewrite Hd, He. change (negb _) with false. cbv iota zeta.
  set (d1 := fill (rd_data s) e 0 sizeof_dirent). set (s' := with_data s _). cbn [snd]. intros Hwf'.
  assert (E : ∀ o, 0 <= o <= 112 → load32 (rd_data s') (inode_at n + o) = load32 (rd_data s) (inode_at n + o)).
  { intros o Ho. unfold s'. simpl rd_data.
    rewrite !load_store_ne by (fs_consts; lia). unfold d1. apply load_fill_ne. fs_consts. lia. }
  exists s'. split_and!; [done|done|unfold ityp, inode_type; apply E; fs_consts; lia|].
  unfold inode_link_count. apply E. fs_consts. lia.
Qed.

(** The last link of a regular file: its inode is freed. *)
Lemma ramfs_vfs_unlink_frees s X H k dir name n :
  vfs_ok s (dir :: X) H k → ramfs_dir_lookup (v_fs s) (vn_inode (v_vnode s dir)) name = Some n →
  name ≠ [DOT; DOT] → valid_inode n → ityp (v_fs s) n = INODE_TYPE_FILE →
  inode_link_count (rd_data (v_fs s)) (inode_at n) = 1 →
  ∃ fs, ramfs_vfs_unlink s dir name = (true, set_fs s fs) ∧ used_inode fs n = false.
Proof.
  intros Hok El Hdd Hn Ht Hlc. pose proof Hok as (Hr & Hwf & _). destruct (held_vnode s X H k dir Hr) as (_ & Hdn & Hdi).
  unfold ramfs_vfs_unlink. rewrite Hdi in El |- *. rewrite El, (get_inode_Some (v_fs s) n) by done.
  set (dn := vn_inode_num (v_vnode s dir)) in *. revert El. unfold ramfs_dir_lookup. fold (ityp (v_fs s) dn).
  destruct (Z.eqb_spec (ityp (v_fs s) dn) INODE_TYPE_DIR) as [Hd|]; cbn [negb]; [|done].
  case_bool_decide; [done|]. rewrite bool_decide_false by done.
  destruct (find_entry _ _ _) as [e|] eqn:Ee; [|done]. intros _.
  assert (Hne : n ≠ dn) by (intros ->; by rewrite Hd in Ht).
  destruct (remove_entry_links (v_fs s) dn name n e Hwf Hdn Hn Hne Hd Ee) as (fs1 & -> & Hwf1 & Ht1 & Hl1).
  cbv zeta. fold (ityp (v_fs s) n). fold (ityp fs1 n). rewrite Ht1, Ht. change (INODE_TYPE_FILE =? INODE_TYPE_DIR) with false.
  cbn [andb]. destruct (store_admin_wf fs1 n IN_link_count (1 +32 -1) Hwf1 Hn (or_introl eq_refl)) as [Hwf2 Hu2].
  unfold bump_links. rewrite Hl1, Hlc. set (fs2 := with_data fs1 _) in *.
  assert (El2 : inode_link_count (rd_data fs2) (inode_at n) = 0) by (apply load32_store32; done).
  rewrite El2. change (0 =? 0) with true. cbv iota. eexists. split; [done|].
  apply ramfs_free_inode_cases; [done|done| |].
  - intros ->. destruct (fw_root _ Hwf) as [_ E]. by rewrite Ht in E.
  - rewrite Hu2 by done. apply used_of_type; [done|done|]. by rewrite Ht1, Ht.
Qed.

(** C38. Unlinking an open file.  When the only name of a regular file that is
    open is unlinked, the inode is freed at once although the open file still
    points to it; as soon as the inode is handed out again for a new file, the old
    handle is an open file of that new file: what is written through it is what
    the new file then holds. *)
Theorem unlinked_inode_freed_while_open (s : vfs) (H : list file_ptr) (k : Z) (p : file_ptr) (n : Z)
    (path : list Z) (d : Z) (name : list Z) (s0 : vfs) :
  vfs_ok s [] H k → k + 1 < 2 ^ 32 → Forall (λ b, 0 <= b < 256) path → open_rw s H p n →
  vfs_lookup_parent s (Some path) RAMFS_MAX_FILENAME = (Some (d, name), s0) →
  ramfs_dir_lookup (v_fs s) (vn_inode (v_vnode s0 d)) name = Some n → name ≠ [DOT; DOT] →
  inode_link_count (rd_data (v_fs s)) (inode_at n) = 1 →
  ∃ s', vfs_unlink s (Some path) = (true, s') ∧ used_inode (v_fs s') n = false ∧ p ∈ H
    ∧ ∀ fs, ramfs_alloc_inode (v_fs s') INODE_TYPE_FILE = (Some n, fs) →
        open_rw (set_fs s' fs) H p n
        ∧ ∀ buf, f_offset (v_file s p) <= MAX_FILE_SIZE → zlen buf < 2 ^ 63 → Forall (λ b, 0 <= b < 256) buf →
            ∃ w s2, vfs_write (set_fs s' fs) (Some p) buf = Some (Some w, s2) ∧ 0 <= w <= zlen buf
              ∧ file_bytes (v_fs s2) n (f_offset (v_file s p)) w = take (Z.to_nat w) buf.
Proof.
  intros Hok Hk Hb Hrw Elp El Hdd Hlc. pose proof Hrw as [Hp (v & Ev & Eo & En) Ht Hty Ha Happ].
  destruct (open_rw_vnode s H k p n Hok Hrw) as (v' & Ev' & Hn & _).
  assert (Hpc : file_is_console (Some p) = false).
  { destruct p; [done|..]; by rewrite (proj2 (proj2 (proj2 Hok) _)) in Ev. }
  destruct (file_vnode_ref s [] H k p v (proj1 Hok) Hp Ev Hpc) as [Hvv Href].
  destruct (vfs_lookup_parent_same s [] H k (Some path) RAMFS_MAX_FILENAME v Hok ltac:(simpl; lia) Hk Href) as (Efs & Ef & Enum).
  pose proof (vfs_lookup_parent_ok s [] H k (Some path) RAMFS_MAX_FILENAME Hok (λ q E, ltac:(by injection E as <-))
    ltac:(simpl; lia) Hk) as Hl.
  rewrite Elp in Hl, Efs, Ef, Enum. cbn [snd] in Efs, Ef, Enum. destruct Hl as [Hok0 _].
  rewrite <- Efs in El, Ht, Hlc.
  destruct (ramfs_vfs_unlink_frees s0 [] H (k + 1) d name n Hok0 El Hdd Hn Ht Hlc) as (fs1 & Eu & Hfree).
  pose proof (ramfs_vfs_unlink_ok s0 [] H (k + 1) d name Hok0) as Hok1. rewrite Eu in Hok1. cbn [snd] in Hok1.
  pose proof (vnode_unref_vfs_ok _ _ _ _ _ Hok1) as Hok2.
  destruct (vnode_unref_ok _ _ _ _ _ (proj1 Hok1)) as [_ (Efs2 & _ & Ef2 & _)].
  pose proof (vnode_unref_num (set_fs s0 fs1) d v) as Enum2.
  set (s' := vnode_unref (set_fs s0 fs1) (Some d)) in *. cbn [v_fs v_file v_vnode set_fs] in Efs2, Ef2, Enum2. exists s'.
  split_and!; [| |done|].
  { unfold vfs_unlink. rewrite Elp, (proj1 (held_vnode _ _ _ _ _ (proj1 Hok0))), Eu. done. }
  { by rewrite Efs2. }
  intros fs Ea. pose proof (ramfs_alloc_inode_cases (v_fs s') INODE_TYPE_FILE (proj1 (proj2 Hok2)) (or_introl eq_refl)) as Hc.
  rewrite Ea in Hc. destruct Hc as (_ & _ & Hwf' & _ & _ & Htf & _).
  pose proof (vfs_ok_fs s' fs [] H (k + 1) Hok2 Hwf') as Hok3.
  assert (Ef3 : v_file s' = v_file s) by congruence.
  assert (Ev3 : f_vnode (v_file (set_fs s' fs) p) = Some v) by (cbn [v_file set_fs]; by rewrite Ef3).
  assert (Hrw3 : open_rw (set_fs s' fs) H p n).
  { constructor; cbn [v_file v_fs set_fs]; rewrite ?Ef3; try done. exists v.
    destruct (file_vnode_live _ _ _ _ p v (proj1 Hok3) Hp Ev3 Hpc) as [_ [Ho3 _]].
    split_and!; [done|done|]. cbn [v_vnode set_fs]. congruence. }
  split; [exact Hrw3|]. intros buf Hoff Hlb Hbb.
  assert (Hoff3 : f_offset (v_file (set_fs s' fs) p) = f_offset (v_file s p)) by (cbn [v_file set_fs]; by rewrite Ef3).
  destruct (vfs_write_rw _ H (k + 1) p n buf Hok3 Hrw3 ltac:(by rewrite Hoff3) Hlb Hbb) as (w & fs4 & Ew & E4).
  rewrite Hoff3 in E4. destruct (proj2 (proj2 Hok) p) as [[Ho0 _] _].
  destruct (ramfs_write_cases fs n buf (f_offset (v_file s p)) Hwf' Hn Htf) as (w' & fs' & E' & _ & _ & _ & _ & Hw & _ & Hbytes & _);
    try done.
  cbn [v_fs set_fs] in E4. rewrite E' in E4. injection E4 as [= -> ->].
  exists w, (advanced (set_fs s' fs) p fs4 w). split_and!; [done|lia|lia|].
  rewrite (proj1 (advanced_rest _ _ _ _)). apply file_bytes_written; try lia.
  intros o Ho. rewrite Hbytes by (fs_consts; lia). by rewrite decide_True by lia.
Qed.

(** ** Witnesses and concrete runs *)

(** The filesystem after boot, with the clock at 7. *)
Definition booted : vfs := default (static_vfs 7) (vfs_init (static_vfs 7) (Some (λ _, 0))).

Lemma booted_vfs_ok : vfs_ok booted [] [] 1.
Proof.
  assert (Hm : mem_wf (λ _, 0)) by (intros a; lia). assert (H7 : is_u64 7) by done.
  destruct (vfs_init_ok 7 (λ _, 0) Hm H7) as (s & Es & Hs). unfold booted. by rewrite Es.
Qed.

Definition path_a : list Z := [47; 97].
Definition path_d : list Z := [47; 100].
Definition O_NEW : Z := Z.lor O_RDWR O_CREAT.

Definition run_open (s : vfs) (path : list Z) : file_ptr * vfs :=
  match vfs_open s (Some path) O_NEW with
  | Some (Some p, s') => (p, s')
  | _ => (ConsoleStdin, s)
  end.

Definition opened : vfs := (run_open booted path_a).2.

Lemma opened_eq : vfs_open booted (Some path_a) O_NEW = Some (Some (OpenFile 0), opened).
Proof.
  assert (Hp : (run_open booted path_a).1 = OpenFile 0) by (vm_compute; reflexivity). revert Hp.
  unfold opened, run_open. destruct (vfs_open booted (Some path_a) O_NEW) as [[[p|] s]|]; cbn [fst snd]; [by intros ->|done..].
Qed.

Lemma opened_ok : vfs_ok opened [] [OpenFile 0] 4 ∧ open_rw opened [OpenFile 0] (OpenFile 0) 1.
Proof.
  assert (Hb : bytes_path (Some path_a)) by (intros p [= <-]; by repeat constructor).
  assert (Hl : Z.of_nat (length (@nil file_ptr)) + 1 < 2 ^ 31) by done. assert (Hk : 1 + 3 < 2 ^ 32) by done.
  pose proof (vfs_open_ok booted [] 1 (Some path_a) O_NEW booted_vfs_ok Hb Hl Hk) as Ho. rewrite opened_eq in Ho.
  split; [exact (proj1 Ho)|]. clear Ho. constructor.
  - by left.
  - exists 1. vm_compute. repeat split.
  - vm_compute. reflexivity.
  - vm_compute. discriminate.
  - vm_compute. reflexivity.
  - vm_compute. reflexivity.
Qed.

Lemma vfs_write_seek_read_witness :
  ∃ w s1 s2 s3, vfs_write opened (Some (OpenFile 0)) [104; 105] = Some (Some w, s1)
    ∧ vfs_lseek s1 (Some (OpenFile 0)) 0 SEEK_SET = (Some 0, s2)
    ∧ vfs_read s2 (Some (OpenFile 0)) w = Some (Some (take (Z.to_nat w) [104; 105]), s3).
Proof.
  assert (Ho : f_offset (v_file opened (OpenFile 0)) = 0) by (vm_compute; reflexivity).
  assert (Hle : f_offset (v_file opened (OpenFile 0)) <= MAX_FILE_SIZE) by (rewrite Ho; vm_compute; discriminate).
  assert (Hl : zlen [104; 105] < 2 ^ 63) by (vm_compute; reflexivity).
  assert (Hb : Forall (λ b, 0 <= b < 256) [104; 105]) by (clear; by repeat constructor).
  destruct (vfs_write_seek_read opened [OpenFile 0] 4 (OpenFile 0) 1 [104; 105] (proj1 opened_ok) (proj2 opened_ok) Hle Hl Hb)
    as (w & s1 & s2 & s3 & E1 & _ & _ & E2 & E3 & _).
  rewrite Ho in E2. exists w, s1, s2, s3. exact (conj E1 (conj E2 E3)).
Defined.

(** /a is unlinked while it is open. *)
Definition parent_of_a : vfs := (vfs_lookup_parent opened (Some path_a) RAMFS_MAX_FILENAME).2.
Definition unlinked : vfs := (vfs_unlink opened (Some path_a)).2.

Lemma parent_of_a_eq :
  vfs_lookup_parent opened (Some path_a) RAMFS_MAX_FILENAME = (Some (0, [97]), parent_of_a).
Proof.
  assert (E : (vfs_lookup_parent opened (Some path_a) RAMFS_MAX_FILENAME).1 = Some (0, [97])) by (vm_compute; reflexivity).
  unfold parent_of_a. by rewrite <- E, <- surjective_pairing.
Qed.

(** The next file gets the inode of /a. *)
Lemma unlinked_next : (ramfs_alloc_inode (v_fs unlinked) INODE_TYPE_FILE).1 = Some 1.
Proof. vm_compute. reflexivity. Qed.

Lemma unlinked_inode_freed_while_open_witness :
  ∃ fs w s2, ramfs_alloc_inode (v_fs unlinked) INODE_TYPE_FILE = (Some 1, fs)
    ∧ open_rw (set_fs unlinked fs) [OpenFile 0] (OpenFile 0) 1
    ∧ vfs_write (set_fs unlinked fs) (Some (OpenFile 0)) [104; 105] = Some (Some w, s2)
    ∧ file_bytes (v_fs s2) 1 0 w = take (Z.to_nat w) [104; 105].
Proof.
  assert (Hk : 4 + 1 < 2 ^ 32) by (vm_compute; reflexivity).
  assert (Hb : Forall (λ b, 0 <= b < 256) path_a) by (clear; by repeat constructor).
  assert (El : ramfs_dir_lookup (v_fs opened) (vn_inode (v_vnode parent_of_a 0)) [97] = Some 1) by (vm_compute; reflexivity).
  assert (Hd : [97] ≠ [DOT; DOT]) by discriminate.
  assert (Hl : inode_link_count (rd_data (v_fs opened)) (inode_at 1) = 1) by (vm_compute; reflexivity).
  assert (Ho : f_offset (v_file opened (OpenFile 0)) = 0) by (vm_compute; reflexivity).
  destruct (unlinked_inode_freed_while_open opened [OpenFile 0] 4 (OpenFile 0) 1 path_a 0 [97] parent_of_a
    (proj1 opened_ok) Hk Hb (proj2 opened_ok) parent_of_a_eq El Hd Hl) as (s' & Eu & _ & _ & Hnext).
  assert (Es : s' = unlinked) by (unfold unlinked; rewrite Eu; reflexivity). rewrite Es in Hnext. clear Es Eu El Hl.
  destruct (ramfs_alloc_inode (v_fs unlinked) INODE_TYPE_FILE) as [r fs] eqn:Ea.
  assert (Hr : r = Some 1) by (pose proof unlinked_next as E; rewrite Ea in E; exact E). rewrite Hr in Hnext |- *.
  assert (Hle : f_offset (v_file opened (OpenFile 0)) <= MAX_FILE_SIZE) by (rewrite Ho; vm_compute; discriminate).
  assert (Hz : zlen [104; 105] < 2 ^ 63) by (vm_compute; reflexivity).
  assert (Hbb : Forall (λ b, 0 <= b < 256) [104; 105]) by (clear; by repeat constructor).
  destruct (Hnext fs eq_refl) as [Hrw Hw]. destruct (Hw [104; 105] Hle Hz Hbb) as (w & s2 & E1 & _ & E2).
  rewrite Ho in E2. exists fs, w, s2. exact (conj eq_refl (conj Hrw (conj E1 E2))).
Defined.

(** Removing an empty directory reports success but keeps its inode allocated:
    its link count starts at two and is decremented once. *)
Lemma unlink_directory_leaks_inode :
  let s1 := (vfs_mkdir booted (Some path_d)).2 in
  let r := vfs_unlink s1 (Some path_d) in
  r.1 = true ∧ (vfs_lookup r.2 (Some path_d)).1 = None
  ∧ free_inodes (rd_data (v_fs r.2)) = free_inodes (rd_data (v_fs booted)) - 1.
Proof. vm_compute. repeat split. Qed.

(** Every lookup of the root leaves one more reference to it behind. *)
Lemma root_references_accumulate :
  let s1 := (vfs_stat booted (Some ROOT_PATH)).2 in
  let s2 := (vfs_stat s1 (Some ROOT_PATH)).2 in
  (vn_ref (v_vnode booted 0), vn_ref (v_vnode s1 0), vn_ref (v_vnode s2 0)) = (1, 2, 3).
Proof. vm_compute. reflexivity. Qed.
