(* ===== verification/FsInit.v ===== *)
(** * The first files: [fs_init] of kernel/kernel.c

    The VFS is initialised and the first directories and files are created.  On
    a fresh disk, whatever memory it is given, all of it succeeds in keeping the
    invariant of the VFS: no reference is left over.  That depends on the file
    /hello.txt being absent, since the vnode that [vfs_lookup] finds is never
    released. *)

From Stdlib Require Import ZArith Lia String.
From stdpp Require Import base numbers list.
From S2P Require Import Prelude.
From S2P Require Import Mem.
From S2P Require Import Path.
From S2P Require Import Ramfs.
From S2P Require Import Vnode.
From S2P Require Import File.
From S2P Require Import Vfs.
From S2P Require Import VfsRefs.
From S2P Require Import VfsSpec.

Definition hello_text : list Z :=
  text "Welcome to Chanux OS!" ++ nl ++ nl ++ text "This is a simple educational operating system." ++ nl
  ++ text "Type 'help' for available commands." ++ nl.

Definition readme_text : list Z :=
  text "=== Chanux OS ===" ++ nl ++ nl ++ text "An educational x86_64 operating system." ++ nl ++ nl
  ++ text "Features:" ++ nl ++ text "- 64-bit long mode" ++ nl ++ text "- Virtual memory with paging" ++ nl
  ++ text "- Preemptive multitasking" ++ nl ++ text "- User/kernel mode separation" ++ nl
  ++ text "- System calls (SYSCALL/SYSRET)" ++ nl ++ text "- RAM-based filesystem" ++ nl ++ text "- Interactive shell" ++ nl.

(** A file is created, written and closed. *)
Definition create_file (v : vfs) (path msg : list Z) : option vfs :=
  '(f, v) ← vfs_open v (Some path) (Z.lor O_CREAT O_WRONLY);
  match f with
  | Some f => '(_, v) ← vfs_write v (Some f) msg; Some (vfs_close v (Some f)).2
  | None => Some v
  end.

(** [m] is the memory given to the RAM disk. *)
Definition fs_init (v : vfs) (m : option mem) : option vfs :=
  v ← vfs_init v m;
  let v := (vfs_mkdir v (Some (text "/bin"))).2 in
  let v := (vfs_mkdir v (Some (text "/home"))).2 in
  let v := (vfs_mkdir v (Some (text "/tmp"))).2 in
  v ← (match vfs_lookup v (Some (text "/hello.txt")) with
       | (Some _, v) => Some v
       | (None, v) => create_file v (text "/hello.txt") hello_text
       end);
  create_file v (text "/README") readme_text.

(** ** The names in the root directory *)

(** The root directory does not bind [nm]. *)
Definition lacks (fs : ramfs) (nm : list Z) : Prop := dir_find (file_byte fs RAMFS_ROOT_INODE) nm = None.

Definition root_kept (fs fs' : ramfs) : Prop :=
  ∀ o, 0 <= o < MAX_FILE_SIZE → file_byte fs' RAMFS_ROOT_INODE o = file_byte fs RAMFS_ROOT_INODE o.

Lemma root_valid : valid_inode RAMFS_ROOT_INODE.
Proof. unfold valid_inode. fs_consts. lia. Qed.

Lemma root_kept_lacks fs fs' nm : root_kept fs fs' → zlen nm <= 56 → lacks fs nm → lacks fs' nm.
Proof. intros Hk Hl Hn. unfold lacks. by rewrite (dir_find_ext _ _ nm Hl Hk). Qed.

Lemma others_root n fs fs' : fs_wf fs → others_kept n fs fs' → n ≠ RAMFS_ROOT_INODE → root_kept fs fs'.
Proof. intros Hwf Ho Hn. exact (proj2 (proj2 (proj2 (proj2 (proj2 (Ho _ root_valid (not_eq_sym Hn) (proj1 (fw_root _ Hwf)))))))). Qed.

Lemma store_admin_root fs n off v :
  fs_wf fs → valid_inode n → off = IN_link_count ∨ off = IN_parent →
  root_kept fs (with_data fs (store32 (rd_data fs) (inode_at n + off) v)).
Proof.
  intros Hwf Hn Hoff. pose proof (inode_at_range n Hn) as Hr. set (fs' := with_data _ _).
  assert (Hch : changed (rd_data fs) (rd_data fs') (inode_at n + off) 4) by (apply (changed_store 4); lia).
  assert (Ho : off = 48 ∨ off = 108) by (fs_consts; lia). destruct (decide (n = RAMFS_ROOT_INODE)) as [->|Hne].
  - intros o Hoo. pose proof (block_index_range o Hoo) as Hi. apply file_byte_frame.
    + apply (iblock_field _ _ _ _ _ Hch); [lia|done].
    + intros Hnz j Hj. apply Hch. pose proof (owned_range fs _ _ Hwf Hn (proj1 (fw_root _ Hwf)) Hi Hnz). fs_consts. lia.
  - apply (others_root n); [done| |done]. apply (inode_change_kept fs fs' n Hwf Hn).
    apply (changed_weaken _ _ _ _ _ _ Hch); lia.
Qed.

Lemma bump_links_root fs n j : fs_wf fs → valid_inode n → root_kept fs (with_data fs (bump_links (rd_data fs) (inode_at n) j)).
Proof. intros Hwf Hn. by apply (store_admin_root fs n IN_link_count); [..|left]. Qed.

Lemma root_kept_trans fs1 fs2 fs3 : root_kept fs1 fs2 → root_kept fs2 fs3 → root_kept fs1 fs3.
Proof. intros H1 H2 o Ho. by rewrite H2, H1. Qed.

Lemma new_inode_root fs n pn dn type :
  fs_wf fs → valid_inode n → valid_inode dn →
  root_kept fs (with_data fs (if type =? INODE_TYPE_DIR
    then bump_links (store32 (store32 (rd_data fs) (inode_at n + IN_parent) pn) (inode_at n + IN_link_count) 2) (inode_at dn) 1
    else store32 (rd_data fs) (inode_at n + IN_parent) pn)).
Proof.
  intros Hwf Hn Hdn. pose proof (store_admin_root fs n IN_parent pn Hwf Hn (or_intror eq_refl)) as K1.
  destruct (store_admin_wf fs n IN_parent pn Hwf Hn (or_intror eq_refl)) as [W1 _]. destruct (_ =? _); [|done].
  set (fs1 := with_data fs _) in K1, W1. pose proof (store_admin_root fs1 n IN_link_count 2 W1 Hn (or_introl eq_refl)) as K2.
  destruct (store_admin_wf fs1 n IN_link_count 2 W1 Hn (or_introl eq_refl)) as [W2 _].
  exact (root_kept_trans _ _ _ K1 (root_kept_trans _ _ _ K2 (bump_links_root _ dn 1 W2 Hdn))).
Qed.

Lemma new_inode_used fs n pn dn type m :
  valid_inode n → valid_inode dn → valid_inode m →
  used_inode (with_data fs (if type =? INODE_TYPE_DIR
    then bump_links (store32 (store32 (rd_data fs) (inode_at n + IN_parent) pn) (inode_at n + IN_link_count) 2) (inode_at dn) 1
    else store32 (rd_data fs) (inode_at n + IN_parent) pn)) m = used_inode fs m.
Proof.
  intros Hn Hdn Hm. set (fs' := with_data fs _). assert (Hch : changed (rd_data fs) (rd_data fs') 4096 32768).
  { intros x Hx. pose proof (inode_at_range n Hn). pose proof (inode_at_range dn Hdn). unfold fs', bump_links. simpl.
    destruct (_ =? _); rewrite !store_ne by (fs_consts; lia); done. }
  by apply (used_inode_frame _ _ _ _ Hch).
Qed.

(** Adding a name to some directory. *)
Lemma add_entry_lacks fs dn name inode type nm :
  fs_wf fs → valid_inode dn → plain_name name → is_u32 inode → inode ≠ 0 → zlen nm <= 56 → nm ≠ name → lacks fs nm →
  let '(ok, fs') := ramfs_dir_add_entry fs (Some (inode_at dn)) name inode type in
  fs_wf fs' ∧ lacks fs' nm ∧ (ok = false → fs' = fs).
Proof.
  intros Hwf Hdn (Hl & Hb & N1 & N2) Hi Hnz Hl' Hne Hno.
  destruct (decide (ityp fs dn = INODE_TYPE_DIR)) as [Ht|Ht].
  2: { unfold ramfs_dir_add_entry. fold (ityp fs dn). by rewrite (proj2 (Z.eqb_neq _ _) Ht). }
  pose proof (ramfs_dir_add_entry_cases fs dn name inode type Hwf Hdn Ht Hl Hb N1 N2 Hi Hnz) as Hc.
  destruct (ramfs_dir_add_entry _ _ _ _ _) as [[] fs']; [|by destruct Hc as [-> _]].
  destruct Hc as (e & He & Hnone & Hdb). apply find_first_Some in He as (Her & Hz%Z.eqb_eq & _).
  split_and!; [exact (db_wf _ _ _ _ Hdb)| |done]. destruct (decide (dn = RAMFS_ROOT_INODE)) as [->|Hd].
  - unfold lacks. rewrite (dir_find_ext _ _ nm Hl' (db_content _ _ _ _ Hdb)).
    rewrite dir_find_added by (done || lia). by rewrite decide_False by done.
  - exact (root_kept_lacks fs fs' nm (others_root dn fs fs' Hwf (db_others _ _ _ _ Hdb) Hd) Hl' Hno).
Qed.

Lemma get_or_create_fs s n : v_fs (vnode_get_or_create s n).2 = v_fs s.
Proof.
  unfold vnode_get_or_create, vnode_alloc, vnode_free. destruct (find_first _ _ _); [done|]. destruct (find_first _ _ _); [|done].
  cbn [v_fs set_vnode]. destruct (ramfs_get_inode _ _); [done|]. by destruct (decide _).
Qed.

Lemma vnode_unref_fs s vn : v_fs (vnode_unref s vn) = v_fs s.
Proof.
  destruct vn as [v|]; [|done]. unfold vnode_unref, vnode_free. destruct (decide _); [done|].
  destruct (0 <? _); [|done]. cbv zeta. destruct (_ =? 0); [|done]. by destruct (decide (Some v = _)).
Qed.

(** Creating a file or directory of another name. *)
Lemma ramfs_vfs_create_lacks s X H k dir name type nm :
  vfs_ok s (dir :: X) H k → plain_name name → type = INODE_TYPE_FILE ∨ type = INODE_TYPE_DIR →
  zlen nm <= 56 → nm ≠ name → lacks (v_fs s) nm → lacks (v_fs (ramfs_vfs_create s dir name type).2) nm.
Proof.
  intros (Hr & Hwf & _) Hp Ht Hl Hne Hno. destruct (held_vnode s X H k dir Hr) as (_ & Hdn & Hdi).
  unfold ramfs_vfs_create. rewrite Hdi. set (dn := vn_inode_num (v_vnode s dir)) in *.
  pose proof (ramfs_alloc_inode_cases (v_fs s) type Hwf Ht) as Ha.
  destruct (ramfs_alloc_inode (v_fs s) type) as [[n|] fs1]; [|by destruct Ha as [-> _]].
  destruct Ha as (Hvn & Hun & Hwf1 & _ & Hu1 & _ & _ & _ & _ & Hoth). rewrite (get_inode_Some fs1 n) by done.
  assert (Hn0 : n ≠ RAMFS_ROOT_INODE) by (intros ->; by rewrite (proj1 (fw_root _ Hwf)) in Hun).
  pose proof (root_kept_trans _ _ _ (others_root n _ _ Hwf Hoth Hn0) (new_inode_root fs1 n dn dn type Hwf1 Hvn Hdn)) as K2.
  pose proof (new_inode_wf fs1 n dn dn type Hwf1 Hvn Hdn) as Hwf2. set (fs2 := with_data fs1 _) in *. 
  pose proof (add_entry_lacks fs2 dn name n type nm Hwf2 Hdn Hp) as Hadd.
  destruct (ramfs_dir_add_entry fs2 _ _ _ _) as [[] fs3]; destruct Hadd as (Hwf3 & Hno3 & E3);
    try done; try (unfold valid_inode, is_u32 in *; fs_consts; lia); try exact (root_kept_lacks _ _ _ K2 Hl Hno).
  - by rewrite get_or_create_fs.
  - specialize (E3 eq_refl). subst fs3. simpl. set (fs4 := if type =? INODE_TYPE_DIR then with_data fs2 (bump_links (rd_data fs2) (inode_at dn) (-1)) else fs2).
    assert (H4 : fs_wf fs4 ∧ root_kept fs2 fs4 ∧ used_inode fs4 n = true).
    { assert (Hu2 : used_inode fs2 n = true) by (unfold fs2; by rewrite new_inode_used, Hu1, Z.eqb_refl).
      unfold fs4. destruct (_ =? _); [|done]. split_and!; [by apply bump_links_wf|by apply bump_links_root|].
      rewrite <- Hu2. apply (store_admin_wf fs2 dn IN_link_count); [done|done|by left|done]. }
    destruct H4 as (Hwf4 & K4 & Hu4). destruct (ramfs_free_inode_cases fs4 n Hwf4 Hvn Hn0 Hu4) as (_ & _ & _ & _ & _ & Ho5).
    exact (root_kept_lacks _ _ _ (root_kept_trans _ _ _ K4 (others_root n _ _ Hwf4 Ho5 Hn0)) Hl Hno3).
Qed.

Lemma vfs_lookup_fs s path : v_fs (vfs_lookup s path).2 = v_fs s.
Proof.
  unfold vfs_lookup. destruct path as [p|]; [|done]. destruct (negb _); [done|]. destruct (path_normalize _ _ _); [|done].
  destruct (ramfs_lookup_path _ _); [|done]. apply get_or_create_fs.
Qed.

Lemma vfs_mkdir_lacks s k path name nm :
  vfs_ok s [] [] k → k + 2 < 2 ^ 32 → bytes_path (Some path) →
  path_basename (path_normalize (Some path) (Some ROOT_PATH) VFS_MAX_PATH) = name → plain_name name →
  zlen nm <= 56 → nm ≠ name → lacks (v_fs s) nm → lacks (v_fs (vfs_mkdir s (Some path)).2) nm.
Proof.
  intros Hok Hk Hb Hbase Hp Hl Hne Hno. unfold vfs_mkdir, vfs_create.
  pose proof (vfs_lookup_parent_ok s [] [] k (Some path) RAMFS_MAX_FILENAME Hok Hb ltac:(simpl; lia) ltac:(lia)) as Hlp.
  revert Hlp. unfold vfs_lookup_parent. destruct (_ =? 0); [done|].
  destruct (path_normalize _ _ _) as [np|]; [|done]. destruct (path_dirname _ _) as [pp|]; [|done]. cbv zeta.
  destruct (_ <=? _); [done|]. pose proof (vfs_lookup_fs s (Some pp)) as Efs. rewrite Hbase.
  destruct (vfs_lookup s (Some pp)) as [[vn|] s1]; cbn [snd] in Efs; [|intros _; simpl; by rewrite Efs]. intros [Hok1 _].
  rewrite <- Efs in Hno. destruct (vn_ops (v_vnode s1 vn)); [|cbn [snd]; by rewrite vnode_unref_fs].
  pose proof (ramfs_vfs_create_lacks s1 [] [] (k + 1) vn name INODE_TYPE_DIR nm Hok1 Hp (or_intror eq_refl) Hl Hne Hno) as Hc.
  destruct (ramfs_vfs_create _ _ _ _) as [[v|] s2]; cbn [snd] in Hc |- *; by rewrite ?vnode_unref_fs.
Qed.

(** A name that the root directory lacks is not found. *)
Lemma vfs_lookup_lacks s X H k path nm :
  vfs_ok s X H k → path_normalize (Some path) (Some ROOT_PATH) VFS_MAX_PATH = Some (SLASH :: nm) →
  take_component 0 nm = Some (nm, []) → plain_name nm → lacks (v_fs s) nm → vfs_lookup s (Some path) = (None, s).
Proof.
  intros (_ & Hwf & _) En Et (Hl & _ & N1 & N2) Hno. unfold vfs_lookup. destruct (negb _); [done|]. rewrite En.
  replace (ramfs_lookup_path (v_fs s) (SLASH :: nm)) with (@None Z); [done|]. symmetry.
  unfold ramfs_lookup_path. rewrite Z.eqb_refl. cbn [negb lookup_walk]. destruct nm as [|c nm]; [unfold zlen in Hl; simpl in Hl; lia|].
  rewrite Et, bind_Some_eq. rewrite (get_inode_Some _ _ Hwf root_valid), bind_Some_eq.
  destruct (negb _); [done|]. rewrite ramfs_dir_lookup_find by (done || lia || exact root_valid || exact (proj2 (fw_root _ Hwf))).
  unfold lacks in Hno. by rewrite Hno.
Qed.

(** ** Start-up keeps the invariant *)

Lemma create_file_ok v path msg k :
  vfs_ok v [] [] k → k + 3 < 2 ^ 32 → bytes_path (Some path) → zlen msg < 2 ^ 63 → Forall (λ b, 0 <= b < 256) msg →
  ∃ v', create_file v path msg = Some v' ∧ vfs_ok v' [] [] (k + 3).
Proof.
  intros Hok Hk Hb Hl Hm. unfold create_file.
  pose proof (vfs_open_ok v [] k (Some path) (Z.lor O_CREAT O_WRONLY) Hok Hb ltac:(simpl; lia) Hk) as Ho.
  destruct (vfs_open v _ _) as [[[f|] v1]|]; [| |done]; rewrite bind_Some_eq; [|by eexists].
  destruct Ho as [Hok1 _]. destruct (vfs_write_total v1 [f] (k + 3) f msg Hok1 ltac:(by left) Hl Hm) as (r & v2 & E & Hok2 & _).
  rewrite E, bind_Some_eq. eexists. split; [done|]. by apply vfs_close_ok.
Qed.

(** How often the root has been referred to by then, which bounds its counter. *)
Definition FS_BOOT : Z := 13.

Lemma fs_init_ok ticks m :
  mem_wf m → is_u64 ticks → ∃ v, fs_init (static_vfs ticks) (Some m) = Some v ∧ vfs_ok v [] [] FS_BOOT.
Proof.
  intros Hm Ht. destruct (vfs_init_root ticks m Hm Ht) as (v0 & E0 & Hok0 & Hz). unfold fs_init. rewrite E0, bind_Some_eq. cbv zeta.
  assert (L0 : lacks (v_fs v0) (text "hello.txt")).
  { unfold lacks. rewrite (dir_find_ext (λ _, 0)); [by vm_compute|by vm_compute|exact Hz]. }
  assert (Hmk : ∀ v k name, vfs_ok v [] [] k → k + 2 < 2 ^ 32 → lacks (v_fs v) (text "hello.txt") →
    name ∈ [text "bin"; text "home"; text "tmp"] →
    let v' := (vfs_mkdir v (Some (SLASH :: name))).2 in vfs_ok v' [] [] (k + 2) ∧ lacks (v_fs v') (text "hello.txt")).
  { clear. intros v k name Hok Hk Hl Hin v'.
    assert (Hn : bytes_path (Some (SLASH :: name)) ∧ plain_name name ∧ text "hello.txt" ≠ name
      ∧ path_basename (path_normalize (Some (SLASH :: name)) (Some ROOT_PATH) VFS_MAX_PATH) = name).
    { repeat (apply elem_of_cons in Hin as [->|Hin]); [..|by apply not_elem_of_nil in Hin].
      all: split_and!; [intros p [= <-]; by repeat constructor|unfold plain_name; split_and!; by repeat constructor|done|by vm_compute]. }
    destruct Hn as (Hb & Hp & Hne & Hbase). split.
    - by apply vfs_create_ok; [..|right|].
    - by apply (vfs_mkdir_lacks v k (SLASH :: name) name). }
  change (text "/bin") with (SLASH :: text "bin"). change (text "/home") with (SLASH :: text "home").
  change (text "/tmp") with (SLASH :: text "tmp").
  destruct (Hmk v0 1 (text "bin") Hok0 ltac:(lia) L0 ltac:(by left)) as [Hok1 L1]. set (v1 := (vfs_mkdir v0 _).2) in *.
  destruct (Hmk v1 3 (text "home") Hok1 ltac:(lia) L1 ltac:(by right; left)) as [Hok2 L2]. set (v2 := (vfs_mkdir v1 _).2) in *.
  destruct (Hmk v2 5 (text "tmp") Hok2 ltac:(lia) L2 ltac:(by right; right; left)) as [Hok3 L3]. set (v3 := (vfs_mkdir v2 _).2) in *.
  assert (Hh : plain_name (text "hello.txt")) by (unfold plain_name; split_and!; by repeat constructor).
  rewrite (vfs_lookup_lacks v3 [] [] 7 (text "/hello.txt") (text "hello.txt") Hok3) by (done || by vm_compute).
  destruct (create_file_ok v3 (text "/hello.txt") hello_text 7 Hok3) as (v4 & E4 & Hok4);
    [lia|intros p [= <-]; by repeat constructor|by vm_compute|by repeat constructor|].
  rewrite E4, bind_Some_eq.
  destruct (create_file_ok v4 (text "/README") readme_text 10 Hok4) as (v5 & E5 & Hok5);
    [lia|intros p [= <-]; by repeat constructor|by vm_compute|by repeat constructor|].
  exists v5. split; [done|]. by eapply vfs_ok_weaken; [exact Hok5|unfold FS_BOOT; lia].
Qed.

(** ** The first files *)

(** The filesystem after start-up, with the clock at 7. *)
Definition started : vfs := default (static_vfs 7) (fs_init (static_vfs 7) (Some (λ _, 0))).

(** The first [n] bytes of a file, read through a descriptor of its own. *)
Definition contents_of (v : vfs) (path : list Z) (n : Z) : option (list Z) :=
  '(f, v) ← vfs_open v (Some path) O_RDONLY;
  f ← f;
  '(r, _) ← vfs_read v (Some f) n;
  r.

Definition mode_of (v : vfs) (path : list Z) : option Z := st_mode <$> (vfs_stat v (Some path)).1.

(** Start-up creates the first files: on a fresh disk [fs_init] returns, the
    two text files hold exactly their texts and are closed again, and the three
    directories are there. *)
Theorem fs_init_files :
  (∃ v, fs_init (static_vfs 7) (Some (λ _, 0)) = Some v ∧ v = started)
  ∧ contents_of started (text "/hello.txt") 4096 = Some hello_text
  ∧ contents_of started (text "/README") 4096 = Some readme_text
  ∧ (λ d, Z.land (default 0 (mode_of started (text d))) S_IFDIR) <$> ["/bin"; "/home"; "/tmp"]%string = [S_IFDIR; S_IFDIR; S_IFDIR]
  ∧ (f_ref (v_file started (OpenFile 0)), f_ref (v_file started (OpenFile 1))) = (0, 0).
Proof.
  split; [|vm_compute; repeat split].
  assert (Hs : match fs_init (static_vfs 7) (Some (λ _, 0)) with Some _ => true | None => false end = true) by (vm_compute; reflexivity).
  unfold started. destruct (fs_init (static_vfs 7) (Some (λ _, 0))) as [v|]; [by exists v|done].
Qed.
