(* ===== verification/Syscall.v ===== *)
(** * System calls: kernel/syscall/syscall.c, sys_fs.c, sys_io.c, sys_process.c

    The kernel's state is that of Proc over a world that joins the VFS of
    Vnode, the descriptor tables by address, the console, the keyboard, the
    memory of the running program and the kernel heap.  The heap is an
    interface, [KernelHeap] of KernelHeap; the instance [world_env] is what process.c sees of
    all this.

    The kernel reads and writes user memory through the running program's page
    tables, without checking them: a page that is not mapped is a page fault,
    which halts the machine, and the identity-mapped low memory is the kernel's
    own.  [w_pages] tells which pages of the lower half are mapped to frames of
    the running program, [w_mem] holds their bytes, and every access is checked
    against [w_pages], byte for byte as far as the code goes.

    A system call returns the value left in RAX and the state in which the next
    instruction of a user program runs, which after a yield, a sleep or an exit
    belongs to another process.  [None]: the kernel panics, follows a dangling
    pointer, does not return, or touches memory outside the program's pages,
    of which nothing more is said. *)

From Stdlib Require Import ZArith Lia String.
From stdpp Require Import base numbers list gmap relations.
From S2P Require Import Prelude.
From S2P Require Import Mem.
From S2P Require Import KernelHeap.
From S2P Require Import Path.
From S2P Require Import Keyboard.
From S2P Require Import Vga.
From S2P Require Import Console.
From S2P Require Import Proc.
From S2P Require Import Ramfs.
From S2P Require Import Vnode.
From S2P Require Import File.
From S2P Require Import Vfs.

Definition SYS_EXIT : Z := 0.
Definition SYS_WRITE : Z := 1.
Definition SYS_READ : Z := 2.
Definition SYS_YIELD : Z := 3.
Definition SYS_GETPID : Z := 4.
Definition SYS_SLEEP : Z := 5.
Definition SYS_OPEN : Z := 6.
Definition SYS_CLOSE : Z := 7.
Definition SYS_LSEEK : Z := 8.
Definition SYS_STAT : Z := 9.
Definition SYS_FSTAT : Z := 10.
Definition SYS_READDIR : Z := 11.
Definition SYS_GETCWD : Z := 12.
Definition SYS_CHDIR : Z := 13.
Definition SYS_MAX : Z := 14.

Definition ENOSYS : Z := 38.
Definition EFAULT : Z := 14.
Definition EBADF : Z := 9.
Definition EINVAL : Z := 22.
Definition ENOMEM : Z := 12.
Definition ENOTDIR : Z := 20.
Definition EMFILE : Z := 24.
Definition ERANGE : Z := 34.
Definition ENAMETOOLONG : Z := 36.

Definition USER_SPACE_END : Z := 0x0000800000000000.

(** ** The world *)

Record world (A : Type) := World {
  w_vfs : vfs;
  w_tables : gmap Z File.fd_table;
  w_console : console;
  w_kbd : keyboard;
  w_mem : mem;
  w_pages : Z → bool;
  w_heap : A
}.
Arguments World {A}.
Arguments w_vfs {A}.
Arguments w_tables {A}.
Arguments w_console {A}.
Arguments w_kbd {A}.
Arguments w_mem {A}.
Arguments w_pages {A}.
Arguments w_heap {A}.

Definition sizeof_fd_table : Z := 136.
Definition sizeof_stat : Z := 72.

Section world.
Context {A : Type} `{KernelHeap A}.
Implicit Types w : world A.

Definition set_vfs w (v : vfs) : world A := World v (w_tables w) (w_console w) (w_kbd w) (w_mem w) (w_pages w) (w_heap w).
Definition set_tables w (t : gmap Z File.fd_table) : world A :=
  World (w_vfs w) t (w_console w) (w_kbd w) (w_mem w) (w_pages w) (w_heap w).
Definition set_console w (c : console) : world A :=
  World (w_vfs w) (w_tables w) c (w_kbd w) (w_mem w) (w_pages w) (w_heap w).
Definition set_kbd w (k : keyboard) : world A :=
  World (w_vfs w) (w_tables w) (w_console w) k (w_mem w) (w_pages w) (w_heap w).
Definition set_mem w (m : mem) : world A :=
  World (w_vfs w) (w_tables w) (w_console w) (w_kbd w) m (w_pages w) (w_heap w).
Definition set_heap w (h : A) : world A :=
  World (w_vfs w) (w_tables w) (w_console w) (w_kbd w) (w_mem w) (w_pages w) h.
Definition set_pages w (p : Z → bool) : world A :=
  World (w_vfs w) (w_tables w) (w_console w) (w_kbd w) (w_mem w) p (w_heap w).

(** The descriptor tables as process.c uses them: by address. *)
Definition create_table w : Z * world A :=
  let '(a, h) := kh_kmalloc sizeof_fd_table (w_heap w) in
  let w := set_heap w h in
  match fd_table_create (w_vfs w) (negb (a =? 0)) with
  | (Some t, v) => (a, set_tables (set_vfs w v) (<[a := t]> (w_tables w)))
  | (None, v) => (0, set_vfs w v)
  end.

Definition init_stdio (a : Z) w : world A :=
  match w_tables w !! a with
  | Some t => let '(t, v) := fd_init_stdio (w_vfs w) t in set_tables (set_vfs w v) (<[a := t]> (w_tables w))
  | None => w
  end.

Definition destroy_table (a : Z) w : world A :=
  let w := set_vfs w (fd_table_destroy (w_vfs w) (w_tables w !! a)) in
  set_heap (set_tables w (delete a (w_tables w))) (kh_kfree a (w_heap w)).

#[global] Instance world_env : ProcEnv (world A) := {
  env_process_entry_wrapper := kh_process_entry_wrapper;
  env_kmalloc n w := let '(a, h) := kh_kmalloc n (w_heap w) in (a, set_heap w h);
  env_kfree a w := set_heap w (kh_kfree a (w_heap w));
  env_store64 a v w := set_heap w (kh_store64 a v (w_heap w));
  env_fd_table_create := create_table;
  env_fd_init_stdio := init_stdio;
  env_fd_table_destroy := destroy_table;
  env_tell l w := set_console w (tell l (w_console w))
}.

Abbreviation kernel := (sys (world A)).
Implicit Types s : kernel.

Definition on_world s (f : world A → world A) : kernel := set_world s (f (s_world s)).

(** ** User memory *)

(** All bytes of [a, a + n) lie in pages of the running program. *)
Definition accessible w (a n : Z) : bool :=
  if n <=? 0 then true
  else bool_decide (find_first (a / PAGE_SIZE) ((a + n - 1) / PAGE_SIZE + 1) (λ p, negb (w_pages w p)) = None).

(** Reading and writing [n] bytes at [a]. *)
Definition load_user w (a n : Z) : option (list Z) :=
  if accessible w a n then Some (read_bytes (w_mem w) a n) else None.
Definition store_user s (a n : Z) (f : mem → mem) : option kernel :=
  if accessible (s_world s) a n then Some (on_world s (λ w, set_mem w (f (w_mem w)))) else None.

(** ** User pointers *)

Definition validate_user_ptr (addr len : Z) : bool :=
  if addr =? 0 then false
  else if USER_SPACE_END <=? addr then false
  else if addr +64 len <? addr then false
  else if USER_SPACE_END <? addr +64 len then false
  else true.

Definition validate_user_ptr_read (addr len : Z) : bool :=
  if (addr =? 0) || (len =? 0) then false
  else if USER_SPACE_END <=? addr then false
  else if addr +64 len <? addr then false
  else if USER_SPACE_END <? addr +64 len then false
  else true.
Definition validate_user_ptr_write (addr len : Z) : bool := validate_user_ptr_read addr len.

Definition validate_user_string w (str max_len : Z) : option bool :=
  if str =? 0 then Some false
  else if USER_SPACE_END <=? str then Some false
  else match for_ 0 max_len (λ i (_ : unit),
               if USER_SPACE_END <=? str +64 i then Stop (Some false)
               else if negb (accessible w (str +64 i) 1) then Stop None
               else if w_mem w (str +64 i) =? 0 then Stop (Some true)
               else Next tt) tt with
  | Stop r => r
  | Next _ => Some false
  end.

(** The string at [str], up to its terminator: what the kernel reads through a
    pointer that passed [validate_user_string]. *)
Definition user_string (m : mem) (str : Z) : list Z :=
  read_bytes m str (default 0 (find_first 0 VFS_MAX_PATH (λ i, m (str + i) =? 0))).

(** ** Files: sys_fs.c *)

(** The current process and its descriptor table. *)
Definition current_table s : option (Z * option File.fd_table) :=
  c ← current_process s;
  let a := Proc.fd_table (process_table s c) in
  if a =? 0 then None else Some (a, w_tables (s_world s) !! a).

(** Resolving a user path against the working directory. *)
Definition user_path s (path : Z) : option (list Z) :=
  c ← current_process s;
  path_normalize (Some (user_string (w_mem (s_world s)) path)) (Some (cwd (process_table s c))) VFS_MAX_PATH.

Definition sys_open s (path flags : Z) : option (Z * kernel) :=
  ok ← validate_user_string (s_world s) path VFS_MAX_PATH;
  if negb ok then Some (- EFAULT, s)
  else match current_table s with
  | None => Some (- ENOMEM, s)
  | Some (_, None) => None
  | Some (a, Some t) =>
      match user_path s path with
      | None => Some (- ENAMETOOLONG, s)
      | Some abs_path =>
          match fd_alloc (Some t) with
          | None => Some (- EMFILE, s)
          | Some fd =>
              '(r, v) ← vfs_open (w_vfs (s_world s)) (Some abs_path) (u32 flags);
              match r with
              | None =>
                  let '(t, v) := fd_free v t fd in
                  Some (-1, on_world s (λ w, set_tables (set_vfs w v) (<[a := t]> (w_tables w))))
              | Some file =>
                  Some (fd, on_world s (λ w, set_tables (set_vfs w v)
                              (<[a := set_entry t fd (Some file)]> (w_tables w))))
              end
          end
      end
  end.

(** The open file of a descriptor, after the checks every call makes; [inl] is
    the error value, [inr None] a dangling table. *)
Definition fd_file s (fd : Z) : Z + option (Z * File.fd_table * file_ptr) :=
  match current_table s with
  | None => inl (- EBADF)
  | Some (_, None) => inr None
  | Some (a, Some t) =>
      if bad_fd fd then inl (- EBADF)
      else match entries t fd with
      | None => inl (- EBADF)
      | Some f => inr (Some (a, t, f))
      end
  end.

Definition sys_close s (fd : Z) : option (Z * kernel) :=
  match fd_file s fd with
  | inl e => Some (e, s)
  | inr None => None
  | inr (Some (a, t, f)) =>
      if fd <? 3 then Some (- EINVAL, s)
      else
        let '(ok, v) := vfs_close (w_vfs (s_world s)) (Some f) in
        Some (if ok then 0 else -1,
              on_world s (λ w, set_tables (set_vfs w v) (<[a := set_entry t fd None]> (w_tables w))))
  end.

Definition sys_lseek s (fd offset whence : Z) : option (Z * kernel) :=
  match fd_file s fd with
  | inl e => Some (e, s)
  | inr None => None
  | inr (Some (a, t, f)) =>
      let '(r, v) := vfs_lseek (w_vfs (s_world s)) (Some f) offset whence in
      Some (default (-1) r, on_world s (λ w, set_vfs w v))
  end.

(** The [stat_t] in memory, cleared first by [ramfs_vfs_stat]. *)
Definition store_stat (a : Z) (st : stat) (m : mem) : mem :=
  let m := fill m a 0 sizeof_stat in
  let m := store32 m a (st_ino st) in
  let m := store32 m (a + 4) (st_mode st) in
  let m := store32 m (a + 8) (st_nlink st) in
  let m := store32 m (a + 12) (st_uid st) in
  let m := store32 m (a + 16) (st_gid st) in
  let m := store64 m (a + 24) (st_size st) in
  let m := store64 m (a + 32) (st_blksize st) in
  let m := store64 m (a + 40) (st_blocks st) in
  let m := store64 m (a + 48) (st_atime st) in
  let m := store64 m (a + 56) (st_mtime st) in
  store64 m (a + 64) (st_ctime st).

Definition sys_stat s (path buf : Z) : option (Z * kernel) :=
  ok ← validate_user_string (s_world s) path VFS_MAX_PATH;
  if negb ok then Some (- EFAULT, s)
  else if negb (validate_user_ptr_write buf sizeof_stat) then Some (- EFAULT, s)
  else match current_process s with
  | None => Some (- ENOMEM, s)
  | Some _ =>
      match user_path s path with
      | None => Some (- ENAMETOOLONG, s)
      | Some abs_path =>
          let '(r, v) := vfs_stat (w_vfs (s_world s)) (Some abs_path) in
          let s := on_world s (λ w, set_vfs w v) in
          match r with
          | None => Some (-1, s)
          | Some st => s ← store_user s buf sizeof_stat (store_stat buf st); Some (0, s)
          end
      end
  end.

(** [sys_fstat] fills the structure itself, its three times excepted: it
    touches the first 48 bytes. *)
Definition store_fstat (a mode size ino : Z) (m : mem) : mem :=
  let m := store32 m (a + 4) mode in
  let m := store64 m (a + 24) size in
  let m := store32 m a ino in
  let m := store32 m (a + 8) 1 in
  let m := store32 m (a + 12) 0 in
  let m := store32 m (a + 16) 0 in
  let m := store64 m (a + 32) RAMFS_BLOCK_SIZE in
  store64 m (a + 40) ((size +64 RAMFS_BLOCK_SIZE -64 1) / RAMFS_BLOCK_SIZE).

Definition sys_fstat s (fd buf : Z) : option (Z * kernel) :=
  if negb (validate_user_ptr_write buf sizeof_stat) then Some (- EFAULT, s)
  else match fd_file s fd with
  | inl e => Some (e, s)
  | inr None => None
  | inr (Some (a, t, f)) =>
      let v := w_vfs (s_world s) in
      match f_vnode (v_file v f) with
      | None => Some (- EBADF, s)
      | Some vn =>
          let n := v_vnode v vn in
          let size := match vn_inode n with
                      | Some ip => inode_size (rd_data (v_fs v)) ip
                      | None => 0
                      end in
          let mode := if vn_type n =? INODE_TYPE_DIR then S_IFDIR else S_IFREG in
          s ← store_user s buf 48 (store_fstat buf mode size (vn_inode_num n)); Some (0, s)
      end
  end.

Definition sys_readdir s (fd ent index : Z) : option (Z * kernel) :=
  if negb (validate_user_ptr_write ent sizeof_dirent) then Some (- EFAULT, s)
  else match fd_file s fd with
  | inl e => Some (e, s)
  | inr None => None
  | inr (Some (a, t, f)) =>
      match vfs_readdir (w_vfs (s_world s)) (Some f) (u32 index) with
      | None => Some (-1, s)
      | Some bytes => s ← store_user s ent (zlen bytes) (λ m, write_bytes m ent bytes); Some (0, s)
      end
  end.

Definition sys_getcwd s (buf size : Z) : option (Z * kernel) :=
  if negb (validate_user_ptr_write buf size) then Some (- EFAULT, s)
  else if size =? 0 then Some (- EINVAL, s)
  else match current_process s with
  | None => Some (- ENOMEM, s)
  | Some c =>
      let dir := cwd (process_table s c) in
      if size <=? zlen dir then Some (- ERANGE, s)
      else s ← store_user s buf (zlen dir + 1) (λ m, write_bytes m buf (dir ++ [0])); Some (0, s)
  end.

Definition sys_chdir s (path : Z) : option (Z * kernel) :=
  ok ← validate_user_string (s_world s) path VFS_MAX_PATH;
  if negb ok then Some (- EFAULT, s)
  else match current_process s with
  | None => Some (- ENOMEM, s)
  | Some c =>
      match user_path s path with
      | None => Some (- ENAMETOOLONG, s)
      | Some abs_path =>
          let '(r, v) := vfs_stat (w_vfs (s_world s)) (Some abs_path) in
          let s := on_world s (λ w, set_vfs w v) in
          match r with
          | None => Some (-1, s)
          | Some st =>
              if negb (st_mode st =? S_IFDIR) then Some (- ENOTDIR, s)
              else if CWD_MAX <=? zlen abs_path then Some (- ENAMETOOLONG, s)
              else Some (0, on s c (set_cwd abs_path))
          end
      end
  end.

(** ** Input and output: sys_io.c *)

(** A write to a file reads as many bytes of the buffer as it reports written. *)
Definition sys_write s (fd buf len : Z) : option (Z * kernel) :=
  if negb (validate_user_ptr buf len) then Some (- EFAULT, s)
  else if (fd =? 1) || (fd =? 2) then
    str ← load_user (s_world s) buf len;
    Some (len, on_world s (λ w, set_console w (vga_puts (w_console w) str)))
  else if fd =? 0 then Some (- EBADF, s)
  else match fd_file s fd with
  | inl e => Some (e, s)
  | inr None => None
  | inr (Some (a, t, f)) =>
      '(r, v) ← vfs_write (w_vfs (s_world s)) (Some f) (read_bytes (w_mem (s_world s)) buf len);
      _ ← load_user (s_world s) buf (default 0 r);
      Some (default (-1) r, on_world s (λ w, set_vfs w v))
  end.

(** The characters available from the keyboard, at most [len]. *)
Definition read_keys (k : keyboard) (len : Z) : list Z * keyboard :=
  match for_ 0 len (λ _ '(str, k),
          if negb (keyboard_has_key k) then Stop (str, k)
          else let '(c, k) := keyboard_getchar_nonblock k in
               if c =? 0 then Stop (str, k) else Next (str ++ [c], k)) ([], k) with
  | Next r => r
  | Stop r => r
  end.

Definition sys_read s (fd buf len : Z) : option (Z * kernel) :=
  if negb (validate_user_ptr buf len) then Some (- EFAULT, s)
  else if fd =? 0 then
    if len =? 0 then Some (0, s)
    else
      let '(str, k) := read_keys (w_kbd (s_world s)) len in
      s ← store_user (on_world s (λ w, set_kbd w k)) buf (zlen str) (λ m, write_bytes m buf str);
      Some (zlen str, s)
  else if (fd =? 1) || (fd =? 2) then Some (- EBADF, s)
  else match fd_file s fd with
  | inl e => Some (e, s)
  | inr None => None
  | inr (Some (a, t, f)) =>
      '(r, v) ← vfs_read (w_vfs (s_world s)) (Some f) len;
      match r with
      | None => Some (-1, on_world s (λ w, set_vfs w v))
      | Some bytes =>
          s ← store_user (on_world s (λ w, set_vfs w v)) buf (zlen bytes) (λ m, write_bytes m buf bytes);
          Some (zlen bytes, s)
      end
  end.

(** ** Processes: sys_process.c *)

Definition sys_exit s (code : Z) : option (Z * kernel) :=
  c ← current_process s;
  let s := says s [Say (text "syscall: Process '%s' (PID %d) exiting with code %d" ++ nl)
                     [AStr (Some (p_name (process_table s c))); arg32 (pid (process_table s c)); arg32 code]] in
  s ← process_exit s code; Some (0, s).

Definition sys_yield s : option (Z * kernel) := Some (0, process_yield s).

Definition sys_getpid s : option (Z * kernel) :=
  c ← current_process s; Some (i64 (pid (process_table s c)), s).

Definition pit_get_ticks s : Z := fs_ticks (v_fs (w_vfs (s_world s))).

(** When the call blocks, the final assignment is made after the wake-up, by
    which time [process_wake_sleeping] has made it. *)
Definition sys_sleep s (ms : Z) : option (Z * kernel) :=
  if ms =? 0 then Some (0, process_yield s)
  else
    c ← current_process s;
    let ticks_to_sleep := (ms +64 9) / 10 in
    let s := on s c (set_wake_tick (pit_get_ticks s +64 ticks_to_sleep)) in
    let s := process_block s in
    Some (0, if bool_decide (current_process s = Some c) then on s c (set_wake_tick 0) else s).

(** ** Interrupts: pit.c and the keyboard *)

Definition set_ticks (fs : ramfs) (t : Z) : ramfs :=
  Ramfs (rd_data fs) (rd_size fs) (rd_block_count fs) (rd_initialized fs) (sb_mounted fs) t.

Definition pit_irq_handler s : kernel :=
  let s := on_world s (λ w, set_vfs w (set_fs (w_vfs w) (set_ticks (v_fs (w_vfs w)) (fs_ticks (v_fs (w_vfs w)) +64 1)))) in
  if scheduler_running s then sched_tick s (pit_get_ticks s) else s.

Definition key_irq s (scancode : Z) : kernel :=
  on_world s (λ w, set_kbd w (keyboard_irq_handler (w_kbd w) scancode)).

(** ** Dispatch: syscall.c *)

Definition syscall_dispatch s (num arg1 arg2 arg3 : Z) : option (Z * kernel) :=
  if SYS_MAX <=? num then
    Some (- ENOSYS, says s [Say (text "syscall: Invalid syscall number %llu" ++ nl) [AWord num]])
  else if num =? SYS_EXIT then sys_exit s (i32 arg1)
  else if num =? SYS_WRITE then sys_write s (i32 arg1) arg2 arg3
  else if num =? SYS_READ then sys_read s (i32 arg1) arg2 arg3
  else if num =? SYS_YIELD then sys_yield s
  else if num =? SYS_GETPID then sys_getpid s
  else if num =? SYS_SLEEP then sys_sleep s arg1
  else if num =? SYS_OPEN then sys_open s arg1 (i32 arg2)
  else if num =? SYS_CLOSE then sys_close s (i32 arg1)
  else if num =? SYS_LSEEK then sys_lseek s (i32 arg1) (i64 arg2) (i32 arg3)
  else if num =? SYS_STAT then sys_stat s arg1 arg2
  else if num =? SYS_FSTAT then sys_fstat s (i32 arg1) arg2
  else if num =? SYS_READDIR then sys_readdir s (i32 arg1) arg2 (i32 arg3)
  else if num =? SYS_GETCWD then sys_getcwd s arg1 arg2
  else sys_chdir s arg1.

(** ** Accessible memory *)

Lemma accessible_spec w a n :
  accessible w a n = true ↔ ∀ x, a <= x < a + n → w_pages w (x / PAGE_SIZE) = true.
Proof.
  unfold accessible. destruct (Z.leb_spec n 0); [split; [intros; lia|done]|].
  rewrite bool_decide_eq_true, find_first_None. unfold PAGE_SIZE. split.
  - intros Hp x Hx. apply negb_false_iff, Hp. pose proof (Z.div_le_mono a x 4096). pose proof (Z.div_le_mono x (a + n - 1) 4096). lia.
  - intros Hx p Hp. apply negb_false_iff. destruct (decide (p = a / 4096)) as [->|Hne]; [apply Hx; lia|].
    rewrite <- (Z.div_mul p 4096) by done. apply Hx.
    pose proof (Z.div_mod a 4096). pose proof (Z.mod_pos_bound a 4096). pose proof (Z.div_mod (a + n - 1) 4096).
    pose proof (Z.mod_pos_bound (a + n - 1) 4096). lia.
Qed.

Lemma accessible_sub w a n a' n' :
  accessible w a n = true → a <= a' → a' + n' <= a + n → accessible w a' n' = true.
Proof. rewrite !accessible_spec. intros Hx H1 H2 x Hr. apply Hx. lia. Qed.

End world.
