(* ===== verification/SyscallSpec.v ===== *)
(** * The kernel behind the system calls

    [kernel_ok] joins the scheduler's invariant with the ownership of open
    files: every descriptor table belongs to one process slot, and the
    references the VFS counts are exactly those in the tables of the processes.
    It is preserved by every system call with any arguments, by process
    creation, by timer ticks and by key presses; and a system call writes user
    memory only. *)

From Stdlib Require Import ZArith Lia.
From stdpp Require Import base numbers list gmap relations.
From S2P Require Import Prelude.
From S2P Require Import Mem.
From S2P Require Import KernelHeap.
From S2P Require Import Path.
From S2P Require Import Keyboard.
From S2P Require Import Vga.
From S2P Require Import Console.
From S2P Require Import Proc.
From S2P Require Import Ramfs.
From S2P Require Import Vnode.
From S2P Require Import File.
From S2P Require Import Vfs.
From S2P Require Import VfsRefs.
From S2P Require Import VfsSpec.
From S2P Require Import FsInit.
From S2P Require Import Syscall.

(** ** What the scheduler leaves alone *)

Section frame.
Context {W : Type} `{ProcEnv W}.
Implicit Types s : sys W.

(** The descriptor table of a slot. *)
Definition fdt s (i : Z) : Z := Proc.fd_table (process_table s i).

Record frame s s' : Prop := Frame {
  fr_world : s_world s' = s_world s;
  fr_fdt : ∀ i, fdt s' i = fdt s i;
  fr_cwd : ∀ i, cwd (process_table s' i) = cwd (process_table s i);
  fr_stack : ∀ i, kernel_stack (process_table s' i) = kernel_stack (process_table s i);
  fr_unused : ∀ i, st s' i = PROCESS_STATE_UNUSED → st s i = PROCESS_STATE_UNUSED
}.

Lemma frame_refl s : frame s s.
Proof. by constructor. Qed.

Lemma frame_trans s1 s2 s3 : frame s1 s2 → frame s2 s3 → frame s1 s3.
Proof.
  intros [A1 A2 A3 A4 A5] [B1 B2 B3 B4 B5]. constructor; intros; rewrite ?B1, ?B2, ?B3, ?B4; auto.
Qed.

(** Assignments to the fields the scheduler owns. *)
Definition sched_field (f : process_t → process_t) : Prop :=
  ∀ p, Proc.fd_table (f p) = Proc.fd_table p ∧ cwd (f p) = cwd p ∧ kernel_stack (f p) = kernel_stack p
    ∧ (p_state (f p) = PROCESS_STATE_UNUSED → p_state p = PROCESS_STATE_UNUSED).

Lemma frame_on s0 s i f : frame s0 s → sched_field f → frame s0 (on s i f).
Proof.
  intros Hfr Hf. eapply frame_trans; [done|]. constructor; [done|..]; intros j; unfold fdt, st; simpl; slots; try done; apply Hf.
Qed.

Lemma frame_queue s0 s hd tl : frame s0 s → frame s0 (set_queue s hd tl).
Proof. intros Hfr. eapply frame_trans; [done|]. by constructor. Qed.
Lemma frame_current s0 s c : frame s0 s → frame s0 (set_current s c).
Proof. intros Hfr. eapply frame_trans; [done|]. by constructor. Qed.
Lemma frame_need s0 s b : frame s0 s → frame s0 (set_need s b).
Proof. intros Hfr. eapply frame_trans; [done|]. by constructor. Qed.
Lemma frame_running s0 s b : frame s0 s → frame s0 (set_running s b).
Proof. intros Hfr. eapply frame_trans; [done|]. by constructor. Qed.
Lemma frame_idle s0 s i : frame s0 s → frame s0 (set_idle s i).
Proof. intros Hfr. eapply frame_trans; [done|]. by constructor. Qed.

End frame.

Create HintDb frame.
#[export] Hint Resolve frame_refl frame_queue frame_current frame_need frame_running frame_idle : frame.
#[export] Hint Extern 2 (frame _ (on _ _ _)) => (apply frame_on; [|intros p; by split_and!]) : frame.

(** Step through conditionals and matches down to framed assignments. *)
Ltac framing :=
  repeat (auto with frame;
    match goal with
    | |- frame _ (if ?b then _ else _) => destruct b
    | |- frame _ (match ?x with Some _ => _ | None => _ end) => destruct x
    | |- frame _ (let _ := _ in _) => cbv zeta
    end); auto with frame.

Section frame_ops.
Context {W : Type} `{ProcEnv W}.
Implicit Types s : sys W.

Lemma sched_add_frame s0 s i : frame s0 s → frame s0 (sched_add s i).
Proof.
  intros Hf. unfold sched_add. destruct i as [i|]; [|done]. cbv zeta. destruct (is_idle _); [done|].
  destruct (_ || _ || _); [done|]. set (s1 := if bool_decide _ then s else _).
  assert (frame s0 s1) by (unfold s1; framing). clearbody s1. framing.
Qed.

Lemma sched_pick_next_frame s0 s : frame s0 s → frame s0 (sched_pick_next s).2.
Proof.
  intros Hf. unfold sched_pick_next. destruct (run_queue_head s) as [i|]; [|done]. cbv zeta. cbn [snd].
  apply frame_on; [apply frame_on|]; [|intros p; by split_and!..].
  destruct (next _) as [j|]; framing.
Qed.

Lemma schedule_frame s0 s : frame s0 s → frame s0 (schedule s).
Proof.
  intros Hf. unfold schedule. destruct (negb _); [done|]. destruct (current_process s) as [c|]; [|done].
  pose proof (sched_pick_next_frame s0 s Hf) as Hp. destruct (sched_pick_next s) as [nx s1]. cbn [snd] in Hp.
  cbv zeta. destruct (match nx with Some n => Some n | None => _ end) as [n|]; [|done].
  destruct (n =? c); [framing|]. apply frame_current. do 2 (apply frame_on; [|intros p; by split_and!]).
  destruct (bool_decide _); [|done]. apply sched_add_frame. framing.
Qed.

Lemma wake_sleeping_frame s0 s t : frame s0 s → frame s0 (process_wake_sleeping s t).
Proof.
  intros Hf. unfold process_wake_sleeping. apply (for_each_inv (λ _, frame s0)); [done|done|].
  intros i s1 _ Hf1. unfold wake_one. cbv zeta. destruct (_ && _ && _); [|done].
  apply sched_add_frame. framing.
Qed.

Lemma sched_tick_frame s t : frame s (sched_tick s t).
Proof.
  unfold sched_tick. destruct (negb _); [framing|]. cbv zeta.
  pose proof (wake_sleeping_frame s s t (frame_refl s)) as Hf. set (s1 := process_wake_sleeping s t) in *. clearbody s1.
  destruct (current_process s1) as [c|]; [|done].
  set (s2 := on s1 c _). assert (Hf2 : frame s s2) by (unfold s2; framing). clearbody s2.
  set (s3 := if 0 <? _ then on s2 c _ else s2). assert (Hf3 : frame s s3) by (unfold s3; framing). clearbody s3.
  set (s4 := if _ =? 0 then _ else s3). assert (Hf4 : frame s s4) by (unfold s4; framing). clearbody s4.
  destruct (need_reschedule s4); [|done]. apply schedule_frame. framing.
Qed.

Lemma process_yield_frame s : frame s (process_yield s).
Proof.
  unfold process_yield. destruct (current_process s); [|framing]. cbv zeta. apply schedule_frame.
  unfold sched_reschedule. framing.
Qed.

Lemma process_block_frame s0 s : frame s0 s → frame s0 (process_block s).
Proof.
  intros Hf. unfold process_block. destruct (current_process s); [|done]. destruct (is_idle _); [done|].
  apply schedule_frame. framing.
Qed.

Lemma process_unblock_frame s id : frame s (process_unblock s id).
Proof.
  unfold process_unblock. destruct (process_get s id); [|framing]. destruct (bool_decide _); [|framing]. cbv zeta.
  apply sched_add_frame. framing.
Qed.

End frame_ops.

(** ** Ownership of descriptor tables *)

Section ownership.
Context {A : Type} `{KernelHeapLaws A}.
Implicit Types (s : sys (world A)) (w : world A).

(** The references of the table at address [a]. *)
Definition table_handles w (a : Z) : list file_ptr :=
  if a =? 0 then [] else match w_tables w !! a with Some t => handles t | None => [] end.

Definition slots_handles w (f : Z → Z) (l : list Z) : list file_ptr := l ≫= λ i, table_handles w (f i).

(** The references held by all processes, and by all but the one in slot [i]. *)
Definition owned s : list file_ptr := slots_handles (s_world s) (fdt s) (seqZ 0 MAX_PROCESSES).
Definition others s (i : Z) : list file_ptr :=
  slots_handles (s_world s) (fdt s) (seqZ 0 i ++ seqZ (i + 1) (MAX_PROCESSES - i - 1)).

Definition byte_list (l : list Z) : Prop := Forall (λ b, 0 <= b < 256) l.

Record own s (k : Z) : Prop := Own {
  own_vfs : vfs_ok (w_vfs (s_world s)) [] (owned s) k;
  own_table : ∀ i, slot_ok i → fdt s i ≠ 0 → is_Some (w_tables (s_world s) !! fdt s i);
  own_inj : ∀ i j, slot_ok i → slot_ok j → fdt s i ≠ 0 → fdt s i = fdt s j → i = j;
  own_live : ∀ a, is_Some (w_tables (s_world s) !! a) → kh_block (w_heap (s_world s)) a sizeof_fd_table;
  own_unused : ∀ i, slot_ok i → st s i = PROCESS_STATE_UNUSED →
    kernel_stack (process_table s i) = 0 ∧ fdt s i = 0;
  own_cwd : ∀ i, slot_ok i → byte_list (cwd (process_table s i));
  own_mem : mem_wf (w_mem (s_world s));
  own_kbd : byte_list (key_buffer (w_kbd (s_world s)));
  own_heap_ok : kh_ok (w_heap (s_world s))
}.

Lemma slots_handles_ext w w' f f' l :
  (∀ i, i ∈ l → table_handles w' (f' i) = table_handles w (f i)) →
  slots_handles w' f' l = slots_handles w f l.
Proof.
  intros E. unfold slots_handles. induction l as [|i l IH]; [done|]. rewrite !bind_cons, E by (by left).
  rewrite IH; [done|]. intros j Hj. apply E. by right.
Qed.

Lemma owned_ext s s' :
  (∀ i, slot_ok i → table_handles (s_world s') (fdt s' i) = table_handles (s_world s) (fdt s i)) →
  owned s' = owned s.
Proof. intros E. apply slots_handles_ext. intros i Hi%elem_of_seqZ. apply E. unfold slot_ok. lia. Qed.

Lemma owned_split s i : slot_ok i → owned s ≡ₚ table_handles (s_world s) (fdt s i) ++ others s i.
Proof.
  intros Hi. unfold owned, others, slots_handles. rewrite (seqZ_split i) by exact Hi.
  rewrite !bind_app, bind_cons. apply Permutation_app_swap_app.
Qed.

Lemma others_ext s s' i :
  (∀ j, slot_ok j → j ≠ i → table_handles (s_world s') (fdt s' j) = table_handles (s_world s) (fdt s j)) →
  slot_ok i → others s' i = others s i.
Proof.
  intros E Hi. unfold slot_ok in Hi. apply slots_handles_ext. intros j Hj.
  rewrite elem_of_app, !elem_of_seqZ in Hj. apply E; [unfold slot_ok; lia|lia].
Qed.

Lemma table_handles_length w a : Z.of_nat (length (table_handles w a)) <= MAX_FD_PER_PROCESS.
Proof.
  unfold table_handles. destruct (a =? 0); [done|]. destruct (_ !! a) as [t|]; [apply handles_length|done].
Qed.

Lemma slots_handles_length w f l : Z.of_nat (length (slots_handles w f l)) <= 16 * Z.of_nat (length l).
Proof.
  unfold slots_handles. induction l as [|i l IH]; [done|]. rewrite bind_cons, length_app.
  pose proof (table_handles_length w (f i)) as Hl. unfold MAX_FD_PER_PROCESS in Hl. cbn [length]. lia.
Qed.

Lemma owned_length s : Z.of_nat (length (owned s)) <= 1024.
Proof.
  pose proof (slots_handles_length (s_world s) (fdt s) (seqZ 0 MAX_PROCESSES)) as Hl.
  rewrite length_seqZ in Hl. unfold owned, MAX_PROCESSES in *. lia.
Qed.

Lemma others_length s i : slot_ok i → Z.of_nat (length (others s i)) <= 1024.
Proof.
  intros Hi. pose proof (owned_length s) as Hl. rewrite (owned_split s i Hi), length_app in Hl. lia.
Qed.

(** The scheduler's assignments do not matter. *)
Lemma own_frame s s' k : frame s s' → own s k → own s' k.
Proof.
  intros [Fw Ff Fc Fs Fu] [O1 O2 O3 O4 O5 O6 O7 O8 O9].
  assert (Eo : owned s' = owned s) by (apply owned_ext; intros i _; by rewrite Fw, Ff).
  constructor; rewrite ?Fw; try done.
  - by rewrite Eo.
  - intros i. rewrite Ff. apply O2.
  - intros i j. rewrite !Ff. apply O3.
  - intros i Hi Hu. rewrite Fs, Ff. apply O5; auto.
  - intros i Hi. rewrite Fc. by apply O6.
Qed.

Lemma own_weaken s k k' : own s k → k <= k' → own s k'.
Proof. intros [O1 O2 O3 O4 O5 O6 O7 O8 O9] Hk. constructor; try done. by eapply vfs_ok_weaken. Qed.

(** Replacing the VFS state and the memory. *)
Lemma own_world s w' k k' :
  own s k → vfs_ok (w_vfs w') [] (owned s) k' → w_tables w' = w_tables (s_world s) →
  w_heap w' = w_heap (s_world s) → mem_wf (w_mem w') → byte_list (key_buffer (w_kbd w')) → own (set_world s w') k'.
Proof.
  intros [O1 O2 O3 O4 O5 O6 O7 O8 O9] Hv Et Eh Hm Hk. constructor; simpl; rewrite ?Et, ?Eh; try done.
  rewrite (owned_ext s); [done|]. intros i _. simpl. unfold table_handles. by rewrite Et.
Qed.

(** Replacing the descriptor table of the process in slot [i]. *)
Lemma own_table_update s i t v k k' :
  own s k → slot_ok i → fdt s i ≠ 0 → vfs_ok v [] (handles t ++ others s i) k' →
  own (on_world s (λ w, set_tables (set_vfs w v) (<[fdt s i := t]> (w_tables w)))) k'.
Proof.
  intros [O1 O2 O3 O4 O5 O6 O7 O8 O9] Hi Ha Hv. set (s' := on_world s _).
  assert (Hoth : others s' i = others s i).
  { apply others_ext; [|done]. intros j Hj Hne. unfold table_handles. simpl. change (fdt s' j) with (fdt s j).
    destruct (Z.eqb_spec (fdt s j) 0); [done|]. rewrite lookup_insert_ne; [done|]. intros E. apply Hne. by apply O3. }
  constructor; try done.
  - eapply vfs_ok_Permutation; [|exact Hv]. rewrite (owned_split s' i Hi), Hoth.
    unfold table_handles. change (fdt s' i) with (fdt s i). rewrite (proj2 (Z.eqb_neq _ _)) by done. simpl.
    by rewrite lookup_insert_eq.
  - intros j Hj Hne. simpl. change (fdt s' j) with (fdt s j). rewrite lookup_insert_is_Some'. auto.
  - intros a. simpl. rewrite lookup_insert_is_Some'. intros [<-|Ha']; apply O4; auto.
Qed.

(** Destroying the table of slot [c]. *)
Lemma own_destroy s c k :
  own s k → slot_ok c → fdt s c ≠ 0 →
  own (on (set_world s (destroy_table (fdt s c) (s_world s))) c (set_fd_table 0)) k.
Proof.
  intros [O1 O2 O3 O4 O5 O6 O7 O8 O9] Hc Ha. set (a := fdt s c) in *. set (s' := on _ c _).
  destruct (O2 c Hc Ha) as [t Et]. fold a in Et.
  assert (Hfc : fdt s' c = 0) by (unfold fdt; simpl; by rewrite update_eq).
  assert (Hfj : ∀ j, j ≠ c → fdt s' j = fdt s j) by (intros j Hj; unfold fdt; simpl; by rewrite update_ne).
  assert (Hoth : others s' c = others s c).
  { apply others_ext; [|done]. intros j Hj Hne. rewrite (Hfj j Hne). unfold table_handles. simpl.
    destruct (Z.eqb_spec (fdt s j) 0); [done|]. rewrite lookup_delete_ne; [done|].
    intros E. apply Hne. symmetry. apply O3; done. }
  constructor.
  - eapply vfs_ok_Permutation; [rewrite (owned_split s' c Hc), Hoth; unfold table_handles; by rewrite Hfc|].
    simpl. rewrite Et. apply fd_table_destroy_ok. eapply vfs_ok_Permutation; [|exact O1].
    rewrite (owned_split s c Hc). unfold table_handles. fold a. by rewrite (proj2 (Z.eqb_neq _ _)), Et by done.
  - intros j Hj Hne. assert (j ≠ c) as Hjc by (intros ->; done). rewrite (Hfj j Hjc) in *. simpl.
    rewrite lookup_delete_ne; [by apply O2|]. intros E. apply Hjc. symmetry. by apply O3.
  - intros i j Hi Hj Hne E. assert (i ≠ c) as Hic by (intros ->; done).
    assert (j ≠ c) as Hjc by (intros ->; congruence). rewrite (Hfj i Hic), ?(Hfj j Hjc) in *. by apply O3.
  - intros b. simpl. rewrite lookup_delete_is_Some. intros [Hne Hb].
    apply (proj2 (kh_kfree_ok a _ _ O9 (O4 a (mk_is_Some _ _ Et)))); [done|by apply O4].
  - intros i Hi Hu. destruct (decide (i = c)) as [->|Hic].
    + split; [|done]. simpl. rewrite update_eq. simpl. apply O5; [done|]. revert Hu. unfold st. simpl. by rewrite update_eq.
    + rewrite (Hfj i Hic). simpl. rewrite update_ne by done. apply O5; [done|].
      revert Hu. unfold st. simpl. by rewrite update_ne.
  - intros i Hi. simpl. destruct (decide (i = c)) as [->|Hic]; [rewrite update_eq|rewrite update_ne by done]; by apply O6.
  - exact O7.
  - exact O8.
  - exact (proj1 (kh_kfree_ok a _ _ O9 (O4 a (mk_is_Some _ _ Et)))).
Qed.

(** Messages do not matter either. *)
Lemma own_says s l k : own s k → own (says s l) k.
Proof.
  intros Ho. apply (own_world s _ k); try done; [exact (own_vfs _ _ Ho)|exact (own_mem _ _ Ho)|exact (own_kbd _ _ Ho)].
Qed.

Lemma process_exit_own s c code s' k :
  own s k → current_process s = Some c → slot_ok c → process_exit s code = Some s' → own s' k.
Proof.
  intros Ho Hc Hs. unfold process_exit. rewrite Hc. destruct (is_idle _); [done|]. cbv zeta.
  set (s0 := says s _). assert (Ho0 : own s0 k) by (by apply own_says). change (process_table s) with (process_table s0).
  clearbody s0. clear Ho Hc s. rename s0 into s.
  set (s1 := if negb (Proc.fd_table (process_table s c) =? 0) then _ else s).
  assert (Ho1 : own s1 k).
  { unfold s1. destruct (Z.eqb_spec (Proc.fd_table (process_table s c)) 0) as [|Hne]; [done|].
    by apply (own_destroy s c k). }
  clearbody s1. destruct (bool_decide _); [done|]. intros [= <-]. eapply own_frame; [|exact Ho1].
  apply schedule_frame. framing.
Qed.

(** ** New processes *)

(** A world that differs in the heap only, where nothing has been freed. *)
Record heap_ext w w' : Prop := HeapExt {
  he_vfs : w_vfs w' = w_vfs w;
  he_tables : w_tables w' = w_tables w;
  he_mem : w_mem w' = w_mem w;
  he_kbd : w_kbd w' = w_kbd w;
  he_ok : kh_ok (w_heap w) → kh_ok (w_heap w');
  he_live : kh_ok (w_heap w) → ∀ b n, kh_block (w_heap w) b n → kh_block (w_heap w') b n
}.

Lemma heap_ext_trans w1 w2 w3 : heap_ext w1 w2 → heap_ext w2 w3 → heap_ext w1 w3.
Proof. intros [A1 A2 A3 A4 A5 A6] [B1 B2 B3 B4 B5 B6]. constructor; [congruence..|auto|auto]. Qed.

(** No free block fits the two requests of a new process tightly: its stack,
    and its descriptor table after that. *)
Definition create_roomy w : Prop :=
  kh_roomy (w_heap w) KERNEL_STACK_SIZE
  ∧ ∀ stack w1, env_kmalloc KERNEL_STACK_SIZE w = (stack, w1) → stack ≠ 0 →
      kh_roomy (w_heap (setup_initial_stack (stack_top stack) w1).2) sizeof_fd_table.

Lemma kmalloc_ext n w a w' :
  0 < n <= KH_MAX → kh_ok (w_heap w) → kh_roomy (w_heap w) n → env_kmalloc n w = (a, w') →
  heap_ext w w' ∧ (a ≠ 0 → kh_block (w_heap w') a n ∧ a mod 16 = 0 ∧ ∀ k, ¬ kh_block (w_heap w) a k).
Proof.
  intros Hn Hok Hr. simpl. destruct (kh_kmalloc n (w_heap w)) as [b h] eqn:E. intros [= <- <-].
  destruct (kh_kmalloc_ok n _ _ _ Hn Hok Hr E) as (H1 & H2 & H3). split; [by constructor|done].
Qed.

Lemma store64_ext w a n x v :
  kh_ok (w_heap w) → kh_block (w_heap w) a n → a <= x → x + 8 <= a + n → heap_ext w (env_store64 x v w).
Proof. intros Hok Hb H1 H2. destruct (kh_store_ok a n x v _ Hok Hb H1 H2) as [H3 H4]. by constructor. Qed.

Lemma stack_top_eq stack : 0 < stack → stack + KERNEL_STACK_SIZE < 2 ^ 64 → stack mod 16 = 0 →
  stack_top stack = stack + KERNEL_STACK_SIZE.
Proof.
  unfold stack_top, KERNEL_STACK_SIZE. intros Hs0 Hs1 Hs2. rewrite u64_id by lia. change 15 with (2 ^ 4 - 1).
  rewrite land_lnot_low by done. change (2 ^ 4) with 16. rewrite (Zplus_mod stack 8192 16), Hs2.
  change ((0 + 8192 mod 16) mod 16) with 0. lia.
Qed.

(** The seven words of the initial stack lie in the stack's block. *)
Lemma initial_stack_ext stack w sp w' :
  kh_ok (w_heap w) → kh_block (w_heap w) stack KERNEL_STACK_SIZE → stack mod 16 = 0 →
  setup_initial_stack (stack_top stack) w = (sp, w') → heap_ext w w'.
Proof.
  intros Hok Hb Hal. destruct (kh_block_range _ _ _ Hb) as [Hr1 Hr2]. rewrite stack_top_eq by done.
  unfold KERNEL_STACK_SIZE in *. unfold setup_initial_stack. intros [= <- <-].
  apply (for_each_inv (λ _ w', heap_ext w w')); [done| |].
  - apply (store64_ext w stack 8192); rewrite ?u64_id by lia; done || lia.
  - intros i w1 Hi H1. eapply heap_ext_trans; [exact H1|]. destruct H1 as [_ _ _ _ H1 H2].
    apply (store64_ext w1 stack 8192); rewrite ?u64_id by lia; auto; lia.
Qed.

Lemma new_fd_table_spec w a w' R k :
  kh_ok (w_heap w) → kh_roomy (w_heap w) sizeof_fd_table →
  (∀ b, is_Some (w_tables w !! b) → kh_block (w_heap w) b sizeof_fd_table) →
  vfs_ok (w_vfs w) [] R k → Z.of_nat (length R) + 3 < 2 ^ 31 → new_fd_table w = (a, w') →
  (w_mem w' = w_mem w ∧ w_kbd w' = w_kbd w) ∧ kh_ok (w_heap w')
  ∧ (∀ b, is_Some (w_tables w' !! b) → kh_block (w_heap w') b sizeof_fd_table)
  ∧ (∀ b, is_Some (w_tables w !! b) → (a ≠ 0 → b ≠ a) ∧ w_tables w' !! b = w_tables w !! b)
  ∧ (a ≠ 0 → is_Some (w_tables w' !! a)) ∧ vfs_ok (w_vfs w') [] (table_handles w' a ++ R) k.
Proof.
  intros Hok Hroom Hl Hv HR. unfold new_fd_table. simpl. unfold create_table.
  destruct (kh_kmalloc sizeof_fd_table (w_heap w)) as [b h] eqn:E. simpl.
  destruct (kh_kmalloc_ok sizeof_fd_table _ _ _ ltac:(done) Hok Hroom E) as (Hok' & Hkeep & Hnew).
  pose proof (init_file_table_vfs_ok _ _ _ Hv) as Hv1. destruct (Z.eqb_spec b 0) as [->|Hb]; simpl.
  - intros [= <- <-]. simpl. split_and!; try done.
    + intros c Hc. by apply Hkeep, Hl.
  - rewrite (proj2 (Z.eqb_neq b 0)) by done. simpl. unfold init_stdio. simpl. rewrite lookup_insert_eq.
    set (t0 := FdTable (λ _, None) 0). set (v1 := init_file_table (w_vfs w)) in *.
    pose proof (stdio_handles v1 t0 eq_refl) as Hh. pose proof (stdio_ok v1 t0 R k Hv1 HR) as Hv2.
    cbn [fd_init_stdio fst snd] in Hh, Hv2. intros [= <- <-]. simpl.
    destruct (Hnew Hb) as (Hlive & _ & Hfresh). split_and!; try done.
    + intros c. rewrite !lookup_insert_is_Some'. intros [<-|[<-|Hc]]; [done..|]. by apply Hkeep, Hl.
    + intros c Hc. assert (c ≠ b) as Hcb by (intros ->; by apply (Hfresh sizeof_fd_table), Hl). split; [done|].
      by rewrite !lookup_insert_ne by done.
    + intros _. rewrite lookup_insert_eq. eauto.
    + unfold table_handles. rewrite (proj2 (Z.eqb_neq b 0)) by done. simpl. rewrite lookup_insert_eq.
      rewrite Hh. exact Hv2.
Qed.

Lemma new_fd_table_heap w : w_heap (new_fd_table w).2 = (kh_kmalloc sizeof_fd_table (w_heap w)).2.
Proof.
  unfold new_fd_table. simpl. unfold create_table. destruct (kh_kmalloc _ _) as [a h]. simpl.
  destruct (a =? 0) eqn:Ea; simpl; [done|]. rewrite Ea. simpl. unfold init_stdio. simpl. by rewrite lookup_insert_eq.
Qed.

Lemma own_heap s w k : own s k → heap_ext (s_world s) w → own (set_world s w) k.
Proof.
  intros [O1 O2 O3 O4 O5 O6 O7 O8 O9] [Hv Ht Hm Hk Hok Hl].
  assert (Eo : owned (set_world s w) = owned s).
  { apply owned_ext. intros i _. simpl. unfold table_handles. by rewrite Ht. }
  constructor; simpl; rewrite ?Hv, ?Ht, ?Hm, ?Hk, ?Eo; try done; auto.
Qed.

(** Writing a new control block with a new table. *)
Lemma own_new s i w fds n f k :
  own s k → slot_ok i → fdt s i = 0 → w_mem w = w_mem (s_world s) ∧ w_kbd w = w_kbd (s_world s) →
  kh_ok (w_heap w) → (∀ b, is_Some (w_tables w !! b) → kh_block (w_heap w) b sizeof_fd_table) →
  (∀ b, is_Some (w_tables (s_world s) !! b) → (fds ≠ 0 → b ≠ fds) ∧ w_tables w !! b = w_tables (s_world s) !! b) →
  (fds ≠ 0 → is_Some (w_tables w !! fds)) → vfs_ok (w_vfs w) [] (table_handles w fds ++ owned s) k →
  (∀ p, Proc.fd_table (f p) = fds ∧ p_state (f p) ≠ PROCESS_STATE_UNUSED ∧ byte_list (cwd (f p))) →
  own (on (set_next_pid (set_world s w) n) i f) k.
Proof.
  intros [O1 O2 O3 O4 O5 O6 O7 O8 O9] Hi Hz0 [Em Ek] Hok Hl Hkeep Hnew Hv Hf. set (s' := on _ i f).
  assert (Hfi : fdt s' i = fds) by (unfold fdt; simpl; rewrite update_eq; apply Hf).
  assert (Hfj : ∀ j, j ≠ i → fdt s' j = fdt s j) by (intros j Hj; unfold fdt; simpl; by rewrite update_ne).
  assert (Hsame : ∀ j, slot_ok j → fdt s j ≠ 0 → (fds ≠ 0 → fdt s j ≠ fds)
    ∧ w_tables w !! fdt s j = w_tables (s_world s) !! fdt s j) by (intros j Hj Hne; by apply Hkeep, O2).
  assert (Hoth : others s' i = others s i).
  { apply others_ext; [|done]. intros j Hj Hne. rewrite (Hfj j Hne). unfold table_handles. simpl.
    destruct (Z.eqb_spec (fdt s j) 0); [done|]. by rewrite (proj2 (Hsame j Hj ltac:(done))). }
  constructor; try done.
  - eapply vfs_ok_Permutation; [|exact Hv]. rewrite (owned_split s' i Hi), Hoth, Hfi.
    apply Permutation_app_head. rewrite (owned_split s i Hi), Hz0. done.
  - intros j Hj Hne. destruct (decide (j = i)) as [->|Hji]; [rewrite Hfi in *; by apply Hnew|].
    rewrite (Hfj j Hji) in *. simpl. rewrite (proj2 (Hsame j Hj Hne)). by apply O2.
  - intros j1 j2 Hj1 Hj2 Hne E.
    destruct (decide (j1 = i)) as [->|H1], (decide (j2 = i)) as [->|H2]; [done|..];
      rewrite ?Hfi, ?(Hfj j1 H1), ?(Hfj j2 H2) in *.
    + destruct (Hsame j2 Hj2 ltac:(congruence)) as [Hd _]. by destruct (Hd Hne).
    + destruct (Hsame j1 Hj1 Hne) as [Hd _]. destruct Hd; congruence.
    + by apply O3.
  - intros j Hj. unfold st. simpl. destruct (decide (j = i)) as [->|Hji].
    + rewrite update_eq. intros Hu. by destruct (Hf (process_table s i)) as (_ & ? & _).
    + rewrite update_ne by done. rewrite (Hfj j Hji). by apply O5.
  - intros j Hj. simpl. destruct (decide (j = i)) as [->|Hji]; [rewrite update_eq; apply Hf|].
    rewrite update_ne by done. by apply O6.
  - simpl. by rewrite Em.
  - simpl. by rewrite Ek.
Qed.

(** The stack and the descriptor table of a new process. *)
Lemma new_process_heap s stack w1 sp w2 fds w3 k :
  own s k → create_roomy (s_world s) → env_kmalloc KERNEL_STACK_SIZE (s_world s) = (stack, w1) → stack ≠ 0 →
  setup_initial_stack (stack_top stack) w1 = (sp, w2) → new_fd_table w2 = (fds, w3) →
  (w_mem w3 = w_mem (s_world s) ∧ w_kbd w3 = w_kbd (s_world s)) ∧ kh_ok (w_heap w3)
  ∧ (∀ b, is_Some (w_tables w3 !! b) → kh_block (w_heap w3) b sizeof_fd_table)
  ∧ (∀ b, is_Some (w_tables (s_world s) !! b) → (fds ≠ 0 → b ≠ fds) ∧ w_tables w3 !! b = w_tables (s_world s) !! b)
  ∧ (fds ≠ 0 → is_Some (w_tables w3 !! fds)) ∧ vfs_ok (w_vfs w3) [] (table_handles w3 fds ++ owned s) k.
Proof.
  intros Ho [Hr1 Hr2] E1 Hne E2 E3. pose proof (own_heap_ok _ _ Ho) as Hok. specialize (Hr2 stack w1 E1 Hne). rewrite E2 in Hr2.
  destruct (kmalloc_ext KERNEL_STACK_SIZE _ _ _ ltac:(done) Hok Hr1 E1) as [H1 Hnew]. destruct (Hnew Hne) as (Hb & Hal & _).
  pose proof (initial_stack_ext _ _ _ _ (he_ok _ _ H1 Hok) Hb Hal E2) as H12.
  pose proof (heap_ext_trans _ _ _ H1 H12) as [Hv Ht Hm Hkb Hko Hl]. pose proof (owned_length s) as Hlen.
  rewrite <- Hm, <- Hkb, <- Ht. apply new_fd_table_spec; auto.
  - intros b Hbt. rewrite Ht in Hbt. apply Hl; [done|]. exact (own_live _ _ Ho b Hbt).
  - rewrite Hv. exact (own_vfs _ _ Ho).
  - lia.
Qed.

Lemma process_create_own s name ent arg k :
  own s k → create_roomy (s_world s) → (∀ c, current_process s = Some c → slot_ok c) →
  own (process_create s name ent arg).2 k.
Proof.
  intros Ho Hroom Hcur. unfold process_create. destruct (find_free_slot s) as [i|] eqn:Ef; [|by apply own_says].
  apply find_first_Some in Ef as (Hi & Hu%bool_decide_eq_true & _).
  destruct (own_unused _ _ Ho i Hi Hu) as [Hks Hfd]. rewrite Hks. unfold fdt in Hfd.
  rewrite (proj2 (Z.eqb_eq 0 0)) by done. cbn [negb]. rewrite Hfd, (proj2 (Z.eqb_eq 0 0)) by done. cbn [negb].
  destruct (env_kmalloc KERNEL_STACK_SIZE (s_world s)) as [stack w1] eqn:E1. destruct (Z.eqb_spec stack 0) as [->|Hne].
  { apply own_says, own_heap; [done|]. by destruct (kmalloc_ext KERNEL_STACK_SIZE _ _ _ ltac:(done) (own_heap_ok _ _ Ho) (proj1 Hroom) E1). }
  cbv zeta. destruct (setup_initial_stack (stack_top stack) w1) as [sp w2] eqn:E2.
  destruct (new_fd_table w2) as [fds w3] eqn:E3.
  destruct (new_process_heap s stack w1 sp w2 fds w3 k) as (Hm3 & Hok3 & Hl3 & Hk3 & Hn3 & Hv3); try done.
  cbn [snd]. apply own_says. eapply own_frame; [apply sched_add_frame, frame_refl|].
  apply (own_new s i w3 fds); try done.
  intros p. simpl. split_and!; [done|done|]. destruct (current_process s) as [c|]; [|by repeat constructor].
  pose proof (own_cwd _ _ Ho c (Hcur c eq_refl)) as Hd. destruct (cwd (process_table s c)); [by repeat constructor|].
  by apply Forall_take.
Qed.

(** ** System calls *)

Definition kernel_ok s (k : Z) : Prop := own s k ∧ ∃ q c, run_wf s q c.

(** A call that writes user memory only inside [buf, buf + len). *)
Definition writes_within (m m' : mem) (buf len : Z) : Prop := ∀ a, a < buf ∨ buf + len <= a → m' a = m a.

(** Memory outside the user half of the address space is unchanged. *)
Definition user_only (m m' : mem) : Prop := ∀ a, a <= 0 ∨ USER_SPACE_END <= a → m' a = m a.

(** The outcome of a system call whose arguments name memory of the program
    when [P]: if it returns, it does so within the invariant, having written
    user memory only, inside the buffer [buf, buf + len); and it returns if
    [P]. *)
Definition call_ok s (k buf len : Z) (P : Prop) (r : option (Z * sys (world A))) : Prop :=
  match r with
  | Some (_, s') => kernel_ok s' k ∧ user_only (w_mem (s_world s)) (w_mem (s_world s'))
      ∧ writes_within (w_mem (s_world s)) (w_mem (s_world s')) buf len
  | None => ¬ P
  end.

(** ** Memory the program owns *)

(** A buffer the program may pass: one that is refused, or that lies in its
    pages. *)
Definition program_buffer w (buf len : Z) : Prop :=
  0 < buf → buf + len <= USER_SPACE_END → accessible w buf len = true.

(** A string the program may pass: its characters up to and including the
    terminator, but at most 256, lie in its pages. *)
Definition program_string w (str : Z) : Prop :=
  ∀ i, 0 < str → 0 <= i < VFS_MAX_PATH → str + i < USER_SPACE_END →
    (∀ j, 0 <= j < i → w_mem w (str + j) ≠ 0) → accessible w (str + i) 1 = true.

(** What a call may read or write through its arguments. *)
Definition program_arguments w (num arg1 arg2 arg3 : Z) : Prop :=
  if (num =? SYS_WRITE) || (num =? SYS_READ) then program_buffer w arg2 arg3
  else if (num =? SYS_OPEN) || (num =? SYS_CHDIR) then program_string w arg1
  else if num =? SYS_STAT then program_string w arg1 ∧ program_buffer w arg2 sizeof_stat
  else if num =? SYS_FSTAT then program_buffer w arg2 sizeof_stat
  else if num =? SYS_READDIR then program_buffer w arg2 sizeof_dirent
  else if num =? SYS_GETCWD then program_buffer w arg1 arg2
  else True.

(** The buffer a call fills in. *)
Definition result_buffer (num arg1 arg2 arg3 : Z) : Z * Z :=
  if num =? SYS_READ then (arg2, arg3)
  else if (num =? SYS_STAT) || (num =? SYS_FSTAT) then (arg2, sizeof_stat)
  else if num =? SYS_READDIR then (arg2, sizeof_dirent)
  else if num =? SYS_GETCWD then (arg1, arg2)
  else (0, 0).

Lemma validate_user_string_returns w str :
  is_u64 str → program_string w str → ∃ ok, validate_user_string w str VFS_MAX_PATH = Some ok.
Proof.
  intros Hs Hp. unfold validate_user_string, is_u64, VFS_MAX_PATH, USER_SPACE_END in *. destruct (Z.eqb_spec str 0); [by eexists|].
  destruct (Z.leb_spec 0x800000000000 str); [by eexists|].
  pose (I := λ (i : Z) (_ : unit), ∀ j, 0 <= j < i → w_mem w (str + j) ≠ 0).
  match goal with |- context [for_ 0 256 ?f tt] =>
    enough (Hf : match for_ 0 256 f tt with Next u => I 256 u | Stop r => is_Some r end) end.
  { destruct (for_ _ _ _ _) as [[]|r]; [by eexists|]. destruct Hf as [ok ->]. by eexists. }
  apply (for_inv_out I is_Some); [done|intros j ?; lia|].
  intros i [] Hi Hj. rewrite u64_id by lia. destruct (Z.leb_spec 0x800000000000 (str + i)); [by eexists|].
  rewrite (Hp i) by (done || lia). cbn [negb]. destruct (Z.eqb_spec (w_mem w (str + i)) 0); [by eexists|].
  intros j Hj'. destruct (decide (j = i)) as [->|]; [done|]. apply Hj. lia.
Qed.

Lemma string_outside w str : is_u64 str → validate_user_string w str VFS_MAX_PATH = None → ¬ program_string w str.
Proof. intros Hs E Hp. destruct (validate_user_string_returns w str Hs Hp). congruence. Qed.

Lemma kernel_current s k : kernel_ok s k → ∃ c, current_process s = Some c ∧ slot_ok c.
Proof. intros [_ (q & c & [[_ _ Hc Hs _ _ _ _] _ _])]. eauto. Qed.

Lemma call_ok_same s k v k' b n P : kernel_ok s k → k <= k' → call_ok s k' b n P (Some (v, s)).
Proof.
  intros [Ho Hr] Hk. split_and!; [|by intros a..].
  split; [by eapply own_weaken|done].
Qed.

Lemma run_world s w : (∃ q c, run_wf s q c) → ∃ q c, run_wf (set_world s w) q c.
Proof. intros (q & c & Hw). exists q, c. by apply (run_wf_ext s). Qed.

(** Calls that change the VFS, the keyboard or the console. *)
Lemma kernel_ok_world s k k' w' :
  kernel_ok s k → vfs_ok (w_vfs w') [] (owned s) k' → w_tables w' = w_tables (s_world s) →
  w_heap w' = w_heap (s_world s) → mem_wf (w_mem w') → byte_list (key_buffer (w_kbd w')) → kernel_ok (set_world s w') k'.
Proof. intros [Ho Hr] Hv Ht Hh Hm Hk. split; [by apply (own_world s w' k)|by apply run_world]. Qed.

Lemma call_ok_world s k k' v w' b n P :
  kernel_ok s k → vfs_ok (w_vfs w') [] (owned s) k' → w_tables w' = w_tables (s_world s) →
  w_heap w' = w_heap (s_world s) → w_mem w' = w_mem (s_world s) → byte_list (key_buffer (w_kbd w')) →
  call_ok s k' b n P (Some (v, set_world s w')).
Proof.
  intros Hok Hv Ht Hh Hm Hk. simpl. rewrite Hm. split_and!; [|by intros a..].
  apply (kernel_ok_world s k); try done. rewrite Hm. apply Hok.
Qed.

Lemma writes_within_user m m' buf len :
  writes_within m m' buf len → 0 < buf → buf + len <= USER_SPACE_END → user_only m m'.
Proof. intros Hw Hb Hl a Ha. apply Hw. lia. Qed.

Lemma validate_user_ptr_range buf len :
  is_u64 buf → is_u64 len → validate_user_ptr buf len = true → 0 < buf ∧ 0 <= len ∧ buf + len <= USER_SPACE_END.
Proof.
  unfold validate_user_ptr, is_u64, USER_SPACE_END. intros Hb Hl. destruct (Z.eqb_spec buf 0); [done|].
  destruct (Z.leb_spec 0x800000000000 buf); [done|]. destruct (Z.ltb_spec (buf +64 len) buf) as [|Hge]; [done|].
  destruct (Z.ltb_spec 0x800000000000 (buf +64 len)); [done|]. intros _.
  destruct (decide (buf + len < 2 ^ 64)); [rewrite u64_id in * by lia; lia|]. exfalso.
  unfold u64 in Hge. replace (buf + len) with (buf + len - 2 ^ 64 + 1 * 2 ^ 64) in Hge by lia.
  rewrite Z_mod_plus_full, Z.mod_small in Hge by lia. lia.
Qed.

Lemma validate_user_ptr_write_range buf len :
  is_u64 buf → is_u64 len → validate_user_ptr_write buf len = true →
  0 < buf ∧ 0 < len ∧ buf + len <= USER_SPACE_END.
Proof.
  unfold validate_user_ptr_write, validate_user_ptr_read. intros Hb Hl Hv.
  destruct (validate_user_ptr_range buf len Hb Hl) as (H1 & H2 & H3).
  { unfold validate_user_ptr. revert Hv. destruct (buf =? 0); [done|]. destruct (len =? 0); done. }
  split_and!; try done. revert Hv. destruct (Z.eqb_spec len 0); [by rewrite orb_true_r|lia].
Qed.

(** The table of the current process is there. *)
Lemma current_table_cases s k c :
  own s k → current_process s = Some c → slot_ok c →
  current_table s = None
  ∨ ∃ t, current_table s = Some (fdt s c, Some t) ∧ fdt s c ≠ 0 ∧ w_tables (s_world s) !! fdt s c = Some t.
Proof.
  intros Ho Hc Hs. unfold current_table. rewrite Hc, bind_Some_eq. cbv zeta. fold (fdt s c).
  destruct (Z.eqb_spec (fdt s c) 0) as [|Hne]; [by left|right].
  destruct (own_table _ _ Ho c Hs Hne) as [t Et]. exists t. by rewrite Et.
Qed.

Lemma owned_current s c t :
  slot_ok c → fdt s c ≠ 0 → w_tables (s_world s) !! fdt s c = Some t → owned s ≡ₚ handles t ++ others s c.
Proof.
  intros Hs Hne Et. rewrite (owned_split s c Hs). unfold table_handles.
  by rewrite (proj2 (Z.eqb_neq _ _)), Et by done.
Qed.

Lemma fd_file_cases s k c fd :
  own s k → current_process s = Some c → slot_ok c →
  (∃ e, fd_file s fd = inl e)
  ∨ ∃ t f, fd_file s fd = inr (Some (fdt s c, t, f)) ∧ fdt s c ≠ 0 ∧ w_tables (s_world s) !! fdt s c = Some t
      ∧ 0 <= fd < MAX_FD_PER_PROCESS ∧ entries t fd = Some f ∧ f ∈ owned s.
Proof.
  intros Ho Hc Hs. unfold fd_file.
  destruct (current_table_cases s k c Ho Hc Hs) as [->|(t & -> & Hne & Et)]; [by eauto|].
  destruct (bad_fd fd) eqn:Eb; [by eauto|]. destruct (entries t fd) as [f|] eqn:Ee; [|by eauto].
  right. exists t, f. apply orb_false_iff in Eb as [E1%Z.ltb_ge E2%Z.leb_gt]. split_and!; try done.
  rewrite (owned_current s c t Hs Hne Et). apply elem_of_app. left. by apply (entry_held t fd).
Qed.

(** A resolved user path is a byte string. *)
Lemma user_path_bytes s k c path p :
  own s k → current_process s = Some c → slot_ok c → user_path s path = Some p → byte_list p.
Proof.
  intros Ho Hc Hs. unfold user_path. rewrite Hc, bind_Some_eq.
  apply path_normalize_Forall; [done| |by apply (own_cwd _ _ Ho)].
  apply Forall_fmap, Forall_true. intros i. apply (own_mem _ _ Ho).
Qed.

(** Calls that replace the current descriptor table. *)
Lemma call_ok_table s k k' r c t v P :
  kernel_ok s k → slot_ok c → fdt s c ≠ 0 → vfs_ok v [] (handles t ++ others s c) k' →
  call_ok s k' 0 0 P (Some (r, on_world s (λ w, set_tables (set_vfs w v) (<[fdt s c := t]> (w_tables w))))).
Proof.
  intros [Ho Hr] Hs Hne Hv. split_and!; [|by intros a..].
  split; [by apply (own_table_update s c t v k)|by apply run_world].
Qed.

Lemma sys_open_ok s k path flags :
  kernel_ok s k → k + 3 < 2 ^ 32 → is_u64 path →
  call_ok s (k + 3) 0 0 (program_string (s_world s) path) (sys_open s path flags).
Proof.
  intros Hok Hk Hu. pose proof Hok as [Ho _]. destruct (kernel_current s k Hok) as (c & Hc & Hs).
  unfold sys_open. destruct (validate_user_string _ _ _) as [ok|] eqn:Eok; [|by eapply string_outside].
  rewrite bind_Some_eq. destruct (negb _); [apply (call_ok_same s k); [done|lia]|].
  destruct (current_table_cases s k c Ho Hc Hs) as [->|(t & -> & Hne & Et)]; [apply (call_ok_same s k); [done|lia]|].
  destruct (user_path s path) as [p|] eqn:Ep; [|apply (call_ok_same s k); [done|lia]].
  pose proof (user_path_bytes s k c path p Ho Hc Hs Ep) as Hp.
  unfold fd_alloc. destruct (find_first _ _ _) as [fd|] eqn:Ef; [|apply (call_ok_same s k); [done|lia]].
  apply find_first_Some in Ef as (Hfd & Hnone%bool_decide_eq_true & _).
  pose proof (vfs_open_ok (w_vfs (s_world s)) (owned s) k (Some p) (u32 flags) (own_vfs _ _ Ho)) as Hop.
  assert (Hbp : bytes_path (Some p)) by (by intros p' [= <-]).
  pose proof (owned_length s) as Hlen. specialize (Hop Hbp ltac:(lia) Hk).
  pose proof (owned_current s c t Hs Hne Et) as Hperm.
  destruct (vfs_open _ _ _) as [[[f|] v]|]; [| |done]; rewrite bind_Some_eq.
  - apply (call_ok_table s k); try done. destruct Hop as [Hop _].
    eapply vfs_ok_Permutation; [|exact Hop]. by rewrite (handles_install t fd f Hfd Hnone), Hperm.
  - unfold fd_free. replace (bad_fd fd) with false.
    2:{ symmetry. apply orb_false_iff. rewrite Z.ltb_ge, Z.leb_gt. lia. }
    rewrite Hnone. apply (call_ok_table s k); try done. by eapply vfs_ok_Permutation; [|exact Hop].
Qed.

Lemma sys_close_ok s k fd : kernel_ok s k → call_ok s k 0 0 True (sys_close s fd).
Proof.
  intros Hok. pose proof Hok as [Ho _]. destruct (kernel_current s k Hok) as (c & Hc & Hs).
  unfold sys_close. destruct (fd_file_cases s k c fd Ho Hc Hs) as [[e ->]|(t & f & -> & Hne & Et & Hfd & He & _)].
  { by apply (call_ok_same s k). }
  destruct (fd <? 3); [by apply (call_ok_same s k)|].
  pose proof (vfs_close_ok (w_vfs (s_world s)) (handles (set_entry t fd None) ++ others s c) k f) as Hcl.
  destruct (vfs_close (w_vfs (s_world s)) (Some f)) as [ok v]. apply (call_ok_table s k); try done. apply Hcl.
  eapply vfs_ok_Permutation; [|exact (own_vfs _ _ Ho)].
  by rewrite (owned_current s c t Hs Hne Et), (handles_entry t fd f Hfd He).
Qed.

Lemma sys_lseek_ok s k fd offset whence : kernel_ok s k → call_ok s k 0 0 True (sys_lseek s fd offset whence).
Proof.
  intros Hok. pose proof Hok as [Ho _]. destruct (kernel_current s k Hok) as (c & Hc & Hs).
  unfold sys_lseek. destruct (fd_file_cases s k c fd Ho Hc Hs) as [[e ->]|(t & f & -> & _)].
  { by apply (call_ok_same s k). }
  pose proof (vfs_lseek_ok (w_vfs (s_world s)) (owned s) k f offset whence (own_vfs _ _ Ho)) as Hl.
  destruct (vfs_lseek _ _ _ _) as [r v]. apply (call_ok_world s k); try done. apply (own_kbd _ _ Ho).
Qed.

Lemma store_within m m' buf len k off v :
  writes_within m m' buf len → 0 <= off → off + k <= len → writes_within m (store k m' (buf + off) v) buf len.
Proof. intros Hw H1 H2 a Ha. rewrite store_ne by lia. by apply Hw. Qed.

Lemma store_stat_within m buf st :
  writes_within m (store_stat buf st m) buf sizeof_stat ∧ (mem_wf m → mem_wf (store_stat buf st m)).
Proof.
  unfold store_stat, sizeof_stat. set (m0 := fill m buf 0 72).
  assert (Hw : writes_within m m0 buf 72).
  { intros a Ha. unfold m0, fill. by rewrite (proj2 (in_range_false _ _ _)) by lia. }
  assert (Hm0 : mem_wf m → mem_wf m0) by (intros Hm; by apply mem_wf_fill). clearbody m0. split.
  - rewrite <- (Z.add_0_r buf) at 1. by repeat (apply store_within; [|lia..]).
  - intros Hm. repeat apply mem_wf_store. auto.
Qed.

Lemma store_fstat_within m buf mode size ino :
  writes_within m (store_fstat buf mode size ino m) buf sizeof_stat
  ∧ (mem_wf m → mem_wf (store_fstat buf mode size ino m)).
Proof.
  unfold store_fstat, sizeof_stat. replace (store32 _ buf ino) with (store32 (store64 (store32 m (buf + 4) mode) (buf + 24) size) (buf + 0) ino)
    by (by replace (buf + 0) with buf by lia).
  split.
  - repeat (apply store_within; [|lia..]). by intros a.
  - intros Hm. by repeat apply mem_wf_store.
Qed.

Lemma write_bytes_within m buf bs len : Z.of_nat (length bs) <= len → writes_within m (write_bytes m buf bs) buf len.
Proof. intros Hl a Ha. unfold write_bytes. by rewrite (proj2 (in_range_false _ _ _)) by lia. Qed.

(** Storing bytes into a validated buffer of the program. *)
Lemma call_ok_store s s1 k r buf n len f (P : Prop) :
  kernel_ok s1 k → w_mem (s_world s1) = w_mem (s_world s) → w_pages (s_world s1) = w_pages (s_world s) →
  (P → accessible (s_world s) buf len = true) → n <= len → 0 < buf → buf + len <= USER_SPACE_END →
  writes_within (w_mem (s_world s)) (f (w_mem (s_world s))) buf len → mem_wf (f (w_mem (s_world s))) →
  call_ok s k buf len P (s2 ← store_user s1 buf n f; Some (r, s2)).
Proof.
  intros Hok Hm Hp Ha Hn Hb Hl Hw Hwf. unfold store_user.
  destruct (accessible (s_world s1) buf n) eqn:Ea.
  2: { intros HP. enough (accessible (s_world s1) buf n = true) by congruence.
       eapply (accessible_sub _ buf len); [|lia..]. rewrite accessible_spec, Hp. by apply accessible_spec, Ha. }
  rewrite bind_Some_eq. split_and!; simpl; rewrite ?Hm; [|by eapply writes_within_user|done].
  apply (kernel_ok_world s1 k); try done; [apply (own_vfs _ _ (proj1 Hok))|simpl; by rewrite Hm|apply (own_kbd _ _ (proj1 Hok))].
Qed.

Lemma sys_stat_ok s k path buf :
  kernel_ok s k → is_u64 path → is_u64 buf → k + 3 < 2 ^ 32 →
  call_ok s (k + 3) buf sizeof_stat (program_string (s_world s) path ∧ program_buffer (s_world s) buf sizeof_stat)
    (sys_stat s path buf).
Proof.
  intros Hok Hu Hb Hk. pose proof Hok as [Ho _]. destruct (kernel_current s k Hok) as (c & Hc & Hs).
  unfold sys_stat. destruct (validate_user_string _ _ _) as [ok|] eqn:Eok; [|intros [Hp _]; by apply (string_outside _ _ Hu Eok)].
  rewrite bind_Some_eq.
  destruct (negb _); [apply (call_ok_same s k); [done|lia]|].
  destruct (validate_user_ptr_write buf sizeof_stat) eqn:Ev; cbn [negb]; [|apply (call_ok_same s k); [done|lia]].
  destruct (validate_user_ptr_write_range buf sizeof_stat Hb ltac:(done) Ev) as (Hb1 & _ & Hb2).
  rewrite Hc. destruct (user_path s path) as [p|]; [|apply (call_ok_same s k); [done|lia]].
  pose proof (vfs_stat_ok (w_vfs (s_world s)) (owned s) k (Some p) (own_vfs _ _ Ho) ltac:(lia)) as Hv.
  destruct (vfs_stat _ _) as [r v]. cbn [snd] in Hv. cbv zeta.
  assert (Hv3 : vfs_ok v [] (owned s) (k + 3)) by (eapply vfs_ok_weaken; [exact Hv|lia]).
  destruct r as [st|]; [|apply (call_ok_world s k); try done; apply (own_kbd _ _ Ho)].
  destruct (store_stat_within (w_mem (s_world s)) buf st) as [Hw Hm].
  apply call_ok_store; try done; [|by intros [_ Hbuf]; apply Hbuf|exact (Hm (own_mem _ _ Ho))].
  apply (kernel_ok_world s k); try done; [exact (own_mem _ _ Ho)|apply (own_kbd _ _ Ho)].
Qed.

Lemma sys_fstat_ok s k fd buf :
  kernel_ok s k → is_u64 buf →
  call_ok s k buf sizeof_stat (program_buffer (s_world s) buf sizeof_stat) (sys_fstat s fd buf).
Proof.
  intros Hok Hb. pose proof Hok as [Ho _]. destruct (kernel_current s k Hok) as (c & Hc & Hs).
  unfold sys_fstat. destruct (validate_user_ptr_write buf sizeof_stat) eqn:Ev; cbn [negb]; [|by apply (call_ok_same s k)].
  destruct (validate_user_ptr_write_range buf sizeof_stat Hb ltac:(done) Ev) as (Hb1 & _ & Hb2).
  destruct (fd_file_cases s k c fd Ho Hc Hs) as [[e ->]|(t & f & -> & _)]; [by apply (call_ok_same s k)|].
  cbv zeta. destruct (f_vnode _) as [vn|]; [|by apply (call_ok_same s k)].
  set (mode := if _ =? _ then S_IFDIR else S_IFREG). set (size := match vn_inode _ with Some _ => _ | None => 0 end).
  set (ino := vn_inode_num _). destruct (store_fstat_within (w_mem (s_world s)) buf mode size ino) as [Hw Hm].
  apply call_ok_store; try done; [by intros Hbuf; apply Hbuf|exact (Hm (own_mem _ _ Ho))].
Qed.

Lemma vfs_readdir_bytes v f i bs :
  fs_wf (v_fs v) → vfs_readdir v (Some f) i = Some bs → Z.of_nat (length bs) = sizeof_dirent ∧ byte_list bs.
Proof.
  intros Hwf. unfold vfs_readdir. rewrite bind_Some_eq. destruct (negb _); [done|].
  destruct (ops_vnode v _) as [vn|]; [|done]. rewrite bind_Some_eq. unfold ramfs_vfs_readdir.
  destruct (vn_inode _) as [dp|]; [|done]. unfold ramfs_dir_read_entry. cbv zeta. destruct (negb _); [done|].
  destruct (for_ _ _ _ _) as [n|e]; [done|]. intros [= <-]. rewrite length_read_bytes. split; [done|].
  apply Forall_fmap, Forall_true. intros j. apply (fw_mem _ Hwf).
Qed.

Lemma sys_readdir_ok s k fd ent index :
  kernel_ok s k → is_u64 ent →
  call_ok s k ent sizeof_dirent (program_buffer (s_world s) ent sizeof_dirent) (sys_readdir s fd ent index).
Proof.
  intros Hok Hb. pose proof Hok as [Ho _]. destruct (kernel_current s k Hok) as (c & Hc & Hs).
  unfold sys_readdir. destruct (validate_user_ptr_write ent sizeof_dirent) eqn:Ev; cbn [negb]; [|by apply (call_ok_same s k)].
  destruct (validate_user_ptr_write_range ent sizeof_dirent Hb ltac:(done) Ev) as (Hb1 & _ & Hb2).
  destruct (fd_file_cases s k c fd Ho Hc Hs) as [[e ->]|(t & f & -> & _)]; [by apply (call_ok_same s k)|].
  destruct (vfs_readdir _ _ _) as [bs|] eqn:Er; [|by apply (call_ok_same s k)].
  destruct (vfs_readdir_bytes _ _ _ _ (proj1 (proj2 (own_vfs _ _ Ho))) Er) as [Hl Hbs].
  apply call_ok_store; try done; [by intros Hbuf; apply Hbuf|unfold zlen; lia|apply write_bytes_within; lia|].
  by apply mem_wf_write_bytes; [apply (own_mem _ _ Ho)|].
Qed.

Lemma sys_getcwd_ok s k buf size :
  kernel_ok s k → is_u64 buf → is_u64 size →
  call_ok s k buf size (program_buffer (s_world s) buf size) (sys_getcwd s buf size).
Proof.
  intros Hok Hb Hz. pose proof Hok as [Ho _]. destruct (kernel_current s k Hok) as (c & Hc & Hs).
  unfold sys_getcwd. destruct (validate_user_ptr_write buf size) eqn:Ev; cbn [negb]; [|by apply (call_ok_same s k)].
  destruct (validate_user_ptr_write_range buf size Hb Hz Ev) as (Hb1 & _ & Hb2).
  destruct (size =? 0); [by apply (call_ok_same s k)|]. rewrite Hc. cbv zeta. set (dir := cwd (process_table s c)).
  destruct (Z.leb_spec size (zlen dir)) as [|Hlt]; [by apply (call_ok_same s k)|].
  assert (Hbs : byte_list (dir ++ [0])).
  { apply Forall_app. split; [by apply (own_cwd _ _ Ho)|by repeat constructor]. }
  assert (Hl : Z.of_nat (length (dir ++ [0])) <= size) by (rewrite length_app; unfold zlen in Hlt; simpl; lia).
  apply call_ok_store; try done; [by intros Hbuf; apply Hbuf|lia|by apply write_bytes_within|].
  by apply mem_wf_write_bytes; [apply (own_mem _ _ Ho)|].
Qed.

Lemma own_set_cwd s c d k : own s k → byte_list d → own (on s c (set_cwd d)) k.
Proof.
  intros [O1 O2 O3 O4 O5 O6 O7 O8 O9] Hd. set (s' := on s c _).
  assert (Hf : ∀ i, fdt s' i = fdt s i) by (intros i; unfold fdt; simpl; slots; done).
  assert (Eo : owned s' = owned s) by (apply owned_ext; intros i _; by rewrite Hf).
  constructor; try done.
  - by rewrite Eo.
  - intros i. rewrite Hf. apply O2.
  - intros i j. rewrite !Hf. apply O3.
  - intros i Hi. unfold st. rewrite Hf. simpl. slots; by apply O5.
  - intros i Hi. simpl. slots; [done|by apply O6].
Qed.

Lemma sys_chdir_ok s k path :
  kernel_ok s k → k + 3 < 2 ^ 32 → is_u64 path →
  call_ok s (k + 3) 0 0 (program_string (s_world s) path) (sys_chdir s path).
Proof.
  intros Hok Hk Hu. pose proof Hok as [Ho Hrun]. destruct (kernel_current s k Hok) as (c & Hc & Hs).
  unfold sys_chdir. destruct (validate_user_string _ _ _) as [ok|] eqn:Eok; [|by eapply string_outside].
  rewrite bind_Some_eq.
  destruct (negb _); [apply (call_ok_same s k); [done|lia]|]. rewrite Hc.
  destruct (user_path s path) as [p|] eqn:Ep; [|apply (call_ok_same s k); [done|lia]].
  pose proof (user_path_bytes s k c path p Ho Hc Hs Ep) as Hp.
  pose proof (vfs_stat_ok (w_vfs (s_world s)) (owned s) k (Some p) (own_vfs _ _ Ho) ltac:(lia)) as Hv.
  destruct (vfs_stat _ _) as [r v]. cbn [snd] in Hv.
  assert (Hv3 : vfs_ok v [] (owned s) (k + 3)) by (eapply vfs_ok_weaken; [exact Hv|lia]).
  cbv zeta. set (s1 := on_world s (λ w, set_vfs w v)).
  assert (Hs1 : ∀ P z, call_ok s (k + 3) 0 0 P (Some (z, s1))).
  { intros P z. apply (call_ok_world s k); try done. apply (own_kbd _ _ Ho). }
  destruct r as [st|]; [|apply Hs1]. destruct (negb _); [apply Hs1|]. destruct (_ <=? _); [apply Hs1|].
  destruct (Hs1 True 0) as ([Ho1 (q & c1 & Hw)] & _).
  split_and!; [|by intros a..]. split; [by apply own_set_cwd|].
  exists q, c1. by apply on_run; [intros x; done..|].
Qed.

Lemma read_bytes_byte_list m a n : mem_wf m → byte_list (read_bytes m a n).
Proof. intros Hm. apply Forall_fmap, Forall_true. intros i. apply Hm. Qed.

Lemma zlen_read_bytes m a n : 0 <= n → zlen (read_bytes m a n) = n.
Proof. intros Hn. unfold zlen. rewrite length_read_bytes. lia. Qed.

Lemma sys_write_ok s k fd buf len :
  kernel_ok s k → is_u64 buf → is_u64 len →
  call_ok s k 0 0 (program_buffer (s_world s) buf len) (sys_write s fd buf len).
Proof.
  intros Hok Hb Hl. pose proof Hok as [Ho _]. destruct (kernel_current s k Hok) as (c & Hc & Hs).
  unfold sys_write. destruct (validate_user_ptr buf len) eqn:Ev; cbn [negb]; [|by apply (call_ok_same s k)].
  destruct (validate_user_ptr_range buf len Hb Hl Ev) as (Hb1 & Hl1 & Hb2).
  destruct (_ || _).
  { unfold load_user. destruct (accessible _ _ _) eqn:Ea; [|intros Hbuf; specialize (Hbuf Hb1 Hb2); congruence].
    rewrite bind_Some_eq. apply (call_ok_world s k); try done; [exact (own_vfs _ _ Ho)|apply (own_kbd _ _ Ho)]. }
  destruct (fd =? 0); [by apply (call_ok_same s k)|].
  destruct (fd_file_cases s k c fd Ho Hc Hs) as [[e ->]|(t & f & -> & _ & _ & _ & _ & Hf)]; [by apply (call_ok_same s k)|].
  destruct (vfs_write_total (w_vfs (s_world s)) (owned s) k f (read_bytes (w_mem (s_world s)) buf len) (own_vfs _ _ Ho) Hf)
    as (r & v & -> & Hv & Hr).
  { rewrite zlen_read_bytes by done. unfold USER_SPACE_END in Hb2. lia. }
  { apply read_bytes_byte_list, (own_mem _ _ Ho). }
  rewrite bind_Some_eq. unfold load_user. rewrite zlen_read_bytes in Hr by done.
  destruct (accessible (s_world s) buf (default 0 r)) eqn:Ea; [rewrite bind_Some_eq|].
  2: { intros Hbuf. rewrite (accessible_sub _ buf len buf (default 0 r) (Hbuf Hb1 Hb2)) in Ea; [done|lia|].
       destruct r as [n|]; simpl; [|lia]. specialize (Hr n eq_refl). lia. }
  apply (call_ok_world s k); try done. apply (own_kbd _ _ Ho).
Qed.

Lemma read_keys_spec kb len str kb' :
  0 <= len → byte_list (key_buffer kb) → read_keys kb len = (str, kb') →
  zlen str <= len ∧ byte_list str ∧ byte_list (key_buffer kb').
Proof.
  intros Hl Hk. unfold read_keys.
  pose (I := λ (i : Z) (x : list Z * keyboard), zlen x.1 <= i ∧ byte_list x.1 ∧ byte_list (key_buffer x.2)).
  assert (Hinit : I 0 ([], kb)) by exact (conj (Z.le_refl 0) (conj (Forall_nil_2 _) Hk)).
  assert (Hstep : ∀ i x, 0 <= i < len → I i x →
    match (let '(str, k) := x in
           if negb (keyboard_has_key k) then Stop (str, k)
           else let '(c, k) := keyboard_getchar_nonblock k in
                if c =? 0 then Stop (str, k) else Next (str ++ [c], k)) : ctl _ (list Z * keyboard) with
    | Next x' => I (i + 1) x' | Stop r => I i r end).
  { intros i [l k] Hi (H1 & H2 & H3). simpl in *. destruct (negb (keyboard_has_key k)); [done|].
    unfold keyboard_getchar_nonblock, buffer_get. destruct (buffer_empty k); [done|]. cbv zeta.
    assert (Hc : 0 <= default 0 (key_buffer k !! Z.to_nat (buffer_tail k)) < 256).
    { destruct (_ !! _) as [b|] eqn:Eb; simpl; [|lia]. by eapply Forall_lookup_1 in H3; [|exact Eb]. }
    destruct (_ =? 0); [done|]. split_and!; simpl; [unfold zlen in *; rewrite length_app; simpl; lia| |done].
    apply Forall_app. split; [done|by apply Forall_singleton]. }
  pose proof (for_inv I I 0 len _ ([], kb) Hl Hinit Hstep) as Hf.
  destruct (for_ _ _ _ _) as [[l k]|[l k]]; intros [= <- <-].
  - exact Hf.
  - destruct Hf as (i & Hi & H1 & H2 & H3). simpl in *. split_and!; try done. lia.
Qed.

Lemma sys_read_ok s k fd buf len :
  kernel_ok s k → is_u64 buf → is_u64 len →
  call_ok s k buf len (program_buffer (s_world s) buf len) (sys_read s fd buf len).
Proof.
  intros Hok Hb Hl. pose proof Hok as [Ho _]. destruct (kernel_current s k Hok) as (c & Hc & Hs).
  unfold sys_read. destruct (validate_user_ptr buf len) eqn:Ev; cbn [negb]; [|by apply (call_ok_same s k)].
  destruct (validate_user_ptr_range buf len Hb Hl Ev) as (Hb1 & Hl1 & Hb2).
  destruct (fd =? 0).
  { destruct (len =? 0); [by apply (call_ok_same s k)|]. destruct (read_keys _ _) as [str kb] eqn:Er.
    destruct (read_keys_spec _ _ _ _ Hl1 (own_kbd _ _ Ho) Er) as (H1 & H2 & H3).
    apply call_ok_store; try done; [|by intros Hbuf; apply Hbuf|by apply write_bytes_within|by apply mem_wf_write_bytes; [apply (own_mem _ _ Ho)|]].
    apply (kernel_ok_world s k); try done; [exact (own_vfs _ _ Ho)|exact (own_mem _ _ Ho)]. }
  destruct (_ || _); [by apply (call_ok_same s k)|].
  destruct (fd_file_cases s k c fd Ho Hc Hs) as [[e ->]|(t & f & -> & _ & _ & _ & _ & Hf)]; [by apply (call_ok_same s k)|].
  destruct (vfs_read_total (w_vfs (s_world s)) (owned s) k f len (own_vfs _ _ Ho) Hf) as (r & v & -> & Hv & Hr).
  { unfold USER_SPACE_END in Hb2. lia. }
  rewrite bind_Some_eq. destruct r as [bs|]; [|apply (call_ok_world s k); try done; apply (own_kbd _ _ Ho)].
  destruct (Hr bs eq_refl) as [H1 H2].
  apply call_ok_store; try done; [|by intros Hbuf; apply Hbuf|by apply write_bytes_within|by apply mem_wf_write_bytes; [apply (own_mem _ _ Ho)|]].
  apply (kernel_ok_world s k); try done; [exact (own_mem _ _ Ho)|apply (own_kbd _ _ Ho)].
Qed.

Lemma call_ok_weaken s k k' b n P (Q : Prop) r : call_ok s k b n P r → k <= k' → (Q → P) → call_ok s k' b n Q r.
Proof.
  intros Hc Hk HQ. destruct r as [[v s']|]; [|by intros HP; apply Hc, HQ]. destruct Hc as ([Ho Hr] & Hu).
  split; [|done]. split; [by eapply own_weaken|done].
Qed.

(** Calls that only reschedule. *)
Lemma call_ok_frame s s' k v :
  kernel_ok s k → frame s s' → (∃ q c, run_wf s' q c) → call_ok s k 0 0 True (Some (v, s')).
Proof.
  intros [Ho _] Hf Hr. split_and!; [split; [by eapply own_frame|done]|..];
    intros a _; by rewrite (fr_world _ _ Hf).
Qed.

Lemma process_yield_run s q c : run_wf s q c → ∃ q c, run_wf (process_yield s) q c.
Proof. intros Hw. destruct (process_yield_wf s q c Hw) as (Hs & _). by apply switched_run in Hs. Qed.

Lemma process_block_run s q c : run_wf s q c → ∃ q c, run_wf (process_block s) q c.
Proof.
  intros Hw. destruct (process_block_wf s q c Hw) as [[[_ ->]|[_ Hs]] _]; [by eauto|]. by apply switched_run in Hs.
Qed.

Lemma sys_yield_ok s k : kernel_ok s k → call_ok s k 0 0 True (sys_yield s).
Proof.
  intros Hok. pose proof Hok as [_ (q & c & Hw)]. apply call_ok_frame; [done|apply process_yield_frame|].
  by apply (process_yield_run s q c).
Qed.

Lemma sys_getpid_ok s k : kernel_ok s k → call_ok s k 0 0 True (sys_getpid s).
Proof.
  intros Hok. destruct (kernel_current s k Hok) as (c & Hc & _). unfold sys_getpid. rewrite Hc, bind_Some_eq.
  by apply (call_ok_same s k).
Qed.

Lemma sys_sleep_ok s k ms : kernel_ok s k → call_ok s k 0 0 True (sys_sleep s ms).
Proof.
  intros Hok. pose proof Hok as [_ (q & c & Hw)]. unfold sys_sleep. destruct (ms =? 0); [by apply sys_yield_ok|].
  destruct (kernel_current s k Hok) as (c' & Hc & _). rewrite Hc, bind_Some_eq. cbv zeta.
  set (s1 := on s c' _). assert (Hf1 : frame s s1) by (unfold s1; framing).
  assert (Hw1 : run_wf s1 q c) by (apply on_run; [intros x; done..|done]). clearbody s1.
  pose proof (process_block_frame s s1 Hf1) as Hf2. destruct (process_block_run s1 q c Hw1) as (q2 & c2 & Hw2).
  destruct (bool_decide _); apply call_ok_frame; try done; [framing| |by eauto].
  exists q2, c2. apply on_run; [intros x; done..|done].
Qed.

Lemma kernel_ok_says s l k : kernel_ok s k → kernel_ok (says s l) k.
Proof. intros [Ho (q & c & Hw)]. split; [by apply own_says|]. exists q, c. by apply says_run. Qed.

(** An exit leaves user memory alone. *)
Lemma process_exit_mem s code s' : process_exit s code = Some s' → w_mem (s_world s') = w_mem (s_world s).
Proof.
  unfold process_exit. destruct (current_process s) as [c|]; [|done]. destruct (is_idle _); [done|]. cbv zeta.
  set (s0 := says s _). change (w_mem (s_world s)) with (w_mem (s_world s0)). clearbody s0.
  set (s1 := if negb (Proc.fd_table (process_table s0 c) =? 0) then _ else s0).
  assert (Hm : w_mem (s_world s1) = w_mem (s_world s0)) by (unfold s1; by destruct (negb _)). clearbody s1.
  destruct (bool_decide _); [done|]. intros [= <-].
  assert (Hf : frame s1 (schedule (on (on s1 c (set_state PROCESS_STATE_TERMINATED)) c (set_exit_code code))))
    by (apply schedule_frame; framing).
  by rewrite (fr_world _ _ Hf).
Qed.

Lemma sys_exit_ok s k code : kernel_ok s k → current_process s ≠ Some 0 → call_ok s k 0 0 True (sys_exit s code).
Proof.
  intros Hok Hne. pose proof (kernel_current s k Hok) as (c0 & Hc0 & _). unfold sys_exit. rewrite Hc0, bind_Some_eq. cbv zeta.
  set (s0 := says s _). apply (kernel_ok_says s _ k : _ → kernel_ok s0 k) in Hok.
  change (current_process s ≠ Some 0) with (current_process s0 ≠ Some 0) in Hne.
  assert (Em : w_mem (s_world s0) = w_mem (s_world s)) by done. clearbody s0. clear Hc0.
  pose proof Hok as [Ho (q & c & Hw)]. pose proof Hw as [[_ _ Hc Hs _ _ _ _] _ _].
  pose proof (process_exit_wf s0 q c code Hw) as He.
  destruct (process_exit s0 code) as [s'|] eqn:Ee; [|congruence]. rewrite bind_Some_eq.
  destruct He as (_ & Hsw & _). pose proof (process_exit_mem s0 code s' Ee) as Em'. unfold call_ok. rewrite <- Em, <- Em'.
  split_and!; [|by intros a..]. split; [by apply (process_exit_own s0 c code s')|]. by apply switched_run in Hsw.
Qed.

(** Every call. *)
Lemma syscall_dispatch_ok s k num arg1 arg2 arg3 :
  kernel_ok s k → k + 3 < 2 ^ 32 → is_u64 num → is_u64 arg1 → is_u64 arg2 → is_u64 arg3 →
  (num = SYS_EXIT → current_process s ≠ Some 0) →
  let '(buf, len) := result_buffer num arg1 arg2 arg3 in
  call_ok s (k + 3) buf len (program_arguments (s_world s) num arg1 arg2 arg3) (syscall_dispatch s num arg1 arg2 arg3).
Proof.
  intros Hok Hk Hn H1 H2 H3 Hexit. unfold syscall_dispatch.
  assert (Hw : ∀ b n P Q r, call_ok s k b n P r → (Q → P) → call_ok s (k + 3) b n Q r)
    by (intros b n P Q r Hr HQ; eapply call_ok_weaken; [exact Hr|lia|exact HQ]).
  destruct (Z.leb_spec SYS_MAX num) as [Hmax|Hmax].
  { assert (Hno : ∀ x, x < 14 → (num =? x) = false) by (unfold SYS_MAX in Hmax; intros x Hx; apply Z.eqb_neq; lia).
    unfold result_buffer, SYS_READ, SYS_STAT, SYS_FSTAT, SYS_READDIR, SYS_GETCWD. rewrite !Hno by done. cbv iota beta delta [orb].
    eapply (Hw _ _ True); [|done]. split_and!; [by apply kernel_ok_says|by intros a..]. }
  unfold result_buffer, program_arguments, is_u64 in *.
  destruct (Z.eqb_spec num SYS_EXIT) as [->|]; [by eapply Hw; [apply sys_exit_ok; auto|]|].
  destruct (Z.eqb_spec num SYS_WRITE) as [->|]; [by eapply Hw; [apply sys_write_ok|]|].
  destruct (Z.eqb_spec num SYS_READ) as [->|]; [by eapply Hw; [apply sys_read_ok|]|].
  destruct (Z.eqb_spec num SYS_YIELD) as [->|]; [by eapply Hw; [apply sys_yield_ok|]|].
  destruct (Z.eqb_spec num SYS_GETPID) as [->|]; [by eapply Hw; [apply sys_getpid_ok|]|].
  destruct (Z.eqb_spec num SYS_SLEEP) as [->|]; [by eapply Hw; [apply sys_sleep_ok|]|].
  destruct (Z.eqb_spec num SYS_OPEN) as [->|]; [by apply sys_open_ok|].
  destruct (Z.eqb_spec num SYS_CLOSE) as [->|]; [by eapply Hw; [apply sys_close_ok|]|].
  destruct (Z.eqb_spec num SYS_LSEEK) as [->|]; [by eapply Hw; [apply sys_lseek_ok|]|].
  destruct (Z.eqb_spec num SYS_STAT) as [->|]; [by apply sys_stat_ok|].
  destruct (Z.eqb_spec num SYS_FSTAT) as [->|]; [by eapply Hw; [apply sys_fstat_ok|]|].
  destruct (Z.eqb_spec num SYS_READDIR) as [->|]; [by eapply Hw; [apply sys_readdir_ok|]|].
  destruct (Z.eqb_spec num SYS_GETCWD) as [->|]; [by eapply Hw; [apply sys_getcwd_ok|]|].
  assert (num = SYS_CHDIR) as ->; [|by apply sys_chdir_ok].
  unfold SYS_MAX, SYS_EXIT, SYS_WRITE, SYS_READ, SYS_YIELD, SYS_GETPID, SYS_SLEEP, SYS_OPEN, SYS_CLOSE, SYS_LSEEK,
    SYS_STAT, SYS_FSTAT, SYS_READDIR, SYS_GETCWD, SYS_CHDIR in *. lia.
Qed.

(** ** Reachable states *)

(** What happens to the running kernel: system calls of the running process
    with any arguments, process creations by kernel code on a heap without a
    tight fit, timer and keyboard interrupts, and user code writing its memory
    or another program's memory taking its place. *)
Inductive kernel_step s : sys (world A) → Prop :=
  | ks_syscall num arg1 arg2 arg3 r s' : is_u64 num → is_u64 arg1 → is_u64 arg2 → is_u64 arg3 →
      syscall_dispatch s num arg1 arg2 arg3 = Some (r, s') → kernel_step s s'
  | ks_create name ent arg : create_roomy (s_world s) → kernel_step s (process_create s name ent arg).2
  | ks_timer : kernel_step s (pit_irq_handler s)
  | ks_key scancode : kernel_step s (key_irq s scancode)
  | ks_user m pages : mem_wf m → kernel_step s (on_world s (λ w, set_mem (set_pages w pages) m)).

Lemma key_ascii_byte shift caps key : 0 <= key_ascii shift caps key < 256.
Proof.
  assert (H1 : byte_list scancode_ascii) by (apply (bool_decide_unpack _); vm_compute; exact Logic.I).
  assert (H2 : byte_list scancode_ascii_shift) by (apply (bool_decide_unpack _); vm_compute; exact Logic.I).
  unfold key_ascii. cbv zeta. match goal with |- context [if ?b then _ else _] => destruct b end;
    (destruct (_ !! _) as [b|] eqn:E; simpl; [|lia]).
  - by eapply Forall_lookup_1 in H2; [|exact E].
  - by eapply Forall_lookup_1 in H1; [|exact E].
Qed.

Lemma keyboard_irq_bytes kb sc :
  byte_list (key_buffer kb) → byte_list (key_buffer (keyboard_irq_handler kb sc)).
Proof.
  intros Hk. unfold keyboard_irq_handler. cbv zeta.
  repeat match goal with |- context [if ?b then _ else _] => destruct b; try exact Hk end.
  unfold buffer_put. destruct (negb _); [|done]. simpl. apply Forall_insert; [done|apply key_ascii_byte].
Qed.

Lemma sys_exit_idle s q c code : run_wf s q c → current_process s = Some 0 → sys_exit s code = None.
Proof.
  intros Hw Hc. unfold sys_exit. rewrite Hc, bind_Some_eq. cbv zeta. set (s0 := says s _).
  pose proof (process_exit_wf s0 q c code (says_run s q c _ Hw)) as He.
  assert (c = 0) as -> by (destruct Hw as [[_ _ Hc' _ _ _ _ _] _ _]; congruence).
  destruct (process_exit s0 code); [by destruct He|done].
Qed.

Lemma kernel_step_ok s s' k : kernel_ok s k → k + 3 < 2 ^ 32 → kernel_step s s' → kernel_ok s' (k + 3).
Proof.
  intros Hok Hk Hstep. pose proof Hok as [Ho (q & c & Hw)].
  assert (Hmono : ∀ s1, kernel_ok s1 k → kernel_ok s1 (k + 3)).
  { intros s1 [Ho1 Hr1]. split; [eapply own_weaken; [exact Ho1|lia]|done]. }
  destruct Hstep as [num a1 a2 a3 r s' Hnum H1 H2 H3 E|name ent arg Hroom| |sc|m pages Hm].
  - assert (Hno : num = SYS_EXIT → current_process s ≠ Some 0).
    { intros -> Hc. change (syscall_dispatch s SYS_EXIT a1 a2 a3) with (sys_exit s (i32 a1)) in E.
      by rewrite (sys_exit_idle s q c _ Hw Hc) in E. }
    pose proof (syscall_dispatch_ok s k num a1 a2 a3 Hok Hk Hnum H1 H2 H3 Hno) as Hd.
    destruct (result_buffer _ _ _ _). rewrite E in Hd. apply Hd.
  - apply Hmono. split.
    + apply process_create_own; [done..|]. intros c' Hc'. destruct Hw as [[_ _ Hc Hs _ _ _ _] _ _]. congruence.
    + destruct (process_create_wf s q c name ent arg Hw) as (q' & Hw' & _). eauto.
  - apply Hmono. unfold pit_irq_handler. cbv zeta. set (s1 := on_world s _).
    assert (Hok1 : kernel_ok s1 k).
    { split; [|by apply run_world; eauto]. apply (own_world s _ k); try done; [|exact (own_mem _ _ Ho)|exact (own_kbd _ _ Ho)].
      apply vfs_ok_fs; [exact (own_vfs _ _ Ho)|]. destruct (own_vfs _ _ Ho) as (_ & Hwf & _).
      eapply fs_step_wf; [exact Hwf|]. apply step_tick. apply u64_range. }
    clearbody s1. destruct Hok1 as [Ho1 (q1 & c1 & Hw1)]. destruct (scheduler_running s1); [|by split; eauto].
    split; [eapply own_frame; [apply sched_tick_frame|done]|].
    by destruct (sched_step_wf s1 _ q1 c1 (Proc.step_tick s1 (pit_get_ticks s1)) Hw1) as [? _].
  - apply Hmono. split; [|by apply run_world; eauto].
    apply (own_world s _ k); try done; [exact (own_vfs _ _ Ho)|exact (own_mem _ _ Ho)|].
    apply keyboard_irq_bytes, (own_kbd _ _ Ho).
  - apply Hmono. split; [|by apply run_world; eauto].
    apply (own_world s _ k); try done; [exact (own_vfs _ _ Ho)|exact (own_kbd _ _ Ho)].
Qed.

Lemma kernel_steps_ok n s s' k :
  kernel_ok s k → nsteps kernel_step n s s' → k + 3 * Z.of_nat n < 2 ^ 32 → kernel_ok s' (k + 3 * Z.of_nat n).
Proof.
  intros Hok Hn. revert k Hok. induction Hn as [s|n s1 s2 s3 Hs _ IH]; intros k Hok Hk.
  - by replace (k + 3 * Z.of_nat 0) with k by lia.
  - replace (k + 3 * Z.of_nat (S n)) with (k + 3 + 3 * Z.of_nat n) by lia.
    apply IH; [|lia]. apply (kernel_step_ok s1); [done|lia|done].
Qed.

(** ** Boot *)

(** The world after [fs_init] and before the first process. *)
Definition boot_world w : Prop :=
  vfs_ok (w_vfs w) [] [] FS_BOOT ∧ w_tables w = ∅ ∧ mem_wf (w_mem w) ∧ byte_list (key_buffer (w_kbd w))
  ∧ kh_ok (w_heap w).

Lemma own_empty s : boot_world (s_world s) → (∀ i, slot_ok i → fdt s i = 0 ∧ kernel_stack (process_table s i) = 0
  ∧ byte_list (cwd (process_table s i))) → own s FS_BOOT.
Proof.
  intros (Hv & Ht & Hm & Hk & Hh) Hz.
  assert (Eo : owned s = []).
  { unfold owned, slots_handles. assert (Hl : ∀ i, i ∈ seqZ 0 MAX_PROCESSES → fdt s i = 0).
    { intros i Hi%elem_of_seqZ. apply Hz. unfold slot_ok. lia. }
    revert Hl. generalize (seqZ 0 MAX_PROCESSES). intros l. induction l as [|i l IH]; intros Hl; [done|].
    rewrite bind_cons, IH by (intros j Hj; apply Hl; by right). rewrite Hl by (by left). done. }
  constructor; try done.
  - by rewrite Eo.
  - intros i Hi Hne. by destruct (Hz i Hi).
  - intros i j Hi _ Hne. by destruct (Hz i Hi).
  - intros a. rewrite Ht. by intros [t ?].
  - intros i Hi _. by destruct (Hz i Hi) as (? & ? & _).
  - intros i Hi. apply Hz, Hi.
Qed.

Lemma process_init_own w e s1 :
  boot_world w → create_roomy w → process_init (static_sys w) e = Some s1 → own s1 FS_BOOT.
Proof.
  intros Hb Hroom. unfold process_init. set (t := for_each 0 MAX_PROCESSES _ _).
  assert (Ht : ∀ i, slot_ok i → Proc.fd_table (t i) = 0 ∧ kernel_stack (t i) = 0 ∧ byte_list (cwd (t i))).
  { intros i Hi. unfold t. rewrite init_table. unfold slot_ok in Hi.
    rewrite (proj2 (Z.leb_le _ _)), (proj2 (Z.ltb_lt _ _)) by lia. simpl. split_and!; [done|done|by repeat constructor]. }
  clearbody t. set (s0 := Sys t 0 None None None false false None w).
  assert (Ho : own s0 FS_BOOT) by (apply own_empty; [exact Hb|exact Ht]).
  change (s_world (static_sys w)) with (s_world s0). change w with (s_world s0) in Hroom.
  destruct (env_kmalloc KERNEL_STACK_SIZE (s_world s0)) as [stack w1] eqn:E1.
  destruct (Z.eqb_spec stack 0) as [|Hne]; [done|]. cbv zeta.
  destruct (setup_initial_stack (stack_top stack) w1) as [sp w2] eqn:E2.
  destruct (new_fd_table w2) as [fds w3] eqn:E3.
  destruct (new_process_heap s0 stack w1 sp w2 fds w3 FS_BOOT) as (Hm3 & Hok3 & Hl3 & Hk3 & Hn3 & Hv3); try done.
  intros [= <-]. apply own_says. match goal with |- own (Sys (update t 0 ?f) _ _ _ _ _ _ _ _) _ => set (idle := f) end.
  assert (Hnew : own (on (set_next_pid (set_world s0 w3) 1) 0 idle) FS_BOOT).
  { apply (own_new s0 0 w3 fds); try done; [by apply Ht|].
    intros p. split_and!; [done|done|by repeat constructor]. }
  eapply own_frame; [|exact Hnew]. by constructor.
Qed.

Lemma process_init_idle w e s1 : process_init (static_sys w) e = Some s1 → process_get s1 0 = Some 0.
Proof.
  unfold process_init. destruct (env_kmalloc _ _) as [stack w1]. destruct (stack =? 0); [done|].
  destruct (setup_initial_stack _ _) as [sp w2]. destruct (new_fd_table w2) as [fds w3]. intros [= <-].
  apply find_first_Some. cbv beta. split_and!; [lia|done| |intros j Hj; lia].
  reflexivity.
Qed.

(** Process creation while the kernel boots, on a heap without a tight fit. *)
Inductive boot_create_step s : sys (world A) → Prop :=
  | boot_create_roomy name ent arg : create_roomy (s_world s) → boot_create_step s (process_create s name ent arg).2.

Lemma boot_own w e s1 s2 s3 s4 :
  boot_world w → create_roomy w → process_init (static_sys w) e = Some s1 → sched_init s1 = Some s2 →
  rtc boot_create_step s2 s3 → sched_start s3 = Some s4 → kernel_ok s4 FS_BOOT.
Proof.
  intros Hb Hroom E1 E2 Hs E4. split.
  2: { eapply boot_reaches; [exact E1|exact E2| |exact E4]. eapply rtc_subrel; [|exact Hs].
       intros x y [name ent arg _]. exact (boot_step_create x name ent arg). }
  assert (Hbw : ∃ q, boot_wf s2 q) by (eauto using boot_init).
  assert (Ho2 : own s2 FS_BOOT).
  { pose proof (process_init_own w e s1 Hb Hroom E1) as Ho1. revert E2. unfold sched_init.
    destruct (process_get s1 0); [|done]. intros [= <-]. apply own_says. eapply own_frame; [|exact Ho1]. framing. }
  assert (Ho3 : own s3 FS_BOOT).
  { clear E4 E1 E2. induction Hs as [|x y z Hxy _ IH]; [done|]. destruct Hbw as [q Hbw], Hxy as [name ent arg Hr].
    apply IH; [by destruct (boot_create x q name ent arg Hbw) as [q' ?]; eauto|].
    apply process_create_own; [done..|]. destruct Hbw as (_ & Hc & _). intros c Hc'. rewrite Hc in Hc'. by injection Hc' as [= <-]. }
  revert E4. unfold sched_start. destruct (sched_ready_count s3) as [count|]; [|done]. rewrite bind_Some_eq. cbv zeta.
  set (s0 := says s3 _). assert (Ho0 : own s0 FS_BOOT) by (by apply own_says). clearbody s0.
  pose proof (sched_pick_next_frame s0 s0 (frame_refl s0)) as Hf. destruct (sched_pick_next s0) as [[i|] s5]; [|done].
  cbn [snd] in Hf. intros [= <-]. apply own_says. eapply own_frame; [|exact Ho0]. framing.
Qed.

(** ** Theorems *)


(** C2. System calls return and stay in their lane.  In a reachable state, every
    call whose pointers name memory of the running program (or are refused:
    zero, or beyond user space) comes back with a result: the kernel does not
    fault, panic or loop, an exit of the idle process excepted.  Any call that
    comes back keeps the kernel invariant, changes no memory at or beyond the
    end of user space, and none outside the buffer it was given to fill in. *)
Theorem syscall_returns_and_writes_user_memory_only s k num arg1 arg2 arg3 :
  kernel_ok s k → k + 3 < 2 ^ 32 → is_u64 num → is_u64 arg1 → is_u64 arg2 → is_u64 arg3 →
  (num = SYS_EXIT → current_process s ≠ Some 0) →
  match syscall_dispatch s num arg1 arg2 arg3 with
  | Some (r, s') =>
      kernel_ok s' (k + 3)
      ∧ ∀ a, a <= 0 ∨ USER_SPACE_END <= a
             ∨ ¬ ((result_buffer num arg1 arg2 arg3).1 <= a
                  < (result_buffer num arg1 arg2 arg3).1 + (result_buffer num arg1 arg2 arg3).2) →
          w_mem (s_world s') a = w_mem (s_world s) a
  | None => ¬ program_arguments (s_world s) num arg1 arg2 arg3
  end.
Proof.
  intros Hok Hk Hn H1 H2 H3 Hexit. pose proof (syscall_dispatch_ok s k num arg1 arg2 arg3 Hok Hk Hn H1 H2 H3 Hexit) as Hd.
  destruct (result_buffer num arg1 arg2 arg3) as [buf len]. destruct (syscall_dispatch _ _ _ _ _) as [[r s']|]; [|exact Hd].
  destruct Hd as (Hok' & Hu & Hw). split; [exact Hok'|]. simpl. intros a Ha.
  destruct (decide (a <= 0 ∨ USER_SPACE_END <= a)) as [|Hin]; [by apply Hu|]. apply Hw. lia.
Qed.

End ownership.

(** ** A kernel over a heap that only grows *)

Module GrowingHeap.

#[export] Instance heap : KernelHeap Z := {
  kh_kmalloc n h := if (h <=? 0) || (2 ^ 63 <=? h) then (0, h) else (h, h + 16 * (n / 16 + 1));
  kh_kfree _ h := h;
  kh_store64 _ _ h := h;
  kh_process_entry_wrapper := 0x1000
}.

#[export] Program Instance heap_laws : KernelHeapLaws Z := {
  kh_ok h := h mod 16 = 0;
  kh_block h a n := 0 < a < h ∧ 0 <= n ∧ a + n <= h ∧ a + n < 2 ^ 64;
  kh_roomy _ _ := True
}.
Next Obligation. simpl. lia. Qed.
Next Obligation.
  simpl. intros n h a h' Hn Hok _ E. unfold KH_MAX in Hn. pose proof (Z.div_mod n 16). pose proof (Z.mod_pos_bound n 16).
  destruct (Z.leb_spec h 0), (Z.leb_spec (2 ^ 63) h); simpl in E; injection E as [= <- <-];
    [split_and!; [done|auto|done]..|].
  split_and!; [|intros b k ?; lia|intros _; split_and!; [lia..|done|intros k; lia]].
  by rewrite Z.mul_comm, Z_mod_plus_full.
Qed.
Next Obligation. simpl. intros a n h Hok Hb. split; [done|auto]. Qed.
Next Obligation. simpl. intros a n x v h Hok Hb _ _. split; [done|auto]. Qed.

Definition first_world (v : vfs) : world Z :=
  World v ∅ wit_console (Keyboard (repeat 0 256) 0 0 false false false false) (λ _, 0) (λ _, true) 4096.

Lemma always_roomy (w : world Z) : create_roomy w.
Proof. done. Qed.

Lemma sched_init_idle (s : sys (world Z)) i : process_get s 0 = Some i → ∃ s', sched_init s = Some s'.
Proof. intros E. unfold sched_init. rewrite E. by eexists. Qed.

Lemma sched_start_head (s : sys (world Z)) i :
  run_queue_head s = Some i → next (process_table s i) = None →
  ∃ s', sched_start s = Some s' ∧ current_process s' = Some i.
Proof.
  intros E En. unfold sched_start. assert (sched_ready_count s = Some 1) as ->.
  { unfold sched_ready_count. rewrite E. apply (loop_runs _ 2); [|done].
    eapply runs_next; [done|]. rewrite En. by apply runs_stop. }
  rewrite bind_Some_eq. unfold sched_pick_next. cbn [run_queue_head says set_world]. rewrite E. eexists. split; reflexivity.
Qed.

Section boot.
Context (v : vfs).
Definition or_first (s : option (sys (world Z))) : sys (world Z) := default (static_sys (first_world v)) s.
Definition k1 : sys (world Z) := or_first (process_init (static_sys (first_world v)) 0x2000).
Definition k2 : sys (world Z) := or_first (sched_init k1).
Definition k3 : sys (world Z) := (process_create k2 None 0x3000 0).2.
Definition k4 : sys (world Z) := or_first (sched_start k3).

Lemma k1_eq : process_init (static_sys (first_world v)) 0x2000 = Some k1.
Proof.
  unfold k1, or_first. destruct (process_init (static_sys (first_world v)) 0x2000) eqn:E; [done|]. exfalso. revert E.
  unfold process_init. change (env_kmalloc _ _) with (4096, set_heap (first_world v) 12304). cbv iota zeta.
  change (4096 =? 0) with false. cbv iota. destruct (setup_initial_stack _ _). by destruct (new_fd_table _).
Qed.
Lemma k1_idle : process_get k1 0 = Some 0.
Proof. reflexivity. Qed.
Lemma k2_eq : sched_init k1 = Some k2.
Proof. destruct (sched_init_idle k1 0 k1_idle) as (s & E). unfold k2, or_first. by rewrite E. Qed.
Lemma k3_step : rtc boot_create_step k2 k3.
Proof. apply rtc_once. exact (boot_create_roomy k2 None 0x3000 0 (always_roomy _)). Qed.
Lemma k3_head : run_queue_head k3 = Some 1.
Proof. reflexivity. Qed.
Lemma k3_next : next (process_table k3 1) = None.
Proof. reflexivity. Qed.
Lemma k4_eq : sched_start k3 = Some k4.
Proof. destruct (sched_start_head k3 1 k3_head k3_next) as (s & E & _). unfold k4, or_first. by rewrite E. Qed.
Lemma k4_current : current_process k4 = Some 1.
Proof. destruct (sched_start_head k3 1 k3_head k3_next) as (s & E & Hc). unfold k4, or_first. by rewrite E. Qed.
End boot.

Lemma zero_mem : mem_wf (λ _, 0).
Proof. intros a. lia. Qed.

Lemma zero_keys : byte_list (repeat 0 256).
Proof. apply (bool_decide_unpack _). vm_compute. exact Logic.I. Qed.

Lemma k4_ok v : vfs_ok v [] [] FS_BOOT → kernel_ok (k4 v) FS_BOOT.
Proof.
  intros Hv. refine (boot_own (first_world v) 0x2000 (k1 v) (k2 v) (k3 v) (k4 v) _ (always_roomy _) (k1_eq v) (k2_eq v) (k3_step v) (k4_eq v)).
  exact (conj Hv (conj eq_refl (conj zero_mem (conj zero_keys eq_refl)))).
Qed.

End GrowingHeap.

Import GrowingHeap.

(** The first process writes two bytes of its memory to the console. *)
Lemma syscall_returns_and_writes_user_memory_only_witness :
  ∃ v r s', syscall_dispatch (k4 v) SYS_WRITE 1 4096 2 = Some (r, s') ∧ kernel_ok s' (FS_BOOT + 3).
Proof.
  assert (H7 : is_u64 7) by done. assert (Ha : is_u64 1) by done. assert (Hb : is_u64 4096) by done.
  assert (Hc : is_u64 2) by done. assert (Hk : FS_BOOT + 3 < 2 ^ 32) by done. assert (Hne : SYS_WRITE = SYS_EXIT → False) by done.
  destruct (fs_init_ok 7 (λ _, 0) zero_mem H7) as (v & _ & Hv).
  pose proof (syscall_returns_and_writes_user_memory_only (k4 v) FS_BOOT SYS_WRITE 1 4096 2 (k4_ok v Hv) Hk Ha Ha Hb Hc
    (λ E, False_ind _ (Hne E))) as Hd.
  destruct (syscall_dispatch (k4 v) SYS_WRITE 1 4096 2) as [[r s']|] eqn:E.
  - exists v, r, s'. exact (conj E (proj1 Hd)).
  - destruct Hd. exact (λ _ _, eq_refl).
Defined.

(** ** A kernel over the heap of heap.c *)

Module RealHeap.
Import Heap.

#[export] Instance heap_c : KernelHeap (Heap.heap Z) := real_heap 0x1000.
#[export] Instance heap_c_laws : KernelHeapLaws (Heap.heap Z) := real_heap_laws 0x1000.

#[local] Arguments kmalloc : simpl never.

Abbreviation kworld := (world (Heap.heap Z)).
Implicit Types w : kworld.

(** With room after the last block, a new process gets its two blocks. *)
Lemma spare_stack w r :
  spare (w_heap w) r → 16384 <= r →
  ∃ stack w1, env_kmalloc KERNEL_STACK_SIZE w = (stack, w1) ∧ stack ≠ 0
    ∧ spare (w_heap (setup_initial_stack (stack_top stack) w1).2) (r - 8300).
Proof.
  intros Hs Hr. pose proof (spare_roomy 0x1000 _ _ KERNEL_STACK_SIZE Hs ltac:(done) ltac:(unfold KERNEL_STACK_SIZE; lia)) as Hroom.
  destruct (spare_kmalloc _ _ KERNEL_STACK_SIZE Hs ltac:(done) ltac:(unfold KERNEL_STACK_SIZE; lia)) as (stack & h & E & Hne & Hs').
  exists stack, (set_heap w h). assert (E1 : env_kmalloc KERNEL_STACK_SIZE w = (stack, set_heap w h)) by (unfold env_kmalloc, world_env, kh_kmalloc, heap_c, real_heap; rewrite E; reflexivity).
  split_and!; [done|done|]. assert (Hok : kh_ok (w_heap w)) by (destruct Hs as (l & b & Hw & _); by eexists).
  destruct (kmalloc_ext KERNEL_STACK_SIZE _ _ _ ltac:(done) Hok Hroom E1) as [Hx Hb]. destruct (Hb Hne) as (Hblk & Hal & _).
  destruct (kh_block_range _ _ _ Hblk) as [R1 R2]. rewrite stack_top_eq by done. unfold KERNEL_STACK_SIZE in *.
  set (ok w' := spare (w_heap w') (r - 8300) ∧ kh_block (w_heap w') stack 8192 ∧ kh_ok (w_heap w')).
  assert (Hstore : ∀ k v w', 1 <= k < 8 → ok w' → ok (env_store64 (stack + 8192 -64 8 * k) v w')).
  { intros k v w' Hk (I1 & I2 & I3). rewrite u64_id by lia.
    destruct (kh_store_ok stack 8192 (stack + 8192 - 8 * k) v _ I3 I2) as [J1 J2]; [lia..|]. split_and!; [|by apply J2|done].
    apply (spare_store 0x1000 _ _ stack 8192); [done..|lia|lia]. }
  assert (H0 : ok (set_heap w h)).
  { split_and!; [|done|exact (he_ok _ _ Hx Hok)]. destruct Hs' as (l & b & ? & ? & ? & ?). exists l, b. split_and!; try done. lia. }
  enough (ok (setup_initial_stack (stack + 8192) (set_heap w h)).2) as [? _] by done.
  unfold setup_initial_stack. cbn [snd]. apply (for_each_inv (λ _, ok)); [done|by apply (Hstore 1)|].
  intros i w' Hi Hw'. apply Hstore; [lia|done].
Qed.

Lemma spare_create w r : spare (w_heap w) r → 16384 <= r → create_roomy w.
Proof.
  intros Hs Hr. assert (H8 : KERNEL_STACK_SIZE + 64 <= r) by (unfold KERNEL_STACK_SIZE; lia).
  split; [exact (spare_roomy 0x1000 _ r KERNEL_STACK_SIZE Hs ltac:(done) H8)|].
  intros stack w1 E Hne. destruct (spare_stack w r Hs Hr) as (stack' & w1' & E' & _ & Hs').
  rewrite E in E'. injection E' as [= <- <-].
  assert (H9 : sizeof_fd_table + 64 <= r - 8300) by (unfold sizeof_fd_table; lia).
  exact (spare_roomy 0x1000 _ _ sizeof_fd_table Hs' ltac:(done) H9).
Qed.

(** The idle process is set up, and there is room for another. *)
Lemma spare_init w e r :
  spare (w_heap w) r → 16384 <= r → ∃ s, process_init (static_sys w) e = Some s ∧ spare (w_heap (s_world s)) (r - 8500).
Proof.
  intros Hs Hr. destruct (spare_stack w r Hs Hr) as (stack & w1 & E & Hne & Hs').
  unfold process_init. change (s_world (static_sys w)) with w. rewrite E, (proj2 (Z.eqb_neq stack 0)) by done. cbv zeta.
  destruct (setup_initial_stack (stack_top stack) w1) as [sp w2]. cbn [snd] in Hs'.
  destruct (new_fd_table w2) as [fds w3] eqn:E3. eexists. split; [done|]. change (spare (w_heap w3) (r - 8500)).
  destruct (spare_kmalloc _ _ sizeof_fd_table Hs' ltac:(done) ltac:(unfold sizeof_fd_table; lia)) as (a & h & Ek & Ha & Hs3).
  pose proof (new_fd_table_heap w2) as Eh. rewrite E3 in Eh. cbn [snd] in Eh. rewrite Eh.
  unfold kh_kmalloc, heap_c, real_heap. rewrite Ek. cbn [default from_option snd].
  destruct Hs3 as (l & b & ? & ? & ? & ?). exists l, b. unfold sizeof_fd_table in *. split_and!; try done. lia.
Qed.

Lemma sched_start_idle (s : sys kworld) : boot_wf s [] → ∃ s', sched_start s = Some s' ∧ w_heap (s_world s') = w_heap (s_world s).
Proof.
  intros ([Hq _ _ Hi] & _). pose proof (lk_head _ _ _ _ Hq) as Hh. simpl in Hh. unfold sched_start. assert (sched_ready_count s = Some 0) as ->.
  { unfold sched_ready_count. rewrite Hh. apply (loop_runs _ 1); [by apply runs_stop|done]. }
  rewrite bind_Some_eq. unfold sched_pick_next. cbn [run_queue_head idle_process says set_world].
  rewrite Hh, Hi. eexists. split; reflexivity.
Qed.

Lemma boot_spare : spare boot_heap 32768.
Proof.
  exists [], (Block (HEAP_INITIAL_SIZE - 32) false). split_and!; [exact boot_heap_wf|done|done|by vm_compute]. Qed.

Definition first_world (v : vfs) : kworld :=
  World v ∅ wit_console (Keyboard (repeat 0 256) 0 0 false false false false) (λ _, 0) (λ _, true) boot_heap.

Lemma first_roomy v : create_roomy (first_world v).
Proof. apply (spare_create _ 32768); [exact boot_spare|lia]. Qed.
Lemma first_heap_ok v : kh_ok (w_heap (first_world v)).
Proof. exact (ex_intro _ _ boot_heap_wf). Qed.

(** Start-up over this heap: the idle process, then the scheduler. *)
Lemma boot_runs v : ∃ s1 s2 s4, process_init (static_sys (first_world v)) 0x2000 = Some s1 ∧ sched_init s1 = Some s2
  ∧ sched_start s2 = Some s4 ∧ create_roomy (s_world s4).
Proof.
  destruct (spare_init (first_world v) 0x2000 32768 boot_spare ltac:(lia)) as (s1 & E1 & Hs1).
  assert (E2 : ∃ s2, sched_init s1 = Some s2 ∧ w_heap (s_world s2) = w_heap (s_world s1)).
  { unfold sched_init. rewrite (process_init_idle _ _ _ E1). eexists. split; reflexivity. }
  destruct E2 as (s2 & E2 & Eh2). destruct (sched_start_idle s2 (boot_init _ _ _ _ E1 E2)) as (s4 & E4 & Eh4).
  exists s1, s2, s4. split_and!; [done..|]. apply (spare_create _ 24268); [by rewrite Eh4, Eh2|lia].
Qed.
End RealHeap.

Import RealHeap.


(** ** A concrete run *)

(** The first process, with the string "/" in its memory. *)
Definition at_root : sys (world Z) := on_world (k4 booted) (λ w, set_mem w (λ a, if a =? 4096 then 47 else 0)).

(** Changing the working directory never works: [sys_chdir] compares the
    whole mode word with [S_IFDIR], but the mode [vfs_stat] reports carries the
    permission bits as well.  The root directory itself is refused with
    [ENOTDIR]. *)
Theorem sys_chdir_refuses_root :
  (fst <$> syscall_dispatch at_root SYS_CHDIR 4096 0 0) = Some (- ENOTDIR)
  ∧ (fst <$> syscall_dispatch at_root SYS_STAT 4096 8192 0) = Some 0.
Proof. vm_compute. repeat split. Qed.
