(* ===== verification/UserProc.v ===== *)
(** * User processes: kernel/user/user_process.c

    Building the address space of a user program: its code is copied into new
    page frames through the kernel's windows, its stack is zeroed, and both are
    mapped in a new address space (Vmm).  [memset] and [memcpy] are their effects
    [fill] and [copy] (StringLib).  [user_mode_enter], which leaves for user mode,
    is assembly and not modelled.

    The theorems show that a loaded program reads, through its own page tables,
    as the bytes of the image, that its stack is zero, and that no other address
    of any address space changes. *)

From Stdlib Require Import ZArith Lia.
From stdpp Require Import base numbers list relations.
From S2P Require Import Prelude.
From S2P Require Import Mem.
From S2P Require Import Pmm.
From S2P Require Import Vmm.
From S2P Require Import VmmSpec.
From S2P Require Import VmmUser.
From S2P Require Import Proc.

Definition PTE_NX : Z := Z.shiftl 1 63.
Definition USER_SPACE_START : Z := 0x400000.
Definition USER_STACK_TOP : Z := 0x00007FFFFFFFE000.
Definition USER_STACK_SIZE : Z := 16 * PAGE_SIZE.
Definition USER_CODE_BASE : Z := 0x400000.

(** The user-mode fields of a process. *)
Definition set_user_stack (base top : Z) (p : process_t) : process_t :=
  Process (pid p) (p_name p) (p_state p) (flags p) (kernel_stack p) (kernel_stack_top p) (rsp p) (entry p)
    (entry_arg p) (time_slice p) (priority p) (total_ticks p) (next p) (prev p) (exit_code p)
    (parent_pid p) (wake_tick p) (pml4_phys p) base top (user_rsp p)
    (user_code p) (user_code_size p) (fd_table p) (cwd p).
Definition set_user_code (code size : Z) (p : process_t) : process_t :=
  Process (pid p) (p_name p) (p_state p) (flags p) (kernel_stack p) (kernel_stack_top p) (rsp p) (entry p)
    (entry_arg p) (time_slice p) (priority p) (total_ticks p) (next p) (prev p) (exit_code p)
    (parent_pid p) (wake_tick p) (pml4_phys p) (user_stack p) (user_stack_top p) (user_rsp p)
    code size (fd_table p) (cwd p).
Definition set_flags (v : Z) (p : process_t) : process_t :=
  Process (pid p) (p_name p) (p_state p) v (kernel_stack p) (kernel_stack_top p) (rsp p) (entry p)
    (entry_arg p) (time_slice p) (priority p) (total_ticks p) (next p) (prev p) (exit_code p)
    (parent_pid p) (wake_tick p) (pml4_phys p) (user_stack p) (user_stack_top p) (user_rsp p)
    (user_code p) (user_code_size p) (fd_table p) (cwd p).
Definition set_pml4_phys (v : Z) (p : process_t) : process_t :=
  Process (pid p) (p_name p) (p_state p) (flags p) (kernel_stack p) (kernel_stack_top p) (rsp p) (entry p)
    (entry_arg p) (time_slice p) (priority p) (total_ticks p) (next p) (prev p) (exit_code p)
    (parent_pid p) (wake_tick p) v (user_stack p) (user_stack_top p) (user_rsp p)
    (user_code p) (user_code_size p) (fd_table p) (cwd p).

(** ** Operations *)

Section operations.
Context {F : Type} `{FrameSource F}.
Implicit Types s : vmm F.

Definition free_page s (page : Z) : vmm F := with_frames s (fr_free page (vm_frames s)).

(** One page of the stack; leaving the loop is a failure. *)
Definition stack_step (root stack_base i : Z) s : ctl (vmm F) (vmm F) :=
  let '(page, s) := alloc_page s in
  if page =? 0 then Stop s
  else
    let s := with_mem s (fill (vm_mem s) (PHYS_TO_VIRT page) 0 PAGE_SIZE) in
    match vmm_map_user_page s root (stack_base +64 u32 (i * PAGE_SIZE)) page (Z.lor PTE_USER_RW PTE_NX) with
    | (true, s) => Next s
    | (false, s) => Stop (free_page s page)
    end.

(** A NULL process is [None]. *)
Definition user_stack_alloc s (proc : option process_t) : bool * option process_t * vmm F :=
  match proc with
  | None => (false, None, s)
  | Some p =>
      if pml4_phys p =? 0 then (false, Some p, s)
      else
        let stack_base := USER_STACK_TOP -64 USER_STACK_SIZE in
        let pages := u32 (USER_STACK_SIZE / PAGE_SIZE) in
        match for_ 0 pages (stack_step (pml4_phys p) stack_base) s with
        | Stop s => (false, Some p, s)
        | Next s =>
            (true, Some (set_user_stack stack_base (Z.land (USER_STACK_TOP -64 16) (Z.lnot 0xF)) p), s)
        end
  end.

Definition user_stack_free s (proc : option process_t) : option process_t * vmm F :=
  match proc with
  | None => (None, s)
  | Some p =>
      if (pml4_phys p =? 0) || (user_stack p =? 0) then (Some p, s)
      else
        let stack_base := user_stack p in
        let pages := u32 (USER_STACK_SIZE / PAGE_SIZE) in
        let current_cr3 := cr3 s in
        let s := vmm_switch_address_space s (pml4_phys p) in
        let s := for_each 0 pages (λ i s,
                   let phys := vmm_get_physical s (stack_base +64 u32 (i * PAGE_SIZE)) in
                   if negb (phys =? 0) then free_page s phys else s) s in
        let s := vmm_switch_address_space s current_cr3 in
        (Some (set_user_stack 0 0 p), s)
  end.

(** The part of the code that goes into page [i]: the memory and the number of
    bytes copied so far. *)
Definition copy_code (code code_size offset i dst bytes_copied : Z) (m : mem) : Z * mem :=
  if bytes_copied <? code_size then
    let page_offset := if i =? 0 then offset else 0 in
    let to_copy := PAGE_SIZE -64 page_offset in
    let to_copy := if code_size -64 bytes_copied <? to_copy then code_size -64 bytes_copied else to_copy in
    (bytes_copied +64 to_copy, copy m (dst +64 page_offset) (code +64 bytes_copied) to_copy)
  else (bytes_copied, m).

Definition load_step (root code code_size code_base offset i : Z) (st : Z * vmm F) : ctl (Z * vmm F) (vmm F) :=
  let '(bytes_copied, s) := st in
  let '(page, s) := alloc_page s in
  if page =? 0 then Stop s
  else
    let dst := PHYS_TO_VIRT page in
    let '(bytes_copied, m) := copy_code code code_size offset i dst bytes_copied (fill (vm_mem s) dst 0 PAGE_SIZE) in
    match vmm_map_user_page (with_mem s m) root (code_base +64 u32 (i * PAGE_SIZE)) page (Z.lor PTE_PRESENT PTE_USER) with
    | (true, s) => Next (bytes_copied, s)
    | (false, s) => Stop (free_page s page)
    end.

Definition user_load_code s (proc : option process_t) (code code_size entry : Z) : bool * option process_t * vmm F :=
  match proc with
  | None => (false, None, s)
  | Some p =>
      if (code =? 0) || (code_size =? 0) || (pml4_phys p =? 0) then (false, Some p, s)
      else if (USER_SPACE_END <=? entry) || (entry <? USER_SPACE_START) then (false, Some p, s)
      else
        let code_base := ALIGN_DOWN entry PAGE_SIZE in
        let aligned_size := ALIGN_UP (code_size +64 (entry -64 code_base)) PAGE_SIZE in
        let pages := u32 (aligned_size / PAGE_SIZE) in
        let offset := entry -64 code_base in
        match for_ 0 pages (load_step (pml4_phys p) code code_size code_base offset) (0, s) with
        | Stop s => (false, Some p, s)
        | Next (_, s) => (true, Some (set_user_code entry code_size p), s)
        end
  end.

End operations.

Section create.
Context {F W : Type} `{FrameSource F} `{ProcEnv W}.

Definition PID_ERROR : Z := u64 (-1).

(** [process_t temp_proc = {0}] *)
Definition zero_process : process_t :=
  Process 0 [] PROCESS_STATE_UNUSED 0 0 0 0 0 0 0 0 0 None None 0 0 0 0 0 0 0 0 0 0 [].

(** [user_process_entry] is the address of the function of that name. *)
Definition user_process_create (v : vmm F) (s : sys W) (name : option (list Z)) (code code_size user_process_entry : Z) :
    Z * vmm F * sys W :=
  let '(pml4, v) := vmm_create_address_space v in
  if pml4 =? 0 then (PID_ERROR, v, s)
  else
    let temp_proc := set_pml4_phys pml4 zero_process in
    let '(ok, temp, v) := user_load_code v (Some temp_proc) code code_size USER_CODE_BASE in
    if negb ok then (PID_ERROR, vmm_destroy_address_space v pml4, s)
    else
      let '(ok, temp, v) := user_stack_alloc v temp in
      if negb ok then (PID_ERROR, vmm_destroy_address_space v pml4, s)
      else
        let temp_proc := default temp_proc temp in
        let '(r, s) := process_create s name user_process_entry 0 in
        let pid := default PID_ERROR r in
        if pid =? PID_ERROR then (PID_ERROR, vmm_destroy_address_space v pml4, s)
        else match process_get s pid with
        | None => (PID_ERROR, vmm_destroy_address_space v pml4, s)
        | Some i =>
            let s := on s i (λ p, set_flags (Z.lor (flags p) PROCESS_FLAG_USER) p) in
            let s := on s i (set_pml4_phys pml4) in
            let s := on s i (set_user_stack (user_stack temp_proc) (user_stack_top temp_proc)) in
            let s := on s i (set_user_code (user_code temp_proc) (user_code_size temp_proc)) in
            (pid, v, s)
        end.

(** [user_process_entry] up to the change to user mode: the address space of
    the current process, and the entry point and stack pointer it starts with. *)
Definition user_process_entry (v : vmm F) (s : sys W) : option (Z * Z) * vmm F :=
  match current_process s with
  | None => (None, v)
  | Some c =>
      let p := process_table s c in
      (Some (user_code p, user_stack_top p), vmm_switch_address_space v (pml4_phys p))
  end.

End create.

(** ** Placing a page *)

Section placing.
Context {F : Type} `{FrameLaws F}.
Implicit Types s : vmm F.

(** [s'] comes from [s] by operations on user spaces. *)
Record placed s (T K : family) s' (T' : family) : Prop := {
  pl_inv : vmm_inv s' T';
  pl_private : private s' T' K;
  pl_sub l p : T l p → T' l p;
  pl_same : kernel_same s s' K;
  pl_keeps : keeps s T s' T';
  pl_ways : ways s T s';
  pl_root : vmm_pml4_phys s' = vmm_pml4_phys s
}.

Lemma placed_refl s T K : vmm_inv s T → private s T K → placed s T K s T.
Proof. intros Hinv HK. split; [done|done|done|done|apply keeps_refl|by intros l p va|done]. Qed.

Lemma placed_trans s T K s1 T1 s2 T2 : placed s T K s1 T1 → placed s1 T1 K s2 T2 → placed s T K s2 T2.
Proof.
  intros [A1 A2 A3 A4 A5 A6 A7] [B1 B2 B3 B4 B5 B6 B7]. split; [done|done|auto| | | |congruence].
  - by eapply kernel_same_trans.
  - by eapply keeps_trans.
  - by eapply ways_trans.
Qed.

(** A fresh frame [q] with contents [m]. *)
Lemma fresh_page s T K q s1 m :
  vmm_inv s T → private s T K → alloc_page s = (q, s1) → q ≠ 0 → mem_wf m →
  (∀ a, a < PHYS_TO_VIRT q ∨ PHYS_TO_VIRT q + PAGE_SIZE <= a → m a = vm_mem s a) →
  placed s T K (with_mem s1 m) T ∧ is_frame q ∧ ¬ fr_used (vm_frames s) q
  ∧ (∀ l p va, T l p → va_ok va → walk (ent (with_mem s1 m)) l p va = walk (ent s) l p va)
  ∧ ∀ a, PHYS_TO_VIRT q <= a < PHYS_TO_VIRT q + PAGE_SIZE → untouched (with_mem s1 m) T a.
Proof.
  intros Hinv HK Ea Hq0 Hm Hout.
  destruct (alloc_page_cases s T q s1 Hinv Ea) as (Hinv1 & Hm1 & Hp1 & Hr1 & Hmono & Hans & Hfresh).
  destruct (Hfresh Hq0) as (Hq & Hnu & Hu).
  assert (Heq : ∀ p i, is_frame p → p ≠ q → 0 <= i < 512 → pte m (PHYS_TO_VIRT p) i = pte (vm_mem s) (PHYS_TO_VIRT p) i).
  { intros p i Hp Hne Hi. apply load_ext. intros x Hx. apply Hout. pose proof (windows_apart p q Hp Hq Hne).
    unfold PAGE_SIZE. lia. }
  pose proof (other_frame_inv s T s1 m q Hinv Hinv1 Hm1 Hnu Hm Heq) as [Hi Hsame].
  pose proof (other_frame_grown s T s1 m q 0 0 Hinv Hinv1 Hm1 Hr1 Hmono (answered_requests _ _ _ Hans) Hnu Hm Heq) as Hg.
  assert (Hup : ∀ l p i, T (S (S l)) p → idx_ok (S (S l)) i → ent (with_mem s1 m) p i = ent s p i).
  { intros l p i Hp [Hix _]. by apply (Hsame (S (S l))). }
  split_and!; [|done..|exact (g_walk _ _ _ _ _ _ Hg)|].
  - split; [done|by apply (private_ext s)|done| | |by apply ways_ext|exact Hr1].
    + intros l p i Hp [Hix _]. apply (Hsame l); [by apply (k_sub _ _ _ HK)|done].
    + apply (keeps_frame _ _ _ _ q Hq); [done|done|by left|done].
  - intros a Ha p Hp Hap. destruct (decide (p = q)) as [->|Hne].
    + split; [done|]. by apply (fresh_not_table s).
    + pose proof (windows_apart p q Hp Hq Hne). unfold PAGE_SIZE in *. lia.
Qed.

(** A frame that is no table can be given back. *)
Lemma free_placed s T K s' T' q :
  placed s T K s' T' → is_frame q → ¬ fr_used (vm_frames s) q → (∀ l, ¬ T' l q) →
  placed s T K (free_page s' q) T'.
Proof.
  intros [P1 P2 P3 P4 P5 P6 P7] Hq Hnu Hnt. destruct P1 as [V1 V2 V3 V4 V5].
  destruct (fr_free_law (vm_frames s') q V1) as (Hok & _ & _ & Hkeep); [destruct Hq; lia|].
  split; try done.
  - split; try done. destruct V3 as [T1 T2 T3 T4 T5 T6]. split; try done.
    intros l p Hp. apply Hkeep; [done|by apply (T2 l)| |by apply (T3 l)]. intros ->. by apply (Hnt l).
  - by apply (private_ext s').
  - intros a Ha. destruct (P5 a Ha) as [E Hu]. split; [done|]. intros p Hp Hap. destruct (Hu p Hp Hap) as [Hup Hn].
    split; [|done]. apply Hkeep; [done|done| |done]. intros ->. by apply Hnu, (Ha q).
Qed.

(** A fresh frame with contents [m] is mapped at [virt] in the space [root]. *)
Lemma place_page s T K root virt fl q s1 m ok s' :
  vmm_inv s T → private s T K → T 4%nat root → ¬ K 4%nat root → 0 <= virt < USER_SPACE_END → page_flags fl →
  way (ent s) 4 root virt → alloc_page s = (q, s1) → q ≠ 0 → mem_wf m →
  (∀ a, a < PHYS_TO_VIRT q ∨ PHYS_TO_VIRT q + PAGE_SIZE <= a → m a = vm_mem s a) →
  vmm_map_user_page (with_mem s1 m) root virt q fl = (ok, s') →
  if ok then ∃ T', placed s T K s' T'
      ∧ (∀ rt va, T 4%nat rt → va_ok va → translate s' rt va =
           if decide (rt = root ∧ same_page va virt) then Some (q + va mod PAGE_SIZE) else translate s rt va)
      ∧ is_frame q
      ∧ ∀ a, PHYS_TO_VIRT q <= a < PHYS_TO_VIRT q + PAGE_SIZE → vm_mem s' a = m a ∧ untouched s' T' a
  else ∃ T', placed s T K (free_page s' q) T' ∧ starved
      ∧ ∀ rt va, T 4%nat rt → va_ok va → translate (free_page s' q) rt va = translate s rt va.
Proof.
  intros Hinv HK Hr Hnr Hv Hfl Hway Ea Hq0 Hm Hout E.
  destruct (fresh_page s T K q s1 m Hinv HK Ea Hq0 Hm Hout) as (P1 & Hq & Hnu & Hwalk & Hunt).
  pose proof P1 as [Hi1 HK1 _ _ _ W1 R1]. pose proof (W1 4%nat root virt Hr (user_va_ok virt Hv) Hway) as Hway1.
  apply way_iff in Hway1 as [H1 H2].
  pose proof (vmm_map_user_page_cases _ T K root virt q fl ok s' Hi1 HK1 Hr Hnr (proj1 Hv) Hfl H1 H2 E) as Hc.
  destruct ok.
  - destruct Hc as (T' & r & Es & _ & HR & HK' & HS' & Hk' & Hw' & _ & Hr'). exists T'. pose proof HR as [V1 V2 V3 _].
    split_and!; [eapply placed_trans; [exact P1|by split]| |done|].
    + intros rt va Hrt Hva. rewrite get_addr_id in HR by done.
      rewrite (user_remaps _ T K root virt q s' T' r V1 HK' Hr Hv Hr' Es HR rt va Hrt Hva). case_decide; [done|].
      by apply Hwalk.
    + intros a Ha. by destruct (Hk' a (Hunt a Ha)).
  - destruct Hc as (T' & [V1 V2 V3 V4] & HK' & HS' & Hk' & Hw' & Hst). exists T'. split_and!; [|exact (answered_starved _ _ (Hst (proj2 Hv)))|].
    + apply free_placed; [eapply placed_trans; [exact P1|by split]|done|done|].
      assert (Hin : PHYS_TO_VIRT q <= PHYS_TO_VIRT q < PHYS_TO_VIRT q + PAGE_SIZE) by (unfold PAGE_SIZE; lia).
      by apply (proj2 (Hk' _ (Hunt _ Hin)) q Hq Hin).
    + intros rt va Hrt Hva. unfold translate. assert (Ee : ent (free_page s' q) = ent s') by done.
      rewrite Ee, V3 by done. by apply Hwalk.
Qed.

(** ** Areas of pages *)

Lemma same_page_small va va' : 0 <= va < 2 ^ 48 → 0 <= va' < 2 ^ 48 → same_page va va' ↔ va / PAGE_SIZE = va' / PAGE_SIZE.
Proof.
  intros Hv Hv'. unfold same_page, PAGE_SIZE.
  assert (∀ x, 0 <= x < 2 ^ 48 → (x / 4096) mod 2 ^ 36 = x / 4096) as E.
  { intros x Hx. apply Z.mod_small. split; [apply Z.div_pos; lia|apply Z.div_lt_upper_bound; lia]. }
  by rewrite !E.
Qed.

Lemma window_off q off : is_frame q → 0 <= off < PAGE_SIZE → PHYS_TO_VIRT (q + off) = PHYS_TO_VIRT q + off.
Proof.
  intros Hq Ho. pose proof (window_val q Hq) as Hw. destruct Hq as [Hm Hq]. unfold PAGE_SIZE in *.
  pose proof (Z.div_mod q 4096 ltac:(lia)). unfold PHYS_TO_VIRT, KERNEL_VIRT_BASE, u64 in *.
  destruct Hw as [[Hw Hlt]|[Hw Hge]]; rewrite Hw.
  - rewrite Z.mod_small; lia.
  - rewrite <- (Z_mod_plus_full _ (-1)), Z.mod_small; lia.
Qed.

(** The [n] pages from [base] on of the space [root] hold [content]; the rest is
    as in [s]. *)
Record area s (T K : family) (root base n : Z) (content : Z → Z) s' (T' : family) : Prop := {
  ar_placed : placed s T K s' T';
  ar_bytes k : 0 <= k < n * PAGE_SIZE →
    ∃ pa, translate s' root (base + k) = Some pa ∧ vm_mem s' (PHYS_TO_VIRT pa) = content k
          ∧ untouched s' T' (PHYS_TO_VIRT pa);
  ar_rest rt va : T 4%nat rt → va_ok va →
    ¬ (rt = root ∧ ∃ i, 0 <= i < n ∧ same_page va (base + i * PAGE_SIZE)) → translate s' rt va = translate s rt va
}.

Lemma area_nil s T K root base content : vmm_inv s T → private s T K → area s T K root base 0 content s T.
Proof. intros Hinv HK. split; [by apply placed_refl|lia|done]. Qed.

Lemma area_grow s T K root base n content s1 T1 s' T' q :
  area s T K root base n content s1 T1 → T 4%nat root → base mod PAGE_SIZE = 0 → 0 <= base → 0 <= n →
  base + (n + 1) * PAGE_SIZE <= USER_SPACE_END → placed s1 T1 K s' T' →
  (∀ rt va, T1 4%nat rt → va_ok va → translate s' rt va =
     if decide (rt = root ∧ same_page va (base + n * PAGE_SIZE)) then Some (q + va mod PAGE_SIZE) else translate s1 rt va) →
  is_frame q →
  (∀ off, 0 <= off < PAGE_SIZE → vm_mem s' (PHYS_TO_VIRT q + off) = content (n * PAGE_SIZE + off)
     ∧ untouched s' T' (PHYS_TO_VIRT q + off)) →
  area s T K root base (n + 1) content s' T'.
Proof.
  intros [A1 A2 A3] Hr Hal Hb Hn Hend P Htr Hq Hpage. pose proof (pl_sub _ _ _ _ _ A1) as Hsub.
  unfold USER_SPACE_END in Hend. split; [by eapply placed_trans| |].
  - intros k Hk. assert (Hva : va_ok (base + k)) by (apply user_va_ok; unfold USER_SPACE_END, PAGE_SIZE in *; lia).
    rewrite (Htr root (base + k)) by (done || by apply Hsub).
    assert (Hsame : same_page (base + k) (base + n * PAGE_SIZE) ↔ n * PAGE_SIZE <= k).
    { rewrite same_page_small by (unfold PAGE_SIZE in *; lia). rewrite Z.div_add by done. unfold PAGE_SIZE in *.
      pose proof (Z.div_mod base 4096 ltac:(lia)). pose proof (Z.div_mod (base + k) 4096 ltac:(lia)).
      pose proof (Z.mod_pos_bound (base + k) 4096 ltac:(lia)). lia. }
    case_decide as E.
    + destruct E as [_ E]. rewrite Hsame in E. eexists. split; [done|].
      assert (Hmod : (base + k) mod PAGE_SIZE = k - n * PAGE_SIZE).
      { symmetry. apply (Z.mod_unique _ _ (base / PAGE_SIZE + n)); unfold PAGE_SIZE in *; [lia|].
        pose proof (Z.div_mod base 4096 ltac:(lia)). lia. }
      rewrite Hmod, window_off by (done || unfold PAGE_SIZE in *; lia).
      destruct (Hpage (k - n * PAGE_SIZE)) as [C U]; [unfold PAGE_SIZE in *; lia|]. split; [|done]. rewrite C. f_equal. lia.
    + assert (Hlt : ¬ n * PAGE_SIZE <= k) by (rewrite <- Hsame; tauto).
      destruct (A2 k) as (pa & E1 & E2 & E3); [lia|]. exists pa.
      destruct (pl_keeps _ _ _ _ _ P _ E3) as [Ek Eu]. by rewrite Ek.
  - intros rt va Hrt Hva Hno. rewrite Htr by (done || by apply Hsub). rewrite decide_False.
    + apply A3; [done|done|]. intros (-> & i & Hi & Hs). apply Hno. split; [done|]. exists i. split; [lia|done].
    + intros [-> Hs]. apply Hno. split; [done|]. exists n. split; [lia|done].
Qed.

(** ** The loops *)

(** What is needed of the way to the pages. *)
Definition ways_to s (root base n : Z) : Prop := ∀ i, 0 <= i < n → way (ent s) 4 root (base + i * PAGE_SIZE).

Lemma area_way s T K root base n content s1 T1 i N :
  area s T K root base n content s1 T1 → T 4%nat root → ways_to s root base N → 0 <= i < N →
  0 <= base + i * PAGE_SIZE < USER_SPACE_END → way (ent s1) 4 root (base + i * PAGE_SIZE).
Proof.
  intros [A _ _] Hr Hw Hi Hb. apply (pl_ways _ _ _ _ _ A); [done|by apply user_va_ok|by apply Hw].
Qed.

(** A loop left early: the pages up to some point are mapped. *)
Definition stopped s (T K : family) (root base N : Z) (content : Z → Z) s' : Prop :=
  starved ∧ ∃ n T', 0 <= n < N ∧ area s T K root base n content s' T'.

Lemma area_stop s T K root base n content s1 T1 s' T' N :
  area s T K root base n content s1 T1 → 0 <= n < N → placed s1 T1 K s' T' →
  (∀ rt va, T1 4%nat rt → va_ok va → translate s' rt va = translate s1 rt va) →
  T 4%nat root → 0 <= base → base + n * PAGE_SIZE <= USER_SPACE_END → area s T K root base n content s' T'.
Proof.
  intros [A1 A2 A3] Hn P Htr Hr Hb Hend. pose proof (pl_sub _ _ _ _ _ A1) as Hsub. split; [by eapply placed_trans| |].
  - intros k Hk. destruct (A2 k Hk) as (pa & E1 & E2 & E3). exists pa.
    destruct (pl_keeps _ _ _ _ _ P _ E3) as [Ek Eu]. rewrite Htr, Ek by (auto; apply user_va_ok; lia). done.
  - intros rt va Hrt Hva Hno. rewrite Htr by auto. by apply A3.
Qed.

Lemma alloc_placed s T K q s1 : vmm_inv s T → private s T K → alloc_page s = (q, s1) → q = 0 → placed s T K s1 T.
Proof.
  intros Hinv HK Ea Eq. pose proof (alloc_refused s T q s1 Hinv Ea Eq) as Href.
  destruct (private_refused _ _ _ _ HK Href) as [HK' HS]. destruct Href as ([X1 X2 X3 X4] & E & Hk & _).
  split; try done. intros l p va Hp Hv. by rewrite E.
Qed.

Section loop.
Context (s : vmm F) (T K : family) (root base N : Z) (content : Z → Z).
Context (Hr : T 4%nat root) (Hnr : ¬ K 4%nat root) (Hal : base mod PAGE_SIZE = 0) (Hb : 0 <= base).
Context (Hend : base + N * PAGE_SIZE <= USER_SPACE_END) (Hw : ways_to s root base N).
Context (n : Z) (s1 : vmm F) (T1 : family) (q : Z) (s2 : vmm F).
Context (A : area s T K root base n content s1 T1) (Hn : 0 <= n < N) (Ea : alloc_page s1 = (q, s2)).

Lemma area_no_page : q = 0 → stopped s T K root base N content s2.
Proof.
  intros ->. pose proof (ar_placed _ _ _ _ _ _ _ _ _ A) as [Hi1 HK1 _ _ _ _ _].
  split; [exact (alloc_starved s1 T1 s2 Hi1 Ea)|]. exists n, T1. split; [done|].
  apply (area_stop s T K root base n _ s1 T1 s2 T1 N);
    [done|done|by apply (alloc_placed s1 T1 K 0)| |done|done|unfold PAGE_SIZE in *; lia].
  intros rt va _ _. destruct (alloc_refused s1 T1 0 s2 Hi1 Ea eq_refl) as (_ & Ee & _). unfold translate. by rewrite Ee.
Qed.

Lemma area_page m fl ok s3 :
  q ≠ 0 → mem_wf m → page_flags fl →
  (∀ a, a < PHYS_TO_VIRT q ∨ PHYS_TO_VIRT q + PAGE_SIZE <= a → m a = vm_mem s1 a) →
  (∀ off, 0 <= off < PAGE_SIZE → m (PHYS_TO_VIRT q + off) = content (n * PAGE_SIZE + off)) →
  vmm_map_user_page (with_mem s2 m) root (base + n * PAGE_SIZE) q fl = (ok, s3) →
  if ok then ∃ T', area s T K root base (n + 1) content s3 T'
  else stopped s T K root base N content (free_page s3 q).
Proof.
  intros Hq0 Hwf Hfl Hout Hin E. pose proof (ar_placed _ _ _ _ _ _ _ _ _ A) as [Hi1 HK1 Hsub _ _ _ _].
  assert (Hva : 0 <= base + n * PAGE_SIZE < USER_SPACE_END) by (unfold PAGE_SIZE in *; lia).
  pose proof (place_page s1 T1 K root _ _ q s2 m ok s3 Hi1 HK1 (Hsub _ _ Hr) Hnr Hva Hfl
    (area_way _ _ _ _ _ _ _ _ _ n N A Hr Hw Hn Hva) Ea Hq0 Hwf Hout E) as Hc.
  destruct ok.
  - destruct Hc as (T' & P' & Htr & Hq & Hby). exists T'.
    apply (area_grow s T K root base n _ s1 T1 s3 T' q A Hr Hal Hb); [lia|unfold PAGE_SIZE in *; lia|done|done|done|].
    intros off Ho. destruct (Hby (PHYS_TO_VIRT q + off)) as [Em Eu]; [lia|]. rewrite Em. split; [|done]. by apply Hin.
  - destruct Hc as (T' & P' & Hst & Htr). split; [done|]. exists n, T'. split; [done|].
    apply (area_stop s T K root base n _ s1 T1 _ T' N); [done|done|done|done|done|done|unfold PAGE_SIZE in *; lia].
Qed.

End loop.

(** The address of page [i], computed with a 32-bit product. *)
Lemma page_addr base i N :
  0 <= base → base + N * PAGE_SIZE <= USER_SPACE_END → 0 <= i < N → N < 2 ^ 20 →
  base +64 u32 (i * PAGE_SIZE) = base + i * PAGE_SIZE.
Proof.
  intros Hb Hend Hi HN. unfold USER_SPACE_END, u32, u64, PAGE_SIZE in *. rewrite (Z.mod_small (i * 4096)) by lia.
  apply Z.mod_small. lia.
Qed.

Lemma fill_out m q v a : a < q ∨ q + PAGE_SIZE <= a → fill m q v PAGE_SIZE a = m a.
Proof. intros Ha. unfold fill. by rewrite (proj2 (in_range_false _ _ _)). Qed.
Lemma fill_in m q v a : q <= a < q + PAGE_SIZE → fill m q v PAGE_SIZE a = u8 v.
Proof. intros Ha. unfold fill. by rewrite (proj2 (in_range_true _ _ _)). Qed.

Lemma stack_loop s T K root base N :
  vmm_inv s T → private s T K → T 4%nat root → ¬ K 4%nat root → base mod PAGE_SIZE = 0 → 0 <= base →
  base + N * PAGE_SIZE <= USER_SPACE_END → ways_to s root base N → 0 <= N < 2 ^ 20 →
  match for_ 0 N (stack_step root base) s with
  | Next s' => ∃ T', area s T K root base N (λ _, 0) s' T'
  | Stop s' => stopped s T K root base N (λ _, 0) s'
  end.
Proof.
  intros Hinv HK Hr Hnr Hal Hb Hend Hw HN.
  apply (for_inv_out (λ n s1, ∃ T1, area s T K root base n (λ _, 0) s1 T1)); [lia|by exists T; apply area_nil|].
  intros n s1 Hn (T1 & A). pose proof (ar_placed _ _ _ _ _ _ _ _ _ A) as [Hi1 _ _ _ _ _ _].
  unfold stack_step. destruct (alloc_page s1) as [q s2] eqn:Ea. destruct (Z.eqb_spec q 0) as [Eq|Hq0]; [by eapply area_no_page|].
  destruct (alloc_page_cases s1 T1 q s2 Hi1 Ea) as (_ & Hm2 & _). rewrite (page_addr base n N), Hm2 by (done || lia).
  destruct (vmm_map_user_page _ _ _ _ _) as [ok s3] eqn:E.
  assert (Hc : if ok then ∃ T', area s T K root base (n + 1) (λ _, 0) s3 T'
               else stopped s T K root base N (λ _, 0) (free_page s3 q)); [|by destruct ok].
  eapply area_page; [done..|apply mem_wf_fill, (vi_mem _ _ Hi1)| | | |exact E]; [done|apply fill_out|].
  intros off Ho. apply (fill_in _ _ 0). lia.
Qed.

(** ** Copying the code *)

Section image.
Context (code size offset : Z) (src : Z → Z).
Context (Hsize : 0 < size < 2 ^ 32) (Hoff : 0 <= offset < PAGE_SIZE) (Hcode : 0 <= code) (Hcend : code + size < 2 ^ 64).

(** The bytes copied before page [i], and what the pages hold in the end. *)
Definition progress (i : Z) : Z := Z.max 0 (Z.min size (i * PAGE_SIZE - offset)).
Definition image (k : Z) : Z := if in_range offset size k then src (k - offset) else 0.

Lemma copy_code_copies i dst m :
  0 <= i < 2 ^ 32 → 0 <= dst → dst + PAGE_SIZE <= 2 ^ 64 → progress i < size →
  let page_offset := if i =? 0 then offset else 0 in
  copy_code code size offset i dst (progress i) m =
    (progress (i + 1), copy m (dst + page_offset) (code + progress i) (progress (i + 1) - progress i))
  ∧ progress i + offset = i * PAGE_SIZE + page_offset
  ∧ progress i < progress (i + 1) <= size ∧ page_offset + (progress (i + 1) - progress i) <= PAGE_SIZE
  ∧ (progress (i + 1) = size ∨ page_offset + (progress (i + 1) - progress i) = PAGE_SIZE).
Proof.
  intros Hi Hd Hdend Hlt page_offset.
  assert (Hpo : 0 <= page_offset < PAGE_SIZE ∧ progress i + offset = i * PAGE_SIZE + page_offset).
  { unfold page_offset, progress, PAGE_SIZE in *. destruct (Z.eqb_spec i 0); lia. }
  assert (Hp : progress (i + 1) = Z.min size (progress i + (PAGE_SIZE - page_offset))) by (unfold progress, PAGE_SIZE in *; lia).
  assert (Hp0 : 0 <= progress i) by (unfold progress; lia).
  split_and!; [|lia|unfold PAGE_SIZE in *; lia|lia|lia|lia].
  unfold copy_code. rewrite (proj2 (Z.ltb_lt _ _) Hlt). fold page_offset. unfold PAGE_SIZE in *.
  rewrite !(u64_id (4096 - page_offset)), !(u64_id (size - progress i)) by lia.
  rewrite (u64_id (dst + page_offset)), (u64_id (code + progress i)) by lia.
  destruct (Z.ltb_spec (size - progress i) (4096 - page_offset)); rewrite u64_id by lia; do 2 f_equal; lia.
Qed.

Lemma copy_code_spec i dst m m' c' :
  0 <= i < 2 ^ 32 → 0 <= dst → dst + PAGE_SIZE <= 2 ^ 64 → mem_wf m →
  (∀ j, 0 <= j < size → m (code + j) = src j ∧ (code + j < dst ∨ dst + PAGE_SIZE <= code + j)) →
  copy_code code size offset i dst (progress i) (fill m dst 0 PAGE_SIZE) = (c', m') →
  c' = progress (i + 1) ∧ mem_wf m' ∧ (∀ a, a < dst ∨ dst + PAGE_SIZE <= a → m' a = m a)
  ∧ ∀ off, 0 <= off < PAGE_SIZE → m' (dst + off) = image (i * PAGE_SIZE + off).
Proof.
  intros Hi Hd Hdend Hm Hsrc. pose proof (mem_wf_fill m dst 0 PAGE_SIZE Hm) as Hm1.
  destruct (Z.lt_ge_cases (progress i) size) as [Hlt|Hge].
  - destruct (copy_code_copies i dst (fill m dst 0 PAGE_SIZE) Hi Hd Hdend Hlt) as (-> & Hpos & Hpr & Hfit & Hfull).
    set (po := if i =? 0 then offset else 0) in *. set (n := progress (i + 1) - progress i) in *.
    assert (Hpo : 0 <= po) by (unfold po; case_match; lia). assert (Hp0 : 0 <= progress i) by (unfold progress; lia).
    intros [= <- <-]. split_and!; [done|by apply mem_wf_copy| |].
    + intros a Ha. unfold copy. rewrite (proj2 (in_range_false _ _ _)) by lia. by apply fill_out.
    + intros off Ho. unfold copy, image. range_cases.
      * replace (code + progress i + (dst + off - (dst + po))) with (code + (i * PAGE_SIZE + off - offset)) by lia.
        destruct (Hsrc (i * PAGE_SIZE + off - offset)) as [E Hout]; [lia|]. rewrite <- E. by apply fill_out.
      * lia.
      * exfalso. unfold PAGE_SIZE in *. destruct (decide (i = 0)) as [->|]; [unfold po in *; simpl in *; lia|].
        assert (po = 0) by (unfold po; by destruct (Z.eqb_spec i 0)). lia.
      * apply (fill_in _ _ 0). lia.
  - unfold copy_code. rewrite (proj2 (Z.ltb_ge _ _) Hge). intros [= <- <-].
    split_and!; [unfold progress, PAGE_SIZE in *; lia|done|intros; by apply fill_out|].
    intros off Ho. rewrite fill_in by lia. unfold image. rewrite (proj2 (in_range_false _ _ _)); [done|].
    unfold progress, PAGE_SIZE in *. lia.
Qed.

Lemma progress_0 : progress 0 = 0.
Proof. unfold progress, PAGE_SIZE in *. lia. Qed.

End image.

Lemma window_range q : is_frame q → 0 <= PHYS_TO_VIRT q ∧ PHYS_TO_VIRT q + PAGE_SIZE <= 2 ^ 64.
Proof.
  intros Hq. pose proof (window_val q Hq) as Hw. destruct Hq as [Hm Hq]. unfold PAGE_SIZE, KERNEL_VIRT_BASE in *.
  pose proof (Z.div_mod q 4096 ltac:(lia)). lia.
Qed.

Lemma load_loop s T K root base N code size offset :
  vmm_inv s T → private s T K → T 4%nat root → ¬ K 4%nat root → base mod PAGE_SIZE = 0 → 0 <= base →
  base + N * PAGE_SIZE <= USER_SPACE_END → ways_to s root base N → 0 <= N < 2 ^ 20 →
  0 < size < 2 ^ 32 → 0 <= offset < PAGE_SIZE → 0 <= code → code + size < 2 ^ 64 →
  (∀ j, 0 <= j < size → untouched s T (code + j)) →
  let content := image size offset (λ j, vm_mem s (code + j)) in
  match for_ 0 N (load_step root code size base offset) (0, s) with
  | Next st => ∃ T', area s T K root base N content st.2 T'
  | Stop s' => stopped s T K root base N content s'
  end.
Proof.
  intros Hinv HK Hr Hnr Hal Hb Hend Hw HN Hsize Hoff Hcode Hcend Hun content.
  pose proof (for_inv_out (λ n st, st.1 = progress size offset n ∧ ∃ T1, area s T K root base n content st.2 T1)
    (stopped s T K root base N content) 0 N (load_step root code size base offset) (0, s)) as Hl.
  enough (match for_ 0 N (load_step root code size base offset) (0, s) with
    | Next st => st.1 = progress size offset N ∧ ∃ T1, area s T K root base N content st.2 T1
    | Stop s' => stopped s T K root base N content s' end) as Hgoal by (by destruct (for_ _ _ _ _); [destruct Hgoal|]).
  apply Hl; [lia|split; [by rewrite progress_0|by exists T; apply area_nil]|]. clear Hl.
  intros n [c s1] Hn [Ec (T1 & A)]. simpl in Ec, A. subst c. pose proof (ar_placed _ _ _ _ _ _ _ _ _ A) as [Hi1 _ _ _ Hk1 _ _].
  unfold load_step. destruct (alloc_page s1) as [q s2] eqn:Ea. destruct (Z.eqb_spec q 0) as [Eq|Hq0]; [by eapply area_no_page|].
  destruct (alloc_page_cases s1 T1 q s2 Hi1 Ea) as (_ & Hm2 & _ & _ & _ & _ & Hfresh). destruct (Hfresh Hq0) as (Hq & Hnu & _).
  destruct (window_range q Hq) as [Wlo Whi]. rewrite Hm2, (page_addr base n N) by (done || lia).
  destruct (copy_code _ _ _ _ _ _ _) as [c' m] eqn:Ecc.
  destruct (copy_code_spec code size offset (λ j, vm_mem s (code + j)) Hsize Hoff Hcode Hcend n (PHYS_TO_VIRT q) (vm_mem s1) m c')
    as (-> & Hmw & Hout & Hin); [lia|done|done|exact (vi_mem _ _ Hi1)| |done|].
  { intros j Hj. destruct (Hk1 _ (Hun j Hj)) as [Em Hu]. split; [done|].
    destruct (Z.lt_ge_cases (code + j) (PHYS_TO_VIRT q)); [by left|right].
    destruct (Z.lt_ge_cases (code + j) (PHYS_TO_VIRT q + PAGE_SIZE)); [|done]. by destruct (Hu q Hq ltac:(lia)). }
  destruct (vmm_map_user_page _ _ _ _ _) as [ok s3] eqn:E.
  assert (Hc : if ok then ∃ T', area s T K root base (n + 1) content s3 T'
               else stopped s T K root base N content (free_page s3 q)); [|by destruct ok].
  by eapply area_page; [..|exact E].
Qed.

(** ** Loading code, and the stack *)

(** The number of pages that [size] bytes at [entry] lie in. *)
Definition page_count (entry size : Z) : Z := (entry mod PAGE_SIZE + size + (PAGE_SIZE - 1)) / PAGE_SIZE.

Lemma page_count_bound entry size :
  0 < size < 2 ^ 32 - 2 * PAGE_SIZE →
  0 < page_count entry size < 2 ^ 20 ∧ entry mod PAGE_SIZE + size <= page_count entry size * PAGE_SIZE
  < entry mod PAGE_SIZE + size + PAGE_SIZE.
Proof.
  intros Hs. unfold page_count, PAGE_SIZE in *. pose proof (Z.mod_pos_bound entry 4096 ltac:(lia)).
  set (x := entry mod 4096 + size + (4096 - 1)). pose proof (Z.div_mod x 4096 ltac:(lia)).
  pose proof (Z.mod_pos_bound x 4096 ltac:(lia)). lia.
Qed.

(** The pages that the code works out. *)
Lemma load_pages entry size :
  0 <= entry < USER_SPACE_END → 0 < size < 2 ^ 32 - 2 * PAGE_SIZE →
  let code_base := ALIGN_DOWN entry PAGE_SIZE in
  code_base = entry - entry mod PAGE_SIZE ∧ entry -64 code_base = entry mod PAGE_SIZE
  ∧ u32 (ALIGN_UP (size +64 (entry -64 code_base)) PAGE_SIZE / PAGE_SIZE) = page_count entry size.
Proof.
  intros He Hs code_base. pose proof (Z.mod_pos_bound entry PAGE_SIZE ltac:(unfold PAGE_SIZE; lia)) as Hm.
  assert (Eb : code_base = entry - entry mod PAGE_SIZE) by apply ALIGN_DOWN_page.
  assert (Eo : entry -64 code_base = entry mod PAGE_SIZE) by (rewrite Eb, u64_id; unfold PAGE_SIZE in *; lia).
  split_and!; [done|done|]. rewrite Eo. destruct (page_count_bound entry size Hs) as [Hb _].
  rewrite (u64_id (size + _)) by (unfold PAGE_SIZE in *; lia). rewrite ALIGN_UP_page by (unfold PAGE_SIZE in *; lia).
  replace (size + entry mod PAGE_SIZE + 4095) with (entry mod PAGE_SIZE + size + (PAGE_SIZE - 1)) by (unfold PAGE_SIZE; lia).
  rewrite page_base by (unfold PAGE_SIZE in *; lia). unfold u32, page_count in *. apply Z.mod_small. lia.
Qed.

Lemma user_load_code_cases s T K p code size entry ok p' s' :
  let root := pml4_phys p in
  let base := entry - entry mod PAGE_SIZE in
  let N := page_count entry size in
  let content := image size (entry mod PAGE_SIZE) (λ j, vm_mem s (code + j)) in
  vmm_inv s T → private s T K → T 4%nat root → ¬ K 4%nat root → root ≠ 0 →
  0 < code → code + size < 2 ^ 64 → 0 < size < 2 ^ 32 - 2 * PAGE_SIZE →
  USER_SPACE_START <= entry → base + N * PAGE_SIZE <= USER_SPACE_END →
  ways_to s root base N → (∀ j, 0 <= j < size → untouched s T (code + j)) →
  user_load_code s (Some p) code size entry = (ok, p', s') →
  if ok then p' = Some (set_user_code entry size p) ∧ ∃ T', area s T K root base N content s' T'
  else p' = Some p ∧ stopped s T K root base N content s'.
Proof.
  intros root base N content Hinv HK Hr Hnr Hr0 Hc Hcend Hs Hst Hend Hw Hun.
  pose proof (Z.mod_pos_bound entry PAGE_SIZE ltac:(unfold PAGE_SIZE; lia)) as Hm.
  destruct (page_count_bound entry size Hs) as [HN HN']. unfold USER_SPACE_START in Hst.
  assert (He : 0 <= entry < USER_SPACE_END) by (subst base N; unfold PAGE_SIZE in *; lia).
  unfold user_load_code. rewrite (proj2 (Z.eqb_neq code 0)), (proj2 (Z.eqb_neq size 0)), (proj2 (Z.eqb_neq (pml4_phys p) 0) Hr0) by lia.
  rewrite (proj2 (Z.leb_gt USER_SPACE_END entry)), (proj2 (Z.ltb_ge entry USER_SPACE_START)) by (unfold USER_SPACE_START; lia).
  cbn [orb]. destruct (load_pages entry size He Hs) as (Eb & Eo & En). cbv zeta. rewrite En, Eo, Eb.
  fold base N root. assert (Hb : base mod PAGE_SIZE = 0) by (subst base; rewrite Zminus_mod_idemp_r, Z.sub_diag; done).
  pose proof (load_loop s T K root base N code size (entry mod PAGE_SIZE) Hinv HK Hr Hnr Hb) as Hl. cbv zeta in Hl.
  fold content in Hl. destruct (for_ 0 N _ _) as [[c s1]|s1]; intros [= <- <- <-];
    (split; [done|apply Hl; (done || unfold PAGE_SIZE in *; lia)]).
Qed.

Lemma user_stack_alloc_cases s T K p ok p' s' :
  let root := pml4_phys p in
  let base := USER_STACK_TOP - USER_STACK_SIZE in
  vmm_inv s T → private s T K → T 4%nat root → ¬ K 4%nat root → root ≠ 0 → ways_to s root base 16 →
  user_stack_alloc s (Some p) = (ok, p', s') →
  if ok then p' = Some (set_user_stack base (USER_STACK_TOP - 16) p) ∧ ∃ T', area s T K root base 16 (λ _, 0) s' T'
  else p' = Some p ∧ stopped s T K root base 16 (λ _, 0) s'.
Proof.
  intros root base Hinv HK Hr Hnr Hr0 Hw. unfold user_stack_alloc. rewrite (proj2 (Z.eqb_neq (pml4_phys p) 0) Hr0).
  change (USER_STACK_TOP -64 USER_STACK_SIZE) with base. change (u32 (USER_STACK_SIZE / PAGE_SIZE)) with 16.
  change (Z.land (USER_STACK_TOP -64 16) (Z.lnot 0xF)) with (USER_STACK_TOP - 16). fold root.
  pose proof (stack_loop s T K root base 16 Hinv HK Hr Hnr) as Hl.
  destruct (for_ 0 16 _ _) as [s1|s1]; intros [= <- <- <-]; (split; [done|by apply Hl]).
Qed.

(** An address of the [n] pages from [base] on. *)
Definition in_pages (base n va : Z) : Prop := ∃ i, 0 <= i < n ∧ same_page va (base + i * PAGE_SIZE).

(** ** Theorems *)

(** Loading a program.  When [user_load_code] succeeds, the program's
    address space reads, from [entry] on, as the image that lies in kernel memory
    at [code]; it fails only when a page frame was refused.  Either way the
    kernel's tables and the bytes of used frames are untouched, and no address
    outside the program's pages translates differently in any address space. *)
Theorem user_load_code_spec s T K p code size entry ok p' s' :
  let root := pml4_phys p in
  let base := entry - entry mod PAGE_SIZE in
  let N := page_count entry size in
  vmm_inv s T → private s T K → T 4%nat root → ¬ K 4%nat root → root ≠ 0 →
  0 < code → code + size < 2 ^ 64 → 0 < size < 2 ^ 32 - 2 * PAGE_SIZE →
  USER_SPACE_START <= entry → base + N * PAGE_SIZE <= USER_SPACE_END →
  ways_to s root base N → (∀ j, 0 <= j < size → untouched s T (code + j)) →
  user_load_code s (Some p) code size entry = (ok, p', s') →
  ∃ T', placed s T K s' T'
    ∧ (∀ rt va, T 4%nat rt → va_ok va → ¬ (rt = root ∧ in_pages base N va) → translate s' rt va = translate s rt va)
    ∧ if ok then p' = Some (set_user_code entry size p)
        ∧ ∀ j, 0 <= j < size → ∃ pa, translate s' root (entry + j) = Some pa
            ∧ vm_mem s' (PHYS_TO_VIRT pa) = vm_mem s (code + j)
      else p' = Some p ∧ starved.
Proof.
  intros root base N Hinv HK Hr Hnr Hr0 Hc Hcend Hs Hst Hend Hw Hun E.
  pose proof (user_load_code_cases s T K p code size entry ok p' s' Hinv HK Hr Hnr Hr0 Hc Hcend Hs Hst Hend Hw Hun E) as Hcase.
  destruct (page_count_bound entry size Hs) as [HN HN']. fold root base N in Hcase.
  pose proof (Z.mod_pos_bound entry PAGE_SIZE ltac:(unfold PAGE_SIZE; lia)) as Hm. destruct ok.
  - destruct Hcase as (-> & T' & [A1 A2 A3]). exists T'. split_and!; [done|done|done|].
    intros j Hj. destruct (A2 (entry mod PAGE_SIZE + j)) as (pa & E1 & E2 & _); [lia|]. exists pa.
    replace (base + (entry mod PAGE_SIZE + j)) with (entry + j) in E1 by (subst base; lia). split; [done|].
    rewrite E2. unfold image. rewrite (proj2 (in_range_true _ _ _)) by lia. f_equal. lia.
  - destruct Hcase as (-> & Hsv & n & T' & Hn & [A1 A2 A3]). exists T'. split_and!; [done| |done|done].
    intros rt va Hrt Hva Hno. apply A3; [done|done|]. intros (-> & i & Hi & Hsm). apply Hno. split; [done|].
    exists i. split; [lia|done].
Qed.

(** The stack of a program: on success all its 64 KB are mapped in the
    program's address space and read as zero, and the initial stack pointer is
    16-byte aligned below their end; it fails only when a page frame was refused,
    and no address outside translates differently in any address space. *)
Theorem user_stack_alloc_spec s T K p ok p' s' :
  let root := pml4_phys p in
  let base := USER_STACK_TOP - USER_STACK_SIZE in
  vmm_inv s T → private s T K → T 4%nat root → ¬ K 4%nat root → root ≠ 0 → ways_to s root base 16 →
  user_stack_alloc s (Some p) = (ok, p', s') →
  ∃ T', placed s T K s' T'
    ∧ (∀ rt va, T 4%nat rt → va_ok va → ¬ (rt = root ∧ in_pages base 16 va) → translate s' rt va = translate s rt va)
    ∧ if ok then p' = Some (set_user_stack base (USER_STACK_TOP - 16) p)
        ∧ ∀ va, base <= va < USER_STACK_TOP → ∃ pa, translate s' root va = Some pa ∧ vm_mem s' (PHYS_TO_VIRT pa) = 0
      else p' = Some p ∧ starved.
Proof.
  intros root base Hinv HK Hr Hnr Hr0 Hw E.
  pose proof (user_stack_alloc_cases s T K p ok p' s' Hinv HK Hr Hnr Hr0 Hw E) as Hcase. fold root base in Hcase. destruct ok.
  - destruct Hcase as (-> & T' & [A1 A2 A3]). exists T'. split_and!; [done|done|done|].
    intros va Hva. destruct (A2 (va - base)) as (pa & E1 & E2 & _); [subst base; unfold USER_STACK_SIZE, PAGE_SIZE in *; lia|].
    exists pa. by replace (base + (va - base)) with va in E1 by lia.
  - destruct Hcase as (-> & Hsv & n & T' & Hn & [A1 A2 A3]). exists T'. split_and!; [done| |done|done].
    intros rt va Hrt Hva Hno. apply A3; [done|done|]. intros (-> & i & Hi & Hsm). apply Hno. split; [done|].
    exists i. split; [lia|done].
Qed.

(** A page mapped in no kernel table is not freed. *)
Lemma stack_free_loop s T p :
  vmm_inv s T →
  (∀ i, 0 <= i < 16 → translate s (vmm_pml4_phys s) (user_stack p +64 u32 (i * PAGE_SIZE)) = None) →
  vm_frames (user_stack_free s (Some p)).2 = vm_frames s.
Proof.
  intros Hinv Hno. unfold user_stack_free. destruct ((pml4_phys p =? 0) || (user_stack p =? 0)); [done|]. cbv zeta.
  change (u32 (USER_STACK_SIZE / PAGE_SIZE)) with 16.
  set (body := λ i (s : vmm F), _). set (s1 := vmm_switch_address_space s (pml4_phys p)).
  assert (Hsw : ∀ (s : vmm F) r, vm_mem (vmm_switch_address_space s r) = vm_mem s ∧ vm_frames (vmm_switch_address_space s r) = vm_frames s
    ∧ vmm_pml4 (vmm_switch_address_space s r) = vmm_pml4 s ∧ vmm_pml4_phys (vmm_switch_address_space s r) = vmm_pml4_phys s).
  { intros s0 r. unfold vmm_switch_address_space. by destruct (_ && _). }
  assert (El : for_each 0 16 body s1 = s1).
  { refine (for_each_inv (λ _ s', s' = s1) 0 16 body s1 _ eq_refl _); [lia|]. intros i s' Hi ->. unfold body.
    destruct (Hsw s (pml4_phys p)) as (M1 & M2 & M3 & M4). fold s1 in M1, M3, M4.
    rewrite vmm_get_physical_walk by (rewrite M3, M4; exact (vi_ptr _ _ Hinv)).
    assert (Ee : ent s1 = ent s) by (unfold ent, get; by rewrite M1). unfold translate. rewrite Ee, M4.
    pose proof (Hno i Hi) as E. unfold translate in E. by rewrite E. }
  rewrite El. cbn [snd]. destruct (Hsw s1 (cr3 s)) as (_ & -> & _). apply Hsw.
Qed.

(** [user_stack_free] frees no page of a stack: it looks the pages up in the
    kernel's tables, not in the process's, and finds nothing there.  The pages
    stay allocated and the process forgets where they are. *)
Theorem user_stack_never_freed s T K p p1 s1 p2 s2 :
  let root := pml4_phys p in
  let base := USER_STACK_TOP - USER_STACK_SIZE in
  vmm_inv s T → private s T K → K 4%nat (vmm_pml4_phys s) → T 4%nat root → ¬ K 4%nat root → root ≠ 0 →
  ways_to s root base 16 →
  (∀ va, base <= va < USER_STACK_TOP → translate s (vmm_pml4_phys s) va = None) →
  user_stack_alloc s (Some p) = (true, p1, s1) → user_stack_free s1 p1 = (p2, s2) →
  vm_frames s2 = vm_frames s1
  ∧ (∀ va, base <= va < USER_STACK_TOP → ∃ pa, translate s1 root va = Some pa
       ∧ ∀ q, is_frame q → q <= pa < q + PAGE_SIZE → fr_used (vm_frames s2) q)
  ∧ option_map user_stack p2 = Some 0.
Proof.
  intros root base Hinv HK Hk Hr Hnr Hr0 Hw Hno Ea Ef.
  destruct (user_stack_alloc_cases s T K p true p1 s1 Hinv HK Hr Hnr Hr0 Hw Ea) as (-> & T1 & A). fold root base in A, Ef.
  pose proof (ar_placed _ _ _ _ _ _ _ _ _ A) as [I1 _ _ HS _ _ Er]. set (p' := set_user_stack _ _ _) in Ef.
  assert (Hfr : vm_frames s2 = vm_frames s1).
  { change s2 with ((p2, s2).2). rewrite <- Ef. apply (stack_free_loop s1 T1); [done|]. intros i Hi.
    change (user_stack p') with base. rewrite (page_addr base i 16), Er by (done || lia).
    rewrite (kernel_translate s T s1 K) by (try done; apply user_va_ok; subst base; unfold USER_STACK_TOP, USER_STACK_SIZE, USER_SPACE_END, PAGE_SIZE; lia).
    apply Hno. subst base. unfold USER_STACK_SIZE, PAGE_SIZE. lia. }
  split_and!; [done| |].
  - intros va Hva. destruct (ar_bytes _ _ _ _ _ _ _ _ _ A (va - base)) as (pa & E1 & _ & Hu);
      [subst base; unfold USER_STACK_SIZE, PAGE_SIZE in *; lia|].
    replace (base + (va - base)) with va in E1 by lia. exists pa. split; [done|]. intros q Hq Hpa. rewrite Hfr.
    apply (Hu q Hq). replace pa with (q + (pa - q)) by lia. rewrite window_off by (done || lia). lia.
  - revert Ef. unfold user_stack_free. change (pml4_phys p') with root. change (user_stack p') with base.
    rewrite (proj2 (Z.eqb_neq root 0) Hr0). change (base =? 0) with false. cbn [orb]. by intros [= <- _].
Qed.

(** ** A new process *)

(** The ways of a new space are the kernel's. *)
Lemma space_way s T root s' va :
  vmm_inv s T → vmm_create_address_space s = (root, s') → root ≠ 0 → va_ok va →
  0 < idx 4 va < 256 ∨ way (ent s) 4 (vmm_pml4_phys s) va → way (ent s') 4 root va.
Proof.
  intros Hinv E Hr0 Hv Hor. destruct (vmm_create_address_space_cases s T root s' Hinv E) as (_ & Hs & _ & Hnew).
  destruct (Hnew Hr0) as (_ & _ & _ & Hre). rewrite way_4, (Hre _ (idx_range 4 va)). unfold space_entry.
  destruct ((idx 4 va =? 0) || (256 <=? idx 4 va)) eqn:Ei; [|done]. to_prop. intros L.
  destruct Hor as [Hor|Hw]; [lia|]. rewrite way_4 in Hw.
  assert (Wx : ways s T s') by (apply ways_ext; [done|]; intros l p i; by apply (Hs (S (S l)))).
  apply Wx; [|done|by apply Hw]. apply (t_next _ _ _ (vi_tables _ _ Hinv) 2%nat); [exact (vi_root _ _ Hinv)|by apply va_idx_ok|done].
Qed.

Lemma stack_top_index i : 0 <= i < 16 → idx 4 (USER_STACK_TOP - USER_STACK_SIZE + i * PAGE_SIZE) = 255.
Proof.
  intros Hi. unfold idx. change (2 ^ shift 4) with (2 ^ 39). set (x := _ + _).
  assert (E : x / 2 ^ 39 = 255); [|by rewrite E].
  symmetry. apply (Z.div_unique_pos x (2 ^ 39) 255 (x - 255 * 2 ^ 39)); subst x;
    unfold USER_STACK_TOP, USER_STACK_SIZE, PAGE_SIZE; lia.
Qed.

(** An area outlives later ones in the same space. *)
Lemma area_then s T K root b1 n1 c1 s1 T1 b2 n2 c2 s2 T2 :
  area s T K root b1 n1 c1 s1 T1 → area s1 T1 K root b2 n2 c2 s2 T2 → T 4%nat root →
  0 <= b1 → 0 <= n2 → b1 + n1 * PAGE_SIZE <= b2 → b2 + n2 * PAGE_SIZE <= USER_SPACE_END →
  b2 mod PAGE_SIZE = 0 → ∀ k, 0 <= k < n1 * PAGE_SIZE →
  ∃ pa, translate s2 root (b1 + k) = Some pa ∧ vm_mem s2 (PHYS_TO_VIRT pa) = c1 k.
Proof.
  intros [A1 A2 A3] [B1 B2 B3] Hr H1 H2 Hle Hend Hal k Hk. destruct (A2 k Hk) as (pa & E1 & E2 & E3). exists pa.
  destruct (pl_keeps _ _ _ _ _ B1 _ E3) as [-> _]. unfold USER_SPACE_END in *. split; [|done]. rewrite B3; [done| | |].
  - by apply (pl_sub _ _ _ _ _ A1).
  - apply user_va_ok. unfold USER_SPACE_END, PAGE_SIZE in *. lia.
  - intros (_ & i & Hi & Hsm). rewrite same_page_small, Z.div_add in Hsm by (unfold PAGE_SIZE in *; lia).
    assert ((b1 + k) / PAGE_SIZE < b2 / PAGE_SIZE); [|lia]. apply Z.div_lt_upper_bound; [done|].
    pose proof (Z.div_mod b2 PAGE_SIZE ltac:(done)). lia.
Qed.

End placing.

Section create.
Context {F W : Type} `{FrameLaws F} `{ProcEnv W}.

(** A change that keeps state and identity. *)
Lemma process_get_on (s : sys W) i f id :
  (∀ p, p_state (f p) = p_state p ∧ pid (f p) = pid p) → process_get (on s i f) id = process_get s id.
Proof.
  intros Hf. apply find_first_ext. intros j _. cbn [process_table on]. rewrite update_at.
  destruct (Z.eqb_spec j i) as [->|]; [|done]. by destruct (Hf (process_table s i)) as [-> ->].
Qed.

(** The ways to the code and the stack of a new space. *)
Lemma code_ways (v : vmm F) T root v1 n :
  vmm_inv v T → vmm_create_address_space v = (root, v1) → root ≠ 0 → USER_CODE_BASE + n * PAGE_SIZE <= USER_SPACE_END →
  ways_to v (vmm_pml4_phys v) USER_CODE_BASE n → ways_to v1 root USER_CODE_BASE n.
Proof.
  intros Hinv Ec Hr0 Hend Hw i Hi. apply (space_way v T root v1); [done..| |right; by apply Hw]. apply user_va_ok.
  unfold USER_CODE_BASE, PAGE_SIZE in *. lia.
Qed.

Lemma stack_ways (v : vmm F) T root v1 T1 v2 :
  vmm_inv v T → vmm_create_address_space v = (root, v1) → root ≠ 0 → T1 4%nat root → ways v1 T1 v2 →
  ways_to v2 root (USER_STACK_TOP - USER_STACK_SIZE) 16.
Proof.
  intros Hinv Ec Hr0 Hr1 W2 i Hi. assert (Hva : va_ok (USER_STACK_TOP - USER_STACK_SIZE + i * PAGE_SIZE)).
  { apply user_va_ok. unfold USER_STACK_TOP, USER_STACK_SIZE, USER_SPACE_END, PAGE_SIZE. lia. }
  apply W2; [done|done|]. apply (space_way v T root v1); [done..|left]. by rewrite stack_top_index.
Qed.

(** What the address space of a new process holds. *)
Lemma user_space_loaded (v : vmm F) T K code size root v1 v2 v3 p2 p3 :
  vmm_inv v T → private v T K → K 4%nat (vmm_pml4_phys v) →
  0 < code → code + size < 2 ^ 64 → 0 < size < 2 ^ 32 - 2 * PAGE_SIZE →
  ways_to v (vmm_pml4_phys v) USER_CODE_BASE (page_count USER_CODE_BASE size) →
  (∀ j, 0 <= j < size → untouched v T (code + j)) →
  vmm_create_address_space v = (root, v1) → root ≠ 0 →
  user_load_code v1 (Some (set_pml4_phys root zero_process)) code size USER_CODE_BASE = (true, p2, v2) →
  user_stack_alloc v2 p2 = (true, p3, v3) →
  p3 = Some (set_user_stack (USER_STACK_TOP - USER_STACK_SIZE) (USER_STACK_TOP - 16)
               (set_user_code USER_CODE_BASE size (set_pml4_phys root zero_process)))
  ∧ (∃ T', vmm_inv v3 T') ∧ (∀ l, ¬ T l root)
  ∧ (∀ rt va, T 4%nat rt → va_ok va → translate v3 rt va = translate v rt va)
  ∧ (∀ j, 0 <= j < size → ∃ pa, translate v3 root (USER_CODE_BASE + j) = Some pa
            ∧ vm_mem v3 (PHYS_TO_VIRT pa) = vm_mem v (code + j))
  ∧ ∀ va, USER_STACK_TOP - USER_STACK_SIZE <= va < USER_STACK_TOP →
      ∃ pa, translate v3 root va = Some pa ∧ vm_mem v3 (PHYS_TO_VIRT pa) = 0.
Proof.
  intros Hinv HK Hk Hc Hcend Hs Hw Hun Ec Hr0 El Es.
  destruct (vmm_create_address_space_cases v T root v1 Hinv Ec) as (X & _ & Hkp & Hnew).
  destruct (Hnew Hr0) as (_ & Hrn & _ & _). rewrite decide_False in Hkp by done.
  destruct (space_joins v T K root v1 Hinv HK Hk Ec Hr0) as (J1 & J2 & J3). set (T1 := with_table T 4 root) in *.
  assert (Hr1 : T1 4%nat root) by (by right). destruct (page_count_bound USER_CODE_BASE size Hs) as [HN HN'].
  change (USER_CODE_BASE mod PAGE_SIZE) with 0 in HN'. set (N := page_count USER_CODE_BASE size) in *.
  assert (Hcode : USER_CODE_BASE + N * PAGE_SIZE <= USER_STACK_TOP - USER_STACK_SIZE).
  { unfold USER_CODE_BASE, USER_STACK_TOP, USER_STACK_SIZE, PAGE_SIZE in *. lia. }
  assert (Hstk : USER_STACK_TOP <= USER_SPACE_END) by done.
  assert (Hw1 : ways_to v1 root USER_CODE_BASE N) by (apply (code_ways v T); (done || unfold USER_STACK_SIZE, PAGE_SIZE in *; lia)).
  pose proof (user_load_code_cases v1 T1 K (set_pml4_phys root zero_process) code size USER_CODE_BASE true p2 v2 J1 J2 Hr1 J3 Hr0 Hc Hcend Hs) as Hl.
  cbv zeta in Hl. change (USER_CODE_BASE - USER_CODE_BASE mod PAGE_SIZE) with USER_CODE_BASE in Hl. fold N in Hl.
  change (pml4_phys (set_pml4_phys root zero_process)) with root in Hl. change (USER_CODE_BASE mod PAGE_SIZE) with 0 in Hl.
  destruct Hl as (-> & T2 & A); [done|unfold USER_STACK_SIZE, PAGE_SIZE in *; lia|done|intros j Hj; by apply (Hkp _ (Hun j Hj))|done|].
  pose proof (ar_placed _ _ _ _ _ _ _ _ _ A) as [I2 HK2 Sub2 _ _ W2 _].
  assert (Hw2 : ways_to v2 root (USER_STACK_TOP - USER_STACK_SIZE) 16) by (by apply (stack_ways v T root v1 T1)).
  pose proof (user_stack_alloc_cases v2 T2 K (set_user_code USER_CODE_BASE size (set_pml4_phys root zero_process)) true p3 v3 I2 HK2 (Sub2 _ _ Hr1) J3 Hr0 Hw2 Es) as (-> & T3 & B).
  change (pml4_phys (set_user_code USER_CODE_BASE size (set_pml4_phys root zero_process))) with root in B.
  pose proof (ar_placed _ _ _ _ _ _ _ _ _ B) as [I3 _ _ _ _ _ _].
  split_and!; [done|by exists T3|done| | |].
  - intros rt va Hrt Hva. assert (Hne : rt ≠ root) by (intros ->; by apply (Hrn 4%nat)).
    rewrite (ar_rest _ _ _ _ _ _ _ _ _ B), (ar_rest _ _ _ _ _ _ _ _ _ A) by (try done; try (by intros [? _]); try (by left); by apply Sub2; left).
    by apply (x_walk _ _ _ _ X).
  - intros j Hj. destruct (area_then _ _ _ _ _ _ _ _ _ _ _ _ _ _ A B Hr1 ltac:(done) ltac:(done) Hcode ltac:(done) ltac:(done) j) as (pa & E1 & E2); [lia|].
    exists pa. split; [done|]. rewrite E2. unfold image. rewrite (proj2 (in_range_true _ _ _)) by lia. rewrite Z.sub_0_r. by apply (Hkp _ (Hun j Hj)).
  - intros va Hva. destruct (ar_bytes _ _ _ _ _ _ _ _ _ B (va - (USER_STACK_TOP - USER_STACK_SIZE))) as (pa & E1 & E2 & _);
      [unfold USER_STACK_SIZE, PAGE_SIZE in *; lia|]. exists pa. by replace (_ + (va - _)) with va in E1 by lia.
Qed.

(** C9. Creating a user process.  When a process identifier is returned, its
    process is marked as a user process and starts at [USER_CODE_BASE] with an
    aligned stack pointer, in an address space of its own in which the code reads
    as the image at [code] and the stack as zeros; every address space that
    existed before, the kernel's included, translates every address as it did. *)
Theorem user_process_create_spec (v : vmm F) (s : sys W) T K name code size start r v' s' :
  vmm_inv v T → private v T K → K 4%nat (vmm_pml4_phys v) →
  0 < code → code + size < 2 ^ 64 → 0 < size < 2 ^ 32 - 2 * PAGE_SIZE →
  ways_to v (vmm_pml4_phys v) USER_CODE_BASE (page_count USER_CODE_BASE size) →
  (∀ j, 0 <= j < size → untouched v T (code + j)) →
  user_process_create v s name code size start = (r, v', s') → r ≠ PID_ERROR →
  (∃ T', vmm_inv v' T')
  ∧ (∀ rt va, T 4%nat rt → va_ok va → translate v' rt va = translate v rt va)
  ∧ ∃ i, process_get s' r = Some i ∧ let p := process_table s' i in
      Z.land (flags p) PROCESS_FLAG_USER ≠ 0 ∧ user_code p = USER_CODE_BASE ∧ user_code_size p = size
      ∧ user_stack_top p = USER_STACK_TOP - 16 ∧ ¬ T 4%nat (pml4_phys p)
      ∧ (∀ j, 0 <= j < size → ∃ pa, translate v' (pml4_phys p) (user_code p + j) = Some pa
            ∧ vm_mem v' (PHYS_TO_VIRT pa) = vm_mem v (code + j))
      ∧ ∀ va, user_stack p <= va < USER_STACK_TOP →
          ∃ pa, translate v' (pml4_phys p) va = Some pa ∧ vm_mem v' (PHYS_TO_VIRT pa) = 0.
Proof.
  intros Hinv HK Hk Hc Hcend Hs Hw Hun. unfold user_process_create.
  destruct (vmm_create_address_space v) as [root v1] eqn:Ec. destruct (Z.eqb_spec root 0) as [|Hr0]; [by intros [= <- _ _]|].
  cbv zeta. destruct (user_load_code v1 _ code size USER_CODE_BASE) as [[ok p2] v2] eqn:El.
  destruct ok; cbn [negb]; [|by intros [= <- _ _]].
  destruct (user_stack_alloc v2 p2) as [[ok p3] v3] eqn:Es. destruct ok; cbn [negb]; [|by intros [= <- _ _]].
  destruct (user_space_loaded v T K code size root v1 v2 v3 p2 p3 Hinv HK Hk Hc Hcend Hs Hw Hun Ec Hr0 El Es)
    as (-> & HI & Hrn & Hkept & Hcode & Hstack).
  destruct (process_create s name start 0) as [o s1] eqn:Ep. cbn [default].
  destruct (Z.eqb_spec (default PID_ERROR o) PID_ERROR) as [|Hne]; [by intros [= <- _ _]|].
  destruct (process_get s1 (default PID_ERROR o)) as [i|] eqn:Eg; [|by intros [= <- _ _]].
  intros [= <- <- <-] _. split_and!; [done|done|]. exists i.
  split; [by rewrite !process_get_on|]. cbn [process_table on]. rewrite !update_eq. cbn.
  split_and!; [|done|done|done|by apply Hrn|done|done].
  rewrite Z.land_lor_distr_l. intros E. apply Z.lor_eq_0_iff in E as [_ E]. done.
Qed.

End create.

(** ** A program in memory *)

Import BumpFrames.

(** Addresses above every window. *)
Lemma untouched_far {F} `{FrameLaws F} (s : vmm F) T a : 2 ^ 52 <= a < KERNEL_VIRT_BASE → untouched s T a.
Proof.
  intros Ha p Hp Hap. exfalso. pose proof (window_val p Hp) as Hw. destruct Hp as [Hm Hp].
  unfold KERNEL_VIRT_BASE, PAGE_SIZE in *. pose proof (Z.div_mod p 4096 ltac:(lia)). lia.
Qed.

Definition image_addr : Z := 2 ^ 60.
Definition space_tables : family := with_table first_tables 4 0x2000.

Lemma first_space_ok : vmm_inv first_space.2 space_tables ∧ private first_space.2 space_tables first_tables ∧ ¬ first_tables 4%nat 0x2000.
Proof. by apply (space_joins first_state first_tables first_tables 0x2000 first_space.2 first_inv first_private (conj eq_refl eq_refl) first_space_eq). Qed.

Lemma first_space_ways base n : ways_to first_space.2 0x2000 base n.
Proof. intros i _. rewrite way_4, first_space_entry by apply idx_range. done. Qed.

Definition demo_process : process_t := set_pml4_phys 0x2000 zero_process.

Lemma demo_load_ok : (user_load_code first_space.2 (Some demo_process) image_addr 6000 0x400010).1.1 = true.
Proof. vm_compute. reflexivity. Qed.

Lemma user_load_code_spec_witness :
  ∃ p' s' T', user_load_code first_space.2 (Some demo_process) image_addr 6000 0x400010 = (true, p', s')
    ∧ placed first_space.2 space_tables first_tables s' T'
    ∧ ∃ pa, translate s' 0x2000 (0x400010 + 5999) = Some pa
        ∧ vm_mem s' (PHYS_TO_VIRT pa) = vm_mem first_space.2 (image_addr + 5999).
Proof.
  destruct first_space_ok as (I & P & Hn).
  assert (H0 : pml4_phys demo_process ≠ 0) by done. assert (Hc : 0 < image_addr) by done.
  assert (Hce : image_addr + 6000 < 2 ^ 64) by done. assert (Hs : 0 < 6000 < 2 ^ 32 - 2 * PAGE_SIZE) by done.
  assert (Hst : USER_SPACE_START <= 0x400010) by done.
  assert (Hend : 0x400010 - 0x400010 mod PAGE_SIZE + page_count 0x400010 6000 * PAGE_SIZE <= USER_SPACE_END) by done.
  assert (Hu : ∀ j, 0 <= j < 6000 → untouched first_space.2 space_tables (image_addr + j)).
  { intros j Hj. apply untouched_far. unfold image_addr, KERNEL_VIRT_BASE. lia. }
  assert (Ht : space_tables 4%nat (pml4_phys demo_process)) by (right; done).
  pose proof demo_load_ok as Hok.
  destruct (user_load_code first_space.2 (Some demo_process) image_addr 6000 0x400010) as [[ok p'] s'] eqn:E.
  simpl in Hok. subst ok.
  destruct (user_load_code_spec first_space.2 space_tables first_tables demo_process image_addr 6000 0x400010 true p' s'
    I P Ht Hn H0 Hc Hce Hs Hst Hend (first_space_ways _ _) Hu E) as (T' & Hp & _ & _ & Hb).
  exists p', s', T'. split; [reflexivity|]. split; [exact Hp|]. apply (Hb 5999). lia.
Defined.

Lemma demo_stack_ok : (user_stack_alloc first_space.2 (Some demo_process)).1.1 = true.
Proof. vm_compute. reflexivity. Qed.

Lemma user_stack_alloc_spec_witness :
  ∃ p' s', user_stack_alloc first_space.2 (Some demo_process) = (true, p', s')
    ∧ ∃ pa, translate s' 0x2000 (USER_STACK_TOP - 16) = Some pa ∧ vm_mem s' (PHYS_TO_VIRT pa) = 0.
Proof.
  destruct first_space_ok as (I & P & Hn). assert (H0 : pml4_phys demo_process ≠ 0) by done.
  assert (Ht : space_tables 4%nat (pml4_phys demo_process)) by (right; done). pose proof demo_stack_ok as Hok.
  destruct (user_stack_alloc first_space.2 (Some demo_process)) as [[ok p'] s'] eqn:E. simpl in Hok. subst ok.
  destruct (user_stack_alloc_spec first_space.2 space_tables first_tables demo_process true p' s'
    I P Ht Hn H0 (first_space_ways _ _) E) as (_ & _ & _ & _ & Hb).
  exists p', s'. split; [reflexivity|]. apply Hb. split; [done|reflexivity].
Defined.

Lemma user_stack_never_freed_witness :
  ∃ p1 s1 p2 s2, user_stack_alloc first_space.2 (Some demo_process) = (true, p1, s1)
    ∧ user_stack_free s1 p1 = (p2, s2) ∧ vm_frames s2 = vm_frames s1.
Proof.
  destruct first_space_ok as (I & P & Hn). assert (H0 : pml4_phys demo_process ≠ 0) by done.
  assert (Ht : space_tables 4%nat (pml4_phys demo_process)) by (right; done). pose proof demo_stack_ok as Hok.
  destruct (user_stack_alloc first_space.2 (Some demo_process)) as [[ok p1] s1] eqn:E. simpl in Hok. subst ok.
  destruct (user_stack_free s1 p1) as [p2 s2] eqn:Ef.
  assert (Hk : first_tables 4%nat (vmm_pml4_phys first_space.2)) by (split; reflexivity).
  assert (Hno : ∀ va, USER_STACK_TOP - USER_STACK_SIZE <= va < USER_STACK_TOP →
    translate first_space.2 (vmm_pml4_phys first_space.2) va = None).
  { intros va Hva. assert (Hv : va_ok va) by (apply user_va_ok; unfold USER_STACK_TOP, USER_STACK_SIZE, USER_SPACE_END, PAGE_SIZE in *; lia).
    destruct (vmm_create_address_space_cases _ _ _ _ first_inv first_space_eq) as ([_ _ X3 _] & _).
    unfold translate. rewrite X3 by done. reflexivity. }
  destruct (user_stack_never_freed first_space.2 space_tables first_tables demo_process p1 s1 p2 s2
    I P Hk Ht Hn H0 (first_space_ways _ _) Hno E Ef) as [Hf _].
  exists p1, s1, p2, s2. split; [reflexivity|]. split; [exact Ef|exact Hf].
Defined.

Definition demo_create : Z * vmm Z * sys Z := user_process_create first_state boot2 None image_addr 6000 0x5000.

Lemma demo_create_ok : demo_create.1.1 =? PID_ERROR = false.
Proof. vm_compute. reflexivity. Qed.

Lemma user_process_create_spec_witness :
  ∃ i, process_get demo_create.2 demo_create.1.1 = Some i
    ∧ user_code (process_table demo_create.2 i) = USER_CODE_BASE
    ∧ ∃ pa, translate demo_create.1.2 (pml4_phys (process_table demo_create.2 i)) (USER_CODE_BASE + 5999) = Some pa.
Proof.
  assert (Hk : first_tables 4%nat (vmm_pml4_phys first_state)) by (split; reflexivity).
  assert (Hc : 0 < image_addr) by done. assert (Hce : image_addr + 6000 < 2 ^ 64) by done.
  assert (Hs : 0 < 6000 < 2 ^ 32 - 2 * PAGE_SIZE) by done.
  assert (Hw : ways_to first_state (vmm_pml4_phys first_state) USER_CODE_BASE (page_count USER_CODE_BASE 6000)).
  { intros i _. rewrite way_4, first_entry. done. }
  assert (Hu : ∀ j, 0 <= j < 6000 → untouched first_state first_tables (image_addr + j)).
  { intros j Hj. apply untouched_far. unfold image_addr, KERNEL_VIRT_BASE. lia. }
  assert (E : user_process_create first_state boot2 None image_addr 6000 0x5000 = (demo_create.1.1, demo_create.1.2, demo_create.2)).
  { unfold demo_create. by destruct (user_process_create _ _ _ _ _ _) as [[? ?] ?]. }
  assert (Hne : demo_create.1.1 ≠ PID_ERROR) by (apply Z.eqb_neq, demo_create_ok).
  destruct (user_process_create_spec first_state boot2 first_tables first_tables None image_addr 6000 0x5000
    demo_create.1.1 demo_create.1.2 demo_create.2 first_inv first_private Hk Hc Hce Hs Hw Hu E Hne)
    as (_ & _ & i & Hg & _ & Hcode & _ & _ & _ & Hb & _).
  exists i. split; [exact Hg|]. split; [exact Hcode|]. destruct (Hb 5999 ltac:(lia)) as (pa & Hpa & _).
  rewrite Hcode in Hpa. exists pa. exact Hpa.
Defined.
