(* ===== verification/Interrupts.v ===== *)
(** * Interrupts: descriptor tables, the interrupt controller and the timer

    - [Gdt]: arch/x86_64/gdt.c, and the segment selectors of syscall_init in
      syscall/syscall.c.  [Idt]: interrupts/idt.c.  The descriptor tables are
      byte memory at their linked addresses, with the packed structures of gdt.h
      and idt.h at their offsets.
    - [Pic]: drivers/pic/pic.c, over an interface for port input and output.  What
      the chip does with the accesses is not part of the code: [chip] states the
      documented behaviour of an 8259A, and [Pic8259] says that the ports of a
      machine reach two of them.
    - [Irq]: interrupts/irq.c and the dispatch of interrupts/isr.c.
    - [Pit]: drivers/pit/pit.c; its interrupt handler is in Syscall. *)

From Stdlib Require Import ZArith Lia.
From stdpp Require Import base numbers list.
From S2P Require Import Prelude.
From S2P Require Import Mem.

(** ** Descriptors *)

Module Gdt.

Definition GDT_KERNEL_CODE : Z := 0x08.
Definition GDT_KERNEL_DATA : Z := 0x10.
Definition GDT_TSS_SEL : Z := 0x18.
Definition GDT_USER_DATA : Z := 0x28.
Definition GDT_USER_CODE : Z := 0x30.
Definition GDT_ENTRIES : Z := 7.
Definition GDT_ACCESS_PRESENT : Z := 0x80.
Definition GDT_ACCESS_DPL0 : Z := 0x00.
Definition GDT_ACCESS_DPL3 : Z := 0x60.
Definition GDT_ACCESS_SEGMENT : Z := 0x10.
Definition GDT_ACCESS_EXECUTABLE : Z := 0x08.
Definition GDT_ACCESS_RW : Z := 0x02.
Definition GDT_ACCESS_TSS : Z := 0x89.
Definition GDT_GRAN_LONG_MODE : Z := 0x20.
Definition GDT_GRAN_4K : Z := 0x80.
Definition IST_STACK_SIZE : Z := 4096.
Definition sizeof_tss : Z := 104.

Section gdt.
(** The linked addresses of [gdt], [tss] and [ist1_stack]. *)
Context (gdt tss ist1_stack : Z).

Definition gdt_set_entry (index base limit access granularity : Z) (m : mem) : mem :=
  let e := gdt + 8 * index in
  let m := store16 m e (u16 (Z.land limit 0xFFFF)) in
  let m := store16 m (e + 2) (u16 (Z.land base 0xFFFF)) in
  let m := store8 m (e + 4) (u8 (Z.land (Z.shiftr base 16) 0xFF)) in
  let m := store8 m (e + 5) access in
  let m := store8 m (e + 6) (u8 (Z.lor (Z.land (Z.shiftr limit 16) 0x0F) (Z.land granularity 0xF0))) in
  store8 m (e + 7) (u8 (Z.land (Z.shiftr base 24) 0xFF)).

Definition gdt_set_tss (index base limit : Z) (m : mem) : mem :=
  let e := gdt + 8 * index in
  let m := store16 m e (u16 (Z.land limit 0xFFFF)) in
  let m := store16 m (e + 2) (u16 (Z.land base 0xFFFF)) in
  let m := store8 m (e + 4) (u8 (Z.land (Z.shiftr base 16) 0xFF)) in
  let m := store8 m (e + 5) GDT_ACCESS_TSS in
  let m := store8 m (e + 6) (u8 (Z.land (Z.shiftr limit 16) 0x0F)) in
  let m := store8 m (e + 7) (u8 (Z.land (Z.shiftr base 24) 0xFF)) in
  let m := store32 m (e + 8) (u32 (Z.land (Z.shiftr base 32) 0xFFFFFFFF)) in
  store32 m (e + 12) 0.

Definition tss_init (m : mem) : mem :=
  let m := for_each 0 sizeof_tss (λ i m, store8 m (tss + i) 0) m in
  let m := store64 m (tss + 36) (ist1_stack +64 IST_STACK_SIZE) in
  let m := store64 m (tss + 4) 0 in
  store16 m (tss + 102) sizeof_tss.

(** The registers that [gdt_init] loads: GDTR and TR. *)
Record gdt_regs := { gdtr_limit : Z; gdtr_base : Z; tr : Z }.

Definition gdt_init (m : mem) : gdt_regs * mem :=
  let m := tss_init m in
  let m := gdt_set_entry 0 0 0 0 0 m in
  let m := gdt_set_entry 1 0 0xFFFFF
             (Z.lor (Z.lor (Z.lor (Z.lor GDT_ACCESS_PRESENT GDT_ACCESS_DPL0) GDT_ACCESS_SEGMENT)
                GDT_ACCESS_EXECUTABLE) GDT_ACCESS_RW) (Z.lor GDT_GRAN_LONG_MODE GDT_GRAN_4K) m in
  let m := gdt_set_entry 2 0 0xFFFFF
             (Z.lor (Z.lor (Z.lor GDT_ACCESS_PRESENT GDT_ACCESS_DPL0) GDT_ACCESS_SEGMENT) GDT_ACCESS_RW) GDT_GRAN_4K m in
  let m := gdt_set_tss 3 tss (sizeof_tss - 1) m in
  let m := gdt_set_entry 5 0 0xFFFFF
             (Z.lor (Z.lor (Z.lor GDT_ACCESS_PRESENT GDT_ACCESS_DPL3) GDT_ACCESS_SEGMENT) GDT_ACCESS_RW) GDT_GRAN_4K m in
  let m := gdt_set_entry 6 0 0xFFFFF
             (Z.lor (Z.lor (Z.lor (Z.lor GDT_ACCESS_PRESENT GDT_ACCESS_DPL3) GDT_ACCESS_SEGMENT)
                GDT_ACCESS_EXECUTABLE) GDT_ACCESS_RW) (Z.lor GDT_GRAN_LONG_MODE GDT_GRAN_4K) m in
  ({| gdtr_limit := 8 * GDT_ENTRIES - 1; gdtr_base := gdt; tr := GDT_TSS_SEL |}, m).

Definition gdt_get_rsp0 (m : mem) : Z := load64 m (tss + 4).
Definition gdt_set_rsp0 (rsp0 : Z) (m : mem) : mem := store64 m (tss + 4) rsp0.

End gdt.

(** syscall_init: the model-specific registers. *)
Definition MSR_EFER : Z := 0xC0000080.
Definition MSR_STAR : Z := 0xC0000081.
Definition MSR_LSTAR : Z := 0xC0000082.
Definition MSR_SFMASK : Z := 0xC0000084.
Definition EFER_SCE : Z := Z.shiftl 1 0.
Definition SYSCALL_RFLAGS_MASK : Z := 0x200.

Definition wrmsr (msr value : Z) (r : Z → Z) : Z → Z := λ x, if x =? msr then value else r x.

(** [entry] is the address of [syscall_entry]. *)
Definition syscall_init (entry : Z) (r : Z → Z) : Z → Z :=
  let efer := Z.lor (r MSR_EFER) EFER_SCE in
  let r := wrmsr MSR_EFER efer r in
  let star := Z.lor (Z.shiftl 0x0020 48) (Z.shiftl 0x0008 32) in
  let r := wrmsr MSR_STAR star r in
  let r := wrmsr MSR_LSTAR entry r in
  wrmsr MSR_SFMASK SYSCALL_RFLAGS_MASK r.

End Gdt.

Module Idt.

Definition IDT_ENTRIES : Z := 256.
Definition IDT_GATE_INTERRUPT : Z := 0x8E.
Definition KERNEL_CS : Z := 0x08.

Section idt.
(** The linked addresses of [idt] and of the stubs [isr0] to [isr31] and [irq0]
    to [irq15], numbered by their vectors. *)
Context (idt : Z) (stub : Z → Z).

Definition idt_set_entry (vector handler selector type_attr ist : Z) (m : mem) : mem :=
  let e := idt + 16 * vector in
  let m := store16 m e (u16 (Z.land handler 0xFFFF)) in
  let m := store16 m (e + 6) (u16 (Z.land (Z.shiftr handler 16) 0xFFFF)) in
  let m := store32 m (e + 8) (u32 (Z.land (Z.shiftr handler 32) 0xFFFFFFFF)) in
  let m := store16 m (e + 2) selector in
  let m := store8 m (e + 4) (Z.land ist 0x07) in
  let m := store8 m (e + 5) type_attr in
  store32 m (e + 12) 0.

Definition idt_clear_entry (i : Z) (m : mem) : mem :=
  let e := idt + 16 * i in
  let m := store16 m e 0 in
  let m := store16 m (e + 2) 0 in
  let m := store8 m (e + 4) 0 in
  let m := store8 m (e + 5) 0 in
  let m := store16 m (e + 6) 0 in
  let m := store32 m (e + 8) 0 in
  store32 m (e + 12) 0.

(** The stack table index of a vector: double faults have a stack of their own. *)
Definition ist_of (vector : Z) : Z := if vector =? 8 then 1 else 0.

Record idt_regs := { idtr_limit : Z; idtr_base : Z }.

(** The calls for the vectors 0 to 47 are written out in the source. *)
Definition idt_init (m : mem) : idt_regs * mem :=
  let m := for_each 0 IDT_ENTRIES idt_clear_entry m in
  let m := for_each 0 48 (λ v m, idt_set_entry v (stub v) KERNEL_CS IDT_GATE_INTERRUPT (ist_of v) m) m in
  ({| idtr_limit := 16 * IDT_ENTRIES - 1; idtr_base := idt |}, m).

End idt.

End Idt.

(** ** Ports *)

Class Ports (P : Type) := {
  inb : Z → P → Z * P;
  outb : Z → Z → P → P
}.

Definition io_wait {P} `{Ports P} (p : P) : P := outb 0x80 0 p.

Module Pic.

Definition PIC1_COMMAND : Z := 0x20.
Definition PIC1_DATA : Z := 0x21.
Definition PIC2_COMMAND : Z := 0xA0.
Definition PIC2_DATA : Z := 0xA1.
Definition PIC_EOI : Z := 0x20.
Definition ICW1_ICW4 : Z := 0x01.
Definition ICW1_INIT : Z := 0x10.
Definition ICW4_8086 : Z := 0x01.
Definition OCW3_READ_IRR : Z := 0x0A.
Definition OCW3_READ_ISR : Z := 0x0B.
Definition PIC1_VECTOR_OFFSET : Z := 32.
Definition PIC2_VECTOR_OFFSET : Z := 40.

Section pic.
Context {P : Type} `{Ports P}.
Implicit Types p : P.

Definition pic_init p : P :=
  let '(mask1, p) := inb PIC1_DATA p in
  let '(mask2, p) := inb PIC2_DATA p in
  let p := io_wait (outb PIC1_COMMAND (Z.lor ICW1_INIT ICW1_ICW4) p) in
  let p := io_wait (outb PIC2_COMMAND (Z.lor ICW1_INIT ICW1_ICW4) p) in
  let p := io_wait (outb PIC1_DATA PIC1_VECTOR_OFFSET p) in
  let p := io_wait (outb PIC2_DATA PIC2_VECTOR_OFFSET p) in
  let p := io_wait (outb PIC1_DATA 0x04 p) in
  let p := io_wait (outb PIC2_DATA 0x02 p) in
  let p := io_wait (outb PIC1_DATA ICW4_8086 p) in
  let p := io_wait (outb PIC2_DATA ICW4_8086 p) in
  let p := outb PIC1_DATA 0xFB p in
  outb PIC2_DATA 0xFF p.

Definition pic_send_eoi (irq : Z) p : P :=
  let p := if 8 <=? irq then outb PIC2_COMMAND PIC_EOI p else p in
  outb PIC1_COMMAND PIC_EOI p.

Definition mask_port (irq : Z) : Z * Z := if irq <? 8 then (PIC1_DATA, irq) else (PIC2_DATA, u8 (irq - 8)).

Definition pic_mask_irq (irq : Z) p : P :=
  let '(port, irq) := mask_port irq in
  let '(v, p) := inb port p in
  outb port (u8 (Z.lor v (Z.shiftl 1 irq))) p.

Definition pic_unmask_irq (irq : Z) p : P :=
  let '(port, irq) := mask_port irq in
  let '(v, p) := inb port p in
  outb port (u8 (Z.land v (Z.lnot (Z.shiftl 1 irq)))) p.

(** The two reads of [pic_get_isr] and [pic_get_irr] come in no fixed order. *)
Definition pic_get_isr p : Z * P :=
  let p := outb PIC1_COMMAND OCW3_READ_ISR p in
  let p := outb PIC2_COMMAND OCW3_READ_ISR p in
  let '(hi, p) := inb PIC2_COMMAND p in
  let '(lo, p) := inb PIC1_COMMAND p in
  (u16 (Z.lor (Z.shiftl hi 8) lo), p).

Definition pic_get_irr p : Z * P :=
  let p := outb PIC1_COMMAND OCW3_READ_IRR p in
  let p := outb PIC2_COMMAND OCW3_READ_IRR p in
  let '(hi, p) := inb PIC2_COMMAND p in
  let '(lo, p) := inb PIC1_COMMAND p in
  (u16 (Z.lor (Z.shiftl hi 8) lo), p).

Definition pic_is_spurious (irq : Z) p : bool * P :=
  if irq =? 7 then
    let p := outb PIC1_COMMAND OCW3_READ_ISR p in
    let '(v, p) := inb PIC1_COMMAND p in (Z.land v 0x80 =? 0, p)
  else if irq =? 15 then
    let p := outb PIC2_COMMAND OCW3_READ_ISR p in
    let '(v, p) := inb PIC2_COMMAND p in (Z.land v 0x80 =? 0, p)
  else (false, p).

Definition pic_disable p : P :=
  let p := outb PIC1_DATA 0xFF p in
  outb PIC2_DATA 0xFF p.

End pic.

End Pic.

(** ** Dispatch *)

Module Irq.
Import Pic.

Definition IRQ_COUNT : Z := 16.
Definition IRQ_VECTOR_BASE : Z := 32.

Section irq.
(** [S] is the state of the machine, with its ports; a handler changes it. *)
Context {S : Type} `{Ports S}.

Abbreviation handlers := (Z → option (S → S)).

Definition irq_init (t : handlers) : handlers :=
  for_each 0 IRQ_COUNT (λ i t j, if j =? i then None else t j) t.

Definition irq_register_handler (irq : Z) (h : S → S) (t : handlers) : handlers :=
  if irq <? IRQ_COUNT then λ j, if j =? irq then Some h else t j else t.

Definition irq_unregister_handler (irq : Z) (t : handlers) : handlers :=
  if irq <? IRQ_COUNT then λ j, if j =? irq then None else t j else t.

Definition irq_handler (t : handlers) (int_no : Z) (s : S) : S :=
  let irq := u8 (int_no - IRQ_VECTOR_BASE) in
  if IRQ_COUNT <=? irq then pic_send_eoi irq s
  else
    let '(spurious, s) := pic_is_spurious irq s in
    if spurious then if 8 <=? irq then pic_send_eoi 2 s else s
    else
      let s := match t irq with Some h => h s | None => s end in
      pic_send_eoi irq s.

(** isr.c: what an exception leads to.  The built-in handlers print and halt. *)
Inductive isr_action :=
  | Handled (s : S)
  | Divide_error
  | Invalid_opcode
  | Double_fault
  | General_protection
  | Page_fault
  | Unhandled (int_no : Z).

Definition isr_register_handler (vector : Z) (h : S → S) (t : handlers) : handlers :=
  λ j, if j =? vector then Some h else t j.

Definition isr_handler (t : handlers) (regs_int_no : Z) (s : S) : isr_action :=
  let int_no := u8 regs_int_no in
  match t int_no with
  | Some h => Handled (h s)
  | None =>
      if int_no =? 0 then Divide_error
      else if int_no =? 6 then Invalid_opcode
      else if int_no =? 8 then Double_fault
      else if int_no =? 13 then General_protection
      else if int_no =? 14 then Page_fault
      else Unhandled int_no
  end.

End irq.

End Irq.

Module Pit.
Import Pic Irq.

Definition PIT_CHANNEL0 : Z := 0x40.
Definition PIT_COMMAND : Z := 0x43.
Definition PIT_CMD_CHANNEL0 : Z := 0x00.
Definition PIT_CMD_LOHI : Z := 0x30.
Definition PIT_CMD_MODE3 : Z := 0x06.
Definition PIT_CMD_BINARY : Z := 0x00.
Definition PIT_BASE_FREQ : Z := 1193182.
Definition PIT_TICK_RATE : Z := 100.
Definition PIT_DIVISOR : Z := PIT_BASE_FREQ / PIT_TICK_RATE.
Definition PIT_MS_PER_TICK : Z := 1000 / PIT_TICK_RATE.

Section pit.
Context {S : Type} `{Ports S}.

(** [handler] is [pit_irq_handler]. *)
Definition pit_init (handler : S → S) (t : Z → option (S → S)) (s : S) : (Z → option (S → S)) * S :=
  let divisor := u16 PIT_DIVISOR in
  let s := outb PIT_COMMAND (Z.lor (Z.lor (Z.lor PIT_CMD_CHANNEL0 PIT_CMD_LOHI) PIT_CMD_MODE3) PIT_CMD_BINARY) s in
  let s := outb PIT_CHANNEL0 (u8 (Z.land divisor 0xFF)) s in
  let s := io_wait s in
  let s := outb PIT_CHANNEL0 (u8 (Z.land (Z.shiftr divisor 8) 0xFF)) s in
  let t := irq_register_handler 0 handler t in
  (t, pic_unmask_irq 0 s).

(** Time, from the tick count. *)
Definition pit_get_uptime_ms (tick_count : Z) : Z := tick_count *64 PIT_MS_PER_TICK.
Definition pit_get_uptime_sec (tick_count : Z) : Z := tick_count / PIT_TICK_RATE.

(** [halt] waits for an interrupt, [ticks] reads the tick count. *)
Definition pit_sleep_ticks (halt : S → S) (tick_count : S → Z) (ticks : Z) (s : S) : option S :=
  let target := tick_count s +64 ticks in
  while_ (λ s, tick_count s <? target) halt s.

Definition pit_sleep_ms (halt : S → S) (tick_count : S → Z) (ms : Z) (s : S) : option S :=
  let ticks := u64 (ms + PIT_MS_PER_TICK - 1) / PIT_MS_PER_TICK in
  pit_sleep_ticks halt tick_count ticks s.

End pit.

End Pit.

(** ** Bit fields *)

Lemma field_val x k n : 0 <= k → 0 <= n → Z.land (Z.shiftr x k) (2 ^ n - 1) = (x / 2 ^ k) mod 2 ^ n.
Proof. intros Hk Hn. by rewrite land_ones_mod, Z.shiftr_div_pow2. Qed.

(** Splitting a number into fields and putting them together. *)
Lemma join_fields x a b : 0 <= a → 0 <= b → x mod 2 ^ a + 2 ^ a * ((x / 2 ^ a) mod 2 ^ b) = x mod 2 ^ (a + b).
Proof. intros Ha Hb. rewrite Z.pow_add_r by done. symmetry. apply Z.rem_mul_r; lia. Qed.

Lemma mod_pow_range x n : 0 <= n → 0 <= x mod 2 ^ n < 2 ^ n.
Proof. intros Hn. apply Z.mod_pos_bound. lia. Qed.

(** ** Descriptor tables *)

Section descriptors.
Import Gdt.

(** The parts of the segment descriptor at [e]: base, limit, access byte and
    flags. *)
Definition descriptor (m : mem) (e : Z) : Z * Z * Z * Z :=
  (load16 m (e + 2) + 2 ^ 16 * (load8 m (e + 4) + 2 ^ 8 * load8 m (e + 7)),
   load16 m e + 2 ^ 16 * (load8 m (e + 6) mod 2 ^ 4),
   load8 m (e + 5),
   load8 m (e + 6) / 2 ^ 4).

Definition outside (a n : Z) (m m' : mem) : Prop := ∀ x, x < a ∨ a + n <= x → m' x = m x.

Lemma descriptor_ext m m' e : (∀ x, e <= x < e + 8 → m' x = m x) → descriptor m' e = descriptor m e.
Proof. intros E. unfold descriptor. by rewrite !(load_ext _ m' m) by (intros x Hx; apply E; lia). Qed.

Lemma gdt_set_entry_outside gdt i base limit access gran m :
  outside (gdt + 8 * i) 8 m (gdt_set_entry gdt i base limit access gran m).
Proof. intros x Hx. unfold gdt_set_entry. cbv zeta. rewrite !store_ne by lia. done. Qed.

Lemma gdt_set_tss_outside gdt i base limit m : outside (gdt + 8 * i) 16 m (gdt_set_tss gdt i base limit m).
Proof. intros x Hx. unfold gdt_set_tss. cbv zeta. rewrite !store_ne by lia. done. Qed.

Lemma gran_nibbles limit gran :
  0 <= gran < 2 ^ 8 →
  let g := u8 (Z.lor (Z.land (Z.shiftr limit 16) 0x0F) (Z.land gran 0xF0)) in
  g mod 2 ^ 4 = (limit / 2 ^ 16) mod 2 ^ 4 ∧ g / 2 ^ 4 = gran / 2 ^ 4.
Proof.
  intros Hg g. change 0x0F with (2 ^ 4 - 1) in g. pose proof (mod_pow_range (limit / 2 ^ 16) 4 ltac:(lia)) as Hr.
  assert (Hall : forallb (λ a, forallb (λ b, let g := u8 (Z.lor a (Z.land b 0xF0)) in
    (g mod 2 ^ 4 =? a) && (g / 2 ^ 4 =? b / 2 ^ 4)) (seqZ 0 256)) (seqZ 0 16) = true) by (vm_compute; reflexivity).
  pose proof (forallb_range _ _ _ (forallb_range _ _ _ Hall ((limit / 2 ^ 16) mod 2 ^ 4) ltac:(lia)) gran ltac:(lia)) as E.
  clear Hall. cbv beta zeta in E. subst g. rewrite field_val by lia. to_prop. split; assumption.
Qed.

(** What [gdt_set_entry] encodes is what the processor reads back. *)
Lemma gdt_set_entry_descriptor gdt i base limit access gran m :
  is_u32 base → 0 <= limit < 2 ^ 20 → is_u8 access → is_u8 gran →
  descriptor (gdt_set_entry gdt i base limit access gran m) (gdt + 8 * i) = (base, limit, access, gran / 2 ^ 4).
Proof.
  intros Hb Hl Ha Hg. unfold is_u32, is_u8 in *. unfold descriptor, gdt_set_entry. cbv zeta.
  destruct (gran_nibbles limit gran Hg) as [G1 G2]. set (g := u8 (Z.lor _ _)) in *.
  assert (Hgr : is_u8 g) by apply u8_range. unfold is_u8 in Hgr.
  change 0xFFFF with (2 ^ 16 - 1). change 0xFF with (2 ^ 8 - 1). rewrite !land_ones_mod, !Z.shiftr_div_pow2 by lia.
  unfold u16, u8 in *. rewrite !(Z.mod_small (_ mod _)) by (apply mod_pow_range; lia).
  pose proof (mod_pow_range base 16 ltac:(lia)). pose proof (mod_pow_range limit 16 ltac:(lia)).
  pose proof (mod_pow_range (base / 2 ^ 16) 8 ltac:(lia)). pose proof (mod_pow_range (base / 2 ^ 24) 8 ltac:(lia)).
  mem_simpl. rewrite G1, G2.
  assert (Eb : (base / 2 ^ 24) = (base / 2 ^ 16) / 2 ^ 8) by (by rewrite Z.div_div).
  assert (El : limit / 2 ^ 16 < 2 ^ 4) by (apply Z.div_lt_upper_bound; lia).
  repeat f_equal.
  - rewrite Eb, join_fields, join_fields by lia. rewrite Z.mod_small; lia.
  - rewrite join_fields by lia. rewrite Z.mod_small; lia.
Qed.

Lemma gdt_set_tss_descriptor gdt i base limit m :
  is_u64 base → 0 <= limit < 2 ^ 20 →
  let m' := gdt_set_tss gdt i base limit m in
  let e := gdt + 8 * i in
  descriptor m' e = (base mod 2 ^ 32, limit, GDT_ACCESS_TSS, 0) ∧ load32 m' (e + 8) = base / 2 ^ 32.
Proof.
  intros Hb Hl. unfold is_u64 in *. unfold descriptor, gdt_set_tss. cbv zeta.
  change 0xFFFF with (2 ^ 16 - 1). change 0xFFFFFFFF with (2 ^ 32 - 1). change 0xFF with (2 ^ 8 - 1).
  change 0x0F with (2 ^ 4 - 1). rewrite !land_ones_mod, !Z.shiftr_div_pow2 by lia.
  assert (El : 0 <= limit / 2 ^ 16 < 2 ^ 4) by (split; [apply Z.div_pos; lia|apply Z.div_lt_upper_bound; lia]).
  assert (Eh : 0 <= base / 2 ^ 32 < 2 ^ 32) by (split; [apply Z.div_pos; lia|apply Z.div_lt_upper_bound; lia]).
  rewrite (Z.mod_small (limit / 2 ^ 16)), (Z.mod_small (base / 2 ^ 32)) by lia.
  unfold u16, u8, u32, GDT_ACCESS_TSS in *. rewrite (Z.mod_small (limit / 2 ^ 16)), (Z.mod_small (base / 2 ^ 32)) by lia.
  rewrite !(Z.mod_small (_ mod _)) by (apply mod_pow_range; lia).
  pose proof (mod_pow_range base 16 ltac:(lia)). pose proof (mod_pow_range limit 16 ltac:(lia)).
  pose proof (mod_pow_range (base / 2 ^ 16) 8 ltac:(lia)). pose proof (mod_pow_range (base / 2 ^ 24) 8 ltac:(lia)).
  mem_simpl. split; [|done]. assert (Eb : (base / 2 ^ 24) = (base / 2 ^ 16) / 2 ^ 8) by (by rewrite Z.div_div).
  rewrite (Z.div_small (limit / 2 ^ 16)), (Z.mod_small (limit / 2 ^ 16)) by lia. repeat f_equal.
  - by rewrite Eb, join_fields, join_fields by lia.
  - rewrite <- (Z.mod_small (limit / 2 ^ 16) (2 ^ 4)), join_fields by lia. rewrite Z.mod_small; lia.
Qed.

(** The segments of the kernel and of user programs, by selector. *)
Definition segment_of (gdt : Z) (m : mem) (selector : Z) : Z * Z * Z * Z := descriptor m (gdt + 8 * (selector / 8)).

(** A flat segment of privilege [dpl]: present, with the given type. *)
Definition flat_segment (dpl : Z) (code : bool) (d : Z * Z * Z * Z) : Prop :=
  d = (0, 0xFFFFF, 0x92 + 2 ^ 5 * dpl + (if code then 8 else 0), if code then 0xA else 0x8).

Lemma gdt_set_other gdt i base limit access gran m j :
  i ≠ j → descriptor (gdt_set_entry gdt i base limit access gran m) (gdt + 8 * j) = descriptor m (gdt + 8 * j).
Proof. intros Hne. apply descriptor_ext. intros x Hx. apply gdt_set_entry_outside. lia. Qed.

Lemma gdt_init_segments gdt tss ist1 m :
  let m' := (gdt_init gdt tss ist1 m).2 in
  is_u64 tss →
  segment_of gdt m' 0 = (0, 0, 0, 0)
  ∧ flat_segment 0 true (segment_of gdt m' GDT_KERNEL_CODE) ∧ flat_segment 0 false (segment_of gdt m' GDT_KERNEL_DATA)
  ∧ flat_segment 3 true (segment_of gdt m' GDT_USER_CODE) ∧ flat_segment 3 false (segment_of gdt m' GDT_USER_DATA)
  ∧ segment_of gdt m' GDT_TSS_SEL = (tss mod 2 ^ 32, sizeof_tss - 1, GDT_ACCESS_TSS, 0)
  ∧ load32 m' (gdt + GDT_TSS_SEL + 8) = tss / 2 ^ 32.
Proof.
  intros m' Ht. unfold m', gdt_init. cbv zeta. cbn [snd]. unfold flat_segment, segment_of.
  change (GDT_KERNEL_CODE / 8) with 1. change (GDT_KERNEL_DATA / 8) with 2. change (GDT_USER_CODE / 8) with 6.
  change (GDT_USER_DATA / 8) with 5. change (GDT_TSS_SEL / 8) with 3. change GDT_TSS_SEL with (8 * 3).
  change (0 / 8) with 0.
  set (m0 := gdt_set_entry gdt 2 _ _ _ _ _). set (m3 := gdt_set_tss _ _ _ _ _).
  destruct (gdt_set_tss_descriptor gdt 3 tss (sizeof_tss - 1) m0 Ht ltac:(unfold sizeof_tss; lia)) as [Et Eh].
  fold m3 in Et, Eh.
  assert (Hlow : ∀ j, j ≠ 3 → j ≠ 4 → descriptor m3 (gdt + 8 * j) = descriptor m0 (gdt + 8 * j)).
  { intros j H3 H4. apply descriptor_ext. intros x Hx. apply gdt_set_tss_outside. lia. }
  split_and!.
  all: rewrite ?(gdt_set_other gdt 6), ?(gdt_set_other gdt 5) by lia.
  - rewrite Hlow by lia. unfold m0. rewrite !gdt_set_other by lia. by apply gdt_set_entry_descriptor.
  - rewrite Hlow by lia. unfold m0. rewrite gdt_set_other by lia. by apply gdt_set_entry_descriptor.
  - rewrite Hlow by lia. unfold m0. by apply gdt_set_entry_descriptor.
  - by apply gdt_set_entry_descriptor.
  - by apply gdt_set_entry_descriptor.
  - exact Et.
  - rewrite <- Eh. apply load_ext. intros x Hx. rewrite !gdt_set_entry_outside by lia. done.
Qed.

(** The selectors that the processor derives from STAR: SYSCALL takes bits 32-47
    for CS and adds 8 for SS, SYSRET takes bits 48-63 and adds 16 for CS and 8
    for SS. *)
Definition syscall_cs (star : Z) : Z := (star / 2 ^ 32) mod 2 ^ 16.
Definition syscall_ss (star : Z) : Z := syscall_cs star + 8.
Definition sysret_cs (star : Z) : Z := star / 2 ^ 48 + 16.
Definition sysret_ss (star : Z) : Z := star / 2 ^ 48 + 8.

(** C34. The segment registers fit together.  With the tables of [gdt_init] and
    the registers of [syscall_init], a system call enters the kernel's flat code
    and data segments and returns to the flat code and data segments of privilege
    3; the task register names a descriptor of the task state segment; system
    calls are enabled, enter at [entry] and clear the interrupt flag. *)
Theorem syscall_segments gdt tss ist1 m entry r :
  is_u64 tss →
  let '(regs, m') := gdt_init gdt tss ist1 m in
  let r' := syscall_init entry r in
  let star := r' MSR_STAR in
  flat_segment 0 true (segment_of gdt m' (syscall_cs star)) ∧ flat_segment 0 false (segment_of gdt m' (syscall_ss star))
  ∧ flat_segment 3 true (segment_of gdt m' (sysret_cs star)) ∧ flat_segment 3 false (segment_of gdt m' (sysret_ss star))
  ∧ segment_of gdt m' (tr regs) = (tss mod 2 ^ 32, sizeof_tss - 1, GDT_ACCESS_TSS, 0)
  ∧ load32 m' (gdt + tr regs + 8) = tss / 2 ^ 32
  ∧ gdtr_base regs = gdt ∧ gdtr_limit regs = 8 * GDT_ENTRIES - 1
  ∧ Z.testbit (r' MSR_EFER) 0 = true ∧ r' MSR_LSTAR = entry ∧ Z.testbit (r' MSR_SFMASK) 9 = true.
Proof.
  intros Ht. pose proof (gdt_init_segments gdt tss ist1 m Ht) as Hg. cbv zeta in Hg.
  destruct (gdt_init gdt tss ist1 m) as [regs m'] eqn:E. cbn [snd] in Hg. injection E as <- _.
  destruct Hg as (_ & G1 & G2 & G3 & G4 & G5 & G6). cbv zeta.
  change (syscall_init entry r MSR_STAR) with 0x0020000800000000.
  change (syscall_cs 0x0020000800000000) with GDT_KERNEL_CODE. change (syscall_ss 0x0020000800000000) with GDT_KERNEL_DATA.
  change (sysret_cs 0x0020000800000000) with GDT_USER_CODE. change (sysret_ss 0x0020000800000000) with GDT_USER_DATA.
  split_and!; try done. change (syscall_init entry r MSR_EFER) with (Z.lor (r MSR_EFER) EFER_SCE).
  rewrite Z.lor_spec. apply orb_true_r.
Qed.

End descriptors.

Section gates.
Import Idt.

(** The parts of the interrupt gate at [e]: offset, selector, stack index, type
    and the reserved word. *)
Definition gate (m : mem) (e : Z) : Z * Z * Z * Z * Z :=
  (load16 m e + 2 ^ 16 * (load16 m (e + 6) + 2 ^ 16 * load32 m (e + 8)),
   load16 m (e + 2), load8 m (e + 4), load8 m (e + 5), load32 m (e + 12)).

Lemma gate_ext m m' e : (∀ x, e <= x < e + 16 → m' x = m x) → gate m' e = gate m e.
Proof. intros E. unfold gate. by rewrite !(load_ext _ m' m) by (intros x Hx; apply E; lia). Qed.

Lemma idt_set_entry_gate idt v handler selector type ist m :
  is_u64 handler → 0 <= selector < 2 ^ 16 → is_u8 type → 0 <= ist →
  gate (idt_set_entry idt v handler selector type ist m) (idt + 16 * v) = (handler, selector, ist mod 8, type, 0).
Proof.
  intros Hh Hs Ht Hi. unfold is_u64, is_u8 in *. unfold gate, idt_set_entry. cbv zeta.
  change 0xFFFF with (2 ^ 16 - 1). change 0xFFFFFFFF with (2 ^ 32 - 1). change 0x07 with (2 ^ 3 - 1).
  rewrite !land_ones_mod, !Z.shiftr_div_pow2 by lia. unfold u16, u32.
  rewrite !(Z.mod_small (_ mod _)) by (apply mod_pow_range; lia).
  pose proof (mod_pow_range handler 16 ltac:(lia)). pose proof (mod_pow_range (handler / 2 ^ 16) 16 ltac:(lia)).
  pose proof (mod_pow_range (handler / 2 ^ 32) 32 ltac:(lia)). pose proof (mod_pow_range ist 3 ltac:(lia)).
  mem_simpl. repeat f_equal.
  assert (Eb : handler / 2 ^ 32 = (handler / 2 ^ 16) / 2 ^ 16) by (by rewrite Z.div_div).
  rewrite Eb, join_fields, join_fields by lia. rewrite Z.mod_small; lia.
Qed.

Lemma idt_set_other idt v handler selector type ist m w :
  v ≠ w → gate (idt_set_entry idt v handler selector type ist m) (idt + 16 * w) = gate m (idt + 16 * w).
Proof.
  intros Hne. apply gate_ext. intros x Hx. unfold idt_set_entry. cbv zeta. rewrite !store_ne by lia. done.
Qed.

Lemma idt_clear_gate idt i m w :
  gate (idt_clear_entry idt i m) (idt + 16 * w) = if decide (i = w) then (0, 0, 0, 0, 0) else gate m (idt + 16 * w).
Proof.
  case_decide as E.
  - subst w. unfold gate, idt_clear_entry. cbv zeta. mem_simpl. done.
  - apply gate_ext. intros x Hx. unfold idt_clear_entry. cbv zeta. rewrite !store_ne by lia. done.
Qed.

(** C33. The interrupt table.  After [idt_init] the gate of each of the vectors 0
    to 47 leads to the stub of its number, in the kernel's code segment, as an
    interrupt gate of privilege 0, the double fault on a stack of its own; all
    other gates are not present.  The table register covers all 256. *)
Theorem idt_init_gates idt stub m :
  (∀ v, 0 <= v < 48 → is_u64 (stub v)) →
  let '(regs, m') := idt_init idt stub m in
  (∀ v, 0 <= v < IDT_ENTRIES → gate m' (idt + 16 * v) =
     if v <? 48 then (stub v, KERNEL_CS, if v =? 8 then 1 else 0, IDT_GATE_INTERRUPT, 0) else (0, 0, 0, 0, 0))
  ∧ idtr_base regs = idt ∧ idtr_limit regs + 1 = 16 * IDT_ENTRIES.
Proof.
  intros Hstub. unfold idt_init. cbv zeta. split_and!; [|done|done]. intros v Hv.
  set (m1 := for_each 0 IDT_ENTRIES (idt_clear_entry idt) m).
  assert (Hclear : gate m1 (idt + 16 * v) = (0, 0, 0, 0, 0)).
  { refine (for_each_inv (λ i m', v < i → gate m' (idt + 16 * v) = (0, 0, 0, 0, 0)) 0 IDT_ENTRIES _ m _ _ _ _);
      [done|lia| |lia]. intros i m' Hi IH Hlt. rewrite idt_clear_gate. case_decide; [done|]. apply IH. lia. }
  set (body := λ v m, _).
  enough (gate (for_each 0 48 body m1) (idt + 16 * v) =
    if v <? 48 then (stub v, KERNEL_CS, ist_of v, IDT_GATE_INTERRUPT, 0) else (0, 0, 0, 0, 0)) as E by exact E.
  refine (for_each_inv (λ i m', gate m' (idt + 16 * v) =
    if v <? i then (stub v, KERNEL_CS, ist_of v, IDT_GATE_INTERRUPT, 0) else (0, 0, 0, 0, 0)) 0 48 body m1 _ _ _); [lia| |].
  - by rewrite (proj2 (Z.ltb_ge v 0)) by lia.
  - intros i m' Hi IH. unfold body. destruct (decide (i = v)) as [->|Hne].
    + rewrite (proj2 (Z.ltb_lt v (v + 1))) by lia. rewrite idt_set_entry_gate; [|by apply Hstub|done|done|].
      * unfold ist_of. by destruct (v =? 8).
      * unfold ist_of. destruct (v =? 8); lia.
    + rewrite idt_set_other by done. rewrite IH. replace (v <? i + 1) with (v <? i); [done|].
      destruct (Z.ltb_spec v i), (Z.ltb_spec v (i + 1)); lia || done.
Qed.

End gates.

(** ** The interrupt controller *)

Section controller.
Import Pic.

Inductive icw_stage := Operational | Wait_ICW2 | Wait_ICW3 | Wait_ICW4.

(** One 8259A: vector offset, mask, in-service and request registers, where it is
    in its initialisation sequence and how that was begun, and which register a
    read of the command port gives. *)
Record chip := Chip {
  vec : Z; imr : Z; isr : Z; irr : Z; stage : icw_stage; icw1 : Z; read_isr : bool
}.

Definition after_icw2 (c : chip) : icw_stage :=
  if Z.land (icw1 c) 0x02 =? 0 then Wait_ICW3 else if Z.land (icw1 c) 0x01 =? 0 then Operational else Wait_ICW4.
Definition after_icw3 (c : chip) : icw_stage := if Z.land (icw1 c) 0x01 =? 0 then Operational else Wait_ICW4.

(** A write to the command port: ICW1, OCW3 or OCW2 (a non-specific end of
    interrupt clears the in-service bit of the highest priority). *)
Definition chip_command (v : Z) (c : chip) : chip :=
  if negb (Z.land v 0x10 =? 0) then Chip (vec c) 0 (isr c) (irr c) Wait_ICW2 v false
  else if negb (Z.land v 0x08 =? 0) then
    if Z.land v 0x02 =? 0 then c
    else Chip (vec c) (imr c) (isr c) (irr c) (stage c) (icw1 c) (negb (Z.land v 0x01 =? 0))
  else if v =? 0x20 then
    Chip (vec c) (imr c) (Z.land (isr c) (isr c - 1)) (irr c) (stage c) (icw1 c) (read_isr c)
  else c.

(** A write to the data port: the next initialisation word, or the mask. *)
Definition chip_data (v : Z) (c : chip) : chip :=
  match stage c with
  | Operational => Chip (vec c) v (isr c) (irr c) Operational (icw1 c) (read_isr c)
  | Wait_ICW2 => Chip (Z.land v 0xF8) (imr c) (isr c) (irr c) (after_icw2 c) (icw1 c) (read_isr c)
  | Wait_ICW3 => Chip (vec c) (imr c) (isr c) (irr c) (after_icw3 c) (icw1 c) (read_isr c)
  | Wait_ICW4 => Chip (vec c) (imr c) (isr c) (irr c) Operational (icw1 c) (read_isr c)
  end.

Definition command_port (slave : bool) : Z := if slave then PIC2_COMMAND else PIC1_COMMAND.
Definition data_port (slave : bool) : Z := if slave then PIC2_DATA else PIC1_DATA.

End controller.

(** The ports reach two such chips; other ports leave them alone. *)
Class Pic8259 (P : Type) `{Ports P} := {
  pic_chip : bool → P → chip;
  out_command b v p : pic_chip b (outb (command_port b) v p) = chip_command v (pic_chip b p);
  out_data b v p : pic_chip b (outb (data_port b) v p) = chip_data v (pic_chip b p);
  out_other b port v p :
    port ≠ command_port b → port ≠ data_port b → pic_chip b (outb port v p) = pic_chip b p;
  in_chip b port p : pic_chip b (inb port p).2 = pic_chip b p;
  in_data b p : stage (pic_chip b p) = Operational → (inb (data_port b) p).1 = imr (pic_chip b p);
  in_command b p : (inb (command_port b) p).1 = if read_isr (pic_chip b p) then isr (pic_chip b p) else irr (pic_chip b p)
}.

Section controller_spec.
Import Pic Irq.
Context {P : Type} `{Pic8259 P}.
Implicit Types p : P.

Lemma ports_apart b v p :
  pic_chip b (outb (command_port (negb b)) v p) = pic_chip b p ∧ pic_chip b (outb (data_port (negb b)) v p) = pic_chip b p.
Proof. split; apply out_other; by destruct b. Qed.

Lemma pic_chip_wait b p : pic_chip b (io_wait p) = pic_chip b p.
Proof. apply out_other; by destruct b. Qed.
Lemma master_command v p : pic_chip false (outb PIC1_COMMAND v p) = chip_command v (pic_chip false p).
Proof. apply (out_command false). Qed.
Lemma master_data v p : pic_chip false (outb PIC1_DATA v p) = chip_data v (pic_chip false p).
Proof. apply (out_data false). Qed.
Lemma slave_command v p : pic_chip true (outb PIC2_COMMAND v p) = chip_command v (pic_chip true p).
Proof. apply (out_command true). Qed.
Lemma slave_data v p : pic_chip true (outb PIC2_DATA v p) = chip_data v (pic_chip true p).
Proof. apply (out_data true). Qed.
Lemma master_other v p :
  pic_chip false (outb PIC2_COMMAND v p) = pic_chip false p ∧ pic_chip false (outb PIC2_DATA v p) = pic_chip false p.
Proof. apply (ports_apart false). Qed.
Lemma slave_other v p :
  pic_chip true (outb PIC1_COMMAND v p) = pic_chip true p ∧ pic_chip true (outb PIC1_DATA v p) = pic_chip true p.
Proof. apply (ports_apart true). Qed.

(** Follow the chips through port accesses. *)
Ltac pic_simpl :=
  repeat first
    [ rewrite pic_chip_wait | rewrite in_chip | rewrite master_command | rewrite master_data | rewrite slave_command
    | rewrite slave_data | rewrite (proj1 (master_other _ _)) | rewrite (proj2 (master_other _ _))
    | rewrite (proj1 (slave_other _ _)) | rewrite (proj2 (slave_other _ _)) ].

Lemma pic_init_chips p :
  pic_chip false (pic_init p) = Chip 32 0xFB (isr (pic_chip false p)) (irr (pic_chip false p)) Operational 0x11 false
  ∧ pic_chip true (pic_init p) = Chip 40 0xFF (isr (pic_chip true p)) (irr (pic_chip true p)) Operational 0x11 false.
Proof.
  unfold pic_init. rewrite <- (in_chip false PIC1_DATA p), <- (in_chip true PIC1_DATA p).
  destruct (inb PIC1_DATA p) as [m1 p1]. cbn [snd]. rewrite <- (in_chip false PIC2_DATA p1), <- (in_chip true PIC2_DATA p1).
  destruct (inb PIC2_DATA p1) as [m2 p2]. cbn [snd]. by split; pic_simpl.
Qed.

(** The line [irq] cannot interrupt. *)
Definition line_masked (irq : Z) p : bool := Z.testbit (imr (pic_chip (8 <=? irq) p)) (irq mod 8).

(** Both chips take their mask from the data port. *)
Definition pic_ready p : Prop := ∀ b, stage (pic_chip b p) = Operational ∧ is_u8 (imr (pic_chip b p)).

Lemma pic_init_lines p : pic_ready (pic_init p) ∧ ∀ irq, 0 <= irq < 16 → line_masked irq (pic_init p) = negb (irq =? 2).
Proof.
  destruct (pic_init_chips p) as [E1 E2]. unfold pic_ready, line_masked. split; [intros []; by rewrite ?E1, ?E2|].
  intros irq Hirq. assert (Hall : forallb (λ irq, eqb (Z.testbit (if 8 <=? irq then 0xFF else 0xFB) (irq mod 8)) (negb (irq =? 2)))
      (seqZ 0 16) = true) by (vm_compute; reflexivity).
  pose proof (forallb_range _ _ _ Hall irq ltac:(lia)) as E. apply eqb_prop in E. rewrite <- E.
  destruct (8 <=? irq); by rewrite ?E1, ?E2.
Qed.

(** Whatever state the two controllers are in, [pic_init] takes them through
    the whole initialisation sequence: the master raises vectors from 32 on, the
    slave from 40 on, and every line but the cascade is masked.  Interrupts in
    service stay in service. *)
Theorem pic_init_remaps p :
  let p' := pic_init p in
  vec (pic_chip false p') = PIC1_VECTOR_OFFSET ∧ vec (pic_chip true p') = PIC2_VECTOR_OFFSET
  ∧ pic_ready p' ∧ (∀ b, isr (pic_chip b p') = isr (pic_chip b p))
  ∧ ∀ irq, 0 <= irq < 16 → line_masked irq p' = negb (irq =? 2).
Proof.
  destruct (pic_init_chips p) as [E1 E2]. destruct (pic_init_lines p) as [Hr Hl]. cbv zeta.
  split_and!; [by rewrite E1|by rewrite E2|done| |done]. intros []; by rewrite ?E1, ?E2.
Qed.

Lemma mask_port_ok irq : 0 <= irq < 16 → mask_port irq = (data_port (8 <=? irq), irq mod 8).
Proof.
  intros Hirq. unfold mask_port. destruct (Z.ltb_spec irq 8).
  - rewrite (proj2 (Z.leb_gt 8 irq)), Z.mod_small by lia. done.
  - rewrite (proj2 (Z.leb_le 8 irq)) by lia. unfold u8. rewrite (Z.mod_small (irq - 8)) by lia.
    replace (irq mod 8) with (irq - 8); [done|]. apply (Z.mod_unique _ _ 1); lia.
Qed.

(** The mask of one chip is replaced. *)
Lemma set_mask b v p :
  pic_ready p → is_u8 v → let p' := outb (data_port b) v (inb (data_port b) p).2 in
  pic_ready p' ∧ imr (pic_chip b p') = v ∧ imr (pic_chip (negb b) p') = imr (pic_chip (negb b) p)
  ∧ ∀ c, isr (pic_chip c p') = isr (pic_chip c p).
Proof.
  intros Hr Hv p'. assert (Eb : pic_chip b p' = chip_data v (pic_chip b p)) by (unfold p'; by rewrite out_data, in_chip).
  assert (En : pic_chip (negb b) p' = pic_chip (negb b) p).
  { unfold p'. rewrite out_other, in_chip by (by destruct b). done. }
  assert (Ec : chip_data v (pic_chip b p) = Chip (vec (pic_chip b p)) v (isr (pic_chip b p)) (irr (pic_chip b p)) Operational
    (icw1 (pic_chip b p)) (read_isr (pic_chip b p))) by (unfold chip_data; by rewrite (proj1 (Hr b))).
  rewrite Ec in Eb. split_and!; [|by rewrite Eb|by rewrite En|].
  - intros c. destruct (decide (c = b)) as [->|Hc]; [by rewrite Eb|]. replace c with (negb b) by (by destruct b, c). by rewrite En.
  - intros c. destruct (decide (c = b)) as [->|Hc]; [by rewrite Eb|]. replace c with (negb b) by (by destruct b, c). by rewrite En.
Qed.

Lemma line_eq j irq : 0 <= j < 16 → 0 <= irq < 16 → (8 <=? j) = (8 <=? irq) → j mod 8 = irq mod 8 → j = irq.
Proof.
  intros Hj Hi E Em. pose proof (Z.div_mod j 8 ltac:(lia)). pose proof (Z.div_mod irq 8 ltac:(lia)).
  pose proof (Z.mod_pos_bound j 8 ltac:(lia)). destruct (Z.leb_spec 8 j), (Z.leb_spec 8 irq); lia.
Qed.

Lemma u8_bits x k : 0 <= k < 8 → Z.testbit (u8 x) k = Z.testbit x k.
Proof. intros Hk. unfold u8. by rewrite Z.mod_pow2_bits_low by lia. Qed.

(** A mask computed from the one in place changes one line. *)
Lemma set_line irq p (f : Z → Z) (g : bool → bool) :
  pic_ready p → 0 <= irq < 16 →
  (∀ v k, 0 <= k < 8 → Z.testbit (f v) k = if k =? irq mod 8 then g (Z.testbit v k) else Z.testbit v k) →
  let p' := outb (data_port (8 <=? irq)) (u8 (f (imr (pic_chip (8 <=? irq) p)))) (inb (data_port (8 <=? irq)) p).2 in
  pic_ready p' ∧ (∀ c, isr (pic_chip c p') = isr (pic_chip c p))
  ∧ ∀ j, 0 <= j < 16 → line_masked j p' = if j =? irq then g (line_masked j p) else line_masked j p.
Proof.
  intros Hr Hirq Hf p'. set (b := 8 <=? irq) in *.
  destruct (set_mask b (u8 (f (imr (pic_chip b p)))) p Hr (u8_range _)) as (R1 & R2 & R3 & R4). fold p' in R1, R2, R3, R4.
  split_and!; [done|done|]. intros j Hj. unfold line_masked. pose proof (Z.mod_pos_bound j 8 ltac:(lia)) as Hm.
  destruct (decide ((8 <=? j) = b)) as [Eb|Eb].
  - rewrite Eb, R2, u8_bits, Hf by done. destruct (Z.eqb_spec (j mod 8) (irq mod 8)) as [Em|Em].
    + rewrite (line_eq j irq) by done. by rewrite Z.eqb_refl.
    + destruct (Z.eqb_spec j irq) as [->|]; [done|done].
  - destruct (Z.eqb_spec j irq) as [->|]; [done|]. replace (8 <=? j) with (negb b) by (by destruct (8 <=? j), b). by rewrite R3.
Qed.

Lemma testbit_one k j : 0 <= k → 0 <= j → Z.testbit (Z.shiftl 1 k) j = (j =? k).
Proof. intros Hk Hj. rewrite Z.shiftl_1_l, Z.pow2_bits_eqb by done. apply Z.eqb_sym. Qed.

Lemma pic_mask_lines irq p :
  pic_ready p → 0 <= irq < 16 →
  (pic_ready (pic_mask_irq irq p) ∧ ∀ j, 0 <= j < 16 →
     line_masked j (pic_mask_irq irq p) = if j =? irq then true else line_masked j p)
  ∧ (pic_ready (pic_unmask_irq irq p) ∧ ∀ j, 0 <= j < 16 →
     line_masked j (pic_unmask_irq irq p) = if j =? irq then false else line_masked j p).
Proof.
  intros Hr Hirq. pose proof (Z.mod_pos_bound irq 8 ltac:(lia)) as Hm. unfold pic_mask_irq, pic_unmask_irq.
  rewrite (mask_port_ok irq Hirq). pose proof (in_data (8 <=? irq) p (proj1 (Hr _))) as Ei.
  destruct (set_line irq p (λ v, Z.lor v (Z.shiftl 1 (irq mod 8))) (λ _, true) Hr Hirq) as (R1 & _ & R2).
  { intros v k Hk. rewrite Z.lor_spec, testbit_one by lia. destruct (k =? irq mod 8); [apply orb_true_r|apply orb_false_r]. }
  destruct (set_line irq p (λ v, Z.land v (Z.lnot (Z.shiftl 1 (irq mod 8)))) (λ _, false) Hr Hirq) as (U1 & _ & U2).
  { intros v k Hk. rewrite Z.land_spec, Z.lnot_spec, testbit_one by lia.
    destruct (k =? irq mod 8); [apply andb_false_r|apply andb_true_r]. }
  destruct (inb (data_port (8 <=? irq)) p) as [v p1]. simpl in *. subst v. done.
Qed.

(** Masking or unmasking a line sets the mask of exactly that line, on the
    chip that serves it, and leaves all others as they were. *)
Theorem pic_mask_one_line irq p :
  pic_ready p → 0 <= irq < 16 →
  (pic_ready (pic_mask_irq irq p) ∧ ∀ j, 0 <= j < 16 →
     line_masked j (pic_mask_irq irq p) = if j =? irq then true else line_masked j p)
  ∧ (pic_ready (pic_unmask_irq irq p) ∧ ∀ j, 0 <= j < 16 →
     line_masked j (pic_unmask_irq irq p) = if j =? irq then false else line_masked j p).
Proof. apply pic_mask_lines. Qed.

(** *** Interrupts in service *)

(** The line [irq] is in service. *)
Definition in_service (irq : Z) p : bool := Z.testbit (isr (pic_chip (8 <=? irq) p)) (irq mod 8).

(** The line [k] is the one of the highest priority that the chip serves. *)
Definition serving (c : chip) (k : Z) : Prop :=
  Z.testbit (isr c) k = true ∧ ∀ j, 0 <= j < k → Z.testbit (isr c) j = false.

(** A state in which the line [irq] has been acknowledged; the master serves the
    slave's lines through the line of the cascade. *)
Definition acknowledged (irq : Z) p : Prop :=
  (∀ b, is_u8 (isr (pic_chip b p))) ∧ serving (pic_chip (8 <=? irq) p) (irq mod 8)
  ∧ (8 <= irq → serving (pic_chip false p) 2).

Lemma clear_lowest x k j :
  is_u8 x → 0 <= k < 8 → 0 <= j < 8 → Z.testbit x k = true → (∀ j, 0 <= j < k → Z.testbit x j = false) →
  Z.testbit (Z.land x (x - 1)) j = Z.testbit x j && negb (j =? k).
Proof.
  intros Hx Hk Hj Hb Hlow.
  assert (Hdvd : x mod 2 ^ k = 0).
  { apply Z.bits_inj_0. intros i. destruct (Z.ltb_spec i 0); [by rewrite Z.testbit_neg_r by lia|].
    destruct (Z.ltb_spec i k); [rewrite Z.mod_pow2_bits_low by lia; apply Hlow; lia|by rewrite Z.mod_pow2_bits_high by lia]. }
  assert (Hall : forallb (λ x, forallb (λ k, forallb (λ j,
    implb (Z.testbit x k && (x mod 2 ^ k =? 0)) (eqb (Z.testbit (Z.land x (x - 1)) j) (Z.testbit x j && negb (j =? k))))
    (seqZ 0 8)) (seqZ 0 8)) (seqZ 0 256) = true) by (vm_compute; reflexivity).
  pose proof (forallb_range _ _ _ Hall x ltac:(unfold is_u8 in Hx; lia)) as H1. clear Hall. cbv beta in H1.
  pose proof (forallb_range _ _ _ H1 k ltac:(lia)) as H2. clear H1. cbv beta in H2.
  pose proof (forallb_range _ _ _ H2 j ltac:(lia)) as H3. clear H2. cbv beta in H3.
  rewrite Hb, Hdvd in H3. by apply eqb_prop.
Qed.

(** An end of interrupt clears the served line. *)
Lemma eoi_isr c k j :
  is_u8 (isr c) → 0 <= k < 8 → 0 <= j < 8 → serving c k →
  Z.testbit (isr (chip_command PIC_EOI c)) j = Z.testbit (isr c) j && negb (j =? k).
Proof. intros Hu Hk Hj [Hb Hl]. by apply clear_lowest. Qed.

Lemma line_cases irq line :
  0 <= irq < 16 → 0 <= line < 16 → (8 <=? line) = (8 <=? irq) → (line mod 8 =? irq mod 8) = (line =? irq).
Proof.
  intros Hi Hl Eb. destruct (Z.eqb_spec (line mod 8) (irq mod 8)), (Z.eqb_spec line irq); try done.
  - by destruct (line_eq line irq Hl Hi Eb).
  - by subst.
Qed.

Lemma pic_send_eoi_lines irq p line :
  0 <= irq < 16 → 0 <= line < 16 → acknowledged irq p →
  in_service line (pic_send_eoi irq p) = in_service line p && negb (line =? irq) && negb ((8 <=? irq) && (line =? 2)).
Proof.
  intros Hi Hl (Hu & Hs & Hc). unfold pic_send_eoi, in_service.
  pose proof (Z.mod_pos_bound irq 8 ltac:(lia)) as Hmi. pose proof (Z.mod_pos_bound line 8 ltac:(lia)) as Hml.
  destruct (Z.leb_spec 8 irq) as [H8|H8]; destruct (Z.leb_spec 8 line) as [L8|L8].
  - rewrite (proj1 (slave_other _ _)), slave_command, (eoi_isr _ (irq mod 8)) by done.
    rewrite line_cases by (lia || (by rewrite !(proj2 (Z.leb_le 8 _)) by lia)).
    rewrite (proj2 (Z.eqb_neq line 2)) by lia. simpl. by rewrite andb_true_r.
  - rewrite master_command, (proj1 (master_other _ _)), (eoi_isr _ 2) by (lia || auto).
    rewrite (proj2 (Z.eqb_neq line irq)), Z.mod_small by lia. simpl. by rewrite andb_true_r.
  - rewrite (proj1 (slave_other _ _)). rewrite (proj2 (Z.eqb_neq line irq)) by lia. by rewrite !andb_true_r.
  - rewrite master_command, (eoi_isr _ (irq mod 8)) by done.
    rewrite line_cases by (lia || (by rewrite !(proj2 (Z.leb_gt 8 _)) by lia)). by rewrite andb_true_r.
Qed.

Lemma bit7 v : (Z.land v 0x80 =? 0) = negb (Z.testbit v 7).
Proof.
  destruct (Z.testbit v 7) eqn:E; simpl.
  - apply Z.eqb_neq. intros Hz. assert (Z.testbit (Z.land v 0x80) 7 = true) as Hb by (by rewrite Z.land_spec, E).
    by rewrite Hz in Hb.
  - apply Z.eqb_eq. apply Z.bits_inj_0. intros i. rewrite Z.land_spec. change 0x80 with (2 ^ 7).
    rewrite Z.pow2_bits_eqb by lia. destruct (Z.eqb_spec 7 i) as [<-|]; [by rewrite E|apply andb_false_r].
Qed.

(** Reading the in-service register changes no line. *)
Lemma probe_isr b p :
  let '(v, p') := inb (command_port b) (outb (command_port b) OCW3_READ_ISR p) in
  v = isr (pic_chip b p) ∧ ∀ c, isr (pic_chip c p') = isr (pic_chip c p).
Proof.
  set (p1 := outb _ _ p). assert (Ep : ∀ c, isr (pic_chip c p1) = isr (pic_chip c p)).
  { intros c. unfold p1. destruct (decide (c = b)) as [->|Hc]; [by rewrite out_command|].
    rewrite out_other by (by destruct b, c). done. }
  pose proof (in_command b p1) as Ev. pose proof (λ c, in_chip c (command_port b) p1) as Ec.
  destruct (inb _ p1) as [v p']. simpl in *. split.
  - rewrite Ev, <- Ep. unfold p1 at 1. by rewrite out_command.
  - intros c. by rewrite Ec.
Qed.

Lemma pic_is_spurious_spec irq p :
  let '(r, p') := pic_is_spurious irq p in
  r = ((irq =? 7) || (irq =? 15)) && negb (in_service irq p) ∧ ∀ c, isr (pic_chip c p') = isr (pic_chip c p).
Proof.
  unfold pic_is_spurious. destruct (Z.eqb_spec irq 7) as [->|]; [|destruct (Z.eqb_spec irq 15) as [->|]; [|done]].
  - pose proof (probe_isr false p) as H1. change PIC1_COMMAND with (command_port false). destruct (inb _ _) as [v p'].
    destruct H1 as [-> H1]. by rewrite bit7.
  - pose proof (probe_isr true p) as H1. change PIC2_COMMAND with (command_port true). destruct (inb _ _) as [v p'].
    destruct H1 as [-> H1]. by rewrite bit7.
Qed.

(** The vector of a line, as [irq_handler] takes it apart. *)
Lemma vector_line irq : 0 <= irq < 16 → u8 (IRQ_VECTOR_BASE + irq - IRQ_VECTOR_BASE) = irq.
Proof. intros Hi. unfold u8. rewrite Z.mod_small; lia. Qed.

Lemma in_service_ext p p' line : (∀ c, isr (pic_chip c p') = isr (pic_chip c p)) → in_service line p' = in_service line p.
Proof. intros E. unfold in_service. by rewrite E. Qed.

Lemma acknowledged_ext irq p p' : (∀ c, isr (pic_chip c p') = isr (pic_chip c p)) → acknowledged irq p → acknowledged irq p'.
Proof. intros E (Hu & Hs & Hc). unfold acknowledged, serving in *. setoid_rewrite E. done. Qed.

(** C20. An interrupt that the controllers have acknowledged leads to exactly
    this: for lines 7 and 15 the in-service register is read, then the handler
    of the line runs, once, then the end of interrupt is sent.  After it the line
    is no longer in service; every other line keeps its state, the cascade of a
    slave's line excepted, which ends too.  An interrupt 7 or 15 that is not in
    service is spurious: no handler runs, no line of a master's interrupt ends,
    and for a slave's only the cascade.  Handlers are taken to leave the
    in-service registers alone. *)
Theorem irq_handler_spec (t : Z → option (P → P)) irq p :
  0 <= irq < 16 → (∀ h, t irq = Some h → ∀ b p, isr (pic_chip b (h p)) = isr (pic_chip b p)) →
  let q := (pic_is_spurious irq p).2 in
  (irq ≠ 7 → irq ≠ 15 → q = p)
  ∧ (acknowledged irq p →
     irq_handler t (IRQ_VECTOR_BASE + irq) p = pic_send_eoi irq (default id (t irq) q)
     ∧ ∀ line, 0 <= line < 16 → in_service line (irq_handler t (IRQ_VECTOR_BASE + irq) p) =
         in_service line p && negb (line =? irq) && negb ((8 <=? irq) && (line =? 2)))
  ∧ (irq = 7 ∨ irq = 15 → in_service irq p = false → (irq = 15 → acknowledged 2 p) →
     irq_handler t (IRQ_VECTOR_BASE + irq) p = (if irq =? 15 then pic_send_eoi 2 q else q)
     ∧ ∀ line, 0 <= line < 16 → in_service line (irq_handler t (IRQ_VECTOR_BASE + irq) p) =
         in_service line p && negb ((irq =? 15) && (line =? 2))).
Proof.
  intros Hi Hh q. unfold irq_handler. rewrite vector_line by done. rewrite (proj2 (Z.leb_gt IRQ_COUNT irq)) by (unfold IRQ_COUNT; lia).
  split. { intros H7 H15. unfold q, pic_is_spurious. by rewrite (proj2 (Z.eqb_neq irq 7)), (proj2 (Z.eqb_neq irq 15)). }
  pose proof (pic_is_spurious_spec irq p) as Hs. destruct (pic_is_spurious irq p) as [r p0]. subst q. cbn [snd].
  destruct Hs as [-> E0]. split.
  - intros Hack. assert (Hin : in_service irq p = true) by apply Hack. rewrite Hin, andb_false_r.
    assert (E1 : ∀ c, isr (pic_chip c (default id (t irq) p0)) = isr (pic_chip c p)).
    { intros c. destruct (t irq) as [h|]; simpl; [rewrite (Hh h) by done|]; apply E0. }
    replace (match t irq with Some h => h p0 | None => p0 end) with (default id (t irq) p0) by (by destruct (t irq)).
    split; [done|]. intros line Hl. rewrite pic_send_eoi_lines by (done || by apply (acknowledged_ext _ p)).
    by rewrite (in_service_ext p).
  - intros H7 Hin Hack. rewrite Hin. rewrite andb_true_r.
    assert (Hb : (irq =? 7) || (irq =? 15) = true) by (by destruct H7 as [->| ->]). rewrite Hb.
    destruct H7 as [->| ->]; simpl; (split; [done|]); intros line Hl.
    + rewrite andb_true_r. by apply in_service_ext.
    + rewrite pic_send_eoi_lines by (lia || (apply (acknowledged_ext _ p); auto)). rewrite (in_service_ext p) by done.
      simpl. by rewrite andb_true_r.
Qed.

End controller_spec.

(** ** The timer *)

Section timer.
Import Pit.
Context {S : Type} (halt : S → S) (tick_count : S → Z).

(** Sleeping.  When every halt lasts until the next tick, [pit_sleep_ms]
    returns after at least [ms] milliseconds and less than one tick more,
    provided the tick count does not wrap meanwhile. *)
Theorem pit_sleep_ms_spec ms s :
  (∀ s, tick_count (halt s) = tick_count s + 1) →
  0 <= tick_count s → 0 <= ms → tick_count s * PIT_MS_PER_TICK + ms + PIT_MS_PER_TICK < 2 ^ 64 →
  ∃ s', pit_sleep_ms halt tick_count ms s = Some s'
    ∧ pit_get_uptime_ms (tick_count s) + ms <= pit_get_uptime_ms (tick_count s')
    ∧ pit_get_uptime_ms (tick_count s') < pit_get_uptime_ms (tick_count s) + ms + PIT_MS_PER_TICK.
Proof.
  intros Hhalt Ht Hm Hb. change PIT_MS_PER_TICK with 10 in *. unfold pit_sleep_ms, pit_sleep_ticks, pit_get_uptime_ms.
  change PIT_MS_PER_TICK with 10. set (ticks := u64 (ms + 10 - 1) / 10).
  assert (Hticks : ms <= 10 * ticks < ms + 10).
  { unfold ticks, u64. rewrite Z.mod_small by lia. pose proof (Z.div_mod (ms + 10 - 1) 10 ltac:(lia)).
    pose proof (Z.mod_pos_bound (ms + 10 - 1) 10 ltac:(lia)). lia. }
  set (t0 := tick_count s) in *. replace (t0 +64 ticks) with (t0 + ticks) by (unfold u64; rewrite Z.mod_small; lia).
  destruct (while_total (λ s, tick_count s <? t0 + ticks) halt (λ s, t0 <= tick_count s <= t0 + ticks)
    (λ s, t0 + ticks - tick_count s) s) as (s' & Es & HI & Hc).
  - unfold t0 in *. lia.
  - unfold WHILE_FUEL. fold t0. lia.
  - intros s1 H1 Hlt. apply Z.ltb_lt in Hlt. rewrite Hhalt. lia.
  - apply Z.ltb_ge in Hc. exists s'. split; [done|]. unfold u64. rewrite !Z.mod_small by lia. lia.
Qed.

(** When the target wraps around, [pit_sleep_ticks] does not wait at all. *)
Lemma pit_sleep_ticks_wraps ticks s :
  is_u64 (tick_count s) → is_u64 ticks → 2 ^ 64 <= tick_count s + ticks → pit_sleep_ticks halt tick_count ticks s = Some s.
Proof.
  unfold is_u64. intros Ht Hk Hw. unfold pit_sleep_ticks. apply (while_runs _ _ 1); [|unfold WHILE_FUEL; lia].
  apply runs_stop. rewrite (proj2 (Z.ltb_ge _ _)); [done|]. unfold u64.
  rewrite <- (Z.mod_unique (tick_count s + ticks) (2 ^ 64) 1 (tick_count s + ticks - 2 ^ 64)); lia.
Qed.

End timer.

(** ** A machine with two controllers *)

Module TwoChips.
Import Pic Irq.

Definition read_command (c : chip) : Z := if read_isr c then isr c else irr c.

#[global] Instance ports : Ports (chip * chip) := {
  inb port p :=
    (if port =? PIC1_COMMAND then read_command p.1 else if port =? PIC1_DATA then imr p.1
     else if port =? PIC2_COMMAND then read_command p.2 else if port =? PIC2_DATA then imr p.2 else 0, p);
  outb port v p :=
    if port =? PIC1_COMMAND then (chip_command v p.1, p.2) else if port =? PIC1_DATA then (chip_data v p.1, p.2)
    else if port =? PIC2_COMMAND then (p.1, chip_command v p.2) else if port =? PIC2_DATA then (p.1, chip_data v p.2) else p
}.

#[global] Program Instance pics : Pic8259 (chip * chip) := {
  pic_chip b p := if b then p.2 else p.1
}.
Next Obligation. intros []; done. Qed.
Next Obligation. intros []; done. Qed.
Next Obligation.
  intros b port v p Hc Hd. unfold outb, ports. destruct (Z.eqb_spec port PIC1_COMMAND) as [->|]; [by destruct b|].
  destruct (Z.eqb_spec port PIC1_DATA) as [->|]; [by destruct b|]. destruct (Z.eqb_spec port PIC2_COMMAND) as [->|]; [by destruct b|].
  destruct (Z.eqb_spec port PIC2_DATA) as [->|]; [by destruct b|]. done.
Qed.
Next Obligation. done. Qed.
Next Obligation. intros []; done. Qed.
Next Obligation. intros []; done. Qed.

(** At power-on, after [pic_init], and with the line 12 acknowledged. *)
Definition p0 : chip * chip := (Chip 0 0 0 0 Operational 0 false, Chip 0 0 0 0 Operational 0 false).
Definition p1 : chip * chip := pic_init p0.
Definition p2 : chip * chip := (Chip 32 0xFB 0x04 0 Operational 0x11 false, Chip 40 0xEF 0x10 0 Operational 0x11 false).
Definition p3 : chip * chip := (Chip 32 0xFB 0x04 0 Operational 0x11 false, Chip 40 0xEF 0 0 Operational 0x11 false).

Lemma p1_ready : pic_ready p1.
Proof. intros []; done. Qed.

Lemma low_bits (x k : Z) : forallb (λ j, negb (Z.testbit x j)) (seqZ 0 k) = true → ∀ j, 0 <= j < k → Z.testbit x j = false.
Proof. intros Hf j Hj. apply negb_true_iff, (forallb_range _ _ _ Hf). lia. Qed.

Lemma p2_acknowledged : acknowledged 12 p2.
Proof. split; [by intros []|]. split; [|intros _]; (split; [done|apply low_bits; reflexivity]). Qed.
Lemma p3_acknowledged : acknowledged 2 p3.
Proof. split; [by intros []|]. split; [|intros H; lia]. split; [done|apply low_bits; reflexivity]. Qed.

End TwoChips.

Lemma pic_mask_one_line_witness :
  pic_ready TwoChips.p1 ∧ line_masked 9 (Pic.pic_unmask_irq 9 TwoChips.p1) = false
  ∧ line_masked 2 (Pic.pic_mask_irq 2 TwoChips.p1) = true.
Proof.
  split; [apply TwoChips.p1_ready|]. split.
  - exact (proj2 (proj2 (pic_mask_one_line 9 TwoChips.p1 TwoChips.p1_ready ltac:(lia))) 9 ltac:(lia)).
  - exact (proj2 (proj1 (pic_mask_one_line 2 TwoChips.p1 TwoChips.p1_ready ltac:(lia))) 2 ltac:(lia)).
Defined.

Lemma irq_handler_spec_witness :
  acknowledged 12 TwoChips.p2
  ∧ in_service 12 (Irq.irq_handler (λ _, None) 44 TwoChips.p2) = false
  ∧ in_service 2 (Irq.irq_handler (λ _, None) 44 TwoChips.p2) = false
  ∧ in_service 2 (Irq.irq_handler (λ _, Some id) 47 TwoChips.p3) = false.
Proof.
  assert (Hid : ∀ t : Z → option (chip * chip → chip * chip), ∀ i, t i = None ∨ t i = Some id →
    ∀ h, t i = Some h → ∀ b p, isr (pic_chip b (h p)) = isr (pic_chip b p)).
  { intros t i [E|E] h Eh; rewrite E in Eh; [done|by injection Eh as <-]. }
  destruct (proj1 (proj2 (irq_handler_spec (λ _, None) 12 TwoChips.p2 ltac:(lia) (Hid (λ _, None) 12 (or_introl eq_refl))))
    TwoChips.p2_acknowledged) as (_ & Hline).
  split; [apply TwoChips.p2_acknowledged|]. split; [exact (Hline 12 ltac:(lia))|]. split; [exact (Hline 2 ltac:(lia))|].
  destruct (proj2 (proj2 (irq_handler_spec (λ _, Some id) 15 TwoChips.p3 ltac:(lia) (Hid (λ _, Some id) 15 (or_intror eq_refl))))
    (or_intror eq_refl) eq_refl (λ _, TwoChips.p3_acknowledged)) as [_ Hspur].
  exact (Hspur 2 ltac:(lia)).
Defined.

Lemma pit_sleep_ms_spec_witness :
  ∃ t', Pit.pit_sleep_ms (λ t, t + 1) id 25 7 = Some t' ∧ 95 <= Pit.pit_get_uptime_ms t'.
Proof.
  destruct (pit_sleep_ms_spec (λ t, t + 1) id 25 7 ltac:(done) ltac:(done) ltac:(done) ltac:(done)) as (t' & E & Hlo & _).
  exists t'. split; [exact E|]. exact Hlo.
Defined.

Lemma idt_init_gates_witness :
  (∀ v, 0 <= v < 48 → is_u64 (0xFFFFFFFF80100000 + 16 * v))
  ∧ gate (Idt.idt_init 0x5000 (λ v, 0xFFFFFFFF80100000 + 16 * v) (λ _, 0)).2 (0x5000 + 16 * 33)
    = (0xFFFFFFFF80100210, Idt.KERNEL_CS, 0, Idt.IDT_GATE_INTERRUPT, 0).
Proof.
  assert (Hs : ∀ v, 0 <= v < 48 → is_u64 (0xFFFFFFFF80100000 + 16 * v)) by (intros v Hv; unfold is_u64; lia).
  split; [exact Hs|]. pose proof (idt_init_gates 0x5000 _ (λ _, 0) Hs) as Hg.
  destruct (Idt.idt_init _ _ _) as [regs m']. destruct Hg as [Hg _].
  exact (Hg 33 ltac:(unfold Idt.IDT_ENTRIES; lia)).
Defined.

Lemma syscall_segments_witness :
  is_u64 0xFFFFFFFF80200000
  ∧ flat_segment 3 true (segment_of 0x6000 (Gdt.gdt_init 0x6000 0xFFFFFFFF80200000 0xFFFFFFFF80201000 (λ _, 0)).2
      (sysret_cs (Gdt.syscall_init 0xFFFFFFFF80100000 (λ _, 0) Gdt.MSR_STAR))).
Proof.
  assert (Ht : is_u64 0xFFFFFFFF80200000) by (unfold is_u64; lia). split; [exact Ht|].
  pose proof (syscall_segments 0x6000 0xFFFFFFFF80200000 0xFFFFFFFF80201000 (λ _, 0) 0xFFFFFFFF80100000 (λ _, 0) Ht) as Hg.
  destruct (Gdt.gdt_init _ _ _ _) as [regs m']. apply Hg.
Defined.
