(* ===== verification/Report.v ===== *)
(** * Messages: kernel/kernel.c and kernel/interrupts/isr.c

    The banner, the memory map, the panic message and the demonstration processes
    of kernel.c and the exception handlers of isr.c.  Each is the list of what it
    does on the console, in order: colour changes and calls of [kprintf].  The
    handlers and the panic then halt for ever with interrupts off.

    An [int] or [uint32_t] argument is passed as the 64-bit word with its upper
    half zero, which is what [kprintf] then reads as a whole. *)

From Stdlib Require Import ZArith Lia Ascii String.
From stdpp Require Import base numbers list.
From S2P Require Import Prelude.
From S2P Require Import Pmm.
From S2P Require Import Vga.
From S2P Require Import Kprintf.
From S2P Require Import Console.
From S2P Require Import Interrupts.

(** ** kernel.c *)

Definition CHANUX_VERSION_STRING : list Z := text "0.1.0".

Definition print_banner : list action := [
  Color VGA_COLOR_LIGHT_CYAN VGA_COLOR_BLACK;
  say "";
  say "  ______   __                                       ";
  say " /      \ |  \                                      ";
  say "|  $$$$$$\| $$____    ______   _______   __    __  __    __ ";
  say "| $$   \$$| $$    \  |      \ |       \ |  \  |  \|  \  /  \";
  say "| $$      | $$$$$$$\  \$$$$$$\| $$$$$$$\| $$  | $$ \$$\/  $$";
  say "| $$   __ | $$  | $$ /      $$| $$  | $$| $$  | $$  >$$  $$ ";
  say "| $$__/  \| $$  | $$|  $$$$$$$| $$  | $$| $$__/ $$ /  $$$$\ ";
  say " \$$    $$| $$  | $$ \$$    $$| $$  | $$ \$$    $$|  $$ \$$\";
  say "  \$$$$$$  \$$   \$$  \$$$$$$$ \$$   \$$  \$$$$$$  \$$   \$$";
  say "";
  Color VGA_COLOR_WHITE VGA_COLOR_BLACK;
  Say (text "  Chanux Operating System v%s" ++ nl) [AStr (Some CHANUX_VERSION_STRING)];
  say "  Educational x86_64 OS - Built from Scratch";
  Color VGA_COLOR_LIGHT_GREY VGA_COLOR_BLACK;
  say ""
].

Definition MEMORY_TYPE_RESERVED : Z := 2.
Definition MEMORY_TYPE_ACPI_RECLAIMABLE : Z := 3.
Definition MEMORY_TYPE_ACPI_NVS : Z := 4.
Definition MEMORY_TYPE_BAD : Z := 5.

Definition type_str (t : Z) : list Z :=
  if t =? MEMORY_TYPE_USABLE then text "Usable"
  else if t =? MEMORY_TYPE_RESERVED then text "Reserved"
  else if t =? MEMORY_TYPE_ACPI_RECLAIMABLE then text "ACPI Reclaimable"
  else if t =? MEMORY_TYPE_ACPI_NVS then text "ACPI NVS"
  else if t =? MEMORY_TYPE_BAD then text "Bad Memory"
  else text "Unknown".

(** The loop over the entries: the line of each, and the sum of the usable ones. *)
Fixpoint map_lines (i total_usable : Z) (entries : list memory_map_entry_t) : list action * Z :=
  match entries with
  | [] => ([], total_usable)
  | e :: entries =>
      let total_usable := if entry_type e =? MEMORY_TYPE_USABLE then total_usable +64 entry_length e else total_usable in
      let line := Say (text "  [%d] %p - %p (%s)" ++ nl)
        [arg32 i; AWord (entry_base e); AWord (entry_base e +64 entry_length e -64 1); AStr (Some (type_str (entry_type e)))] in
      let '(lines, total) := map_lines (i +32 1) total_usable entries in (line :: lines, total)
  end.

Definition print_memory_map (entries : list memory_map_entry_t) : list action :=
  let '(lines, total_usable) := map_lines 0 0 entries in
  Say (text "[MEMORY] Memory Map (%d entries):" ++ nl) [arg32 (Z.of_nat (length entries))]
  :: lines ++ [Say (text "[MEMORY] Total usable: %d MB" ++ nl) [arg32 (total_usable / (1024 * 1024))]].

Definition kernel_panic (file : list Z) (line : Z) (msg : list Z) : list action := [
  Color VGA_COLOR_WHITE VGA_COLOR_RED;
  Say (nl ++ nl) [];
  say "  *** KERNEL PANIC ***";
  say "";
  Color VGA_COLOR_LIGHT_RED VGA_COLOR_BLACK;
  Say (text "  Message: %s" ++ nl) [AStr (Some msg)];
  Say (text "  File:    %s" ++ nl) [AStr (Some file)];
  Say (text "  Line:    %d" ++ nl) [arg32 line];
  say "";
  say "  System halted. Please reboot."
].

(** The two demonstration processes.  A tag in colour, then a message. *)
Definition tagged (color : Z) (tag : string) (id : Z) (msg : list Z) (args : list vararg) : list action :=
  [Color color VGA_COLOR_BLACK; Say (text tag) [arg32 id]; Color VGA_COLOR_LIGHT_GREY VGA_COLOR_BLACK; Say (msg ++ nl) args].

(** One round of the endless loop, [limit] being the count to stop at; the
    delay loop has no effect. *)
Definition demo_round (color tick_color limit id : Z) (st : Z * list action) : ctl (Z * list action) (list action) :=
  let '(count, out) := st in
  let count := count + 1 in
  let out := out ++ tagged tick_color "[P%d] " id (text "tick %d") [arg32 count] in
  if limit <=? count then Stop (out ++ tagged color "[Process %d] " id (text "Finished!") []) else Next (count, out).

Definition demo_process_a (arg : Z) : option (list action) :=
  let id := i32 arg in
  loop (demo_round VGA_COLOR_LIGHT_GREEN VGA_COLOR_LIGHT_CYAN 10 id) (0, tagged VGA_COLOR_LIGHT_GREEN "[Process %d] " id (text "Started!") []).

Definition demo_process_b (arg : Z) : option (list action) :=
  let id := i32 arg in
  loop (demo_round VGA_COLOR_LIGHT_MAGENTA VGA_COLOR_LIGHT_MAGENTA 12 id)
    (0, tagged VGA_COLOR_LIGHT_MAGENTA "[Process %d] " id (text "Started!") []).

(** ** isr.c *)

(** The saved registers of isr.h. *)
Record registers_t := Registers {
  r15 : Z; r14 : Z; r13 : Z; r12 : Z; r11 : Z; r10 : Z; r9 : Z; r8 : Z;
  rbp : Z; rdi : Z; rsi : Z; rdx : Z; rcx : Z; rbx : Z; rax : Z;
  int_no : Z; err_code : Z;
  rip : Z; cs : Z; rflags : Z; rsp : Z; ss : Z
}.

Definition exception_names : list (list Z) :=
  text <$> ["Divide Error"; "Debug"; "Non-Maskable Interrupt"; "Breakpoint"; "Overflow"; "Bound Range Exceeded";
    "Invalid Opcode"; "Device Not Available"; "Double Fault"; "Coprocessor Segment Overrun"; "Invalid TSS";
    "Segment Not Present"; "Stack Segment Fault"; "General Protection Fault"; "Page Fault"; "Reserved";
    "x87 FPU Floating-Point Error"; "Alignment Check"; "Machine Check"; "SIMD Floating-Point Exception";
    "Virtualization Exception"; "Control Protection Exception"; "Reserved"; "Reserved"; "Reserved"; "Reserved";
    "Reserved"; "Reserved"; "Reserved"; "Reserved"; "Reserved"; "Reserved"]%string.

Definition bit (x mask : Z) : bool := negb (Z.land x mask =? 0).

(** The first lines of every report, and the last. *)
Definition headline (title : string) : list action := [
  Color VGA_COLOR_WHITE VGA_COLOR_RED;
  Say (nl ++ nl ++ text title ++ nl) [];
  Color VGA_COLOR_LIGHT_RED VGA_COLOR_BLACK
].
Definition halted : list action := [Say (nl ++ text "System halted." ++ nl) []].

Definition print_cause (err : Z) : list action :=
  let present := bit err 0x01 in let write := bit err 0x02 in let user := bit err 0x04 in
  let reserved := bit err 0x08 in let fetch := bit err 0x10 in
  [Say (nl ++ text "Cause: ") []]
  ++ [if negb present then Say (text "Page not present") [] else Say (text "Protection violation") []]
  ++ [Say (text " during %s ") [AStr (Some (if write then text "write" else text "read"))]]
  ++ (if fetch then [Say (text "(instruction fetch) ") []] else [])
  ++ [Say (text "in %s mode") [AStr (Some (if user then text "user" else text "kernel"))]]
  ++ (if reserved then [Say (text " [reserved bit set]") []] else [])
  ++ [say ""].

(** [cr2] is the address that faulted. *)
Definition exception_page_fault (cr2 : Z) (regs : registers_t) : list action :=
  headline "*** PAGE FAULT ***"
  ++ [Say (nl ++ text "Fault Address: 0x%p" ++ nl) [AWord cr2];
      Say (text "Error Code:    0x%x" ++ nl) [arg32 (err_code regs)]]
  ++ print_cause (err_code regs)
  ++ [Say (nl ++ text "Registers:" ++ nl) [];
      Say (text "  RIP: 0x%p  RSP: 0x%p" ++ nl) [AWord (rip regs); AWord (rsp regs)];
      Say (text "  CS:  0x%x        SS:  0x%x" ++ nl) [arg32 (cs regs); arg32 (ss regs)];
      Say (text "  RAX: 0x%p  RBX: 0x%p" ++ nl) [AWord (rax regs); AWord (rbx regs)];
      Say (text "  RCX: 0x%p  RDX: 0x%p" ++ nl) [AWord (rcx regs); AWord (rdx regs)]]
  ++ halted.

Definition exception_double_fault (regs : registers_t) : list action :=
  headline "*** DOUBLE FAULT ***"
  ++ [Say (nl ++ text "A double fault occurred!" ++ nl) [];
      say "This usually indicates a kernel stack overflow or corrupted IDT.";
      Say (nl ++ text "Error Code: 0x%x" ++ nl) [arg32 (err_code regs)];
      Say (text "RIP: 0x%p" ++ nl) [AWord (rip regs)];
      Say (text "RSP: 0x%p" ++ nl) [AWord (rsp regs)]]
  ++ halted.

Definition table_name (table : Z) : list Z :=
  if table =? 0 then text "GDT" else if table =? 1 then text "IDT" else if table =? 2 then text "LDT"
  else if table =? 3 then text "IDT" else text "???".

Definition exception_gpf (regs : registers_t) : list action :=
  headline "*** GENERAL PROTECTION FAULT ***"
  ++ [Say (nl ++ text "Error Code: 0x%x" ++ nl) [arg32 (err_code regs)]]
  ++ (if negb (err_code regs =? 0) then
        let external := bit (err_code regs) 0x01 in
        let table := u8 (Z.land (Z.shiftr (err_code regs) 1) 0x03) in
        let index := u16 (Z.land (Z.shiftr (err_code regs) 3) 0x1FFF) in
        [Say (text "  External: %s" ++ nl) [AStr (Some (if external then text "yes" else text "no"))];
         Say (text "  Table:    %s" ++ nl) [AStr (Some (table_name table))];
         Say (text "  Index:    %d" ++ nl) [arg32 index]]
      else [])
  ++ [Say (nl ++ text "Registers:" ++ nl) [];
      Say (text "  RIP: 0x%p  RSP: 0x%p" ++ nl) [AWord (rip regs); AWord (rsp regs)];
      Say (text "  CS:  0x%x        SS:  0x%x" ++ nl) [arg32 (cs regs); arg32 (ss regs)];
      Say (text "  RAX: 0x%p  RBX: 0x%p" ++ nl) [AWord (rax regs); AWord (rbx regs)]]
  ++ halted.

Definition exception_divide_error (regs : registers_t) : list action :=
  headline "*** DIVIDE ERROR ***"
  ++ [Say (nl ++ text "Attempted division by zero!" ++ nl) []; Say (text "RIP: 0x%p" ++ nl) [AWord (rip regs)]]
  ++ halted.

Definition exception_invalid_opcode (regs : registers_t) : list action :=
  headline "*** INVALID OPCODE ***"
  ++ [Say (nl ++ text "Attempted to execute invalid instruction!" ++ nl) []; Say (text "RIP: 0x%p" ++ nl) [AWord (rip regs)]]
  ++ halted.

Definition exception_default (regs : registers_t) : list action :=
  let int_no := u8 (int_no regs) in
  headline "*** EXCEPTION ***"
  ++ [if int_no <? 32
      then Say (nl ++ text "Exception: %s (Vector %d)" ++ nl) [AStr (exception_names !! Z.to_nat int_no); arg32 int_no]
      else Say (nl ++ text "Exception: Unknown (Vector %d)" ++ nl) [arg32 int_no];
      Say (text "Error Code: 0x%x" ++ nl) [arg32 (err_code regs)];
      Say (text "RIP: 0x%p" ++ nl) [AWord (rip regs)];
      Say (text "RSP: 0x%p" ++ nl) [AWord (rsp regs)]]
  ++ halted.

(** What [isr_handler] leads to, on the console: the built-in handlers do not
    return. *)
Definition isr_report {S} (a : Irq.isr_action (S := S)) (cr2 : Z) (regs : registers_t) : option (list action) :=
  match a with
  | Irq.Handled _ => None
  | Irq.Divide_error => Some (exception_divide_error regs)
  | Irq.Invalid_opcode => Some (exception_invalid_opcode regs)
  | Irq.Double_fault => Some (exception_double_fault regs)
  | Irq.General_protection => Some (exception_gpf regs)
  | Irq.Page_fault => Some (exception_page_fault cr2 regs)
  | Irq.Unhandled _ => Some (exception_default regs)
  end.

(** ** What is printed *)

Lemma print_cause_fits err : forallb fits (print_cause err) = true.
Proof. unfold print_cause. by destruct (bit err 1), (bit err 2), (bit err 4), (bit err 8), (bit err 16). Qed.

Lemma isr_report_fits {S} (a : Irq.isr_action (S := S)) cr2 regs l : isr_report a cr2 regs = Some l → forallb fits l = true.
Proof.
  destruct a; simpl; intros [= <-]; try reflexivity.
  - unfold exception_gpf. rewrite !forallb_app. destruct (negb _); fits_messages.
  - unfold exception_page_fault. rewrite !forallb_app, print_cause_fits. reflexivity.
  - unfold exception_default. rewrite !forallb_app. cbn [forallb]. destruct (_ <? 32); [|fits_messages].
    unfold fits at 3. destruct (_ !! _); fits_messages.
Qed.

(** Exceptions.  Whatever the registers, an exception for which no handler is
    registered leads to the report of its vector, and the report is printed in
    full: every argument of every message fits its format. *)
Theorem exception_reported {S} (t : Z → option (S → S)) (s : S) cr2 regs :
  t (u8 (int_no regs)) = None →
  ∃ l, isr_report (Irq.isr_handler t (int_no regs) s) cr2 regs = Some l ∧ printed l
    ∧ l = (if u8 (int_no regs) =? 14 then exception_page_fault cr2 regs
           else if u8 (int_no regs) =? 13 then exception_gpf regs
           else if u8 (int_no regs) =? 8 then exception_double_fault regs
           else if u8 (int_no regs) =? 6 then exception_invalid_opcode regs
           else if u8 (int_no regs) =? 0 then exception_divide_error regs
           else exception_default regs).
Proof.
  intros Hno. destruct (isr_report (Irq.isr_handler t (int_no regs) s) cr2 regs) as [l|] eqn:E.
  - exists l. split; [done|]. split; [by eapply fits_printed, isr_report_fits|]. revert E. unfold Irq.isr_handler. rewrite Hno.
    cbv zeta. generalize (u8 (int_no regs)). intros n. simpl.
    destruct (Z.eqb_spec n 0) as [->|]; [by intros [= <-]|]. destruct (Z.eqb_spec n 6) as [->|]; [by intros [= <-]|].
    destruct (Z.eqb_spec n 8) as [->|]; [by intros [= <-]|]. destruct (Z.eqb_spec n 13) as [->|]; [by intros [= <-]|].
    destruct (Z.eqb_spec n 14) as [->|]; by intros [= <-].
  - exfalso. revert E. unfold Irq.isr_handler. rewrite Hno.
    repeat match goal with |- context [if ?b then _ else _] => destruct b; [done|] end. done.
Qed.

(** The cause of a page fault, from the bits of the error code as the processor
    defines them: present, write, user, reserved, instruction fetch. *)
Definition cause_text (err : Z) : list Z :=
  nl ++ text "Cause: " ++ (if Z.testbit err 0 then text "Protection violation" else text "Page not present")
  ++ text " during " ++ (if Z.testbit err 1 then text "write" else text "read") ++ text " "
  ++ (if Z.testbit err 4 then text "(instruction fetch) " else [])
  ++ text "in " ++ (if Z.testbit err 2 then text "user" else text "kernel") ++ text " mode"
  ++ (if Z.testbit err 3 then text " [reserved bit set]" else []) ++ nl.

Lemma bit_testbit x k : 0 <= k → bit x (2 ^ k) = Z.testbit x k.
Proof.
  intros Hk. unfold bit. destruct (Z.testbit x k) eqn:E; [|].
  - apply negb_true_iff, Z.eqb_neq. intros E0. assert (Ht : Z.testbit (Z.land x (2 ^ k)) k = true).
    { by rewrite Z.land_spec, E, Z.pow2_bits_true. }
    by rewrite E0, Z.bits_0 in Ht.
  - apply negb_false_iff, Z.eqb_eq. apply Z.bits_inj'. intros n Hn. rewrite Z.land_spec, Z.bits_0, Z.pow2_bits_eqb by done.
    destruct (Z.eqb_spec k n) as [->|]; [by rewrite E|by rewrite andb_false_r].
Qed.

#[local] Opaque vga_putchar.

(** The page fault report names the cause that the error code encodes. *)
Theorem page_fault_cause err c : show (print_cause err) c = Some (vga_puts c (cause_text err)).
Proof.
  unfold print_cause, cause_text.
  change (bit err 1) with (bit err (2 ^ 0)). change (bit err 2) with (bit err (2 ^ 1)). change (bit err 4) with (bit err (2 ^ 2)).
  change (bit err 8) with (bit err (2 ^ 3)). change (bit err 16) with (bit err (2 ^ 4)). rewrite !bit_testbit by lia.
  destruct (Z.testbit err 0), (Z.testbit err 1), (Z.testbit err 2), (Z.testbit err 3), (Z.testbit err 4); reflexivity.
Qed.

(** The sum of the usable regions. *)
Definition usable_sum (entries : list memory_map_entry_t) : Z :=
  foldr (λ e n, (if entry_type e =? MEMORY_TYPE_USABLE then entry_length e else 0) + n) 0 entries.

Lemma map_lines_spec entries i total :
  let '(lines, total') := map_lines i total entries in
  forallb fits lines = true ∧ length lines = length entries ∧ (is_u64 total → total' = u64 (total + usable_sum entries)).
Proof.
  revert i total. induction entries as [|e entries IH]; intros i total; simpl.
  { split_and!; [done|done|]. intros Ht. by rewrite Z.add_0_r, u64_id. }
  set (total1 := if entry_type e =? MEMORY_TYPE_USABLE then total +64 entry_length e else total). specialize (IH (i +32 1) total1). destruct (map_lines _ _ entries) as [lines total'].
  destruct IH as (H1 & H2 & H3). split_and!; [|simpl; lia|].
  { cbn [forallb]. rewrite H1, andb_true_r. fits_messages. }
  intros Ht.
  rewrite H3 by (subst total1; case_match; [apply u64_range|done]). subst total1. unfold usable_sum at 2. simpl. fold (usable_sum entries).
  destruct (entry_type e =? MEMORY_TYPE_USABLE); [|by rewrite Z.add_0_l].
  unfold u64. rewrite Zplus_mod_idemp_l. f_equal. lia.
Qed.

(** The memory map is printed in full, a line for each entry, and the total in
    the last line is that of the usable regions. *)
Theorem memory_map_printed entries :
  ∃ lines, print_memory_map entries =
      Say (text "[MEMORY] Memory Map (%d entries):" ++ nl) [arg32 (Z.of_nat (length entries))]
      :: lines ++ [Say (text "[MEMORY] Total usable: %d MB" ++ nl) [arg32 (u64 (usable_sum entries) / 2 ^ 20)]]
    ∧ length lines = length entries ∧ printed (print_memory_map entries).
Proof.
  unfold print_memory_map. pose proof (map_lines_spec entries 0 0) as Hm. destruct (map_lines 0 0 entries) as [lines total].
  destruct Hm as (H1 & H2 & H3). exists lines. rewrite H3 by done. split_and!; [done|done|]. apply fits_printed.
  cbn [forallb]. rewrite forallb_app, H1. fits_messages.
Qed.

Lemma messages_printed file line msg : printed print_banner ∧ printed (kernel_panic file line msg).
Proof. split; apply fits_printed; fits_messages. Qed.

(** Both processes end, having printed their ticks in order. *)
Definition ticks (tick_color id : Z) (n : nat) : list action :=
  concat ((λ k, tagged tick_color "[P%d] " id (text "tick %d") [arg32 k]) <$> seqZ 1 (Z.of_nat n)).

Lemma demo_runs color tick_color id n out count :
  runs (demo_round color tick_color (count + Z.of_nat (S n)) id) (S n) (count, out)
    (out ++ concat ((λ k, tagged tick_color "[P%d] " id (text "tick %d") [arg32 k]) <$> seqZ (count + 1) (Z.of_nat (S n)))
         ++ tagged color "[Process %d] " id (text "Finished!") []).
Proof.
  revert count out. induction n as [|n IH]; intros count out.
  - apply runs_stop. unfold demo_round. rewrite (proj2 (Z.leb_le _ _)) by lia. by rewrite <- app_assoc.
  - eapply runs_next.
    + unfold demo_round. rewrite (proj2 (Z.leb_gt _ _)) by lia. reflexivity.
    + replace (count + Z.of_nat (S (S n))) with (count + 1 + Z.of_nat (S n)) by lia.
      rewrite (seqZ_cons (count + 1)) by lia. replace (Z.pred (Z.of_nat (S (S n)))) with (Z.of_nat (S n)) by lia.
      rewrite fmap_cons. cbn [concat]. rewrite <- app_assoc. rewrite (app_assoc out). apply IH.
Qed.

Theorem demo_processes_end arg :
  let id := i32 arg in
  demo_process_a arg = Some (tagged VGA_COLOR_LIGHT_GREEN "[Process %d] " id (text "Started!") [] ++ ticks VGA_COLOR_LIGHT_CYAN id 10
    ++ tagged VGA_COLOR_LIGHT_GREEN "[Process %d] " id (text "Finished!") [])
  ∧ demo_process_b arg = Some (tagged VGA_COLOR_LIGHT_MAGENTA "[Process %d] " id (text "Started!") [] ++ ticks VGA_COLOR_LIGHT_MAGENTA id 12
    ++ tagged VGA_COLOR_LIGHT_MAGENTA "[Process %d] " id (text "Finished!") []).
Proof.
  intros id. unfold demo_process_a, demo_process_b. cbv zeta. fold id. clearbody id. split.
  - pose proof (demo_runs VGA_COLOR_LIGHT_GREEN VGA_COLOR_LIGHT_CYAN id 9 (tagged VGA_COLOR_LIGHT_GREEN "[Process %d] " id (text "Started!") []) 0) as R.
    change (0 + Z.of_nat 10) with 10 in R. by rewrite (loop_runs _ _ _ _ R) by (unfold WHILE_FUEL; lia).
  - pose proof (demo_runs VGA_COLOR_LIGHT_MAGENTA VGA_COLOR_LIGHT_MAGENTA id 11 (tagged VGA_COLOR_LIGHT_MAGENTA "[Process %d] " id (text "Started!") []) 0) as R.
    change (0 + Z.of_nat 12) with 12 in R. by rewrite (loop_runs _ _ _ _ R) by (unfold WHILE_FUEL; lia).
Qed.

(** ** Witnesses *)

Definition some_registers (n err : Z) : registers_t := Registers 0 0 0 0 0 0 0 0 0 0 0 0 0 0 0 n err 0x400123 0x33 0x202 0x7000 0x2B.

Lemma exception_reported_witness :
  ∃ l, isr_report (Irq.isr_handler (λ _, None) 14 tt) 0xdead000 (some_registers 14 6) = Some l ∧ printed l.
Proof.
  destruct (exception_reported (λ _, None) tt 0xdead000 (some_registers 14 6)) as (l & E & Hp & _).
  { reflexivity. }
  exists l. exact (conj E Hp).
Defined.
