(* ===== verification/Boot.v ===== *)
(** * Interrupt start-up: [interrupts_init] of kernel/kernel.c

    The descriptor tables, the controllers, the timer and the keyboard together.
    The messages are not modelled. *)

From Stdlib Require Import ZArith Lia.
From stdpp Require Import base numbers list.
From S2P Require Import Prelude.
From S2P Require Import Mem.
From S2P Require Import Interrupts.

Section interrupts.
Import Pic Irq Pit.
Context {P : Type} `{Ports P}.

Definition KB_DATA_PORT : Z := 0x60.
Definition KB_STATUS_PORT : Z := 0x64.
Definition KB_STATUS_OUTPUT : Z := 0x01.

(** The loop of [keyboard_init] that drops what the controller still holds. *)
Definition drain_step (p : P) : ctl P P :=
  let '(status, p) := inb KB_STATUS_PORT p in
  if Z.land status KB_STATUS_OUTPUT =? 0 then Stop p else Next (inb KB_DATA_PORT p).2.

(** [keyboard_init] towards the hardware; its variables are in Keyboard. *)
Definition keyboard_attach (handler : P → P) (t : Z → option (P → P)) (p : P) : option ((Z → option (P → P)) * P) :=
  p ← loop drain_step p;
  let t := irq_register_handler 1 handler t in
  Some (t, pic_unmask_irq 1 p).

(** The tables of the processor, the handlers and the controllers. *)
Definition interrupts_init (gdt tss ist1 idt : Z) (stub : Z → Z) (timer kbd : P → P) (t : Z → option (P → P)) (m : mem) (p : P) :
  option (Gdt.gdt_regs * Idt.idt_regs * mem * (Z → option (P → P)) * P) :=
  let '(g, m) := Gdt.gdt_init gdt tss ist1 m in
  let t := irq_init t in
  let '(i, m) := Idt.idt_init idt stub m in
  let p := pic_init p in
  let '(t, p) := pit_init timer t p in
  '(t, p) ← keyboard_attach kbd t p;
  Some (g, i, m, t, p).

End interrupts.

(** ** What is ready afterwards *)

Section ready.
Import Pic Irq Pit.
Context {P : Type} `{Pic8259 P}.
Implicit Types p : P.

Lemma drain_chips n p p' : runs drain_step n p p' → ∀ b, pic_chip b p' = pic_chip b p.
Proof.
  induction 1 as [p p' E|n p p1 p' E _ IH]; intros b; unfold drain_step in E.
  - pose proof (in_chip b KB_STATUS_PORT p) as Hc. destruct (inb KB_STATUS_PORT p) as [v q]. simpl in Hc. rewrite <- Hc.
    destruct (_ =? 0); [by injection E as <-|done].
  - rewrite IH. pose proof (in_chip b KB_STATUS_PORT p) as Hc. destruct (inb KB_STATUS_PORT p) as [v q]. simpl in Hc. rewrite <- Hc.
    destruct (_ =? 0); [done|]. injection E as <-. apply in_chip.
Qed.

(** The timer's ports are not the controllers'. *)
Lemma pit_ports b port v p : port = PIT_COMMAND ∨ port = PIT_CHANNEL0 → pic_chip b (outb port v p) = pic_chip b p.
Proof. intros [-> | ->]; apply out_other; by destruct b. Qed.

(** The state of the lines and of the chips only. *)
Definition same_chips p p' : Prop := ∀ b, pic_chip b p' = pic_chip b p.

Lemma same_chips_lines p p' : same_chips p p' → (pic_ready p → pic_ready p') ∧ ∀ j, line_masked j p' = line_masked j p.
Proof.
  intros E. unfold same_chips in E. split.
  - intros Hr b. rewrite E. apply Hr.
  - intros j. unfold line_masked. by rewrite E.
Qed.

Lemma irq_init_none (t : Z → option (P → P)) j : 0 <= j < 16 → irq_init t j = None.
Proof.
  intros Hj. unfold irq_init. refine (for_each_inv (λ i (t : Z → option (P → P)), ∀ j, 0 <= j < i → t j = None) 0 IRQ_COUNT _ t _ _ _ j Hj).
  - done.
  - intros k Hk. lia.
  - intros i t' Hi IH k Hk. destruct (Z.eqb_spec k i); [done|]. apply IH. lia.
Qed.

(** C27. The interrupt system after start-up, whatever state the controllers were
    in: exactly the timer, the keyboard and the cascade can interrupt, the
    handlers of the timer and of the keyboard are in place and no other. *)
Theorem interrupts_init_ready gdt tss ist1 idt stub timer kbd t m p :
  (∀ p : P, ∃ n p', Z.of_nat n <= WHILE_FUEL ∧ runs drain_step n p p') →
  ∃ g i m' t' p', interrupts_init gdt tss ist1 idt stub timer kbd t m p = Some (g, i, m', t', p')
    ∧ pic_ready p' ∧ (∀ j, 0 <= j < 16 → line_masked j p' = negb (j <? 3))
    ∧ ∀ j, 0 <= j < 16 → t' j = if j =? 0 then Some timer else if j =? 1 then Some kbd else None.
Proof.
  intros Hdrain. unfold interrupts_init, keyboard_attach. destruct (Gdt.gdt_init gdt tss ist1 m) as [g m1].
  destruct (Idt.idt_init idt stub m1) as [i m2]. unfold pit_init. cbv zeta. set (p1 := pic_init p). set (p2 := outb PIT_CHANNEL0 _ (io_wait _)).
  assert (E2 : same_chips p1 p2).
  { intros b. unfold p2. rewrite pit_ports, pic_chip_wait, !pit_ports by tauto. done. }
  destruct (pic_init_lines p) as [R1 L1]. fold p1 in R1, L1. destruct (same_chips_lines p1 p2 E2) as [R2 L2].
  destruct (proj2 (pic_mask_lines 0 p2 (R2 R1) ltac:(lia))) as [R3 L3]. set (p3 := pic_unmask_irq 0 p2) in *.
  destruct (Hdrain p3) as (n & p4 & Hn & Hr). destruct (same_chips_lines p3 p4 (drain_chips _ _ _ Hr)) as [R4 L4].
  destruct (proj2 (pic_mask_lines 1 p4 (R4 R3) ltac:(lia))) as [R5 L5].
  rewrite (loop_runs _ _ _ _ Hr Hn), !bind_Some_eq. eexists _, _, _, _, _. split; [reflexivity|]. split; [exact R5|]. split.
  - intros j Hj. rewrite L5, L4, L3, L2, L1 by done.
    destruct (Z.eqb_spec j 1), (Z.eqb_spec j 0), (Z.eqb_spec j 2), (Z.ltb_spec j 3); lia || done.
  - intros j Hj. unfold irq_register_handler. change (0 <? IRQ_COUNT) with true. change (1 <? IRQ_COUNT) with true. cbv iota beta.
    rewrite irq_init_none by done. destruct (Z.eqb_spec j 1) as [->|]; [done|]. by destruct (Z.eqb_spec j 0).
Qed.

End ready.

(** *** Witnesses *)

Lemma interrupts_init_ready_witness :
  ∃ g i m' t' p', interrupts_init 0x6000 0x7000 0x8000 0x9000 (λ v, 16 * v) id id (λ _, None) (λ _, 0) TwoChips.p0
      = Some (g, i, m', t', p')
    ∧ line_masked 1 p' = false ∧ line_masked 5 p' = true ∧ t' 1 = Some id.
Proof.
  assert (Hd : ∀ p : chip * chip, ∃ n p', Z.of_nat n <= WHILE_FUEL ∧ runs drain_step n p p').
  { intros p. exists 1%nat, p. split; [unfold WHILE_FUEL; lia|by apply runs_stop]. }
  destruct (interrupts_init_ready 0x6000 0x7000 0x8000 0x9000 (λ v, 16 * v) id id (λ _, None) (λ _, 0) TwoChips.p0 Hd)
    as (g & i & m' & t' & p' & E & _ & Hl & Ht).
  exists g, i, m', t', p'. exact (conj E (conj (Hl 1 ltac:(lia)) (conj (Hl 5 ltac:(lia)) (Ht 1 ltac:(lia))))).
Defined.
