(* ===== verification/UserLib.v ===== *)
(** * The user library: user/lib/libc.c

    User programs reach the kernel through [syscall_raw], an operation of the
    interface [UserSys], which also gives them their memory.  [Terminal] states
    what the programs rely on: the console shows what is written to descriptor
    1, and the keys typed arrive at descriptor 0 in order, a read returning
    nothing while none has arrived.  [kernel_terminal] shows that the system
    calls of Syscall provide it.  The buffers and strings that a program passes
    lie in its own pages ([UserSpace], [user_range]).

    Pointers stay within their objects, so pointer arithmetic does not wrap.
    [None]: the program does not come back from a system call. *)

From Stdlib Require Import ZArith Lia.
From stdpp Require Import base numbers list.
From S2P Require Import Prelude.
From S2P Require Import Mem.
From S2P Require Import KernelHeap.
From S2P Require Import StringLib.
From S2P Require Import Path.
From S2P Require Import Keyboard.
From S2P Require Import Vga.
From S2P Require Import Proc.
From S2P Require Import Syscall.

Class UserSys (W : Type) := {
  u_mem : W → mem;
  u_set_mem : mem → W → W;
  syscall_raw : Z → Z → Z → Z → W → option (Z * W)
}.

Module Libc.

Section libc.
Context {W : Type} `{UserSys W}.
Implicit Types w : W.

(** ** System calls *)

Definition syscall0 (num : Z) w : option (Z * W) := syscall_raw num 0 0 0 w.
Definition syscall1 (num a1 : Z) w : option (Z * W) := syscall_raw num (u64 a1) 0 0 w.
Definition syscall2 (num a1 a2 : Z) w : option (Z * W) := syscall_raw num (u64 a1) (u64 a2) 0 w.
Definition syscall3 (num a1 a2 a3 : Z) w : option (Z * W) := syscall_raw num (u64 a1) (u64 a2) (u64 a3) w.

(** The state that [exit] leaves; it does not return. *)
Definition exit (code : Z) w : option W := '(_, w) ← syscall1 SYS_EXIT code w; Some w.

Definition write (fd buf len : Z) w : option (Z * W) := syscall3 SYS_WRITE fd buf len w.
Definition read (fd buf len : Z) w : option (Z * W) := syscall3 SYS_READ fd buf len w.
Definition yield w : option (Z * W) := '(r, w) ← syscall0 SYS_YIELD w; Some (i32 r, w).
Definition getpid w : option (Z * W) := '(r, w) ← syscall0 SYS_GETPID w; Some (i32 r, w).
Definition sleep (ms : Z) w : option (Z * W) := '(r, w) ← syscall1 SYS_SLEEP ms w; Some (i32 r, w).
Definition open (path flags : Z) w : option (Z * W) := '(r, w) ← syscall2 SYS_OPEN path flags w; Some (i32 r, w).
Definition close (fd : Z) w : option (Z * W) := '(r, w) ← syscall1 SYS_CLOSE fd w; Some (i32 r, w).
Definition lseek (fd offset whence : Z) w : option (Z * W) := syscall3 SYS_LSEEK fd offset whence w.
Definition stat (path buf : Z) w : option (Z * W) := '(r, w) ← syscall2 SYS_STAT path buf w; Some (i32 r, w).
Definition fstat (fd buf : Z) w : option (Z * W) := '(r, w) ← syscall2 SYS_FSTAT fd buf w; Some (i32 r, w).
Definition readdir_r (fd entry index : Z) w : option (Z * W) :=
  '(r, w) ← syscall3 SYS_READDIR fd entry index w; Some (i32 r, w).
Definition getcwd (buf size : Z) w : option (Z * W) :=
  '(r, w) ← syscall2 SYS_GETCWD buf size w; Some (if i32 r <? 0 then 0 else buf, w).
Definition chdir (path : Z) w : option (Z * W) := '(r, w) ← syscall1 SYS_CHDIR path w; Some (i32 r, w).

(** ** Strings and memory *)

Definition strlen (m : mem) (s : Z) : option Z := while_ (λ len, negb (m (s +64 len) =? 0)) (λ len, len +64 1) 0.

Definition puts (s : Z) w : option (Z * W) := len ← strlen (u_mem w) s; write 1 s len w.

Definition memset (m : mem) (dest val count : Z) : option mem :=
  c ← while_ some_left (set_byte (u8 val)) (Cur m dest 0 count); Some (c_mem c).

Definition memcpy (m : mem) (dest src count : Z) : option mem :=
  c ← while_ some_left copy_byte (Cur m dest src count); Some (c_mem c).

(** ** Numbers *)

Definition utoa_internal (value buf buf_size : Z) (m : mem) : option (Z * mem) :=
  if buf_size =? 0 then Some (buf, m)
  else
    let p := buf + buf_size - 1 in
    let m := store8 m p 0 in
    if value =? 0 then Some (p - 1, store8 m (p - 1) 48)
    else
      '(_, p, m) ← while_ (λ '(value, p, _), (0 <? value) && (buf <? p))
                     (λ '(value, p, m), (value / 10, p - 1, store8 m (p - 1) (48 + value mod 10))) (value, p, m);
      Some (p, m).

(** [buf] is the address of the local buffer, [minus] that of the literal. *)
Definition print_uint (buf value : Z) w : option W :=
  '(str, m) ← utoa_internal value buf 24 (u_mem w);
  '(_, w) ← puts str (u_set_mem m w);
  Some w.

Definition print_int (buf minus value : Z) w : option W :=
  if value <? 0 then
    '(_, w) ← write 1 minus 1 w;
    print_uint buf (u64 (- value)) w
  else print_uint buf (u64 value) w.

Definition hex_chars : list Z := [48;49;50;51;52;53;54;55;56;57;97;98;99;100;101;102].

Definition print_hex (buf value : Z) w : option W :=
  let p := buf + 18 in
  let m := store8 (u_mem w) p 0 in
  '(_, p, m) ← (if value =? 0 then Some (value, p - 1, store8 m (p - 1) 48)
                else while_ (λ '(value, p, _), (0 <? value) && (buf + 2 <? p))
                       (λ '(value, p, m), (Z.shiftr value 4, p - 1,
                          store8 m (p - 1) (nth (Z.to_nat (Z.land value 0xF)) hex_chars 0))) (value, p, m));
  let '(p, m) := (p - 1, store8 m (p - 1) 120) in
  let '(p, m) := (p - 1, store8 m (p - 1) 48) in
  '(_, w) ← puts p (u_set_mem m w);
  Some w.

End libc.

End Libc.

(** ** What a program relies on *)

(** The pages of the program, by number. *)
Class UserSpace := { u_page : Z → bool }.

(** A buffer in the pages of the program. *)
Definition user_range `{UserSpace} (a n : Z) : Prop :=
  0 < a < USER_SPACE_END ∧ 0 <= n ∧ a + n <= USER_SPACE_END
  ∧ ∀ x, a <= x < a + n → u_page (x / PAGE_SIZE) = true.

(** A part of a buffer. *)
Lemma user_range_sub `{UserSpace} a n a' n' :
  user_range a n → a <= a' < USER_SPACE_END → 0 <= n' → a' + n' <= a + n → user_range a' n'.
Proof. intros (H1 & H2 & H3 & H4) Ha Hn He. split_and!; [lia..|]. intros x Hx. apply H4. lia. Qed.

Ltac sub_range H :=
  apply (user_range_sub _ _ _ _ H); destruct H as (? & ? & ? & _); unfold zlen, USER_SPACE_END in *; lia.

(** [u_keys] are the characters still to come, [u_wait] bounds how many yields
    it takes until the next has arrived. *)
Class Terminal (W : Type) `{UserSys W} `{UserSpace} := {
  u_ok : W → Prop;
  u_console : W → console;
  u_keys : W → list Z;
  u_wait : W → Z;
  u_wait_range w : u_ok w → 0 <= u_wait w < 2 ^ 64;
  u_mem_set m w : u_mem (u_set_mem m w) = m;
  u_set_mem_frame m w : u_ok w → u_ok (u_set_mem m w) ∧ u_console (u_set_mem m w) = u_console w
    ∧ u_keys (u_set_mem m w) = u_keys w;
  u_write buf len w : u_ok w → user_range buf len →
    ∃ w', syscall_raw SYS_WRITE 1 buf len w = Some (len, w') ∧ u_ok w' ∧ u_mem w' = u_mem w
    ∧ u_console w' = vga_puts (u_console w) (read_bytes (u_mem w) buf len) ∧ u_keys w' = u_keys w;
  u_read buf w : u_ok w → user_range buf 1 →
    ∃ r w', syscall_raw SYS_READ 0 buf 1 w = Some (r, w') ∧ u_ok w' ∧ u_console w' = u_console w
    ∧ match u_keys w with
      | c :: keys => if u_wait w =? 0 then r = 1 ∧ u_mem w' = write_bytes (u_mem w) buf [c] ∧ u_keys w' = keys
                     else r = 0 ∧ (∀ a, u_mem w' a = u_mem w a) ∧ u_keys w' = c :: keys ∧ u_wait w' = u_wait w
      | [] => r = 0 ∧ (∀ a, u_mem w' a = u_mem w a) ∧ u_keys w' = []
      end;
  u_yield w : u_ok w →
    ∃ r w', syscall_raw SYS_YIELD 0 0 0 w = Some (r, w') ∧ u_ok w' ∧ u_mem w' = u_mem w ∧ u_console w' = u_console w
    ∧ u_keys w' = u_keys w ∧ (u_keys w ≠ [] → 0 < u_wait w → u_wait w' < u_wait w)
}.

(** ** Output *)

Section output.
Import Libc.
Context {W : Type} `{UT : Terminal W}.
Implicit Types w : W.

(** From [w] to [w'] the program prints [s] and does nothing else. *)
Definition prints w w' (s : list Z) : Prop :=
  u_ok w' ∧ u_mem w' = u_mem w ∧ u_console w' = vga_puts (u_console w) s ∧ u_keys w' = u_keys w.

Lemma prints_nil w : u_ok w → prints w w [].
Proof. by intros. Qed.

Lemma prints_app w w1 w2 s1 s2 : prints w w1 s1 → prints w1 w2 s2 → prints w w2 (s1 ++ s2).
Proof.
  intros (O1 & M1 & C1 & K1) (O2 & M2 & C2 & K2). unfold prints, vga_puts in *.
  rewrite M2, C2, K2, M1, C1, K1, foldl_app. done.
Qed.

Lemma write_prints buf len w :
  u_ok w → user_range buf len → ∃ w', write 1 buf len w = Some (len, w') ∧ prints w w' (read_bytes (u_mem w) buf len).
Proof.
  intros Hok Hr. unfold write, syscall3. pose proof Hr as (Hb & Hl & He & _).
  unfold USER_SPACE_END in *. rewrite !u64_id by lia. destruct (u_write buf len w Hok Hr) as (w' & E & ? & ? & ? & ?).
  by exists w'.
Qed.

(** A string in user space. *)
Definition user_str (m : mem) (a : Z) (s : list Z) : Prop := cstr m a s ∧ user_range a (zlen s + 1).

Lemma user_str_length m a s : user_str m a s → strlen m a = Some (zlen s).
Proof.
  intros [Hs (Ha & _ & He & _)]. unfold zlen, USER_SPACE_END in *. exact (strlen_correct m a s ltac:(lia) ltac:(lia) Hs).
Qed.

Lemma puts_prints a s w :
  u_ok w → user_str (u_mem w) a s → ∃ w', puts a w = Some (zlen s, w') ∧ prints w w' s.
Proof.
  intros Hok Hs. unfold puts. rewrite (user_str_length _ _ _ Hs), bind_Some_eq.
  destruct Hs as [(Hs & _) Hr]. destruct (write_prints a (zlen s) w Hok) as (w' & E & P); [sub_range Hr|].
  exists w'. split; [done|]. unfold zlen in P. by rewrite Hs in P.
Qed.

(** Literals of one and of a few characters, written with their length. *)
Lemma write_str a s w :
  u_ok w → user_str (u_mem w) a s → ∃ w', write 1 a (zlen s) w = Some (zlen s, w') ∧ prints w w' s.
Proof.
  intros Hok [(Hs & _) Hr]. destruct (write_prints a (zlen s) w Hok) as (w' & E & P); [sub_range Hr|].
  exists w'. split; [done|]. unfold zlen in P. by rewrite Hs in P.
Qed.

(** Memory set, then a string of it printed. *)
Lemma set_puts m a s w :
  u_ok w → user_str m a s →
  ∃ w', puts a (u_set_mem m w) = Some (zlen s, w') ∧ u_ok w' ∧ u_mem w' = m
    ∧ u_console w' = vga_puts (u_console w) s ∧ u_keys w' = u_keys w.
Proof.
  intros Hok Hs. destruct (u_set_mem_frame m w Hok) as (O1 & C1 & K1).
  destruct (puts_prints a s (u_set_mem m w) O1) as (w' & E & O2 & M2 & C2 & K2); [by rewrite u_mem_set|].
  exists w'. rewrite u_mem_set in M2. rewrite C1 in C2. rewrite K1 in K2. done.
Qed.

End output.

(** ** Memory functions *)

(** [memset] and [memcpy] of the user library have the byte-wise effects of the
    kernel's, without the word loops. *)
Lemma user_memset_correct m dest val count :
  0 <= dest → 0 <= count → dest + count < 2 ^ 64 →
  ∃ m', Libc.memset m dest val count = Some m' ∧ ∀ x, m' x = fill m dest val count x.
Proof.
  intros Hd Hc He. destruct (memset_tail m dest (u8 val) count (Cur m dest 0 count)) as (m' & E & Hm);
    [done|done|done|by apply filled_start|].
  exists m'. split; [exact E|]. intros x. rewrite Hm. unfold fill, u8. by rewrite Zmod_mod.
Qed.

Lemma user_memcpy_correct m d s count :
  0 <= d → 0 <= s → 0 <= count → d + count < 2 ^ 64 → s + count < 2 ^ 64 → forward_safe d s count → mem_wf m →
  ∃ m', Libc.memcpy m d s count = Some m' ∧ ∀ x, m' x = copy m d s count x.
Proof.
  intros Hd Hs Hc Hde Hse Hf Hm.
  exact (memcpy_tail m d s count Hd Hs Hc Hde Hse Hf (Cur m d s count) Hm (copied_start m d s count Hc)).
Qed.

(** ** Digits written downwards *)

Section digits.
Context (b lo : Z) (f : Z → Z).
Context (Hb : 1 < b) (Hf : ∀ d, 0 <= d < b → is_u8 (f d)).

Definition digit_left (st : Z * Z * mem) : bool := let '(v, p, _) := st in (0 <? v) && (lo <? p).
Definition digit_step (st : Z * Z * mem) : Z * Z * mem :=
  let '(v, p, m) := st in (v / b, p - 1, store8 m (p - 1) (f (v mod b))).

Lemma write_bytes_cons m a x l y :
  is_u8 x → write_bytes (store8 m (a + zlen l) x) a l y = write_bytes m a (l ++ [x]) y.
Proof using.
  clear Hf Hb. intros Hx. unfold write_bytes, store, zlen. rewrite length_app. simpl length. range_cases; try lia; try done.
  - by rewrite app_nth1 by lia.
  - assert (y = a + Z.of_nat (length l)) as -> by lia. rewrite app_nth2 by lia.
    replace (Z.to_nat _ - length l)%nat with 0%nat by lia. replace (_ - _) with 0 by lia.
    rewrite byte_of_0. simpl. apply Z.mod_small, Hx.
Qed.

Lemma digits_down n v p m :
  0 <= v < b ^ Z.of_nat n → lo + Z.of_nat n <= p →
  ∃ ds m', runs (λ s, if digit_left s then Next (digit_step s) else Stop s) (S (length ds)) (v, p, m)
      (0, p - zlen ds, m') ∧ (length ds <= n)%nat ∧ Forall (λ d, 0 <= d < b) ds ∧ undigits b ds = v
    ∧ (0 < v → ds ≠ []) ∧ last ds ≠ Some 0 ∧ ∀ x, m' x = write_bytes m (p - zlen ds) (rev (f <$> ds)) x.
Proof using Hb Hf.
  revert v p m. induction n as [|n IH]; intros v p m Hv Hp.
  { assert (v = 0) as -> by (simpl in Hv; lia). exists [], m. change (zlen []) with 0. rewrite Z.sub_0_r.
    split_and!; try done; try lia; [by apply runs_stop|]. intros x. unfold write_bytes. simpl. by range_cases; [lia|]. }
  destruct (decide (v = 0)) as [->|Hne].
  { exists [], m. change (zlen []) with 0. rewrite Z.sub_0_r.
    split_and!; try done; try lia; [by apply runs_stop|simpl; lia|]. intros x. unfold write_bytes. simpl. by range_cases; [lia|]. }
  rewrite Nat2Z.inj_succ, Z.pow_succ_r in Hv by lia.
  pose proof (Z.mod_pos_bound v b ltac:(lia)) as Hm. pose proof (Z.div_mod v b ltac:(lia)) as Hdm.
  pose proof (Z.div_pos v b ltac:(lia) ltac:(lia)) as Hd0.
  destruct (IH (v / b) (p - 1) (store8 m (p - 1) (f (v mod b)))) as (ds & m' & Hr & Hl & Hds & Hu & Hn & Hz & Hw).
  { split; [done|]. apply Z.div_lt_upper_bound; lia. }
  { lia. }
  assert (Ez : p - zlen (v mod b :: ds) = p - 1 - zlen ds) by (unfold zlen; simpl length; lia).
  exists (v mod b :: ds), m'. rewrite Ez. split_and!; try done; simpl length.
  - eapply runs_next; [|exact Hr]. unfold digit_left. rewrite (proj2 (Z.ltb_lt 0 v)), (proj2 (Z.ltb_lt lo p)) by lia. done.
  - lia.
  - by apply Forall_cons.
  - change (undigits b (v mod b :: ds)) with (v mod b + b * undigits b ds). rewrite Hu. lia.
  - destruct ds as [|d ds]; [|done]. simpl in *. intros [= E]. lia.
  - intros x. rewrite Hw, fmap_cons. cbn [rev]. rewrite <- write_bytes_cons by (apply Hf; lia).
    unfold zlen. rewrite length_rev, length_fmap. do 2 f_equal. lia.
Qed.

End digits.

(** Bytes written in front of a terminator are a string. *)
Lemma written_cstr m m' p s :
  m p = 0 → Forall (λ c, c ≠ 0) s → (∀ x, m' x = write_bytes m (p - zlen s) s x) → cstr m' (p - zlen s) s.
Proof.
  intros Hp Hs Hm. unfold cstr. fold (zlen s). split_and!; [|done|].
  - rewrite (read_bytes_ext _ (write_bytes m (p - zlen s) s)) by (intros x _; apply Hm). apply read_write_bytes.
  - rewrite Hm. replace (p - zlen s + zlen s) with p by lia. unfold write_bytes.
    by rewrite (proj2 (in_range_false _ _ _)) by (unfold zlen; lia).
Qed.

Lemma write_bytes_outside m a s x : x < a ∨ a + zlen s <= x → write_bytes m a s x = m x.
Proof. intros Hx. unfold write_bytes. by rewrite (proj2 (in_range_false _ _ _)) by (unfold zlen in *; lia). Qed.

Lemma store8_is_write m a c x : is_u8 c → store8 m a c x = write_bytes m a [c] x.
Proof.
  intros Hc. unfold store, write_bytes. simpl length. change (Z.of_nat 1) with 1. range_cases; [|done].
  assert (x = a) as -> by lia. replace (a - a) with 0 by lia. rewrite byte_of_0. simpl. apply Z.mod_small, Hc.
Qed.

(** A decimal number without leading zeros. *)
Definition decimal (value : Z) (s : list Z) : Prop :=
  (1 <= length s <= 20)%nat ∧ Forall (λ ch, 48 <= ch <= 57) s ∧ number 10 dec_val s = value ∧ (head s = Some 48 → value = 0).

Lemma decimal_digits ds value :
  Forall (λ d, 0 <= d < 10) ds → undigits 10 ds = value → (1 <= length ds <= 20)%nat → last ds ≠ Some 0 →
  decimal value (rev ((λ d, 48 + d) <$> ds)).
Proof.
  intros Hds Hu Hl Hz. unfold decimal. rewrite length_rev, length_fmap. split_and!; [lia|lia| | |].
  - apply Forall_rev, Forall_fmap. eapply Forall_impl; [exact Hds|]. simpl. lia.
  - rewrite number_rev; [done|]. eapply Forall_impl; [exact Hds|]. intros d _. unfold dec_val. lia.
  - rewrite rev_head, fmap_last. destruct (last ds) as [d|]; [|done]. simpl. intros [= E]. by assert (d = 0) as -> by lia.
Qed.

Lemma decimal_nz value s : decimal value s → Forall (λ c, c ≠ 0) s.
Proof. intros (_ & Hd & _). eapply Forall_impl; [exact Hd|]. simpl. intros c Hc. lia. Qed.

(** The conversion fills the end of its buffer. *)
Lemma utoa_decimal value buf m :
  is_u64 value → ∃ s m', Libc.utoa_internal value buf 24 m = Some (buf + 23 - zlen s, m') ∧ decimal value s
    ∧ cstr m' (buf + 23 - zlen s) s ∧ ∀ x, x < buf ∨ buf + 24 <= x → m' x = m x.
Proof.
  intros Hv. unfold Libc.utoa_internal. cbn [Z.eqb]. cbv zeta. replace (buf + 24 - 1) with (buf + 23) by lia.
  set (m0 := store8 m (buf + 23) 0). assert (H0 : m0 (buf + 23) = 0).
  { unfold m0. rewrite store8_is_write by done. unfold write_bytes. simpl length.
    rewrite (proj2 (in_range_true _ _ _)) by lia. by replace (_ - _) with 0 by lia. }
  assert (Hout : ∀ s m', (1 <= length s <= 20)%nat → (∀ x, m' x = write_bytes m0 (buf + 23 - zlen s) s x) →
    ∀ x, x < buf ∨ buf + 24 <= x → m' x = m x).
  { intros s m' Hl Hm x Hx. rewrite Hm, write_bytes_outside by (unfold zlen; lia). unfold m0. by rewrite store_ne by lia. }
  destruct (Z.eqb_spec value 0) as [->|Hne].
  - assert (Hd : decimal 0 [48]) by (unfold decimal; split_and!; simpl; try done; try lia; by repeat constructor).
    assert (Hm : ∀ x, store8 m0 (buf + 23 - 1) 48 x = write_bytes m0 (buf + 23 - zlen [48]) [48] x).
    { intros x. by rewrite store8_is_write. }
    exists [48], (store8 m0 (buf + 23 - 1) 48). split; [done|]. split; [done|].
    split; [apply (written_cstr m0); [done|by eapply decimal_nz|done]|]. apply (Hout [48]); [simpl; lia|done].
  - destruct (digits_down 10 buf (λ d, 48 + d) ltac:(lia) ltac:(unfold is_u8; lia) 20 value (buf + 23) m0)
      as (ds & m' & Hr & Hl & Hds & Hu & Hn & Hz & Hw); [unfold is_u64 in Hv; lia|lia|].
    assert (H1 : (1 <= length ds)%nat).
    { destruct ds; [|simpl; lia]. exfalso. apply Hn; [unfold is_u64 in Hv; lia|done]. }
    pose proof (decimal_digits ds value Hds Hu ltac:(lia) Hz) as Hd. set (s := rev _) in *.
    assert (Es : zlen s = zlen ds) by (unfold s, zlen; by rewrite length_rev, length_fmap).
    exists s, m'. rewrite Es. split; [|split; [done|]].
    + fold (digit_left buf) (digit_step 10 (λ d, 48 + d)).
      rewrite (while_runs _ _ _ _ _ Hr) by (unfold WHILE_FUEL; lia). done.
    + rewrite <- Es in Hw |- *. split; [apply (written_cstr m0); [done|by eapply decimal_nz|done]|].
      apply (Hout s); [unfold s; rewrite length_rev, length_fmap; lia|done].
Qed.

(** Lower-case hexadecimal digits. *)
Definition lower_hex (d : Z) : Z := nth (Z.to_nat d) Libc.hex_chars 0.
Definition lower_val (ch : Z) : Z := if ch <? 97 then ch - 48 else ch - 87.

Lemma lower_hex_ok d : 0 <= d < 16 → is_u8 (lower_hex d) ∧ lower_hex d ≠ 0 ∧ lower_val (lower_hex d) = d.
Proof.
  intros Hd. assert (Hall : Forall (λ d, is_u8 (lower_hex d) ∧ lower_hex d ≠ 0 ∧ lower_val (lower_hex d) = d) (seqZ 0 16)).
  { by repeat constructor. }
  rewrite Forall_forall in Hall. apply Hall, elem_of_seqZ. lia.
Qed.

Definition hexadecimal (value : Z) (s : list Z) : Prop :=
  (1 <= length s)%nat ∧ (length s <= 16)%nat ∧ Forall (λ c, c ≠ 0) s ∧ number 16 lower_val s = value.

Lemma runs_ext {S R} (body body' : S → ctl S R) n s r : (∀ s, body s = body' s) → runs body n s r → runs body' n s r.
Proof. intros E. induction 1; [apply runs_stop; by rewrite <- E|eapply runs_next; [by rewrite <- E|done]]. Qed.

Lemma byte_of_0_at v x y : is_u8 v → x = y → byte_of v (x - y) = v.
Proof. intros Hv ->. rewrite Z.sub_diag, byte_of_0. apply Z.mod_small, Hv. Qed.

Section printing.
Context {W : Type} `{UT : Terminal W}.
Implicit Types w : W.

Lemma print_uint_decimal buf value w :
  u_ok w → is_u64 value → user_range buf 24 →
  ∃ s w', Libc.print_uint buf value w = Some w' ∧ decimal value s ∧ u_ok w' ∧ u_keys w' = u_keys w
    ∧ u_console w' = vga_puts (u_console w) s ∧ ∀ x, x < buf ∨ buf + 24 <= x → u_mem w' x = u_mem w x.
Proof.
  intros Hok Hv Hr. destruct (utoa_decimal value buf (u_mem w) Hv) as (s & m' & E & Hd & Hs & Hm).
  pose proof Hd as (Hl & _). destruct (set_puts m' (buf + 23 - zlen s) s w Hok) as (w' & Ep & O & M & C & K).
  { split; [done|]. sub_range Hr. }
  exists s, w'. split; [unfold Libc.print_uint; rewrite E, bind_Some_eq; by rewrite Ep|]. rewrite M. done.
Qed.

(** C35. Printing integers.  [print_int] returns; it prints the decimal digits of
    its argument without leading zeros, after a minus sign when it is negative,
    and writes no memory beyond its 24-byte buffer. *)
Theorem print_int_spec buf minus value w :
  u_ok w → user_range buf 24 → user_str (u_mem w) minus [45] → - 2 ^ 63 < value < 2 ^ 63 →
  ∃ s w', Libc.print_int buf minus value w = Some w' ∧ decimal (Z.abs value) s ∧ u_ok w' ∧ u_keys w' = u_keys w
    ∧ u_console w' = vga_puts (u_console w) ((if value <? 0 then [45] else []) ++ s)
    ∧ ∀ x, x < buf ∨ buf + 24 <= x → u_mem w' x = u_mem w x.
Proof.
  intros Hok Hb Hminus Hv. unfold Libc.print_int. destruct (Z.ltb_spec value 0).
  - destruct (write_str minus [45] w Hok Hminus) as (w1 & E1 & O1 & M1 & C1 & K1). change (zlen [45]) with 1 in E1.
    destruct (print_uint_decimal buf (- value) w1 O1) as (s & w2 & E2 & Hd & O2 & K2 & C2 & M2); [unfold is_u64; lia|done|].
    exists s, w2. rewrite E1, bind_Some_eq. rewrite u64_id by lia. replace (Z.abs value) with (- value) by lia.
    rewrite C1 in C2. rewrite K2, K1. unfold vga_puts in *. rewrite foldl_app, <- C2. split_and!; try done.
    intros x Hx. by rewrite M2, M1.
  - destruct (print_uint_decimal buf value w Hok) as (s & w2 & E2 & Hd & O2 & K2 & C2 & M2); [unfold is_u64; lia|done|].
    exists s, w2. rewrite u64_id by lia. replace (Z.abs value) with value by lia. done.
Qed.

(** The bytes that [print_hex] stores from the end of its buffer. *)
Lemma hex_bytes buf value m :
  is_u64 value →
  ∃ s m', (if value =? 0 then Some (value, buf + 18 - 1, store8 m (buf + 18 - 1) 48)
     else while_ (λ '(value, p, _), (0 <? value) && (buf + 2 <? p))
            (λ '(value, p, m), (Z.shiftr value 4, p - 1,
               store8 m (p - 1) (nth (Z.to_nat (Z.land value 0xF)) Libc.hex_chars 0))) (value, buf + 18, m))
     = Some (0, buf + 18 - zlen s, m')
   ∧ hexadecimal value s ∧ ∀ x, m' x = write_bytes m (buf + 18 - zlen s) s x.
Proof.
  intros Hv. destruct (Z.eqb_spec value 0) as [->|Hne].
  { exists [48], (store8 m (buf + 18 - 1) 48). split; [done|]. split; [|intros x; by rewrite store8_is_write].
    unfold hexadecimal. split_and!; simpl; try done; try lia. by repeat constructor. }
  destruct (digits_down 16 (buf + 2) lower_hex ltac:(lia) (λ d Hd, proj1 (lower_hex_ok d Hd)) 16 value (buf + 18) m)
    as (ds & m' & Hr & Hl & Hds & Hu & Hn & Hz & Hw); [unfold is_u64 in Hv; lia|lia|].
  exists (rev (lower_hex <$> ds)), m'.
  assert (Es : zlen (rev (lower_hex <$> ds)) = zlen ds) by (unfold zlen; by rewrite length_rev, length_fmap).
  rewrite Es. split; [|split; [|done]].
  - apply (while_runs _ _ (S (length ds))); [|unfold WHILE_FUEL; lia]. eapply runs_ext; [|exact Hr].
    intros [[v p] m1]. unfold digit_left, digit_step, lower_hex. rewrite Z.shiftr_div_pow2 by lia. change 15 with (2 ^ 4 - 1).
    by rewrite land_ones_mod by lia.
  - unfold hexadecimal. rewrite length_rev, length_fmap. split_and!.
    + destruct ds; [|simpl; lia]. exfalso. apply Hn; [unfold is_u64 in Hv; lia|done].
    + done.
    + apply Forall_rev, Forall_fmap. eapply Forall_impl; [exact Hds|]. intros d Hd. apply (lower_hex_ok d Hd).
    + rewrite number_rev; [done|]. eapply Forall_impl; [exact Hds|]. intros d Hd. apply (lower_hex_ok d Hd).
Qed.

(** [print_hex] prints the prefix and the lower-case hexadecimal digits of its
    argument, within its 19-byte buffer. *)
Lemma print_hex_spec buf value w :
  u_ok w → is_u64 value → user_range buf 19 →
  ∃ s w', Libc.print_hex buf value w = Some w' ∧ hexadecimal value s ∧ u_ok w' ∧ u_keys w' = u_keys w
    ∧ u_console w' = vga_puts (u_console w) ([48; 120] ++ s) ∧ ∀ x, x < buf ∨ buf + 19 <= x → u_mem w' x = u_mem w x.
Proof.
  intros Hok Hv Hr. unfold Libc.print_hex. cbv zeta. set (m0 := store8 (u_mem w) (buf + 18) 0).
  destruct (hex_bytes buf value m0 Hv) as (s & m1 & E & Hs & Hm). rewrite E, bind_Some_eq.
  pose proof Hs as (Hl1 & Hl2 & Hnz & _). set (p := buf + 18 - zlen s) in *.
  set (m2 := store8 (store8 m1 (p - 1) 120) (p - 1 - 1) 48).
  assert (H2 : ∀ x, m2 x = write_bytes m0 (buf + 18 - zlen ([48; 120] ++ s)) ([48; 120] ++ s) x).
  { intros x. replace (buf + 18 - zlen ([48; 120] ++ s)) with (p - 2) by (unfold p, zlen; rewrite length_app; simpl; lia).
    unfold m2, store, write_bytes. rewrite !length_app. simpl length. range_cases; try (unfold p, zlen in *; lia).
    - assert (x = p - 1 - 1) as -> by lia. rewrite byte_of_0_at by (unfold is_u8; lia). by replace (p - 1 - 1 - (p - 2)) with 0 by lia.
    - assert (x = p - 1) as -> by lia. rewrite byte_of_0_at by (unfold is_u8; lia). by replace (p - 1 - (p - 2)) with 1 by lia.
    - rewrite Hm. unfold write_bytes. fold p. rewrite (proj2 (in_range_true _ _ _)) by (unfold p, zlen in *; lia).
      replace (Z.to_nat (x - (p - 2))) with (S (S (Z.to_nat (x - p)))) by lia. done.
    - rewrite Hm. unfold write_bytes. fold p. by rewrite (proj2 (in_range_false _ _ _)) by (unfold p, zlen in *; lia). }
  assert (Hc : cstr m2 (buf + 18 - zlen ([48; 120] ++ s)) ([48; 120] ++ s)).
  { apply (written_cstr m0); [|by repeat constructor|done]. unfold m0. rewrite store8_is_write by done. unfold write_bytes.
    simpl length. rewrite (proj2 (in_range_true _ _ _)) by lia. by replace (_ - _) with 0 by lia. }
  assert (Hz : zlen ([48; 120] ++ s) = zlen s + 2) by (unfold zlen; rewrite length_app; simpl; lia). rewrite Hz in Hc, H2.
  destruct (set_puts m2 (buf + 18 - (zlen s + 2)) ([48; 120] ++ s) w Hok) as (w' & Ep & O & M & C & K).
  { split; [done|]. rewrite Hz. sub_range Hr. }
  exists s, w'. replace (p - 1 - 1) with (buf + 18 - (zlen s + 2)) by (unfold p; lia). fold m2. rewrite Ep, bind_Some_eq.
  split_and!; try done. intros x Hx. rewrite M, H2, write_bytes_outside by (rewrite Hz; unfold zlen; lia).
  unfold m0. by rewrite store_ne by lia.
Qed.

End printing.

(** ** The kernel as a terminal *)

Lemma sched_add_world {A} (s : sys A) i : s_world (sched_add s i) = s_world s.
Proof. unfold sched_add. by repeat case_match. Qed.

Lemma schedule_world {A} (s : sys A) : s_world (schedule s) = s_world s.
Proof.
  unfold schedule. destruct (negb (scheduler_running s)); [done|]. destruct (current_process s) as [c|]; [|done].
  destruct (sched_pick_next s) as [n s1] eqn:E. assert (Hw : s_world s1 = s_world s).
  { unfold sched_pick_next in E. destruct (run_queue_head s); [|by injection E as <- <-]. injection E as <- <-.
    by destruct (next _). }
  rewrite <- Hw. destruct (match n with Some n => Some n | None => idle_process s1 end); [|done].
  destruct (_ =? _); [done|]. simpl. case_match; [|done]. by rewrite sched_add_world.
Qed.

Lemma process_yield_world {A} (s : sys A) : s_world (process_yield s) = s_world s.
Proof. unfold process_yield. destruct (current_process s); [|done]. by rewrite schedule_world. Qed.

Section kernel.
Context {A : Type} `{KernelHeap A} `{UserSpace}.
Abbreviation kernel := (sys (world A)).

(** What happens from a yield until the program runs again: other processes,
    and interrupts, with which the given characters arrive. *)
Context (resume : list Z → kernel → kernel).

Definition kbd (s : kernel) : keyboard := w_kbd (s_world s).

(** [f] lists the characters that arrive during each of the coming yields. *)
#[local] Instance kernel_sys : UserSys (kernel * list (list Z)) := {
  u_mem x := w_mem (s_world x.1);
  u_set_mem m x := (on_world x.1 (λ w, set_mem w m), x.2);
  syscall_raw num a1 a2 a3 x :=
    '(r, s) ← syscall_dispatch x.1 num a1 a2 a3;
    Some (i64 r, if (num =? SYS_YIELD) || (num =? SYS_SLEEP) then (resume (default [] (head x.2)) s, tail x.2) else (s, x.2))
}.

(** Meanwhile the program's memory and the console stay, and the characters are
    put into the keyboard buffer. *)
Definition resumes : Prop := ∀ l s,
  w_mem (s_world (resume l s)) = w_mem (s_world s) ∧ w_pages (s_world (resume l s)) = w_pages (s_world s)
  ∧ w_console (s_world (resume l s)) = w_console (s_world s)
  ∧ (kb_wf (kbd s) → (length (contents (kbd s) ++ l) <= 255)%nat →
     kb_wf (kbd (resume l s)) ∧ contents (kbd (resume l s)) = contents (kbd s) ++ l).

Definition keys_of (x : kernel * list (list Z)) : list Z := contents (kbd x.1) ++ concat x.2.

(** The yields without a character. *)
Fixpoint empty_yields (f : list (list Z)) : Z :=
  match f with
  | [] :: f => 1 + empty_yields f
  | _ => 0
  end.

Definition wait_of (x : kernel * list (list Z)) : Z :=
  match contents (kbd x.1) with [] => 1 + empty_yields x.2 | _ => 0 end.

Definition terminal_ok (x : kernel * list (list Z)) : Prop :=
  kb_wf (kbd x.1) ∧ Forall (λ c, c ≠ 0) (keys_of x) ∧ (length (keys_of x) <= 255)%nat ∧ Z.of_nat (length x.2) < 2 ^ 63
  ∧ w_pages (s_world x.1) = u_page.

Lemma empty_yields_range f : 0 <= empty_yields f <= Z.of_nat (length f).
Proof using. induction f as [|[|c l] f IH]; simpl; lia. Qed.

(** One character taken from the keyboard. *)
Lemma read_one_key k :
  kb_wf k → Forall (λ c, c ≠ 0) (contents k) →
  let '(str, k') := read_keys k 1 in kb_wf k' ∧ match contents k with
  | [] => str = [] ∧ contents k' = []
  | c :: q => str = [c] ∧ contents k' = q
  end.
Proof using.
  intros Hw Hnz. unfold read_keys. rewrite for_cons by lia. cbv beta.
  pose proof (get_contents k Hw) as Hg. pose proof (get_wf k Hw) as Hgw. pose proof (empty_contents k Hw) as He.
  unfold keyboard_has_key, keyboard_getchar_nonblock. destruct (contents k) as [|c q] eqn:Ec.
  - rewrite (proj2 He eq_refl). by simpl.
  - destruct (buffer_empty k); [discriminate (proj1 He eq_refl)|]. cbn [negb].
    destruct (buffer_get k) as [c' k']. simpl in Hg, Hgw. destruct Hg as [-> Hq]. apply Forall_cons in Hnz as [Hc _].
    rewrite (proj2 (Z.eqb_neq c 0)) by done. by simpl.
Qed.

Lemma user_range_valid buf len : user_range buf len → validate_user_ptr buf len = true.
Proof using.
  intros (Hb & Hl & He & _). unfold validate_user_ptr. rewrite (proj2 (Z.eqb_neq buf 0)), (proj2 (Z.leb_gt USER_SPACE_END buf)) by lia.
  unfold USER_SPACE_END in *. rewrite u64_id by lia.
  rewrite (proj2 (Z.ltb_ge _ buf)), (proj2 (Z.ltb_ge _ (buf + len))) by lia. done.
Qed.

Lemma user_range_accessible (w : world A) buf len :
  w_pages w = u_page → user_range buf len → accessible w buf len = true.
Proof using. intros Hp (_ & _ & _ & Hr). apply accessible_spec. by rewrite Hp. Qed.

Lemma kernel_write buf len (x : kernel * list (list Z)) :
  terminal_ok x → user_range buf len →
  ∃ x', syscall_raw SYS_WRITE 1 buf len x = Some (len, x') ∧ terminal_ok x' ∧ u_mem x' = u_mem x
  ∧ w_console (s_world x'.1) = vga_puts (w_console (s_world x.1)) (read_bytes (u_mem x) buf len) ∧ keys_of x' = keys_of x.
Proof.
  intros Hok Hr. destruct x as [s f]. exists (on_world s (λ w, set_console w (vga_puts (w_console w) (read_bytes (w_mem w) buf len))), f).
  split; [|done]. cbn [syscall_raw kernel_sys fst snd]. change (syscall_dispatch s SYS_WRITE 1 buf len) with (sys_write s (i32 1) buf len).
  change (i32 1) with 1. unfold sys_write. rewrite (user_range_valid buf len Hr). cbn [negb].
  change ((1 =? 1) || (1 =? 2)) with true. cbv iota. unfold load_user.
  rewrite (user_range_accessible (s_world s) buf len (proj2 (proj2 (proj2 (proj2 Hok)))) Hr), !bind_Some_eq.
  destruct Hr as (Hb & Hl & He & _). unfold USER_SPACE_END in *. by rewrite i64_id by lia.
Qed.

Lemma kernel_read buf (x : kernel * list (list Z)) :
  terminal_ok x → user_range buf 1 →
  ∃ r x', syscall_raw SYS_READ 0 buf 1 x = Some (r, x') ∧ terminal_ok x' ∧ w_console (s_world x'.1) = w_console (s_world x.1)
  ∧ match keys_of x with
    | c :: keys => if wait_of x =? 0 then r = 1 ∧ u_mem x' = write_bytes (u_mem x) buf [c] ∧ keys_of x' = keys
                   else r = 0 ∧ (∀ a, u_mem x' a = u_mem x a) ∧ keys_of x' = c :: keys ∧ wait_of x' = wait_of x
    | [] => r = 0 ∧ (∀ a, u_mem x' a = u_mem x a) ∧ keys_of x' = []
    end.
Proof.
  intros (Hw & Hnz & Hlen & Hf & Hpg) Hr. destruct x as [s f]. unfold keys_of in *. simpl in Hw, Hnz, Hlen, Hf, Hpg.
  cbn [syscall_raw kernel_sys fst snd]. change (syscall_dispatch s SYS_READ 0 buf 1) with (sys_read s (i32 0) buf 1).
  change (i32 0) with 0. unfold sys_read. rewrite (user_range_valid buf 1 Hr). cbn [negb]. change (0 =? 0) with true.
  change (1 =? 0) with false. cbv iota. pose proof (read_one_key (kbd s) Hw (proj1 (proj1 (Forall_app _ _ _) Hnz))) as Hk.
  unfold kbd in Hk. destruct (read_keys (w_kbd (s_world s)) 1) as [str k'] eqn:Ek. fold (kbd s) in Hk. destruct Hk as [Hw' Hk].
  unfold store_user. rewrite (accessible_sub _ buf 1 buf (zlen str)).
  2: { by apply user_range_accessible. }
  2: { lia. }
  2: { destruct (contents (kbd s)); destruct Hk as [-> _]; unfold zlen; simpl; lia. }
  rewrite bind_Some_eq. eexists _, _. split; [rewrite bind_Some_eq; reflexivity|]. unfold wait_of, terminal_ok, keys_of, kbd in *. simpl.
  destruct (contents (w_kbd (s_world s))) as [|c q]; destruct Hk as [-> Hq]; rewrite Hq; simpl in *.
  - assert (Hm : ∀ a, write_bytes (w_mem (s_world s)) buf [] a = w_mem (s_world s) a)
      by (intros a; apply write_bytes_outside; unfold zlen; simpl; lia).
    split_and!; try done. destruct (concat f) as [|c keys]; [done|]. pose proof (empty_yields_range f).
    rewrite (proj2 (Z.eqb_neq _ 0)) by lia. done.
  - apply Forall_cons in Hnz as [_ Hnz]. split_and!; try done. lia.
Qed.

(** The program goes on after a call during which it was not running. *)
Lemma resume_keys s s1 f :
  resumes → terminal_ok (s, f) → s_world s1 = s_world s →
  let x := (s, f) in let x' := (resume (default [] (head f)) s1, tail f) in
  terminal_ok x' ∧ u_mem x' = u_mem x ∧ w_console (s_world x'.1) = w_console (s_world x.1) ∧ keys_of x' = keys_of x
  ∧ (keys_of x ≠ [] → 0 < wait_of x → wait_of x' < wait_of x).
Proof.
  intros Hres (Hw & Hnz & Hlen & Hf & Hpg) Hs1. set (l := default [] (head f)). destruct (Hres l s1) as (M & Pg & C & K).
  unfold kbd in K. rewrite Hs1 in M, Pg, C, K.
  unfold terminal_ok, keys_of, wait_of, kbd in *. simpl in Hw, Hnz, Hlen, Hf, Hpg |- *. rewrite Pg, Hpg.
  assert (Ec : concat f = l ++ concat (tail f)) by (by destruct f).
  rewrite Ec in Hlen, Hnz. destruct (K Hw) as [K1 K2]; [rewrite !length_app in *; lia|].
  rewrite K2, <- app_assoc, <- Ec. rewrite <- Ec in Hnz, Hlen. split_and!; try done.
  { destruct f; simpl in *; lia. }
  intros Hk Hpos. destruct (contents (w_kbd (s_world s))) as [|c q] eqn:Eq; [|simpl in *; lia]. simpl in *.
  destruct f as [|l0 f]; [done|]. subst l. simpl in *. destruct l0 as [|c l0]; simpl; [lia|].
  destruct f; simpl; lia.
Qed.

Lemma kernel_yield (x : kernel * list (list Z)) :
  resumes → terminal_ok x →
  ∃ r x', syscall_raw SYS_YIELD 0 0 0 x = Some (r, x') ∧ terminal_ok x' ∧ u_mem x' = u_mem x
  ∧ w_console (s_world x'.1) = w_console (s_world x.1) ∧ keys_of x' = keys_of x
  ∧ (keys_of x ≠ [] → 0 < wait_of x → wait_of x' < wait_of x).
Proof.
  intros Hres Hok. destruct x as [s f]. eexists _, _. split.
  - cbn [syscall_raw kernel_sys fst snd]. change (syscall_dispatch s SYS_YIELD 0 0 0) with (Some (0, process_yield s)).
    rewrite bind_Some_eq. reflexivity.
  - exact (resume_keys s (process_yield s) f Hres Hok (process_yield_world s)).
Qed.

(** The system calls of the kernel provide the terminal. *)
#[local] Program Instance kernel_terminal (Hres : resumes) : Terminal (kernel * list (list Z)) := {
  u_ok := terminal_ok;
  u_console x := w_console (s_world x.1);
  u_keys := keys_of;
  u_wait := wait_of;
  u_write buf len x := kernel_write buf len x;
  u_read buf x := kernel_read buf x;
  u_yield x := kernel_yield x Hres
}.
Next Obligation.
  intros _ x (_ & _ & _ & Hf & _). unfold wait_of. pose proof (empty_yields_range x.2). destruct (contents (kbd x.1)); lia.
Qed.
Next Obligation. done. Qed.
Next Obligation. by intros _ m [s f] Hok. Qed.

End kernel.

(** Such a resumption exists: the characters are typed. *)
Definition type_keys {A : Type} (l : list Z) (s : sys (world A)) : sys (world A) :=
  on_world s (λ w, set_kbd w (foldl buffer_put (w_kbd w) l)).

Lemma type_keys_resumes {A : Type} : resumes (A := A) type_keys.
Proof.
  intros l s. split_and!; [done|done|done|]. unfold kbd, type_keys. simpl. generalize (w_kbd (s_world s)).
  induction l as [|c l IH]; intros k Hk Hl; simpl; [by rewrite app_nil_r|].
  pose proof (put_contents k Hk c) as Hp. unfold enqueue in Hp. rewrite length_app in Hl. simpl in Hl.
  rewrite (proj2 (Nat.ltb_lt _ _)) in Hp by lia.
  destruct (IH (buffer_put k c) (put_wf k Hk c)) as [H1 H2]; [rewrite Hp, !length_app; simpl; lia|].
  split; [done|]. by rewrite H2, Hp, <- app_assoc.
Qed.

(** ** A terminal on its own *)

Module Tty.

(** All pages are the program's. *)
#[export] Instance all_pages : UserSpace := { u_page _ := true }.

(** Memory, console and the keys to come, which are there at once. *)
Record tty := T { t_mem : mem; t_console : console; t_keys : list Z }.

#[export] Instance tty_sys : UserSys tty := {
  u_mem := t_mem;
  u_set_mem m t := T m (t_console t) (t_keys t);
  syscall_raw num a1 a2 a3 t :=
    if num =? SYS_WRITE then Some (a3, T (t_mem t) (vga_puts (t_console t) (read_bytes (t_mem t) a2 a3)) (t_keys t))
    else if num =? SYS_READ then
      match t_keys t with
      | c :: keys => Some (1, T (write_bytes (t_mem t) a2 [c]) (t_console t) keys)
      | [] => Some (0, t)
      end
    else Some (0, t)
}.

#[export] Program Instance tty_terminal : Terminal tty := {
  u_ok _ := True;
  u_console := t_console;
  u_keys := t_keys;
  u_wait _ := 0
}.
Next Obligation. by simpl. Qed.
Next Obligation. done. Qed.
Next Obligation. done. Qed.
Next Obligation. intros buf len t _ _. by eexists. Qed.
Next Obligation. intros buf [m c [|k keys]] _ _; by eexists _, _. Qed.
Next Obligation. intros t _. eexists _, _. split_and!; done. Qed.

End Tty.

Import Tty.

Lemma print_int_spec_witness :
  ∃ s t', Libc.print_int 0x2000 0x1000 (-1204) (T (λ a, if a =? 0x1000 then 45 else 0) wit_console []) = Some t'
    ∧ decimal 1204 s ∧ t_console t' = vga_puts wit_console ([45] ++ s).
Proof.
  assert (Hb : user_range 0x2000 24) by (split_and!; [done..|by intros]).
  assert (Hm : user_str (λ a, if a =? 0x1000 then 45 else 0) 0x1000 [45]).
  { split; [split_and!; [reflexivity|by repeat constructor|reflexivity]|split_and!; [done..|by intros]]. }
  destruct (print_int_spec 0x2000 0x1000 (-1204) (T (λ a, if a =? 0x1000 then 45 else 0) wit_console []) ltac:(exact I) Hb Hm ltac:(lia))
    as (s & t' & E & Hd & _ & _ & C & _).
  exists s, t'. exact (conj E (conj Hd C)).
Defined.
