(* ===== verification/Shell.v ===== *)
(** * The shell: user/shell/shell.c

    The program on the terminal interface of UserLib: line editing, the parsing
    of a line in place, the command table and the commands.  The locals of the
    functions and the string literals have addresses: a frame of [Locals], and
    [lit].

    A command gives its result, or [None] when the program has exited.  The
    outermost [None] is a system call that does not come back. *)

From Stdlib Require Import ZArith Lia Ascii String.
From stdpp Require Import base numbers list.
From S2P Require Import Prelude.
From S2P Require Import Mem.
From S2P Require Import StringLib.
From S2P Require Import Path.
From S2P Require Import Vga.
From S2P Require Import Proc.
From S2P Require Import Vnode.
From S2P Require Import Syscall.
From S2P Require Import UserLib.

Definition MAX_LINE : Z := 256.
Definition MAX_ARGS : Z := 16.
Definition PROMPT : list Z := text "chanux> ".
Definition VGA_HEIGHT : Z := 25.

(** syscall.h of the user programs. *)
Definition O_RDONLY : Z := 0x0001.
Definition S_IFDIR : Z := 2.

(** The fields of its [stat_t] and [dirent_t] that the shell reads. *)
Definition st_mode (m : mem) (st : Z) : Z := load32 m st.
Definition d_type (m : mem) (entry : Z) : Z := load32 m (entry + 4).
Definition d_name (entry : Z) : Z := entry + 8.

(** The addresses of [line] and [argv] in [shell_main], [c] in
    [getchar_blocking], [buf] in [cmd_cat] and [cmd_pwd], [st] and [entry] in
    [cmd_ls]. *)
Record locals := Locals { l_line : Z; l_argv : Z; l_c : Z; l_buf : Z; l_st : Z; l_entry : Z }.

Inductive cmd := Cmd_help | Cmd_echo | Cmd_cat | Cmd_ls | Cmd_pwd | Cmd_cd | Cmd_clear | Cmd_exit.

Definition commands : list (list Z * list Z * cmd) := [
  (text "help", text "Show available commands", Cmd_help);
  (text "echo", text "Print arguments", Cmd_echo);
  (text "cat", text "Display file contents", Cmd_cat);
  (text "ls", text "List directory contents", Cmd_ls);
  (text "pwd", text "Print working directory", Cmd_pwd);
  (text "cd", text "Change directory", Cmd_cd);
  (text "clear", text "Clear screen", Cmd_clear);
  (text "exit", text "Exit shell", Cmd_exit) ].

(** ** Strings in memory *)

Definition strcmp (m : mem) (s1 s2 : Z) : option Z :=
  i ← while_ (λ i, negb (m (s1 +64 i) =? 0) && (m (s1 +64 i) =? m (s2 +64 i))) (λ i, i +64 1) 0;
  Some (m (s1 +64 i) - m (s2 +64 i)).

Definition is_blank (c : Z) : bool := (c =? 32) || (c =? 9).

(** One round of the loop of [parse_line], on the memory, [p] and [argc]. *)
Definition parse_arg (argv max_args : Z) (st : mem * Z * Z) : ctl (mem * Z * Z) (option (mem * Z)) :=
  let '(m, p, argc) := st in
  if negb (negb (m p =? 0) && (argc <? max_args - 1)) then Stop (Some (m, argc))
  else match while_ (λ p, is_blank (m p)) (λ p, p + 1) p with
  | None => Stop None
  | Some p =>
      if m p =? 0 then Stop (Some (m, argc))
      else
        let m := store64 m (argv + 8 * argc) p in
        match while_ (λ p, negb (m p =? 0) && negb (m p =? 32) && negb (m p =? 9)) (λ p, p + 1) p with
        | None => Stop None
        | Some p => if m p =? 0 then Next (m, p, argc + 1) else Next (store8 m p 0, p + 1, argc + 1)
        end
  end.

Definition parse_line (line argv max_args : Z) (m : mem) : option (Z * mem) :=
  r ← loop (parse_arg argv max_args) (m, line, 0);
  '(m, argc) ← r;
  Some (argc, store64 m (argv + 8 * argc) 0).

Section shell.
Import Libc.
Context {W : Type} `{UserSys W}.
Context (lit : list Z → Z) (l : locals).
Implicit Types w : W.

Definition arg w (argv i : Z) : Z := load64 (u_mem w) (argv + 8 * i).

(** ** Input *)

Definition getchar_blocking w : option (Z * W) :=
  r ← loop (λ w, match read 0 (l_c l) 1 w with
                 | None => Stop None
                 | Some (n, w) => if n =? 1 then Stop (Some (u_mem w (l_c l), w))
                                  else match yield w with None => Stop None | Some (_, w) => Next w end
                 end) w;
  r.

Definition print (s : list Z) w : option W := '(_, w) ← puts (lit s) w; Some w.

(** One round of [readline]: the position in the buffer and the state.  A [char]
    of 128 and more is negative, and not printable. *)
Definition edit_key (buf max_len : Z) (st : Z * W) : ctl (Z * W) (option (Z * W)) :=
  let '(pos, w) := st in
  if negb (pos <? max_len - 1) then Stop (Some (pos, w))
  else match getchar_blocking w with
  | None => Stop None
  | Some (c, w) =>
      if (c =? 10) || (c =? 13) then
        Stop ('(_, w) ← write 1 (lit [10]) 1 w; Some (pos, w))
      else if (c =? 8) || (c =? 127) then
        if 0 <? pos then
          match write 1 (lit [8; 32; 8]) 3 w with
          | None => Stop None
          | Some (_, w) => Next (pos - 1, w)
          end
        else Next (pos, w)
      else if (32 <=? c) && (c <? 127) then
        let w := u_set_mem (store8 (u_mem w) (buf + pos) c) w in
        match write 1 (l_c l) 1 w with
        | None => Stop None
        | Some (_, w) => Next (pos + 1, w)
        end
      else Next (pos, w)
  end.

Definition readline (buf max_len : Z) w : option (Z * W) :=
  r ← loop (edit_key buf max_len) (0, w);
  '(pos, w) ← r;
  Some (pos, u_set_mem (store8 (u_mem w) (buf + pos) 0) w).

(** ** Commands *)

Definition returns (r : Z) w : option (option Z * W) := Some (Some r, w).

(** [n] single spaces. *)
Definition spaces (n : nat) w : option W := Nat.iter n (λ ow, w ← ow; '(_, w) ← write 1 (lit [32]) 1 w; Some w) (Some w).

Definition help_entry (e : list Z * list Z * cmd) w : option W :=
  let '(name, description, _) := e in
  w ← print (text "  ") w;
  w ← print name w;
  len ← strlen (u_mem w) (lit name);
  w ← spaces (Z.to_nat (8 - len)) w;
  w ← print (text " - ") w;
  w ← print description w;
  print nl w.

Definition cmd_help w : option (option Z * W) :=
  w ← print (text "Chanux Shell - Available Commands:" ++ nl ++ nl) w;
  w ← foldl (λ ow e, w ← ow; help_entry e w) (Some w) commands;
  returns 0 w.

Definition cmd_echo (argc argv : Z) w : option (option Z * W) :=
  w ← foldl (λ ow i, w ← ow;
               w ← (if 1 <? i then '(_, w) ← write 1 (lit [32]) 1 w; Some w else Some w);
               '(_, w) ← puts (arg w argv i) w; Some w) (Some w) (seqZ 1 (argc - 1));
  w ← print nl w;
  returns 0 w.

Definition cat_step (fd : Z) w : ctl W (option W) :=
  match read fd (l_buf l) 256 w with
  | None => Stop None
  | Some (n, w) =>
      if 0 <? n then match write 1 (l_buf l) (u64 n) w with None => Stop None | Some (_, w) => Next w end
      else Stop (Some w)
  end.

Definition cmd_cat (argc argv : Z) w : option (option Z * W) :=
  if argc <? 2 then w ← print (text "Usage: cat <file>" ++ nl) w; returns 1 w
  else
    '(fd, w) ← open (arg w argv 1) O_RDONLY w;
    if fd <? 0 then
      w ← print (text "cat: cannot open '") w;
      '(_, w) ← puts (arg w argv 1) w;
      w ← print (text "': No such file or directory" ++ nl) w;
      returns 1 w
    else
      r ← loop (cat_step fd) w;
      w ← r;
      '(_, w) ← close fd w;
      returns 0 w.

(** An entry of a directory, [.] and [..] left out. *)
Definition ls_entry w : option W :=
  dot ← strcmp (u_mem w) (d_name (l_entry l)) (lit (text "."));
  shown ← (if dot =? 0 then Some false
           else dots ← strcmp (u_mem w) (d_name (l_entry l)) (lit (text "..")); Some (negb (dots =? 0))) : option bool;
  if (shown : bool) then
    '(_, w) ← puts (d_name (l_entry l)) w;
    w ← (if d_type (u_mem w) (l_entry l) =? S_IFDIR then print (text "/") w else Some w);
    print (text "  ") w
  else Some w.

Definition ls_step (fd : Z) (st : Z * W) : ctl (Z * W) (option W) :=
  let '(index, w) := st in
  match readdir_r fd (l_entry l) index w with
  | None => Stop None
  | Some (r, w) =>
      if r =? 0 then match ls_entry w with None => Stop None | Some w => Next (index + 1, w) end
      else Stop (Some w)
  end.

Definition cmd_ls (argc argv : Z) w : option (option Z * W) :=
  let path := if 1 <? argc then arg w argv 1 else lit (text ".") in
  '(fd, w) ← open path O_RDONLY w;
  if fd <? 0 then
    w ← print (text "ls: cannot access '") w;
    '(_, w) ← puts path w;
    w ← print (text "': No such file or directory" ++ nl) w;
    returns 1 w
  else
    '(r, w) ← fstat fd (l_st l) w;
    if (r <? 0) || negb (st_mode (u_mem w) (l_st l) =? S_IFDIR) then
      '(_, w) ← puts path w;
      w ← print nl w;
      '(_, w) ← close fd w;
      returns 0 w
    else
      r ← loop (ls_step fd) (0, w);
      w ← r;
      w ← print nl w;
      '(_, w) ← close fd w;
      returns 0 w.

Definition cmd_pwd w : option (option Z * W) :=
  '(r, w) ← getcwd (l_buf l) 256 w;
  if negb (r =? 0) then
    '(_, w) ← puts (l_buf l) w;
    w ← print nl w;
    returns 0 w
  else
    w ← print (text "pwd: error getting current directory" ++ nl) w;
    returns 1 w.

Definition cmd_cd (argc argv : Z) w : option (option Z * W) :=
  let path := if 1 <? argc then arg w argv 1 else lit (text "/") in
  '(r, w) ← chdir path w;
  if r <? 0 then
    w ← print (text "cd: cannot change directory to '") w;
    '(_, w) ← puts path w;
    w ← print (text "'" ++ nl) w;
    returns 1 w
  else returns 0 w.

Definition cmd_clear w : option (option Z * W) :=
  w ← foldl (λ ow _, w ← ow; print nl w) (Some w) (seqZ 0 VGA_HEIGHT);
  returns 0 w.

Definition cmd_exit w : option (option Z * W) :=
  w ← print (text "Goodbye!" ++ nl) w;
  w ← exit 0 w;
  Some (None, w).

(** ** The command loop *)

Definition handler (c : cmd) (argc argv : Z) w : option (option Z * W) :=
  match c with
  | Cmd_help => cmd_help w
  | Cmd_echo => cmd_echo argc argv w
  | Cmd_cat => cmd_cat argc argv w
  | Cmd_ls => cmd_ls argc argv w
  | Cmd_pwd => cmd_pwd w
  | Cmd_cd => cmd_cd argc argv w
  | Cmd_clear => cmd_clear w
  | Cmd_exit => cmd_exit w
  end.

Fixpoint dispatch (cs : list (list Z * list Z * cmd)) (argc argv : Z) w : option (option Z * W) :=
  match cs with
  | [] =>
      w ← print (text "Unknown command: ") w;
      '(_, w) ← puts (arg w argv 0) w;
      w ← print (nl ++ text "Type 'help' for available commands." ++ nl) w;
      returns 1 w
  | (name, _, c) :: cs =>
      r ← strcmp (u_mem w) (arg w argv 0) (lit name);
      if r =? 0 then handler c argc argv w else dispatch cs argc argv w
  end.

Definition execute_command (argc argv : Z) w : option (option Z * W) :=
  if argc =? 0 then returns 0 w else dispatch commands argc argv w.

(** One round of the loop of [shell_main]; [None] when the program has exited. *)
Definition shell_round w : option (option Z * W) :=
  w ← print PROMPT w;
  '(len, w) ← readline (l_line l) MAX_LINE w;
  if len =? 0 then returns 0 w
  else
    '(argc, m) ← parse_line (l_line l) (l_argv l) MAX_ARGS (u_mem w);
    let w := u_set_mem m w in
    if argc =? 0 then returns 0 w else execute_command argc (l_argv l) w.

Definition banner : list (list Z) := [
  nl; text "=======================================" ++ nl; text "   Welcome to Chanux Shell" ++ nl;
  text "   Type 'help' for available commands" ++ nl; text "=======================================" ++ nl; nl ].

(** [shell_main] until the program exits, in at most [rounds] rounds. *)
Fixpoint shell_rounds (rounds : nat) w : option W :=
  match rounds with
  | O => None
  | S rounds => '(r, w) ← shell_round w; match r with Some _ => shell_rounds rounds w | None => Some w end
  end.

Definition shell_main (rounds : nat) w : option W :=
  w ← foldl (λ ow s, w ← ow; print s w) (Some w) banner;
  shell_rounds rounds w.

End shell.

(** ** Addresses *)

(** Two ranges of addresses that do not meet. *)
Definition apart (a n b k : Z) : Prop := a + n <= b ∨ b + k <= a.

(** [m'] differs from [m] at most in the given range. *)
Definition changes (m m' : mem) (a n : Z) : Prop := ∀ x, x < a ∨ a + n <= x → m' x = m x.

(** The literals of the shell. *)
Definition literals : list (list Z) :=
  [[10]; [8; 32; 8]; [32]; text "  "; text " - "; text "."; text ".."; text "/"; PROMPT;
   text "Chanux Shell - Available Commands:" ++ nl ++ nl; text "Usage: cat <file>" ++ nl; text "cat: cannot open '";
   text "': No such file or directory" ++ nl; text "ls: cannot access '"; text "pwd: error getting current directory" ++ nl;
   text "cd: cannot change directory to '"; text "'" ++ nl; text "Goodbye!" ++ nl; text "Unknown command: ";
   nl ++ text "Type 'help' for available commands." ++ nl]
  ++ ((λ e, e.1.1) <$> commands) ++ ((λ e, e.1.2) <$> commands) ++ banner.

Section text.
Context `{UserSpace} (lit : list Z → Z) (lo hi : Z).

(** The literals are in their section, in user space, and hold their text. *)
Definition texts (m : mem) : Prop :=
  user_range lo (hi - lo)
  ∧ ∀ s, s ∈ literals → cstr m (lit s) s ∧ lo <= lit s ∧ lit s + zlen s + 1 <= hi.

Lemma cstr_ext m m' a s : (∀ x, a <= x <= a + zlen s → m' x = m x) → cstr m a s → cstr m' a s.
Proof using.
  intros E (H1 & H2 & H3). unfold zlen in E. split_and!; [|done|rewrite E by lia; done].
  rewrite (read_bytes_ext _ m); [done|]. intros x Hx. apply E. lia.
Qed.

Lemma texts_ext m m' : (∀ x, lo <= x < hi → m' x = m x) → texts m → texts m'.
Proof using.
  intros E (H1 & H3). split; [done|]. intros s Hs. destruct (H3 s Hs) as (A & B & C).
  split; [|done]. eapply cstr_ext; [|exact A]. intros x Hx. apply E. unfold zlen in *. lia.
Qed.

Lemma texts_changes m m' a n : changes m m' a n → apart a n lo (hi - lo) → texts m → texts m'.
Proof using. intros Hc Ha. apply texts_ext. intros x Hx. apply Hc. unfold apart in Ha. lia. Qed.

Lemma texts_str m s : texts m → s ∈ literals → user_str m (lit s) s.
Proof using.
  intros (H1 & H3) Hs. destruct (H3 s Hs) as (A & B & C). split; [done|]. sub_range H1.
Qed.

End text.

(** ** Line editing *)

(** What a sequence of keys makes of a line, what is echoed, and the keys left. *)
Fixpoint edit (max : Z) (line out keys : list Z) : option (list Z * list Z * list Z) :=
  if max - 1 <=? zlen line then Some (line, out, keys)
  else match keys with
  | [] => None
  | c :: keys =>
      if (c =? 10) || (c =? 13) then Some (line, out ++ [10], keys)
      else if (c =? 8) || (c =? 127) then
        match line with
        | [] => edit max line out keys
        | _ => edit max (removelast line) (out ++ [8; 32; 8]) keys
        end
      else if (32 <=? c) && (c <? 127) then edit max (line ++ [c]) (out ++ [c]) keys
      else edit max line out keys
  end.

Section input.
Import Libc.
Context {W : Type} `{UT : Terminal W}.
Context (lit : list Z → Z) (l : locals).
Implicit Types w : W.

(** A key read: it is in [c], and nothing else has changed. *)
Definition key_read w w' (c : Z) (keys : list Z) : Prop :=
  u_ok w' ∧ u_console w' = u_console w ∧ u_keys w' = keys ∧ u_mem w' (l_c l) = c ∧ changes (u_mem w) (u_mem w') (l_c l) 1.

Lemma key_read_now w c keys :
  u_ok w → user_range (l_c l) 1 → u_keys w = c :: keys → u_wait w = 0 →
  ∃ w', read 0 (l_c l) 1 w = Some (1, w') ∧ key_read w w' c keys.
Proof.
  intros Hok Hr Hk Hw. unfold read, syscall3. pose proof Hr as ((Hc & Hc') & _). unfold USER_SPACE_END in *.
  rewrite !u64_id by lia. destruct (u_read (l_c l) w Hok Hr) as (r & w' & E & O & C & K). rewrite Hk, Hw in K. simpl in K.
  destruct K as (-> & M & K). exists w'. split; [done|]. split_and!; try done; rewrite M.
  - unfold write_bytes. simpl length. rewrite (proj2 (in_range_true _ _ _)) by lia. by rewrite Z.sub_diag.
  - intros x Hx. by apply write_bytes_outside.
Qed.

Lemma getchar_runs n w c keys :
  u_wait w <= Z.of_nat n → u_ok w → user_range (l_c l) 1 → u_keys w = c :: keys →
  ∃ k w', (k <= S n)%nat ∧ runs (λ w, match read 0 (l_c l) 1 w with
      | None => Stop None
      | Some (n, w) => if n =? 1 then Stop (Some (u_mem w (l_c l), w))
                       else match yield w with None => Stop None | Some (_, w) => Next w end
      end) k w (Some (c, w')) ∧ key_read w w' c keys.
Proof.
  revert w. induction n as [|n IH]; intros w Hn Hok Hr Hk; pose proof (u_wait_range w Hok) as Hw0.
  { destruct (key_read_now w c keys Hok Hr Hk ltac:(lia)) as (w' & E & K). exists 1%nat, w'. split; [lia|]. split; [|done].
    apply runs_stop. rewrite E. simpl. by destruct K as (_ & _ & _ & -> & _). }
  destruct (decide (u_wait w = 0)) as [Hz|Hz].
  { destruct (key_read_now w c keys Hok Hr Hk Hz) as (w' & E & K). exists 1%nat, w'. split; [lia|]. split; [|done].
    apply runs_stop. rewrite E. simpl. by destruct K as (_ & _ & _ & -> & _). }
  pose proof Hr as ((Hc & Hc') & _). destruct (u_read (l_c l) w Hok Hr) as (r & w1 & E1 & O1 & C1 & K1). rewrite Hk in K1.
  rewrite (proj2 (Z.eqb_neq _ 0)) in K1 by done. destruct K1 as (-> & M1 & K1 & W1).
  destruct (u_yield w1 O1) as (r & w2 & E2 & O2 & M2 & C2 & K2 & W2). rewrite K1 in K2, W2.
  destruct (IH w2) as (k & w' & Hk' & R & (Ow & Cw & Kw & Mc & Mw)); [specialize (W2 ltac:(done)); lia|done|done|by rewrite K2|].
  exists (S k), w'. split; [lia|]. split; [|].
  - eapply runs_next; [|exact R]. unfold read, syscall3, yield, syscall0. unfold USER_SPACE_END in *. rewrite !u64_id by lia.
    rewrite E1. simpl. by rewrite E2.
  - split_and!; try done; [by rewrite Cw, C2|]. intros x Hx. rewrite Mw by done. by rewrite M2, M1.
Qed.

(** The loop of [getchar_blocking] ends once a key arrives. *)
Lemma getchar_blocking_spec w c keys :
  u_ok w → user_range (l_c l) 1 → u_keys w = c :: keys → ∃ w', getchar_blocking l w = Some (c, w') ∧ key_read w w' c keys.
Proof.
  intros Hok Hr Hk. pose proof (u_wait_range w Hok) as Hw.
  destruct (getchar_runs (Z.to_nat (u_wait w)) w c keys ltac:(lia) Hok Hr Hk) as (k & w' & Hk' & R & Hkr).
  exists w'. split; [|done]. unfold getchar_blocking. rewrite (loop_runs _ _ _ _ R); [done|]. unfold WHILE_FUEL. lia.
Qed.

(** The line so far is in the buffer. *)
Definition holds (m : mem) (a : Z) (s : list Z) : Prop := ∀ i b, s !! i = Some b → m (a + Z.of_nat i) = b.

Definition printable (c : Z) : Prop := 32 <= c < 127.

Section readline.
Context (lo hi buf max : Z) (m0 : mem) (c0 : console).

(** Where a readline of [max] bytes into [buf] may write. *)
Record line_layout : Prop := {
  ll_buf : user_range buf max;
  ll_c : user_range (l_c l) 1;
  ll_text : apart buf max lo (hi - lo) ∧ apart (l_c l) 1 lo (hi - lo);
  ll_apart : apart (l_c l) 1 buf max
}.

Record editing (line out keys : list Z) w : Prop := {
  ed_ok : u_ok w;
  ed_texts : texts lit lo hi (u_mem w);
  ed_line : holds (u_mem w) buf line;
  ed_print : Forall printable line;
  ed_room : zlen line <= max - 1;
  ed_keys : u_keys w = keys;
  ed_console : u_console w = vga_puts c0 out;
  ed_mem : ∀ x, x < buf ∨ buf + max <= x → x ≠ l_c l → u_mem w x = m0 x
}.

Context (HL : line_layout).

(** A key read while editing. *)
Lemma editing_key line out c keys w w' : editing line out (c :: keys) w → key_read w w' c keys → editing line out keys w'.
Proof using HL.
  intros [E1 E2 E3 E4 E5 E6 E7 E8] (O & C & K & Mc & M). destruct HL as [H1 H2 [H3 H4] H5]. unfold apart in *. split; try done.
  - by apply (texts_changes lit lo hi (u_mem w) _ (l_c l) 1).
  - intros i b Hi. pose proof (lookup_lt_Some _ _ _ Hi). rewrite M by (unfold zlen in *; lia). by apply E3.
  - by rewrite C.
  - intros x Hx Hne. rewrite M by lia. by apply E8.
Qed.

(** Something echoed while editing. *)
Lemma editing_prints line out keys w w' s : editing line out keys w → prints w w' s → editing line (out ++ s) keys w'.
Proof using.
  intros [E1 E2 E3 E4 E5 E6 E7 E8] (O & M & C & K). split; try done; rewrite ?M; try done; [by rewrite K|].
  rewrite C, E7. unfold vga_puts. by rewrite foldl_app.
Qed.

Lemma editing_shorter line out keys w : editing line out keys w → editing (removelast line) out keys w.
Proof using.
  intros [E1 E2 E3 E4 E5 E6 E7 E8].
  assert (Hl : line = [] ∨ ∃ l0 x, line = l0 ++ [x]) by (destruct line as [|x l0 _] using rev_ind; eauto).
  destruct Hl as [->|(l0 & x & ->)]; [done|]. rewrite removelast_last. apply Forall_app in E4 as [E4 _].
  split; try done; [|unfold zlen in *; rewrite length_app in E5; lia].
  intros i b Hi. apply E3. by apply lookup_app_l_Some.
Qed.

Lemma editing_stored line out keys w c :
  editing line out keys w → printable c → zlen line < max - 1 →
  editing (line ++ [c]) out keys (u_set_mem (store8 (u_mem w) (buf + zlen line) c) w).
Proof using HL.
  intros [E1 E2 E3 E4 E5 E6 E7 E8] Hc Hr. destruct HL as [H1 H2 [H3 H4] H5]. unfold apart in *.
  set (m1 := store8 _ _ _). destruct (u_set_mem_frame m1 w E1) as (O & C & K).
  assert (Hz : 0 <= zlen line) by (unfold zlen; lia). assert (Hu : is_u8 c) by (unfold is_u8, printable in *; lia).
  assert (Hm : ∀ x, m1 x = write_bytes (u_mem w) (buf + zlen line) [c] x) by (intros x; by apply store8_is_write).
  split; try rewrite u_mem_set; try done.
  - apply (texts_ext lit lo hi (u_mem w)); [|done]. intros x Hx. unfold m1. rewrite store_ne by lia. done.
  - intros i b Hi. rewrite Hm. apply lookup_app_Some in Hi as [Hi|[Hlen Hi]].
    + pose proof (lookup_lt_Some _ _ _ Hi). rewrite write_bytes_outside by (unfold zlen; simpl; lia). by apply E3.
    + apply list_lookup_singleton_Some in Hi as [Hi <-]. unfold write_bytes. simpl length.
      rewrite (proj2 (in_range_true _ _ _)) by (unfold zlen; lia). by replace (Z.to_nat _) with 0%nat by (unfold zlen; lia).
  - apply Forall_app. split; [done|by apply Forall_singleton].
  - unfold zlen in *. rewrite length_app. simpl. lia.
  - by rewrite K.
  - by rewrite C.
  - intros x Hx Hne. unfold m1. rewrite store_ne by lia. by apply E8.
Qed.

Lemma lit_newline : [10] ∈ literals.
Proof using. by left. Qed.
Lemma lit_erase : [8; 32; 8] ∈ literals.
Proof using. by right; left. Qed.

(** The keys up to the end of the line, as rounds of the loop. *)
Lemma edit_runs keys line out w line' out' rest :
  editing line out keys w → edit max line out keys = Some (line', out', rest) →
  ∃ n w', (n <= S (length keys))%nat ∧ runs (edit_key lit l buf max) n (zlen line, w) (Some (zlen line', w'))
    ∧ editing line' out' rest w'.
Proof using HL.
  revert line out w. induction keys as [|c keys IH]; intros line out w He; simpl.
  all: destruct (Z.leb_spec (max - 1) (zlen line)) as [Hfull|Hroom].
  - intros [= <- <- <-]. exists 1%nat, w. split_and!; [done| |done]. apply runs_stop. unfold edit_key. by rewrite (proj2 (Z.ltb_ge _ _)) by lia.
  - done.
  - intros [= <- <- <-]. exists 1%nat, w. split_and!; [lia| |done]. apply runs_stop. unfold edit_key. by rewrite (proj2 (Z.ltb_ge _ _)) by lia.
  - destruct (getchar_blocking_spec w c keys (ed_ok _ _ _ _ He) (ll_c HL) (ed_keys _ _ _ _ He)) as (w1 & E1 & K1).
    pose proof (editing_key _ _ _ _ _ _ He K1) as He1.
    assert (Hgo : ∀ line2 out2 w2, edit_key lit l buf max (zlen line, w) = Next (zlen line2, w2) → editing line2 out2 keys w2 →
      edit max line2 out2 keys = Some (line', out', rest) →
      ∃ n w', (n <= S (S (length keys)))%nat ∧ runs (edit_key lit l buf max) n (zlen line, w) (Some (zlen line', w'))
        ∧ editing line' out' rest w').
    { intros line2 out2 w2 Es H2 Hed. destruct (IH line2 out2 w2 H2 Hed) as (n & w' & Hn & Hr & Hf).
      exists (S n), w'. split_and!; [lia|by eapply runs_next|done]. }
    unfold edit_key in Hgo. unfold edit_key at 1. rewrite (proj2 (Z.ltb_lt _ _)) in Hgo by lia. cbn [negb] in Hgo. rewrite E1 in Hgo.
    destruct ((c =? 10) || (c =? 13)) eqn:Enl.
    { intros [= <- <- <-].
      destruct (write_str (lit [10]) [10] w1 (ed_ok _ _ _ _ He1)) as (w2 & E2 & P2);
        [apply (texts_str _ lo hi); [apply (ed_texts _ _ _ _ He1)|apply lit_newline]|].
      exists 1%nat, w2. split_and!; [lia| |by eapply editing_prints]. apply runs_stop. unfold edit_key.
      rewrite (proj2 (Z.ltb_lt _ _)) by lia. cbn [negb]. rewrite E1, Enl. change (zlen [10]) with 1 in E2. by rewrite E2. }
    destruct ((c =? 8) || (c =? 127)) eqn:Ebs.
    { destruct line as [|b line0] eqn:El; [apply (Hgo [] out w1); done|]. rewrite <- El in *.
      destruct (write_str (lit [8; 32; 8]) [8; 32; 8] w1 (ed_ok _ _ _ _ He1)) as (w2 & E2 & P2);
        [apply (texts_str _ lo hi); [apply (ed_texts _ _ _ _ He1)|apply lit_erase]|].
      change (zlen [8; 32; 8]) with 3 in E2. rewrite E2 in Hgo.
      assert (Hz : 0 < zlen line) by (unfold zlen; rewrite El; simpl; lia). rewrite (proj2 (Z.ltb_lt 0 _)) in Hgo by done.
      apply (Hgo (removelast line) (out ++ [8; 32; 8]) w2).
      - do 2 f_equal. rewrite El. unfold zlen. pose proof (app_removelast_last 0 (l := b :: line0) ltac:(done)) as Hrl.
        apply (f_equal length) in Hrl. rewrite length_app in Hrl. simpl in Hrl |- *. lia.
      - apply editing_shorter. by eapply editing_prints. }
    destruct ((32 <=? c) && (c <? 127)) eqn:Epr; [|by apply (Hgo line out w1)].
    assert (Hpr : printable c) by (unfold printable; to_prop; lia). pose proof (editing_stored _ _ _ _ c He1 Hpr Hroom) as He2.
    set (w2 := u_set_mem _ _) in *. destruct (write_prints (l_c l) 1 w2 (ed_ok _ _ _ _ He2) (ll_c HL)) as (w3 & E3 & P3).
    fold w2 in Hgo. rewrite E3 in Hgo.
    assert (Hc : read_bytes (u_mem w2) (l_c l) 1 = [c]).
    { unfold read_bytes. simpl. f_equal. rewrite Z.add_0_r. unfold w2. rewrite u_mem_set. destruct HL as [H1 H2 _ H5].
      unfold apart in H5. rewrite store_ne by (unfold zlen in *; lia). by destruct K1 as (_ & _ & _ & -> & _). }
    rewrite Hc in P3. apply (Hgo (line ++ [c]) (out ++ [c]) w3); [|by eapply editing_prints].
    unfold zlen. rewrite length_app. simpl. do 2 f_equal. lia.
Qed.

End readline.

Lemma holds_cstr m a s : holds m a s → Forall (λ b, b ≠ 0) s → m (a + zlen s) = 0 → cstr m a s.
Proof using.
  intros Hh Hnz Hz. split_and!; [|done|done]. apply list_eq. intros i. destruct (s !! i) as [b|] eqn:E.
  - pose proof (lookup_lt_Some _ _ _ E). rewrite read_bytes_lookup by lia. f_equal. by apply Hh.
  - apply lookup_ge_None_1 in E. apply lookup_ge_None_2. rewrite length_read_bytes. lia.
Qed.

Lemma readline_ok lo hi buf max w line out rest :
  u_ok w → texts lit lo hi (u_mem w) → line_layout lo hi buf max → 1 <= max →
  edit max [] [] (u_keys w) = Some (line, out, rest) → Z.of_nat (length (u_keys w)) < 2 ^ 64 →
  ∃ w', readline lit l buf max w = Some (zlen line, w') ∧ u_ok w' ∧ cstr (u_mem w') buf line
    ∧ u_console w' = vga_puts (u_console w) out ∧ u_keys w' = rest
    ∧ (Forall printable line ∧ zlen line <= max - 1) ∧ texts lit lo hi (u_mem w')
    ∧ ∀ x, x < buf ∨ buf + max <= x → x ≠ l_c l → u_mem w' x = u_mem w x.
Proof.
  intros Hok Ht HL Hmax He Hlen.
  assert (Hst : editing lo hi buf max (u_mem w) (u_console w) [] [] (u_keys w) w).
  { split; try done. unfold zlen. simpl. lia. }
  destruct (edit_runs lo hi buf max (u_mem w) (u_console w) HL (u_keys w) [] [] w line out rest Hst He) as (n & w1 & Hn & Hr & [E1 E2 E3 E4 E5 E6 E7 E8]).
  unfold readline. change (0, w) with (zlen [], w). rewrite (loop_runs _ _ _ _ Hr) by (unfold WHILE_FUEL; lia).
  rewrite !bind_Some_eq. set (m1 := store8 _ _ _). destruct (u_set_mem_frame m1 w1 E1) as (O & C & K). destruct HL as [H1 H2 [H3 H4] H5].
  unfold apart in *. assert (Hz : 0 <= zlen line) by (unfold zlen; lia).
  exists (u_set_mem m1 w1). split; [done|]. rewrite u_mem_set, C, K. split_and!; try done.
  - apply holds_cstr.
    + intros i b Hi. unfold m1. pose proof (lookup_lt_Some _ _ _ Hi). rewrite store_ne by (unfold zlen; lia). by apply E3.
    + eapply Forall_impl; [exact E4|]. unfold printable. simpl. intros b Hb. lia.
    + unfold m1. rewrite store8_is_write by done. unfold write_bytes. simpl length. rewrite (proj2 (in_range_true _ _ _)) by lia.
      by rewrite Z.sub_diag.
  - apply (texts_ext lit lo hi (u_mem w1)); [|done]. intros x Hx. unfold m1. rewrite store_ne by lia. done.
  - intros x Hx Hne. unfold m1. rewrite store_ne by lia. by apply E8.
Qed.

(** C24. Line editing.  When the keys that arrive complete a line, [readline]
    returns with the edited line in the buffer, NUL-terminated, its length, and
    the rest of the keys unread; backspace and delete erase the last character
    of the line and of the echo, other control characters do nothing, and a full
    buffer ends the line.  It writes to the buffer and its local only. *)
Theorem readline_spec lo hi buf max w line out rest :
  u_ok w → texts lit lo hi (u_mem w) → line_layout lo hi buf max → 1 <= max →
  edit max [] [] (u_keys w) = Some (line, out, rest) → Z.of_nat (length (u_keys w)) < 2 ^ 64 →
  ∃ w', readline lit l buf max w = Some (zlen line, w') ∧ cstr (u_mem w') buf line ∧ zlen line < max
    ∧ u_console w' = vga_puts (u_console w) out ∧ u_keys w' = rest
    ∧ ∀ x, x < buf ∨ buf + max <= x → x ≠ l_c l → u_mem w' x = u_mem w x.
Proof.
  intros Hok Ht HL Hmax He Hlen.
  destruct (readline_ok lo hi buf max w line out rest Hok Ht HL Hmax He Hlen) as (w' & E & O & S & C & K & [_ Hz] & _ & M).
  exists w'. split_and!; try done. lia.
Qed.

End input.

(** ** Parsing *)

(** The words of a line with their positions; [cur] is the word being read, [k]
    the position. *)
Fixpoint words (k : Z) (cur s : list Z) : list (Z * list Z) :=
  match s with
  | [] => match cur with [] => [] | _ => [(k - zlen cur, cur)] end
  | c :: s =>
      if is_blank c then
        match cur with [] => words (k + 1) [] s | _ => (k - zlen cur, cur) :: words (k + 1) [] s end
      else words (k + 1) (cur ++ [c]) s
  end.

Definition blank (c : Z) : Prop := is_blank c = true.
Definition solid (c : Z) : Prop := is_blank c = false.


Lemma words_blanks k bl s : Forall blank bl → words k [] (bl ++ s) = words (k + zlen bl) [] s.
Proof.
  intros H. revert k. induction H as [|c bl Hc _ IH]; intros k; [by rewrite Z.add_0_r|]. simpl. rewrite Hc, IH.
  rewrite zlen_cons. f_equal. lia.
Qed.

Lemma words_solid k cur wd s : Forall solid wd → words k cur (wd ++ s) = words (k + zlen wd) (cur ++ wd) s.
Proof.
  intros H. revert k cur. induction H as [|c wd Hc _ IH]; intros k cur; [by rewrite Z.add_0_r, app_nil_r|]. simpl. rewrite Hc, IH.
  rewrite zlen_cons, <- app_assoc. f_equal. lia.
Qed.

Lemma words_next k wd r :
  Forall solid wd → wd ≠ [] →
  words k [] wd = [(k, wd)] ∧ ∀ b, blank b → words k [] (wd ++ b :: r) = (k, wd) :: words (k + zlen wd + 1) [] r.
Proof.
  intros Hs Hne. split.
  - rewrite <- (app_nil_r wd) at 1. rewrite words_solid by done. simpl. destruct wd; [done|]. do 2 f_equal. lia.
  - intros b Hb. rewrite words_solid by done. simpl. rewrite Hb. destruct wd; [done|]. do 2 f_equal. lia.
Qed.

(** A string split where a test first fails. *)
Lemma span (t : Z → bool) (s : list Z) :
  ∃ a b, s = a ++ b ∧ Forall (λ c, t c = true) a ∧ (b = [] ∨ ∃ c b', b = c :: b' ∧ t c = false).
Proof.
  induction s as [|c s (a & b & -> & Ha & Hb)]; [by exists [], []; eauto|].
  destruct (t c) eqn:E; [exists (c :: a), b|exists [], (c :: a ++ b)]; eauto 10.
Qed.

Lemma scan_up (cond : Z → bool) p n :
  0 <= n < 2 ^ 64 → (∀ i, 0 <= i < n → cond (p + i) = true) → cond (p + n) = false →
  while_ cond (λ p, p + 1) p = Some (p + n).
Proof.
  intros Hn Ht Hf. destruct (while_total cond (λ p, p + 1) (λ q, p <= q <= p + n) (λ q, p + n - q) p) as (q & -> & Hq & Hc).
  - lia.
  - unfold WHILE_FUEL. lia.
  - intros q Hq Hc. destruct (decide (q = p + n)) as [->|]; [congruence|lia].
  - destruct (decide (q = p + n)) as [->|]; [done|]. replace q with (p + (q - p)) in Hc by lia. rewrite Ht in Hc by lia. done.
Qed.

(** The bytes of a string in memory. *)
Lemma cstr_char m a s t i c : cstr m a (s ++ c :: t) → i = zlen s → m (a + i) = c ∧ c ≠ 0.
Proof.
  intros Hs ->. split.
  - rewrite (cstr_at m a _ (zlen s) Hs) by (unfold zlen; rewrite length_app; simpl; lia). unfold zlen.
    rewrite Nat2Z.id, list_lookup_middle by done. done.
  - eapply (cstr_nz m a _ (length s)); [exact Hs|]. by apply list_lookup_middle.
Qed.

Lemma cstr_end m a s : cstr m a s → m (a + zlen s) = 0.
Proof. by intros (_ & _ & H). Qed.

Lemma cstr_app m a s t : cstr m a (s ++ t) → cstr m (a + zlen s) t.
Proof.
  intros Hs. pose proof Hs as (_ & Hnz & _). apply Forall_app in Hnz as [_ Hnz]. apply holds_cstr; [|done|].
  - intros i b Hi. pose proof (lookup_lt_Some _ _ _ Hi). rewrite <- Z.add_assoc.
    rewrite (cstr_at m a _ _ Hs) by (unfold zlen; rewrite length_app; lia). unfold zlen. rewrite <- Nat2Z.inj_add, Nat2Z.id.
    by rewrite lookup_app_r, Nat.add_comm, Nat.add_sub, Hi by lia.
  - rewrite <- Z.add_assoc, <- zlen_app. by apply cstr_end.
Qed.

(** A string cut by a terminator. *)
Lemma cstr_cut m m' a s t : cstr m a (s ++ t) → (∀ x, a <= x < a + zlen s → m' x = m x) → m' (a + zlen s) = 0 → cstr m' a s.
Proof.
  intros Hs He Hz. pose proof Hs as (_ & Hnz & _). apply Forall_app in Hnz as [Hnz _]. apply holds_cstr; [|done|done].
  intros i b Hi. pose proof (lookup_lt_Some _ _ _ Hi). rewrite He by (unfold zlen; lia).
  rewrite (cstr_at m a _ _ Hs) by (rewrite length_app; lia). by rewrite Nat2Z.id, lookup_app_l, Hi by lia.
Qed.

Section parsing.
Context (line argv max len : Z) (m0 : mem).

(** The line and the argument vector are in memory, apart. *)
Record parse_layout : Prop := {
  pl_line : 0 <= line ∧ line + len < 2 ^ 64;
  pl_len : 0 <= len < 2 ^ 63;
  pl_max : 1 <= max < 2 ^ 31;
  pl_apart : apart line (len + 1) argv (8 * max)
}.

(** [args] is in the vector: each pointer leads to its word. *)
Definition args_at (m : mem) (args : list (Z * list Z)) : Prop :=
  ∀ i o wd, args !! i = Some (o, wd) → load64 m (argv + 8 * Z.of_nat i) = line + o ∧ cstr m (line + o) wd.

(** The state of the loop: [args] have been found, [rest] is still to parse. *)
Record parsing (all args : list (Z * list Z)) (k : Z) (rest : list Z) (m : mem) : Prop := {
  pg_rest : cstr m (line + k) rest;
  pg_pos : 0 <= k ∧ k + zlen rest <= len;
  pg_all : args ++ words k [] rest = all;
  pg_args : args_at m args;
  pg_before : ∀ i o wd, args !! i = Some (o, wd) → 0 <= o ∧ (o + zlen wd < k ∨ (rest = [] ∧ o + zlen wd <= k));
  pg_count : Z.of_nat (length args) <= max - 1;
  pg_mem : ∀ x, x < line ∨ line + len < x → x < argv ∨ argv + 8 * max <= x → m x = m0 x
}.

Context (HL : parse_layout).

(** A word is entered into the vector and cut off; [k'] is where parsing goes
    on. *)
Lemma parsing_word all args k wd rest m m' k' rest' :
  parsing all args k (wd ++ rest) m → Forall solid wd → wd ≠ [] → Z.of_nat (length args) < max - 1 →
  (rest = [] ∧ rest' = [] ∧ k' = k + zlen wd ∧ (∀ x, m' x = store64 m (argv + 8 * Z.of_nat (length args)) (line + k) x))
  ∨ (∃ b, rest = b :: rest' ∧ blank b ∧ k' = k + zlen wd + 1
     ∧ ∀ x, m' x = store8 (store64 m (argv + 8 * Z.of_nat (length args)) (line + k)) (line + k + zlen wd) 0 x) →
  parsing all (args ++ [(k, wd)]) k' rest' m'.
Proof using HL.
  intros [P1 P2 P3 P4 P5 P6 P7] Hs Hne Hc Hcases. destruct HL as [[L1 L2] L3 L4 L5]. unfold apart in L5.
  set (na := Z.of_nat (length args)) in *. rewrite zlen_app in P2. assert (Hw : 0 < zlen wd) by (destruct wd; [done|unfold zlen; simpl; lia]).
  assert (Hr0 : 0 <= zlen rest) by (unfold zlen; lia).
  assert (Hbefore : ∀ i o wd0, args !! i = Some (o, wd0) → 0 <= o ∧ o + zlen wd0 < k).
  { intros i o wd0 Hi. destruct (P5 i o wd0 Hi) as [Ho [?|[E _]]]; [lia|]. by destruct wd. }
  (* the memory, away from the entry and the cut *)
  assert (Hm : ∀ x, x < argv + 8 * na ∨ argv + 8 * na + 8 <= x → x ≠ line + k + zlen wd → m' x = m x).
  { intros x Hx Hne'. destruct Hcases as [(_ & _ & _ & E)|(b & _ & _ & _ & E)]; rewrite E; [by rewrite store_ne by lia|].
    by rewrite !store_ne by lia. }
  assert (Hentry : load64 m' (argv + 8 * na) = line + k).
  { destruct Hcases as [(_ & _ & _ & E)|(b & Er & _ & _ & E)].
    - rewrite (load_ext _ _ _ _ (λ x _, E x)), load64_store64; [done|unfold is_u64; lia].
    - rewrite (load_ext _ _ _ _ (λ x _, E x)). subst rest. rewrite load_store_ne by (unfold zlen in *; simpl in P2; lia).
      rewrite load64_store64; [done|unfold is_u64; lia]. }
  assert (Hend : m' (line + k + zlen wd) = 0).
  { destruct Hcases as [(-> & _ & _ & E)|(b & _ & _ & _ & E)]; rewrite E.
    - rewrite store_ne by lia. rewrite app_nil_r in P1. by apply cstr_end.
    - unfold store at 1. rewrite (proj2 (in_range_true _ _ _)) by lia. by rewrite Z.sub_diag. }
  assert (Hk' : k + zlen wd <= k') by (destruct Hcases as [(_ & _ & -> & _)|(b & _ & _ & -> & _)]; lia).
  split.
  - destruct Hcases as [(-> & -> & -> & _)|(b & -> & Hb & -> & E)].
    + split_and!; [done|done|]. change (Z.of_nat (length [])) with 0. rewrite Z.add_0_r, Z.add_assoc. exact Hend.
    + change (wd ++ b :: rest') with (wd ++ [b] ++ rest') in P1.
      rewrite app_assoc in P1. apply cstr_app in P1. rewrite zlen_app in P1. change (zlen [b]) with 1 in P1.
      rewrite <- !Z.add_assoc in *. eapply cstr_ext; [|exact P1]. intros x Hx. apply Hm; [|lia]. unfold zlen in *. simpl in P2. lia.
  - destruct Hcases as [(-> & -> & -> & _)|(b & -> & _ & -> & _)]; unfold zlen in *; simpl in *; lia.
  - rewrite <- P3, <- app_assoc. f_equal. destruct (words_next k wd rest' Hs Hne) as [W1 W2].
    destruct Hcases as [(-> & -> & -> & _)|(b & -> & Hb & -> & _)]; [by rewrite (app_nil_r wd), W1|by rewrite W2].
  - intros i o wd0 Hi. apply lookup_app_Some in Hi as [Hi|[Hlen Hi]].
    + pose proof (lookup_lt_Some _ _ _ Hi). destruct (P4 i o wd0 Hi) as [Q1 Q2]. destruct (Hbefore i o wd0 Hi) as [Ho Hlt].
      split; [rewrite <- Q1; apply load_ext; intros x Hx; apply Hm; lia|].
      eapply cstr_ext; [|exact Q2]. intros x Hx. apply Hm; lia.
    + apply list_lookup_singleton_Some in Hi as [Hi [= <- <-]]. replace (Z.of_nat i) with na by lia. split; [done|].
      apply (cstr_cut m m' (line + k) wd rest P1); [|done]. intros x Hx. apply Hm; lia.
  - intros i o wd0 Hi. apply lookup_app_Some in Hi as [Hi|[Hlen Hi]].
    + destruct (Hbefore i o wd0 Hi) as [Ho Hlt]. split; [done|]. left. lia.
    + apply list_lookup_singleton_Some in Hi as [Hi [= <- <-]]. split; [lia|].
      destruct Hcases as [(_ & -> & -> & _)|(b & _ & _ & -> & _)]; [right; split; [done|lia]|left; lia].
  - rewrite length_app. simpl. lia.
  - intros x Hx1 Hx2. rewrite Hm by (unfold zlen in *; lia). by apply P7.
Qed.

(** Blanks are skipped. *)
Lemma parsing_blanks all args k bl rest m :
  parsing all args k (bl ++ rest) m → Forall blank bl → parsing all args (k + zlen bl) rest m.
Proof using.
  intros [P1 P2 P3 P4 P5 P6 P7] Hb. rewrite zlen_app in P2. assert (0 <= zlen bl) by (unfold zlen; lia). split; try done.
  - rewrite Z.add_assoc. by apply cstr_app.
  - lia.
  - by rewrite <- P3, words_blanks.
  - intros i o wd Hi. destruct (P5 i o wd Hi) as [Ho [?|[E ?]]]; (split; [done|]); [left; lia|].
    right. apply app_eq_nil in E as [-> ->]. split; [done|lia].
Qed.

(** The words fit into the vector, or are cut off at its end. *)
Lemma parsing_done all args k rest m :
  parsing all args k rest m → Z.of_nat (length args) = max - 1 ∨ words k [] rest = [] → args = take (Z.to_nat (max - 1)) all.
Proof using.
  intros [P1 P2 P3 P4 P5 P6 P7] [E|E]; rewrite <- P3.
  - replace (Z.to_nat (max - 1)) with (length args) by lia. by rewrite take_app_length.
  - rewrite E, app_nil_r. rewrite take_ge by lia. done.
Qed.

Lemma scan_word m p wd rest :
  cstr m p (wd ++ rest) → Forall solid wd → (rest = [] ∨ ∃ b r, rest = b :: r ∧ blank b) → zlen wd < 2 ^ 63 →
  while_ (λ p, negb (m p =? 0) && negb (m p =? 32) && negb (m p =? 9)) (λ p, p + 1) p = Some (p + zlen wd).
Proof using.
  clear HL. intros Hs Hw Hr Hl. apply scan_up; [unfold zlen in *; lia| |].
  - intros i Hi. assert (Hlt : (Z.to_nat i < length wd)%nat) by (unfold zlen in Hi; lia).
    destruct (lookup_lt_is_Some_2 wd _ Hlt) as [c Hc]. pose proof (proj1 (Forall_lookup _ _) Hw _ _ Hc) as Hsol.
    assert (Hlk : (wd ++ rest) !! Z.to_nat i = Some c) by (by apply lookup_app_l_Some).
    pose proof (cstr_nz _ _ _ _ _ Hs Hlk) as Hnz. rewrite (cstr_at m p _ i Hs) by (rewrite length_app; lia). rewrite Hlk. simpl.
    unfold solid, is_blank in Hsol. apply orb_false_iff in Hsol as [-> ->]. by rewrite (proj2 (Z.eqb_neq c 0)).
  - destruct Hr as [->|(b & r & -> & Hb)].
    + rewrite app_nil_r in Hs. by rewrite (cstr_end _ _ _ Hs).
    + destruct (cstr_char m p wd r _ b Hs eq_refl) as [-> Hnz]. rewrite (proj2 (Z.eqb_neq b 0)) by done.
      unfold blank, is_blank in Hb. apply orb_true_iff in Hb as [-> | ->]; simpl; [done|]. apply andb_false_r.
Qed.

Lemma scan_blanks m p bl rest :
  cstr m p (bl ++ rest) → Forall blank bl → (rest = [] ∨ ∃ c r, rest = c :: r ∧ solid c) → zlen bl < 2 ^ 63 →
  while_ (λ p, is_blank (m p)) (λ p, p + 1) p = Some (p + zlen bl).
Proof using.
  clear HL. intros Hs Hb Hr Hl. apply scan_up; [unfold zlen in *; lia| |].
  - intros i Hi. assert (Hlt : (Z.to_nat i < length bl)%nat) by (unfold zlen in Hi; lia).
    destruct (lookup_lt_is_Some_2 bl _ Hlt) as [c Hc]. pose proof (proj1 (Forall_lookup _ _) Hb _ _ Hc) as Hbl.
    rewrite (cstr_at m p _ i Hs) by (rewrite length_app; lia). by rewrite (lookup_app_l_Some _ _ _ _ Hc).
  - destruct Hr as [->|(b & r & -> & Hsol)].
    + rewrite app_nil_r in Hs. by rewrite (cstr_end _ _ _ Hs).
    + by destruct (cstr_char m p bl r _ b Hs eq_refl) as [-> _].
Qed.

(** The rest of a round, at the first character of a word. *)
Definition parse_word (m : mem) (p argc : Z) : ctl (mem * Z * Z) (option (mem * Z)) :=
  let m := store64 m (argv + 8 * argc) p in
  match while_ (λ p, negb (m p =? 0) && negb (m p =? 32) && negb (m p =? 9)) (λ p, p + 1) p with
  | None => Stop None
  | Some p => if m p =? 0 then Next (m, p, argc + 1) else Next (store8 m p 0, p + 1, argc + 1)
  end.

Lemma parse_word_ok all args k c r m :
  parsing all args k (c :: r) m → solid c → Z.of_nat (length args) < max - 1 →
  ∃ a k2 rest2 m2, parse_word m (line + k) (Z.of_nat (length args)) = Next (m2, line + k2, Z.of_nat (length (args ++ [a])))
    ∧ parsing all (args ++ [a]) k2 rest2 m2 ∧ (length rest2 < length (c :: r))%nat.
Proof using HL.
  intros HP Hsol Hlt. pose proof HP as [P1 P2 _ _ _ _ _]. pose proof HL as [[L1 L2] L3 L4 L5].
  destruct (span (λ c, negb (is_blank c)) (c :: r)) as (wd & s2 & E2 & Hwd & Hs2).
  assert (Hwd' : Forall solid wd) by (eapply Forall_impl; [exact Hwd|]; intros x Hx; by apply negb_true_iff).
  assert (Hne : wd ≠ []).
  { intros ->. simpl in E2. subst s2. destruct Hs2 as [Hs2|(c1 & b1 & [= <- <-] & Hs2)]; [done|]. unfold solid in Hsol. by rewrite Hsol in Hs2. }
  rewrite E2 in HP, P1, P2 |- *. unfold parse_word. set (m1 := store64 m _ _). cbv zeta.
  assert (P1' : cstr m1 (line + k) (wd ++ s2)).
  { eapply cstr_ext; [|exact P1]. intros x Hx. unfold m1. unfold apart in L5. by rewrite store_ne by lia. }
  rewrite zlen_app in P2. assert (0 <= zlen s2) by (unfold zlen; lia).
  assert (Hs2' : s2 = [] ∨ ∃ b r, s2 = b :: r ∧ blank b).
  { destruct Hs2 as [->|(b & r2 & -> & Hb)]; [by left|]. right. exists b, r2. split; [done|]. by apply negb_false_iff. }
  rewrite (scan_word m1 (line + k) wd s2 P1' Hwd' Hs2' ltac:(lia)), length_app.
  assert (Hwl : (0 < length wd)%nat) by (destruct wd; [done|simpl; lia]).
  assert (Hlen : Z.of_nat (length args) + 1 = Z.of_nat (length (args ++ [(k, wd)]))) by (rewrite length_app; simpl; lia).
  destruct Hs2' as [->|(b & r2 & -> & Hb)].
  - pose proof (cstr_end _ _ _ P1') as Hz. rewrite app_nil_r in Hz. rewrite Hz. exists (k, wd), (k + zlen wd), [], m1.
    split_and!; [by rewrite <- Hlen, Z.add_assoc| |simpl; lia].
    apply (parsing_word all args k wd [] m); try done. by left.
  - destruct (cstr_char m1 _ wd r2 _ b P1' eq_refl) as [Hcb Hb0]. rewrite Hcb, (proj2 (Z.eqb_neq b 0)) by done.
    exists (k, wd), (k + zlen wd + 1), r2, (store8 m1 (line + k + zlen wd) 0).
    split_and!; [by rewrite <- Hlen, !Z.add_assoc| |simpl; lia].
    apply (parsing_word all args k wd (b :: r2) m); try done. right. by exists b.
Qed.

(** A round ends the loop with the words that fit, or adds one word. *)
Lemma parse_round all args k rest m :
  parsing all args k rest m →
  (∃ k' rest', parse_arg argv max (m, line + k, Z.of_nat (length args)) = Stop (Some (m, Z.of_nat (length args)))
     ∧ parsing all args k' rest' m ∧ args = take (Z.to_nat (max - 1)) all)
  ∨ ∃ a k2 rest2 m2, parse_arg argv max (m, line + k, Z.of_nat (length args)) = Next (m2, line + k2, Z.of_nat (length (args ++ [a])))
     ∧ parsing all (args ++ [a]) k2 rest2 m2 ∧ (length rest2 < length rest)%nat.
Proof using HL.
  intros HP. pose proof HP as [P1 P2 _ _ _ P6 _]. pose proof HL as [_ L3 _ _]. unfold parse_arg.
  destruct rest as [|c0 rest0] eqn:Er.
  { left. exists k, []. pose proof (cstr_end _ _ _ P1) as Hz. change (zlen []) with 0 in Hz. rewrite Z.add_0_r in Hz. rewrite Hz.
    split_and!; [done|done|]. eapply parsing_done; [exact HP|by right]. }
  rewrite <- Er in *. assert (Hnz : m (line + k) ≠ 0).
  { rewrite Er in P1. destruct (cstr_char m (line + k) [] rest0 0 c0 P1 eq_refl) as [Hc Hc0]. rewrite Z.add_0_r in Hc. congruence. }
  rewrite (proj2 (Z.eqb_neq _ 0)) by done. destruct (Z.ltb_spec (Z.of_nat (length args)) (max - 1)) as [Hlt|Hge].
  2: { left. exists k, rest. split_and!; [done|done|]. eapply parsing_done; [exact HP|left; lia]. }
  destruct (span is_blank rest) as (bl & s1 & E1 & Hbl & Hs1). rewrite E1 in HP, P1.
  pose proof (parsing_blanks _ _ _ _ _ _ HP Hbl) as HP1. rewrite E1, zlen_app in P2. assert (0 <= zlen s1) by (unfold zlen; lia).
  cbn [negb andb]. rewrite (scan_blanks m (line + k) bl s1 P1 Hbl Hs1 ltac:(lia)). rewrite <- Z.add_assoc.
  destruct Hs1 as [->|(c & r & -> & Hsol)].
  - left. exists (k + zlen bl), []. pose proof (cstr_end _ _ _ (pg_rest _ _ _ _ _ HP1)) as Hz. change (zlen []) with 0 in Hz.
    rewrite Z.add_0_r in Hz. rewrite Hz. split_and!; [done|done|]. eapply parsing_done; [exact HP1|by right].
  - right. destruct (cstr_char m _ [] r 0 c (pg_rest _ _ _ _ _ HP1) eq_refl) as [Hc Hc0]. rewrite Z.add_0_r in Hc.
    rewrite Hc, (proj2 (Z.eqb_neq c 0)) by done.
    destruct (parse_word_ok all args (k + zlen bl) c r m HP1 Hsol Hlt) as (a & k2 & rest2 & m2 & Ew & HP2 & Hl2).
    exists a, k2, rest2, m2. split_and!; [exact Ew|done|]. rewrite E1, length_app. lia.
Qed.

Lemma parse_runs n all args k rest m :
  (length rest <= n)%nat → parsing all args k rest m →
  ∃ j k' rest' m', (j <= S n)%nat
    ∧ runs (parse_arg argv max) j (m, line + k, Z.of_nat (length args))
        (Some (m', Z.of_nat (length (take (Z.to_nat (max - 1)) all))))
    ∧ parsing all (take (Z.to_nat (max - 1)) all) k' rest' m'.
Proof using HL.
  revert args k rest m. induction n as [n IH] using lt_wf_ind. intros args k rest m Hn HP.
  destruct (parse_round all args k rest m HP) as [(k' & rest' & E & HP' & Et)|(a & k2 & rest2 & m2 & E & HP2 & Hl)].
  - rewrite <- Et. exists 1%nat, k', rest', m. split_and!; [lia|by apply runs_stop|done].
  - destruct (IH (n - 1)%nat ltac:(lia) _ k2 rest2 m2 ltac:(lia) HP2) as (j & k' & rest' & m' & Hj & Hr & HPf).
    exists (S j), k', rest', m'. split_and!; [lia| |done]. by eapply runs_next.
Qed.

End parsing.

Lemma parse_line_ok line argv max s m :
  cstr m line s → parse_layout line argv max (zlen s) →
  let args := take (Z.to_nat (max - 1)) (words 0 [] s) in
  ∃ m', parse_line line argv max m = Some (Z.of_nat (length args), m') ∧ args_at line argv m' args
    ∧ load64 m' (argv + 8 * Z.of_nat (length args)) = 0 ∧ (∀ o wd, (o, wd) ∈ args → 0 <= o ∧ o + zlen wd <= zlen s)
    ∧ ∀ x, x < line ∨ line + zlen s < x → x < argv ∨ argv + 8 * max <= x → m' x = m x.
Proof.
  intros Hs HL args. pose proof HL as [[L1 L2] L3 L4 L5]. unfold apart in L5.
  assert (HP : parsing line argv max (zlen s) m (words 0 [] s) [] 0 s m).
  { split; try done; try (by intros i o wd Hi); try lia; [by rewrite Z.add_0_r|simpl; lia]. }
  destruct (parse_runs line argv max (zlen s) m HL (length s) _ _ _ _ _ (le_n _) HP) as (j & k & rest & m1 & Hj & Hr & [Q1 Q2 Q3 Q4 Q5 Q6 Q7]).
  fold args in Hr, Q3, Q4, Q5, Q6. rewrite Z.add_0_r in Hr. change (Z.of_nat (length [])) with 0 in Hr.
  exists (store64 m1 (argv + 8 * Z.of_nat (length args)) 0). unfold parse_line.
  rewrite (loop_runs _ _ _ _ Hr) by (unfold zlen, WHILE_FUEL in *; lia). split; [done|].
  assert (Hin : ∀ o wd, (o, wd) ∈ args → 0 <= o ∧ o + zlen wd <= zlen s).
  { intros o wd Ho. apply list_elem_of_lookup in Ho as [i Hi]. destruct (Q5 i o wd Hi) as [Ho Hk]. unfold zlen in *. lia. }
  split_and!; [|by rewrite load64_store64|done|].
  - intros i o wd Hi. destruct (Q4 i o wd Hi) as [A1 A2]. pose proof (lookup_lt_Some _ _ _ Hi).
    destruct (Hin o wd) as [Ho1 Ho2]; [by eapply list_elem_of_lookup_2|].
    split; [by rewrite load_store_ne by lia|]. eapply cstr_ext; [|exact A2]. intros x Hx. by rewrite store_ne by lia.
  - intros x Hx1 Hx2. rewrite store_ne by lia. by apply Q7.
Qed.

(** C25. Parsing a line in place.  [parse_line] returns the number of the words of
    the line, separated by blanks and tabs, as many as fit the vector; the
    vector leads to each of them, now a string of its own in the line, and ends
    with a null pointer.  Only the line and the vector are written. *)
Theorem parse_line_spec line argv max s m :
  cstr m line s → parse_layout line argv max (zlen s) →
  let args := take (Z.to_nat (max - 1)) (words 0 [] s) in
  ∃ m', parse_line line argv max m = Some (Z.of_nat (length args), m') ∧ args_at line argv m' args
    ∧ load64 m' (argv + 8 * Z.of_nat (length args)) = 0
    ∧ ∀ x, x < line ∨ line + zlen s < x → x < argv ∨ argv + 8 * max <= x → m' x = m x.
Proof.
  intros Hs HL args. destruct (parse_line_ok line argv max s m Hs HL) as (m' & E & A & Z0 & _ & M). by exists m'.
Qed.

(** ** Commands *)

Lemma user_strcmp `{UserSpace} m a b s t : user_str m a s → user_str m b t → ∃ r, strcmp m a b = Some r ∧ (r = 0 ↔ s = t).
Proof.
  intros [Ha (A1 & _ & A2 & _)] [Hb (B1 & _ & B2 & _)]. unfold zlen, USER_SPACE_END in *.
  exact (strcmp_correct m a b s t ltac:(lia) ltac:(lia) ltac:(lia) ltac:(lia) Ha Hb).
Qed.

(** The command of a name. *)
Fixpoint find_command (cs : list (list Z * list Z * cmd)) (s : list Z) : option cmd :=
  match cs with
  | [] => None
  | (name, _, c) :: cs => if decide (s = name) then Some c else find_command cs s
  end.

Lemma find_command_None cs s : s ∉ ((λ e, e.1.1) <$> cs) → find_command cs s = None.
Proof.
  induction cs as [|[[name d] c] cs IH]; [done|]. rewrite fmap_cons, not_elem_of_cons. intros [H1 H2]. simpl.
  destruct (decide (s = name)); [done|]. by apply IH.
Qed.

Section commands.
Import Libc.
Context {W : Type} `{UT : Terminal W}.
Context (lit : list Z → Z) (l : locals) (lo hi : Z).
Implicit Types w : W.

(** The strings of an argument vector. *)
Definition argv_holds w (argv : Z) (args : list (list Z)) : Prop :=
  ∀ i s, args !! i = Some s → user_str (u_mem w) (arg w argv (Z.of_nat i)) s.

Lemma argv_prints w w' argv args s : argv_holds w argv args → prints w w' s → argv_holds w' argv args.
Proof using. intros Ha (_ & M & _). unfold argv_holds, arg in *. by rewrite M. Qed.

Lemma print_prints s w : u_ok w → texts lit lo hi (u_mem w) → s ∈ literals → ∃ w', print lit s w = Some w' ∧ prints w w' s.
Proof using.
  intros Hok Ht Hs. destruct (puts_prints (lit s) s w Hok) as (w' & E & P); [by apply (texts_str _ lo hi)|].
  exists w'. split; [|done]. unfold print. by rewrite E.
Qed.

Lemma prints_texts w w' s : prints w w' s → texts lit lo hi (u_mem w) → texts lit lo hi (u_mem w').
Proof using. by intros (_ & -> & _). Qed.
Lemma prints_ok w w' s : prints w w' s → u_ok w'.
Proof using. by intros (? & _). Qed.

(** The loop over the command table. *)
Lemma dispatch_find cs argc argv args s w :
  texts lit lo hi (u_mem w) → argv_holds w argv (s :: args) → Forall (λ e, e.1.1 ∈ literals) cs →
  dispatch lit l cs argc argv w =
    match find_command cs s with Some c => handler lit l c argc argv w | None => dispatch lit l [] argc argv w end.
Proof using.
  intros Ht Ha Hcs. induction Hcs as [|[[name d] c] cs Hn _ IH]; [done|]. cbn [dispatch find_command].
  destruct (user_strcmp (u_mem w) (arg w argv 0) (lit name) s name) as (r & -> & Hr).
  { exact (Ha 0%nat s eq_refl). }
  { by apply (texts_str _ lo hi). }
  rewrite bind_Some_eq. destruct (Z.eqb_spec r 0) as [E|E]; destruct (decide (s = name)) as [En|En]; try done.
  - by destruct En; apply Hr.
  - by destruct E; apply Hr.
Qed.

Lemma unknown_command argc argv args s w :
  u_ok w → texts lit lo hi (u_mem w) → argv_holds w argv (s :: args) →
  ∃ w', dispatch lit l [] argc argv w = Some (Some 1, w')
    ∧ prints w w' (text "Unknown command: " ++ s ++ nl ++ text "Type 'help' for available commands." ++ nl).
Proof using.
  intros Hok Ht Ha. cbn [dispatch].
  destruct (print_prints (text "Unknown command: ") w Hok Ht) as (w1 & -> & P1); [by repeat (left || right)|].
  rewrite bind_Some_eq. pose proof (argv_prints _ _ _ _ _ Ha P1) as Ha1.
  destruct (puts_prints (arg w1 argv 0) s w1 (prints_ok _ _ _ P1) (Ha1 0%nat s eq_refl)) as (w2 & -> & P2). rewrite bind_Some_eq.
  pose proof (prints_texts _ _ _ P2 (prints_texts _ _ _ P1 Ht)) as Ht2.
  destruct (print_prints (nl ++ text "Type 'help' for available commands." ++ nl) w2 (prints_ok _ _ _ P2) Ht2) as (w3 & -> & P3);
    [by repeat (left || right)|].
  exists w3. split; [done|]. exact (prints_app _ _ _ _ _ P1 (prints_app _ _ _ _ _ P2 P3)).
Qed.

(** What [echo] prints. *)
Definition echo_text (args : list (list Z)) : list Z :=
  match args with [] => [] | s :: args => s ++ concat ((λ s, 32 :: s) <$> args) end.

Definition echo_arg (argv i : Z) w : option W :=
  w ← (if 1 <? i then '(_, w) ← write 1 (lit [32]) 1 w; Some w else Some w);
  '(_, w) ← puts (arg w argv i) w; Some w.

Lemma echo_arg_prints argv args i s w :
  u_ok w → texts lit lo hi (u_mem w) → argv_holds w argv args → args !! i = Some s →
  ∃ w', echo_arg argv (Z.of_nat i) w = Some w' ∧ prints w w' ((if (1 <? i)%nat then [32] else []) ++ s).
Proof using.
  intros Hok Ht Ha Hi. unfold echo_arg.
  assert (Hsep : ∃ w1, (if 1 <? Z.of_nat i then '(_, w) ← write 1 (lit [32]) 1 w; Some w else Some w) = Some w1
    ∧ prints w w1 (if (1 <? i)%nat then [32] else [])).
  { destruct (Z.ltb_spec 1 (Z.of_nat i)), (Nat.ltb_spec 1 i); try lia; [|by exists w].
    destruct (write_str (lit [32]) [32] w Hok) as (w1 & E & P); [apply (texts_str _ lo hi); [done|by repeat (left || right)]|].
    change (zlen [32]) with 1 in E. rewrite E. by exists w1. }
  destruct Hsep as (w1 & -> & P1). rewrite bind_Some_eq. pose proof (argv_prints _ _ _ _ _ Ha P1) as Ha1.
  destruct (puts_prints (arg w1 argv (Z.of_nat i)) s w1 (prints_ok _ _ _ P1) (Ha1 i s Hi)) as (w2 & -> & P2).
  exists w2. split; [done|]. by eapply prints_app.
Qed.

Lemma seqZ_of_nat i n : Z.of_nat <$> seq i n = seqZ (Z.of_nat i) (Z.of_nat n).
Proof using.
  revert i. induction n as [|n IH]; intros i; [done|]. simpl seq. rewrite fmap_cons, IH, (seqZ_cons (Z.of_nat i) (Z.of_nat (S n))) by lia. f_equal. f_equal; lia.
Qed.

Lemma echo_loop argv args rest i w :
  u_ok w → texts lit lo hi (u_mem w) → argv_holds w argv args → (1 < i)%nat → drop i args = rest →
  ∃ w', foldl (λ ow i, w ← ow; echo_arg argv i w) (Some w) (Z.of_nat <$> seq i (length rest)) = Some w'
    ∧ prints w w' (concat ((λ s, 32 :: s) <$> rest)).
Proof using.
  revert i w. induction rest as [|s rest IH]; intros i w Hok Ht Ha Hi Hd; simpl; [by exists w|].
  assert (Hl : args !! i = Some s) by (rewrite <- (Nat.add_0_r i), <- lookup_drop, Hd; done).
  destruct (echo_arg_prints argv args i s w Hok Ht Ha Hl) as (w1 & -> & P1). rewrite (proj2 (Nat.ltb_lt 1 i)) in P1 by lia.
  destruct (IH (S i) w1 (prints_ok _ _ _ P1) (prints_texts _ _ _ P1 Ht) (argv_prints _ _ _ _ _ Ha P1) ltac:(lia)) as (w2 & E2 & P2).
  { replace (S i) with (i + 1)%nat by lia. by rewrite <- drop_drop, Hd. }
  exists w2. split; [exact E2|]. exact (prints_app _ _ _ _ _ P1 P2).
Qed.

(** [echo] prints its arguments separated by single blanks, and a newline. *)
Lemma cmd_echo_prints argv name args w :
  u_ok w → texts lit lo hi (u_mem w) → argv_holds w argv (name :: args) →
  ∃ w', cmd_echo lit (Z.of_nat (length (name :: args))) argv w = Some (Some 0, w') ∧ prints w w' (echo_text args ++ nl).
Proof using.
  intros Hok Ht Ha. unfold cmd_echo.
  assert (Hloop : ∃ w1, foldl (λ ow i, w ← ow; echo_arg argv i w) (Some w) (seqZ 1 (Z.of_nat (length (name :: args)) - 1)) = Some w1
    ∧ prints w w1 (echo_text args)).
  { replace (seqZ 1 _) with (Z.of_nat <$> seq 1 (length args)) by (rewrite seqZ_of_nat; f_equal; simpl; lia).
    destruct args as [|s args]; [by exists w|]. simpl. destruct (echo_arg_prints argv _ 1 s w Hok Ht Ha eq_refl) as (w1 & E1 & P1).
    simpl in E1, P1. rewrite E1.
    destruct (echo_loop argv (name :: s :: args) args 2 w1 (prints_ok _ _ _ P1) (prints_texts _ _ _ P1 Ht)
      (argv_prints _ _ _ _ _ Ha P1) ltac:(lia) eq_refl) as (w2 & E2 & P2).
    exists w2. split; [exact E2|]. by eapply prints_app. }
  destruct Hloop as (w1 & E1 & P1). unfold echo_arg in E1. rewrite E1, bind_Some_eq.
  destruct (print_prints nl w1 (prints_ok _ _ _ P1) (prints_texts _ _ _ P1 Ht)) as (w2 & -> & P2); [by left|].
  exists w2. split; [done|]. by eapply prints_app.
Qed.

(** ** A round of the shell *)

Record shell_layout : Prop := {
  sl_line : line_layout l lo hi (l_line l) MAX_LINE;
  sl_argv : user_range (l_argv l) (8 * MAX_ARGS);
  sl_apart : apart (l_argv l) (8 * MAX_ARGS) lo (hi - lo) ∧ apart (l_line l) MAX_LINE (l_argv l) (8 * MAX_ARGS)
}.

(** The arguments that a line gives. *)
Definition arguments (line : list Z) : list (list Z) := snd <$> take (Z.to_nat (MAX_ARGS - 1)) (words 0 [] line).

(** After the prompt and a line with some words, the command table decides. *)
Lemma shell_round_line w line out rest :
  u_ok w → texts lit lo hi (u_mem w) → shell_layout → Z.of_nat (length (u_keys w)) < 2 ^ 64 →
  edit MAX_LINE [] [] (u_keys w) = Some (line, out, rest) → arguments line ≠ [] →
  ∃ w1, shell_round lit l w = execute_command lit l (Z.of_nat (length (arguments line))) (l_argv l) w1
    ∧ u_ok w1 ∧ texts lit lo hi (u_mem w1) ∧ argv_holds w1 (l_argv l) (arguments line)
    ∧ u_console w1 = vga_puts (u_console w) (PROMPT ++ out) ∧ u_keys w1 = rest.
Proof using.
  intros Hok Ht [HL (Hv1 & _ & Hv2 & _) [Ha1 Ha2]] Hk He Hne. unfold shell_round.
  destruct (print_prints PROMPT w Hok Ht) as (w1 & -> & P1); [by repeat (left || right)|]. rewrite bind_Some_eq.
  pose proof P1 as (O1 & M1 & C1 & K1). pose proof (prints_texts _ _ _ P1 Ht) as Ht1.
  destruct (readline_ok lit l lo hi (l_line l) MAX_LINE w1 line out rest O1 Ht1 HL ltac:(done)) as
    (w2 & -> & O2 & S2 & C2 & K2 & [Hpr Hz] & Ht2 & M2); [by rewrite K1|by rewrite K1|].
  rewrite bind_Some_eq. assert (Hl0 : zlen line ≠ 0).
  { intros E. apply Hne. assert (line = []) as -> by (destruct line; [done|unfold zlen in E; simpl in E; lia]). done. }
  rewrite (proj2 (Z.eqb_neq _ 0)) by done. destruct HL as [HLb HLc [Ht3 Ht4] HLa].
  pose proof HLb as (B1 & _ & B2 & _). unfold MAX_LINE, MAX_ARGS, apart, USER_SPACE_END in *. assert (0 <= zlen line) by (unfold zlen; lia).
  destruct (parse_line_ok (l_line l) (l_argv l) 16 line (u_mem w2) S2) as (m' & -> & A & _ & Hin & M').
  { split; unfold apart; lia. }
  rewrite bind_Some_eq. set (args := take _ _) in *. assert (Hlen : length args = length (arguments line)) by (unfold arguments; by rewrite length_fmap).
  rewrite Hlen. destruct (u_set_mem_frame m' w2 O2) as (O3 & C3 & K3). exists (u_set_mem m' w2).
  rewrite (proj2 (Z.eqb_neq _ 0)) by (destruct (arguments line); [done|simpl; lia]). rewrite u_mem_set, C3, K3, C2, C1.
  split_and!; try done.
  - apply (texts_ext lit lo hi (u_mem w2)); [|done]. intros x Hx. apply M'; lia.
  - intros i s Hi. unfold arguments in Hi. apply list_lookup_fmap_Some in Hi as ([o wd] & -> & Hi). unfold arg. rewrite u_mem_set.
    destruct (A i o wd Hi) as [A1 A2]. destruct (Hin o wd) as [Ho1 Ho2]; [by eapply list_elem_of_lookup_2|].
    rewrite A1. split; [done|]. simpl. sub_range HLb.
Qed.

(** C21. The shell, from keys to screen.  When the keys typed make a line whose
    first word is [echo], a round of the shell prints the prompt, the echo of the
    typing and the other words (at most fourteen) separated by single blanks,
    leaves the later keys unread and is ready for the next round. *)
Theorem shell_echo w line out rest ws :
  u_ok w → texts lit lo hi (u_mem w) → shell_layout → Z.of_nat (length (u_keys w)) < 2 ^ 64 →
  edit MAX_LINE [] [] (u_keys w) = Some (line, out, rest) → arguments line = text "echo" :: ws →
  ∃ w', shell_round lit l w = Some (Some 0, w') ∧ u_ok w' ∧ texts lit lo hi (u_mem w') ∧ u_keys w' = rest
    ∧ u_console w' = vga_puts (u_console w) (PROMPT ++ out ++ echo_text ws ++ nl).
Proof using.
  intros Hok Ht HL Hk He Ea. destruct (shell_round_line w line out rest Hok Ht HL Hk He) as (w1 & E1 & O1 & T1 & A1 & C1 & K1);
    [by rewrite Ea|].
  rewrite Ea in E1, A1. rewrite E1. unfold execute_command. rewrite (proj2 (Z.eqb_neq _ 0)) by (simpl; lia).
  rewrite (dispatch_find commands _ _ ws (text "echo") w1 T1 A1) by (by repeat (constructor || left || right)).
  change (find_command commands (text "echo")) with (Some Cmd_echo). cbv iota. unfold handler.
  destruct (cmd_echo_prints (l_argv l) (text "echo") ws w1 O1 T1 A1) as (w2 & -> & (O2 & M2 & C2 & K2)).
  exists w2. rewrite M2, K2, K1, C2, C1. split_and!; try done. unfold vga_puts. rewrite !foldl_app. done.
Qed.

(** Unknown commands.  A line whose first word is not in the command table
    leads to a message with that word, and to nothing else. *)
Theorem shell_unknown w line out rest name ws :
  u_ok w → texts lit lo hi (u_mem w) → shell_layout → Z.of_nat (length (u_keys w)) < 2 ^ 64 →
  edit MAX_LINE [] [] (u_keys w) = Some (line, out, rest) → arguments line = name :: ws →
  name ∉ ((λ e, e.1.1) <$> commands) →
  ∃ w', shell_round lit l w = Some (Some 1, w') ∧ u_ok w' ∧ texts lit lo hi (u_mem w') ∧ u_keys w' = rest
    ∧ u_console w' = vga_puts (u_console w)
        (PROMPT ++ out ++ text "Unknown command: " ++ name ++ nl ++ text "Type 'help' for available commands." ++ nl).
Proof using.
  intros Hok Ht HL Hk He Ea Hn. destruct (shell_round_line w line out rest Hok Ht HL Hk He) as (w1 & E1 & O1 & T1 & A1 & C1 & K1);
    [by rewrite Ea|].
  rewrite Ea in E1, A1. rewrite E1. unfold execute_command. rewrite (proj2 (Z.eqb_neq _ 0)) by (simpl; lia).
  rewrite (dispatch_find commands _ _ ws name w1 T1 A1) by (by repeat (constructor || left || right)).
  rewrite find_command_None by done.
  destruct (unknown_command (Z.of_nat (length (name :: ws))) (l_argv l) ws name w1 O1 T1 A1) as (w2 & -> & (O2 & M2 & C2 & K2)).
  exists w2. rewrite M2, K2, K1, C2, C1. split_and!; try done. unfold vga_puts. rewrite !foldl_app. done.
Qed.

End commands.

(** ** A concrete shell *)

Module Sample.
Import Tty.

(** The literals, one after the other. *)
Fixpoint lit_from (ls : list (list Z)) (a : Z) (s : list Z) : Z :=
  match ls with
  | [] => a
  | t :: ls => if decide (t = s) then a else lit_from ls (a + zlen t + 1) s
  end.
Definition lit : list Z → Z := lit_from literals 0x10000.
Definition image : mem := write_bytes (λ _, 0) 0x10000 (concat ((λ s, s ++ [0]) <$> literals)).

Definition frame : locals := Locals 0x20000 0x20200 0x20300 0x20400 0x20600 0x20700.

Definition str_at (lit : list Z → Z) (m : mem) (s : list Z) : bool :=
  bool_decide (read_bytes m (lit s) (zlen s) = s) && forallb (λ b, negb (b =? 0)) s && (m (lit s + zlen s) =? 0)
  && (0x10000 <=? lit s) && (lit s + zlen s + 1 <=? 0x11000).

Lemma str_at_ok lit m s : str_at lit m s = true → cstr m (lit s) s ∧ 0x10000 <= lit s ∧ lit s + zlen s + 1 <= 0x11000.
Proof.
  unfold str_at. intros ((((H1%bool_decide_eq_true & H2)%andb_true_iff & H3%Z.eqb_eq)%andb_true_iff & H4%Z.leb_le)%andb_true_iff
    & H5%Z.leb_le)%andb_true_iff.
  split; [|lia]. split_and!; [exact H1| |exact H3]. apply Forall_forall. intros b Hb. rewrite forallb_forall in H2.
  apply list_elem_of_In in Hb. specialize (H2 b Hb). by to_prop.
Qed.

Lemma image_texts : texts lit 0x10000 0x11000 image.
Proof.
  assert (Hall : forallb (str_at lit image) literals = true) by (vm_compute; reflexivity).
  split; [by split_and!|]. intros s Hs. apply str_at_ok. rewrite forallb_forall in Hall.
  by apply Hall, list_elem_of_In.
Qed.

Lemma layout : shell_layout frame 0x10000 0x11000.
Proof. repeat split; unfold apart, frame, USER_SPACE_END, MAX_ARGS, MAX_LINE; simpl; lia. Qed.

(** "eX<delete>cho  hi<tab> you<enter>ls". *)
Definition keys : list Z := text "eX" ++ [127] ++ text "cho  hi" ++ [9] ++ text " you" ++ [13] ++ text "ls".
Definition t0 : tty := T image wit_console keys.

Definition typed : list Z := text "echo  hi you".
Definition echoed : list Z := text "eX" ++ [8; 32; 8] ++ text "cho  hi you" ++ nl.

Lemma keys_edit : edit MAX_LINE [] [] keys = Some (typed, echoed, text "ls").
Proof. vm_compute. reflexivity. Qed.

Definition t1 : tty := T image wit_console (text "foo bar" ++ [10]).

Lemma keys_edit_foo : edit MAX_LINE [] [] (text "foo bar" ++ [10]) = Some (text "foo bar", text "foo bar" ++ nl, []).
Proof. vm_compute. reflexivity. Qed.

(** A line in memory. *)
Definition line_mem : mem := write_bytes (λ _, 0) 0x20000 (text " cat  a b ").

End Sample.

Import Tty.

Lemma readline_spec_witness :
  ∃ t', readline Sample.lit Sample.frame 0x20000 MAX_LINE Sample.t0 = Some (12, t')
    ∧ cstr (t_mem t') 0x20000 Sample.typed ∧ t_keys t' = text "ls".
Proof.
  destruct (readline_spec Sample.lit Sample.frame 0x10000 0x11000 0x20000 MAX_LINE Sample.t0 Sample.typed Sample.echoed (text "ls")
    ltac:(exact I) Sample.image_texts (sl_line _ _ _ Sample.layout) ltac:(done) Sample.keys_edit ltac:(done))
    as (t' & E & S & _ & _ & K & _).
  exists t'. exact (conj E (conj S K)).
Defined.

Lemma parse_line_spec_witness :
  ∃ m', parse_line 0x20000 0x20200 16 Sample.line_mem = Some (3, m')
    ∧ load64 m' 0x20208 = 0x20006 ∧ cstr m' 0x20006 (text "a") ∧ load64 m' 0x20218 = 0.
Proof.
  assert (Hs : cstr Sample.line_mem 0x20000 (text " cat  a b ")).
  { split_and!; [vm_compute; reflexivity|by repeat constructor|vm_compute; reflexivity]. }
  assert (HL : parse_layout 0x20000 0x20200 16 (zlen (text " cat  a b "))).
  { change (zlen (text " cat  a b ")) with 10. split; unfold apart; lia. }
  destruct (parse_line_spec 0x20000 0x20200 16 (text " cat  a b ") Sample.line_mem Hs HL) as (m' & E & Hargs & Hz & _).
  exists m'. refine (conj E _). destruct (Hargs 1%nat 6 (text "a") eq_refl) as [H1 H2]. exact (conj H1 (conj H2 Hz)).
Defined.

Lemma shell_echo_witness :
  ∃ t', shell_round Sample.lit Sample.frame Sample.t0 = Some (Some 0, t') ∧ t_keys t' = text "ls"
    ∧ t_console t' = vga_puts wit_console (PROMPT ++ Sample.echoed ++ text "hi you" ++ nl).
Proof.
  destruct (shell_echo Sample.lit Sample.frame 0x10000 0x11000 Sample.t0 Sample.typed Sample.echoed (text "ls") [text "hi"; text "you"]
    ltac:(exact I) Sample.image_texts Sample.layout ltac:(done) Sample.keys_edit ltac:(reflexivity)) as (t' & E & _ & _ & K & C).
  exists t'. exact (conj E (conj K C)).
Defined.

Lemma shell_unknown_witness :
  ∃ t', shell_round Sample.lit Sample.frame Sample.t1 = Some (Some 1, t') ∧ t_keys t' = [].
Proof.
  assert (Hn : text "foo" ∉ ((λ e : list Z * list Z * cmd, e.1.1) <$> commands)).
  { intros Hin. assert (Hb : bool_decide (text "foo" ∈ ((λ e : list Z * list Z * cmd, e.1.1) <$> commands)) = false) by (vm_compute; reflexivity).
    by apply bool_decide_eq_false in Hb. }
  destruct (shell_unknown Sample.lit Sample.frame 0x10000 0x11000 Sample.t1 (text "foo bar") (text "foo bar" ++ nl) [] (text "foo") [text "bar"]
    ltac:(exact I) Sample.image_texts Sample.layout ltac:(done) Sample.keys_edit_foo ltac:(reflexivity) Hn) as (t' & E & _ & _ & K & _).
  exists t'. exact (conj E K).
Defined.
