(* ===== verification/Init.v ===== *)
(** * The first user program: user/init/init.c

    The program on the terminal interface of UserLib, with what it needs besides:
    its process number, sleeping and exiting ([Process]), where the exit prints
    the kernel's own messages.  The kernel provides that too, for a process that
    the scheduler comes back to.

    The string literals and the buffer of [print_uint] have addresses, [lit] and
    [buf]. *)

From Stdlib Require Import ZArith Lia String.
From stdpp Require Import base numbers list.
From S2P Require Import Prelude.
From S2P Require Import Mem.
From S2P Require Import KernelHeap.
From S2P Require Import Path.
From S2P Require Import Keyboard.
From S2P Require Import Vga.
From S2P Require Import Console.
From S2P Require Import Proc.
From S2P Require Import Vnode.
From S2P Require Import VfsSpec.
From S2P Require Import FsInit.
From S2P Require Import Syscall.
From S2P Require Import SyscallSpec.
From S2P Require Import UserLib.
From S2P Require Import Shell.

(** ** The program *)

Definition welcome : list (list Z) := [
  text "=================================" ++ nl;
  text "  Welcome to Chanux User Space!" ++ nl;
  text "=================================" ++ nl ++ nl ].

Definition running : list Z := text "Init process running (PID: ".

Definition testing : list (list Z) := [
  text ")" ++ nl ++ nl;
  text "Testing system calls:" ++ nl;
  text "  [OK] write() works" ++ nl ].

Definition yielded : list (list Z) := [text "  [OK] yield() returned" ++ nl; text "  Sleeping for 500ms..." ++ nl].

Definition slept : list (list Z) := [
  text "  [OK] sleep() returned" ++ nl;
  nl;
  text "All tests passed!" ++ nl;
  text "Init process exiting normally." ++ nl ].

Section program.
Import Libc.
Context {W : Type} `{UserSys W}.
Context (lit : list Z → Z) (buf : Z).
Implicit Types w : W.

(** Calls of [puts] in a row. *)
Definition put_all (l : list (list Z)) w : option W := foldl (λ ow s, w ← ow; '(_, w) ← puts (lit s) w; Some w) (Some w) l.

(** The state that the exit leaves. *)
Definition main w : option W :=
  w ← put_all welcome w;
  '(pid, w) ← getpid w;
  w ← put_all [running] w;
  w ← print_uint buf (u64 pid) w;
  w ← put_all testing w;
  '(_, w) ← yield w;
  w ← put_all yielded w;
  '(_, w) ← sleep 500 w;
  w ← put_all slept w;
  exit 0 w.

End program.

(** ** What a process relies on *)

(** What the kernel prints when a process exits: a line of [sys_exit], then one
    of [process_exit]. *)
Definition exit_messages (name : list Z) (pid code : Z) : list action :=
  [Say (text "syscall: Process '%s' (PID %d) exiting with code %d" ++ nl) [AStr (Some name); arg32 pid; arg32 code]]
  ++ tagged_line VGA_COLOR_LIGHT_BROWN "[PROC] " (text "Process '%s' (PID %d) exiting with code %d")
       [AStr (Some name); arg32 pid; arg32 code].

Lemma exit_messages_printed name pid code : printed (exit_messages name pid code).
Proof. apply fits_printed. fits_messages. Qed.

Class Process (W : Type) `{Terminal W} := {
  u_pid : Z;
  u_name : list Z;
  u_exited : Z → W → Prop;
  u_getpid w : u_ok w → ∃ w', syscall_raw SYS_GETPID 0 0 0 w = Some (u_pid, w') ∧ prints w w' [];
  u_sleep ms w : u_ok w → is_u64 ms → ∃ r w', syscall_raw SYS_SLEEP ms 0 0 w = Some (r, w') ∧ prints w w' [];
  u_exit code w : u_ok w → 0 <= code < 2 ^ 31 → ∃ r w', syscall_raw SYS_EXIT code 0 0 w = Some (r, w')
    ∧ u_exited code w' ∧ u_console w' = tell (exit_messages u_name u_pid code) (u_console w)
}.

(** ** What the program prints *)

Section run.
Import Libc.
Context {W : Type} `{UP : Process W}.
Context (lit : list Z → Z) (buf : Z).
Implicit Types w : W.

Definition init_literals : list (list Z) := welcome ++ [running] ++ testing ++ yielded ++ slept.

(** The literals are in memory, apart from the buffer. *)
Definition loaded (m : mem) : Prop :=
  ∀ s, s ∈ init_literals → user_str m (lit s) s ∧ (lit s + zlen s + 1 <= buf ∨ buf + 24 <= lit s).

(** From [w0] to [w] the program has printed [s] and can go on. *)
Definition goes w0 w (s : list Z) : Prop := u_ok w ∧ loaded (u_mem w) ∧ u_console w = vga_puts (u_console w0) s.

Lemma goes_prints w0 w1 w2 s1 s2 : goes w0 w1 s1 → prints w1 w2 s2 → goes w0 w2 (s1 ++ s2).
Proof.
  intros (_ & L1 & C1) (O2 & M2 & C2 & _). unfold goes. rewrite M2, C2, C1. unfold vga_puts. by rewrite foldl_app.
Qed.

Lemma put_all_goes l w0 w s :
  goes w0 w s → (∀ t, t ∈ l → t ∈ init_literals) → ∃ w', put_all lit l w = Some w' ∧ goes w0 w' (s ++ concat l).
Proof.
  revert w s. induction l as [|t l IH]; intros w s Hg Hl; [exists w; by rewrite app_nil_r|].
  pose proof Hg as (Hok & Hload & _). destruct (Hload t (Hl t ltac:(by left))) as [Ht _].
  destruct (puts_prints (lit t) t w Hok Ht) as (w1 & E & P).
  destruct (IH w1 (s ++ t) (goes_prints _ _ _ _ _ Hg P)) as (w2 & E2 & G2); [intros u Hu; apply Hl; by right|].
  exists w2. cbn [concat]. rewrite app_assoc. split; [|done]. unfold put_all in *. cbn [foldl]. rewrite bind_Some_eq, E. exact E2.
Qed.

Lemma loaded_ext m m' : loaded m → (∀ x, x < buf ∨ buf + 24 <= x → m' x = m x) → loaded m'.
Proof.
  intros Hl Hm s Hs. destruct (Hl s Hs) as [[(R & Z & T) Hr] Ha]. split; [|done]. split; [|done]. unfold zlen in Ha.
  split_and!; [|done|rewrite Hm by lia; done].
  rewrite (read_bytes_ext _ m); [done|]. intros x Hx. apply Hm. lia.
Qed.

(** C22. The first program.  [main] of init.c returns from every call, prints its
    messages in order with the decimal number of its process among them, and exits
    with code 0; the kernel's two messages about the exit follow on the console. *)
Theorem init_main_runs w :
  u_ok w → loaded (u_mem w) → user_range buf 24 → 0 <= u_pid < 2 ^ 31 →
  ∃ s w', main lit buf w = Some w' ∧ decimal u_pid s ∧ u_exited 0 w'
    ∧ u_console w' = tell (exit_messages u_name u_pid 0) (vga_puts (u_console w)
        (concat welcome ++ running ++ s ++ concat (testing ++ yielded ++ slept))).
Proof.
  intros Hok Hl Hb Hp. assert (G0 : goes w w []) by done. unfold main.
  assert (Hin : ∀ l k, init_literals = k ++ l ++ drop (length (k ++ l)) init_literals → ∀ t, t ∈ l → t ∈ init_literals).
  { intros l k E t Ht. rewrite E, !elem_of_app. auto. }
  destruct (put_all_goes welcome w w [] G0 (Hin _ [] eq_refl)) as (w1 & -> & G1). rewrite bind_Some_eq.
  unfold getpid, syscall0. destruct (u_getpid w1 (proj1 G1)) as (w2 & -> & P2). rewrite !bind_Some_eq, i32_id, u64_id by lia.
  pose proof (goes_prints _ _ _ _ _ G1 P2) as G2.
  destruct (put_all_goes [running] w w2 _ G2 (Hin _ welcome eq_refl)) as (w3 & -> & G3). rewrite bind_Some_eq.
  destruct (print_uint_decimal buf u_pid w3 (proj1 G3)) as (s & w4 & -> & Hd & O4 & _ & C4 & M4); [unfold is_u64; lia|done|].
  rewrite bind_Some_eq.
  assert (G4 : goes w w4 ((([] ++ concat welcome) ++ []) ++ concat [running] ++ s)).
  { split_and!; [done|exact (loaded_ext _ _ (proj1 (proj2 G3)) M4)|]. rewrite C4, (proj2 (proj2 G3)). unfold vga_puts.
    by rewrite <- foldl_app, <- app_assoc. }
  destruct (put_all_goes testing w w4 _ G4 (Hin _ (welcome ++ [running]) eq_refl)) as (w5 & -> & G5). rewrite bind_Some_eq.
  unfold yield, syscall0. destruct (u_yield w5 (proj1 G5)) as (r5 & w6 & -> & O6 & M6 & C6 & K6 & _). rewrite !bind_Some_eq.
  assert (P6 : prints w5 w6 []) by done. pose proof (goes_prints _ _ _ _ _ G5 P6) as G6.
  destruct (put_all_goes yielded w w6 _ G6 (Hin _ (welcome ++ [running] ++ testing) eq_refl)) as (w7 & -> & G7). rewrite bind_Some_eq.
  unfold sleep, syscall1. destruct (u_sleep 500 w7 (proj1 G7) ltac:(done)) as (r7 & w8 & E8 & P8).
  change (u64 500) with 500. rewrite E8, !bind_Some_eq. pose proof (goes_prints _ _ _ _ _ G7 P8) as G8.
  destruct (put_all_goes slept w w8 _ G8 (Hin slept (welcome ++ [running] ++ testing ++ yielded) eq_refl)) as (w9 & -> & G9). rewrite bind_Some_eq.
  unfold exit, syscall1. destruct (u_exit 0 w9 (proj1 G9) ltac:(lia)) as (r9 & w10 & E10 & X10 & C10).
  change (u64 0) with 0. rewrite E10, bind_Some_eq. exists s, w10. split_and!; [done|done|done|].
  rewrite C10, (proj2 (proj2 G9)). do 2 f_equal. rewrite !app_nil_r, !concat_app, <- !app_assoc. done.
Qed.

End run.

(** ** The kernel provides it *)

(** The scheduler leaves the number, the name and the exit code of a process alone. *)
Section ids.
Context {W : Type} `{ProcEnv W}.
Implicit Types s : sys W.

Definition ids s (i : Z) : Z * list Z * Z :=
  (pid (process_table s i), p_name (process_table s i), exit_code (process_table s i)).

Lemma ids_on s j f i :
  (∀ p, pid (f p) = pid p ∧ p_name (f p) = p_name p ∧ exit_code (f p) = exit_code p) → ids (on s j f) i = ids s i.
Proof.
  intros Hf. unfold ids. simpl. slots; [|done]. destruct (Hf (process_table s j)) as (E1 & E2 & E3). by rewrite E1, E2, E3.
Qed.

Lemma ids_table s s' i : process_table s' = process_table s → ids s' i = ids s i.
Proof. unfold ids. by intros ->. Qed.

Ltac same_ids :=
  repeat match goal with
  | |- ids ?s _ = ids ?s _ => reflexivity
  | |- ids (on ?s _ _) _ = _ => rewrite ids_on by (intros p; done)
  | |- ids (set_queue ?s _ _) _ = _ => rewrite (ids_table s) by reflexivity
  | |- ids (set_current ?s _) _ = _ => rewrite (ids_table s) by reflexivity
  | |- ids (set_need ?s _) _ = _ => rewrite (ids_table s) by reflexivity
  | |- ids (if ?b then _ else _) _ = _ => destruct b
  | |- ids (match ?x with Some _ => _ | None => _ end) _ = _ => destruct x
  end.

Lemma sched_add_ids s j i : ids (sched_add s j) i = ids s i.
Proof. unfold sched_add. cbv zeta. same_ids. Qed.

Lemma sched_pick_next_ids s i : ids (sched_pick_next s).2 i = ids s i.
Proof. unfold sched_pick_next. destruct (run_queue_head s); [|done]. cbv zeta. cbn [snd]. same_ids. Qed.

Lemma schedule_ids s i : ids (schedule s) i = ids s i.
Proof.
  unfold schedule. destruct (negb _); [done|]. destruct (current_process s) as [c|]; [|done].
  pose proof (sched_pick_next_ids s i) as Hp. destruct (sched_pick_next s) as [nx s1]. cbn [snd] in Hp. rewrite <- Hp.
  destruct (match nx with Some n => Some n | None => _ end) as [n|]; [|done]. cbv zeta. same_ids.
  rewrite sched_add_ids. same_ids.
Qed.

Lemma process_yield_ids s i : ids (process_yield s) i = ids s i.
Proof. unfold process_yield. destruct (current_process s); [|done]. cbv zeta. rewrite schedule_ids. unfold sched_reschedule. same_ids. Qed.

Lemma process_block_ids s i : ids (process_block s) i = ids s i.
Proof. unfold process_block. destruct (current_process s); [|done]. destruct (is_idle _); [done|]. rewrite schedule_ids. same_ids. Qed.

End ids.

Section kernel_process.
Context {A : Type} `{KernelHeap A} `{UserSpace} (resume : list Z → sys (world A) → sys (world A)).
Context (c P : Z) (N : list Z) (Hc : c ≠ 0) (HP : 0 <= P < 2 ^ 63).
#[local] Instance psys : UserSys (sys (world A) * list (list Z)) := kernel_sys resume.
Implicit Types s : sys (world A).
Implicit Types x : sys (world A) * list (list Z).

(** Slot [c] holds process [P], named [N]. *)
Definition named s : Prop := pid (process_table s c) = P ∧ p_name (process_table s c) = N.

(** It is the one that runs. *)
Definition alive s : Prop := (∃ q, run_wf s q c) ∧ named s.

(** The program goes on when the scheduler comes back to its process. *)
Definition comes_back : Prop :=
  ∀ l s, (∃ q d, run_wf s q d) → named s → alive (resume l s).

Lemma alive_world s w : alive s → alive (set_world s w).
Proof using. intros [[q Hw] Hp]. split; [|done]. exists q. by apply (run_wf_ext s). Qed.

Lemma alive_current s : alive s → current_process s = Some c.
Proof using. intros [[q [Hm _ _]] _]. exact (mw_current _ _ _ Hm). Qed.

Lemma ids_named s s' : ids s' c = ids s c → named s → named s'.
Proof using. unfold named. intros [= -> -> _]. done. Qed.

Lemma yield_away s : alive s → (∃ q d, run_wf (process_yield s) q d) ∧ named (process_yield s).
Proof using.
  intros [[q Hw] Hp]. split; [by apply (process_yield_run s q c)|].
  exact (ids_named _ _ (process_yield_ids s c) Hp).
Qed.

Lemma sleep_away s ms :
  alive s → ∃ s1, sys_sleep s ms = Some (0, s1) ∧ s_world s1 = s_world s ∧ (∃ q d, run_wf s1 q d) ∧ named s1.
Proof using.
  intros Ha. unfold sys_sleep. destruct (ms =? 0).
  { eexists. split; [done|]. split; [apply process_yield_world|by apply yield_away]. }
  rewrite (alive_current s Ha), bind_Some_eq. cbv zeta. destruct Ha as [[q Hw] Hp]. set (s1 := on s c _).
  assert (Hw1 : run_wf s1 q c) by (apply on_run; [intros p; done..|done]).
  assert (E1 : ids s1 c = ids s c) by (by apply ids_on). assert (W1 : s_world s1 = s_world s) by done. clearbody s1.
  pose proof (process_block_ids s1 c) as E2. destruct (process_block_run s1 q c Hw1) as (q2 & d & Hw2).
  assert (W2 : s_world (process_block s1) = s_world s1).
  { unfold process_block. destruct (current_process s1); [|done]. destruct (is_idle _); [done|]. by rewrite schedule_world. }
  set (s2 := process_block s1) in *. clearbody s2. rewrite <- W1, <- W2.
  assert (E3 : named s2) by (apply (ids_named s); [congruence|done]).
  destruct (bool_decide _); eexists; (split; [reflexivity|]); (split; [done|]); split.
  - exists q2, d. apply on_run; [intros p; done..|done].
  - by apply (ids_named s2); [apply ids_on|].
  - by exists q2, d.
  - done.
Qed.

Lemma exit_ends s code :
  alive s → ∃ s', sys_exit s code = Some (0, s') ∧ st s' c = PROCESS_STATE_TERMINATED ∧ exit_code (process_table s' c) = code
    ∧ current_process s' ≠ Some c ∧ w_console (s_world s') = tell (exit_messages N P code) (w_console (s_world s)).
Proof using Hc.
  intros Ha. pose proof (alive_current s Ha) as Ec. destruct Ha as [[q Hw] [Hp Hn]]. unfold sys_exit. rewrite Ec, bind_Some_eq, Hp, Hn.
  cbv zeta. set (l0 := [Say _ _]). set (s0 := says s l0).
  pose proof (process_exit_wf s0 q c code (says_run s q c _ Hw)) as He. destruct (process_exit s0 code) as [s'|] eqn:E; [|done].
  rewrite bind_Some_eq. exists s'. destruct He as (_ & _ & Hst & _). split; [done|]. split; [done|]. revert E. unfold process_exit.
  change (current_process s0) with (current_process s). rewrite Ec. destruct (is_idle _); [done|]. cbv zeta.
  change (process_table s0 c) with (process_table s c). rewrite Hp, Hn. set (l1 := tagged_line _ _ _ _). set (s00 := says s0 l1).
  set (s1 := if negb _ then _ else s00). set (s2 := on (on s1 c _) c _).
  case_bool_decide as Hcur; [done|]. intros [= <-]. split; [|split; [done|]].
  - pose proof (schedule_ids s2 c) as [= _ _ ->]. unfold s2. simpl. by slots.
  - rewrite schedule_world. change (exit_messages N P code) with (l0 ++ l1). rewrite tell_app by (unfold l0, l1; fits_messages).
    unfold s2, s1. simpl. by destruct (negb _).
Qed.

(** Writing to the console and reading the keyboard. *)
Lemma console_alive s buf len r s' : sys_write s 1 buf len = Some (r, s') → alive s → alive s'.
Proof using.
  unfold sys_write. destruct (negb _); [by intros [= <- <-]|]. change ((1 =? 1) || (1 =? 2)) with true. cbv iota.
  destruct (load_user _ _ _) as [str|]; [|done]. rewrite bind_Some_eq. intros [= <- <-]. apply alive_world.
Qed.

Lemma keyboard_alive s buf len r s' : sys_read s 0 buf len = Some (r, s') → alive s → alive s'.
Proof using.
  unfold sys_read. destruct (negb _); [by intros [= <- <-]|]. change (0 =? 0) with true. cbv iota.
  destruct (len =? 0); [by intros [= <- <-]|]. destruct (read_keys _ _) as [str k].
  unfold store_user. destruct (accessible _ _ _); [|done]. rewrite bind_Some_eq. intros [= <- <-] Ha. by apply alive_world, alive_world.
Qed.

Context (Hres : resumes resume) (Hback : comes_back).

(** The terminal of UserLib, with the process that runs. *)
#[local] Program Instance process_terminal : Terminal (sys (world A) * list (list Z)) := {
  u_ok x := terminal_ok x ∧ alive x.1;
  u_console x := w_console (s_world x.1);
  u_keys := keys_of;
  u_wait := wait_of
}.
Next Obligation. intros x [Hx _]. exact (u_wait_range (Terminal := kernel_terminal resume Hres) x Hx). Qed.
Next Obligation. done. Qed.
Next Obligation. intros m [s f] [Hx Ha]. by split; [split; [|apply alive_world]|]. Qed.
Next Obligation.
  intros buf len x [Hx Ha] Hr. destruct (kernel_write resume buf len x Hx Hr) as (x' & E & Hx' & Hrest). exists x'. split; [exact E|].
  split; [split; [done|]|exact Hrest]. destruct x as [s f]. cbn [syscall_raw psys kernel_sys fst snd] in E.
  change (syscall_dispatch s SYS_WRITE 1 buf len) with (sys_write s 1 buf len) in E.
  destruct (sys_write s 1 buf len) as [[r s']|] eqn:Es; [|done]. rewrite bind_Some_eq in E. injection E as [= _ <-].
  exact (console_alive s buf len r s' Es Ha).
Qed.
Next Obligation.
  intros buf x [Hx Ha] Hr. destruct (kernel_read resume buf x Hx Hr) as (r0 & x' & E & Hx' & Hrest). exists r0, x'. split; [exact E|].
  split; [split; [done|]|exact Hrest]. destruct x as [s f]. cbn [syscall_raw psys kernel_sys fst snd] in E.
  change (syscall_dispatch s SYS_READ 0 buf 1) with (sys_read s 0 buf 1) in E.
  destruct (sys_read s 0 buf 1) as [[r s']|] eqn:Es; [|done]. rewrite bind_Some_eq in E. injection E as [= _ <-].
  exact (keyboard_alive s buf 1 r s' Es Ha).
Qed.
Next Obligation.
  intros [s f] [Hx Ha]. destruct (yield_away s Ha) as [Hrun Hp]. eexists _, _. split.
  - cbn [syscall_raw psys kernel_sys fst snd]. change (syscall_dispatch s SYS_YIELD 0 0 0) with (Some (0, process_yield s)).
    rewrite bind_Some_eq. reflexivity.
  - destruct (resume_keys resume s (process_yield s) f Hres Hx (process_yield_world s)) as (Hx' & Hrest).
    split; [split; [done|by apply Hback]|exact Hrest].
Qed.

#[local] Program Instance kernel_process : Process (sys (world A) * list (list Z)) := {
  u_pid := P;
  u_name := N;
  u_exited code x := st x.1 c = PROCESS_STATE_TERMINATED ∧ exit_code (process_table x.1 c) = code ∧ current_process x.1 ≠ Some c
}.
Next Obligation.
  intros [s f] [Hx Ha]. cbn [fst] in Ha. exists (s, f). split; [|done]. cbn [syscall_raw psys kernel_sys fst snd].
  change (syscall_dispatch s SYS_GETPID 0 0 0) with (sys_getpid s). unfold sys_getpid.
  rewrite (alive_current s Ha), !bind_Some_eq. rewrite (proj1 (proj2 Ha)), (i64_id P) by lia. by rewrite i64_id by lia.
Qed.
Next Obligation.
  intros ms [s f] [Hx Ha] Hms. destruct (sleep_away s ms Ha) as (s1 & E & W1 & Hrun & Hp). eexists _, _. split.
  - cbn [syscall_raw psys kernel_sys fst snd]. change (syscall_dispatch s SYS_SLEEP ms 0 0) with (sys_sleep s ms).
    rewrite E, bind_Some_eq. reflexivity.
  - destruct (resume_keys resume s s1 f Hres Hx W1) as (Hx' & M & C & K & _). split_and!; [split; [done|by apply Hback]|done..].
Qed.
Next Obligation.
  intros code [s f] [Hx Ha] Hcode. destruct (exit_ends s code Ha) as (s' & E & X1 & X2 & X3 & C). eexists _, (s', f). split.
  - cbn [syscall_raw psys kernel_sys fst snd]. change (syscall_dispatch s SYS_EXIT code 0 0) with (sys_exit s (i32 code)).
    rewrite i32_id by lia. rewrite E, bind_Some_eq. reflexivity.
  - by split_and!.
Qed.

End kernel_process.

(** ** A concrete run *)

Module FirstRun.
Import GrowingHeap Tty.

Definition lit : list Z → Z := Sample.lit_from init_literals 0x10000.
Definition image : mem := write_bytes (λ _, 0) 0x10000 (concat ((λ s, s ++ [0]) <$> init_literals)).
Definition buf : Z := 0x20000.

(** The first process after boot, with the program's literals in its memory. *)
Definition s0 : sys (world Z) := on_world (k4 booted) (λ w, set_mem w image).

(** Characters are typed, and the process goes on where it stopped. *)
Definition back (l : list Z) (s : sys (world Z)) : sys (world Z) := type_keys l (set_world (k4 booted) (s_world s)).

Lemma back_resumes : resumes back.
Proof. intros l s. exact (type_keys_resumes l (set_world (k4 booted) (s_world s))). Qed.

Lemma booted_alive : alive 1 1 unnamed (k4 booted).
Proof.
  assert (Hv : vfs_ok booted [] [] FS_BOOT) by (apply (vfs_ok_weaken _ _ _ 1); [exact booted_vfs_ok|done]).
  destruct (k4_ok booted Hv) as [_ (q & d & Hw)]. pose proof (mw_current _ _ _ (rw_mid _ _ _ Hw)) as Hd.
  rewrite k4_current in Hd. injection Hd as [= <-]. split; [by exists q|split; reflexivity].
Qed.

Lemma back_comes : comes_back back 1 1 unnamed.
Proof. intros l s _ _. apply alive_world, alive_world, booted_alive. Qed.

Lemma image_loaded : loaded lit buf image.
Proof.
  assert (Hall : forallb (Sample.str_at lit image) init_literals = true) by (vm_compute; reflexivity).
  intros s Hs. rewrite forallb_forall in Hall. destruct (Sample.str_at_ok lit image s) as (S1 & S2 & S3).
  { by apply Hall, list_elem_of_In. }
  split; [split; [done|]|left; unfold buf; lia]. unfold user_range, USER_SPACE_END, zlen in *. split_and!; [lia|lia|lia|lia|done].
Qed.

Lemma s0_ready : terminal_ok (s0, []) ∧ alive 1 1 unnamed s0.
Proof.
  split; [|apply alive_world, booted_alive]. assert (Ek : kbd s0 = Keyboard.Keyboard (repeat 0 256) 0 0 false false false false) by (vm_compute; reflexivity).
  unfold terminal_ok, keys_of. cbn [fst snd]. rewrite Ek. split_and!; [by split|by vm_compute|vm_compute; lia|done|reflexivity].
Qed.

End FirstRun.

Import GrowingHeap Tty.

Lemma init_main_runs_witness :
  ∃ s x, main (H := kernel_sys FirstRun.back) FirstRun.lit FirstRun.buf (FirstRun.s0, []) = Some x ∧ decimal 1 s
    ∧ exit_code (process_table x.1 1) = 0
    ∧ w_console (s_world x.1) = tell (exit_messages unnamed 1 0) (vga_puts (w_console (s_world FirstRun.s0))
        (concat welcome ++ running ++ s ++ concat (testing ++ yielded ++ slept))).
Proof.
  assert (H1 : 1 ≠ 0) by done. assert (HP : 0 <= 1 < 2 ^ 63) by lia. assert (HP' : 0 <= 1 < 2 ^ 31) by lia.
  assert (Hb : user_range FirstRun.buf 24) by (unfold user_range; split_and!; done).
  destruct (init_main_runs (UP := kernel_process FirstRun.back 1 1 unnamed H1 HP FirstRun.back_resumes FirstRun.back_comes)
    FirstRun.lit FirstRun.buf (FirstRun.s0, []) FirstRun.s0_ready FirstRun.image_loaded Hb HP') as (s & x & E & Hd & X & C).
  exists s, x. exact (conj E (conj Hd (conj (proj1 (proj2 X)) C))).
Defined.
