(* ===== verification/ShellKernel.v ===== *)
(** * The shell on the kernel

    Two commands from the shell through the system calls.  [cat] prints the
    contents of the file, within the kernel invariant of SyscallSpec.  [ls] takes
    the inode number for the mode of the file. *)

From Stdlib Require Import ZArith Lia Ascii String.
From stdpp Require Import base numbers list gmap.
From S2P Require Import Prelude.
From S2P Require Import Mem.
From S2P Require Import KernelHeap.
From S2P Require Import Path.
From S2P Require Import Vga.
From S2P Require Import Proc.
From S2P Require Import Ramfs.
From S2P Require Import Vnode.
From S2P Require Import File.
From S2P Require Import Vfs.
From S2P Require Import VfsRefs.
From S2P Require Import VfsSpec.
From S2P Require Import FsInit.
From S2P Require Import Syscall.
From S2P Require Import SyscallSpec.
From S2P Require Import UserLib.
From S2P Require Import Shell.

(** A regular file open for reading, on inode [n]. *)
Record open_ro (s : vfs) (H : list file_ptr) (p : file_ptr) (n : Z) : Prop := {
  ro_held : p ∈ H;
  ro_vnode : ∃ v, f_vnode (v_file s p) = Some v ∧ vn_ops (v_vnode s v) = true ∧ vn_inode_num (v_vnode s v) = n;
  ro_file : ityp (v_fs s) n = INODE_TYPE_FILE;
  ro_access : Z.land (f_flags (v_file s p)) O_ACCMODE ≠ O_WRONLY;
  ro_offset : 0 <= f_offset (v_file s p) <= MAX_FILE_SIZE
}.

(** What a file has left, from the offset of an open file on. *)
Definition remaining (s : vfs) (p : file_ptr) (n : Z) : list Z :=
  file_bytes (v_fs s) n (f_offset (v_file s p)) (isize (v_fs s) n - f_offset (v_file s p)).

Lemma zlen_remaining s p n : zlen (remaining s p n) = Z.max 0 (isize (v_fs s) n - f_offset (v_file s p)).
Proof. unfold remaining, file_bytes, zlen. rewrite length_fmap, length_seqZ. lia. Qed.

Lemma file_bytes_take fs n o k j : file_bytes fs n o (Z.max 0 (Z.min k j)) = take (Z.to_nat k) (file_bytes fs n o j).
Proof.
  unfold file_bytes. rewrite <- fmap_take. f_equal. apply list_eq. intros i. destruct (decide (Z.of_nat i < Z.max 0 (Z.min k j))).
  - rewrite lookup_take_lt, !lookup_seqZ_lt by lia. done.
  - rewrite lookup_seqZ_ge by lia. symmetry. apply lookup_ge_None_2. rewrite length_take, length_seqZ. lia.
Qed.

Lemma file_bytes_drop fs n o k j : 0 <= k <= j → drop (Z.to_nat k) (file_bytes fs n o j) = file_bytes fs n (o + k) (j - k).
Proof.
  intros Hk. replace j with (k + (j - k)) at 1 by lia. rewrite file_bytes_app by lia.
  rewrite drop_app_length'; [done|]. unfold file_bytes. rewrite length_fmap, length_seqZ. done.
Qed.

Lemma file_bytes_ext fs fs' n o k : (∀ x, o <= x < o + k → file_byte fs' n x = file_byte fs n x) → file_bytes fs' n o k = file_bytes fs n o k.
Proof. intros E. unfold file_bytes. apply list_fmap_ext. intros i x Hx. apply lookup_seqZ in Hx as [-> Hi]. apply E. lia. Qed.

(** A read takes bytes from the front of what is left. *)
Lemma vfs_read_remaining s H k p n count :
  vfs_ok s [] H k → open_ro s H p n → 0 <= count < 2 ^ 63 →
  ∃ s', vfs_read s (Some p) count = Some (Some (take (Z.to_nat count) (remaining s p n)), s')
    ∧ open_ro s' H p n ∧ remaining s' p n = drop (Z.to_nat count) (remaining s p n).
Proof.
  intros Hok [Hp (v & Ev & Eo & En) Ht Ha Ho] Hc. pose proof Hok as (_ & Hwf & _).
  assert (E : ops_vnode s (v_file s p) = Some v) by (unfold ops_vnode; by rewrite Ev, bind_Some_eq, Eo).
  destruct (ops_vnode_inode s [] H k p v Hok Hp E) as (_ & _ & Hn & Hi). rewrite En in *.
  pose proof (fw_size _ Hwf n Hn Ht) as Hmax. set (o := f_offset (v_file s p)) in *.
  assert (HM : MAX_FILE_SIZE < 2 ^ 62) by (unfold MAX_FILE_SIZE; fs_consts; lia).
  destruct (ramfs_read_cases (v_fs s) n count o Hwf Hn Ht ltac:(lia) ltac:(lia) ltac:(lia)) as (fs & Er & _ & _ & _ & Ht' & Hs' & Hb & _).
  rewrite file_bytes_take in Er. fold (remaining s p n) in Er. set (bs := take (Z.to_nat count) (remaining s p n)) in *.
  exists (advanced s p fs (zlen bs)). split.
  { unfold vfs_read. cbv zeta. rewrite (proj2 (Z.eqb_neq _ _) Ha), E. unfold ramfs_vfs_read. rewrite Hi. fold o. rewrite Er.
    by rewrite !bind_Some_eq. }
  destruct (advanced_rest s p fs (zlen bs)) as [Efs Evn].
  assert (Hbs : zlen bs = Z.min count (zlen (remaining s p n))).
  { unfold bs, zlen. rewrite length_take. lia. }
  pose proof (zlen_remaining s p n) as Hr. fold o in Hr. assert (Hr0 : 0 <= zlen (remaining s p n)) by (unfold zlen; lia).
  pose proof (advanced_file s p fs (zlen bs) ltac:(lia) ltac:(fold o; lia) ltac:(fold o; lia)) as Ef. fold o in Ef.
  split.
  - split; rewrite ?Efs, ?Evn, ?Ef; simpl; try done; [by exists v|by rewrite Ht'|lia].
  - unfold remaining. rewrite Efs, Ef, Hs'. simpl. fold o.
    rewrite (file_bytes_ext (v_fs s)) by (intros x Hx; apply Hb; lia).
    destruct (Z.le_gt_cases count (isize (v_fs s) n - o)) as [Hle|Hgt].
    + rewrite file_bytes_drop by lia. f_equal; lia.
    + rewrite drop_ge by (unfold file_bytes; rewrite length_fmap, length_seqZ; lia).
      unfold file_bytes. rewrite seqZ_nil by lia. done.
Qed.

(** ** [ls] on the kernel *)

(** [sys_fstat] fills the structure of the kernel's vfs.h, with the inode number
    first; the shell reads the one of the user programs' syscall.h, with the mode
    first. *)
Lemma store_fstat_mode m a mode size ino : is_u32 ino → st_mode (store_fstat a mode size ino m) a = ino.
Proof. intros Hi. unfold st_mode, store_fstat. cbv zeta. rewrite !(load_store_ne 4 _ _ a) by lia. by rewrite load32_store32. Qed.

Lemma store_fstat_changes m a mode size ino : changes m (store_fstat a mode size ino m) a 72.
Proof. intros x Hx. unfold store_fstat. cbv zeta. by rewrite !store_ne by lia. Qed.

Section kernel_ls.
Import Libc.
Context {A : Type} `{KernelHeap A} `{UserSpace} (resume : list Z → sys (world A) → sys (world A)).
Context (lit : list Z → Z) (l : locals) (lo hi : Z).
#[local] Instance ksys : UserSys (sys (world A) * list (list Z)) := kernel_sys resume.
Implicit Types x : sys (world A) * list (list Z).

(** The vnode of an open descriptor of the current process. *)
Definition fd_vnode (s : sys (world A)) (fd : Z) : option vnode :=
  match fd_file s fd with
  | inr (Some (_, _, f)) => v_vnode (w_vfs (s_world s)) <$> f_vnode (v_file (w_vfs (s_world s)) f)
  | _ => None
  end.

Lemma user_range_valid_write buf len : user_range buf len → 0 < len → validate_user_ptr_write buf len = true.
Proof.
  intros (Hb & Hl & He & _) Hpos. unfold validate_user_ptr_write, validate_user_ptr_read, USER_SPACE_END in *.
  rewrite (proj2 (Z.eqb_neq buf 0)), (proj2 (Z.eqb_neq len 0)), (proj2 (Z.leb_gt _ buf)) by lia. simpl.
  rewrite u64_id by lia. rewrite (proj2 (Z.ltb_ge _ buf)), (proj2 (Z.ltb_ge _ (buf + len))) by lia. done.
Qed.

Lemma kernel_fstat fd buf x vn :
  w_pages (s_world x.1) = u_page → user_range buf 72 → 0 <= fd < 2 ^ 31 → fd_vnode x.1 fd = Some vn → is_u32 (vn_inode_num vn) →
  ∃ m, fstat fd buf x = Some (0, u_set_mem m x) ∧ changes (u_mem x) m buf 72 ∧ st_mode m buf = vn_inode_num vn.
Proof.
  intros Hpg Hr Hfd Hv Hi. destruct x as [s f]. unfold fstat, syscall2. pose proof Hr as (Hb & _ & He & _). unfold USER_SPACE_END in *.
  rewrite !u64_id by lia. cbn [syscall_raw ksys kernel_sys fst snd] in *.
  change (syscall_dispatch s SYS_FSTAT fd buf 0) with (sys_fstat s (i32 fd) buf). rewrite i32_id by lia. unfold sys_fstat.
  rewrite (user_range_valid_write buf sizeof_stat) by (done || unfold sizeof_stat; lia). cbn [negb].
  unfold fd_vnode in Hv. destruct (fd_file s fd) as [e|[[[a t] fp]|]]; [done| |done].
  destruct (f_vnode (v_file (w_vfs (s_world s)) fp)) as [i|]; [|done]. simpl in Hv. injection Hv as <-. cbv zeta.
  unfold store_user. rewrite (accessible_sub _ buf 72 buf 48) by (lia || by apply user_range_accessible). rewrite !bind_Some_eq.
  eexists. split_and!.
  - reflexivity.
  - apply store_fstat_changes.
  - by apply store_fstat_mode.
Qed.

Context (Hres : resumes resume).
#[local] Instance kterm : Terminal (sys (world A) * list (list Z)) := kernel_terminal resume Hres.

(** C39. [ls] takes the inode number for the file mode: the kernel and the user
    programs disagree about the layout of [stat_t].  Whatever the type of the
    file that was opened, a directory too, [ls] prints its path as if it were a
    plain file, unless its inode number happens to be 2. *)
Theorem ls_reads_inode_as_mode argc argv path s fd x x1 vn :
  path = (if 1 <? argc then arg x argv 1 else lit (text ".")) →
  open path O_RDONLY x = Some (fd, x1) → 0 <= fd < 2 ^ 31 → fd_vnode x1.1 fd = Some vn → is_u32 (vn_inode_num vn) →
  vn_inode_num vn ≠ 2 →
  terminal_ok x1 → texts lit lo hi (u_mem x1) → user_str (u_mem x1) path s →
  user_range (l_st l) 72 → apart (l_st l) 72 lo (hi - lo) → apart (l_st l) 72 path (zlen s + 1) →
  ∃ x2, cmd_ls lit l argc argv x = ('(_, x3) ← close fd x2; Some (Some 0, x3))
    ∧ w_console (s_world x2.1) = vga_puts (w_console (s_world x1.1)) (s ++ nl).
Proof.
  intros Ep Eo Hfd Hv Hi H2 Hok Ht Hs Hst Ha1 Ha2. unfold cmd_ls. rewrite <- Ep. cbv zeta. rewrite Eo, bind_Some_eq.
  rewrite (proj2 (Z.ltb_ge fd 0)) by lia. destruct (kernel_fstat fd (l_st l) x1 vn (proj2 (proj2 (proj2 (proj2 Hok)))) Hst Hfd Hv Hi) as (m & -> & Hm & Hmode).
  rewrite bind_Some_eq. change (u_mem (u_set_mem m x1)) with m. rewrite Hmode. change (0 <? 0) with false.
  rewrite (proj2 (Z.eqb_neq _ S_IFDIR)) by done. cbn [negb orb].
  set (x2 := u_set_mem m x1).
  assert (O2 : u_ok x2) by exact Hok.
  assert (T2 : texts lit lo hi (u_mem x2)) by (by apply (texts_changes lit lo hi (u_mem x1) _ (l_st l) 72)).
  assert (S2 : user_str (u_mem x2) path s).
  { destruct Hs as [Hs Hs']. split; [|done]. eapply cstr_ext; [|exact Hs]. intros y Hy. apply Hm. unfold apart in Ha2. lia. }
  destruct (puts_prints path s x2 O2 S2) as (x3 & -> & P3). rewrite bind_Some_eq.
  destruct (print_prints lit lo hi nl x3) as (x4 & -> & P4).
  { by destruct P3. }
  { by apply (prints_texts _ _ _ _ _ _ P3). }
  { by left. }
  exists x4. split; [done|]. exact (proj1 (proj2 (proj2 (prints_app _ _ _ _ _ P3 P4)))).
Qed.

End kernel_ls.

(** ** [cat] on the kernel *)

Section kernel_cat.
Import Libc.
Context {A : Type} `{KernelHeapLaws A} `{UserSpace} (resume : list Z → sys (world A) → sys (world A)).
Context (lit : list Z → Z) (l : locals).
#[local] Instance csys : UserSys (sys (world A) * list (list Z)) := kernel_sys resume.
Implicit Types s : sys (world A).
Implicit Types x : sys (world A) * list (list Z).

(** The descriptor [fd] of the current process is the open file [p] on inode
    [n], in a kernel within its invariant that runs the program. *)
Record reading (k fd : Z) (p : file_ptr) (n : Z) s : Prop := {
  rd_ok : kernel_ok s k;
  rd_file : ∃ a t, fd_file s fd = inr (Some (a, t, p));
  rd_open : open_ro (w_vfs (s_world s)) (owned s) p n;
  rd_pages : w_pages (s_world s) = u_page
}.

Definition left_of s (p : file_ptr) (n : Z) : list Z := remaining (w_vfs (s_world s)) p n.

Lemma sys_read_file k fd p n buf len s :
  reading k fd p n s → user_range buf len → 3 <= fd →
  let bs := take (Z.to_nat len) (left_of s p n) in
  ∃ s', sys_read s fd buf len = Some (zlen bs, s') ∧ reading k fd p n s' ∧ left_of s' p n = drop (Z.to_nat len) (left_of s p n)
    ∧ w_console (s_world s') = w_console (s_world s) ∧ w_mem (s_world s') = write_bytes (w_mem (s_world s)) buf bs.
Proof.
  intros [Hk (a & t & Hf) Ho Hpg] Hr Hfd bs. pose proof Hr as (Hb & Hl & He & _). unfold USER_SPACE_END in *.
  destruct (vfs_read_remaining _ _ _ _ _ len (own_vfs _ _ (proj1 Hk)) Ho ltac:(lia)) as (v & Ev & Ho' & Hrem).
  pose proof (sys_read_ok s k fd buf len Hk ltac:(unfold is_u64; lia) ltac:(unfold is_u64; lia)) as Hc.
  assert (Hsz : zlen bs <= len) by (unfold bs, zlen; rewrite length_take; lia).
  revert Hc. unfold sys_read. rewrite (user_range_valid buf len Hr). cbn [negb].
  rewrite (proj2 (Z.eqb_neq fd 0)), (proj2 (Z.eqb_neq fd 1)), (proj2 (Z.eqb_neq fd 2)) by lia. cbn [orb]. rewrite Hf, Ev, bind_Some_eq.
  unfold store_user. rewrite (accessible_sub _ buf len buf (zlen bs)) by (lia || by apply user_range_accessible).
  rewrite !bind_Some_eq. intros [Hk' _]. eexists. split; [reflexivity|]. split; [split; [done|by exists a, t|exact Ho'|done]|].
  split; [exact Hrem|]. done.
Qed.

Lemma sys_write_console k fd p n buf len s :
  reading k fd p n s → user_range buf len →
  ∃ s', sys_write s 1 buf len = Some (len, s') ∧ reading k fd p n s' ∧ left_of s' p n = left_of s p n
    ∧ w_console (s_world s') = vga_puts (w_console (s_world s)) (read_bytes (w_mem (s_world s)) buf len).
Proof.
  intros [Hk (a & t & Hf) Ho Hpg] Hr. pose proof Hr as (Hb & Hl & He & _). unfold USER_SPACE_END in *.
  pose proof (sys_write_ok s k 1 buf len Hk ltac:(unfold is_u64; lia) ltac:(unfold is_u64; lia)) as Hc.
  revert Hc. unfold sys_write. rewrite (user_range_valid buf len Hr). cbn [negb]. change ((1 =? 1) || (1 =? 2)) with true.
  cbv iota. unfold load_user. rewrite (user_range_accessible _ buf len Hpg Hr), !bind_Some_eq. intros [Hk' _].
  eexists. split; [reflexivity|]. split; [split; [done|by exists a, t|exact Ho|done]|]. done.
Qed.

(** One round of the loop of [cat]. *)
Lemma cat_round k fd p n s f :
  reading k fd p n s → user_range (l_buf l) 256 → 3 <= fd < 2 ^ 31 →
  let bs := take 256 (left_of s p n) in
  ∃ s', reading k fd p n s' ∧ w_console (s_world s') = vga_puts (w_console (s_world s)) bs ∧ left_of s' p n = drop 256 (left_of s p n)
    ∧ cat_step l fd (s, f) = if bool_decide (bs = []) then Stop (Some (s', f)) else Next (s', f).
Proof.
  intros Hrd Hr Hfd bs. pose proof Hr as (Hb & _ & He & _). unfold USER_SPACE_END in *.
  destruct (sys_read_file k fd p n (l_buf l) 256 s Hrd Hr ltac:(lia)) as (s1 & E1 & Hrd1 & L1 & C1 & M1).
  change (Z.to_nat 256) with 256%nat in *. fold bs in E1, M1.
  assert (Hlen : 0 <= zlen bs <= 256) by (unfold bs, zlen; rewrite length_take; lia).
  assert (Er : read fd (l_buf l) 256 (s, f) = Some (zlen bs, (s1, f))).
  { unfold read, syscall3. rewrite !u64_id by lia. cbn [syscall_raw csys kernel_sys fst snd].
    change (syscall_dispatch s SYS_READ fd (l_buf l) 256) with (sys_read s (i32 fd) (l_buf l) 256).
    rewrite i32_id by lia. rewrite E1, bind_Some_eq, i64_id by lia. done. }
  unfold cat_step. rewrite Er. case_bool_decide as Hbs.
  - exists s1. rewrite Hbs. change (0 <? zlen []) with false. cbv iota. split_and!; try done.
  - assert (Hpos : 0 < zlen bs) by (destruct bs; [done|unfold zlen; simpl; lia]). rewrite (proj2 (Z.ltb_lt 0 _)) by done.
    destruct (sys_write_console k fd p n (l_buf l) (zlen bs) s1 Hrd1) as (s2 & E2 & Hrd2 & L2 & C2).
    { sub_range Hr. }
    exists s2. split_and!; [done| |by rewrite L2|].
    + rewrite C2, C1, M1. unfold zlen. by rewrite read_write_bytes.
    + unfold write, syscall3. rewrite !u64_id by (rewrite ?u64_id; lia). cbn [syscall_raw csys kernel_sys fst snd].
      change (syscall_dispatch s1 SYS_WRITE 1 (l_buf l) (zlen bs)) with (sys_write s1 (i32 1) (l_buf l) (zlen bs)).
      change (i32 1) with 1. rewrite E2, bind_Some_eq. done.
Qed.

Lemma cat_runs k fd p n m s f :
  (length (left_of s p n) <= m)%nat → reading k fd p n s → user_range (l_buf l) 256 → 3 <= fd < 2 ^ 31 →
  ∃ j s', (j <= S m)%nat ∧ runs (cat_step l fd) j (s, f) (Some (s', f)) ∧ reading k fd p n s'
    ∧ w_console (s_world s') = vga_puts (w_console (s_world s)) (left_of s p n).
Proof.
  revert s. induction m as [m IH] using lt_wf_ind. intros s Hm Hrd Hr Hfd.
  destruct (cat_round k fd p n s f Hrd Hr Hfd) as (s1 & Hrd1 & C1 & L1 & E1). case_bool_decide as Hbs.
  - exists 1%nat, s1. assert (Hnil : left_of s p n = []) by (by destruct (left_of s p n)). rewrite Hbs in C1. rewrite Hnil.
    split_and!; [lia|by apply runs_stop|done|done].
  - assert (Hpos : (0 < length (left_of s p n))%nat) by (destruct (left_of s p n); [done|simpl; lia]).
    destruct (IH (m - 1)%nat ltac:(lia) s1) as (j & s2 & Hj & Hrun & Hrd2 & C2); [rewrite L1, length_drop; lia|done|done|done|].
    exists (S j), s2. split_and!; [lia|by eapply runs_next|done|]. rewrite C2, C1, L1. unfold vga_puts.
    by rewrite <- foldl_app, take_drop.
Qed.

(** C8. [cat] prints the file.  When the path given to [cat] opens as a regular
    file in a kernel within its invariant, [cat] returns, having printed exactly
    the bytes of the file. *)
Theorem cat_prints_file argc argv x fd x1 k p n :
  2 <= argc → open (arg x argv 1) O_RDONLY x = Some (fd, x1) → 3 <= fd < 2 ^ 31 → reading k fd p n x1.1 →
  f_offset (v_file (w_vfs (s_world x1.1)) p) = 0 → user_range (l_buf l) 256 →
  ∃ x', cmd_cat lit l argc argv x = Some (Some 0, x') ∧ kernel_ok x'.1 k
    ∧ let fs := v_fs (w_vfs (s_world x1.1)) in
      w_console (s_world x'.1) = vga_puts (w_console (s_world x1.1)) (file_bytes fs n 0 (isize fs n)).
Proof.
  intros Ha Eo Hfd Hrd Hoff Hr. unfold cmd_cat. rewrite (proj2 (Z.ltb_ge argc 2)) by lia. rewrite Eo, bind_Some_eq.
  rewrite (proj2 (Z.ltb_ge fd 0)) by lia. destruct x1 as [s f]. simpl in Hrd, Hoff.
  destruct (cat_runs k fd p n _ s f (le_n _) Hrd Hr Hfd) as (j & s2 & Hj & Hrun & Hrd2 & C2).
  assert (Hlen : Z.of_nat (length (left_of s p n)) < 2 ^ 62).
  { pose proof (zlen_remaining (w_vfs (s_world s)) p n) as Hz. destruct Hrd as [Hk _ [Hp (v & Ev & Eo' & En) Ht _ _] _].
    pose proof (own_vfs _ _ (proj1 Hk)) as Hvok. pose proof Hvok as (_ & Hwf & _).
    assert (E : ops_vnode (w_vfs (s_world s)) (v_file (w_vfs (s_world s)) p) = Some v) by (unfold ops_vnode; by rewrite Ev, bind_Some_eq, Eo').
    destruct (ops_vnode_inode _ [] _ k p v Hvok Hp E) as (_ & _ & Hn & _). rewrite En in Hn.
    pose proof (fw_size _ Hwf n Hn Ht). unfold left_of, zlen, MAX_FILE_SIZE in *. fs_consts. rewrite Hz, Hoff. lia. }
  rewrite (loop_runs _ _ _ _ Hrun) by (unfold WHILE_FUEL; lia). rewrite !bind_Some_eq.
  pose proof (sys_close_ok s2 k fd (rd_ok _ _ _ _ _ Hrd2)) as Hcl.
  destruct (sys_close s2 fd) as [[r s3]|] eqn:E3; [|by destruct Hcl]. destruct Hcl as [Hk3 _].
  assert (C3 : w_console (s_world s3) = w_console (s_world s2)).
  { revert E3. unfold sys_close. destruct (rd_file _ _ _ _ _ Hrd2) as (a & t & ->). destruct (fd <? 3); [by intros [= <- <-]|].
    destruct (vfs_close _ _) as [ok v]. by intros [= <- <-]. }
  exists (s3, f). split.
  - unfold close, syscall1. rewrite u64_id by lia. cbn [syscall_raw csys kernel_sys fst snd].
    change (syscall_dispatch s2 SYS_CLOSE fd 0 0) with (sys_close s2 (i32 fd)). rewrite i32_id by lia. rewrite E3, !bind_Some_eq. done.
  - split; [done|]. simpl. rewrite C3, C2. unfold left_of, remaining. by rewrite Hoff, Z.sub_0_r.
Qed.

End kernel_cat.

(** ** A concrete run *)

(** Opening a file and writing to one leave the program's memory and keys alone. *)
Lemma sys_open_frame {A} `{KernelHeap A} (s : sys (world A)) path flags r s' :
  sys_open s path flags = Some (r, s') →
  w_mem (s_world s') = w_mem (s_world s) ∧ w_kbd (s_world s') = w_kbd (s_world s) ∧ w_pages (s_world s') = w_pages (s_world s).
Proof.
  unfold sys_open. destruct (validate_user_string _ _ _) as [ok|]; [|done]. rewrite bind_Some_eq.
  destruct (negb _); [by intros [= <- <-]|]. destruct (current_table s) as [[a [t|]]|]; [|done|by intros [= <- <-]].
  destruct (user_path s path); [|by intros [= <- <-]]. destruct (fd_alloc _); [|by intros [= <- <-]].
  destruct (vfs_open _ _ _) as [[[f|] v]|]; [| |done]; rewrite bind_Some_eq; [by intros [= <- <-]|].
  destruct (fd_free v t z) as [t' v']. by intros [= <- <-].
Qed.

Lemma sys_write_pages {A} `{KernelHeap A} (s : sys (world A)) fd buf len r s' :
  sys_write s fd buf len = Some (r, s') → w_pages (s_world s') = w_pages (s_world s).
Proof.
  unfold sys_write. destruct (negb _); [by intros [= <- <-]|]. destruct (_ || _).
  { destruct (load_user _ _ _); [|done]. rewrite bind_Some_eq. by intros [= <- <-]. }
  destruct (fd =? 0); [by intros [= <- <-]|]. destruct (fd_file s fd) as [e|[[[a t] f]|]]; [by intros [= <- <-]| |done].
  destruct (vfs_write _ _ _) as [[n v]|]; [|done]. rewrite bind_Some_eq. destruct (load_user _ _ _); [|done].
  rewrite bind_Some_eq. by intros [= <- <-].
Qed.

Module CatRun.
Import GrowingHeap Tty.

(** The path "/a", the text "hi" and the argument vector of [cat /a]. *)
Definition image : mem := store64 (write_bytes (write_bytes (λ _, 0) 4096 [47; 97]) 4200 [104; 105]) 8200 4096.

Definition s0 : sys (world Z) := on_world (k4 booted) (λ w, set_mem w image).

Definition call (s : sys (world Z)) (num a b c : Z) : sys (world Z) :=
  match syscall_dispatch s num a b c with Some (_, s) => s | None => s end.

Lemma call_eq s num a b c r :
  (fst <$> syscall_dispatch s num a b c) = Some r → syscall_dispatch s num a b c = Some (r, call s num a b c).
Proof. unfold call. destruct (syscall_dispatch s num a b c) as [[r' s']|]; [|done]. by intros [= <-]. Qed.

Lemma call_kernel_ok s num a b c r k :
  (fst <$> syscall_dispatch s num a b c) = Some r → kernel_ok s k → k + 3 < 2 ^ 32 →
  is_u64 num → is_u64 a → is_u64 b → is_u64 c → num ≠ SYS_EXIT → kernel_ok (call s num a b c) (k + 3).
Proof.
  intros E Hok Hk Hn Ha Hb Hc Hne. pose proof (syscall_dispatch_ok s k num a b c Hok Hk Hn Ha Hb Hc (λ E, False_ind _ (Hne E))) as Hd.
  destruct (result_buffer _ _ _ _). rewrite (call_eq _ _ _ _ _ _ E) in Hd. apply Hd.
Qed.

(** /a is created, "hi" is written to it, and it is opened again. *)
Definition s1 : sys (world Z) := call s0 SYS_OPEN 4096 O_NEW 0.
Definition s2 : sys (world Z) := call s1 SYS_WRITE 3 4200 2.
Definition s3 : sys (world Z) := call s2 SYS_OPEN 4096 O_RDONLY 0.

Lemma results :
  (fst <$> syscall_dispatch s0 SYS_OPEN 4096 O_NEW 0) = Some 3 ∧ (fst <$> syscall_dispatch s1 SYS_WRITE 3 4200 2) = Some 2
  ∧ (fst <$> syscall_dispatch s2 SYS_OPEN 4096 O_RDONLY 0) = Some 4.
Proof. vm_compute. repeat split. Qed.

Lemma set_mem_ok s m k : kernel_ok s k → mem_wf m → kernel_ok (on_world s (λ w, set_mem w m)) k.
Proof.
  intros [Ho Hr] Hm. split; [|by apply run_world].
  apply (own_world s (set_mem (s_world s) m) k k); try done; [exact (own_vfs _ _ Ho)|exact (own_kbd _ _ Ho)].
Qed.

Lemma image_wf : mem_wf image.
Proof.
  assert (H1 : Forall (λ b, 0 <= b < 256) [47; 97]) by (repeat constructor; lia).
  assert (H2 : Forall (λ b, 0 <= b < 256) [104; 105]) by (repeat constructor; lia).
  assert (H0 : mem_wf (λ _, 0)) by (intros a; lia).
  exact (mem_wf_store _ _ _ _ (mem_wf_write_bytes _ _ _ (mem_wf_write_bytes _ _ _ H0 H1) H2)).
Qed.

Lemma booted_start_ok : vfs_ok booted [] [] FS_BOOT.
Proof. apply (vfs_ok_weaken _ _ _ 1); [exact booted_vfs_ok|done]. Qed.

Lemma s0_ok : kernel_ok s0 FS_BOOT.
Proof. exact (set_mem_ok (k4 booted) image FS_BOOT (k4_ok booted booted_start_ok) image_wf). Qed.

(** The numbers passed. *)
Lemma numbers : is_u64 SYS_OPEN ∧ is_u64 SYS_WRITE ∧ is_u64 O_NEW ∧ is_u64 O_RDONLY ∧ is_u64 4096 ∧ is_u64 4200 ∧ is_u64 0 ∧ is_u64 2 ∧ is_u64 3 ∧ SYS_OPEN ≠ SYS_EXIT ∧ SYS_WRITE ≠ SYS_EXIT.
Proof. by vm_compute. Qed.

Lemma s3_ok : kernel_ok s3 (FS_BOOT + 3 + 3 + 3).
Proof.
  destruct numbers as (NO & NW & N1 & N2 & N3 & N4 & N5 & N6 & N7 & N8 & N9). destruct results as (R0 & R1 & R2).
  pose proof (call_kernel_ok s0 SYS_OPEN 4096 O_NEW 0 3 FS_BOOT R0 s0_ok ltac:(done) NO N3 N1 N5 N8) as H1.
  pose proof (call_kernel_ok s1 SYS_WRITE 3 4200 2 2 (FS_BOOT + 3) R1 H1 ltac:(done) NW N7 N4 N6 N9) as H2.
  exact (call_kernel_ok s2 SYS_OPEN 4096 O_RDONLY 0 4 (FS_BOOT + 3 + 3) R2 H2 ltac:(done) NO N3 N2 N5 N8).
Qed.

Lemma s3_pages : w_pages (s_world s3) = u_page.
Proof.
  destruct results as (R0 & R1 & R2). apply call_eq in R0, R1, R2. fold s1 in R0. fold s2 in R1. fold s3 in R2.
  change (syscall_dispatch s0 SYS_OPEN 4096 O_NEW 0) with (sys_open s0 4096 (i32 O_NEW)) in R0.
  change (syscall_dispatch s1 SYS_WRITE 3 4200 2) with (sys_write s1 (i32 3) 4200 2) in R1.
  change (syscall_dispatch s2 SYS_OPEN 4096 O_RDONLY 0) with (sys_open s2 4096 (i32 O_RDONLY)) in R2.
  rewrite (proj2 (proj2 (sys_open_frame _ _ _ _ _ R2))), (sys_write_pages _ _ _ _ _ _ R1).
  exact (proj2 (proj2 (sys_open_frame _ _ _ _ _ R0))).
Qed.

(** The descriptor of the file opened last. *)
Definition file_of (s : sys (world Z)) (fd : Z) : option file_ptr :=
  match fd_file s fd with inr (Some (_, _, p)) => Some p | _ => None end.

Lemma s3_file :
  file_of s3 4 = Some (OpenFile 1)
  ∧ (let v := w_vfs (s_world s3) in let f := v_file v (OpenFile 1) in
     f_offset f = 0 ∧ (Z.land (f_flags f) O_ACCMODE =? O_WRONLY) = false
     ∧ match f_vnode f with
       | Some i => vn_ops (v_vnode v i) = true ∧ vn_inode_num (v_vnode v i) = 1 ∧ ityp (v_fs v) 1 = INODE_TYPE_FILE
       | None => False
       end
     ∧ isize (v_fs v) 1 = 2).
Proof. vm_compute. repeat split. Qed.

Lemma file_of_inv s fd p : file_of s fd = Some p → ∃ a t, fd_file s fd = inr (Some (a, t, p)).
Proof.
  unfold file_of. destruct (fd_file s fd) as [e|[[[a t] q]|]] eqn:E; [done| |done]. intros [= <-]. by exists a, t.
Qed.

Lemma reading_of k fd p n s :
  kernel_ok s k → w_pages (s_world s) = u_page → file_of s fd = Some p →
  (let v := w_vfs (s_world s) in let f := v_file v p in
   f_offset f = 0 ∧ (Z.land (f_flags f) O_ACCMODE =? O_WRONLY) = false
   ∧ match f_vnode f with
     | Some i => vn_ops (v_vnode v i) = true ∧ vn_inode_num (v_vnode v i) = n ∧ ityp (v_fs v) n = INODE_TYPE_FILE
     | None => False
     end
   ∧ isize (v_fs v) n = 2) → reading k fd p n s.
Proof.
  intros Hok Hpg Hf (Ho & Ha & Hv & _). apply file_of_inv in Hf as (a & t & Hf). destruct (f_vnode _) as [i|] eqn:Ei; [|done].
  destruct Hv as (V1 & V2 & V3). destruct (kernel_current s k Hok) as (c & Hc & Hs). split; [done|by exists a, t| |done]. split.
  - destruct (fd_file_cases s k c fd (proj1 Hok) Hc Hs) as [[e E]|(t' & f' & E & _ & _ & _ & _ & Hin)]; rewrite Hf in E; [done|].
    by injection E as _ _ <-.
  - by exists i.
  - done.
  - by apply Z.eqb_neq.
  - rewrite Ho. unfold MAX_FILE_SIZE. fs_consts. lia.
Qed.

Lemma s3_reading : reading (FS_BOOT + 3 + 3 + 3) 4 (OpenFile 1) 1 s3.
Proof. exact (reading_of (FS_BOOT + 3 + 3 + 3) 4 (OpenFile 1) 1 s3 s3_ok s3_pages (proj1 s3_file) (proj2 s3_file)). Qed.

(** The state before [cat], with no keys to come. *)
Definition x0 : sys (world Z) * list (list Z) := (s2, []).
Definition frame : locals := Locals 0x5000 8192 0x5200 0x6000 0x5300 0x5400.

Lemma x0_open :
  Libc.open (H := kernel_sys type_keys) (arg (H := kernel_sys type_keys) x0 8192 1) O_RDONLY x0 = Some (4, (s3, [])).
Proof.
  assert (Ha : arg (H := kernel_sys type_keys) x0 8192 1 = 4096) by (vm_compute; reflexivity). rewrite Ha. clear Ha.
  destruct results as (_ & _ & R2). apply call_eq in R2. fold s3 in R2.
  change (Libc.open (H := kernel_sys type_keys) 4096 O_RDONLY x0)
    with ('(r, x) ← ('(r, s) ← syscall_dispatch s2 SYS_OPEN 4096 O_RDONLY 0; Some (i64 r, (s, @nil (list Z)))); Some (i32 r, x)).
  rewrite R2. reflexivity.
Qed.

End CatRun.

Import GrowingHeap Tty.

Lemma cat_prints_file_witness :
  ∃ x', cmd_cat (H := kernel_sys type_keys) (λ _, 0) CatRun.frame 2 8192 CatRun.x0 = Some (Some 0, x')
    ∧ let fs := v_fs (w_vfs (s_world CatRun.s3)) in
      w_console (s_world x'.1) = vga_puts (w_console (s_world CatRun.s3)) (file_bytes fs 1 0 (isize fs 1))
      ∧ file_bytes fs 1 0 (isize fs 1) = [104; 105].
Proof.
  assert (Hu : user_range (l_buf CatRun.frame) 256) by (split_and!; [done..|by intros]).
  destruct CatRun.s3_file as (_ & Ho & _).
  destruct (cat_prints_file type_keys (λ _, 0) CatRun.frame 2 8192 CatRun.x0 4 (CatRun.s3, []) _ (OpenFile 1) 1
    ltac:(lia) CatRun.x0_open ltac:(lia) CatRun.s3_reading Ho Hu) as (x' & E & _ & C).
  exists x'. refine (conj E (conj C _)). clear. vm_compute. reflexivity.
Defined.

(** ** [ls] in the root directory *)

Module LsRun.
Import GrowingHeap Tty.

(** The first process after boot, with the literals of the shell in its memory. *)
Definition s0 : sys (world Z) := on_world (k4 booted) (λ w, set_mem w Sample.image).
Definition dot : Z := Sample.lit (text ".").
Definition s1 : sys (world Z) := CatRun.call s0 SYS_OPEN dot O_RDONLY 0.

Lemma s1_vnode :
  (fst <$> syscall_dispatch s0 SYS_OPEN dot O_RDONLY 0) = Some 3
  ∧ (vn_inode_num <$> fd_vnode s1 3) = Some 0 ∧ (vn_type <$> fd_vnode s1 3) = Some INODE_TYPE_DIR.
Proof. vm_compute. repeat split. Qed.

Lemma s0_kbd : w_kbd (s_world s0) = Keyboard.Keyboard (repeat 0 256) 0 0 false false false false.
Proof. vm_compute. reflexivity. Qed.

Lemma s1_frame :
  w_mem (s_world s1) = Sample.image ∧ w_kbd (s_world s1) = Keyboard.Keyboard (repeat 0 256) 0 0 false false false false
  ∧ w_pages (s_world s1) = u_page.
Proof.
  pose proof (CatRun.call_eq _ _ _ _ _ _ (proj1 s1_vnode)) as E. fold s1 in E.
  change (syscall_dispatch s0 SYS_OPEN dot O_RDONLY 0) with (sys_open s0 dot (i32 O_RDONLY)) in E.
  destruct (sys_open_frame _ _ _ _ _ E) as (Em & Ek & Ep). rewrite s0_kbd in Ek. exact (conj Em (conj Ek Ep)).
Qed.

End LsRun.

Lemma ls_reads_inode_as_mode_witness :
  (vn_type <$> fd_vnode LsRun.s1 3) = Some INODE_TYPE_DIR
  ∧ ∃ x2, cmd_ls (H := kernel_sys type_keys) Sample.lit Sample.frame 1 0 (LsRun.s0, [])
        = ('(_, x3) ← Libc.close (H := kernel_sys type_keys) 3 x2; Some (Some 0, x3))
      ∧ w_console (s_world x2.1) = vga_puts (w_console (s_world LsRun.s1)) (text "." ++ nl).
Proof.
  destruct LsRun.s1_frame as (Em & Ek & Epg). destruct LsRun.s1_vnode as (Eo & En & Ety). refine (conj Ety _).
  destruct (fd_vnode LsRun.s1 3) as [vn|] eqn:Ev; [|discriminate En]. injection En as En.
  assert (Hu : is_u32 (vn_inode_num vn)) by (rewrite En; clear; done). assert (H2 : vn_inode_num vn ≠ 2) by (rewrite En; clear; done).
  assert (Hopen : Libc.open (H := kernel_sys type_keys) LsRun.dot O_RDONLY (LsRun.s0, []) = Some (3, (LsRun.s1, []))).
  { apply CatRun.call_eq in Eo. fold LsRun.s1 in Eo.
    change (Libc.open (H := kernel_sys type_keys) LsRun.dot O_RDONLY (LsRun.s0, []))
      with ('(r, x) ← ('(r, s) ← syscall_dispatch LsRun.s0 SYS_OPEN LsRun.dot O_RDONLY 0; Some (i64 r, (s, @nil (list Z)))); Some (i32 r, x)).
    rewrite Eo. reflexivity. }
  assert (Hok : terminal_ok (LsRun.s1, [])).
  { unfold terminal_ok, keys_of, kbd. cbn [fst snd]. rewrite Ek. refine (conj _ (conj _ (conj _ (conj _ Epg)))); clear; [by split|by vm_compute|vm_compute; lia|done]. }
  assert (Ht : texts Sample.lit 0x10000 0x11000 (w_mem (s_world LsRun.s1))) by (rewrite Em; exact Sample.image_texts).
  assert (Hin : text "." ∈ literals) by (clear; by repeat (left || right)).
  pose proof (texts_str Sample.lit _ _ _ _ Ht Hin) as Hs.
  assert (Hdot : LsRun.dot = 0x10000 + 15) by (clear; vm_compute; reflexivity).
  destruct (ls_reads_inode_as_mode type_keys Sample.lit Sample.frame 0x10000 0x11000 type_keys_resumes 1 0 LsRun.dot (text ".") 3
    (LsRun.s0, []) (LsRun.s1, []) vn eq_refl Hopen ltac:(clear; lia) Ev Hu H2 Hok Ht Hs) as (x2 & E & C).
  - clear. split_and!; [done..|by intros].
  - unfold apart. simpl. clear. lia.
  - rewrite Hdot. unfold apart, zlen. simpl. clear. lia.
  - exists x2. exact (conj E C).
Defined.
